(* ===== verification/_CoqProject ===== *)
-Q . S2P
Prelude.v
GoFloat.v
GoString.v
Qr.v
QrField.v
QrScan.v
GoText.v
Naming.v
Names.v
Store.v
StoreNames.v
Lifecycle.v
Phrases.v
Resources.v
Throttle.v
Elastic.v
Labels.v
History.v
SizeClass.v
Classify.v
Placement.v
Plan.v
Assign.v
Routing.v
AutoPools.v
Reconcile.v
Settle.v
Pools.v
Allocate.v
Decide.v
Fleet.v
FleetSizes.v
Jobs.v
RateLimit.v
Rbac.v
Versions.v
Releases.v
Updates.v
Json.v
Webhook.v
Deliveries.v
Bus.v
Backend.v
Claims.v
Agent.v
AgentTasks.v
AgentLooks.v
AgentRuns.v
TaskQueue.v
Cleanup.v
Results.v
FleetPools.v
FleetRuns.v
FleetUpdates.v
FleetAgent.v
FleetResults.v
