(* ===== verification/Prelude.v ===== *)
(** * Zoomies: a verification development of the fleet's controller

    Zoomies runs a fleet of GitHub Actions runners: a controller keeps pools of
    runners on hosts, and on every pass decides which runners to create, drain,
    remove or fail.  The decision is one pure function, [Decide]
    (src/internal/scheduler/scheduler.go), from a snapshot of the fleet to a plan.
    This library models that function whole, with everything it calls, down to the
    sentences it gives operators; the other pure parts of the scheduler; the transitions
    of runners and jobs the store makes; the deliveries from GitHub that move them; the
    bus that tells the browsers; who may do what; what automatic updating does next; and
    the agent that carries the plan out on a host.

    ** The parts and how they interact

    A delivery is verified and read into a job's row ([HandleWebhook], [ToJob]), applied
    to the jobs table ([ApplyJob]) and to the runner it names ([StartRunnerJob],
    [CompleteRunnerJob]).  A job is given a size class when it is queued ([Classify]) and
    sent to another class when its own has no room ([Fallbacks]).  A pass sorts the pools,
    assigns every waiting job to the pool that fits it best ([assign], [bestOf]), works out
    each pool's target from its jobs and runners ([decidePool], with [reap] and
    [scaleDown]), and shares out the creates ([allocate], [grant]) against what is left on
    each host ([hostSet]).  What a runner costs on a host is [Reserve] and [ReducedSize];
    which hosts may take one is [HostCanRun], with the holds and the throttle of a host
    under pressure.  The store refuses a transition that would stop a job begun since the
    snapshot ([transitionRunner]).  Beside the pass, the reconciler makes pools from the
    hosts there are ([PlanAutoPools], [applyAutoPoolChange]) and lends idle memory
    ([DecideLoan], [PlanMemoryPool]).  What changed is published ([publish]), and a tab that
    comes back asks for what it missed ([SubscribeWithin]).  Every route asks [Allowed].  A
    planner of its own decides which machine is updated next ([updates_Decide]).

    A host's agent is sent tasks.  It refuses the malformed ([validateTask]), takes the
    runner's claim or waits for it ([claimOrQueue]), queues what makes a runner
    ([enqueue]) and runs a goroutine for each ([start], [go_step]), which asks a backend
    ([handleCreate], [handleStop], [handleRemove]).  Beside the tasks it compares what it
    believes with what its backends list ([ReconcileOnce]), reports, and clears up.
    The controller keeps a queue of tasks for each host, which the host polls ([enqueueTask],
    [poll_begin], [poll_end]).  What the host answers and reports ([ReportResult],
    [applyReports]) moves the runners' rows by the same transitions, settles the task's
    lease, and closes what is left of a runner ([ConfirmRunnerCleanup]); a task nobody
    answers is offered again and then given up ([sweepTasks]).

    ** Files

    - Prelude.v: tactics, the hint database [zoomies], 64-bit wrap-around, time,
      comparators as a class [CmpOrder] with stable sorting, and lemmas on lists.
    - GoFloat.v, GoString.v, GoText.v: Go's float64 (IEEE binary64, executable) and the
      parts of strings, unicode, strconv, fmt and time.Duration the program uses.
    - Qr.v, QrField.v, QrScan.v (src/internal/qr): the encoder; its field and its code; a
      scanner that knows only the picture, and the picture it is drawn as.
    - Naming.v, Names.v (src/internal/naming) and StoreNames.v (store/ids.go, brand.go): the
      platform vocabulary, the grammar of pool names, and minted names.
    - Store.v (src/internal/store: models.go, host_usage.go, host_throttle.go,
      runner_profile.go, size_class.go, brand.go, faults.go): the domain types and their
      pure methods.
    - Lifecycle.v: [transitionRunner], its entry points, [StartRunnerJob] and
      [CompleteRunnerJob] (queries_fleet.go), as transactions on a table of rows.
    - Phrases.v: the text functions the sentences are built from.
    - Resources.v: resources.go, profile.go and allocation.go.
    - Throttle.v: throttle.go, the holds of headroom.go and [ObserveHostUsage].
    - Elastic.v: elastic_loan.go and elastic_memory.go.
    - Labels.v: labels.go.  Assign.v: the assignment of jobs with its cache.
    - History.v: history.go.  SizeClass.v: sizeclass.go and observe.go.
    - Classify.v: classify.go and the controller's [refreshJobClass].  Routing.v: routing.go.
    - Placement.v: [hostSet] and the placement rule of scheduler.go, headroom.go,
      host_order.go and host_priority.go.
    - Plan.v, Pools.v, Allocate.v, Decide.v: the data of a pass, one pool's decision,
      the sharing out of creates and the pass itself, from scheduler.go.
    - AutoPools.v: autopools.go.  Reconcile.v, Settle.v: the controller's pass over the
      automatic pools (controller/autopools.go, minimum.go), and that it settles.
    - Jobs.v: [ApplyJob] (queries_events.go) and the timeline of [recordJobChange]
      (controller/jobs.go).
    - Json.v: the reader of encoding/json, as far as the deliveries use it.  Webhook.v:
      github/webhook.go and the endpoint of controller/webhooks.go.  Deliveries.v:
      [applyWorkflowJob], as steps of handlers that run alone or interleaved.
    - RateLimit.v: auth/ratelimit.go.  Rbac.v: auth/rbac.go, auth/visitor.go, and tokens as
      they are minted and presented.  Bus.v: events/bus.go.
    - Versions.v (version/compare.go), Releases.v (updates/release.go, target.go), Updates.v
      (updates/plan.go): the order of builds, the release to take, and the planner.
    - Backend.v (backend/backend.go, faults.go): what a backend is told and answers.
      Claims.v (agent/daemon.go, startup_queue.go, protocol.go): tasks, claims, the startup
      queue and the goroutines.  Agent.v (agent/reconcile.go, daemon.go): the agent's records
      and its pass.  AgentTasks.v (agent/daemon.go): the handlers.  AgentLooks.v: what a pass
      records of what it saw, and when.  AgentRuns.v: the agent's operations one after
      another, with its looks at the host and what the controller has accepted.
    - TaskQueue.v (controller/agents.go, host_recovery.go): a host's queue of tasks and the
      polls that wait on it.  Cleanup.v (store/queries_fleet.go): the cleanup columns of a
      runner's row.  Results.v (controller/agents.go, background.go, reconcile.go,
      timings.go): what is done with answers, reports and tasks nobody answered.
    - Fleet.v, FleetSizes.v, FleetPools.v, FleetRuns.v, FleetUpdates.v, FleetAgent.v,
      FleetResults.v: a small fleet and runs of it, with the theorems that have hypotheses applied to them;
      FleetRuns.v also has two runs that show what the handlers of deliveries do not rule
      out.

    ** How the code is represented

    A definition has the name of the Go function it translates; where a name is taken
    (the headroom [score] of a host) the comment says so.  A Go int and int64 is [Z]
    with [wrap64] written out wherever a sum of inputs could overflow ([+%], [-%],
    [*%], [/%]); counters bounded by the length of a slice are plain.  A float64 is a
    [spec_float].  A nil pointer is [None], and a slice of pointers a list of options.
    A map is a [gmap], read with the zero value where Go reads a missing key.  The
    mutable [hostSet], [tick] and plans are threaded as values: the pass holds the
    only reference to each.  A bus is a store of channels that subscriptions refer to by
    name, since a channel is closed while others hold it.  Time is a number of nanoseconds,
    0 the zero time, with which the first instant of 1970 is not told apart.  A nil
    dereference that Go would panic on makes [Decide] return [None]; so does a send on a
    closed channel of the bus.  Sorting is a stable insertion sort by the same comparator;
    the one unstable sort ([requirement_cmp]) is of values its comparator cannot tell apart
    except in counts that are only printed.  Random bytes, hashes, sealed secrets and what
    the store answers are arguments, or the operations of a class with the laws relied on.
    A host's backends, clock and context are such a class without laws ([Host]): they answer
    as they like.  The goroutines of an agent are steps on what they share, each from one
    wait to the next, in any order.  A queue of tasks is such a step relation too, a task put
    in it and the announcement of it being two steps.  A message of a host's is handled in an
    error and state monad ([R]) over the tables, in which the [n]th call of the store may
    fail as an argument says ([Outside]).

    ** What the theorems show

    - Decide.v: the pass keeps within the per-tick limit and the fleet's ceiling, every
      pool within its maximum, every host within its free slots and unpromised memory;
      every create is on a host that can run it for a pool that may scale; nothing with
      a job on it is stopped; the actions that free room come first; the allocation
      ends and leaves an enabled pool short only for a reason it states; the order of
      the snapshot's lists does not matter; and exactly which nils it panics on.  These
      rest on Allocate.v, where an allocation is a sequence of steps ([astep]) and each
      invariant is proved for one step; the memory rests on a ledger of what each create was
      charged on its host.
    - Assign.v and Labels.v: the cached assignment is the direct one, the direct one is
      the best eligible pool, and the label comparison decides GitHub's rule.
    - Pools.v: the reap loses no runner, scaling down stops at what is wanted, and the
      repository limit is kept.
    - Resources.v: the explanation of a host left out agrees with the test that left it
      out, reduced sizes stay in their bounds, the search for a machine ends and is
      right, and the totals by host are each host's own.
    - Throttle.v, Elastic.v: the ladder stays in range, climbs slowly and comes down, the
      CPU hold has its hysteresis; a loan is taken back for want of use and not for want of
      samples, and what is lent is within the machine.
    - Classify.v, SizeClass.v, Routing.v: a job's runner holds what the job needs, classes
      move down slowly and settle, and a job is sent only where it can run and there is room.
    - Settle.v: once a pass of the reconciler is carried out the next one changes nothing.
    - Placement.v: a host to be avoided is used only when there is no other, and a
      failed placement has one kind of explanation.
    - Lifecycle.v: reachable rows are well formed, draining and ending are one way, and
      a guarded transition never stops a job.
    - Jobs.v: a job ends in the furthest state any delivery named, whatever their order; a
      delivery heard again changes nothing; a timeline has each line once.
    - Webhook.v: nothing is done for a body that no configured secret signed, and a job is
      applied for the installation that signed it, where the envelope could be read.
    - Deliveries.v: handled one at a time, every runner's job is in progress on it; handled
      at once, a job's next completed delivery releases its runner.
    - Bus.v: the bus never panics, cuts a slow feed off without thinning it, and a client
      that comes back misses nothing it was not told of.
    - RateLimit.v: the limiter answers as one that forgets nothing, and says exactly how
      long to wait.
    - Rbac.v: no chain of tokens does what its first identity may not, a token does what its
      owner could do signed in, and a visitor only reads; and one request that sheds a
      token's limit.
    - Versions.v, Releases.v, Updates.v: builds that can be placed have a total order; the
      newest release is the newest; one machine is updated at a time, only when it is due and
      only forward; nothing moves that the mode does not allow; and a rollout with nothing in
      its way reaches every host and ends.
    - Claims.v: of whatever an agent is asked, one thing at a time is done to a runner, a
      remove is not lost, the queue is two plain queues, and the goroutines come to an end.
    - Agent.v, AgentTasks.v, AgentRuns.v: a pass deletes nothing before the controller knows
      how its runner ended, and nothing that was not seen to be over, or unclaimed, at a
      look long enough before; a backend that does not answer is taken to say nothing; a
      create sent again does not replace a runner; and a failure is one.
    - TaskQueue.v: deliveries are numbered and bounded, a task is outstanding until somebody
      is told, and no wake-up is lost.  Cleanup.v: a runner's cleanup is closed when both
      sides confirmed and counted once, however their writes cross.
    - Results.v: handling messages refines the transitions of Lifecycle.v and Cleanup.v
      ([tx]), so their invariants stand; a host changes only its own; a lease is kept until
      its answer is stored; an answer sent twice counts once; and a stop nobody confirms
      frees its runner, or a call of the store failed.  Each is proved of a handler by what its calls keep ([keeps]).
      And one that does not hold: a poll served in the middle of a result loses its lease.
    - Qr.v, QrScan.v, Names.v, StoreNames.v: what is encoded is read back from the symbol,
      a name that is written is parsed back, and minted names differ.

    ** Bounds and fuel

    [serve_tier] takes one more round than the runners still wanted, plus one;
    [serve_tier_done] shows that is enough.  [smallestFitting] takes 64 halvings, which
    cover every int64 interval ([smallestFitting_least]).  The doublings of a loan's backoff
    and the words dropped from a name stop by themselves within the counts given; thirteen
    digits in base 36 hold any int64.  The JSON reader takes twice the length of its input
    and two steps, more than it has tokens, and refuses what is nested 10000 deep, as
    encoding/json does.  A handler of a delivery takes four steps ([run_through_enough]).
    A create is tried again as often as the code tries it ([createBusyRetries]), and a host
    is asked for its workloads once more than there are [resolveRetryDelays]; neither is fuel.
    Hypotheses such as [plausible] and [measurable] say that IDs are unique, as the database
    makes them, and that sizes are below 2^53 or 2^62 megabytes; [short], that fewer than
    2^64 events were published.

    ** Not modelled

    Fields of rows no modelled function reads; SQL; the controller's loops and timers, what
    is done with a plan of updates, the pages, the installer, the command line and the
    features beside the fleet, which are I/O around what is here; the stamps of versions,
    sizes and run numbers on a job; sessions, passwords and OAuth; of a host's messages, the
    samples of resources, the rest of a heartbeat, and handlers that interleave: each is run
    alone, the queue's steps apart.  Of the agent: its
    transports, the backends themselves (Docker, Podman, processes), the throttle and the
    memory valve that move a live runner's limits, the cooldown of a failing runtime (a wait
    that ends), and the tasks that name no runner past the lane they wait in.  Of the
    scheduler package: the plan of elastic CPU (elastic_cpu.go), a water fill in floating
    point, and advice.go, recommend.go and providers.go, which are figures and sentences for
    operators; [Decide] calls none of them. *)
From Stdlib Require Import ZArith Lia Sorted Permutation.
From stdpp Require Import gmap strings list fin_maps sorting.

Local Open Scope Z_scope.

(** ** Proof automation shared by the development *)

(** [zoomies] collects the lemmas that close the routine side goals of the
    component proofs: facts about comparators, stable sorting and machine
    integers. *)
Create HintDb zoomies.

(** Turn every boolean test in the context and the goal into the proposition
    it decides. *)
Ltac bool_to_prop :=
  repeat match goal with
  | H : andb _ _ = true |- _ => apply andb_prop in H; destruct H
  | H : orb _ _ = false |- _ => apply orb_false_elim in H; destruct H
  | H : negb _ = true |- _ => apply negb_true_iff in H
  | H : negb _ = false |- _ => apply negb_false_iff in H
  | H : Z.ltb _ _ = true |- _ => apply Z.ltb_lt in H
  | H : Z.ltb _ _ = false |- _ => apply Z.ltb_ge in H
  | H : Z.leb _ _ = true |- _ => apply Z.leb_le in H
  | H : Z.leb _ _ = false |- _ => apply Z.leb_gt in H
  | H : Z.eqb _ _ = true |- _ => apply Z.eqb_eq in H
  | H : Z.eqb _ _ = false |- _ => apply Z.eqb_neq in H
  | H : bool_decide _ = true |- _ => apply bool_decide_eq_true_1 in H
  | H : bool_decide _ = false |- _ => apply bool_decide_eq_false_1 in H
  end.

(** Case on the condition of every [if] and the scrutinee of every [match] of
    the goal, keeping the equation. *)
Ltac case_match_all := repeat (case_match; simplify_eq/=).

(** The next early return of an option-valued function: the [None] branch is
    impossible, the [Some] branch goes on with the value. *)
Ltac step_option x E :=
  match goal with
  | |- match ?o with Some _ => _ | None => _ end = _ -> _ => destruct o as [x|] eqn:E; [|done]
  end.

(** ** Go's 64-bit signed integers

    [int] and [int64] are 64 bits wide on every platform the program is built
    for.  Arithmetic that a caller's figures could push past that width is
    written with the wrapping operators below; a counter that is bounded by the
    length of a slice is written with plain [Z]. *)
Definition int_min : Z := - 2 ^ 63.
Definition int_max : Z := 2 ^ 63 - 1.
Definition wrap64 (z : Z) : Z := (z + 2 ^ 63) mod 2 ^ 64 - 2 ^ 63.
Definition in_int64 (z : Z) : Prop := int_min <= z <= int_max.

Declare Scope go_scope.
Delimit Scope go_scope with go.
Notation "x +% y" := (wrap64 (x + y)) (at level 50, left associativity) : go_scope.
Notation "x -% y" := (wrap64 (x - y)) (at level 50, left associativity) : go_scope.
Notation "x *% y" := (wrap64 (x * y)) (at level 40, left associativity) : go_scope.
Notation "x '/%' y" := (wrap64 (Z.quot x y)) (at level 40, left associativity) : go_scope.
Open Scope go_scope.

Lemma wrap64_id z : in_int64 z -> wrap64 z = z.
Proof.
  unfold in_int64, int_min, int_max, wrap64. intros H.
  rewrite Z.mod_small by lia. lia.
Qed.

Lemma wrap64_range z : in_int64 (wrap64 z).
Proof.
  unfold in_int64, int_min, int_max, wrap64.
  pose proof (Z.mod_pos_bound (z + 2 ^ 63) (2 ^ 64) ltac:(lia)). lia.
Qed.

Lemma wrap64_idemp z : wrap64 (wrap64 z) = wrap64 z.
Proof. apply wrap64_id, wrap64_range. Qed.

(** A subtraction that stays between zero and a machine integer never wraps. *)
Lemma sub64_nonneg a b : in_int64 a -> 0 <= b <= a -> a -% b = a - b.
Proof. unfold in_int64, int_min, int_max. intros. apply wrap64_id. unfold in_int64, int_min, int_max. lia. Qed.

#[export] Hint Resolve wrap64_range : zoomies.
#[export] Hint Rewrite wrap64_idemp : zoomies.

(** ** Time

    [time.Time] is an instant, here in nanoseconds from the zero time (year 1,
    UTC), so that [IsZero] is equality with 0; [time.Duration] is an [int64] of
    nanoseconds.  [Sub] saturates at the ends of [Duration]'s range, as Go's
    does.  The monotonic reading a [Time] may carry is not part of the model:
    every instant the scheduler compares was read back from the database. *)
Abbreviation Time := Z (only parsing).
Abbreviation Duration := Z (only parsing).

Definition Nanosecond : Duration := 1.
Definition Microsecond : Duration := 1000.
Definition Millisecond : Duration := 1000 * Microsecond.
Definition Second : Duration := 1000 * Millisecond.
Definition Minute : Duration := 60 * Second.
Definition Hour : Duration := 60 * Minute.

Definition Time_Sub (t u : Time) : Duration := Z.max int_min (Z.min int_max (t - u)).
Definition Time_IsZero (t : Time) : bool := t =? 0.
Definition Time_After (t u : Time) : bool := u <? t.
Definition Time_Before (t u : Time) : bool := t <? u.

Lemma Time_Sub_range t u : in_int64 (Time_Sub t u).
Proof. unfold Time_Sub, in_int64, int_min, int_max. lia. Qed.

Lemma Time_Sub_ge t u d : in_int64 d -> d <= Time_Sub t u <-> d <= t - u \/ d = int_min.
Proof. unfold Time_Sub, in_int64, int_min, int_max. lia. Qed.

(** [Duration.Truncate] and [Duration.Round], for a positive unit. *)
Definition Duration_Truncate (d m : Duration) : Duration :=
  if m <=? 0 then d else d - Z.rem d m.
Definition Duration_Round (d m : Duration) : Duration :=
  if m <=? 0 then d else
  let r := Z.rem d m in
  if d <? 0 then
    let r := - r in
    if r + r <? m then d + r
    else let d1 := d -% (m - r) in if d1 <? d then d1 else int_min
  else
    if r + r <? m then d - r
    else let d1 := d +% (m - r) in if d <? d1 then d1 else int_max.

(** ** Go maps

    A read of a missing key is the zero value of the element type. *)
Definition map_get {A} (m : gmap string A) (k : string) (zero : A) : A := default zero (m !! k).

Lemma map_get_empty {A} k (zero : A) : map_get ∅ k zero = zero.
Proof. unfold map_get. by rewrite lookup_empty. Qed.

Lemma map_get_insert {A} (m : gmap string A) k v z : map_get (<[k:=v]> m) k z = v.
Proof. unfold map_get. by rewrite lookup_insert_eq. Qed.

Lemma map_get_insert_ne {A} (m : gmap string A) k k' v z :
  k <> k' -> map_get (<[k:=v]> m) k' z = map_get m k' z.
Proof. intros. unfold map_get. by rewrite lookup_insert_ne. Qed.

#[export] Hint Rewrite @map_get_insert : zoomies.

(** ** Comparators

    A Go comparator returns a negative, zero or positive [int]; here it returns
    a [comparison].  [CmpOrder] is what [slices.SortStableFunc] relies on: the
    comparator is a total preorder. *)
Class CmpOrder {A} (cmp : A -> A -> comparison) : Prop := {
  cmp_antisym : forall x y, cmp y x = CompOpp (cmp x y);
  cmp_le_trans : forall x y z, cmp x y <> Gt -> cmp y z <> Gt -> cmp x z <> Gt
}.

(** The order decides equality: two elements that compare equal are equal. *)
Class CmpDecides {A} (cmp : A -> A -> comparison) : Prop :=
  cmp_eq : forall x y, cmp x y = Eq -> x = y.

(** Comparators are built from keys and from one another. *)
Definition cmp_on {A B} (f : A -> B) (cmp : B -> B -> comparison) (x y : A) : comparison :=
  cmp (f x) (f y).
Definition cmp_rev {A} (cmp : A -> A -> comparison) (x y : A) : comparison := cmp y x.
Definition cmp_then (c d : comparison) : comparison :=
  match c with Eq => d | _ => c end.
Definition cmp_lex {A} (c d : A -> A -> comparison) (x y : A) : comparison :=
  cmp_then (c x y) (d x y).
(** The elements with the flag come first. *)
Definition cmp_flag (a b : bool) : comparison :=
  match a, b with true, false => Lt | false, true => Gt | _, _ => Eq end.
(** Present values come first, in the order of the values. *)
Definition cmp_option {A} (cmp : A -> A -> comparison) (x y : option A) : comparison :=
  match x, y with
  | Some a, Some b => cmp a b
  | Some _, None => Lt
  | None, Some _ => Gt
  | None, None => Eq
  end.

#[global] Typeclasses Opaque cmp_on cmp_rev cmp_lex cmp_flag cmp_option.

Section CmpFacts.
Context {A : Type} (cmp : A -> A -> comparison) `{!CmpOrder cmp}.

Lemma cmp_refl x : cmp x x = Eq.
Proof. pose proof (cmp_antisym (cmp:=cmp) x x). destruct (cmp x x); simpl in *; congruence. Qed.

Lemma cmp_lt_gt x y : cmp x y = Lt <-> cmp y x = Gt.
Proof. rewrite (cmp_antisym (cmp:=cmp) x y). destruct (cmp x y); simpl; intuition congruence. Qed.

Lemma cmp_not_gt_lt x y : cmp x y <> Lt -> cmp y x <> Gt.
Proof. rewrite (cmp_antisym (cmp:=cmp) x y). destruct (cmp x y); simpl; congruence. Qed.

Lemma cmp_lt_le_trans x y z : cmp x y = Lt -> cmp y z <> Gt -> cmp x z = Lt.
Proof.
  intros Hxy Hyz. destruct (cmp x z) eqn:E; [|done|];
    exfalso; apply (cmp_le_trans (cmp:=cmp) y z x Hyz); try (by apply cmp_lt_gt);
    rewrite (cmp_antisym (cmp:=cmp) x z), E; simpl; congruence.
Qed.

Lemma cmp_le_lt_trans x y z : cmp x y <> Gt -> cmp y z = Lt -> cmp x z = Lt.
Proof.
  intros Hxy Hyz. destruct (cmp x z) eqn:E; [|done|];
    exfalso; apply (cmp_le_trans (cmp:=cmp) z x y); try (by apply cmp_lt_gt); try done;
    rewrite (cmp_antisym (cmp:=cmp) x z), E; simpl; congruence.
Qed.

Lemma cmp_eq_trans x y z : cmp x y = Eq -> cmp y z = Eq -> cmp x z = Eq.
Proof.
  intros Hxy Hyz.
  assert (cmp x z <> Gt) by (apply (cmp_le_trans (cmp:=cmp) x y z); congruence).
  assert (cmp z x <> Gt).
  { apply (cmp_le_trans (cmp:=cmp) z y x);
      rewrite (cmp_antisym (cmp:=cmp)); [rewrite Hyz | rewrite Hxy]; simpl; congruence. }
  rewrite (cmp_antisym (cmp:=cmp) x z) in *. destruct (cmp x z); simpl in *; congruence.
Qed.

Lemma cmp_eq_sym x y : cmp x y = Eq -> cmp y x = Eq.
Proof. intros H. by rewrite (cmp_antisym (cmp:=cmp) x y), H. Qed.

#[global] Instance cmp_on_order {B} (f : B -> A) : CmpOrder (cmp_on f cmp).
Proof.
  split; unfold cmp_on; intros.
  - apply cmp_antisym.
  - by eapply cmp_le_trans.
Qed.

#[global] Instance cmp_rev_order : CmpOrder (cmp_rev cmp).
Proof.
  split; unfold cmp_rev; intros.
  - apply cmp_antisym.
  - by eapply cmp_le_trans.
Qed.

#[global] Instance cmp_option_order : CmpOrder (cmp_option cmp).
Proof.
  split.
  - intros [x|] [y|]; simpl; try done. apply cmp_antisym.
  - intros [x|] [y|] [z|]; simpl; try done. apply cmp_le_trans.
Qed.
End CmpFacts.

#[global] Instance cmp_lex_order {A} (c d : A -> A -> comparison) :
  CmpOrder c -> CmpOrder d -> CmpOrder (cmp_lex c d).
Proof.
  intros Hc Hd. split; unfold cmp_lex.
  - intros x y. rewrite (cmp_antisym (cmp:=c) x y), (cmp_antisym (cmp:=d) x y).
    by destruct (c x y).
  - intros x y z Hxy Hyz.
    destruct (c x y) eqn:E1; simpl in Hxy; [| |done];
      destruct (c y z) eqn:E2; simpl in Hyz; try done.
    + rewrite (cmp_eq_trans c _ _ _ E1 E2). simpl. by eapply cmp_le_trans.
    + by rewrite (cmp_le_lt_trans c x y z) by congruence.
    + by rewrite (cmp_lt_le_trans c x y z) by congruence.
    + by rewrite (cmp_lt_le_trans c x y z) by congruence.
Qed.

#[global] Instance cmp_flag_order : CmpOrder cmp_flag.
Proof. split; intros [] []; try intros []; done. Qed.

#[global] Instance Zcompare_order : CmpOrder Z.compare.
Proof.
  split; intros.
  - apply Z.compare_antisym.
  - rewrite !Z.compare_le_iff in *. lia.
Qed.

#[global] Instance Zcompare_decides : CmpDecides Z.compare.
Proof. intros x y. apply Z.compare_eq_iff. Qed.

(** [strings.Compare] is the order of the bytes. *)
Definition strings_Compare (a b : string) : comparison := String.compare a b.

Lemma ascii_compare_N (a b : Ascii.ascii) :
  Ascii.compare a b = N.compare (Ascii.N_of_ascii a) (Ascii.N_of_ascii b).
Proof. done. Qed.

#[global] Instance strings_Compare_decides : CmpDecides strings_Compare.
Proof. intros x y. apply String.compare_eq_iff. Qed.

#[global] Instance strings_Compare_order : CmpOrder strings_Compare.
Proof.
  split; unfold strings_Compare.
  - intros. apply String.compare_antisym.
  - intros x. induction x as [|a x IH]; intros [|b y] [|c z]; simpl; try done.
    rewrite !ascii_compare_N.
    destruct (N.compare_spec (Ascii.N_of_ascii a) (Ascii.N_of_ascii b)) as [E1|E1|E1];
      destruct (N.compare_spec (Ascii.N_of_ascii b) (Ascii.N_of_ascii c)) as [E2|E2|E2];
      destruct (N.compare_spec (Ascii.N_of_ascii a) (Ascii.N_of_ascii c)) as [E3|E3|E3];
      try done; try lia. apply IH.
Qed.

#[export] Hint Resolve cmp_refl : zoomies.

(** ** Stable sorting

    [slices.SortStableFunc], as an insertion sort: each element is put before
    the first one it is less than, so elements that compare equal keep their
    order.  For a comparator that is a [CmpOrder] the result of a stable sort
    is determined ([sort_unique]), so the algorithm Go uses is not observable. *)
Section Sort.
Context {A : Type}.
Variable cmp : A -> A -> comparison.

Fixpoint sort_insert (new : A) (sorted : list A) : list A :=
  match sorted with
  | y :: rest => match cmp new y with Lt => new :: sorted | _ => y :: sort_insert new rest end
  | [] => [new]
  end.

Definition SortStableFunc (l : list A) : list A := fold_left (fun acc x => sort_insert x acc) l [].

Lemma sort_insert_perm x l : Permutation (sort_insert x l) (x :: l).
Proof.
  induction l as [|y l IH]; simpl; [done|].
  destruct (cmp x y); [|done|]; rewrite IH; apply perm_swap.
Qed.

Lemma fold_insert_perm l acc :
  Permutation (fold_left (fun acc x => sort_insert x acc) l acc) (l ++ acc).
Proof.
  revert acc. induction l as [|x l IH]; intros acc; simpl; [done|].
  rewrite IH, sort_insert_perm. symmetry. apply Permutation_middle.
Qed.

Lemma sort_perm l : Permutation (SortStableFunc l) l.
Proof. unfold SortStableFunc. rewrite fold_insert_perm. by rewrite app_nil_r. Qed.

Lemma sort_elem_of x l : x ∈ SortStableFunc l <-> x ∈ l.
Proof. by rewrite sort_perm. Qed.

Lemma sort_length l : length (SortStableFunc l) = length l.
Proof. apply Permutation_length, sort_perm. Qed.

Lemma sort_nodup l : NoDup l -> NoDup (SortStableFunc l).
Proof. by rewrite sort_perm. Qed.

Context `{!CmpOrder cmp}.

Lemma sort_insert_sorted x l :
  StronglySorted (fun a b => cmp a b <> Gt) l ->
  StronglySorted (fun a b => cmp a b <> Gt) (sort_insert x l).
Proof.
  induction 1 as [|y l Hl IH Hy]; simpl; [by repeat constructor|].
  destruct (cmp x y) eqn:E.
  2: { constructor; [by constructor|]. constructor; [congruence|].
       eapply Forall_impl; [exact Hy|]. simpl. intros z Hz.
       by rewrite (cmp_lt_le_trans cmp x y z). }
  all: constructor; [done|]; rewrite sort_insert_perm; constructor; [|done];
    apply cmp_not_gt_lt; [done|congruence].
Qed.

Lemma sort_sorted l : StronglySorted (fun a b => cmp a b <> Gt) (SortStableFunc l).
Proof.
  unfold SortStableFunc.
  assert (H : StronglySorted (fun a b => cmp a b <> Gt) (@nil A)) by constructor.
  revert H. generalize (@nil A) as acc. induction l as [|x l IH]; intros acc H; simpl; [done|].
  by apply IH, sort_insert_sorted.
Qed.

(** Elements that the comparator tells apart are put in one order only. *)
Lemma sorted_perm_unique l l' :
  (forall x y, x ∈ l -> y ∈ l -> cmp x y = Eq -> x = y) ->
  StronglySorted (fun a b => cmp a b <> Gt) l -> StronglySorted (fun a b => cmp a b <> Gt) l' ->
  Permutation l l' -> l = l'.
Proof.
  intros Hinj Hl. revert l' Hinj. induction Hl as [|x l Hl IH Hx]; intros l' Hinj Hl' Hp.
  { by apply Permutation_nil in Hp. }
  destruct l' as [|y l']; [by symmetry in Hp; apply Permutation_nil in Hp|].
  inversion Hl' as [|? ? Hl'' Hy]; subst.
  assert (x = y) as <-.
  { assert (Hyin : y ∈ x :: l) by (rewrite Hp; left).
    assert (Hxin : x ∈ y :: l') by (rewrite <- Hp; left).
    apply elem_of_cons in Hyin as [->|Hyin]; [done|].
    apply elem_of_cons in Hxin as [->|Hxin]; [done|].
    rewrite Forall_forall in Hx, Hy.
    pose proof (Hx y Hyin) as H1. pose proof (Hy x Hxin) as H2.
    apply Hinj; [left|by right|].
    rewrite (cmp_antisym (cmp:=cmp) x y) in H2. destruct (cmp x y); simpl in *; congruence. }
  f_equal. apply IH; try done.
  - intros a b Ha Hb. apply Hinj; by right.
  - by apply Permutation_cons_inv in Hp.
Qed.

Lemma sort_unique l l' :
  (forall x y, x ∈ l -> y ∈ l -> cmp x y = Eq -> x = y) ->
  Permutation l l' -> SortStableFunc l = SortStableFunc l'.
Proof.
  intros Hinj Hp. apply sorted_perm_unique; auto using sort_sorted.
  - intros x y. rewrite !sort_elem_of. apply Hinj.
  - by rewrite !sort_perm.
Qed.

(** Sorting a list that is in order already changes nothing. *)
Lemma sort_insert_last x l :
  Forall (fun y => cmp y x <> Gt) l -> sort_insert x l = l ++ [x].
Proof.
  induction 1 as [|y l Hy Hl IH]; simpl; [done|].
  destruct (cmp x y) eqn:E; [by rewrite IH| |by rewrite IH].
  apply cmp_lt_gt in E; [congruence|done].
Qed.

Lemma sort_sorted_id l : StronglySorted (fun a b => cmp a b <> Gt) l -> SortStableFunc l = l.
Proof.
  unfold SortStableFunc. intros H.
  enough (forall l2 l1, StronglySorted (fun a b => cmp a b <> Gt) (l1 ++ l2) ->
    fold_left (fun acc x => sort_insert x acc) l2 l1 = l1 ++ l2) as E by by apply (E l []).
  clear l H. induction l2 as [|x l2 IH]; intros l1 H; simpl; [by rewrite app_nil_r|].
  assert (Hf : Forall (fun y => cmp y x <> Gt) l1).
  { clear IH. induction l1 as [|y l1 IH]; [constructor|].
    inversion H as [|? ? H1 H2]; subst. constructor; [|by apply IH].
    rewrite Forall_forall in H2. apply H2, elem_of_app. right. left. }
  rewrite sort_insert_last by done.
  rewrite IH; rewrite <- app_assoc; done.
Qed.
End Sort.

#[export] Hint Resolve sort_perm sort_sorted : zoomies.
#[export] Hint Rewrite @sort_elem_of @sort_length : zoomies.

(** ** Slices with nil entries

    A slice of pointers may hold nil.  [compact] (scheduler.go) copies a slice
    without them; code that reads through an entry without asking panics, which
    [derefs] records as [None]. *)
Definition derefs {A} (l : list (option A)) : option (list A) := mapM id l.

Lemma derefs_Some {A} (l : list A) : derefs (Some <$> l) = Some l.
Proof. apply mapM_fmap_Some. done. Qed.

Lemma derefs_None {A} (l : list (option A)) : derefs l = None <-> None ∈ l.
Proof.
  unfold derefs. induction l as [|[x|] l IH]; simpl.
  - split; [done|]. by intros ?%elem_of_nil.
  - rewrite elem_of_cons. destruct (mapM id l) eqn:E; simpl; split; intros H; try done.
    + destruct H as [H|H]; [done|]. by apply IH in H.
    + right. by apply IH.
  - split; [|done]. intros _. left.
Qed.

Lemma derefs_is_Some {A} (l : list (option A)) : None ∉ l -> is_Some (derefs l).
Proof. intros H. destruct (derefs l) eqn:E; [by eexists|]. by apply derefs_None in E. Qed.

Lemma derefs_omap {A} (l : list (option A)) l' : derefs l = Some l' -> l' = omap id l.
Proof.
  unfold derefs. revert l'. induction l as [|[x|] l IH]; intros l' H; simpl in *; [by injection H| |done].
  destruct (mapM id l) eqn:E; simpl in *; [|done].
  injection H as <-. f_equal. by apply IH.
Qed.

(** ** Counting *)
Definition countb {A} (f : A -> bool) (l : list A) : Z := Z.of_nat (length (List.filter f l)).

Lemma countb_nil {A} (f : A -> bool) : countb f [] = 0.
Proof. done. Qed.

Lemma countb_cons {A} (f : A -> bool) x l : countb f (x :: l) = (if f x then 1 else 0) + countb f l.
Proof. unfold countb. simpl. destruct (f x); simpl; lia. Qed.

Lemma countb_app {A} (f : A -> bool) l l' : countb f (l ++ l') = countb f l + countb f l'.
Proof. unfold countb. rewrite List.filter_app, length_app. lia. Qed.

Lemma countb_nonneg {A} (f : A -> bool) l : 0 <= countb f l.
Proof. unfold countb. lia. Qed.

Lemma countb_false {A} (f : A -> bool) l : Forall (fun x => f x = false) l -> countb f l = 0.
Proof. induction 1 as [|x l Hx Hl IH]; [done|]. by rewrite countb_cons, Hx. Qed.

Lemma countb_perm {A} (f : A -> bool) l l' : Permutation l l' -> countb f l = countb f l'.
Proof. unfold countb. induction 1; simpl; repeat case_match; simpl in *; lia. Qed.

Lemma countb_le_length {A} (f : A -> bool) l : countb f l <= Z.of_nat (length l).
Proof. unfold countb. induction l as [|x l IH]; simpl; [lia|]. destruct (f x); simpl; lia. Qed.

Lemma countb_pos {A} (f : A -> bool) l x : x ∈ l -> f x = true -> 0 < countb f l.
Proof.
  intros Hin Hf. apply list_elem_of_split in Hin as (l1 & l2 & ->).
  rewrite countb_app, countb_cons, Hf. pose proof (countb_nonneg f l1). pose proof (countb_nonneg f l2). lia.
Qed.

Lemma countb_exists {A} (f : A -> bool) l : 0 < countb f l -> exists x, x ∈ l /\ f x = true.
Proof.
  induction l as [|x l IH]; [rewrite countb_nil; lia|]. rewrite countb_cons. destruct (f x) eqn:E.
  - intros _. exists x. split; [left|done].
  - intros H. destruct IH as (y & ? & ?); [lia|]. exists y. split; [by right|done].
Qed.

#[export] Hint Rewrite @countb_nil @countb_cons @countb_app : zoomies.
#[export] Hint Resolve countb_nonneg : zoomies.

(** ** The least element of a list

    Go code that keeps the best so far in a loop: an element replaces it only when
    it is strictly better, so the first of equals stays. *)
Section MinBy.
Context {A : Type} (cmp : A -> A -> comparison).

Definition keep_best (best : option A) (x : A) : option A :=
  match best with
  | None => Some x
  | Some b => match cmp x b with Lt => Some x | _ => Some b end
  end.
Definition min_by (l : list A) : option A := foldl keep_best None l.

Lemma keep_best_is_Some best x : is_Some (keep_best best x).
Proof. destruct best; simpl; [case_match|]; eauto. Qed.

Lemma min_by_snoc l x : min_by (l ++ [x]) = keep_best (min_by l) x.
Proof. unfold min_by. by rewrite foldl_app. Qed.

Lemma min_by_None l : min_by l = None <-> l = [].
Proof.
  split; [|by intros ->]. destruct l as [|x l] using rev_ind; [done|].
  rewrite min_by_snoc. intros E. destruct (keep_best_is_Some (min_by l) x). congruence.
Qed.

Lemma min_by_elem l b : min_by l = Some b -> b ∈ l.
Proof.
  revert b. induction l as [|x l IH] using rev_ind; intros b; [done|].
  rewrite min_by_snoc, elem_of_app, list_elem_of_singleton. destruct (min_by l) as [y|]; simpl.
  - case_match; intros [= <-]; eauto.
  - intros [= <-]. eauto.
Qed.

Context `{!CmpOrder cmp}.

Lemma min_by_le l b x : min_by l = Some b -> x ∈ l -> cmp b x <> Gt.
Proof.
  revert b x. induction l as [|y l IH] using rev_ind; intros b x; [done|].
  rewrite min_by_snoc, elem_of_app, list_elem_of_singleton.
  destruct (min_by l) as [c|] eqn:E; simpl.
  - destruct (cmp y c) eqn:Ey; intros [= <-] [Hx| ->]; eauto; try (rewrite (cmp_refl cmp); done).
    + by rewrite (cmp_eq_sym cmp).
    + apply (cmp_le_trans (cmp:=cmp) y c x); [congruence|by apply IH].
    + apply cmp_lt_gt in Ey; [|done]. congruence.
  - intros [= <-] [Hx| ->]; [|by rewrite (cmp_refl cmp)].
    apply min_by_None in E as ->. by apply elem_of_nil in Hx.
Qed.

Lemma min_by_perm l l' :
  (forall x y, x ∈ l -> y ∈ l -> cmp x y = Eq -> x = y) ->
  Permutation l l' -> min_by l = min_by l'.
Proof.
  intros Hinj Hp. destruct (min_by l) as [b|] eqn:E, (min_by l') as [b'|] eqn:E'.
  - assert (Hb' : b' ∈ l) by (rewrite Hp; by apply min_by_elem).
    assert (Hb : b ∈ l') by (rewrite <- Hp; by apply min_by_elem).
    pose proof (min_by_le _ _ _ E Hb') as H1. pose proof (min_by_le _ _ _ E' Hb) as H2.
    f_equal. apply Hinj; [by apply min_by_elem|done|].
    rewrite (cmp_antisym (cmp:=cmp) b b') in H2. destruct (cmp b b'); simpl in *; congruence.
  - apply min_by_None in E' as ->. symmetry in Hp. apply Permutation_nil in Hp as ->. done.
  - apply min_by_None in E as ->. apply Permutation_nil in Hp as ->. done.
  - done.
Qed.
End MinBy.

(** ** Folds *)
Lemma foldl_ext_in {A B} (f g : A -> B -> A) (l : list B) (s : A) :
  (forall s x, x ∈ l -> f s x = g s x) -> foldl f s l = foldl g s l.
Proof.
  revert s. induction l as [|x l IH]; intros s H; [done|]. simpl.
  rewrite H by set_solver. apply IH. intros. apply H. set_solver.
Qed.

(** A loop over the indices and the entries of a slice. *)
Lemma elem_of_imap_pair {A} (l : list A) i x : (i, x) ∈ imap pair l <-> l !! i = Some x.
Proof.
  rewrite elem_of_lookup_imap. split.
  - intros (j & y & [= -> ->] & H). done.
  - intros H. by exists i, x.
Qed.

Lemma foldl_imap_snd {A B} (f : A -> B -> A) (l : list B) (s : A) :
  foldl (fun s '(i, x) => f s x) s (imap pair l) = foldl f s l.
Proof.
  induction l as [|x l IH] using rev_ind; [done|].
  rewrite imap_app, !foldl_app, IH. done.
Qed.

(** A loop that skips nil entries runs over the compacted slice. *)
Lemma foldl_skip_nil {A B} (f : A -> B -> A) (l : list (option B)) (s : A) :
  foldl (fun s o => match o with Some x => f s x | None => s end) s l = foldl f s (omap id l).
Proof. revert s. induction l as [|[x|] l IH]; intros s; simpl; auto. Qed.

(** A loop seen through a function of its state. *)
Lemma foldl_through {A B C} (g : A -> C) (f : A -> B -> A) (f' : C -> B -> C) (l : list B) (s : A) :
  (forall s x, x ∈ l -> g (f s x) = f' (g s) x) -> g (foldl f s l) = foldl f' (g s) l.
Proof.
  revert s. induction l as [|x l IH]; intros s H; [done|]. simpl.
  rewrite IH by (intros; apply H; by right). by rewrite H by left.
Qed.

Lemma foldl_concat {A B} (f : A -> B -> A) (ls : list (list B)) (s : A) :
  foldl (fun s l => foldl f s l) s ls = foldl f s (concat ls).
Proof. revert s. induction ls as [|l ls IH]; intros s; [done|]. simpl. by rewrite foldl_app, IH. Qed.

Lemma foldl_fmap_arg {A B C} (f : A -> C -> A) (g : B -> C) (l : list B) (s : A) :
  foldl f s (g <$> l) = foldl (fun s x => f s (g x)) s l.
Proof. revert s. induction l as [|x l IH]; intros s; [done|]. apply IH. Qed.

(** One update of a slice through an index, seen at one place. *)
Lemma at_index {A} (index : gmap string nat) (f : A -> A) (k : string) (i : nat) (l : list A) :
  match index !! k with Some j => alter f j l | None => l end !! i =
  (fun x => if decide (index !! k = Some i) then f x else x) <$> l !! i.
Proof.
  destruct (index !! k) as [j|]; [destruct (decide (Some j = Some i)) as [[= ->]|Hne]|].
  - by rewrite list_lookup_alter_eq.
  - rewrite list_lookup_alter_ne by congruence. by destruct (l !! i).
  - destruct (decide _); [done|]. by destruct (l !! i).
Qed.

Lemma foldl_Some {A B} (f : A -> B -> A) (l : list B) (s : A) :
  foldl (fun o x => (fun y => f y x) <$> o) (Some s) l = Some (foldl f s l).
Proof. revert s. induction l as [|x l IH]; intros s; [done|]. apply IH. Qed.

(** A loop that updates one entry of a slice, seen at one index. *)
Lemma foldl_at {A B} (step : list A -> B -> list A) (f : A -> B -> A) (i : nat) (l : list B) (out : list A) (x : A) :
  out !! i = Some x ->
  (forall out b, b ∈ l -> step out b !! i = (fun y => f y b) <$> out !! i) ->
  foldl step out l !! i = Some (foldl f x l).
Proof.
  intros Hx Hs. rewrite (foldl_through (fun out => out !! i) step (fun o b => (fun y => f y b) <$> o)).
  - by rewrite Hx, foldl_Some.
  - intros. by apply Hs.
Qed.

Lemma foldl_invariant {A B} (P : A -> Prop) (f : A -> B -> A) (l : list B) (s : A) :
  P s -> (forall s x, P s -> x ∈ l -> P (f s x)) -> P (foldl f s l).
Proof.
  revert s. induction l as [|x l IH]; intros s Hs H; [done|]. simpl.
  apply IH; [apply H; [done|left]|]. intros. apply H; [done|by right].
Qed.

Lemma omap_id_fmap_Some {A} (l : list A) : omap id (Some <$> l) = l.
Proof. induction l as [|x l IH]; [done|]. csimpl. f_equal. exact IH. Qed.

Lemma elem_of_omap_id {A} (l : list (option A)) x : x ∈ omap id l <-> Some x ∈ l.
Proof.
  rewrite list_elem_of_omap. split.
  - intros (y & Hy & E). simpl in E. by subst y.
  - intros H. by exists (Some x).
Qed.

(** Boolean filters. *)
Lemma elem_of_bfilter {A} (f : A -> bool) (l : list A) x : x ∈ List.filter f l <-> x ∈ l /\ f x = true.
Proof. rewrite !list_elem_of_In. apply List.filter_In. Qed.

#[export] Instance bfilter_perm_proper {A} (f : A -> bool) : Proper (Permutation ==> Permutation) (List.filter f).
Proof. induction 1; simpl; repeat case_match; eauto using perm_swap, Permutation_trans. Qed.
Lemma bfilter_perm {A} (f : A -> bool) : forall l k : list A, Permutation l k -> Permutation (List.filter f l) (List.filter f k).
Proof. apply bfilter_perm_proper. Qed.

Lemma bfilter_nodup {A} (f : A -> bool) (l : list A) : NoDup l -> NoDup (List.filter f l).
Proof. rewrite !NoDup_ListNoDup. apply List.NoDup_filter. Qed.

Lemma omap_perm {A B} (f : A -> option B) (l l' : list A) :
  Permutation l l' -> Permutation (omap f l) (omap f l').
Proof. induction 1; simpl; repeat case_match; eauto using perm_swap, Permutation_trans. Qed.

(** Elements with the same key are the same, where keys are unique. *)
Lemma NoDup_key {A B} (f : A -> B) (l : list A) x y :
  NoDup (f <$> l) -> x ∈ l -> y ∈ l -> f x = f y -> x = y.
Proof.
  intros Hnd Hx Hy E. apply list_elem_of_lookup in Hx as [i Hi]. apply list_elem_of_lookup in Hy as [j Hj].
  assert (i = j) as ->; [|congruence].
  eapply (NoDup_lookup _ _ _ _ Hnd); rewrite list_lookup_fmap; [by rewrite Hi|rewrite Hj; simpl; by rewrite E].
Qed.

Lemma NoDup_key_filter {A B} (f : A -> B) (g : A -> bool) (l : list A) :
  NoDup (f <$> l) -> NoDup (f <$> List.filter g l).
Proof.
  induction l as [|x l IH]; [done|]. rewrite fmap_cons, NoDup_cons. intros [Hx Hl]. simpl.
  destruct (g x); [|auto]. rewrite fmap_cons. constructor; [|auto]. intros Hin. apply Hx.
  apply list_elem_of_fmap in Hin as (y & E & Hin). apply elem_of_bfilter in Hin as [Hin _].
  apply list_elem_of_fmap. eauto.
Qed.

#[export] Hint Resolve bfilter_perm omap_perm : zoomies.
#[export] Hint Rewrite @elem_of_bfilter @elem_of_omap_id @omap_id_fmap_Some : zoomies.

(** Sorting by a comparator that tells keys apart, where no two elements share one. *)
Lemma sort_keyed {A} (cmp : A -> A -> comparison) `{!CmpOrder cmp} (key : A -> string) l l' :
  (forall x y, cmp x y = Eq -> key x = key y) -> NoDup (key <$> l) -> Permutation l l' ->
  SortStableFunc cmp l = SortStableFunc cmp l'.
Proof.
  intros Hk Hnd HP. apply sort_unique; [done| |done]. intros x y Hx Hy E. eapply NoDup_key; eauto.
Qed.

Lemma cmp_lex_eq {A} (c d : A -> A -> comparison) x y : cmp_lex c d x y = Eq -> c x y = Eq /\ d x y = Eq.
Proof. unfold cmp_lex. by destruct (c x y). Qed.
