(* ===== verification/GoFloat.v ===== *)
(** * Go's [float64]

    CPU figures are [float64] in the program, and the sums over them are part of
    what it promises, so they are kept as IEEE 754 binary64 values: [spec_float]
    of the core library with 53 bits of precision, whose operations are executable
    and round to nearest, ties to even.  This file adds what Go has and the core
    library has not: the builtin [min] and [max], conversions to and from
    integers, and the functions of package [math] the scheduler calls.

    Two points the language leaves open are fixed as the amd64 compiler fixes
    them: a product and a sum are rounded separately (no fused multiply-add), and
    a conversion to an integer that does not fit gives the least integer. *)
From Stdlib Require Import ZArith Lia.
From Stdlib Require Import SpecFloat.
From stdpp Require Import base numbers.
From S2P Require Import Prelude.
Local Open Scope Z_scope.

Abbreviation float64 := spec_float.

Definition f64_prec : Z := 53.
Definition f64_emax : Z := 1024.

(** A conversion [float64(z)] of an integer. *)
Definition f64_of_Z (z : Z) : float64 := binary_normalize f64_prec f64_emax z 0 false.

Definition fadd (x y : float64) : float64 := SFadd f64_prec f64_emax x y.
Definition fsub (x y : float64) : float64 := SFsub f64_prec f64_emax x y.
Definition fmul (x y : float64) : float64 := SFmul f64_prec f64_emax x y.
Definition fdiv (x y : float64) : float64 := SFdiv f64_prec f64_emax x y.
Definition fltb (x y : float64) : bool := SFltb x y.
Definition fleb (x y : float64) : bool := SFleb x y.
Definition feqb (x y : float64) : bool := SFeqb x y.

(** The literal [n/d], rounded once: both parts are exact, so this is the
    nearest binary64 to the decimal the source writes. *)
Definition f64_lit (n d : Z) : float64 := fdiv (f64_of_Z n) (f64_of_Z d).

Definition f64_zero : float64 := S754_zero false.
Definition f64_is_nan (x : float64) : bool := match x with S754_nan => true | _ => false end.
Definition f64_is_inf (x : float64) : bool := match x with S754_infinity _ => true | _ => false end.
Definition f64_sign (x : float64) : bool :=
  match x with S754_zero s | S754_infinity s | S754_finite s _ _ => s | S754_nan => false end.

(** The builtin [max] and [min] (and [math.Max], [math.Min]): NaN if either is,
    and a negative zero is less than a positive one. *)
Definition fmax (x y : float64) : float64 :=
  if f64_is_nan x || f64_is_nan y then S754_nan
  else if fltb x y then y
  else if fltb y x then x
  else if f64_sign x then y else x.
Definition fmin (x y : float64) : float64 :=
  if f64_is_nan x || f64_is_nan y then S754_nan
  else if fltb x y then x
  else if fltb y x then y
  else if f64_sign x then x else y.

Definition math_Abs (x : float64) : float64 := SFabs x.

(** An integral value with a given sign, for the rounding functions: they keep
    the sign of a result that is zero. *)
Definition f64_signed (s : bool) (z : Z) : float64 :=
  if z =? 0 then S754_zero s else f64_of_Z z.

Definition math_Floor (x : float64) : float64 :=
  match x with
  | S754_finite s m e =>
      if 0 <=? e then x
      else f64_signed s ((if s then Z.neg m else Z.pos m) / 2 ^ (- e))
  | _ => x
  end.

Definition math_Ceil (x : float64) : float64 := SFopp (math_Floor (SFopp x)).

(** [math.Round] rounds half away from zero. *)
Definition math_Round (x : float64) : float64 :=
  match x with
  | S754_finite s m e =>
      if 0 <=? e then x
      else let q := (2 * Z.pos m + 2 ^ (- e)) / (2 * 2 ^ (- e)) in
           f64_signed s (if s then - q else q)
  | _ => x
  end.

(** The exact integer part of a finite value, towards zero. *)
Definition f64_trunc (x : float64) : Z :=
  match x with
  | S754_finite s m e =>
      let a := if 0 <=? e then Z.pos m * 2 ^ e else Z.pos m / 2 ^ (- e) in
      if s then - a else a
  | _ => 0
  end.

(** A conversion [int64(x)] or [int(x)]. *)
Definition f64_to_int (x : float64) : Z :=
  match x with
  | S754_nan | S754_infinity _ => int_min
  | _ => let z := f64_trunc x in
         if (int_min <=? z) && (z <=? int_max) then z else int_min
  end.

Declare Scope f64_scope.
Delimit Scope f64_scope with f64.
Notation "x + y" := (fadd x y) : f64_scope.
Notation "x - y" := (fsub x y) : f64_scope.
Notation "x * y" := (fmul x y) : f64_scope.
Notation "x / y" := (fdiv x y) : f64_scope.
Notation "x <? y" := (fltb x y) : f64_scope.
Notation "x <=? y" := (fleb x y) : f64_scope.
Notation "x =? y" := (feqb x y) : f64_scope.
Notation "x >? y" := (fltb y x) (only parsing) : f64_scope.
Notation "x >=? y" := (fleb y x) (only parsing) : f64_scope.

Arguments fadd : simpl never.
Arguments fsub : simpl never.
Arguments fmul : simpl never.
Arguments fdiv : simpl never.
Arguments fltb : simpl never.
Arguments fleb : simpl never.
Arguments feqb : simpl never.
Arguments fmax : simpl never.
Arguments fmin : simpl never.
Arguments f64_of_Z : simpl never.
Arguments f64_lit : simpl never.
Arguments f64_to_int : simpl never.
Arguments math_Floor : simpl never.
Arguments math_Ceil : simpl never.
Arguments math_Round : simpl never.

#[global] Instance spec_float_eq_dec : EqDecision float64.
Proof. solve_decision. Defined.

(** ** Order

    [fltb], [fleb] and [feqb] read one comparison, so that outside NaN exactly
    one of the three relations holds. *)
Lemma SFcompare_antisym x y : SFcompare y x = CompOpp <$> SFcompare x y.
Proof.
  destruct x as [[]|[]| |[] m e], y as [[]|[]| |[] m' e']; simpl; try done.
  all: rewrite (Z.compare_antisym e e'); destruct (e ?= e'); simpl; try done.
  all: change (Pos.compare_cont Eq m' m) with (m' ?= m)%positive;
       change (Pos.compare_cont Eq m m') with (m ?= m')%positive;
       rewrite (Pos.compare_antisym m m'); by destruct (m ?= m')%positive.
Qed.

Lemma fltb_irrefl x : fltb x x = false.
Proof.
  unfold fltb, SFltb. pose proof (SFcompare_antisym x x) as H.
  destruct (SFcompare x x) as [[]|]; simpl in *; congruence.
Qed.

Lemma fltb_asym x y : fltb x y = true -> fltb y x = false.
Proof.
  unfold fltb, SFltb. rewrite (SFcompare_antisym x y).
  by destruct (SFcompare x y) as [[]|].
Qed.

Lemma fltb_fleb x y : fltb x y = true -> fleb x y = true.
Proof. unfold fltb, fleb, SFltb, SFleb. by destruct (SFcompare x y) as [[]|]. Qed.

Lemma fltb_not_fleb x y : fltb x y = true -> fleb y x = false.
Proof.
  unfold fltb, fleb, SFltb, SFleb. rewrite (SFcompare_antisym x y).
  by destruct (SFcompare x y) as [[]|].
Qed.

Lemma SFcompare_nan x y : SFcompare x y = None <-> x = S754_nan \/ y = S754_nan.
Proof.
  split.
  - destruct x, y; simpl; intros; try done; auto.
  - intros [-> | ->]; [done|]. by destruct x.
Qed.

Lemma fleb_total x y : x <> S754_nan -> y <> S754_nan -> fltb x y = false -> fleb y x = true.
Proof.
  intros Hx Hy. unfold fltb, fleb, SFltb, SFleb. rewrite (SFcompare_antisym x y).
  destruct (SFcompare x y) as [[]|] eqn:E; try done.
  by apply SFcompare_nan in E as [|].
Qed.

(** ** Integer conversions *)
Lemma f64_to_int_range x : in_int64 (f64_to_int x).
Proof.
  unfold f64_to_int, in_int64. destruct x; unfold int_min, int_max; try lia.
  - simpl. lia.
  - case_match; bool_to_prop; unfold int_min, int_max in *; lia.
Qed.

#[export] Hint Resolve f64_to_int_range : zoomies.

(** ** Integers below 2^53 are exact

    A memory size passes through [float64] on its way to a comparison or a share;
    below 2^53 nothing is lost, and the comparisons are those of the integers. *)
Lemma digits2_bounds m : 2 ^ (Z.pos (digits2_pos m) - 1) <= Z.pos m < 2 ^ Z.pos (digits2_pos m).
Proof.
  induction m as [m IH|m IH|]; cbn [digits2_pos]; [| |simpl; lia].
  all: rewrite Pos2Z.inj_succ; replace (Z.succ (Z.pos (digits2_pos m)) - 1) with (Z.pos (digits2_pos m)) by lia;
    rewrite Z.pow_succ_r by lia;
    replace (Z.pos (digits2_pos m)) with (Z.succ (Z.pos (digits2_pos m) - 1)) at 1 by lia;
    rewrite Z.pow_succ_r by lia; lia.
Qed.

Lemma digits2_unique m d : 0 < d -> 2 ^ (d - 1) <= Z.pos m < 2 ^ d -> Z.pos (digits2_pos m) = d.
Proof.
  intros Hd Hm. pose proof (digits2_bounds m) as Hb. set (k := Z.pos (digits2_pos m)) in *.
  assert (0 < k) by (subst k; lia). clearbody k.
  assert (k - 1 < d) by (apply (Z.pow_lt_mono_r_iff 2); lia).
  assert (d - 1 < k) by (apply (Z.pow_lt_mono_r_iff 2); lia). lia.
Qed.

Lemma iter_xO m d : Z.pos (Pos.iter xO m d) = Z.pos m * 2 ^ Z.pos d.
Proof.
  revert m. induction d as [|d IH] using Pos.peano_ind; intros m; [simpl; lia|].
  rewrite Pos.iter_succ. change (Z.pos (Pos.iter xO m d)~0) with (2 * Z.pos (Pos.iter xO m d)).
  rewrite IH, Pos2Z.inj_succ, Z.pow_succ_r by lia. lia.
Qed.

Lemma round_aux_exact s m e :
  Z.pos (digits2_pos m) = 53 -> -1074 <= e <= 971 ->
  binary_round_aux f64_prec f64_emax s (Z.pos m) e loc_Exact = S754_finite s m e.
Proof.
  intros Hd He.
  assert (Hshr : shr_fexp f64_prec f64_emax (Z.pos m) e loc_Exact = (Build_shr_record (Z.pos m) false false, e)).
  { unfold shr_fexp, fexp, emin, f64_prec, f64_emax. simpl Zdigits2. rewrite Hd.
    replace (Z.max (53 + e - 53) (3 - 1024 - 53) - e) with 0 by lia. done. }
  unfold binary_round_aux. rewrite Hshr. simpl. rewrite Hshr. simpl.
  replace (e <=? f64_emax - f64_prec) with true; [done|].
  symmetry. apply Z.leb_le. unfold f64_emax, f64_prec. lia.
Qed.

(** The mantissa is shifted up to 53 digits. *)
Lemma f64_of_pos s m :
  Z.pos m < 2 ^ 53 ->
  exists n, binary_round f64_prec f64_emax s m 0 = S754_finite s n (Z.pos (digits2_pos m) - 53) /\
            Z.pos n = Z.pos m * 2 ^ (53 - Z.pos (digits2_pos m)) /\ 1 <= Z.pos (digits2_pos m) <= 53.
Proof.
  intros Hm. pose proof (digits2_bounds m) as Hb. set (d := Z.pos (digits2_pos m)) in *.
  assert (1 <= d) by (subst d; lia).
  assert (d - 1 < 53) by (apply (Z.pow_lt_mono_r_iff 2); lia).
  unfold binary_round, shl_align, fexp, emin, f64_prec, f64_emax at 1. fold d.
  replace (Z.max (d + 0 - 53) (3 - 1024 - 53) - 0) with (d - 53) by (unfold f64_emax; lia).
  replace (Z.max (d + 0 - 53) (3 - f64_emax - 53)) with (d - 53) by (unfold f64_emax; lia).
  assert (Hn : forall n, Z.pos n = Z.pos m * 2 ^ (53 - d) -> Z.pos (digits2_pos n) = 53).
  { intros n Hn. apply digits2_unique; [lia|]. rewrite Hn.
    replace (2 ^ 53) with (2 ^ d * 2 ^ (53 - d)) by (rewrite <- Z.pow_add_r by lia; f_equal; lia).
    replace (2 ^ (53 - 1)) with (2 ^ (d - 1) * 2 ^ (53 - d)) by (rewrite <- Z.pow_add_r by lia; f_equal; lia).
    assert (0 < 2 ^ (53 - d)) by (apply Z.pow_pos_nonneg; lia). nia. }
  destruct (d - 53) as [|k|k] eqn:Ed; [|lia|].
  - exists m. assert (d = 53) as -> by lia. split; [|split; [lia|lia]].
    apply round_aux_exact; [apply Hn; lia|lia].
  - exists (Pos.iter xO m k).
    assert (Hk : Z.pos (Pos.iter xO m k) = Z.pos m * 2 ^ (53 - d)) by (rewrite iter_xO; do 2 f_equal; lia).
    split; [|split; [done|lia]]. apply round_aux_exact; [by apply Hn|lia].
Qed.

Definition exact_int (z : Z) : Prop := - 2 ^ 53 < z < 2 ^ 53.

Lemma f64_to_int_of_Z z : exact_int z -> f64_to_int (f64_of_Z z) = z.
Proof.
  unfold exact_int. intros Hz. unfold f64_of_Z, binary_normalize. destruct z as [|m|m]; [done| |].
  all: match goal with |- context [binary_round _ _ ?s _ 0] =>
         destruct (f64_of_pos s m ltac:(lia)) as (n & -> & Hn & Hd) end.
  all: unfold f64_to_int, f64_trunc; set (d := Z.pos (digits2_pos m)) in *.
  all: assert ((if 0 <=? d - 53 then Z.pos n * 2 ^ (d - 53) else Z.pos n / 2 ^ (- (d - 53))) = Z.pos m) as ->.
  1, 3: destruct (Z.leb_spec 0 (d - 53)).
  1, 3: rewrite Hn; assert (d = 53) as -> by lia; change (2 ^ (53 - 53)) with 1; lia.
  1, 2: rewrite Hn; replace (- (d - 53)) with (53 - d) by lia; apply Z.div_mul; apply Z.pow_nonzero; lia.
  all: simpl Z.opp; replace (_ && _) with true; [done|].
  all: symmetry; apply andb_true_intro; unfold int_min, int_max; rewrite !Z.leb_le; lia.
Qed.

Lemma fcompare_of_Z x y : exact_int x -> exact_int y ->
  SFcompare (f64_of_Z x) (f64_of_Z y) = Some (x ?= y).
Proof.
  unfold exact_int. intros Hx Hy.
  assert (Hpp : forall m n m' n', Z.pos m < 2 ^ 53 -> Z.pos m' < 2 ^ 53 ->
    Z.pos n = Z.pos m * 2 ^ (53 - Z.pos (digits2_pos m)) -> Z.pos n' = Z.pos m' * 2 ^ (53 - Z.pos (digits2_pos m')) ->
    1 <= Z.pos (digits2_pos m) <= 53 -> 1 <= Z.pos (digits2_pos m') <= 53 ->
    match Z.pos (digits2_pos m) - 53 ?= Z.pos (digits2_pos m') - 53 with
    | Eq => Pos.compare_cont Eq n n' | Lt => Lt | Gt => Gt end = (Z.pos m ?= Z.pos m')).
  { intros m n m' n' Hm Hm' En En' Hd Hd'.
    pose proof (digits2_bounds m) as Hb. pose proof (digits2_bounds m') as Hb'.
    set (d := Z.pos (digits2_pos m)) in *. set (d' := Z.pos (digits2_pos m')) in *.
    destruct (Z.compare_spec (d - 53) (d' - 53)) as [E|E|E].
    - assert (d' = d) as Ed by lia. rewrite Ed in *.
      change (Pos.compare_cont Eq n n') with (Z.pos n ?= Z.pos n'). rewrite En, En'.
      assert (0 < 2 ^ (53 - d)) by (apply Z.pow_pos_nonneg; lia).
      symmetry. by apply Zmult_compare_compat_r, Z.lt_gt.
    - symmetry. apply Z.compare_lt_iff.
      assert (2 ^ d <= 2 ^ (d' - 1)) by (apply Z.pow_le_mono_r; lia). lia.
    - symmetry. apply Z.compare_gt_iff.
      assert (2 ^ d' <= 2 ^ (d - 1)) by (apply Z.pow_le_mono_r; lia). lia. }
  unfold f64_of_Z, binary_normalize.
  destruct x as [|m|m], y as [|m'|m']; try done.
  all: repeat match goal with |- context [binary_round _ _ ?s ?m 0] =>
         destruct (f64_of_pos s m ltac:(lia)) as (? & -> & ? & ?) end; try done.
  - simpl SFcompare. erewrite Hpp; eauto; lia.
  - simpl SFcompare. f_equal. change (Z.neg m ?= Z.neg m') with (CompOpp (Z.pos m ?= Z.pos m')).
    erewrite <- Hpp; eauto; try lia. by destruct (_ ?= _).
Qed.

Lemma fltb_of_Z x y : exact_int x -> exact_int y -> fltb (f64_of_Z x) (f64_of_Z y) = (x <? y).
Proof. intros. unfold fltb, SFltb. rewrite fcompare_of_Z by done. unfold Z.ltb. by destruct (x ?= y). Qed.

Lemma fleb_of_Z x y : exact_int x -> exact_int y -> fleb (f64_of_Z x) (f64_of_Z y) = (x <=? y).
Proof. intros. unfold fleb, SFleb. rewrite fcompare_of_Z by done. unfold Z.leb. by destruct (x ?= y). Qed.

#[export] Hint Rewrite f64_to_int_of_Z fltb_of_Z fleb_of_Z using done : zoomies.

(** ** Transitivity *)
Lemma fleb_trans x y z : fleb x y = true -> fleb y z = true -> fleb x z = true.
Proof.
  unfold fleb, SFleb.
  destruct x as [[]|[]| |[] mx ex], y as [[]|[]| |[] my ey], z as [[]|[]| |[] mz ez]; simpl; try done.
  all: change (Pos.compare_cont Eq mx my) with (mx ?= my)%positive;
       change (Pos.compare_cont Eq my mz) with (my ?= mz)%positive;
       change (Pos.compare_cont Eq mx mz) with (mx ?= mz)%positive.
  all: destruct (Z.compare_spec ex ey), (Z.compare_spec ey ez), (Z.compare_spec ex ez); try done; try lia;
       destruct (Pos.compare_spec mx my), (Pos.compare_spec my mz), (Pos.compare_spec mx mz); try done; lia.
Qed.
