(* ===== verification/GoString.v ===== *)
(** * Go strings

    A Go string is a sequence of bytes, here [string].  This file has what the
    program uses of packages [strings], [unicode], [utf8], [strconv], [fmt] and
    of [time.Duration]'s printing: UTF-8 segmentation, trimming, lower-casing,
    splitting into fields, and the decimal renderings the scheduler's sentences
    are built from.  [ToLower] follows the simple case mapping of the Unicode
    character database (version 14). *)
From Stdlib Require Import ZArith Lia Ascii String.
From Stdlib Require Import SpecFloat.
From stdpp Require Import base strings list pretty.
From S2P Require Import Prelude GoFloat.
Local Open Scope string_scope.
Local Open Scope list_scope.
Local Open Scope Z_scope.

(** ** Bytes *)
Definition byte_of (a : ascii) : Z := Z.of_N (N_of_ascii a).
Definition to_byte (z : Z) : ascii := ascii_of_N (Z.to_N z).
Definition bytes (s : string) : list Z := byte_of <$> list_ascii_of_string s.
Definition of_bytes (l : list Z) : string := string_of_list_ascii (to_byte <$> l).

Definition strlen (s : string) : Z := Z.of_nat (String.length s).
Definition str_eqb (a b : string) : bool := bool_decide (a = b).
Lemma str_eqb_eq a b : str_eqb a b = true <-> a = b.
Proof. apply bool_decide_eq_true. Qed.
Lemma str_eqb_refl a : str_eqb a a = true.
Proof. by apply str_eqb_eq. Qed.
(** [s[:n]] and [s[n:]], for a bound within the string. *)
Definition str_take (n : Z) (s : string) : string := String.substring 0 (Z.to_nat n) s.
Definition str_drop (n : Z) (s : string) : string :=
  String.substring (Z.to_nat n) (String.length s - Z.to_nat n) s.

(** [slices.Contains] on strings. *)
Definition str_in (x : string) (l : list string) : bool := bool_decide (x ∈ l).

(** ** UTF-8

    A string is read as a sequence of runes.  Each segment keeps the bytes it was
    read from, and whether they encode the rune: a byte that does not is read as
    U+FFFD on its own, as [utf8.DecodeRuneInString] does. *)
Record segment := Segment { seg_rune : Z; seg_bytes : list Z; seg_valid : bool }.

Definition rune_error : Z := 65533.
Definition is_cont (b : Z) : bool := (128 <=? b) && (b <=? 191).

Definition utf8_ok2 (b0 b1 : Z) : bool := (194 <=? b0) && (b0 <=? 223) && is_cont b1.
Definition utf8_ok3 (b0 b1 b2 : Z) : bool :=
  (224 <=? b0) && (b0 <=? 239) &&
  ((if b0 =? 224 then 160 else 128) <=? b1) && (b1 <=? (if b0 =? 237 then 159 else 191)) && is_cont b2.
Definition utf8_ok4 (b0 b1 b2 b3 : Z) : bool :=
  (240 <=? b0) && (b0 <=? 244) &&
  ((if b0 =? 240 then 144 else 128) <=? b1) && (b1 <=? (if b0 =? 244 then 143 else 191)) &&
  is_cont b2 && is_cont b3.

Fixpoint utf8_decode (l : list Z) : list segment :=
  match l with
  | [] => []
  | b0 :: l1 =>
      if b0 <? 128 then Segment b0 [b0] true :: utf8_decode l1 else
      match l1 with
      | b1 :: l2 =>
          if utf8_ok2 b0 b1
          then Segment ((b0 - 192) * 64 + (b1 - 128)) [b0; b1] true :: utf8_decode l2 else
          match l2 with
          | b2 :: l3 =>
              if utf8_ok3 b0 b1 b2
              then Segment ((b0 - 224) * 4096 + (b1 - 128) * 64 + (b2 - 128)) [b0; b1; b2] true
                   :: utf8_decode l3 else
              match l3 with
              | b3 :: l4 =>
                  if utf8_ok4 b0 b1 b2 b3
                  then Segment ((b0 - 240) * 262144 + (b1 - 128) * 4096 + (b2 - 128) * 64 + (b3 - 128))
                         [b0; b1; b2; b3] true :: utf8_decode l4
                  else Segment rune_error [b0] false :: utf8_decode l1
              | [] => Segment rune_error [b0] false :: utf8_decode l1
              end
          | [] => Segment rune_error [b0] false :: utf8_decode l1
          end
      | [] => Segment rune_error [b0] false :: utf8_decode l1
      end
  end.

Definition utf8_encode1 (r : Z) : list Z :=
  if r <? 0 then [239; 191; 189]
  else if r <? 128 then [r]
  else if r <? 2048 then [192 + r / 64; 128 + r mod 64]
  else if (55296 <=? r) && (r <=? 57343) then [239; 191; 189]
  else if r <? 65536 then [224 + r / 4096; 128 + r / 64 mod 64; 128 + r mod 64]
  else if r <=? 1114111 then
    [240 + r / 262144; 128 + r / 4096 mod 64; 128 + r / 64 mod 64; 128 + r mod 64]
  else [239; 191; 189].

Definition segments (s : string) : list segment := utf8_decode (bytes s).
Definition of_segments (l : list segment) : string := of_bytes (concat (seg_bytes <$> l)).

(** [strings.Map], for a mapping that drops no rune. *)
Definition strings_Map (f : Z -> Z) (s : string) : string :=
  of_bytes (concat ((fun g => utf8_encode1 (f (seg_rune g))) <$> segments s)).

Definition unicode_IsControl (r : Z) : bool := (r <? 32) || ((127 <=? r) && (r <=? 159)).
Definition unicode_IsSpace (r : Z) : bool :=
  ((9 <=? r) && (r <=? 13)) || (r =? 32) || (r =? 133) || (r =? 160) || (r =? 5760) ||
  ((8192 <=? r) && (r <=? 8202)) || (r =? 8232) || (r =? 8233) || (r =? 8239) || (r =? 8287) ||
  (r =? 12288).

(** [unicode.ToLower] beyond ASCII, as ranges [(first, last, stride, delta)]. *)
Definition lower_ranges : list (Z * Z * Z * Z) :=
  [(192,214,1,32); (216,222,1,32); (256,302,2,1); (304,304,1,(-199)); (306,310,2,1);
   (313,327,2,1); (330,374,2,1); (376,376,1,(-121)); (377,381,2,1); (385,385,1,210);
   (386,388,2,1); (390,390,1,206); (391,391,1,1); (393,394,1,205); (395,395,1,1);
   (398,398,1,79); (399,399,1,202); (400,400,1,203); (401,401,1,1); (403,403,1,205);
   (404,404,1,207); (406,406,1,211); (407,407,1,209); (408,408,1,1); (412,412,1,211);
   (413,413,1,213); (415,415,1,214); (416,420,2,1); (422,422,1,218); (423,423,1,1);
   (425,425,1,218); (428,428,1,1); (430,430,1,218); (431,431,1,1); (433,434,1,217);
   (435,437,2,1); (439,439,1,219); (440,440,1,1); (444,444,1,1); (452,452,1,2);
   (453,453,1,1); (455,455,1,2); (456,456,1,1); (458,458,1,2); (459,475,2,1);
   (478,494,2,1); (497,497,1,2); (498,500,2,1); (502,502,1,(-97)); (503,503,1,(-56));
   (504,542,2,1); (544,544,1,(-130)); (546,562,2,1); (570,570,1,10795); (571,571,1,1);
   (573,573,1,(-163)); (574,574,1,10792); (577,577,1,1); (579,579,1,(-195)); (580,580,1,69);
   (581,581,1,71); (582,590,2,1); (880,882,2,1); (886,886,1,1); (895,895,1,116);
   (902,902,1,38); (904,906,1,37); (908,908,1,64); (910,911,1,63); (913,929,1,32);
   (931,939,1,32); (975,975,1,8); (984,1006,2,1); (1012,1012,1,(-60)); (1015,1015,1,1);
   (1017,1017,1,(-7)); (1018,1018,1,1); (1021,1023,1,(-130)); (1024,1039,1,80); (1040,1071,1,32);
   (1120,1152,2,1); (1162,1214,2,1); (1216,1216,1,15); (1217,1229,2,1); (1232,1326,2,1);
   (1329,1366,1,48); (4256,4293,1,7264); (4295,4295,1,7264); (4301,4301,1,7264); (5024,5103,1,38864);
   (5104,5109,1,8); (7312,7354,1,(-3008)); (7357,7359,1,(-3008)); (7680,7828,2,1); (7838,7838,1,(-7615));
   (7840,7934,2,1); (7944,7951,1,(-8)); (7960,7965,1,(-8)); (7976,7983,1,(-8)); (7992,7999,1,(-8));
   (8008,8013,1,(-8)); (8025,8031,2,(-8)); (8040,8047,1,(-8)); (8072,8079,1,(-8)); (8088,8095,1,(-8));
   (8104,8111,1,(-8)); (8120,8121,1,(-8)); (8122,8123,1,(-74)); (8124,8124,1,(-9)); (8136,8139,1,(-86));
   (8140,8140,1,(-9)); (8152,8153,1,(-8)); (8154,8155,1,(-100)); (8168,8169,1,(-8)); (8170,8171,1,(-112));
   (8172,8172,1,(-7)); (8184,8185,1,(-128)); (8186,8187,1,(-126)); (8188,8188,1,(-9)); (8486,8486,1,(-7517));
   (8490,8490,1,(-8383)); (8491,8491,1,(-8262)); (8498,8498,1,28); (8544,8559,1,16); (8579,8579,1,1);
   (9398,9423,1,26); (11264,11311,1,48); (11360,11360,1,1); (11362,11362,1,(-10743)); (11363,11363,1,(-3814));
   (11364,11364,1,(-10727)); (11367,11371,2,1); (11373,11373,1,(-10780)); (11374,11374,1,(-10749)); (11375,11375,1,(-10783));
   (11376,11376,1,(-10782)); (11378,11378,1,1); (11381,11381,1,1); (11390,11391,1,(-10815)); (11392,11490,2,1);
   (11499,11501,2,1); (11506,11506,1,1); (42560,42604,2,1); (42624,42650,2,1); (42786,42798,2,1);
   (42802,42862,2,1); (42873,42875,2,1); (42877,42877,1,(-35332)); (42878,42886,2,1); (42891,42891,1,1);
   (42893,42893,1,(-42280)); (42896,42898,2,1); (42902,42920,2,1); (42922,42922,1,(-42308)); (42923,42923,1,(-42319));
   (42924,42924,1,(-42315)); (42925,42925,1,(-42305)); (42926,42926,1,(-42308)); (42928,42928,1,(-42258)); (42929,42929,1,(-42282));
   (42930,42930,1,(-42261)); (42931,42931,1,928); (42932,42946,2,1); (42948,42948,1,(-48)); (42949,42949,1,(-42307));
   (42950,42950,1,(-35384)); (42951,42953,2,1); (42960,42960,1,1); (42966,42968,2,1); (42997,42997,1,1);
   (65313,65338,1,32); (66560,66599,1,40); (66736,66771,1,40); (66928,66938,1,39); (66940,66954,1,39);
   (66956,66962,1,39); (66964,66965,1,39); (68736,68786,1,64); (71840,71871,1,32); (93760,93791,1,32);
   (125184,125217,1,34)].

Definition in_lower_range (r : Z) (x : Z * Z * Z * Z) : bool :=
  let '(lo, hi, stride, _) := x in (lo <=? r) && (r <=? hi) && ((r - lo) mod stride =? 0).

Definition unicode_ToLower (r : Z) : Z :=
  if r <? 128 then (if (65 <=? r) && (r <=? 90) then r + 32 else r)
  else match List.find (in_lower_range r) lower_ranges with
       | Some (_, _, _, delta) => r + delta
       | None => r
       end.

Definition strings_ToLower (s : string) : string := strings_Map unicode_ToLower s.

(** ** Trimming and splitting *)
Fixpoint drop_space (l : list segment) : list segment :=
  match l with
  | g :: l' => if unicode_IsSpace (seg_rune g) then drop_space l' else l
  | [] => []
  end.

Definition strings_TrimSpace (s : string) : string :=
  of_segments (rev (drop_space (rev (drop_space (segments s))))).

(** [strings.FieldsFunc]: the runs of segments between separators. *)
Fixpoint fields_go (sep : Z -> bool) (cur : list segment) (l : list segment) : list (list segment) :=
  match l with
  | [] => match cur with [] => [] | _ => [rev cur] end
  | g :: l' =>
      if sep (seg_rune g)
      then match cur with [] => fields_go sep [] l' | _ => rev cur :: fields_go sep [] l' end
      else fields_go sep (g :: cur) l'
  end.

Definition strings_FieldsFunc (sep : Z -> bool) (s : string) : list string :=
  of_segments <$> fields_go sep [] (segments s).
Definition strings_Fields (s : string) : list string := strings_FieldsFunc unicode_IsSpace s.

(** [strings.ToValidUTF8(s, "")]. *)
Definition strings_ToValidUTF8 (s : string) : string :=
  of_segments (List.filter seg_valid (segments s)).

Definition strings_Join (l : list string) (sep : string) : string := String.concat sep l.

Definition strings_HasSuffix (s suffix : string) : bool :=
  (strlen suffix <=? strlen s) && str_eqb (str_drop (strlen s - strlen suffix) s) suffix.

(** [strings.TrimRight] with a cutset of one ASCII byte. *)
Fixpoint drop_byte (c : ascii) (l : list ascii) : list ascii :=
  match l with
  | a :: l' => if bool_decide (a = c) then drop_byte c l' else l
  | [] => []
  end.
Definition strings_TrimRight (s : string) (c : ascii) : string :=
  string_of_list_ascii (rev (drop_byte c (rev (list_ascii_of_string s)))).

(** [strings.Cut] around one byte. *)
Fixpoint cut_go (c : ascii) (acc : list ascii) (l : list ascii) : option (list ascii * list ascii) :=
  match l with
  | [] => None
  | a :: l' => if bool_decide (a = c) then Some (rev acc, l') else cut_go c (a :: acc) l'
  end.
Definition strings_Cut (s : string) (c : ascii) : string * string * bool :=
  match cut_go c [] (list_ascii_of_string s) with
  | Some (a, b) => (string_of_list_ascii a, string_of_list_ascii b, true)
  | None => (s, "", false)
  end.

(** ** Numbers *)
(** [strconv.Itoa], [strconv.FormatInt] in base ten and [%d]. *)
Definition itoa (z : Z) : string := pretty z.

(** [n] decimal digits of a natural number, with leading zeros. *)
Fixpoint digits_padded (n : nat) (z : Z) : string :=
  match n with
  | O => ""
  | S n' => digits_padded n' (z / 10) +:+ itoa (z mod 10)
  end.

(** [strconv.FormatFloat(x, 'f', prec, 64)] and [%.<prec>f]: the exact value
    rounded to the nearest, ties to even. *)
Definition round_half_even (n d : Z) : Z :=
  let q := n / d in
  let r := n mod d in
  if 2 * r <? d then q
  else if d <? 2 * r then q + 1
  else if Z.even q then q else q + 1.

Definition format_f (prec : nat) (x : float64) : string :=
  match x with
  | S754_nan => "NaN"
  | S754_infinity s => if s then "-Inf" else "+Inf"
  | _ =>
      let scale := 10 ^ Z.of_nat prec in
      let q := match x with
               | S754_finite _ m e =>
                   if 0 <=? e then Z.pos m * 2 ^ e * scale
                   else round_half_even (Z.pos m * scale) (2 ^ (- e))
               | _ => 0
               end in
      (if f64_sign x then "-" else "") +:+ itoa (q / scale) +:+
      (match prec with O => "" | _ => "." +:+ digits_padded prec (q mod scale) end)
  end.

(** ** [time.Duration.String] *)
Definition fmt_frac (prec : nat) (v : Z) : string :=
  let f := v mod 10 ^ Z.of_nat prec in
  if f =? 0 then "" else "." +:+ strings_TrimRight (digits_padded prec f) "0".

Definition Duration_String (d : Duration) : string :=
  let u := Z.abs d in
  let body :=
    if u <? Second then
      if u =? 0 then "0s"
      else if u <? Microsecond then itoa u +:+ "ns"
      else if u <? Millisecond then itoa (u / Microsecond) +:+ fmt_frac 3 u +:+ "µs"
      else itoa (u / Millisecond) +:+ fmt_frac 6 u +:+ "ms"
    else
      let s := u / Second in
      let m := s / 60 in
      let h := m / 60 in
      (if 0 <? m then (if 0 <? h then itoa h +:+ "h" else "") +:+ itoa (m mod 60) +:+ "m" else "") +:+
      itoa (s mod 60) +:+ fmt_frac 9 u +:+ "s"
  in if d <? 0 then "-" +:+ body else body.

Example Duration_String_1 : Duration_String (90 * Second) = "1m30s".
Proof. vm_compute. reflexivity. Qed.
Example Duration_String_2 : Duration_String (6 * Hour + 1500 * Millisecond) = "6h0m1.5s".
Proof. vm_compute. reflexivity. Qed.
Example Duration_String_3 : Duration_String (-1500 * Microsecond) = "-1.5ms".
Proof. vm_compute. reflexivity. Qed.
Example format_f_1 : format_f 2 (f64_lit 1 8) = "0.12".
Proof. vm_compute. reflexivity. Qed.
Example format_f_2 : format_f 2 (f64_lit 15 4) = "3.75".
Proof. vm_compute. reflexivity. Qed.
Example Fields_1 : strings_Fields "  a  bc d " = ["a"; "bc"; "d"].
Proof. vm_compute. reflexivity. Qed.
Example ToLower_1 : strings_ToLower "GPU-É" = "gpu-é".
Proof. vm_compute. reflexivity. Qed.

(** Symbolic evaluation stops at the functions on text. *)
Arguments strings_ToLower : simpl never.
Arguments strings_TrimSpace : simpl never.
Arguments strings_Fields : simpl never.
Arguments strings_ToValidUTF8 : simpl never.
Arguments format_f : simpl never.
Arguments Duration_String : simpl never.
Arguments itoa : simpl never.
Arguments str_eqb : simpl never.
Arguments str_in : simpl never.
