(* ===== verification/Qr.v ===== *)
(** * QR codes (internal/qr/qr.go)

    The encoder that draws the picture an authenticator scans: bytes to codewords,
    Reed-Solomon over GF(256), the two-column zigzag, the eight masks and their
    penalties, and the SVG path.  A symbol is two square grids of booleans, as the
    [modules] and [reservedMap] of a [Code] are; every index the source uses is in
    range for the ten versions it draws, so a write out of range does nothing here. *)
From Stdlib Require Import ZArith Lia Ascii String.
From stdpp Require Import base strings list.
From S2P Require Import Prelude GoString.
Local Open Scope string_scope.
Local Open Scope list_scope.
Local Open Scope Z_scope.

Record ecBlocks := { ecPerBlock : Z; g1Blocks : Z; g1Data : Z; g2Blocks : Z; g2Data : Z }.

(** The table [levelM]; entry 0 is the zero value. *)
Definition levelM_table : list (Z * Z * Z * Z * Z) :=
  [(0, 0, 0, 0, 0);
   (10, 1, 16, 0, 0); (16, 1, 28, 0, 0); (26, 1, 44, 0, 0); (18, 2, 32, 0, 0); (24, 2, 43, 0, 0);
   (16, 4, 27, 0, 0); (18, 4, 31, 0, 0); (22, 2, 38, 2, 39); (22, 3, 36, 2, 37); (26, 4, 43, 1, 44)].
Definition levelM (version : Z) : ecBlocks :=
  let '(e, b1, d1, b2, d2) := nth (Z.to_nat version) levelM_table (0, 0, 0, 0, 0) in
  {| ecPerBlock := e; g1Blocks := b1; g1Data := d1; g2Blocks := b2; g2Data := d2 |}.

Definition alignment (version : Z) : list Z :=
  nth (Z.to_nat version)
    [[]; []; [6; 18]; [6; 22]; [6; 26]; [6; 30]; [6; 34]; [6; 22; 38]; [6; 24; 42]; [6; 26; 46]; [6; 28; 50]] [].

Definition maxVersion : Z := 10.

(** [ecBlocks.dataCodewords]. *)
Definition capacityOf (b : ecBlocks) : Z := g1Blocks b * g1Data b + g2Blocks b * g2Data b.

(** ** Grids *)
Abbreviation grid := (list (list bool)).
Definition cell (m : grid) (x y : Z) : bool := nth (Z.to_nat x) (nth (Z.to_nat y) m []) false.
Definition put (m : grid) (x y : Z) (b : bool) : grid :=
  alter (fun row => <[Z.to_nat x := b]> row) (Z.to_nat y) m.
Definition blank (n : Z) : grid := replicate (Z.to_nat n) (replicate (Z.to_nat n) false).

Record Code := { c_Version : Z; c_Mask : Z; c_Size : Z; c_modules : grid; c_reserved : grid }.

Definition c_with_modules (c : Code) (m : grid) : Code :=
  {| c_Version := c_Version c; c_Mask := c_Mask c; c_Size := c_Size c; c_modules := m; c_reserved := c_reserved c |}.
Definition c_with_mask (c : Code) (mask : Z) : Code :=
  {| c_Version := c_Version c; c_Mask := mask; c_Size := c_Size c; c_modules := c_modules c; c_reserved := c_reserved c |}.

Definition Dark (c : Code) (x y : Z) : bool := cell (c_modules c) x y.

(** [Code.set]: a function module. *)
Definition set (c : Code) (x y : Z) (dark : bool) : Code :=
  {| c_Version := c_Version c; c_Mask := c_Mask c; c_Size := c_Size c;
     c_modules := put (c_modules c) x y dark; c_reserved := put (c_reserved c) x y true |}.
Definition reserve (c : Code) (x y : Z) : Code :=
  {| c_Version := c_Version c; c_Mask := c_Mask c; c_Size := c_Size c;
     c_modules := c_modules c; c_reserved := put (c_reserved c) x y true |}.
(** A plain write to [modules]. *)
Definition draw (c : Code) (x y : Z) (dark : bool) : Code := c_with_modules c (put (c_modules c) x y dark).

(** [for i := lo; i < hi; i++]. *)
Definition range (lo hi : Z) : list Z := seqZ lo (hi - lo).

(** ** Bits *)
Definition bit_of (v i : Z) : bool := Z.land (Z.shiftr v i) 1 =? 1.

(** [bitBuffer.put]. *)
Definition put_bits (b : list bool) (v n : Z) : list bool := b ++ (bit_of v <$> rev (range 0 n)).

(** [bitBuffer.bytes]: whole bytes, most significant bit first; bits past the last
    whole byte would be out of range. *)
Definition bytes_of (b : list bool) : list Z :=
  foldl (fun out '(i, bit) =>
      if (bit : bool) then alter (fun v => Z.lor v (Z.shiftl 1 (7 - Z.of_nat i mod 8))) (i / 8)%nat out else out)
    (replicate (length b / 8)%nat 0) (imap pair b).

(** ** GF(256) *)
Record gfTables := { gf_x : Z; gf_exp : list Z; gf_log : list Z }.

Definition gf_tables : gfTables :=
  let t := foldl (fun t i =>
      let x := gf_x t in
      let next := Z.shiftl x 1 in
      {| gf_x := if Z.land next 256 =? 0 then next else Z.lxor next 285;
         gf_exp := <[i := Z.land x 255]> (gf_exp t);
         gf_log := <[Z.to_nat x := Z.of_nat i]> (gf_log t) |})
    {| gf_x := 1; gf_exp := replicate 512 0; gf_log := replicate 256 0 |} (seq 0 255) in
  {| gf_x := gf_x t;
     gf_exp := foldl (fun e i => <[i := nth (i - 255) e 0]> e) (gf_exp t) (seq 255 257);
     gf_log := gf_log t |}.

Definition gfExp_table : list Z := Eval vm_compute in gf_exp gf_tables.
Definition gfLog_table : list Z := Eval vm_compute in gf_log gf_tables.
Definition gfExp (i : Z) : Z := nth (Z.to_nat i) gfExp_table 0.
Definition gfLog (a : Z) : Z := nth (Z.to_nat a) gfLog_table 0.

Definition gfMul (a b : Z) : Z := if (a =? 0) || (b =? 0) then 0 else gfExp (gfLog a + gfLog b).

(** One factor more: [next[j] ^= c] and [next[j+1] ^= c * a] over the terms. *)
Definition times_root (g : list Z) (i : Z) : list Z :=
  foldl (fun next '(j, c) =>
      let next := alter (Z.lxor c) j next in
      alter (Z.lxor (gfMul c (gfExp i))) (S j) next)
    (replicate (S (length g)) 0) (imap pair g).
Definition generator (n : Z) : list Z := foldl times_root [1] (range 0 n).

Definition rs_step (g : list Z) (rem : list Z) (d : Z) : list Z :=
  let factor := Z.lxor d (nth 0 rem 0) in
  let rem := drop 1 rem ++ [0] in
  imap (fun j r => Z.lxor r (gfMul (nth (S j) g 0) factor)) rem.
Definition reedSolomon (data : list Z) (n : Z) : list Z :=
  foldl (rs_step (generator n)) (replicate (Z.to_nat n) 0) data.

(** ** Codewords *)
Definition countBits (version : Z) : Z := if 10 <=? version then 16 else 8.

Definition terminate (bits : list bool) (capacity : Z) : list bool :=
  let bits := bits ++ replicate (Z.to_nat (Z.min 4 (Z.max 0 (capacity - Z.of_nat (length bits))))) false in
  bits ++ replicate (Z.to_nat ((8 - Z.of_nat (length bits) mod 8) mod 8)) false.

Definition pad_bytes (n : nat) : list Z := (fun i => if Nat.even i then 236 else 17) <$> seq 0 n.

Definition dataCodewords (version : Z) (data : list Z) : list Z :=
  let bits := put_bits [] 4 4 in
  let bits := put_bits bits (Z.of_nat (length data)) (countBits version) in
  let bits := foldl (fun bits b => put_bits bits b 8) bits data in
  let capacity := 8 * capacityOf (levelM version) in
  let out := bytes_of (terminate bits capacity) in
  out ++ pad_bytes (Z.to_nat (capacity / 8) - length out).

(** Cut a list into pieces of the given lengths. *)
Fixpoint pieces {A} (lens : list nat) (l : list A) : list (list A) :=
  match lens with
  | [] => []
  | n :: lens => take n l :: pieces lens (drop n l)
  end.
Definition blockLengths (b : ecBlocks) : list nat :=
  replicate (Z.to_nat (g1Blocks b)) (Z.to_nat (g1Data b)) ++ replicate (Z.to_nat (g2Blocks b)) (Z.to_nat (g2Data b)).

(** The [i]-th byte of every block that has one, for each [i]. *)
Definition weave {A} (longest : nat) (blocks : list (list A)) : list A :=
  concat ((fun i => omap (fun blk => blk !! i) blocks) <$> seq 0 longest).

Definition interleave (version : Z) (data : list Z) : list Z :=
  let b := levelM version in
  let blocks := pieces (blockLengths b) data in
  let ecc := (fun blk => reedSolomon blk (ecPerBlock b)) <$> blocks in
  weave (Z.to_nat (Z.max (g1Data b) (g2Data b))) blocks ++ weave (Z.to_nat (ecPerBlock b)) ecc.

(** ** Words *)
Definition formatBits (mask : Z) : Z :=
  let data := Z.lor (Z.shiftl 0 3) mask in
  let rem := foldl (fun rem i => if bit_of rem i then Z.lxor rem (Z.shiftl 1335 (i - 10)) else rem)
               (Z.shiftl data 10) [14; 13; 12; 11; 10] in
  Z.lxor (Z.lor (Z.shiftl data 10) rem) 21522.

Definition versionBits (version : Z) : Z :=
  let rem := foldl (fun rem i => if bit_of rem i then Z.lxor rem (Z.shiftl 7973 (i - 12)) else rem)
               (Z.shiftl version 12) [17; 16; 15; 14; 13; 12] in
  Z.lor (Z.shiftl version 12) rem.

(** ** Placement *)

(** The finder at one corner, with its separator. *)
Definition finder (n : Z) (c : Code) (corner : Z * Z) : Code :=
  foldl (fun c '(dy, dx) =>
      let x := fst corner + dx in
      let y := snd corner + dy in
      if (x <? 0) || (y <? 0) || (n <=? x) || (n <=? y) then c else
      let ring := Z.max (Z.abs (dx - 3)) (Z.abs (dy - 3)) in
      set c x y (negb (ring =? 2) && negb (ring =? 4)))
    c (list_prod (range (-1) 8) (range (-1) 8)).

Definition timing (n : Z) (c : Code) : Code :=
  foldl (fun c i => set (set c i 6 (i mod 2 =? 0)) 6 i (i mod 2 =? 0)) c (range 8 (n - 8)).

Definition alignmentPattern (c : Code) (cx cy : Z) : Code :=
  foldl (fun c '(dy, dx) => set c (cx + dx) (cy + dy) (negb (Z.max (Z.abs dx) (Z.abs dy) =? 1)))
    c (list_prod (range (-2) 3) (range (-2) 3)).

Definition alignments (c : Code) : Code :=
  let centres := alignment (c_Version c) in
  let last := (length centres - 1)%nat in
  foldl (fun c '((i, cy), (j, cx)) =>
      if ((i =? 0) && (j =? 0) || (i =? 0) && (j =? last) || (i =? last) && (j =? 0))%nat then c
      else alignmentPattern c cx cy)
    c (list_prod (imap pair centres) (imap pair centres)).

Definition formatAreas (n : Z) (c : Code) : Code :=
  let c := foldl (fun c i => reserve (reserve c i 8) 8 i) c (range 0 9) in
  let c := foldl (fun c i => reserve (reserve c (n - 1 - i) 8) 8 (n - 1 - i)) c (range 0 8) in
  set c 8 (n - 8) true.

Definition versionAreas (n : Z) (c : Code) : Code :=
  if 7 <=? c_Version c then
    let bits := versionBits (c_Version c) in
    foldl (fun c i => let dark := bit_of bits i in
                      let a := i / 3 in
                      let b := n - 11 + i mod 3 in
                      set (set c a b dark) b a dark) c (range 0 18)
  else c.

Definition placeFunctionPatterns (c : Code) : Code :=
  let n := c_Size c in
  let c := foldl (finder n) c [(0, 0); (n - 7, 0); (0, n - 7)] in
  versionAreas n (formatAreas n (alignments (timing n c))).

Definition newCode (version : Z) : Code :=
  let size := 17 + 4 * version in
  placeFunctionPatterns
    {| c_Version := version; c_Mask := 0; c_Size := size; c_modules := blank size; c_reserved := blank size |}.

Definition maskAt (mask x y : Z) : bool :=
  match mask with
  | 0 => (x + y) mod 2 =? 0
  | 1 => y mod 2 =? 0
  | 2 => x mod 3 =? 0
  | 3 => (x + y) mod 3 =? 0
  | 4 => (y / 2 + x / 3) mod 2 =? 0
  | 5 => (x * y) mod 2 + (x * y) mod 3 =? 0
  | 6 => ((x * y) mod 2 + (x * y) mod 3) mod 2 =? 0
  | _ => ((x + y) mod 2 + (x * y) mod 3) mod 2 =? 0
  end.

(** The values of [right]: two columns at a time from the right, with the column of the
    vertical timing pattern left out.  Each step goes down by two, so the size is fuel
    enough. *)
Fixpoint rights (fuel : nat) (right : Z) : list Z :=
  match fuel with
  | O => []
  | S fuel => if 1 <=? right then
                let right := if right =? 6 then 5 else right in
                right :: rights fuel (right - 2)
              else []
  end.

(** The cells in the order the zigzag visits them. *)
Definition zigzag (n : Z) : list (Z * Z) :=
  concat (imap (fun k right =>
      concat ((fun i => let y := if Nat.even k then n - 1 - i else i in
                        (fun dx => (right - dx, y)) <$> range 0 2) <$> range 0 n))
    (rights (Z.to_nat n) (n - 1))).

(** The body of [placeData]: the symbol and the next bit. *)
Definition place_step (codewords : list Z) (mask : Z) (st : Code * Z) (at_ : Z * Z) : Code * Z :=
  let '(c, bit) := st in
  let '(x, y) := at_ in
  if cell (c_reserved c) x y then (c, bit) else
  let '(dark, bit') :=
    if bit <? Z.of_nat (length codewords) * 8
    then (bit_of (nth (Z.to_nat (bit / 8)) codewords 0) (7 - bit mod 8), bit + 1)
    else (false, bit) in
  (draw c x y (if maskAt mask x y then negb dark else dark), bit').

Definition placeData (c : Code) (codewords : list Z) (mask : Z) : Code :=
  fst (foldl (place_step codewords mask) (c, 0) (zigzag (c_Size c))).

(** Where [placeFormat] writes each bit of the format word. *)
Definition formatCells (n : Z) : list (Z * (Z * Z)) :=
  ((fun i => (i, (8, i))) <$> range 0 6) ++ [(6, (8, 7)); (7, (8, 8)); (8, (7, 8))] ++
  ((fun i => (i, (14 - i, 8))) <$> range 9 15) ++
  ((fun i => (i, (n - 1 - i, 8))) <$> range 0 8) ++ ((fun i => (i, (8, n - 15 + i))) <$> range 8 15).

Definition placeFormat (c : Code) (mask : Z) : Code :=
  let bits := formatBits mask in
  let c := foldl (fun c '(i, (x, y)) => draw c x y (bit_of bits i)) c (formatCells (c_Size c)) in
  draw c 8 (c_Size c - 8) true.

Definition withMask (version : Z) (codewords : list Z) (mask : Z) : Code :=
  placeFormat (placeData (c_with_mask (newCode version) mask) codewords mask) mask.

(** ** The penalty *)

(** Rule 1 on one line: the score so far and the run. *)
Definition run_score (score run : Z) : Z := if 5 <=? run then score + (run - 2) else score.
Definition rule1_line (n : Z) (line : Z -> bool) (score : Z) : Z :=
  let '(score, run) := foldl (fun '(score, run) i =>
      if Bool.eqb (line i) (line (i - 1)) then (score, run + 1) else (run_score score run, 1))
    (score, 1) (range 1 n) in
  run_score score run.
Definition rule1 (m : grid) (n : Z) (score : Z) : Z :=
  foldl (fun score y => rule1_line n (fun i => cell m y i) (rule1_line n (fun i => cell m i y) score)) score (range 0 n).

Definition rule2 (m : grid) (n : Z) (score : Z) : Z :=
  foldl (fun score '(y, x) =>
      let d := cell m x y in
      if Bool.eqb (cell m (x + 1) y) d && Bool.eqb (cell m x (y + 1)) d && Bool.eqb (cell m (x + 1) (y + 1)) d
      then score + 3 else score) score (list_prod (range 0 (n - 1)) (range 0 (n - 1))).

Definition finderLike : list bool := [true; false; true; true; true; false; true; false; false; false; false].

Definition rule3 (m : grid) (n : Z) (score : Z) : Z :=
  foldl (fun score '(y, x) =>
      let hit f := forallb (fun '(k, p) => Bool.eqb (f (Z.of_nat k)) p) (imap pair finderLike) in
      let last := Z.of_nat (length finderLike) - 1 in
      score + 40 * countb id [hit (fun k => cell m (x + k) y); hit (fun k => cell m (x + last - k) y);
                              hit (fun k => cell m y (x + k)); hit (fun k => cell m y (x + last - k))])
    score (list_prod (range 0 n) (range 0 (n - Z.of_nat (length finderLike) + 1))).

Definition rule4 (m : grid) (n : Z) (score : Z) : Z :=
  let dark := countb (fun '(y, x) => cell m x y) (list_prod (range 0 n) (range 0 n)) in
  let percent := dark * 100 / (n * n) in
  score + Z.abs (percent - 50) / 5 * 10.

Definition penalty (c : Code) : Z :=
  let m := c_modules c in
  let n := c_Size c in
  rule4 m n (rule3 m n (rule2 m n (rule1 m n 0))).

(** ** Encode *)
Inductive EncodeError := ErrTooLong.

Definition fitsVersion (len : Z) (v : Z) : bool :=
  4 + countBits v + 8 * len <=? 8 * capacityOf (levelM v).

(** The loop over the masks keeps the first symbol with the lowest score. *)
Definition lowest (version : Z) (codewords : list Z) (best : option (Code * Z)) (mask : Z) : option (Code * Z) :=
  let c := withMask version codewords mask in
  let score := penalty c in
  match best with
  | Some (_, bestScore) => if score <? bestScore then Some (c, score) else best
  | None => Some (c, score)
  end.

Definition Encode (data : list Z) : Code + EncodeError :=
  match List.find (fitsVersion (Z.of_nat (length data))) (range 1 (maxVersion + 1)) with
  | None => inr ErrTooLong
  | Some version =>
      let codewords := interleave version (dataCodewords version data) in
      match foldl (lowest version codewords) None (range 0 8) with
      | Some (c, _) => inl c
      | None => inr ErrTooLong
      end
  end.

(** ** SVG *)

(** The runs of dark modules along one row: where each starts and how long it is. *)
Fixpoint row_runs (x : Z) (open : option (Z * Z)) (row : list bool) : list (Z * Z) :=
  match row with
  | [] => match open with Some r => [r] | None => [] end
  | true :: row => row_runs (x + 1) (match open with Some (s, len) => Some (s, len + 1) | None => Some (x, 1) end) row
  | false :: row => match open with Some r => [r] | None => [] end ++ row_runs (x + 1) None row
  end.

Definition quiet : Z := 4.

(** The rectangles of the path, row by row: start, row and length. *)
Definition rectangles (c : Code) : list (Z * Z * Z) :=
  concat (imap (fun y row => (fun '(s, len) => (s, Z.of_nat y, len)) <$> row_runs 0 None row) (c_modules c)).

Definition pathOf (c : Code) : string :=
  strings_Join ((fun '(s, y, len) =>
      "M" +:+ itoa (s + quiet) +:+ " " +:+ itoa (y + quiet) +:+ "h" +:+ itoa len +:+ "v1h-" +:+ itoa len +:+ "z")
    <$> rectangles c) "".

(** A double quote. *)
Definition dquote : string := String (ascii_of_nat 34) "".

Definition SVG (c : Code) (dark light : string) : string :=
  let size := itoa (c_Size c + 2 * quiet) in
  let attr name v := " " +:+ name +:+ "=" +:+ dquote +:+ v +:+ dquote in
  "<svg" +:+ attr "xmlns" "http://www.w3.org/2000/svg" +:+ attr "viewBox" ("0 0 " +:+ size +:+ " " +:+ size) +:+
  attr "shape-rendering" "crispEdges" +:+ ">" +:+
  "<rect" +:+ attr "width" size +:+ attr "height" size +:+ attr "fill" light +:+ "/><path" +:+
  attr "d" (pathOf c) +:+ attr "fill" dark +:+ "/></svg>".

(** ** Worked examples of the standard *)
Example reedSolomon_worked :
  reedSolomon [32; 91; 11; 120; 209; 114; 220; 77; 67; 64; 236; 17; 236; 17; 236; 17] 10
  = [196; 35; 39; 119; 235; 215; 231; 226; 93; 23].
Proof. vm_compute. reflexivity. Qed.

Example formatBits_worked : formatBits <$> range 0 8 = [21522; 20773; 24188; 23371; 17913; 16590; 20375; 19104].
Proof. vm_compute. reflexivity. Qed.

Example versionBits_worked : versionBits 7 = 31892.
Proof. vm_compute. reflexivity. Qed.
