(* ===== verification/QrField.v ===== *)
(** * Reed-Solomon in the QR encoder (internal/qr/qr.go)

    The tables of the encoder are GF(256): multiplication by tables is associative and
    distributes over exclusive or.  From that, the shift register of [reedSolomon] is
    division by the generator, and every block it completes has all its syndromes zero,
    which is what lets a scanner correct it. *)
From Stdlib Require Import ZArith Lia.
From stdpp Require Import base list sets.
From S2P Require Import Prelude Qr.
Local Open Scope list_scope.
Local Open Scope Z_scope.

(** ** Checking every byte *)
Definition byte (a : Z) : Prop := 0 <= a < 256.
Definition all_bytes : list Z := range 0 256.

Lemma elem_of_range lo hi x : x ∈ range lo hi <-> lo <= x < hi.
Proof. unfold range. rewrite elem_of_seqZ. lia. Qed.

Lemma check1 (f : Z -> bool) (l : list Z) x : forallb f l = true -> x ∈ l -> f x = true.
Proof. rewrite forallb_forall. intros H Hx%list_elem_of_In. auto. Qed.

Lemma check2 (f : Z -> Z -> bool) (l l' : list Z) x y :
  forallb (fun a => forallb (f a) l') l = true -> x ∈ l -> y ∈ l' -> f x y = true.
Proof. intros H Hx Hy. apply (check1 (f x) l'); [|done]. by apply (check1 (fun a => forallb (f a) l') l). Qed.

Lemma byte_elem a : byte a -> a ∈ all_bytes.
Proof. unfold byte, all_bytes. by rewrite elem_of_range. Qed.

Lemma lxor_byte a b : byte a -> byte b -> byte (Z.lxor a b).
Proof.
  unfold byte. intros [Ha1 Ha2] [Hb1 Hb2]. split; [by apply Z.lxor_nonneg|].
  destruct (Z.eq_dec (Z.lxor a b) 0) as [->|Hne]; [lia|].
  assert (0 <= Z.lxor a b) by by apply Z.lxor_nonneg.
  assert (forall c, 0 <= c < 256 -> Z.log2 c < 8) as Hlog.
  { intros c Hc. destruct (Z.eq_dec c 0) as [->|]; [done|]. apply Z.log2_lt_pow2; lia. }
  change 256 with (2 ^ 8). apply Z.log2_lt_pow2; [lia|].
  pose proof (Z.log2_lxor a b ltac:(lia) ltac:(lia)). pose proof (Hlog a ltac:(lia)). pose proof (Hlog b ltac:(lia)). lia.
Qed.

(** ** The field *)

(** Multiplication by the generator of the field, as the tables are built. *)
Definition xtime (x : Z) : Z := let n := Z.shiftl x 1 in if Z.land n 256 =? 0 then n else Z.lxor n 285.

Definition byteb (a : Z) : bool := (0 <=? a) && (a <? 256).
Lemma byteb_byte a : byteb a = true -> byte a.
Proof. unfold byteb, byte. intros [?%Z.leb_le ?%Z.ltb_lt]%andb_prop. lia. Qed.

Lemma gfMul_byte a b : byte a -> byte b -> byte (gfMul a b).
Proof.
  intros Ha Hb. apply byteb_byte.
  apply (check2 (fun a b => byteb (gfMul a b)) all_bytes all_bytes); [vm_compute; reflexivity|by apply byte_elem..].
Qed.

Lemma xtime_lxor a b : byte a -> byte b -> xtime (Z.lxor a b) = Z.lxor (xtime a) (xtime b).
Proof.
  intros Ha Hb. apply Z.eqb_eq.
  apply (check2 (fun a b => xtime (Z.lxor a b) =? Z.lxor (xtime a) (xtime b)) all_bytes all_bytes);
    [vm_compute; reflexivity|by apply byte_elem..].
Qed.

Lemma gfMul_xtime u c : byte u -> byte c -> gfMul (xtime u) c = xtime (gfMul u c).
Proof.
  intros Ha Hb. apply Z.eqb_eq.
  apply (check2 (fun u c => gfMul (xtime u) c =? xtime (gfMul u c)) all_bytes all_bytes);
    [vm_compute; reflexivity|by apply byte_elem..].
Qed.

Lemma xtime_byte a : byte a -> byte (xtime a).
Proof.
  intros Ha. apply byteb_byte. apply (check1 (fun a => byteb (xtime a)) all_bytes); [vm_compute; reflexivity|by apply byte_elem].
Qed.

Lemma gfMul_comm a b : gfMul a b = gfMul b a.
Proof. unfold gfMul. by rewrite orb_comm, Z.add_comm. Qed.

Lemma gfMul_0_l b : gfMul 0 b = 0.
Proof. done. Qed.
Lemma gfMul_0_r a : gfMul a 0 = 0.
Proof. by rewrite gfMul_comm. Qed.

Lemma gfMul_1_l b : byte b -> gfMul 1 b = b.
Proof.
  intros Hb. apply Z.eqb_eq. apply (check1 (fun b => gfMul 1 b =? b) all_bytes); [vm_compute; reflexivity|by apply byte_elem].
Qed.

(** Every byte but zero is reached from one. *)
Lemma xtime_reaches a : byte a -> a <> 0 -> exists k, a = Nat.iter k xtime 1.
Proof.
  intros Ha Hne. exists (Z.to_nat (gfLog a)).
  assert (((a =? 0) || (a =? Nat.iter (Z.to_nat (gfLog a)) xtime 1)) = true) as H.
  { apply (check1 (fun a => (a =? 0) || (a =? Nat.iter (Z.to_nat (gfLog a)) xtime 1)) all_bytes);
      [vm_compute; reflexivity|by apply byte_elem]. }
  apply orb_prop in H as [?%Z.eqb_eq|?%Z.eqb_eq]; done.
Qed.

(** So a property of the field holds once it holds of zero and one and [xtime] keeps it. *)
Lemma field_ind (P : Z -> Prop) :
  P 0 -> P 1 -> (forall u, byte u -> P u -> P (xtime u)) -> forall a, byte a -> P a.
Proof.
  intros H0 H1 Hs a Ha. destruct (Z.eq_dec a 0) as [->|Hne]; [done|].
  destruct (xtime_reaches a Ha Hne) as [k ->].
  enough (byte (Nat.iter k xtime 1) /\ P (Nat.iter k xtime 1)) by tauto. clear -H1 Hs.
  induction k as [|k [IHb IHp]]; [by split|]. simpl. split; [by apply xtime_byte|by apply Hs].
Qed.

Lemma gfMul_lxor_r a b c : byte a -> byte b -> byte c -> gfMul a (Z.lxor b c) = Z.lxor (gfMul a b) (gfMul a c).
Proof.
  intros Ha Hb Hc. revert a Ha. apply (field_ind (fun a => gfMul a (Z.lxor b c) = Z.lxor (gfMul a b) (gfMul a c))); [done| |].
  - by rewrite !gfMul_1_l by auto using lxor_byte.
  - intros u Hu IH. rewrite !gfMul_xtime by auto using lxor_byte. rewrite IH. apply xtime_lxor; by apply gfMul_byte.
Qed.

Lemma gfMul_assoc a b c : byte a -> byte b -> byte c -> gfMul a (gfMul b c) = gfMul (gfMul a b) c.
Proof.
  intros Ha Hb Hc. revert a Ha. apply (field_ind (fun a => gfMul a (gfMul b c) = gfMul (gfMul a b) c)); [done| |].
  - by rewrite !gfMul_1_l by auto using gfMul_byte.
  - intros u Hu IH. by rewrite !gfMul_xtime, IH by auto using gfMul_byte.
Qed.

Lemma gfMul_lxor_l a b c : byte a -> byte b -> byte c -> gfMul (Z.lxor a b) c = Z.lxor (gfMul a c) (gfMul b c).
Proof. intros. rewrite !(gfMul_comm _ c). by apply gfMul_lxor_r. Qed.

(** ** Polynomials, highest term first *)
Definition eval (p : list Z) (r : Z) : Z := foldl (fun acc c => Z.lxor (gfMul acc r) c) 0 p.
Definition pw (r : Z) (k : nat) : Z := Nat.iter k (fun a => gfMul a r) 1.

Abbreviation all_byte := (Forall byte).

#[local] Hint Resolve gfMul_byte lxor_byte : zoomies.

Lemma eval_byte p r : all_byte p -> byte r -> byte (eval p r).
Proof.
  intros Hp Hr. unfold eval. assert (H0 : byte 0) by done. revert H0. generalize 0 as acc.
  induction Hp as [|c p Hc Hp IH]; intros acc Ha; [done|]. simpl. apply IH. auto with zoomies.
Qed.

Lemma pw_byte r k : byte r -> byte (pw r k).
Proof. intros Hr. induction k as [|k IH]; [done|]. simpl. auto with zoomies. Qed.

#[local] Hint Resolve eval_byte pw_byte : zoomies.

Lemma eval_snoc p c r : eval (p ++ [c]) r = Z.lxor (gfMul (eval p r) r) c.
Proof. unfold eval. by rewrite foldl_app. Qed.

Lemma eval_app p q r : all_byte p -> all_byte q -> byte r ->
  eval (p ++ q) r = Z.lxor (gfMul (eval p r) (pw r (length q))) (eval q r).
Proof.
  intros Hp Hq Hr. induction q as [|c q IH] using rev_ind.
  - rewrite app_nil_r. simpl. rewrite Z.lxor_0_r, gfMul_comm, gfMul_1_l; auto with zoomies.
  - apply Forall_app in Hq as [Hq [Hc _]%Forall_cons]. rewrite app_assoc, !eval_snoc, IH by done.
    rewrite length_app, Nat.add_1_r. simpl. rewrite gfMul_lxor_l, <- gfMul_assoc by auto with zoomies.
    by rewrite Z.lxor_assoc.
Qed.

Lemma eval_lxor p q r : all_byte p -> all_byte q -> byte r -> length p = length q ->
  eval (zip_with Z.lxor p q) r = Z.lxor (eval p r) (eval q r).
Proof.
  revert q. induction p as [|a p IH] using rev_ind; intros q Hp Hq Hr Hl; [by destruct q|].
  destruct q as [|b q _] using rev_ind; [rewrite length_app in Hl; simpl in Hl; lia|].
  rewrite !length_app in Hl. simpl in Hl. apply Forall_app in Hp as [Hp [Ha _]%Forall_cons]. apply Forall_app in Hq as [Hq [Hb _]%Forall_cons].
  rewrite zip_with_app by lia. simpl. rewrite !eval_snoc, IH, gfMul_lxor_l by (auto with zoomies; lia).
  rewrite !Z.lxor_assoc. f_equal. rewrite <- !Z.lxor_assoc. f_equal. apply Z.lxor_comm.
Qed.

Lemma eval_scale f p r : byte f -> all_byte p -> byte r -> eval (gfMul f <$> p) r = gfMul f (eval p r).
Proof.
  intros Hf Hp Hr. induction p as [|a p IH] using rev_ind; [by rewrite gfMul_0_r|].
  apply Forall_app in Hp as [Hp [Ha _]%Forall_cons]. rewrite fmap_app. csimpl.
  rewrite !eval_snoc, IH, gfMul_lxor_r, gfMul_assoc by auto with zoomies. done.
Qed.

(** ** The shift register *)
Lemma rs_step_zip g' rem d :
  length rem = length g' -> (0 < length rem)%nat ->
  rs_step (1 :: g') rem d =
  zip_with Z.lxor (drop 1 rem ++ [0]) (gfMul (Z.lxor d (nth 0 rem 0)) <$> g').
Proof.
  intros Hl Hpos. unfold rs_step. apply list_eq. intros i.
  rewrite list_lookup_imap, lookup_zip_with, list_lookup_fmap. simpl.
  destruct ((drop 1 rem ++ [0]) !! i) as [a|] eqn:E; simpl; [|done].
  assert (i < length g')%nat as Hi.
  { apply lookup_lt_Some in E. rewrite length_app, length_drop in E. simpl in E. lia. }
  destruct (lookup_lt_is_Some_2 g' i Hi) as [b Eb]. rewrite Eb. simpl. f_equal. f_equal.
  rewrite (nth_lookup_Some _ _ _ _ Eb). apply gfMul_comm.
Qed.

(** A root of a monic polynomial with the other terms [g']. *)
Definition root_of (g' : list Z) (r : Z) : Prop := byte r /\ eval (1 :: g') r = 0.

Lemma root_power g' r : all_byte g' -> root_of g' r -> eval g' r = pw r (length g').
Proof.
  intros Hg [Hr H]. change (1 :: g') with ([1] ++ g') in H.
  rewrite eval_app in H by (done || by apply Forall_singleton). apply Z.lxor_eq in H.
  rewrite <- H. unfold eval at 1. simpl. rewrite gfMul_1_l; auto with zoomies.
Qed.

Lemma rs_step_byte g' rem d : all_byte g' -> all_byte rem -> byte d -> length rem = length g' -> (0 < length rem)%nat ->
  all_byte (rs_step (1 :: g') rem d) /\ length (rs_step (1 :: g') rem d) = length g'.
Proof.
  intros Hg Hrem Hd Hl Hpos. rewrite rs_step_zip by done. destruct rem as [|a rem]; [simpl in Hpos; lia|]. simpl in *.
  apply Forall_cons in Hrem as [Ha Hrem]. split.
  - apply Forall_lookup_2. intros i x. rewrite lookup_zip_with_Some. intros (u & v & -> & Hu & Hv).
    apply list_lookup_fmap_Some in Hv as (w & -> & Hw). rewrite drop_0 in Hu.
    assert (byte u) by (eapply (Forall_lookup_1 byte (rem ++ [0])); [apply Forall_app; split; [done|by apply Forall_singleton]|done]).
    assert (byte w) by by eapply (Forall_lookup_1 byte g'). auto with zoomies.
  - rewrite length_zip_with, length_fmap, length_app, drop_0. simpl. lia.
Qed.

(** One step multiplies by [x], adds the byte and reduces. *)
Lemma rs_step_eval g' rem d r :
  all_byte g' -> all_byte rem -> byte d -> length rem = length g' -> (0 < length rem)%nat -> root_of g' r ->
  eval (rs_step (1 :: g') rem d) r = Z.lxor (gfMul (eval rem r) r) (gfMul d (pw r (length g'))).
Proof.
  intros Hg Hrem Hd Hl Hpos Hroot. pose proof Hroot as [Hr _].
  rewrite rs_step_zip by done. destruct rem as [|a rem]; [simpl in Hpos; lia|]. apply Forall_cons in Hrem as [Ha Hrem]. simpl in Hl. cbn [nth drop].
  rewrite drop_0, eval_lxor, eval_scale, (root_power g' r), eval_snoc, Z.lxor_0_r, gfMul_lxor_l; auto with zoomies.
  2: apply Forall_app; split; [done|by apply Forall_singleton].
  2: apply Forall_fmap, Forall_forall; intros x Hx; unfold compose; apply gfMul_byte; [auto with zoomies|by eapply Forall_forall in Hx].
  2: rewrite length_app, length_fmap; simpl; lia.
  change (a :: rem) with ([a] ++ rem). rewrite eval_app by (done || by apply Forall_singleton).
  rewrite <- Hl. change (eval [a] r) with a.
  rewrite gfMul_lxor_l, <- gfMul_assoc by auto with zoomies. change (gfMul (pw r (length rem)) r) with (pw r (S (length rem))).
  generalize (gfMul (eval rem r) r), (gfMul d (pw r (S (length rem)))), (gfMul a (pw r (S (length rem)))). intros x y z.
  rewrite (Z.lxor_comm y z), <- !Z.lxor_assoc. f_equal. apply Z.lxor_comm.
Qed.

Lemma eval_zeros n r : eval (replicate n 0) r = 0.
Proof. induction n as [|n IH]; [done|exact IH]. Qed.

(** After any data the register holds the data's remainder. *)
Lemma rs_invariant g' data r :
  all_byte g' -> (0 < length g')%nat -> all_byte data -> root_of g' r ->
  let rem := foldl (rs_step (1 :: g')) (replicate (length g') 0) data in
  all_byte rem /\ length rem = length g' /\ eval rem r = gfMul (eval data r) (pw r (length g')).
Proof.
  intros Hg Hn Hd Hroot. pose proof Hroot as [Hr _]. cbv zeta. induction data as [|d data IH] using rev_ind.
  - simpl. split_and!; [by apply Forall_replicate|by rewrite length_replicate|]. unfold eval at 2. simpl.
    apply eval_zeros.
  - apply Forall_app in Hd as [Hd [Hx _]%Forall_cons]. destruct (IH Hd) as (IH1 & IH2 & IH3).
    rewrite foldl_app. cbn [foldl]. destruct (rs_step_byte g' _ d Hg IH1 Hx IH2) as [H1 H2]; [lia|].
    split_and!; [done|done|]. rewrite rs_step_eval by (done || lia). rewrite IH3, eval_snoc, gfMul_lxor_l by auto with zoomies.
    f_equal. rewrite <- !gfMul_assoc by auto with zoomies. f_equal. apply gfMul_comm.
Qed.

(** The numbers of error correction codewords the versions use. *)
Definition ecLengths : list Z := [10; 16; 18; 22; 24; 26].

(** The generators are monic, of the right degree, with bytes for terms, and vanish at
    the powers of the field's generator below their degree. *)
Lemma generator_ok n i : n ∈ ecLengths -> 0 <= i < n ->
  exists g', generator n = 1 :: g' /\ length g' = Z.to_nat n /\ all_byte g' /\ root_of g' (gfExp i).
Proof.
  intros Hn Hi.
  pose (ok n := match generator n with
    | 1 :: g' => (length g' =? Z.to_nat n)%nat && forallb byteb g' &&
                 forallb (fun i => byteb (gfExp i) && (eval (1 :: g') (gfExp i) =? 0)) (range 0 n)
    | _ => false end).
  assert (Hok : ok n = true) by (apply (check1 ok ecLengths); [vm_compute; reflexivity|done]).
  unfold ok in Hok. clear ok. destruct (generator n) as [|[|q|] g']; try done. destruct q; try done. exists g'.
  apply andb_prop in Hok as [[Hl Hb]%andb_prop Hr]. split_and!; [done|by apply Nat.eqb_eq| |].
  - apply Forall_forall. intros x Hx. apply byteb_byte. by apply (check1 byteb g').
  - apply (check1 _ _ i) in Hr; [|by apply elem_of_range]. apply andb_prop in Hr as [? ?%Z.eqb_eq].
    split; [by apply byteb_byte|done].
Qed.

Lemma reedSolomon_bytes data n : n ∈ ecLengths -> all_byte data ->
  all_byte (reedSolomon data n) /\ length (reedSolomon data n) = Z.to_nat n.
Proof.
  intros Hn Hd. destruct (generator_ok n 0 Hn) as (g' & E & Hl & Hg & Hr).
  { unfold ecLengths in Hn. set_unfold in Hn. lia. }
  unfold reedSolomon. rewrite E, <- Hl.
  destruct (rs_invariant g' data _ Hg ltac:(unfold ecLengths in Hn; set_unfold in Hn; lia) Hd Hr) as (? & ? & _). done.
Qed.

Lemma syndromes_zero data n i : n ∈ ecLengths -> all_byte data -> 0 <= i < n ->
  eval (data ++ reedSolomon data n) (gfExp i) = 0.
Proof.
  intros Hn Hd Hi. destruct (generator_ok n i Hn Hi) as (g' & E & Hl & Hg & Hr).
  destruct (reedSolomon_bytes data n Hn Hd) as [Hb Hlen].
  rewrite eval_app, Hlen by (done || apply Hr).
  unfold reedSolomon. rewrite E, <- Hl.
  destruct (rs_invariant g' data _ Hg ltac:(lia) Hd Hr) as (_ & _ & ->). apply Z.lxor_nilpotent.
Qed.

(** Every block of a symbol, followed by the error correction
    codewords computed for it, is a multiple of the generator: read as a polynomial it
    vanishes at each of the first [n] powers of the field's generator, and there are [n]
    codewords, all of them bytes. *)
Theorem reedSolomon_syndromes (version : Z) (data : list Z) :
  1 <= version <= maxVersion -> Forall byte data ->
  let n := ecPerBlock (levelM version) in
  length (reedSolomon data n) = Z.to_nat n /\ Forall byte (reedSolomon data n) /\
  forall i, 0 <= i < n -> eval (data ++ reedSolomon data n) (gfExp i) = 0.
Proof.
  intros Hv Hd. cbv zeta.
  assert (Hn : ecPerBlock (levelM version) ∈ ecLengths).
  { unfold maxVersion in Hv. assert (Hr : version ∈ range 1 11) by (apply elem_of_range; lia).
    apply (check1 (fun v => existsb (Z.eqb (ecPerBlock (levelM v))) ecLengths)) in Hr; [|vm_compute; reflexivity].
    apply existsb_exists in Hr as (x & ? & ->%Z.eqb_eq). by apply list_elem_of_In. }
  destruct (reedSolomon_bytes data _ Hn Hd). split_and!; [done|done|]. intros. by apply syndromes_zero.
Qed.
