(* ===== verification/QrScan.v ===== *)
(** * Reading a QR code back (internal/qr/qr.go)

    [scan] reads a symbol the way the standard says a scanner does: the mask from the
    format word, the zigzag over the cells that are not function patterns, the blocks
    put back together, and the byte segment.  The theorems say that it reads back what
    [Encode] was given, that [Encode] refuses exactly what does not fit, that it takes
    the smallest version and the mask of the lowest penalty, and that the SVG paints
    exactly the dark modules. *)
From Stdlib Require Import ZArith Lia.
From stdpp Require Import base list sets.
From S2P Require Import Prelude Qr QrField.
Local Open Scope list_scope.
Local Open Scope Z_scope.

(** ** Bits and bytes *)
Definition bits_of (v n : Z) : list bool := bit_of v <$> rev (range 0 n).
Definition pack (l : list bool) : Z := foldl (fun a b => 2 * a + Z.b2z b) 0 l.
Definition unpack (l : list Z) : list bool := concat ((fun v => bits_of v 8) <$> l).

Lemma range_snoc lo hi : lo <= hi -> range lo (hi + 1) = range lo hi ++ [hi].
Proof.
  intros H. unfold range. replace (hi + 1 - lo) with ((hi - lo) + 1) by lia.
  rewrite seqZ_app by lia. f_equal. simpl. by replace (lo + (hi - lo)) with hi by lia.
Qed.

Lemma range_cons lo hi : lo < hi -> range lo hi = lo :: range (lo + 1) hi.
Proof.
  intros H. unfold range. rewrite seqZ_cons by lia. f_equal. f_equal; lia.
Qed.

Lemma length_range lo hi : length (range lo hi) = Z.to_nat (hi - lo).
Proof. apply length_seqZ. Qed.

Lemma bits_of_length v n : length (bits_of v n) = Z.to_nat n.
Proof. unfold bits_of. rewrite length_fmap, length_rev, length_range. f_equal. lia. Qed.

Lemma bits_of_S v n : 0 <= n -> bits_of v (n + 1) = bit_of v n :: bits_of v n.
Proof. intros. unfold bits_of. rewrite range_snoc, rev_app_distr by done. done. Qed.

Lemma pack_go l a : foldl (fun a b => 2 * a + Z.b2z b) a l = a * 2 ^ Z.of_nat (length l) + pack l.
Proof.
  unfold pack. revert a. induction l as [|b l IH]; intros a; [simpl; lia|].
  cbn [foldl length]. rewrite IH, (IH (2 * 0 + Z.b2z b)). rewrite Nat2Z.inj_succ, Z.pow_succ_r by lia. nia.
Qed.

Lemma pack_cons b l : pack (b :: l) = Z.b2z b * 2 ^ Z.of_nat (length l) + pack l.
Proof. unfold pack at 1. cbn [foldl]. rewrite pack_go. lia. Qed.


Lemma bit_of_b2z v i : 0 <= i -> Z.b2z (bit_of v i) = (v / 2 ^ i) mod 2.
Proof.
  intros Hi. unfold bit_of. change 1 with (Z.ones 1) at 1. rewrite Z.land_ones, Z.shiftr_div_pow2 by lia.
  change (2 ^ 1) with 2. pose proof (Z.mod_pos_bound (v / 2 ^ i) 2 ltac:(lia)).
  destruct (Z.eqb_spec ((v / 2 ^ i) mod 2) 1); simpl; lia.
Qed.

(** A number is read back from its bits. *)
Lemma pack_bits_of v n : 0 <= v -> 0 <= n -> pack (bits_of v n) = v mod 2 ^ n.
Proof.
  intros Hv Hn. revert n Hn. apply natlike_ind; [by rewrite Z.mod_1_r|].
  intros n Hn IH. unfold Z.succ. rewrite bits_of_S, pack_cons, IH, bits_of_length, bit_of_b2z by done.
  rewrite Z2Nat.id, Z.pow_add_r by lia. change (2 ^ 1) with 2.
  rewrite Z.rem_mul_r by lia. lia.
Qed.

Lemma pack8_bits (l : list bool) : length l = 8%nat -> bits_of (pack l) 8 = l.
Proof.
  intros H. do 8 (destruct l as [|[] l]; [discriminate H| |]).
  all: destruct l; [vm_compute; reflexivity|discriminate H].
Qed.

Lemma pack8_byte (l : list bool) : length l = 8%nat -> byte (pack l).
Proof.
  intros H. do 8 (destruct l as [|[] l]; [discriminate H| |]).
  all: destruct l; [vm_compute; by split|discriminate H].
Qed.

Lemma byte_pack v : byte v -> pack (bits_of v 8) = v.
Proof. intros [? ?]. rewrite pack_bits_of by lia. apply Z.mod_small. lia. Qed.

Lemma div8_S i : ((8 + i) / 8)%nat = S (i / 8).
Proof. exact (Nat.div_add_l 1 8 i ltac:(lia)). Qed.

(** The body of [bytes_of], and what it does past the first byte. *)
Definition bytes_step (out : list Z) (ib : nat * bool) : list Z :=
  let '(i, bit) := ib in
  if (bit : bool) then alter (fun v => Z.lor v (Z.shiftl 1 (7 - Z.of_nat i mod 8))) (i / 8)%nat out else out.

Lemma bytes_step_shift v out i b : bytes_step (v :: out) ((8 + i)%nat, b) = v :: bytes_step out (i, b).
Proof.
  unfold bytes_step. destruct b; [|done].
  rewrite div8_S. cbn [alter list_alter]. f_equal. replace (Z.of_nat (8 + i)) with (Z.of_nat i + 1 * 8) by lia. by rewrite Z.mod_add.
Qed.

Lemma bytes_fold_shift v out l k :
  foldl bytes_step (v :: out) (imap (fun i b => ((8 + (k + i))%nat, b)) l) =
  v :: foldl bytes_step out (imap (fun i b => ((k + i)%nat, b)) l).
Proof.
  revert v out k. induction l as [|b l IH]; intros v out k; [done|]. rewrite !imap_cons. cbn [foldl].
  rewrite bytes_step_shift.
  rewrite (imap_ext _ (fun i b => ((8 + (S k + i))%nat, b))) by (intros; simpl; do 2 f_equal; lia).
  rewrite IH. f_equal. f_equal. apply imap_ext. intros. simpl. f_equal. lia.
Qed.

Lemma bytes_fold_first (b8 : list bool) out :
  length b8 = 8%nat -> foldl bytes_step (0 :: out) (imap pair b8) = pack b8 :: out.
Proof.
  intros H. do 8 (destruct b8 as [|[] b8]; [discriminate H| |]).
  all: destruct b8; [vm_compute; reflexivity|discriminate H].
Qed.

Lemma bytes_of_cons (b8 rest : list bool) :
  length b8 = 8%nat -> bytes_of (b8 ++ rest) = pack b8 :: bytes_of rest.
Proof.
  intros H. unfold bytes_of. fold bytes_step.
  rewrite length_app, H, imap_app, foldl_app, H.
  rewrite div8_S.
  cbn [replicate]. change (foldl _ _ (imap pair b8)) with (foldl bytes_step (0 :: replicate (length rest / 8) 0) (imap pair b8)).
  rewrite bytes_fold_first by done.
  transitivity (foldl bytes_step (pack b8 :: replicate (length rest / 8) 0) (imap (fun i b => ((8 + (0 + i))%nat, b)) rest)); [done|].
  rewrite bytes_fold_shift. done.
Qed.

Lemma unpack_bytes_of k l : length l = (8 * k)%nat -> unpack (bytes_of l) = l /\ length (bytes_of l) = k /\ Forall byte (bytes_of l).
Proof.
  revert l. induction k as [|k IH]; intros l Hl.
  - destruct l; [|simpl in Hl; lia]. done.
  - rewrite <- (take_drop 8 l). assert (length (take 8 l) = 8%nat) as H8 by (rewrite length_take; lia).
    destruct (IH (drop 8 l)) as (E & E2 & E3); [rewrite length_drop; lia|].
    rewrite bytes_of_cons by done. unfold unpack in *. cbn [fmap list_fmap concat]. rewrite E, pack8_bits by done.
    split; [done|]. split; [simpl; by rewrite E2|]. constructor; [by apply pack8_byte|done].
Qed.

Lemma bytes_of_unpack l : Forall byte l -> bytes_of (unpack l) = l.
Proof.
  induction 1 as [|v l Hv Hl IH]; [done|]. unfold unpack. cbn [fmap list_fmap concat].
  rewrite bytes_of_cons by by rewrite bits_of_length. rewrite byte_pack by done. f_equal. exact IH.
Qed.

Lemma unpack_length l : length (unpack l) = (8 * length l)%nat.
Proof.
  induction l as [|v l IH]; [done|]. unfold unpack in *. cbn [fmap list_fmap concat length].
  rewrite length_app, bits_of_length, IH. simpl. lia.
Qed.

Lemma unpack_app l l' : unpack (l ++ l') = unpack l ++ unpack l'.
Proof. unfold unpack. by rewrite fmap_app, concat_app. Qed.

(** The bit the encoder takes from its codewords is the next bit of the stream. *)
Lemma bits_of_lookup v i : 0 <= i < 8 -> bits_of v 8 !! Z.to_nat i = Some (bit_of v (7 - i)).
Proof.
  intros Hi. assert (i ∈ range 0 8) as Hr by by apply elem_of_range. vm_compute in Hr.
  repeat (apply elem_of_cons in Hr as [->|Hr]; [done|]). by apply elem_of_nil in Hr.
Qed.

Lemma unpack_lookup cw bit : 0 <= bit < Z.of_nat (length cw) * 8 ->
  unpack cw !! Z.to_nat bit = Some (bit_of (nth (Z.to_nat (bit / 8)) cw 0) (7 - bit mod 8)).
Proof.
  revert bit. induction cw as [|v cw IH]; intros bit Hb; [simpl in Hb; lia|].
  unfold unpack. cbn [fmap list_fmap concat]. fold (unpack cw).
  destruct (Z.lt_ge_cases bit 8) as [Hlt|Hge].
  - rewrite lookup_app_l by (rewrite bits_of_length; lia).
    rewrite bits_of_lookup by lia. rewrite Z.div_small, Z.mod_small by lia. done.
  - rewrite lookup_app_r by (rewrite bits_of_length; lia). rewrite bits_of_length.
    replace (Z.to_nat bit - Z.to_nat 8)%nat with (Z.to_nat (bit - 8)) by lia.
    change (concat _) with (unpack cw). rewrite IH by (simpl in Hb; lia).
    replace bit with (bit - 8 + 1 * 8) at 3 4 by lia. rewrite Z.div_add, Z.mod_add by lia.
    rewrite Z2Nat.inj_add by (try lia; apply Z.div_pos; lia). rewrite Nat.add_1_r. done.
Qed.

(** ** The byte segment *)

(** What a scanner reads from the data codewords: the mode, the count, the bytes. *)
Definition read_segment (version : Z) (codewords : list Z) : option (list Z) :=
  let bits := unpack codewords in
  let cb := Z.to_nat (countBits version) in
  let count := Z.to_nat (pack (take cb (drop 4 bits))) in
  let body := drop (4 + cb) bits in
  if bool_decide (take 4 bits = [false; true; false; false]) && (8 * count <=? length body)%nat
  then Some (bytes_of (take (8 * count) body)) else None.

Lemma put_bits_bytes bits data : foldl (fun bits b => put_bits bits b 8) bits data = bits ++ unpack data.
Proof.
  revert bits. induction data as [|b data IH]; intros bits; [by rewrite app_nil_r|]. cbn [foldl].
  rewrite IH. unfold unpack, put_bits. cbn [fmap list_fmap concat]. by rewrite <- app_assoc.
Qed.

Lemma pad_bytes_byte n : Forall byte (pad_bytes n).
Proof. unfold pad_bytes. apply Forall_fmap, Forall_forall. intros i _. unfold compose. by case_match. Qed.

(** The terminator and the padding to a byte, within the capacity. *)
Lemma terminate_length bits cap k :
  length bits = k -> Z.of_nat k <= 8 * cap ->
  exists extra m, terminate bits (8 * cap) = bits ++ extra /\ length (bits ++ extra) = (8 * m)%nat /\ Z.of_nat m <= cap.
Proof.
  intros Hk Hc. unfold terminate.
  set (t := Z.to_nat (Z.min 4 (Z.max 0 (8 * cap - Z.of_nat (length bits))))).
  set (l1 := bits ++ replicate t false).
  set (u := Z.to_nat ((8 - Z.of_nat (length l1) mod 8) mod 8)).
  assert (Hl1 : length l1 = (k + t)%nat) by (unfold l1; rewrite length_app, length_replicate; lia).
  exists (replicate t false ++ replicate u false), ((k + t + u) / 8)%nat.
  rewrite app_assoc. fold l1. split; [done|]. rewrite length_app, length_replicate, Hl1.
  assert (Hmod : ((Z.of_nat (k + t) + Z.of_nat u) mod 8 = 0)).
  { unfold u. rewrite Hl1, Z2Nat.id by (apply Z.mod_pos_bound; lia).
    rewrite Z.add_mod_idemp_r by lia. pose proof (Z.div_mod (Z.of_nat (k + t)) 8 ltac:(lia)).
    replace (Z.of_nat (k + t) + (8 - Z.of_nat (k + t) mod 8)) with ((Z.of_nat (k + t) / 8 + 1) * 8) by lia.
    apply Z.mod_mul. lia. }
  assert (Hu : Z.of_nat u < 8).
  { unfold u. pose proof (Z.mod_pos_bound (8 - Z.of_nat (length l1) mod 8) 8 ltac:(lia)). lia. }
  assert (Ht : Z.of_nat (k + t) <= 8 * cap) by (unfold t; lia).
  apply Z.mod_divide in Hmod as [q Hq]; [|lia].
  assert (Hdiv : ((k + t + u) / 8)%nat = Z.to_nat q).
  { replace (k + t + u)%nat with (Z.to_nat q * 8)%nat by lia. apply Nat.div_mul. lia. }
  rewrite Hdiv. lia.
Qed.

(** What every version's layout satisfies. *)
Lemma version_range v : 1 <= v <= maxVersion -> v ∈ range 1 11.
Proof. unfold maxVersion. intros. apply elem_of_range. lia. Qed.

Lemma capacity_small v : 1 <= v <= maxVersion ->
  0 < capacityOf (levelM v) /\ capacityOf (levelM v) < 2 ^ countBits v /\ 0 < countBits v.
Proof.
  intros Hv%version_range.
  apply (check1 (fun v => (0 <? capacityOf (levelM v)) && (capacityOf (levelM v) <? 2 ^ countBits v) && (0 <? countBits v))) in Hv;
    [|vm_compute; reflexivity].
  apply andb_prop in Hv as [[?%Z.ltb_lt ?%Z.ltb_lt]%andb_prop ?%Z.ltb_lt]. lia.
Qed.

Lemma dataCodewords_spec v data :
  1 <= v <= maxVersion -> Forall byte data -> fitsVersion (Z.of_nat (length data)) v = true ->
  read_segment v (dataCodewords v data) = Some data /\
  length (dataCodewords v data) = Z.to_nat (capacityOf (levelM v)) /\ Forall byte (dataCodewords v data).
Proof.
  intros Hv Hd Hfit%Z.leb_le. destruct (capacity_small v Hv) as (Hc0 & Hc1 & Hcb).
  unfold dataCodewords. set (cap := capacityOf (levelM v)) in *. set (cb := countBits v) in *.
  rewrite put_bits_bytes. unfold put_bits. fold (bits_of (Z.of_nat (length data)) cb).
  change ([] ++ (bit_of 4 <$> rev (range 0 4))) with [false; true; false; false].
  set (head := [false; true; false; false] ++ bits_of (Z.of_nat (length data)) cb).
  destruct (terminate_length (head ++ unpack data) cap (4 + Z.to_nat cb + 8 * length data)) as (extra & m & -> & Hlen & Hm).
  { unfold head. rewrite !length_app, bits_of_length, unpack_length. simpl. lia. }
  { lia. }
  destruct (unpack_bytes_of m _ Hlen) as (Eu & El & Eb). rewrite El.
  replace (Z.to_nat (8 * cap / 8)) with (Z.to_nat cap) by (rewrite Z.mul_comm, Z.div_mul by lia; done).
  split_and!.
  - unfold read_segment. rewrite unpack_app, Eu. fold cb. unfold head. rewrite <- !app_assoc.
    set (tail := unpack data ++ extra ++ _).
    rewrite (take_app_length' _ _ 4) by done. rewrite (drop_app_length' [_; _; _; _] _ 4) by done.
    rewrite (take_app_length' (bits_of _ _)) by by rewrite bits_of_length.
    rewrite pack_bits_of, Z.mod_small, Nat2Z.id by (unfold cap in *; lia).
    rewrite <- drop_drop, (drop_app_length' [_; _; _; _] _ 4) by done.
    rewrite (drop_app_length' (bits_of _ _)) by by rewrite bits_of_length.
    rewrite bool_decide_eq_true_2 by done. unfold tail.
    rewrite (proj2 (Nat.leb_le _ _)) by (rewrite length_app, unpack_length; lia). simpl andb. cbv iota.
    rewrite take_app_length' by by rewrite unpack_length. by rewrite bytes_of_unpack.
  - rewrite length_app, El. unfold pad_bytes. rewrite length_fmap, length_seq. lia.
  - apply Forall_app. split; [done|apply pad_bytes_byte].
Qed.

(** ** Blocks *)
Section Weave.
  Context {A : Type}.

(** Hand a row out to the blocks that are longer than [i]. *)
Fixpoint deal (lens : list nat) (i : nat) (row : list A) : list (option A) :=
  match lens with
  | [] => []
  | n :: lens => if (i <? n)%nat then head row :: deal lens i (tail row) else None :: deal lens i row
  end.

Definition row_length (lens : list nat) (i : nat) : nat := length (List.filter (fun n => (i <? n)%nat) lens).

(** The rows of a woven list, and the blocks they were woven from. *)
Definition unweave (longest : nat) (lens : list nat) (l : list A) : list (list A) :=
  let rows := pieces (row_length lens <$> seq 0 longest) l in
  let dealt := imap (fun i row => deal lens i row) rows in
  (fun k => omap (fun row => mjoin (row !! k)) dealt) <$> seq 0 (length lens).

Lemma deal_row (blocks : list (list A)) i :
  deal (length <$> blocks) i (omap (fun blk => blk !! i) blocks) = (fun blk => blk !! i) <$> blocks.
Proof.
  induction blocks as [|blk blocks IH]; [done|]. csimpl. destruct (Nat.ltb_spec i (length blk)) as [H|H].
  - destruct (lookup_lt_is_Some_2 _ _ H) as [x ->]. simpl. by rewrite IH.
  - rewrite (lookup_ge_None_2 blk i H). by rewrite IH.
Qed.

Lemma row_length_omap (blocks : list (list A)) i :
  row_length (length <$> blocks) i = length (omap (fun blk => blk !! i) blocks).
Proof.
  unfold row_length. induction blocks as [|blk blocks IH]; [done|]. csimpl. destruct (Nat.ltb_spec i (length blk)) as [H|H].
  - destruct (lookup_lt_is_Some_2 _ _ H) as [x ->]. simpl. by rewrite IH.
  - by rewrite (lookup_ge_None_2 blk i H).
Qed.

Lemma pieces_concat (rows : list (list A)) rest : pieces (length <$> rows) (concat rows ++ rest) = rows.
Proof.
  induction rows as [|row rows IH]; [done|]. csimpl. rewrite <- app_assoc.
  by rewrite take_app_length, drop_app_length, IH.
Qed.

Lemma omap_lookup_seq (blk : list A) n : (length blk <= n)%nat -> omap (fun i => blk !! i) (seq 0 n) = blk.
Proof.
  intros Hn. replace n with (length blk + (n - length blk))%nat by lia. rewrite seq_app, omap_app.
  assert (omap (fun i => blk !! i) (seq (0 + length blk) (n - length blk)) = []) as ->.
  { generalize (n - length blk)%nat as k. intros k. remember (0 + length blk)%nat as s eqn:Es. assert (length blk <= s)%nat as Hs by lia. clear Es.
    revert s Hs. induction k as [|k IH]; intros s Hs; [done|]. csimpl. rewrite (lookup_ge_None_2 blk s Hs). apply IH. lia. }
  rewrite app_nil_r. clear. induction blk as [|x blk IH] using rev_ind; [done|].
  rewrite length_app, Nat.add_1_r, seq_S, omap_app. csimpl. rewrite lookup_app_r, Nat.sub_diag by lia. simpl. f_equal.
  rewrite <- IH at 2. apply list_omap_ext. apply Forall2_same_length_lookup. split; [done|].
  intros i a b Ha Hb. rewrite Ha in Hb. injection Hb as <-. apply lookup_seq in Ha as [-> Hi]. by rewrite lookup_app_l by lia.
Qed.
End Weave.

Lemma omap_of_fmap {X Y Z} (l : list X) (g : X -> Y) (f : Y -> option Z) : omap f (g <$> l) = omap (fun x => f (g x)) l.
Proof. induction l as [|x l IH]; [done|]. csimpl. by rewrite IH. Qed.

Lemma weave_rows {A} longest (blocks : list (list A)) rest :
  unweave longest (length <$> blocks) (weave longest blocks ++ rest) =
  (fun k => omap (fun i => mjoin ((fun blk => blk !! i) <$> blocks !! k)) (seq 0 longest)) <$> seq 0 (length blocks).
Proof.
  unfold unweave, weave. rewrite length_fmap.
  assert (row_length (length <$> blocks) <$> seq 0 longest =
          length <$> ((fun i => omap (fun blk => blk !! i) blocks) <$> seq 0 longest)) as ->.
  { rewrite <- list_fmap_compose. apply list_fmap_ext. intros n j _. apply row_length_omap. }
  rewrite <- (app_nil_r (concat _)), <- app_assoc, pieces_concat. apply list_fmap_ext. intros n k _.
  rewrite imap_fmap.
  assert (Hd : imap (fun n x => deal (length <$> blocks) n (omap (fun blk => blk !! x) blocks)) (seq 0 longest) =
               (fun i => (fun blk => blk !! i) <$> blocks) <$> seq 0 longest).
  { apply list_eq. intros i. rewrite list_lookup_imap, list_lookup_fmap.
    destruct (seq 0 longest !! i) as [j|] eqn:E; [|done]. simpl. apply lookup_seq in E as [-> _]. f_equal. apply deal_row. }
  change (imap _ (seq 0 longest)) with (imap (fun n x => deal (length <$> blocks) n (omap (fun blk => blk !! x) blocks)) (seq 0 longest)).
  rewrite Hd, omap_of_fmap. apply list_omap_ext, Forall2_same_length_lookup. split; [done|].
  intros i a b Ha Hb. rewrite Ha in Hb. injection Hb as <-. simpl. by rewrite list_lookup_fmap.
Qed.

Lemma unweave_weave {A} longest (blocks : list (list A)) rest :
  Forall (fun blk => (length blk <= longest)%nat) blocks ->
  unweave longest (length <$> blocks) (weave longest blocks ++ rest) = blocks.
Proof.
  intros Hl. rewrite weave_rows. apply list_eq. intros k. rewrite list_lookup_fmap.
  destruct (blocks !! k) as [blk|] eqn:E.
  - pose proof (lookup_lt_Some _ _ _ E). rewrite lookup_seq_lt by done. simpl. f_equal. rewrite E. simpl.
    apply omap_lookup_seq. exact (proj1 (Forall_lookup _ _) Hl k blk E).
  - rewrite lookup_seq_ge; [done|]. by apply lookup_ge_None_1.
Qed.

Lemma pieces_spec {A} lens (l : list A) :
  length l = sum_list lens -> concat (pieces lens l) = l /\ length <$> pieces lens l = lens.
Proof.
  revert l. induction lens as [|n lens IH]; intros l Hl; simpl in Hl.
  - destruct l; [done|simpl in Hl; lia].
  - destruct (IH (drop n l)) as [E1 E2]; [rewrite length_drop; lia|]. cbn [pieces concat]. rewrite fmap_cons, E1, E2, take_drop.
    split; [done|]. rewrite length_take. f_equal. lia.
Qed.

Lemma weave_elem {A} longest (blocks : list (list A)) x : x ∈ weave longest blocks -> exists blk, blk ∈ blocks /\ x ∈ blk.
Proof.
  unfold weave. intros (row & Hrow & Hx)%list_elem_of_In%in_concat.
  apply list_elem_of_In, list_elem_of_fmap in Hrow as (i & -> & _).
  apply list_elem_of_In, list_elem_of_omap in Hx as (blk & Hb & E). exists blk. split; [done|]. by eapply list_elem_of_lookup_2.
Qed.

Lemma length_weave {A} longest (blocks : list (list A)) :
  Forall (fun blk => (length blk <= longest)%nat) blocks -> length (weave longest blocks) = sum_list (length <$> blocks).
Proof.
  (* the woven list is a rearrangement of the blocks *)
  intros H. unfold weave. induction H as [|blk blocks Hb H IH].
  - simpl. induction (seq 0 longest); [done|]. done.
  - rewrite fmap_cons. cbn [sum_list]. rewrite <- IH. clear IH H.
    assert (length blk = length (omap (fun i => blk !! i) (seq 0 longest))) as -> by by rewrite omap_lookup_seq.
    pose (one i := match blk !! i with Some _ => 1 | None => 0 end%nat).
    assert (Hf : forall i, length (omap (fun b => b !! i) (blk :: blocks)) = (one i + length (omap (fun b => b !! i) blocks))%nat).
    { intros i. unfold one. csimpl. by destruct (blk !! i). }
    assert (Hg : forall i l, length (omap (fun i => blk !! i) (i :: l)) = (one i + length (omap (fun i => blk !! i) l))%nat).
    { intros i l. unfold one. csimpl. by destruct (blk !! i). }
    induction (seq 0 longest) as [|i l IH]; [done|]. rewrite !fmap_cons. cbn [concat]. rewrite !length_app, Hf, Hg, IH. unfold id. lia.
Qed.

(** *** Interleaving *)
Definition codewordsOf (version : Z) : Z :=
  let b := levelM version in capacityOf b + ecPerBlock b * (g1Blocks b + g2Blocks b).

(** What a scanner takes for the data codewords. *)
Definition deinterleave (version : Z) (codewords : list Z) : list Z :=
  let b := levelM version in
  concat (unweave (Z.to_nat (Z.max (g1Data b) (g2Data b))) (blockLengths b) codewords).

Lemma layout v : 1 <= v <= maxVersion ->
  let b := levelM v in
  sum_list (blockLengths b) = Z.to_nat (capacityOf b) /\
  Forall (fun n => (n <= Z.to_nat (Z.max (g1Data b) (g2Data b)))%nat) (blockLengths b) /\
  length (blockLengths b) = Z.to_nat (g1Blocks b + g2Blocks b) /\ ecPerBlock b ∈ ecLengths /\ 0 <= g1Blocks b + g2Blocks b.
Proof.
  intros Hv%version_range. cbv zeta.
  apply (check1 (fun v => let b := levelM v in
    (sum_list (blockLengths b) =? Z.to_nat (capacityOf b))%nat &&
    forallb (fun n => n <=? Z.to_nat (Z.max (g1Data b) (g2Data b)))%nat (blockLengths b) &&
    (length (blockLengths b) =? Z.to_nat (g1Blocks b + g2Blocks b))%nat &&
    existsb (Z.eqb (ecPerBlock b)) ecLengths && (0 <=? g1Blocks b + g2Blocks b))) in Hv; [|vm_compute; reflexivity].
  cbv zeta in Hv. apply andb_prop in Hv as [[[[H1 H2]%andb_prop H3]%andb_prop H4]%andb_prop H5].
  split_and!; [by apply Nat.eqb_eq| |by apply Nat.eqb_eq| |by apply Z.leb_le].
  - apply Forall_forall. intros n Hn%list_elem_of_In. rewrite forallb_forall in H2. by apply Nat.leb_le, H2.
  - apply existsb_exists in H4 as (x & ? & ->%Z.eqb_eq). by apply list_elem_of_In.
Qed.

Lemma sum_list_const n (l : list nat) : Forall (fun x => x = n) l -> sum_list l = (n * length l)%nat.
Proof. induction 1 as [|x l -> H IH]; [simpl; lia|]. simpl. rewrite IH. lia. Qed.

Lemma interleave_spec v data :
  1 <= v <= maxVersion -> Forall byte data -> length data = Z.to_nat (capacityOf (levelM v)) ->
  deinterleave v (interleave v data) = data /\ Forall byte (interleave v data) /\
  length (interleave v data) = Z.to_nat (codewordsOf v).
Proof.
  intros Hv Hd Hl. destruct (layout v Hv) as (Hsum & Hmax & Hnb & Hec & Hpos). destruct (capacity_small v Hv) as (Hcap & _).
  unfold interleave, deinterleave. set (b := levelM v) in *. set (lens := blockLengths b) in *.
  destruct (pieces_spec lens data) as [Hcat Hlens]; [congruence|]. set (blocks := pieces lens data) in *.
  set (longest := Z.to_nat (Z.max (g1Data b) (g2Data b))) in *.
  assert (Hblk : Forall (fun blk => (length blk <= longest)%nat) blocks).
  { rewrite <- Hlens in Hmax. by apply Forall_fmap in Hmax. }
  assert (Hbytes : forall blk, blk ∈ blocks -> Forall byte blk).
  { intros blk Hb. apply Forall_forall. intros x Hx. rewrite <- Hcat in Hd. eapply Forall_forall in Hd; [exact Hd|].
    apply list_elem_of_In, in_concat. exists blk. split; by apply list_elem_of_In. }
  set (ecc := (fun blk => reedSolomon blk (ecPerBlock b)) <$> blocks).
  assert (Hecc : forall e, e ∈ ecc -> Forall byte e /\ length e = Z.to_nat (ecPerBlock b)).
  { intros e (blk & -> & Hb)%list_elem_of_fmap. by apply reedSolomon_bytes; auto. }
  split_and!.
  - rewrite <- Hlens, unweave_weave by done. done.
  - apply Forall_forall. intros x [(blk & Hb & Hx)%weave_elem|(e & He & Hx)%weave_elem]%elem_of_app.
    + by eapply Forall_forall in Hx; [|by apply Hbytes].
    + by eapply Forall_forall in Hx; [|by apply Hecc].
  - rewrite length_app, !length_weave, Hlens, Hsum by (done || (apply Forall_forall; intros e He; by rewrite (proj2 (Hecc e He)))).
    rewrite (sum_list_const (Z.to_nat (ecPerBlock b))).
    2: { apply Forall_fmap, Forall_forall. intros e He. by apply Hecc. }
    unfold ecc. rewrite !length_fmap. rewrite <- (length_fmap length blocks), Hlens, Hnb. unfold codewordsOf. fold b.
    assert (0 <= ecPerBlock b) by (unfold ecLengths in Hec; set_unfold in Hec; lia). nia.
Qed.

(** ** Grids *)
Definition square (n : Z) (m : grid) : Prop := length m = Z.to_nat n /\ Forall (fun row => length row = Z.to_nat n) m.
Definition inside (n : Z) (p : Z * Z) : Prop := 0 <= fst p < n /\ 0 <= snd p < n.

Lemma cell_lookup m x y : cell m x y = default false (m !! Z.to_nat y ≫= fun row => row !! Z.to_nat x).
Proof.
  unfold cell. rewrite !nth_lookup. destruct (m !! Z.to_nat y) as [row|]; [done|]. done.
Qed.

Lemma square_put n m x y b : square n m -> square n (put m x y b).
Proof.
  intros [Hl Hr]. unfold put. split; [by rewrite length_alter|].
  apply Forall_alter; [done|]. intros row _ Hrow. by rewrite length_insert.
Qed.

Lemma cell_put n m x y b : square n m -> inside n (x, y) -> cell (put m x y b) x y = b.
Proof.
  intros [Hl Hr] [Hx Hy]. simpl in *. rewrite cell_lookup. unfold put. rewrite list_lookup_alter_eq.
  destruct (lookup_lt_is_Some_2 m (Z.to_nat y)) as [row E]; [lia|]. rewrite E. simpl.
  rewrite Forall_lookup in Hr. rewrite list_lookup_insert_eq; [done|]. rewrite (Hr _ _ E). lia.
Qed.

Lemma cell_put_ne m x y x' y' b : 0 <= x -> 0 <= y -> 0 <= x' -> 0 <= y' -> (x, y) <> (x', y') ->
  cell (put m x y b) x' y' = cell m x' y'.
Proof.
  intros ? ? ? ? Hne. rewrite !cell_lookup. unfold put. 
  destruct (decide (Z.to_nat y = Z.to_nat y')) as [E|E]; [rewrite <- E, list_lookup_alter_eq|by rewrite list_lookup_alter_ne].
  rewrite E. destruct (m !! Z.to_nat y') as [row|]; [|done]. simpl. rewrite list_lookup_insert_ne; [done|].
  intros E'. apply Hne. f_equal; lia.
Qed.

(** ** The zigzag *)
Definition stream (cw : list Z) (i : Z) : bool :=
  if i <? Z.of_nat (length cw) * 8 then bit_of (nth (Z.to_nat (i / 8)) cw 0) (7 - i mod 8) else false.

(** The cells that are not function modules. *)
Definition free (c : Code) (p : Z * Z) : bool := negb (cell (c_reserved c) (fst p) (snd p)).
(** A data cell as a scanner reads it. *)
Definition unmasked (mask : Z) (m : grid) (p : Z * Z) : bool := xorb (cell m (fst p) (snd p)) (maskAt mask (fst p) (snd p)).

Lemma stream_tail cw bit k : Z.of_nat (length cw) * 8 <= bit -> stream cw <$> seqZ bit (Z.of_nat k) = stream cw <$> seqZ (bit + 1) (Z.of_nat k).
Proof.
  intros Hb. apply list_eq. intros i. rewrite !list_lookup_fmap.
  destruct (decide (i < k)%nat) as [Hi|Hi].
  - rewrite !lookup_seqZ_lt by lia. simpl. f_equal. unfold stream. rewrite !(proj2 (Z.ltb_ge _ _)) by lia. done.
  - rewrite !lookup_seqZ_ge by lia. done.
Qed.

Lemma place_fold n cw mask cells c bit :
  square n (c_modules c) -> NoDup cells -> Forall (inside n) cells -> 0 <= bit ->
  let c' := fst (foldl (place_step cw mask) (c, bit) cells) in
  c_reserved c' = c_reserved c /\ c_Size c' = c_Size c /\ square n (c_modules c') /\
  (forall p, inside n p -> p ∉ List.filter (free c) cells -> cell (c_modules c') (fst p) (snd p) = cell (c_modules c) (fst p) (snd p)) /\
  unmasked mask (c_modules c') <$> List.filter (free c) cells =
    stream cw <$> seqZ bit (Z.of_nat (length (List.filter (free c) cells))).
Proof.
  revert c bit. induction cells as [|[x y] cells IH]; intros c bit Hsq Hnd Hin Hbit; [done|].
  apply NoDup_cons in Hnd as [Hnotin Hnd]. apply Forall_cons in Hin as [Hxy Hin]. cbn [foldl].
  set (v := stream cw bit).
  set (bit' := if bit <? Z.of_nat (length cw) * 8 then bit + 1 else bit).
  set (c1 := draw c x y (if maskAt mask x y then negb v else v)).
  assert (Estep : place_step cw mask (c, bit) (x, y) = if cell (c_reserved c) x y then (c, bit) else (c1, bit')).
  { unfold c1, v, bit', place_step, stream. by destruct (_ <? _). }
  assert (Efree : free c (x, y) = negb (cell (c_reserved c) x y)) by done.
  cbn [List.filter]. rewrite Estep, Efree. destruct (cell (c_reserved c) x y) eqn:Er; cbn [negb]; [by apply IH|].
  destruct (IH c1 bit') as (H1 & H2 & H3 & H4 & H5); [by apply square_put|done|done|unfold bit'; case_match; lia|].
  change (free c1) with (free c) in *. change (c_reserved c1) with (c_reserved c) in *. change (c_Size c1) with (c_Size c) in *.
  assert (Hfil : (x, y) ∉ List.filter (free c) cells) by by rewrite elem_of_bfilter; intros [? _].
  cbv zeta. split_and!; [done|done|done| |].
  - intros p Hp Hnp. rewrite elem_of_cons in Hnp. rewrite H4 by tauto. destruct Hp as [? ?]. destruct Hxy as [? ?]. simpl in *.
    apply cell_put_ne; try lia. destruct p. simpl in *. intros [= -> ->]. tauto.
  - rewrite fmap_cons. cbn [length]. rewrite Nat2Z.inj_succ, seqZ_cons, fmap_cons by lia. rewrite Z.pred_succ. f_equal.
    + unfold unmasked. rewrite H4 by done. cbn [fst snd]. unfold c1, draw. cbn [c_modules c_with_modules].
      rewrite (cell_put n) by done. unfold v. by destruct (maskAt mask x y), (stream cw bit).
    + rewrite H5. unfold bit'. destruct (Z.ltb_spec bit (Z.of_nat (length cw) * 8)); [done|].
      rewrite stream_tail by done. done.
Qed.

(** The stream is the codewords' bits, then light modules. *)
Lemma stream_unpack cw n : Z.of_nat (length cw) * 8 <= n ->
  take (8 * length cw) (stream cw <$> seqZ 0 n) = unpack cw.
Proof.
  intros Hn. apply list_eq. intros i. destruct (decide (i < 8 * length cw)%nat) as [Hi|Hi].
  - rewrite lookup_take_lt by done. rewrite list_lookup_fmap, lookup_seqZ_lt by lia. simpl.
    rewrite <- (Nat2Z.id i) at 2. rewrite unpack_lookup by lia. f_equal. unfold stream. by rewrite (proj2 (Z.ltb_lt _ _)) by lia.
  - rewrite lookup_take_ge by lia. symmetry. apply lookup_ge_None_2. rewrite unpack_length. lia.
Qed.

(** ** Writes *)
Definition write_all (c : Code) (ws : list (Z * Z * bool)) : Code := foldl (fun c '(x, y, b) => draw c x y b) c ws.

Lemma write_all_spec n c ws :
  square n (c_modules c) -> Forall (inside n) (fst <$> ws) ->
  let c' := write_all c ws in
  c_reserved c' = c_reserved c /\ c_Size c' = c_Size c /\ square n (c_modules c') /\
  (forall p, inside n p -> p ∉ fst <$> ws -> cell (c_modules c') (fst p) (snd p) = cell (c_modules c) (fst p) (snd p)) /\
  (forall p b, (p, b) ∈ ws -> (forall b', (p, b') ∈ ws -> b' = b) -> cell (c_modules c') (fst p) (snd p) = b).
Proof.
  intros Hsq. induction ws as [|[[x y] b] ws IH] using rev_ind; intros Hin.
  { split_and!; try done. intros p b Hp. by apply elem_of_nil in Hp. }
  rewrite fmap_app in Hin. apply Forall_app in Hin as [Hin [Hxy _]%Forall_cons]. simpl in Hxy.
  destruct (IH Hin) as (H1 & H2 & H3 & H4 & H5). cbv zeta. unfold write_all in *. rewrite foldl_app. cbn [foldl].
  set (c1 := foldl _ c ws) in *. pose proof Hxy as [Hx Hy]. simpl in Hx, Hy.
  split_and!; [done|done|by apply square_put| |].
  - intros p Hp Hn. rewrite fmap_app, not_elem_of_app in Hn. destruct Hn as [Hn1 Hn2]. rewrite <- H4 by done.
    destruct Hp as [? ?]. apply cell_put_ne; try lia. destruct p. simpl in *. intros [= -> ->]. apply Hn2. left.
  - intros p b' Hp Hagree. apply elem_of_app in Hp. destruct (decide (p = (x, y))) as [->|Hne].
    + assert (b = b') as <-. { apply Hagree. apply elem_of_app. right. left. }
      by apply (cell_put n).
    + destruct Hp as [Hp|Hp%list_elem_of_singleton]; [|congruence].
      assert (Hpin : inside n p). { eapply Forall_forall in Hin; [exact Hin|]. apply list_elem_of_fmap. by exists (p, b'). }
      destruct Hpin as [? ?]. transitivity (cell (c_modules c1) (fst p) (snd p)).
      * apply cell_put_ne; try lia. by destruct p.
      * apply H5; [done|]. intros b'' Hb''. apply Hagree. apply elem_of_app. by left.
Qed.

Definition formatWrites (n mask : Z) : list (Z * Z * bool) :=
  ((fun '(i, (x, y)) => (x, y, bit_of (formatBits mask) i)) <$> formatCells n) ++ [(8, n - 8, true)].

Lemma placeFormat_writes c mask : placeFormat c mask = write_all c (formatWrites (c_Size c) mask).
Proof. unfold placeFormat, write_all, formatWrites. rewrite foldl_app. cbn [foldl]. f_equal. Qed.

(** ** Reading the mask *)
Definition formatWord (n : Z) (m : grid) : list bool := (fun '(_, (x, y)) => cell m x y) <$> take 15 (formatCells n).
Definition read_mask (n : Z) (m : grid) : Z := Z.land (Z.shiftr (Z.lxor (pack (rev (formatWord n m))) 21522) 10) 7.

(** ** Facts of the ten versions, by computation *)
Definition insideb (n : Z) (p : Z * Z) : bool := (0 <=? fst p) && (fst p <? n) && (0 <=? snd p) && (snd p <? n).
Lemma insideb_inside n p : insideb n p = true -> inside n p.
Proof. unfold insideb, inside. intros [[[?%Z.leb_le ?%Z.ltb_lt]%andb_prop ?%Z.leb_le]%andb_prop ?%Z.ltb_lt]%andb_prop. lia. Qed.

Fixpoint fresh_all (m : grid) (l : list (Z * Z)) : bool :=
  match l with
  | [] => true
  | p :: l => negb (cell m (fst p) (snd p)) && fresh_all (put m (fst p) (snd p) true) l
  end.

Lemma fresh_all_NoDup n m l :
  square n m -> Forall (inside n) l -> fresh_all m l = true ->
  NoDup l /\ forall p, p ∈ l -> cell m (fst p) (snd p) = false.
Proof.
  revert m. induction l as [|q l IH]; intros m Hsq Hin H; [split; [constructor|by intros p ?%elem_of_nil]|].
  apply Forall_cons in Hin as [Hq Hin]. apply andb_prop in H as [Hc%negb_true_iff H].
  destruct (IH _ (square_put _ _ _ _ _ Hsq) Hin H) as [Hnd Hcell].
  assert (Hnq : q ∉ l). { intros Hl. specialize (Hcell q Hl). rewrite (cell_put n) in Hcell; [done|done|by destruct q]. }
  split; [by constructor|]. intros p [->|Hp]%elem_of_cons; [done|]. rewrite <- (Hcell p Hp).
  assert (Hpin : inside n p) by (eapply Forall_forall in Hp; eauto).
  symmetry. destruct Hpin as [? ?], Hq as [? ?]. apply cell_put_ne; try lia.
  intros E. apply Hnq. destruct p, q. simpl in E. injection E as -> ->. done.
Qed.

Definition pairb (p q : Z * Z) : bool := (fst p =? fst q) && (snd p =? snd q).

(** Every write to a cell of the first copy of the format word writes its bit. *)
Definition format_agrees (n mask : Z) : bool :=
  forallb (fun '(i, p) => forallb (fun w => implb (pairb (fst w) p) (Bool.eqb (snd w) (bit_of (formatBits mask) i)))
                            (formatWrites n mask)) (take 15 (formatCells n)).

Definition layout_ok (v n : Z) (c : Code) (zz fmt : list (Z * Z)) : bool :=
  (c_Size c =? n) && ((n - 17) / 4 =? v) &&
  (length (c_modules c) =? Z.to_nat n)%nat && forallb (fun row => length row =? Z.to_nat n)%nat (c_modules c) &&
  forallb (insideb n) zz && fresh_all (blank n) zz &&
  forallb (fun p => insideb n p && negb (free c p)) fmt &&
  (codewordsOf v * 8 <=? Z.of_nat (length (List.filter (free c) zz))).

Lemma layout_facts v n c zz fmt : layout_ok v n c zz fmt = true ->
  c_Size c = n /\ (n - 17) / 4 = v /\ square n (c_modules c) /\ Forall (inside n) zz /\ NoDup zz /\
  Forall (fun p => inside n p /\ free c p = false) fmt /\
  codewordsOf v * 8 <= Z.of_nat (length (List.filter (free c) zz)).
Proof.
  unfold layout_ok. intros H.
  apply andb_prop in H as [[[[[[[H1 H2]%andb_prop H3]%andb_prop H4]%andb_prop H5]%andb_prop H6]%andb_prop H7]%andb_prop H8].
  assert (Hin : Forall (inside n) zz).
  { apply Forall_forall. intros p Hp. apply insideb_inside. rewrite forallb_forall in H5. by apply H5, list_elem_of_In. }
  assert (Hblank : square n (blank n)).
  { unfold blank. split; [apply length_replicate|]. apply Forall_replicate, length_replicate. }
  split_and!; [by apply Z.eqb_eq|by apply Z.eqb_eq|split; [by apply Nat.eqb_eq|]|done|by eapply fresh_all_NoDup| |by apply Z.leb_le].
  - apply Forall_forall. intros row Hr%list_elem_of_In. rewrite forallb_forall in H4. by apply Nat.eqb_eq, H4.
  - apply Forall_forall. intros p Hp%list_elem_of_In. rewrite forallb_forall in H7. apply H7 in Hp as [? Hr]%andb_prop.
    split; [by apply insideb_inside|]. by apply negb_true_iff in Hr.
Qed.

(** The cells the format word and the dark module are written to. *)
Definition fmtCells (n : Z) : list (Z * Z) := (snd <$> formatCells n) ++ [(8, n - 8)].

Lemma version_layout v : 1 <= v <= maxVersion ->
  layout_ok v (17 + 4 * v) (newCode v) (zigzag (17 + 4 * v)) (fmtCells (17 + 4 * v)) = true.
Proof.
  intros Hv%version_range.
  refine (check1 (fun v => layout_ok v (17 + 4 * v) (newCode v) (zigzag (17 + 4 * v)) (fmtCells (17 + 4 * v))) _ v _ Hv).
  vm_compute. reflexivity.
Qed.

Lemma version_format v mask : 1 <= v <= maxVersion -> 0 <= mask < 8 -> format_agrees (17 + 4 * v) mask = true.
Proof.
  intros Hv%version_range Hm%elem_of_range.
  refine (check2 (fun v mask => format_agrees (17 + 4 * v) mask) _ _ v mask _ Hv Hm).
  vm_compute. reflexivity.
Qed.

(** ** The scanner *)
Definition scan (n : Z) (m : grid) : option (list Z) :=
  let version := (n - 17) / 4 in
  let mask := read_mask n m in
  let cells := List.filter (free (newCode version)) (zigzag n) in
  let bits := unmasked mask m <$> cells in
  read_segment version (deinterleave version (bytes_of (take (8 * Z.to_nat (codewordsOf version)) bits))).

Lemma formatWrites_cells n mask : fst <$> formatWrites n mask = fmtCells n.
Proof.
  unfold formatWrites, fmtCells. generalize (formatCells n), (bit_of (formatBits mask)). intros l f.
  rewrite fmap_app. f_equal. induction l as [|[i [x y]] l IH]; [done|]. csimpl. by rewrite IH.
Qed.

(** The bits of the format word, read back, name the mask. *)
Lemma mask_of_word mask : 0 <= mask < 8 ->
  Z.land (Z.shiftr (Z.lxor (pack (rev (bit_of (formatBits mask) <$> range 0 15))) 21522) 10) 7 = mask.
Proof.
  intros Hm%elem_of_range. apply Z.eqb_eq.
  apply (check1 (fun mask => Z.land (Z.shiftr (Z.lxor (pack (rev (bit_of (formatBits mask) <$> range 0 15))) 21522) 10) 7 =? mask)) in Hm;
    [done|vm_compute; reflexivity].
Qed.

Lemma format_first n : fst <$> take 15 (formatCells n) = range 0 15.
Proof. unfold formatCells. reflexivity. Qed.

Lemma placeFormat_mask n c mask :
  c_Size c = n -> square n (c_modules c) -> 0 <= mask < 8 -> format_agrees n mask = true ->
  Forall (inside n) (fst <$> formatWrites n mask) ->
  read_mask n (c_modules (placeFormat c mask)) = mask.
Proof.
  intros <- Hsq Hm Ha Hin. rewrite placeFormat_writes. set (n := c_Size c) in *.
  destruct (write_all_spec n c (formatWrites n mask) Hsq Hin) as (_ & _ & _ & _ & Hw).
  unfold read_mask. rewrite <- (mask_of_word mask Hm) at 2. do 5 f_equal. unfold formatWord. rewrite <- (format_first n).
  rewrite <- list_fmap_compose. apply list_fmap_ext. intros k [i p] Hk. apply list_elem_of_lookup_2 in Hk. destruct p as [x y] eqn:Ep.
  simpl. rewrite <- Ep in Hk. apply (Hw (x, y) (bit_of (formatBits mask) i)).
  - unfold formatWrites. apply elem_of_app. left. apply list_elem_of_fmap. exists (i, (x, y)). split; [done|].
    subst p. apply elem_of_take in Hk as (? & Hk & _). by eapply list_elem_of_lookup_2.
  - intros b' Hb'. unfold format_agrees in Ha. rewrite forallb_forall in Ha. apply list_elem_of_In, Ha in Hk. subst p.
    rewrite forallb_forall in Hk. apply list_elem_of_In, Hk in Hb'. unfold pairb in Hb'. simpl in Hb'. rewrite !Z.eqb_refl in Hb'.
    simpl in Hb'. by apply eqb_prop in Hb'.
Qed.

(** A symbol laid out on any such grid is read back. *)
Lemma scan_layout v n c0 zz cw mask :
  layout_ok v n c0 zz (fmtCells n) = true -> format_agrees n mask = true -> 0 <= mask < 8 ->
  Forall byte cw -> length cw = Z.to_nat (codewordsOf v) -> 0 <= codewordsOf v ->
  let c := placeFormat (fst (foldl (place_step cw mask) (c0, 0) zz)) mask in
  c_Size c = n /\ square n (c_modules c) /\ read_mask n (c_modules c) = mask /\
  bytes_of (take (8 * Z.to_nat (codewordsOf v)) (unmasked mask (c_modules c) <$> List.filter (free c0) zz)) = cw.
Proof.
  intros (Hsz & Hver & Hsq & Hin & Hnd & Hfmt & Hroom)%layout_facts Hag Hmask Hcwb Hcwl Hcw0.
  destruct (place_fold n cw mask zz c0 0 Hsq Hnd Hin ltac:(lia)) as (H1 & H2 & H3 & H4 & H5).
  cbv zeta. set (c1 := fst (foldl _ _ _)) in *. rewrite Hsz in H2.
  assert (Hwin : Forall (inside n) (fst <$> formatWrites n mask)).
  { rewrite formatWrites_cells. eapply Forall_impl; [apply Hfmt|]. by intros w [? _]. }
  pose proof (placeFormat_mask n c1 mask H2 H3 Hmask Hag Hwin) as Hread.
  rewrite placeFormat_writes, H2 in *.
  destruct (write_all_spec n c1 (formatWrites n mask) H3 Hwin) as (W1 & W2 & W3 & W4 & _).
  set (c2 := write_all c1 _) in *. split_and!; [congruence|done|done|].
  assert (Hsame : unmasked mask (c_modules c2) <$> List.filter (free c0) zz =
                  unmasked mask (c_modules c1) <$> List.filter (free c0) zz).
  { apply list_fmap_ext. intros k p Hk%list_elem_of_lookup_2. apply elem_of_bfilter in Hk as [Hp Hfree].
    unfold unmasked. rewrite W4; [done| |].
    - by eapply Forall_forall in Hp; eauto.
    - rewrite formatWrites_cells. intros Hw. rewrite Forall_forall in Hfmt. destruct (Hfmt p Hw) as [_ Hf']. congruence. }
  rewrite Hsame, H5, <- Hcwl, stream_unpack by lia. by rewrite bytes_of_unpack.
Qed.

Lemma layout_ok_mask v n c mask zz fmt : layout_ok v n (c_with_mask c mask) zz fmt = layout_ok v n c zz fmt.
Proof. by destruct c. Qed.
Lemma free_mask c mask : free (c_with_mask c mask) = free c.
Proof. by destruct c. Qed.
Lemma size_mask c mask : c_Size (c_with_mask c mask) = c_Size c.
Proof. by destruct c. Qed.

Lemma codewordsOf_nonneg v : 1 <= v <= maxVersion -> 0 <= codewordsOf v.
Proof.
  intros Hv. destruct (layout v Hv) as (_ & _ & _ & Hec & ?). destruct (capacity_small v Hv). unfold codewordsOf.
  unfold ecLengths in Hec. set_unfold in Hec. nia.
Qed.

Lemma scan_withMask v data mask :
  1 <= v <= maxVersion -> Forall byte data -> fitsVersion (Z.of_nat (length data)) v = true -> 0 <= mask < 8 ->
  let c := withMask v (interleave v (dataCodewords v data)) mask in
  c_Size c = 17 + 4 * v /\ square (17 + 4 * v) (c_modules c) /\ scan (c_Size c) (c_modules c) = Some data.
Proof.
  intros Hv Hd Hfit Hmask. pose proof (version_layout v Hv) as Hlay. pose proof (version_format v mask Hv Hmask) as Hag.
  destruct (dataCodewords_spec v data Hv Hd Hfit) as (Hseg & Hlen & Hbytes).
  destruct (interleave_spec v _ Hv Hbytes Hlen) as (Hde & Hcwb & Hcwl).
  destruct (layout_facts _ _ _ _ _ Hlay) as (Hsz & Hver & _).
  unfold withMask, placeData. rewrite size_mask, Hsz.
  revert Hlay Hag Hver. generalize (17 + 4 * v) as n. intros n Hlay Hag Hver. rewrite <- (layout_ok_mask _ _ _ mask) in Hlay.
  destruct (scan_layout v n (c_with_mask (newCode v) mask) (zigzag n) _ mask Hlay Hag Hmask Hcwb Hcwl (codewordsOf_nonneg v Hv))
    as (S1 & S2 & S3 & S4).
  cbv zeta. split; [done|]. split; [done|]. rewrite S1. unfold scan. rewrite Hver, S3.
  rewrite <- (free_mask (newCode v) mask), S4, Hde. done.
Qed.

(** ** Choosing *)
Lemma range_find (f : Z -> bool) lo hi v :
  List.find f (range lo hi) = Some v -> lo <= v < hi /\ f v = true /\ forall u, lo <= u < v -> f u = false.
Proof.
  remember (Z.to_nat (hi - lo)) as k eqn:Ek. revert lo Ek. induction k as [|k IH]; intros lo Ek.
  - unfold range. replace (hi - lo) with (Z.of_nat 0 + (hi - lo)) by lia. destruct (Z.leb_spec hi lo); [|lia].
    rewrite seqZ_nil by lia. done.
  - rewrite range_cons by lia. simpl. destruct (f lo) eqn:E.
    + intros [= <-]. split_and!; [lia..|done|]. intros. lia.
    + intros H. destruct (IH (lo + 1)) as (H1 & H2 & H3); [lia|done|]. split_and!; [lia..|done|].
      intros u Hu. destruct (Z.eq_dec u lo) as [->|]; [done|]. apply H3. lia.
Qed.

#[local] Opaque withMask penalty interleave dataCodewords scan.

(** The loop over the masks keeps the first symbol of the lowest score. *)
Lemma lowest_fold v cw masks best :
  foldl (lowest v cw) None masks = best ->
  match best with
  | None => masks = []
  | Some (c, score) => score = penalty c /\
      exists before mask after, masks = before ++ mask :: after /\ c = withMask v cw mask /\
        (forall m, m ∈ before -> score < penalty (withMask v cw m)) /\
        (forall m, m ∈ after -> score <= penalty (withMask v cw m))
  end.
Proof.
  revert best. induction masks as [|m masks IH] using rev_ind; intros best; [by intros <-|].
  rewrite foldl_app. simpl. intros <-. specialize (IH _ eq_refl).
  destruct (foldl (lowest v cw) None masks) as [[c score]|]; simpl.
  - destruct IH as (Hs & before & mask & after & -> & -> & Hb & Ha). unfold lowest.
    destruct (Z.ltb_spec (penalty (withMask v cw m)) score) as [Hlt|Hge].
    + split; [done|]. exists (before ++ mask :: after), m, []. split_and!; [done|done| |by intros ? ?%elem_of_nil].
      intros x [Hx|[->|Hx]%elem_of_cons]%elem_of_app; [pose proof (Hb x Hx)|rewrite <- Hs|pose proof (Ha x Hx)]; lia.
    + split; [done|]. exists before, mask, (after ++ [m]). split_and!; [by rewrite <- app_assoc|done|done|].
      intros x [Hx| ->%list_elem_of_singleton]%elem_of_app; [by apply Ha|done].
  - subst masks. split; [done|]. exists [], m, []. split_and!; try done; by intros ? ?%elem_of_nil.
Qed.

(** What [Encode] does. *)
Lemma Encode_cases data :
  match Encode data with
  | inl c => exists v mask, 1 <= v <= maxVersion /\ 0 <= mask < 8 /\
      fitsVersion (Z.of_nat (length data)) v = true /\
      (forall u, 1 <= u < v -> fitsVersion (Z.of_nat (length data)) u = false) /\
      let symbol := withMask v (interleave v (dataCodewords v data)) in
      c = symbol mask /\ (forall m, 0 <= m < mask -> penalty c < penalty (symbol m)) /\
      (forall m, mask <= m < 8 -> penalty c <= penalty (symbol m))
  | inr _ => forall v, 1 <= v <= maxVersion -> fitsVersion (Z.of_nat (length data)) v = false
  end.
Proof.
  unfold Encode. destruct (List.find _ _) as [v|] eqn:Ef.
  - apply range_find in Ef as (Hv & Hfit & Hmin).
    set (cw := interleave v (dataCodewords v data)).
    pose proof (lowest_fold v cw (range 0 8) _ eq_refl) as H. destruct (foldl _ _ _) as [[c score]|]; [|done].
    destruct H as (-> & before & mask & after & E & -> & Hb & Ha). exists v, mask. unfold maxVersion in *.
    assert (Hm : 0 <= mask < 8) by (apply elem_of_range; rewrite E; apply elem_of_app; right; left).
    assert (Hsplit : before = range 0 mask /\ after = range (mask + 1) 8).
    { assert (E2 : range 0 8 = range 0 mask ++ mask :: range (mask + 1) 8).
      { rewrite <- range_cons by lia. unfold range. rewrite <- (Z2Nat.id (8 - 0)) at 1 by lia.
        replace (8 - 0) with ((mask - 0) + (8 - mask)) by lia. rewrite Z2Nat.id, seqZ_app by lia. f_equal. f_equal; lia. }
      assert (Hlen : length before = length (range 0 mask)).
      { assert (Hnd : NoDup (range 0 8)) by apply NoDup_seqZ.
        assert (E3 : range 0 8 !! length before = Some mask) by (rewrite E; by apply list_lookup_middle).
        assert (E4 : range 0 8 !! length (range 0 mask) = Some mask) by (rewrite E2; by apply list_lookup_middle).
        by eapply NoDup_lookup. }
      rewrite E in E2. apply app_inj_1 in E2 as [-> [= ->]]; done. }
    destruct Hsplit as [-> ->].
    split_and!; [lia..|done|intros; apply Hmin; lia|done| |].
    + intros m Hmm. apply Hb, elem_of_range. lia.
    + intros m Hmm. destruct (Z.eq_dec m mask) as [->|]; [done|]. apply Ha, elem_of_range. lia.
  - intros v Hv. eapply find_none in Ef; [exact Ef|]. apply list_elem_of_In, elem_of_range. unfold maxVersion in *. lia.
Qed.

(** The most a version 10 symbol holds. *)
Lemma fits_none len : 0 <= len ->
  (forall v, 1 <= v <= maxVersion -> fitsVersion len v = false) <-> 213 < len.
Proof.
  intros Hlen. unfold fitsVersion. split.
  - intros H. specialize (H 10 ltac:(unfold maxVersion; lia)). apply Z.leb_gt in H.
    change (countBits 10) with 16 in H. change (capacityOf (levelM 10)) with 216 in H. lia.
  - intros H v Hv%version_range. apply Z.leb_gt.
    apply (check1 (fun v => (8 * capacityOf (levelM v) <? 4 + countBits v + 8 * 214))) in Hv; [|vm_compute; reflexivity].
    apply Z.ltb_lt in Hv. lia.
Qed.

(** C28: What is encoded is read back.  [Encode] succeeds on exactly the data of
    at most 213 bytes, its symbol is a square of the size of its version, and a scanner
    that knows only the picture reads the data from it. *)
Theorem scan_Encode (data : list Z) :
  Forall byte data ->
  match Encode data with
  | inl c => (length data <= 213)%nat /\ square (c_Size c) (c_modules c) /\ scan (c_Size c) (c_modules c) = Some data
  | inr ErrTooLong => (213 < length data)%nat
  end.
Proof.
  intros Hd. pose proof (Encode_cases data) as H. destruct (Encode data) as [c|[]].
  - destruct H as (v & mask & Hv & Hm & Hfit & _ & -> & _).
    destruct (scan_withMask v data mask Hv Hd Hfit Hm) as (H1 & H2 & H3). rewrite <- H1 in H2. split_and!; [|done|done].
    destruct (Nat.le_gt_cases (length data) 213) as [|Hgt]; [done|]. exfalso.
    rewrite (proj2 (fits_none (Z.of_nat (length data)) ltac:(lia))) in Hfit; [done|lia|done].
  - apply fits_none in H; lia.
Qed.

(** The symbol is of the smallest version the data fits in, and under the
    mask of the lowest penalty, the first of those that score the same. *)
Theorem Encode_chooses (data : list Z) (c : Code) :
  Encode data = inl c ->
  exists v mask, 1 <= v <= maxVersion /\ 0 <= mask < 8 /\
    fitsVersion (Z.of_nat (length data)) v = true /\
    (forall u, 1 <= u < v -> fitsVersion (Z.of_nat (length data)) u = false) /\
    let symbol := withMask v (interleave v (dataCodewords v data)) in
    c = symbol mask /\ (forall m, 0 <= m < mask -> penalty c < penalty (symbol m)) /\
    (forall m, mask <= m < 8 -> penalty c <= penalty (symbol m)).
Proof. intros E. pose proof (Encode_cases data) as H. by rewrite E in H. Qed.


(** ** The picture *)
Definition covers (x : Z) (r : Z * Z) : Prop := fst r <= x < fst r + snd r.
Definition ends_at (x0 : Z) (open : option (Z * Z)) : Prop := match open with Some (s, len) => s + len = x0 /\ 0 <= len | None => True end.

(** The runs cover what the open run covers and the dark modules of the row. *)
Lemma row_runs_cover x0 open row x :
  ends_at x0 open ->
  Exists (covers x) (row_runs x0 open row) <->
  from_option (covers x) False open \/ (x0 <= x /\ nth (Z.to_nat (x - x0)) row false = true).
Proof.
  revert x0 open. induction row as [|b row IH]; intros x0 open Hopen.
  { replace (nth (Z.to_nat (x - x0)) [] false) with false by by destruct (Z.to_nat _).
    destruct open as [r|]; cbn [row_runs from_option].
    - rewrite Exists_cons, Exists_nil. split; [intros [?|[]]; by left|intros [?|[_ [=]]]; by left].
    - rewrite Exists_nil. split; [done|intros [[]|[_ [=]]]]. }
  assert (Hstep : x0 <= x /\ nth (Z.to_nat (x - x0)) (b :: row) false = true <->
    (x = x0 /\ b = true) \/ (x0 + 1 <= x /\ nth (Z.to_nat (x - (x0 + 1))) row false = true)).
  { destruct (Z.lt_trichotomy x x0) as [?|[->|?]].
    - split; [lia|intros [?|?]; lia].
    - rewrite Z.sub_diag. simpl. split; [tauto|]. intros [?|?]; [split; [lia|tauto]|lia].
    - replace (Z.to_nat (x - x0)) with (S (Z.to_nat (x - (x0 + 1)))) by lia. simpl. split; [intros [? ?]; right; split; [lia|done]|].
      intros [?|[? ?]]; [lia|]. split; [lia|done]. }
  rewrite Hstep. unfold covers in *. destruct b; simpl.
  - rewrite IH by (destruct open as [[s len]|]; simpl in *; lia).
    destruct open as [[s len]|]; simpl in *; split.
    + intros [H|H]; [destruct (Z.eq_dec x x0); [by right; left|left; lia]|by right; right].
    + intros [H|[[-> _]|H]]; [left; lia|left; lia|by right].
    + intros [H|H]; [right; left; split; [lia|done]|by right; right].
    + intros [[]|[[-> _]|H]]; [left; lia|by right].
  - rewrite Exists_app, IH by done. destruct open as [[s len]|]; simpl; rewrite ?Exists_cons, ?Exists_nil; simpl.
    + split; [intros [[H|[]]|[[]|H]]; [by left|by right; right]|intros [H|[[_ [=]]|H]]; [by left; left|by right; right]].
    + split; [intros [[]|[[]|H]]; by right; right|intros [[]|[[_ [=]]|H]]; by right; right].
Qed.

(** The rectangles of the SVG path paint exactly the dark modules. *)
Theorem SVG_paints_dark (c : Code) (x y : Z) :
  0 <= x -> 0 <= y ->
  (exists s len, (s, y, len) ∈ rectangles c /\ s <= x < s + len) <-> Dark c x y = true.
Proof.
  intros Hx Hy. unfold rectangles, Dark, cell.
  assert (Hrow : forall k row, c_modules c !! k = Some row ->
    (Exists (covers x) (row_runs 0 None row) <-> nth (Z.to_nat x) row false = true)).
  { intros k row _. rewrite row_runs_cover by done. rewrite Z.sub_0_r. simpl. intuition lia. }
  split.
  - intros (s & len & Hin & Hc). apply list_elem_of_In, in_concat in Hin as (l & Hl & Hin).
    apply list_elem_of_In in Hl. apply elem_of_lookup_imap in Hl as (k & row & -> & Hk).
    apply list_elem_of_In, list_elem_of_fmap in Hin as ([s' len'] & [= -> -> ->] & Hr).
    rewrite Nat2Z.id, (nth_lookup_Some _ _ _ _ Hk). apply (Hrow _ _ Hk), Exists_exists. exists (s', len'). done.
  - intros H. rewrite (nth_lookup (c_modules c)) in H.
    destruct (c_modules c !! Z.to_nat y) as [row|] eqn:E; simpl in H; [|by destruct (Z.to_nat x)].
    apply (Hrow _ _ E), Exists_exists in H as ([s len] & Hr & Hc). exists s, len. split; [|done].
    apply list_elem_of_In, in_concat. eexists. split.
    + apply list_elem_of_In, elem_of_lookup_imap. exists (Z.to_nat y), row. done.
    + apply list_elem_of_In, list_elem_of_fmap. exists (s, len). rewrite Z2Nat.id by done. done.
Qed.
