(* ===== verification/GoText.v ===== *)
(** * Words and numbers in Go strings

    [strings.Split], [strings.CutSuffix] and [strconv.Atoi], with what the names of the
    fleet need of them: on plain ASCII text lower-casing and trimming change nothing,
    splitting undoes joining, and [Atoi] reads back what [Itoa] writes. *)
From Stdlib Require Import ZArith Lia Ascii String.
From stdpp Require Import base strings list pretty.
From S2P Require Import Prelude GoFloat GoString.
Local Open Scope string_scope.
Local Open Scope list_scope.
Local Open Scope Z_scope.

(** ** Operations *)

(** [strings.Split] around one byte. *)
Fixpoint split_go (c : ascii) (cur : list ascii) (l : list ascii) : list (list ascii) :=
  match l with
  | [] => [rev cur]
  | a :: l' => if bool_decide (a = c) then rev cur :: split_go c [] l' else split_go c (a :: cur) l'
  end.
Definition strings_Split (s : string) (c : ascii) : list string :=
  string_of_list_ascii <$> split_go c [] (list_ascii_of_string s).

Definition strings_CutSuffix (s suffix : string) : option string :=
  if strings_HasSuffix s suffix then Some (str_take (strlen s - strlen suffix) s) else None.

Definition digit_val (a : ascii) : option Z :=
  let b := byte_of a in if (48 <=? b) && (b <=? 57) then Some (b - 48) else None.
Fixpoint digits_val (acc : Z) (l : list ascii) : option Z :=
  match l with
  | [] => Some acc
  | a :: l' => match digit_val a with Some d => digits_val (acc * 10 + d) l' | None => None end
  end.

(** [strconv.Atoi]: a sign, then digits, within an int64. *)
Definition strconv_Atoi (s : string) : option Z :=
  let '(neg, l) := match list_ascii_of_string s with
                   | a :: l' => if bool_decide (a = "-"%char) then (true, l')
                                else if bool_decide (a = "+"%char) then (false, l') else (false, a :: l')
                   | [] => (false, [])
                   end in
  match l with
  | [] => None
  | _ => match digits_val 0 l with
         | Some n => let v := if (neg : bool) then - n else n in
                     if (int_min <=? v) && (v <=? int_max) then Some v else None
         | None => None
         end
  end.

(** ** Strings as lists of bytes *)
Notation chars := list_ascii_of_string.
Notation text := string_of_list_ascii.

Lemma chars_app a b : chars (a +:+ b) = chars a ++ chars b.
Proof. induction a as [|c a IH]; simpl; [done|]. by rewrite IH. Qed.
Lemma text_app a b : text (a ++ b) = text a +:+ text b.
Proof. induction a as [|c a IH]; simpl; [done|]. by rewrite IH. Qed.
Lemma chars_text l : chars (text l) = l.
Proof. apply list_ascii_of_string_of_list_ascii. Qed.
Lemma text_chars s : text (chars s) = s.
Proof. apply string_of_list_ascii_of_string. Qed.
Lemma chars_inj a b : chars a = chars b -> a = b.
Proof. intros E. by rewrite <- (text_chars a), E, text_chars. Qed.
Lemma strlen_chars s : strlen s = Z.of_nat (length (chars s)).
Proof. unfold strlen. f_equal. induction s as [|c s IH]; simpl; [done|]. by rewrite IH. Qed.
Lemma strlen_app a b : strlen (a +:+ b) = strlen a + strlen b.
Proof. rewrite !strlen_chars, chars_app, length_app. lia. Qed.

Lemma chars_substring0 n s : chars (String.substring 0 n s) = take n (chars s).
Proof. revert n. induction s as [|c s IH]; intros [|n]; simpl; [done..|]. by rewrite IH. Qed.
Lemma chars_substring n m s : chars (String.substring n m s) = take m (drop n (chars s)).
Proof.
  revert n. induction s as [|c s IH]; intros [|n]; simpl; [by destruct m|by rewrite firstn_nil| |apply IH].
  destruct m; simpl; [done|]. by rewrite chars_substring0.
Qed.
Lemma chars_take n s : chars (str_take n s) = take (Z.to_nat n) (chars s).
Proof. apply chars_substring0. Qed.
Lemma chars_drop n s : chars (str_drop n s) = drop (Z.to_nat n) (chars s).
Proof.
  unfold str_drop. rewrite chars_substring. apply take_ge. rewrite length_drop.
  replace (String.length s) with (length (chars s)); [lia|]. pose proof (strlen_chars s). unfold strlen in *. lia.
Qed.

Lemma chars_concat sep l :
  chars (String.concat sep l) = match l with
                                | [] => []
                                | x :: l' => chars x ++ concat ((fun y => chars sep ++ chars y) <$> l')
                                end.
Proof.
  destruct l as [|x l]; [done|]. revert x. induction l as [|y l IH]; intros x; [by rewrite app_nil_r|].
  change (String.concat sep (x :: y :: l)) with (x +:+ sep +:+ String.concat sep (y :: l)).
  rewrite !chars_app, IH. simpl. by rewrite <- !app_assoc.
Qed.

(** [CutSuffix] takes off what was put on. *)
Lemma CutSuffix_spec s suffix out : strings_CutSuffix s suffix = Some out <-> s = out +:+ suffix.
Proof.
  unfold strings_CutSuffix, strings_HasSuffix, str_eqb. split.
  - intros H. destruct (Z.leb_spec (strlen suffix) (strlen s)); [|done]. simpl in H.
    case_bool_decide as Hd; [|done]. injection H as <-. apply chars_inj.
    rewrite chars_app, chars_take. rewrite <- (take_drop (Z.to_nat (strlen s - strlen suffix)) (chars s)) at 1.
    f_equal. by rewrite <- chars_drop, Hd.
  - intros ->. rewrite strlen_app. destruct (Z.leb_spec (strlen suffix) (strlen out + strlen suffix)) as [|Hlt].
    2: { rewrite strlen_chars in Hlt. lia. }
    replace (strlen out + strlen suffix - strlen suffix) with (strlen out) by lia.
    rewrite bool_decide_eq_true_2; simpl; [f_equal|]; apply chars_inj; rewrite ?chars_take, ?chars_drop, chars_app, strlen_chars, Nat2Z.id.
    + by rewrite take_app_length.
    + by rewrite drop_app_length.
Qed.

(** ** Plain text *)
Definition ascii_plain (a : ascii) : Prop := byte_of a < 128.

Lemma byte_of_range a : 0 <= byte_of a < 256.
Proof. unfold byte_of. pose proof (N_ascii_bounded a). lia. Qed.
Lemma to_byte_of a : to_byte (byte_of a) = a.
Proof. unfold to_byte, byte_of. by rewrite N2Z.id, ascii_N_embedding. Qed.
Lemma byte_of_inj a b : byte_of a = byte_of b -> a = b.
Proof. intros E. by rewrite <- (to_byte_of a), E, to_byte_of. Qed.

Definition plain_segment (b : Z) : segment := Segment b [b] true.

Lemma segments_plain l : Forall ascii_plain l -> segments (text l) = plain_segment <$> (byte_of <$> l).
Proof.
  intros H. unfold segments, bytes. rewrite chars_text. induction H as [|a l Ha Hl IH]; [done|].
  cbn [fmap list_fmap utf8_decode]. unfold ascii_plain in Ha. rewrite (proj2 (Z.ltb_lt _ _) Ha). by f_equal.
Qed.

Lemma of_bytes_byte_of l : of_bytes (byte_of <$> l) = text l.
Proof.
  unfold of_bytes. f_equal. rewrite <- list_fmap_compose. rewrite <- (list_fmap_id l) at 2.
  apply list_fmap_ext. intros. apply to_byte_of.
Qed.

Lemma concat_singletons {A} (l : list A) : concat ((fun x => [x]) <$> l) = l.
Proof. induction l; [done|]. cbn. by f_equal. Qed.

Lemma of_segments_plain l : of_segments (plain_segment <$> (byte_of <$> l)) = text l.
Proof. unfold of_segments. rewrite <- list_fmap_compose. change (seg_bytes ∘ plain_segment) with (fun x : Z => [x]). by rewrite concat_singletons, of_bytes_byte_of. Qed.

(** Text without capitals is in lower case. *)
Lemma ToLower_plain l :
  Forall (fun a => ascii_plain a /\ ~ (65 <= byte_of a <= 90)) l -> strings_ToLower (text l) = text l.
Proof.
  intros H. unfold strings_ToLower, strings_Map. rewrite segments_plain by (eapply Forall_impl; [exact H|]; by intros ? []).
  rewrite <- (of_bytes_byte_of l). f_equal. etrans; [|apply concat_singletons]. f_equal. rewrite <- !list_fmap_compose.
  apply list_fmap_ext. intros i a Hi.
  rewrite Forall_forall in H. destruct (H a (list_elem_of_lookup_2 _ _ _ Hi)) as [Hp Hc]. unfold ascii_plain in Hp. pose proof (byte_of_range a).
  unfold compose, plain_segment. cbn [seg_rune]. unfold unicode_ToLower. rewrite (proj2 (Z.ltb_lt _ _) Hp).
  destruct (Z.leb_spec 65 (byte_of a)), (Z.leb_spec (byte_of a) 90); simpl; try lia;
    unfold utf8_encode1; rewrite (proj2 (Z.ltb_ge _ _)), (proj2 (Z.ltb_lt _ _)) by lia; done.
Qed.

(** Text that starts and ends with no space is trimmed. *)
Lemma drop_space_head l :
  (forall a, head l = Some a -> unicode_IsSpace (byte_of a) = false) ->
  drop_space (plain_segment <$> (byte_of <$> l)) = plain_segment <$> (byte_of <$> l).
Proof. destruct l as [|a l]; [done|]. intros H. simpl. by rewrite (H a eq_refl). Qed.

Lemma TrimSpace_plain l :
  Forall (fun a => ascii_plain a /\ unicode_IsSpace (byte_of a) = false) l -> strings_TrimSpace (text l) = text l.
Proof.
  intros H. unfold strings_TrimSpace. rewrite segments_plain by (eapply Forall_impl; [exact H|]; by intros ? []).
  assert (Hh : forall l', Forall (fun a => ascii_plain a /\ unicode_IsSpace (byte_of a) = false) l' ->
    forall a, head l' = Some a -> unicode_IsSpace (byte_of a) = false).
  { intros [|b l'] Hl a; [done|]. intros [= <-]. apply Forall_cons in Hl as [[_ ?] _]. done. }
  assert (Hrev : forall l', rev (plain_segment <$> (byte_of <$> l')) = plain_segment <$> (byte_of <$> rev l')).
  { intros l'. rewrite !rev_alt. fold (reverse (plain_segment <$> (byte_of <$> l'))) (reverse l'). by rewrite !fmap_reverse. }
  rewrite drop_space_head by by apply Hh. rewrite Hrev, drop_space_head; [|apply Hh; by apply Forall_rev].
  by rewrite Hrev, rev_involutive, of_segments_plain.
Qed.

(** ** Splitting and joining *)
Definition joined (c : ascii) (ws : list (list ascii)) : list ascii :=
  match ws with
  | [] => []
  | w :: ws' => w ++ concat ((fun w' => c :: w') <$> ws')
  end.

Lemma chars_Join ws c : chars (strings_Join (text <$> ws) (String c "")) = joined c ws.
Proof.
  unfold strings_Join. rewrite chars_concat. destruct ws as [|w ws]; [done|]. simpl. rewrite chars_text. f_equal.
  rewrite <- list_fmap_compose. f_equal. apply list_fmap_ext. intros. unfold compose. by rewrite chars_text.
Qed.

Lemma joined_cons c w w' ws : joined c (w :: w' :: ws) = w ++ c :: joined c (w' :: ws).
Proof. done. Qed.
Lemma joined_app c a b : a <> [] -> b <> [] -> joined c (a ++ b) = joined c a ++ c :: joined c b.
Proof.
  destruct a as [|w a]; [done|]. destruct b as [|v b]; [done|]. intros _ _. simpl. rewrite fmap_app, concat_app. simpl.
  by rewrite <- app_assoc.
Qed.

Lemma split_go_word c cur w : c ∉ w -> split_go c cur w = [rev cur ++ w].
Proof.
  revert cur. induction w as [|a w IH]; intros cur Hc; simpl; [by rewrite app_nil_r|].
  apply not_elem_of_cons in Hc as [Ha Hc]. rewrite bool_decide_eq_false_2 by done. rewrite IH by done. simpl. by rewrite <- app_assoc.
Qed.
Lemma split_go_cons c cur w l : c ∉ w -> split_go c cur (w ++ c :: l) = (rev cur ++ w) :: split_go c [] l.
Proof.
  revert cur. induction w as [|a w IH]; intros cur Hc; simpl.
  - by rewrite bool_decide_eq_true_2, app_nil_r.
  - apply not_elem_of_cons in Hc as [Ha Hc]. rewrite bool_decide_eq_false_2 by done. rewrite IH by done. simpl. by rewrite <- app_assoc.
Qed.

Lemma split_joined c ws : ws <> [] -> Forall (fun w => c ∉ w) ws -> split_go c [] (joined c ws) = ws.
Proof.
  induction ws as [|w ws IH]; [done|]. intros _ H. apply Forall_cons in H as [Hw H]. destruct ws as [|w' ws].
  - simpl. rewrite app_nil_r. by rewrite split_go_word.
  - rewrite joined_cons, split_go_cons by done. by rewrite IH.
Qed.

(** Splitting always gives words, which join to what was split. *)
Lemma split_go_spec c cur l :
  c ∉ rev cur ->
  split_go c cur l <> [] /\ Forall (fun w => c ∉ w) (split_go c cur l) /\ joined c (split_go c cur l) = rev cur ++ l.
Proof.
  revert cur. induction l as [|a l IH]; intros cur Hc; simpl.
  - split; [done|]. split; [by apply Forall_singleton|done].
  - case_bool_decide as Ha.
    + subst a. destruct (IH [] (not_elem_of_nil _)) as (H1 & H2 & H3). split; [done|]. split; [by apply Forall_cons|].
      destruct (split_go c [] l) as [|w ws] eqn:E; [done|]. by rewrite joined_cons, H3.
    + destruct (IH (a :: cur)) as (H1 & H2 & H3).
      { simpl. intros [?|?%list_elem_of_singleton]%elem_of_app; [done|]. congruence. }
      split; [done|]. split; [done|]. rewrite H3. simpl. by rewrite <- app_assoc.
Qed.

(** ** Numbers *)
Lemma digit_val_char n : (n < 10)%N -> digit_val (pretty_N_char n) = Some (Z.of_N n).
Proof.
  intros H. destruct n as [|p]; [done|]. do 4 (destruct p as [p|p|]; try done). all: lia.
Qed.

(** The digits [pretty_N_go] writes before [s] are those of its number. *)
Lemma digits_val_go n s acc :
  exists k : nat, digits_val acc (chars (pretty_N_go n s)) = digits_val (acc * 10 ^ Z.of_nat k + Z.of_N n) (chars s) /\
                  ((0 < n)%N -> exists a l, chars (pretty_N_go n s) = a :: l /\ digit_val a <> None).
Proof.
  revert s acc. induction (N.lt_wf_0 n) as [n _ IH]; intros s acc.
  destruct (decide (0 < n)%N) as [Hn|Hn].
  - rewrite pretty_N_go_step by done.
    destruct (IH (n / 10)%N (N.div_lt n 10 Hn eq_refl) (String (pretty_N_char (n mod 10)) s) acc) as (k & E & Hd).
    exists (S k). rewrite E. cbn [list_ascii_of_string digits_val].
    assert (Hm : (n mod 10 < 10)%N) by (apply N.mod_lt; lia). rewrite digit_val_char by done.
    pose proof (N.div_mod n 10 ltac:(lia)) as Hdm. split.
    + f_equal. rewrite Nat2Z.inj_succ, Z.pow_succ_r by lia. lia.
    + intros _. destruct (decide (0 < n / 10)%N) as [H10|H10]; [auto|].
      assert (n / 10 = 0)%N as -> by lia. rewrite pretty_N_go_0. simpl. eexists _, _. split; [done|]. by rewrite digit_val_char.
  - assert (n = 0%N) as -> by lia. exists O. rewrite pretty_N_go_0. simpl. split; [f_equal; lia|lia].
Qed.

Lemma itoa_digits z :
  0 <= z -> digits_val 0 (chars (itoa z)) = Some z /\ exists a l, chars (itoa z) = a :: l /\ digit_val a <> None.
Proof.
  intros Hz. destruct z as [|p|p]; [by split; [|eexists _, _]| |lia].
  unfold itoa, pretty, pretty_Z, pretty, pretty_positive, pretty, pretty_N. rewrite decide_False by done.
  destruct (digits_val_go (N.pos p) "" 0) as (k & E & Hd). rewrite E. simpl. split; [f_equal; lia|]. apply Hd. lia.
Qed.

(** [Atoi] reads back what [Itoa] writes. *)
Lemma Atoi_itoa z : 0 <= z <= int_max -> strconv_Atoi (itoa z) = Some z.
Proof.
  intros [H0 H1]. destruct (itoa_digits z H0) as (Hv & a & l & E & Hd). unfold strconv_Atoi. rewrite E in *.
  assert (a <> "-"%char /\ a <> "+"%char) as [Hm Hp] by (split; intros ->; done).
  rewrite !bool_decide_eq_false_2 by done. rewrite Hv.
  rewrite (proj2 (Z.leb_le _ _)), (proj2 (Z.leb_le _ _)); [done|lia|unfold int_min; lia].
Qed.

(** The digits of a number are digits. *)
Lemma digits_val_all acc l z : digits_val acc l = Some z -> Forall (fun a => digit_val a <> None) l.
Proof.
  revert acc. induction l as [|a l IH]; intros acc; simpl; [constructor|]. destruct (digit_val a) eqn:E; [|done].
  intros H. constructor; [by rewrite E|by eapply IH].
Qed.
