(* ===== verification/Naming.v ===== *)
(** * Package naming

    The vocabulary of operating systems and architectures the fleet is described
    in (internal/naming/naming.go), and the neutralising of text an agent chose
    (internal/naming/hostname.go).  The store's [Platform] and the scheduler's
    sentences are built on these. *)
From Stdlib Require Import ZArith Lia Ascii String.
From stdpp Require Import base strings list sets.
From S2P Require Import Prelude GoString.
Local Open Scope string_scope.
Local Open Scope list_scope.
Local Open Scope Z_scope.

Definition ArchAMD64 : string := "amd64".
Definition ArchARM64 : string := "arm64".
Definition OSUbuntu : string := "ubuntu".
Definition OSDebian : string := "debian".
Definition OSAlpine : string := "alpine".
Definition OSFedora : string := "fedora".
Definition OSRocky : string := "rocky".
Definition OSMacOS : string := "macos".
Definition OSWindows : string := "windows".

(** Association-list reading of the package's lookup tables. *)
Fixpoint assoc (k : string) (table : list (string * string)) : option string :=
  match table with
  | entry :: rest => if str_eqb k entry.1 then Some entry.2 else assoc k rest
  | [] => None
  end.

Definition knownOS : list string :=
  [OSUbuntu; OSDebian; OSAlpine; OSFedora; OSRocky; OSMacOS; OSWindows].

Definition osAliases : list (string * string) :=
  [("darwin", OSMacOS); ("macos", OSMacOS); ("mac", OSMacOS); ("osx", OSMacOS);
   ("ubuntu", OSUbuntu); ("debian", OSDebian); ("raspbian", OSDebian);
   ("alpine", OSAlpine); ("fedora", OSFedora);
   ("rocky", OSRocky); ("rockylinux", OSRocky); ("almalinux", OSRocky);
   ("rhel", OSRocky); ("centos", OSRocky);
   ("windows", OSWindows)].

Definition prettyOS : list (string * string) :=
  [(OSUbuntu, "Ubuntu"); (OSDebian, "Debian"); (OSAlpine, "Alpine");
   (OSFedora, "Fedora"); (OSRocky, "Rocky Linux");
   (OSMacOS, "macOS"); (OSWindows, "Windows")].

Definition NormalizeOS (s : string) : string :=
  let v := strings_ToLower (strings_TrimSpace s) in
  match assoc v osAliases with
  | Some alias => alias
  | None => if str_in v knownOS then v else ""
  end.

Definition PrettyOS (s : string) : string := default "" (assoc (NormalizeOS s) prettyOS).

Definition NormalizeArch (s : string) : string :=
  let v := strings_ToLower (strings_TrimSpace s) in
  if str_in v [ArchAMD64; "x64"; "x86_64"; "amd"] then ArchAMD64
  else if str_in v [ArchARM64; "aarch64"; "arm"] then ArchARM64
  else "".

(** The digits of the first two components of a version. *)
Definition is_digit_rune (r : Z) : bool := (48 <=? r) && (r <=? 57).
Definition CompactVersion (v : string) : string :=
  let v := strings_TrimSpace v in
  if str_eqb v "" then ""
  else
    let parts := strings_FieldsFunc (fun r => (r =? 46) || (r =? 95)) v in
    String.concat "" ((fun p => of_segments (List.filter (fun g => is_digit_rune (seg_rune g)) (segments p)))
                        <$> firstn 2 parts).

(** [Spec.Platform], which names a platform for a sentence. *)
Definition Spec_Platform (os version arch : string) : string :=
  let osPart :=
    let os := PrettyOS os in
    if str_eqb os "" then []
    else let v := strings_TrimSpace version in
         [if str_eqb v "" then os else os +:+ " " +:+ v] in
  let a := NormalizeArch arch in
  strings_Join (osPart ++ (if str_eqb a "" then [] else [a])) ", ".

Definition ForSentence (name : string) : string :=
  strings_Map (fun r => if r =? 96 then 39 else if unicode_IsControl r then 32 else r) name.

Example CompactVersion_1 : CompactVersion " 24.04.1 " = "2404".
Proof. vm_compute. reflexivity. Qed.
Example Spec_Platform_1 : Spec_Platform "Ubuntu" "24.04" "aarch64" = "Ubuntu 24.04, arm64".
Proof. vm_compute. reflexivity. Qed.

(** Normalising twice is normalising once. *)
Lemma NormalizeOS_cases s : NormalizeOS s = "" \/ NormalizeOS s ∈ knownOS.
Proof.
  unfold NormalizeOS. generalize (strings_ToLower (strings_TrimSpace s)) as v. intros v.
  destruct (assoc v osAliases) as [a|] eqn:E.
  - right. unfold osAliases in E. simpl in E.
    repeat (case_match; [simplify_eq; unfold knownOS; set_solver|]). done.
  - destruct (str_in v knownOS) eqn:K; [|by left].
    right. unfold str_in in K. by apply bool_decide_eq_true in K.
Qed.

Lemma NormalizeOS_idemp s : NormalizeOS (NormalizeOS s) = NormalizeOS s.
Proof.
  destruct (NormalizeOS_cases s) as [-> | H]; [by vm_compute|].
  unfold knownOS in H. repeat (apply elem_of_cons in H as [-> | H]; [by vm_compute|]).
  by apply elem_of_nil in H.
Qed.

Lemma NormalizeArch_idemp s : NormalizeArch (NormalizeArch s) = NormalizeArch s.
Proof. unfold NormalizeArch at 2 3. repeat case_match; by vm_compute. Qed.
