(* ===== verification/Names.v ===== *)
(** * The grammar of names (naming.go, names.go, hostname.go)

    A pool, a host and a runner are named for the machine they are:
    [zoomies-<cpu>vcpu[-<memory>gb]-<os>-<version>[-<arch>][-<suffix>]].  [Spec_String]
    writes such a name, [Parse] reads it back, and [RunnerName] puts a discriminator at
    the end of one and drops from the middle what does not fit.  The theorems: a name
    that was written is read back, and a runner's name keeps its brand and its
    discriminator within GitHub's limit. *)
From Stdlib Require Import ZArith Lia Ascii String SpecFloat.
From stdpp Require Import base strings list sets.
From S2P Require Import Prelude GoFloat GoString GoText Naming.
Local Open Scope string_scope.
Local Open Scope list_scope.
Local Open Scope Z_scope.

Definition Prefix : string := "zoomies".
Definition MaxNameLength : Z := 64.

Record Spec := {
  sp_CPUs : float64;
  sp_MemoryGB : Z;
  sp_OS : string;
  sp_Version : string;
  sp_Arch : string;
  sp_Suffix : string
}.

Definition knownArch : list string := [ArchAMD64; ArchARM64; "x64"; "x86_64"; "aarch64"; "arm"].

(** [Slug]: letters and digits in lower case, with single dashes between. *)
Definition slug_rune (r : Z) : bool := ((97 <=? r) && (r <=? 122)) || ((48 <=? r) && (r <=? 57)).
Definition slug_step (st : list ascii * bool) (g : segment) : list ascii * bool :=
  let '(b, lastDash) := st in
  if slug_rune (seg_rune g) then (b ++ [to_byte (seg_rune g)], false)
  else if (lastDash : bool) then (b, true) else (b ++ ["-"%char], true).
Definition Slug (s : string) : string :=
  strings_TrimRight (text (fst (foldl slug_step ([], true) (segments (strings_ToLower (strings_TrimSpace s)))))) "-".

Definition truncate (s : string) : string :=
  if strlen s <=? MaxNameLength then s else strings_TrimRight (str_take MaxNameLength s) "-".

Definition vCPU (s : Spec) : Z := if (sp_CPUs s <=? f64_zero)%f64 then 0 else f64_to_int (math_Ceil (sp_CPUs s)).

(** The parts of a name, in order. *)
Definition spec_parts (s : Spec) : list string :=
  let cpus := vCPU s in
  let os := NormalizeOS (sp_OS s) in
  let v := CompactVersion (sp_Version s) in
  let arch := NormalizeArch (sp_Arch s) in
  let suffix := Slug (sp_Suffix s) in
  [Prefix] ++ (if 0 <? cpus then [itoa cpus +:+ "vcpu"] else []) ++
  (if 0 <? sp_MemoryGB s then [itoa (sp_MemoryGB s) +:+ "gb"] else []) ++
  (if negb (str_eqb os "") then [os] ++ (if negb (str_eqb v "") then [v] else []) else []) ++
  (if negb (str_eqb arch "") && negb (str_eqb arch ArchAMD64) then [arch] else []) ++
  (if negb (str_eqb suffix "") then [suffix] else []).

(** [Spec.String]. *)
Definition Spec_String (s : Spec) : string := truncate (strings_Join (spec_parts s) "-").

Definition Describe (s : Spec) : string :=
  let n := vCPU s in
  let p := Spec_Platform (sp_OS s) (sp_Version s) (sp_Arch s) in
  strings_Join ((if 0 <? n then [itoa n +:+ " vCPU"] else []) ++
                (if 0 <? sp_MemoryGB s then [itoa (sp_MemoryGB s) +:+ " GB"] else []) ++
                (if negb (str_eqb p "") then [p] else [])) ", ".

Definition Spec_Empty (s : Spec) : bool := str_eqb (Spec_String s) Prefix.
Definition WithSuffix (s : Spec) (suffix : string) : Spec :=
  {| sp_CPUs := sp_CPUs s; sp_MemoryGB := sp_MemoryGB s; sp_OS := sp_OS s; sp_Version := sp_Version s;
     sp_Arch := sp_Arch s; sp_Suffix := suffix |}.

(** ** Parsing *)
Definition suffixedNumber (field unit : string) : option Z :=
  match strings_CutSuffix field unit with
  | None => None
  | Some digits =>
      if str_eqb digits "" then None
      else match strconv_Atoi digits with
           | Some n => if n <=? 0 then None else Some n
           | None => None
           end
  end.

Definition isVersion (field : string) : bool :=
  negb (str_eqb field "") && forallb (fun g => is_digit_rune (seg_rune g)) (segments field).

Definition ExpandVersion (os compact : string) : string :=
  let compact := strings_TrimSpace compact in
  if str_eqb compact "" then ""
  else if str_eqb (NormalizeOS os) OSUbuntu && (strlen compact =? 4)
       then str_take 2 compact +:+ "." +:+ str_drop 2 compact
  else compact.

(** Each step of [Parse] reads the next field where there is one it can read, and
    leaves the rest. *)
Definition read_number (unit : string) (fields : list string) : Z * list string :=
  match fields with
  | f :: rest => match suffixedNumber f unit with Some n => (n, rest) | None => (0, fields) end
  | [] => (0, [])
  end.
Definition read_os (fields : list string) : string * string * list string :=
  match fields with
  | f :: rest =>
      if str_in f knownOS then
        match rest with
        | v :: rest' => if isVersion v then (f, ExpandVersion f v, rest') else (f, "", rest)
        | [] => (f, "", [])
        end
      else ("", "", fields)
  | [] => ("", "", [])
  end.
Definition read_arch (fields : list string) : string * list string :=
  match fields with
  | f :: rest => if str_in f knownArch then (NormalizeArch f, rest) else (ArchAMD64, fields)
  | [] => (ArchAMD64, [])
  end.

Definition Parse (name : string) : option Spec :=
  match strings_Split (strings_ToLower (strings_TrimSpace name)) "-" with
  | f :: fields =>
      if negb (str_eqb f Prefix) then None else
      let '(cpus, fields) := read_number "vcpu" fields in
      let '(memory, fields) := read_number "gb" fields in
      let '(os, version, fields) := read_os fields in
      let '(arch, fields) := read_arch fields in
      Some {| sp_CPUs := f64_of_Z cpus; sp_MemoryGB := memory; sp_OS := os; sp_Version := version; sp_Arch := arch;
              sp_Suffix := strings_Join fields "-" |}
  | [] => None
  end.

(** [Kernel] and [ArchLabel]: the labels GitHub's runner advertises. *)
Definition Kernel (os : string) : string :=
  let os := NormalizeOS os in
  if str_eqb os OSMacOS then "macos" else if str_eqb os OSWindows then "windows" else if str_eqb os "" then "" else "linux".
Definition ArchLabel (arch : string) : string :=
  let a := NormalizeArch arch in if str_eqb a ArchAMD64 then "x64" else if str_eqb a ArchARM64 then "arm64" else "".

(** ** Names built from names (names.go) *)
Definition PoolName (spec : Spec) : string := Spec_String (WithSuffix spec "").

Definition Labels (spec : Spec) : list string :=
  let name := PoolName spec in
  let k := Kernel (sp_OS spec) in
  let a := ArchLabel (sp_Arch spec) in
  (if negb (str_eqb name Prefix) then [name] else []) ++ (if negb (str_eqb k "") then [k] else []) ++
  (if negb (str_eqb a "") then [a] else []).

Definition Base (name : string) : string :=
  let s := Slug name in
  if str_eqb s "" then Prefix
  else if str_eqb s Prefix || String.prefix (Prefix +:+ "-") s then s
  else Prefix +:+ "-" +:+ s.

(** [for len(parts) > 1 && len(Join(parts)) > room { parts = parts[:len(parts)-1] }]: the
    longest start of the parts that fits, or the first part.  The list shrinks, so its
    length is fuel enough. *)
Fixpoint drop_parts (fuel : nat) (room : Z) (parts : list string) : list string :=
  match fuel with
  | O => parts
  | S fuel =>
      if (1 <? Z.of_nat (length parts)) && (room <? strlen (strings_Join parts "-"))
      then drop_parts fuel room (removelast parts) else parts
  end.

(** The discriminator as a name carries it. *)
Definition runnerTail (discriminator : string) : string :=
  let tail := Slug discriminator in
  let room := MaxNameLength - strlen Prefix - 1 in
  if room <? strlen tail then strings_TrimRight (str_take (Z.max room 0) tail) "-" else tail.

Definition RunnerName (pool discriminator : string) : string :=
  let tail := runnerTail discriminator in
  let base := Base pool in
  if str_eqb tail "" then truncate base else
  let parts := strings_Split base "-" in
  let parts := drop_parts (length parts) (MaxNameLength - 1 - strlen tail) parts in
  truncate (strings_Join parts "-" +:+ "-" +:+ tail).

Definition MaxHostSegment : Z := 20.
Definition truncateTo (s : string) (n : Z) : string := if strlen s <=? n then s else str_take n s.

Definition HostSegment (machine : string) : string :=
  let s := Slug machine in
  if strlen s <=? MaxHostSegment then s else
  let parts := strings_Split s "-" in
  let parts := drop_parts (length parts) MaxHostSegment parts in
  strings_TrimRight (truncateTo (strings_Join parts "-") MaxHostSegment) "-".

(** ** Names people type *)

(** What [Validate] refuses a name for; its sentences quote the name. *)
Inductive NameError := NameRequired | NameTooLong (name : string) | NameCharacters (name : string).

Definition Validate (name : string) : option NameError :=
  let n := strings_TrimSpace name in
  if str_eqb n "" then Some NameRequired
  else if MaxNameLength <? strlen n then Some (NameTooLong n)
  else if negb (str_eqb (Slug n) (strings_ToLower n)) then Some (NameCharacters n)
  else None.

Definition MaxHostNameLength : Z := 128.

Definition ValidateHostName (name : string) : option string :=
  if str_eqb (strings_TrimSpace name) "" then Some "a host needs a name; it is how it appears everywhere else"
  else if MaxHostNameLength <? Z.of_nat (length (segments name)) then
    Some ("a host name is at most " +:+ itoa MaxHostNameLength +:+ " characters")
  else if existsb (fun g => unicode_IsControl (seg_rune g)) (segments name) then
    Some "a host name cannot contain control characters or line breaks"
  else if bool_decide (ascii_of_nat 96 ∈ chars name) then
    Some "a host name cannot contain a backtick, because the UI draws whatever sits between two of them as a command with a copy button; leave it out"
  else None.

(** ** Names as the tests write them *)
Definition spec_of (cpus memory : Z) (os version arch suffix : string) : Spec :=
  {| sp_CPUs := f64_of_Z cpus; sp_MemoryGB := memory; sp_OS := os; sp_Version := version; sp_Arch := arch; sp_Suffix := suffix |}.

Example Spec_String_1 : Spec_String (spec_of 8 0 "ubuntu" "24.04" "arm64" "") = "zoomies-8vcpu-ubuntu-2404-arm64".
Proof. vm_compute. reflexivity. Qed.
Example Spec_String_2 : Spec_String (spec_of 2 8 "debian" "12" "" "Tuck 01!") = "zoomies-2vcpu-8gb-debian-12-tuck-01".
Proof. vm_compute. reflexivity. Qed.
Example Parse_1 : Parse "zoomies-1vcpu-rocky-9-arm64-k3f9qz" = Some (spec_of 1 0 OSRocky "9" ArchARM64 "k3f9qz").
Proof. vm_compute. reflexivity. Qed.
Example RunnerName_1 :
  RunnerName "zoomies-4vcpu-ubuntu-2404" "biscuit-a3f9qz2m" = "zoomies-4vcpu-ubuntu-2404-biscuit-a3f9qz2m".
Proof. vm_compute. reflexivity. Qed.

(** ** Slugs *)
Definition alnum (a : ascii) : Prop := slug_rune (byte_of a) = true.
Definition word (w : list ascii) : Prop := w <> [] /\ Forall alnum w.

(** Text a slug could start with: no dash follows a dash. *)
Fixpoint slug_from (lastDash : bool) (l : list ascii) : Prop :=
  match l with
  | [] => True
  | a :: l' => if bool_decide (a = "-"%char) then lastDash = false /\ slug_from true l' else alnum a /\ slug_from false l'
  end.

Lemma alnum_range a : alnum a -> 48 <= byte_of a <= 57 \/ 97 <= byte_of a <= 122.
Proof. unfold alnum, slug_rune. intros [H|H]%orb_true_iff; apply andb_prop in H as [H1%Z.leb_le H2%Z.leb_le]; lia. Qed.
Lemma alnum_not_dash a : alnum a -> a <> "-"%char.
Proof. intros H ->. by vm_compute in H. Qed.

Lemma slug_from_chars d l : slug_from d l -> Forall (fun a => alnum a \/ a = "-"%char) l.
Proof.
  revert d. induction l as [|a l IH]; intros d; simpl; [constructor|]. case_bool_decide; intros [H1 H2]; constructor; eauto.
Qed.

(** Slug text is lower-case ASCII without spaces. *)
Lemma slug_plain l : Forall (fun a => alnum a \/ a = "-"%char) l ->
  strings_ToLower (strings_TrimSpace (text l)) = text l /\ segments (text l) = plain_segment <$> (byte_of <$> l).
Proof.
  intros H. assert (Hb : Forall (fun a => 45 = byte_of a \/ 48 <= byte_of a <= 57 \/ 97 <= byte_of a <= 122) l).
  { eapply Forall_impl; [exact H|]. intros a [Ha%alnum_range| ->]; [by right|by left]. }
  split; [rewrite TrimSpace_plain; [apply ToLower_plain|]|apply segments_plain];
    (eapply Forall_impl; [exact Hb|]; unfold ascii_plain; cbv beta; intros a Ha; try lia).
  split; [lia|]. unfold unicode_IsSpace.
    rewrite (proj2 (Z.leb_gt (byte_of a) 13)), (proj2 (Z.eqb_neq (byte_of a) 32)), (proj2 (Z.eqb_neq (byte_of a) 133)),
      (proj2 (Z.eqb_neq (byte_of a) 160)), (proj2 (Z.eqb_neq (byte_of a) 5760)), (proj2 (Z.leb_gt 8192 _)),
      (proj2 (Z.eqb_neq (byte_of a) 8232)), (proj2 (Z.eqb_neq (byte_of a) 8233)), (proj2 (Z.eqb_neq (byte_of a) 8239)),
      (proj2 (Z.eqb_neq (byte_of a) 8287)), (proj2 (Z.eqb_neq (byte_of a) 12288)) by lia.
    by rewrite andb_false_r.
Qed.

(** The builder copies such text. *)
Lemma slug_fold d b l :
  slug_from d l -> exists d', foldl slug_step (b, d) (plain_segment <$> (byte_of <$> l)) = (b ++ l, d').
Proof.
  revert d b. induction l as [|a l IH]; intros d b; [intros _; exists d; by rewrite app_nil_r|].
  rewrite !fmap_cons. cbn [slug_from foldl]. case_bool_decide as Ha.
  - subst a. intros [-> H]. change (slug_step (b, false) (plain_segment (byte_of "-"))) with (b ++ ["-"%char], true). destruct (IH true (b ++ ["-"%char]) H) as [d' ->]. exists d'. by rewrite <- app_assoc.
  - intros [Hn H]. unfold slug_step at 2. cbn [seg_rune plain_segment]. rewrite Hn, to_byte_of. destruct (IH false (b ++ [a]) H) as [d' ->]. exists d'. by rewrite <- app_assoc.
Qed.

(** Whatever it is given, what the builder has is words with a dash between each two,
    and perhaps one at the end. *)
Lemma joined_snoc ws w : ws <> [] -> joined "-" (ws ++ [w]) = joined "-" ws ++ "-"%char :: w.
Proof. intros H. rewrite joined_app by done. simpl. by rewrite app_nil_r. Qed.

Lemma joined_extend ws w a : joined "-" (ws ++ [w ++ [a]]) = joined "-" (ws ++ [w]) ++ [a].
Proof.
  destruct ws as [|v ws]; [simpl; by rewrite !app_nil_r|]. rewrite !joined_snoc by done. by rewrite <- app_assoc.
Qed.

Definition built (st : list ascii * bool) : Prop :=
  exists ws, Forall word ws /\
    if snd st then (ws = [] /\ fst st = []) \/ (ws <> [] /\ fst st = joined "-" ws ++ ["-"%char])
    else ws <> [] /\ fst st = joined "-" ws.

Lemma slug_rune_alnum r : slug_rune r = true -> alnum (to_byte r).
Proof.
  intros H. assert (0 <= r < 256).
  { unfold slug_rune in H. apply orb_true_iff in H as [H|H]; apply andb_prop in H as [H1%Z.leb_le H2%Z.leb_le]; lia. }
  unfold alnum, to_byte, byte_of. rewrite N_ascii_embedding by lia. by rewrite Z2N.id by lia.
Qed.

Lemma slug_step_built st g : built st -> built (slug_step st g).
Proof.
  destruct st as [b d]. intros (ws & Hw & Hst). unfold slug_step. simpl in Hst. destruct (slug_rune (seg_rune g)) eqn:Er.
  - apply slug_rune_alnum in Er. set (a := to_byte (seg_rune g)) in *. assert (Ha : word [a]) by (split; [done|by apply Forall_singleton]).
    destruct d.
    + exists (ws ++ [[a]]). split; [by apply Forall_app; split; [|apply Forall_singleton]|]. simpl. split; [by destruct ws|].
      destruct Hst as [[-> ->]|[Hn ->]]; [done|]. rewrite joined_snoc by done. by rewrite <- app_assoc.
    + destruct Hst as [Hn ->]. destruct ws as [|w ws] using rev_ind; [done|]. clear IHws.
      apply Forall_app in Hw as [Hw [Hl _]%Forall_cons]. exists (ws ++ [w ++ [a]]). split.
      * apply Forall_app. split; [done|]. apply Forall_singleton. destruct Hl as [? ?]. split; [by destruct w|]. apply Forall_app. split; [done|by apply Forall_singleton].
      * simpl. split; [by destruct ws|]. by rewrite joined_extend.
  - destruct d; [by exists ws|]. exists ws. split; [done|]. simpl. right. by destruct Hst as [? ->].
Qed.

Lemma word_no_dash w : word w -> "-"%char ∉ w.
Proof. intros [_ H] Hin. rewrite Forall_forall in H. by apply (alnum_not_dash _ (H _ Hin)). Qed.

Lemma words_last ws : ws <> [] -> Forall word ws -> exists l a, joined "-" ws = l ++ [a] /\ alnum a.
Proof.
  intros Hn Hw. destruct ws as [|w ws] using rev_ind; [done|]. clear IHws. apply Forall_app in Hw as [_ [[Hw Ha] _]%Forall_cons].
  destruct w as [|a w] using rev_ind; [done|]. clear IHw. apply Forall_app in Ha as [_ [Ha _]%Forall_cons].
  exists (joined "-" (ws ++ [w])), a. by rewrite joined_extend.
Qed.

(** [TrimRight] of dashes. *)
Lemma TrimRight_chars s c : chars (strings_TrimRight s c) = rev (drop_byte c (rev (chars s))).
Proof. unfold strings_TrimRight. by rewrite chars_text. Qed.
Lemma trim_keeps l a : alnum a -> rev (drop_byte "-" (rev (l ++ [a]))) = l ++ [a].
Proof.
  intros Ha%alnum_not_dash. rewrite rev_unit. simpl. rewrite bool_decide_eq_false_2 by done. simpl. by rewrite rev_involutive.
Qed.
Lemma trim_words ws : Forall word ws -> rev (drop_byte "-" (rev (joined "-" ws))) = joined "-" ws.
Proof.
  intros H. destruct (decide (ws = [])) as [->|Hn]; [done|]. destruct (words_last ws Hn H) as (l & a & -> & Ha). by apply trim_keeps.
Qed.
Lemma trim_dash ws : Forall word ws -> rev (drop_byte "-" (rev (joined "-" ws ++ ["-"%char]))) = joined "-" ws.
Proof. intros H. rewrite rev_unit. simpl. by apply trim_words. Qed.

(** Slugs are words joined by dashes. *)
Lemma Slug_words s : exists ws, Forall word ws /\ chars (Slug s) = joined "-" ws.
Proof.
  unfold Slug. set (gs := segments _).
  assert (Hb : built (foldl slug_step ([], true) gs)).
  { assert (H0 : built ([], true)) by (exists []; split; [constructor|by left]). revert H0. generalize (@nil ascii, true).
    induction gs as [|g gs IH]; intros st Hst; simpl; [done|]. by apply IH, slug_step_built. }
  destruct Hb as (ws & Hw & Hst). exists ws. split; [done|]. rewrite TrimRight_chars, chars_text.
  destruct (foldl _ _ _) as [b d]. simpl in *. destruct d.
  - destruct Hst as [[-> ->]|[_ ->]]; [done|by apply trim_dash].
  - destruct Hst as [_ ->]. by apply trim_words.
Qed.

Lemma slug_from_word d w l : Forall alnum w -> w <> [] -> slug_from false l -> slug_from d (w ++ l).
Proof.
  intros Hw Hn Hl. revert d. induction Hw as [|a w Ha Hw IH]; intros d; [done|]. simpl.
  rewrite bool_decide_eq_false_2 by by apply alnum_not_dash. split; [done|]. destruct w; [done|by apply IH].
Qed.

Lemma slug_from_words ws : Forall word ws -> slug_from true (joined "-" ws).
Proof.
  destruct ws as [|w ws]; [done|]. intros [[Hn Hw] Hws]%Forall_cons. simpl. apply slug_from_word; [done|done|]. clear w Hn Hw.
  induction Hws as [|w ws [Hn Hw] Hws IH]; [done|]. simpl. split; [done|]. by apply slug_from_word.
Qed.

Lemma slug_from_take d n l : slug_from d l -> slug_from d (take n l).
Proof. revert d n. induction l as [|a l IH]; intros d [|n]; simpl; [done..|]. case_bool_decide; intros [? ?]; auto. Qed.

(** Cutting such text and taking off the dash at the end is what [Slug] does to it. *)
Lemma Slug_trims l : slug_from true l -> Slug (text l) = strings_TrimRight (text l) "-".
Proof.
  intros H. destruct (slug_plain l (slug_from_chars _ _ H)) as [E1 E2]. unfold Slug. rewrite E1, E2.
  by destruct (slug_fold true [] l H) as [d ->].
Qed.

Lemma Slug_fixed ws : Forall word ws -> Slug (text (joined "-" ws)) = text (joined "-" ws).
Proof.
  intros H. rewrite Slug_trims by by apply slug_from_words. unfold strings_TrimRight. by rewrite chars_text, trim_words.
Qed.

(** Slugs are the texts [Slug] leaves alone. *)
Lemma Slug_idemp s : Slug (Slug s) = Slug s.
Proof. destruct (Slug_words s) as (ws & Hw & E). rewrite <- (text_chars (Slug s)), E. by apply Slug_fixed. Qed.

Lemma cut_words ws n : Forall word ws ->
  exists ws', Forall word ws' /\ chars (strings_TrimRight (str_take n (text (joined "-" ws))) "-") = joined "-" ws'.
Proof.
  intros H. assert (E : str_take n (text (joined "-" ws)) = text (take (Z.to_nat n) (joined "-" ws))).
  { apply chars_inj. by rewrite chars_take, !chars_text. }
  rewrite E, <- Slug_trims by by apply slug_from_take, slug_from_words. apply Slug_words.
Qed.

Lemma drop_byte_length c l : (length (drop_byte c l) <= length l)%nat.
Proof. induction l as [|a l IH]; simpl; [done|]. case_bool_decide; simpl; lia. Qed.
Lemma TrimRight_length s c : strlen (strings_TrimRight s c) <= strlen s.
Proof.
  rewrite !strlen_chars, TrimRight_chars, length_rev. pose proof (drop_byte_length c (rev (chars s))). rewrite length_rev in *. lia.
Qed.
Lemma str_take_length n s : strlen (str_take n s) <= Z.max n 0.
Proof. rewrite strlen_chars, chars_take, length_take. lia. Qed.

(** ** The brand *)
Lemma Prefix_word : word (chars Prefix).
Proof. split; [done|]. repeat constructor. Qed.

Lemma Base_words name : exists ws, Forall word ws /\ chars (Base name) = joined "-" (chars Prefix :: ws).
Proof.
  destruct (Slug_words name) as (ws & Hw & E). unfold Base, str_eqb. case_bool_decide as E0; [by exists []|].
  destruct (bool_decide (Slug name = Prefix) || String.prefix (Prefix +:+ "-") (Slug name)) eqn:Ep.
  - apply orb_true_iff in Ep as [->%bool_decide_eq_true|Ep]; [by exists []|].
    apply String.prefix_correct in Ep. assert (Hs : exists rest, chars (Slug name) = chars Prefix ++ "-"%char :: rest).
    { exists (drop 8 (chars (Slug name))). rewrite <- (take_drop 8 (chars (Slug name))) at 1.
      rewrite <- chars_substring0. change 8%nat with (String.length (Prefix +:+ "-")) at 1. by rewrite Ep. }
    destruct Hs as [rest Hs]. rewrite E in Hs.
    assert (Hne : ws <> []) by (intros ->; done).
    assert (Hsp : split_go "-" [] (joined "-" ws) = ws) by (apply split_joined; [done|]; eapply Forall_impl; [exact Hw|]; intros; by apply word_no_dash).
    rewrite Hs, split_go_cons in Hsp by by apply word_no_dash, Prefix_word. simpl in Hsp.
    destruct ws as [|w ws]; [done|]. injection Hsp as Ew _. apply Forall_cons in Hw as [_ Hw]. exists ws. split; [done|]. by rewrite E, <- Ew.
  - exists ws. split; [done|]. assert (Hne : ws <> []).
    { intros ->. apply E0, chars_inj. by rewrite E. }
    rewrite !chars_app, E. destruct ws as [|w ws]; [done|]. by rewrite joined_cons.
Qed.

(** ** Dropping parts *)
Lemma drop_parts_spec fuel room parts :
  parts <> [] ->
  exists k, (0 < k)%nat /\ drop_parts fuel room parts = take k parts /\
    ((length parts <= fuel)%nat -> (length (take k parts) = 1)%nat \/ strlen (strings_Join (take k parts) "-") <= room).
Proof.
  revert parts. induction fuel as [|fuel IH]; intros parts Hne.
  - exists (length parts). rewrite firstn_all. destruct parts as [|p parts]; [done|]. simpl. split; [lia|]. split; [done|lia].
  - cbn [drop_parts]. destruct (_ && _) eqn:E.
    + apply andb_prop in E as [E1%Z.ltb_lt E2]. destruct parts as [|p parts] using rev_ind; [done|]. clear IHparts.
      rewrite length_app in E1. simpl in E1. rewrite removelast_last. destruct (IH parts) as (k & Hk & -> & Hfit).
      { intros ->. simpl in E1. lia. }
      exists (Nat.min k (length parts)). assert (Et : take (Nat.min k (length parts)) (parts ++ [p]) = take k parts).
      { rewrite take_app_le by lia. destruct (Nat.le_ge_cases k (length parts)); [by rewrite Nat.min_l|].
        rewrite Nat.min_r by lia. by rewrite !take_ge by lia. }
      rewrite Et. split; [lia|]. split; [done|]. intros Hl. rewrite length_app in Hl. simpl in Hl. apply Hfit. lia.
    + exists (length parts). rewrite firstn_all. destruct parts as [|p parts]; [done|]. split; [simpl; lia|]. split; [done|]. intros _.
      apply andb_false_iff in E as [E%Z.ltb_ge|E%Z.ltb_ge]; [left|by right]. simpl in *. lia.
Qed.

(** ** Runner names *)
Definition branded (l : list ascii) : Prop := exists r, l = chars Prefix ++ r /\ (r = [] \/ exists r', r = "-"%char :: r').

Lemma branded_words ws : branded (joined "-" (chars Prefix :: ws)).
Proof. destruct ws as [|w ws]; [by exists []; split; [rewrite app_nil_r|left]|]. rewrite joined_cons. eexists. split; [done|]. right. by eexists. Qed.

Lemma drop_byte_suffix c l : exists k, drop_byte c l = drop k l.
Proof. induction l as [|a l [k IH]]; simpl; [by exists O|]. case_bool_decide; [by exists (S k)|by exists O]. Qed.

Lemma trim_app l a r : alnum a ->
  exists k, rev (drop_byte "-" (rev (l ++ [a] ++ r))) = l ++ [a] ++ take k r.
Proof.
  intros Ha%alnum_not_dash. induction r as [|b r IH] using rev_ind.
  - exists O. rewrite app_nil_r, rev_unit. simpl. rewrite bool_decide_eq_false_2 by done. simpl. by rewrite rev_involutive.
  - rewrite !app_assoc, rev_unit. simpl. rewrite <- app_assoc. case_bool_decide as Hb.
    + destruct IH as [k ->]. exists (Nat.min k (length r)). f_equal. rewrite take_app_le by lia. f_equal.
      destruct (Nat.le_ge_cases k (length r)); [by rewrite Nat.min_l|]. rewrite Nat.min_r by lia. by rewrite !take_ge by lia.
    + exists (length (r ++ [b])). rewrite firstn_all. simpl. by rewrite rev_involutive, <- !app_assoc.
Qed.

Lemma branded_cut l n : (7 <= n)%nat -> branded l -> branded (rev (drop_byte "-" (rev (take n l)))).
Proof.
  intros Hn (r & -> & Hr). change (chars Prefix) with (chars "zoomie" ++ ["s"%char]). rewrite <- app_assoc.
  rewrite take_app_ge by (simpl; lia). rewrite take_app_ge by (simpl; lia). set (m := (n - _ - _)%nat).
  destruct (trim_app (chars "zoomie") "s" (take m r) eq_refl) as [k ->]. rewrite app_assoc. eexists. split; [done|].
  destruct Hr as [->|[r' ->]]; [left; by rewrite !take_nil|]. destruct m; [left; by destruct k|]. destruct k; [by left|]. right. simpl. by eexists.
Qed.

Lemma truncate_chars s :
  chars (truncate s) = if strlen s <=? MaxNameLength then chars s else rev (drop_byte "-" (rev (take 64 (chars s)))).
Proof. unfold truncate. destruct (_ <=? _); [done|]. by rewrite TrimRight_chars, chars_take. Qed.

Lemma truncate_length s : strlen (truncate s) <= MaxNameLength.
Proof.
  unfold truncate. destruct (Z.leb_spec (strlen s) MaxNameLength); [done|]. etrans; [apply TrimRight_length|].
  etrans; [apply str_take_length|]. unfold MaxNameLength. lia.
Qed.

(** A name of words that starts with the brand still is one when it is cut. *)
Lemma truncate_words s ws : Forall word ws -> chars s = joined "-" (chars Prefix :: ws) ->
  Slug (truncate s) = truncate s /\ branded (chars (truncate s)).
Proof.
  intros Hw E. assert (Hws : Forall word (chars Prefix :: ws)) by (constructor; [apply Prefix_word|done]).
  assert (Es : s = text (joined "-" (chars Prefix :: ws))) by (apply chars_inj; by rewrite chars_text). split.
  - unfold truncate. destruct (_ <=? _); [rewrite Es; by apply Slug_fixed|].
    destruct (cut_words _ MaxNameLength Hws) as (ws' & Hw' & E'). rewrite <- Es in E'.
    rewrite <- (text_chars (strings_TrimRight _ _)), E'. by apply Slug_fixed.
  - rewrite truncate_chars, E. destruct (_ <=? _); [apply branded_words|]. apply branded_cut; [lia|apply branded_words].
Qed.

(** The discriminator is words, short enough for the brand to stand before it. *)
Lemma runnerTail_words d : exists ws, Forall word ws /\ chars (runnerTail d) = joined "-" ws /\ strlen (runnerTail d) <= 56.
Proof.
  destruct (Slug_words d) as (ws & Hw & E). unfold runnerTail. change (MaxNameLength - strlen Prefix - 1) with 56.
  destruct (Z.ltb_spec 56 (strlen (Slug d))); [|by exists ws].
  destruct (cut_words ws (Z.max 56 0) Hw) as (ws' & Hw' & E').
  assert (Es : Slug d = text (joined "-" ws)) by (apply chars_inj; by rewrite chars_text). rewrite <- Es in E'.
  exists ws'. split; [done|]. split; [done|]. etrans; [apply TrimRight_length|]. apply str_take_length.
Qed.

Lemma Split_words s ws : ws <> [] -> Forall word ws -> chars s = joined "-" ws -> strings_Split s "-" = text <$> ws.
Proof.
  intros Hn Hw E. unfold strings_Split. rewrite E, split_joined; [done|done|]. eapply Forall_impl; [exact Hw|]. intros. by apply word_no_dash.
Qed.

(** The name is the brand, what fits of the pool's parts, and the discriminator. *)
Lemma RunnerName_words pool d :
  runnerTail d <> "" ->
  exists ws ts, Forall word (ws ++ ts) /\ ts <> [] /\ chars (runnerTail d) = joined "-" ts /\
    chars (RunnerName pool d) = joined "-" (chars Prefix :: ws ++ ts) /\ strlen (RunnerName pool d) <= MaxNameLength.
Proof.
  intros Ht. destruct (Base_words pool) as (bs & Hb & Eb). destruct (runnerTail_words d) as (ts & Hts & Et & Hlen).
  assert (Hne : ts <> []) by (intros ->; by apply Ht, chars_inj).
  assert (Hbs : Forall word (chars Prefix :: bs)) by (constructor; [apply Prefix_word|done]).
  set (parts := text <$> (chars Prefix :: bs)).
  assert (Esp : strings_Split (Base pool) "-" = parts) by by apply Split_words.
  destruct (drop_parts_spec (length parts) (MaxNameLength - 1 - strlen (runnerTail d)) parts ltac:(done)) as (k & Hk & Ek & Hfit).
  destruct k as [|k]; [lia|]. specialize (Hfit (le_n _)).
  assert (Etk : take (S k) parts = text <$> (chars Prefix :: take k bs)) by (unfold parts; by rewrite <- fmap_take).
  set (kept := strings_Join (take (S k) parts) "-") in *.
  assert (Ekept : chars kept = joined "-" (chars Prefix :: take k bs)) by (unfold kept; rewrite Etk; apply chars_Join).
  set (full := kept +:+ "-" +:+ runnerTail d).
  assert (Efull : chars full = joined "-" (chars Prefix :: take k bs ++ ts)).
  { unfold full. rewrite !chars_app, Ekept, Et. change (chars Prefix :: take k bs ++ ts) with ((chars Prefix :: take k bs) ++ ts). by rewrite joined_app. }
  assert (Hfull : strlen full <= MaxNameLength).
  { unfold full. rewrite !strlen_app. change (strlen "-") with 1. destruct Hfit as [H1|H1]; [|unfold kept in *; lia].
    assert (Hl : chars kept = chars Prefix).
    { rewrite Ekept. rewrite Etk, length_fmap in H1. destruct (take k bs); [by simpl|done]. }
    rewrite (strlen_chars kept), Hl. unfold MaxNameLength. simpl. lia. }
  assert (E : RunnerName pool d = full).
  { unfold RunnerName. unfold str_eqb. rewrite bool_decide_eq_false_2 by done. rewrite Esp, Ek. fold kept. fold full.
    unfold truncate. by rewrite (proj2 (Z.leb_le _ _) Hfull). }
  exists (take k bs), ts. split_and!; [|done|done|by rewrite E|by rewrite E].
  apply Forall_app. split; [by apply Forall_take|done].
Qed.

(** What every runner's name is like. *)
Lemma RunnerName_shape (pool d : string) :
  let name := RunnerName pool d in
  strlen name <= MaxNameLength /\ Slug name = name /\
  (name = Prefix \/ exists rest, name = Prefix +:+ "-" +:+ rest) /\
  (runnerTail d <> "" -> exists start, name = start +:+ "-" +:+ runnerTail d).
Proof.
  cbv zeta.
  assert (Hbr : Slug (RunnerName pool d) = RunnerName pool d /\ branded (chars (RunnerName pool d)) /\ strlen (RunnerName pool d) <= MaxNameLength).
  { destruct (decide (runnerTail d = "")) as [E|E].
    - destruct (Base_words pool) as (bs & Hb & Eb). assert (En : RunnerName pool d = truncate (Base pool)) by (unfold RunnerName; by rewrite E).
      rewrite En. destruct (truncate_words _ bs Hb Eb). split_and!; [done|done|apply truncate_length].
    - destruct (RunnerName_words pool d E) as (ws & ts & Hw & _ & _ & En & Hl). split_and!; [|rewrite En; apply branded_words|done].
      rewrite <- (text_chars (RunnerName pool d)), En. apply Slug_fixed. constructor; [apply Prefix_word|done]. }
  destruct Hbr as (H1 & (r & Er & Hr) & H3). split_and!; [done|done| |].
  - destruct Hr as [->|[r' ->]]; [left; apply chars_inj; by rewrite Er, app_nil_r|].
    right. exists (text r'). apply chars_inj. by rewrite Er, !chars_app, chars_text.
  - intros H. destruct (RunnerName_words pool d H) as (ws & ts & _ & Hn & Et & En & _).
    exists (text (joined "-" (chars Prefix :: ws))). apply chars_inj. rewrite !chars_app, chars_text, En, Et.
    change (chars Prefix :: ws ++ ts) with ((chars Prefix :: ws) ++ ts). by rewrite joined_app.
Qed.

(** ** Reading a name back *)

(** Runes below 128 are read from one byte. *)
Lemma decode_low n l : (length l <= n)%nat ->
  Forall (fun g => seg_rune g < 128 -> seg_bytes g = [seg_rune g]) (utf8_decode l).
Proof.
  revert l. induction n as [|n IH]; intros [|b0 l1] Hl; simpl in Hl; [constructor|lia|constructor|].
  assert (Herr : Forall (fun g => seg_rune g < 128 -> seg_bytes g = [seg_rune g]) (Segment rune_error [b0] false :: utf8_decode l1)).
  { constructor; [by unfold rune_error; simpl|apply IH; lia]. }
  cbn [utf8_decode]. destruct (b0 <? 128); [constructor; [done|apply IH; lia]|].
  destruct l1 as [|b1 l2]; [done|]. destruct (utf8_ok2 b0 b1) eqn:E2.
  { constructor; [|apply IH; simpl in *; lia]. unfold utf8_ok2, is_cont in E2. bool_to_prop. simpl. lia. }
  destruct l2 as [|b2 l3]; [done|]. destruct (utf8_ok3 b0 b1 b2) eqn:E3.
  { constructor; [|apply IH; simpl in *; lia]. unfold utf8_ok3, is_cont in E3. bool_to_prop. simpl.
    destruct (Z.eqb_spec b0 224); lia. }
  destruct l3 as [|b3 l4]; [done|]. destruct (utf8_ok4 b0 b1 b2 b3) eqn:E4; [|done].
  constructor; [|apply IH; simpl in *; lia]. unfold utf8_ok4, is_cont in E4. bool_to_prop. simpl.
  destruct (Z.eqb_spec b0 240); lia.
Qed.

Lemma byte_of_to_byte r : 0 <= r < 256 -> byte_of (to_byte r) = r.
Proof. intros H. unfold byte_of, to_byte. rewrite N_ascii_embedding by lia. lia. Qed.

Definition digit (a : ascii) : Prop := is_digit_rune (byte_of a) = true.

Lemma digit_alnum a : digit a -> alnum a.
Proof. unfold digit, is_digit_rune, alnum, slug_rune. intros ->. apply orb_true_r. Qed.

Lemma chars_String_concat l : chars (String.concat "" l) = concat (chars <$> l).
Proof.
  rewrite chars_concat. destruct l as [|x l]; [done|]. simpl. f_equal.
Qed.

(** A compact version is digits. *)
Lemma CompactVersion_digits v : Forall digit (chars (CompactVersion v)).
Proof.
  unfold CompactVersion. case_match; [constructor|]. rewrite chars_String_concat. apply Forall_concat, Forall_fmap.
  apply Forall_fmap, Forall_forall. intros p _. unfold compose, of_segments, of_bytes. rewrite chars_text.
  apply Forall_fmap, Forall_concat, Forall_fmap, Forall_forall. intros g Hg. unfold compose.
  apply list_elem_of_In, filter_In in Hg as [Hg%list_elem_of_In Hd].
  pose proof (decode_low _ (bytes p) (le_n _)) as Hlow. rewrite Forall_forall in Hlow. specialize (Hlow g Hg).
  unfold is_digit_rune in Hd. bool_to_prop. rewrite Hlow by lia. apply Forall_singleton.
  unfold digit, is_digit_rune. rewrite byte_of_to_byte by lia. apply andb_true_intro. split; apply Z.leb_le; lia.
Qed.

Lemma isVersion_digits l : l <> [] -> Forall digit l -> isVersion (text l) = true.
Proof.
  intros Hn Hd. unfold isVersion, str_eqb. rewrite bool_decide_eq_false_2 by (intros E%(f_equal chars); by rewrite chars_text in E).
  simpl. rewrite segments_plain.
  - apply forallb_forall. intros g Hg%list_elem_of_In. apply list_elem_of_fmap in Hg as (b & -> & Hb).
    apply list_elem_of_fmap in Hb as (a & -> & Ha). rewrite Forall_forall in Hd. by apply Hd.
  - eapply Forall_impl; [exact Hd|]. intros a Ha%digit_alnum%alnum_range. unfold ascii_plain. lia.
Qed.

(** A whole number of CPUs is named as it is. *)
Lemma ceil_of_Z n : 0 < n < 2 ^ 53 -> f64_to_int (math_Ceil (f64_of_Z n)) = n.
Proof.
  intros Hn. destruct n as [|m|m]; [lia| |lia]. unfold f64_of_Z, binary_normalize.
  destruct (f64_of_pos false m ltac:(lia)) as (q & E & Hq & Hd). rewrite E. set (d := Z.pos (digits2_pos m)) in *.
  unfold math_Ceil, math_Floor. cbn [SFopp negb]. destruct (Z.leb_spec 0 (d - 53)).
  - cbn [SFopp negb]. rewrite <- E. apply (f64_to_int_of_Z (Z.pos m)). unfold exact_int. lia.
  - assert (Ed : Z.neg q / 2 ^ (- (d - 53)) = Z.neg m).
    { replace (Z.neg q) with (Z.neg m * 2 ^ (- (d - 53))); [apply Z.div_mul, Z.pow_nonzero; lia|].
      replace (- (d - 53)) with (53 - d) by lia. lia. }
    rewrite Ed. unfold f64_signed. cbn [Z.eqb]. unfold f64_of_Z, binary_normalize.
    destruct (f64_of_pos true m ltac:(lia)) as (q' & E' & Hq' & _). fold d in E', Hq'. rewrite E'. cbn [SFopp negb].
    assert (q' = q) as -> by lia. rewrite <- E. apply (f64_to_int_of_Z (Z.pos m)). unfold exact_int. lia.
Qed.

Lemma vCPU_of_Z s n : sp_CPUs s = f64_of_Z n -> 0 <= n < 2 ^ 53 -> vCPU s = n.
Proof.
  intros E Hn. unfold vCPU. rewrite E. change f64_zero with (f64_of_Z 0). rewrite fleb_of_Z by (unfold exact_int; lia).
  destruct (Z.leb_spec n 0); [lia|]. apply ceil_of_Z. lia.
Qed.

(** A number with its unit. *)
Lemma itoa_alnum n : 0 <= n -> Forall digit (chars (itoa n)) /\ chars (itoa n) <> [].
Proof.
  intros Hn. destruct (itoa_digits n Hn) as (Hv & a & l & E & _). split; [|by rewrite E].
  apply digits_val_all in Hv. eapply Forall_impl; [exact Hv|]. intros b Hb. unfold digit_val in Hb. unfold digit, is_digit_rune.
  by destruct (_ && _).
Qed.

Lemma suffixedNumber_itoa n unit : 0 < n <= int_max -> suffixedNumber (itoa n +:+ unit) unit = Some n.
Proof.
  intros Hn. unfold suffixedNumber. rewrite (proj2 (CutSuffix_spec _ _ _) eq_refl). unfold str_eqb.
  rewrite bool_decide_eq_false_2 by (intros E; destruct (itoa_alnum n ltac:(lia)) as [_ H]; by rewrite E in H).
  rewrite Atoi_itoa by lia. by rewrite (proj2 (Z.leb_gt _ _)) by lia.
Qed.

Lemma gb_not_vcpu n : suffixedNumber (itoa n +:+ "gb") "vcpu" = None.
Proof.
  unfold suffixedNumber. destruct (strings_CutSuffix _ _) as [out|] eqn:E; [|done]. exfalso.
  apply CutSuffix_spec in E. apply (f_equal (fun s => last (chars s))) in E. rewrite !chars_app in E.
  change (chars "gb") with (["g"%char] ++ ["b"%char]) in E. change (chars "vcpu") with (["v"%char; "c"%char; "p"%char] ++ ["u"%char]) in E.
  rewrite !app_assoc, !last_snoc in E. done.
Qed.

(** A suffix that no field of the grammar could be taken for. *)
Definition plain_word (w : string) : bool :=
  bool_decide (suffixedNumber w "vcpu" = None) && bool_decide (suffixedNumber w "gb" = None) &&
  negb (str_in w knownOS) && negb (isVersion w) && negb (str_in w knownArch).

(** A description in the grammar's own terms, of a thing whose name fits. *)
Record canonical (s : Spec) : Prop := {
  can_cpus : exists n, sp_CPUs s = f64_of_Z n /\ 0 <= n < 2 ^ 53;
  can_memory : 0 <= sp_MemoryGB s <= int_max;
  can_os : NormalizeOS (sp_OS s) = sp_OS s;
  can_no_os : sp_OS s = "" -> sp_Version s = "";
  can_version : ExpandVersion (sp_OS s) (CompactVersion (sp_Version s)) = sp_Version s;
  can_arch : sp_Arch s = ArchAMD64 \/ sp_Arch s = ArchARM64;
  can_suffix : Slug (sp_Suffix s) = sp_Suffix s;
  can_plain : sp_Suffix s <> "" -> forall w, head (strings_Split (sp_Suffix s) "-") = Some w -> plain_word w = true;
  can_fits : strlen (strings_Join (spec_parts s) "-") <= MaxNameLength
}.

(** The first field, if there is one, is not read by a step. *)
Definition skips (P : string -> Prop) (fields : list string) : Prop := match fields with f :: _ => P f | [] => True end.

Lemma skips_opt (P : string -> Prop) (b : bool) f rest :
  (b = true -> P f) -> skips P rest -> skips P ((if b then [f] else []) ++ rest).
Proof. destruct b; simpl; auto. Qed.

Lemma read_number_skip unit fields : skips (fun f => suffixedNumber f unit = None) fields -> read_number unit fields = (0, fields).
Proof. destruct fields as [|f fields]; simpl; [done|]. by intros ->. Qed.

Lemma read_number_opt unit n rest :
  0 <= n <= int_max -> skips (fun f => suffixedNumber f unit = None) rest ->
  read_number unit ((if 0 <? n then [itoa n +:+ unit] else []) ++ rest) = (n, rest).
Proof.
  intros Hn Hs. destruct (Z.ltb_spec 0 n); [simpl; by rewrite suffixedNumber_itoa by lia|].
  assert (n = 0) as -> by lia. by apply read_number_skip.
Qed.

(** The fields of a name, after the brand. *)
Definition shape_fields (s : Spec) : list string :=
  let v := CompactVersion (sp_Version s) in
  (if 0 <? vCPU s then [itoa (vCPU s) +:+ "vcpu"] else []) ++
  (if 0 <? sp_MemoryGB s then [itoa (sp_MemoryGB s) +:+ "gb"] else []) ++
  (if negb (str_eqb (sp_OS s) "") then [sp_OS s] ++ (if negb (str_eqb v "") then [v] else []) else []) ++
  (if negb (str_eqb (sp_Arch s) ArchAMD64) then [sp_Arch s] else []).
Definition suffix_fields (s : Spec) : list string := if str_eqb (sp_Suffix s) "" then [] else strings_Split (sp_Suffix s) "-".

Lemma digits_word l : l <> [] -> Forall digit l -> word l.
Proof. intros Hn Hd. split; [done|]. eapply Forall_impl; [exact Hd|]. apply digit_alnum. Qed.

Lemma unit_word n unit : 0 <= n -> Forall alnum (chars unit) -> word (chars (itoa n +:+ unit)).
Proof.
  intros Hn Hu. destruct (itoa_alnum n Hn) as [Hd Hne]. rewrite chars_app. split; [by destruct (chars (itoa n))|].
  apply Forall_app. split; [|done]. eapply Forall_impl; [exact Hd|]. apply digit_alnum.
Qed.

Lemma shape_words s : canonical s -> Forall word (chars <$> shape_fields s).
Proof.
  intros [[n [En Hn]] Hm Hos _ _ Harch _ _ _]. unfold shape_fields. rewrite !fmap_app, !Forall_app.
  rewrite (vCPU_of_Z s n En Hn). split_and!.
  - destruct (0 <? n); [|constructor]. apply Forall_singleton, unit_word; [lia|repeat constructor].
  - destruct (Z.ltb_spec 0 (sp_MemoryGB s)); [|constructor]. apply Forall_singleton, unit_word; [lia|repeat constructor].
  - unfold str_eqb. case_bool_decide; simpl; [constructor|]. constructor.
    + destruct (NormalizeOS_cases (sp_OS s)) as [E|E]; rewrite Hos in E; [done|].
      assert (Hk : Forall (fun o => word (chars o)) knownOS) by (repeat constructor; done). rewrite Forall_forall in Hk. by apply Hk.
    + case_bool_decide as Ev; simpl; [constructor|]. apply Forall_singleton, digits_word; [|apply CompactVersion_digits].
      intros E. apply Ev, chars_inj. by rewrite E.
  - unfold str_eqb. case_bool_decide as Ea; simpl; [constructor|]. destruct Harch as [E|E]; [done|]. rewrite E. apply Forall_singleton.
    split; [done|repeat constructor].
Qed.

Lemma suffix_words s : canonical s ->
  exists ws, Forall word ws /\ suffix_fields s = text <$> ws /\ chars (sp_Suffix s) = joined "-" ws /\ (ws = [] <-> sp_Suffix s = "").
Proof.
  intros Hc. destruct (Slug_words (sp_Suffix s)) as (ws & Hw & E). rewrite (can_suffix s Hc) in E.
  assert (Hiff : ws = [] <-> sp_Suffix s = "").
  { split; [intros ->; by apply chars_inj|]. intros E0. rewrite E0 in E. destruct ws as [|w ws]; [done|].
    apply Forall_cons in Hw as [[Hn _] _]. by destruct w. }
  exists ws. split_and!; [done| |done|done]. unfold suffix_fields, str_eqb. case_bool_decide as E0.
  - by rewrite (proj2 Hiff E0).
  - apply Split_words; [|done|done]. intros Hws. by apply E0, Hiff.
Qed.

(** The parts of a canonical name. *)
Lemma canonical_parts s : canonical s ->
  spec_parts s = Prefix :: shape_fields s ++ (if str_eqb (sp_Suffix s) "" then [] else [sp_Suffix s]).
Proof.
  intros Hc. unfold spec_parts, shape_fields. rewrite (can_os s Hc), (can_suffix s Hc).
  assert (Ea : NormalizeArch (sp_Arch s) = sp_Arch s) by (by destruct (can_arch s Hc) as [-> | ->]).
  assert (Hne : str_eqb (sp_Arch s) "" = false) by (by destruct (can_arch s Hc) as [-> | ->]).
  rewrite Ea, Hne. cbn [negb andb app]. rewrite <- !app_assoc. do 5 f_equal. by destruct (str_eqb (sp_Suffix s) "").
Qed.

Lemma name_fields s : canonical s ->
  strings_Split (strings_ToLower (strings_TrimSpace (Spec_String s))) "-" = Prefix :: shape_fields s ++ suffix_fields s.
Proof.
  intros Hc. destruct (suffix_words s Hc) as (ws & Hw & Ef & Es & Hiff). pose proof (shape_words s Hc) as Hsh.
  set (all := (chars Prefix :: (chars <$> shape_fields s)) ++ ws).
  assert (Hall : Forall word all) by (apply Forall_app; split; [constructor; [apply Prefix_word|done]|done]).
  assert (E : chars (Spec_String s) = joined "-" all).
  { unfold Spec_String, truncate. rewrite (proj2 (Z.leb_le _ _) (can_fits s Hc)).
    rewrite <- (list_fmap_id (spec_parts s)) at 1.
    assert (Et : id <$> spec_parts s = text <$> (chars <$> spec_parts s)).
    { rewrite <- list_fmap_compose. apply list_fmap_ext. intros. unfold compose. by rewrite text_chars. }
    rewrite Et. rewrite chars_Join, (canonical_parts s Hc), fmap_cons, fmap_app.
    unfold str_eqb. case_bool_decide as E0.
    - unfold all. rewrite (proj2 Hiff E0), !app_nil_r. done.
    - assert (Hn : ws <> []) by (intros Hn; by apply E0, Hiff). unfold all. rewrite joined_app by done. rewrite <- Es.
      change (chars Prefix :: (chars <$> shape_fields s) ++ (chars <$> [sp_Suffix s]))
        with ((chars Prefix :: (chars <$> shape_fields s)) ++ [chars (sp_Suffix s)]).
      rewrite joined_app by done. f_equal. f_equal. simpl. by rewrite app_nil_r. }
  destruct (slug_plain (joined "-" all)) as [El _]; [by eapply slug_from_chars, slug_from_words|].
  rewrite <- (text_chars (Spec_String s)), E, El, (Split_words _ all); [|done|done|apply chars_text].
  unfold all. rewrite fmap_app, <- Ef. simpl. f_equal. f_equal. rewrite <- list_fmap_compose.
  rewrite <- (list_fmap_id (shape_fields s)) at 2. apply list_fmap_ext. intros. unfold compose. apply text_chars.
Qed.

Lemma plain_word_spec w : plain_word w = true ->
  suffixedNumber w "vcpu" = None /\ suffixedNumber w "gb" = None /\ str_in w knownOS = false /\ isVersion w = false /\ str_in w knownArch = false.
Proof.
  unfold plain_word. intros H. repeat (apply andb_prop in H as [H ?]). bool_to_prop. done.
Qed.

Lemma suffix_skips s (P : string -> Prop) : canonical s -> (forall w, plain_word w = true -> P w) -> skips P (suffix_fields s).
Proof.
  intros Hc HP. unfold suffix_fields, str_eqb. case_bool_decide as E0; [done|].
  pose proof (can_plain s Hc E0) as Hp. destruct (strings_Split (sp_Suffix s) "-") as [|w ws]; [done|]. by apply HP, Hp.
Qed.

Lemma os_skips o : o ∈ knownOS -> suffixedNumber o "vcpu" = None /\ suffixedNumber o "gb" = None.
Proof.
  intros Ho. assert (H : Forall (fun o => suffixedNumber o "vcpu" = None /\ suffixedNumber o "gb" = None) knownOS).
  { repeat constructor. }
  rewrite Forall_forall in H. by apply H.
Qed.

(** The architecture, then the suffix. *)
Lemma read_arch_fields s : canonical s ->
  read_arch ((if negb (str_eqb (sp_Arch s) ArchAMD64) then [sp_Arch s] else []) ++ suffix_fields s) = (sp_Arch s, suffix_fields s).
Proof.
  intros Hc. destruct (can_arch s Hc) as [E|E]; rewrite E; [|done]. change (str_eqb ArchAMD64 ArchAMD64) with true. cbn [negb app].
  pose proof (suffix_skips s (fun w => str_in w knownArch = false) Hc) as Hs. unfold read_arch.
  destruct (suffix_fields s) as [|w ws]; [done|]. simpl in Hs. rewrite Hs; [done|]. intros w' Hw'. apply plain_word_spec in Hw'. tauto.
Qed.

Lemma read_os_fields s rest : canonical s ->
  skips (fun f => str_in f knownOS = false /\ isVersion f = false) rest ->
  let v := CompactVersion (sp_Version s) in
  read_os ((if negb (str_eqb (sp_OS s) "") then [sp_OS s] ++ (if negb (str_eqb v "") then [v] else []) else []) ++ rest)
  = (sp_OS s, sp_Version s, rest).
Proof.
  intros Hc Hr v. unfold str_eqb. case_bool_decide as E0; cbn [negb app].
  - rewrite E0, (can_no_os s Hc E0). destruct rest as [|f rest]; [done|]. cbn [read_os]. by rewrite (proj1 Hr).
  - assert (Hk : str_in (sp_OS s) knownOS = true).
    { destruct (NormalizeOS_cases (sp_OS s)) as [E|E]; rewrite (can_os s Hc) in E; [done|]. unfold str_in. by apply bool_decide_eq_true. }
    cbn [read_os]. rewrite Hk. pose proof (can_version s Hc) as Hv. fold v in Hv. case_bool_decide as Ev; cbn [negb app].
    + rewrite Ev in Hv. assert (sp_Version s = "") as -> by (rewrite <- Hv; done). destruct rest as [|f rest]; [done|]. by rewrite (proj2 Hr).
    + assert (Hver : isVersion v = true).
      { rewrite <- (text_chars v). apply isVersion_digits; [|apply CompactVersion_digits]. intros E. apply Ev, chars_inj. by rewrite E. }
      by rewrite Hver, Hv.
Qed.

Lemma arch_skips s (P : string -> Prop) : canonical s -> P ArchARM64 -> (forall w, plain_word w = true -> P w) ->
  skips P ((if negb (str_eqb (sp_Arch s) ArchAMD64) then [sp_Arch s] else []) ++ suffix_fields s).
Proof.
  intros Hc Ha HP. apply skips_opt; [|by apply suffix_skips]. intros E. by destruct (can_arch s Hc) as [E'|E']; rewrite E' in *.
Qed.

(** A name is read back.  Of a description in the grammar's terms whose
    name fits in 64 characters, with a suffix that does not itself look like a field,
    [Parse] reads the name [Spec.String] writes into that description. *)
Theorem Parse_String (s : Spec) : canonical s -> Parse (Spec_String s) = Some s.
Proof.
  intros Hc. unfold Parse. rewrite (name_fields s Hc). unfold shape_fields. rewrite <- !app_assoc.
  unfold str_eqb at 1. rewrite bool_decide_eq_true_2 by done. cbn [negb].
  set (osF := if negb (str_eqb (sp_OS s) "") then _ else []). set (archF := if negb (str_eqb (sp_Arch s) ArchAMD64) then _ else []).
  destruct (can_cpus s Hc) as (n & En & Hn). assert (Ev := vCPU_of_Z s n En Hn).
  assert (Hos : forall unit, unit ∈ ["vcpu"; "gb"] -> skips (fun f => suffixedNumber f unit = None) (osF ++ archF ++ suffix_fields s)).
  { intros unit Hu. assert (Ha : skips (fun f => suffixedNumber f unit = None) (archF ++ suffix_fields s)).
    { apply arch_skips; [done|by repeat (apply elem_of_cons in Hu as [->|Hu]; [done|]); apply elem_of_nil in Hu|].
      intros w Hw%plain_word_spec. repeat (apply elem_of_cons in Hu as [->|Hu]; [tauto|]). by apply elem_of_nil in Hu. }
    unfold osF, str_eqb. case_bool_decide as E0; [exact Ha|]. simpl.
    destruct (NormalizeOS_cases (sp_OS s)) as [E|E]; rewrite (can_os s Hc) in E; [done|]. apply os_skips in E.
    repeat (apply elem_of_cons in Hu as [->|Hu]; [tauto|]). by apply elem_of_nil in Hu. }
  rewrite Ev, read_number_opt; [|unfold int_max; lia|].
  2: { apply skips_opt; [intros _; apply gb_not_vcpu|]. apply Hos. repeat constructor. }
  rewrite read_number_opt; [|apply (can_memory s Hc)|apply Hos; repeat constructor].
  unfold osF. rewrite read_os_fields; [|done|].
  2: { apply arch_skips; [done|by split|]. intros w Hw%plain_word_spec. tauto. }
  unfold archF. rewrite (read_arch_fields s Hc).
  assert (Ej : strings_Join (suffix_fields s) "-" = sp_Suffix s).
  { destruct (suffix_words s Hc) as (ws & _ & -> & Es & _). apply chars_inj. by rewrite chars_Join. }
  rewrite Ej, <- En. by destruct s.
Qed.

(** A version with a point that is not Ubuntu's does not come back: the point of
    Alpine 3.22 is lost. *)
Example Alpine_version_lost :
  Parse (Spec_String (spec_of 4 0 OSAlpine "3.22" ArchAMD64 "")) = Some (spec_of 4 0 OSAlpine "322" ArchAMD64 "").
Proof. vm_compute. reflexivity. Qed.
