(* ===== verification/Store.v ===== *)
(** * Package store: the domain types

    The rows the scheduler decides from (internal/store/models.go,
    host_usage.go, host_throttle.go, runner_profile.go, size_class.go,
    brand.go): pools, hosts, runners and jobs, and the pure methods on them.
    A record keeps the fields the modelled code reads; a nil pointer is [None].
    Reading and writing the rows (SQL, JSON columns) is not modelled. *)
From Stdlib Require Import ZArith Lia Ascii String.
From stdpp Require Import base strings list gmap.
From S2P Require Import Prelude GoFloat GoString Naming.
Local Open Scope string_scope.
Local Open Scope list_scope.
Local Open Scope Z_scope.

(** ** Enumerations *)
Definition BackendKind : Type := string.
Definition BackendDocker : string := "docker".
Definition BackendPodman : string := "podman".
Definition BackendProcess : string := "process".

Inductive DockerMode := DockerNone | DockerDinD | DockerHostSocket.

Inductive RunnerState :=
  | RunnerProvisioning | RunnerRegistering | RunnerIdle | RunnerBusy
  | RunnerDraining | RunnerRemoved | RunnerFailed.

Inductive JobState := JobWaiting | JobQueued | JobInProgress | JobCompleted.

#[global] Instance DockerMode_eq_dec : EqDecision DockerMode.
Proof. solve_decision. Defined.
#[global] Instance RunnerState_eq_dec : EqDecision RunnerState.
Proof. solve_decision. Defined.
#[global] Instance JobState_eq_dec : EqDecision JobState.
Proof. solve_decision. Defined.

Definition is_state (s t : RunnerState) : bool := bool_decide (s = t).
Definition is_dind (d : DockerMode) : bool := bool_decide (d = DockerDinD).

Definition RunnerState_string (s : RunnerState) : string :=
  match s with
  | RunnerProvisioning => "provisioning"
  | RunnerRegistering => "registering"
  | RunnerIdle => "idle"
  | RunnerBusy => "busy"
  | RunnerDraining => "draining"
  | RunnerRemoved => "removed"
  | RunnerFailed => "failed"
  end.

Definition Terminal (s : RunnerState) : bool := is_state s RunnerRemoved || is_state s RunnerFailed.
Definition Live (s : RunnerState) : bool := negb (Terminal s).
Definition Assignable (s : RunnerState) : bool := is_state s RunnerIdle || is_state s RunnerBusy.

Definition validRunnerTransitions (s : RunnerState) : list RunnerState :=
  match s with
  | RunnerProvisioning => [RunnerRegistering; RunnerDraining; RunnerFailed; RunnerRemoved]
  | RunnerRegistering => [RunnerIdle; RunnerBusy; RunnerDraining; RunnerFailed; RunnerRemoved]
  | RunnerIdle => [RunnerBusy; RunnerDraining; RunnerFailed; RunnerRemoved]
  | RunnerBusy => [RunnerIdle; RunnerDraining; RunnerFailed; RunnerRemoved]
  | RunnerDraining => [RunnerRemoved; RunnerFailed]
  | RunnerRemoved => []
  | RunnerFailed => [RunnerRemoved]
  end.

Definition CanTransition (from to : RunnerState) : bool :=
  if is_state from to then true else bool_decide (to ∈ validRunnerTransitions from).

(** Why a runner failed (faults.go). *)
Definition FaultKind : Type := string.
Definition FaultBackendBusy : string := "backend_busy".
Definition FaultRunnerExited : string := "runner_exited".
Definition allFaultKinds : list string :=
  ["host_lost"; "out_of_memory"; "out_of_disk"; "removed"; "image"; "registration"; "backend";
   FaultBackendBusy; "container_conflict"; "config"; FaultRunnerExited].
Definition FaultKind_Valid (k : string) : bool := str_in k allFaultKinds.
Definition FaultKind_Normalise (k : string) : string :=
  if str_eqb k "" then "" else if FaultKind_Valid k then k else FaultRunnerExited.

(** ** Labels *)
Definition ImplicitLabels (l : string) : bool :=
  str_in l ["self-hosted"; "linux"; "windows"; "macos"; "x64"; "arm"; "arm64"].

Definition NormalizeLabel (s : string) : string := strings_ToLower (strings_TrimSpace s).
Arguments NormalizeLabel : simpl never.

(** [isNormalized]: every label is normalised and above the one before it. *)
Fixpoint isNormalized_go (prev : option string) (l : list string) : bool :=
  match l with
  | [] => true
  | x :: l' =>
      if str_eqb x "" || negb (str_eqb (NormalizeLabel x) x) then false
      else match prev with
           | Some p => match strings_Compare p x with
                       | Lt => isNormalized_go (Some x) l'
                       | _ => false
                       end
           | None => isNormalized_go (Some x) l'
           end
  end.
Definition isNormalized (l : list string) : bool := isNormalized_go None l.

(** The loop of [NormalizeLabels]: the normalised labels, each kept the first
    time it is met. *)
Fixpoint dedupe_labels (seen : list string) (l : list string) : list string :=
  match l with
  | [] => []
  | x :: l' =>
      let n := NormalizeLabel x in
      if str_eqb n "" || str_in n seen then dedupe_labels seen l'
      else n :: dedupe_labels (n :: seen) l'
  end.

Definition NormalizeLabels (l : list string) : list string :=
  match l with
  | [] => []
  | _ => if isNormalized l then l else SortStableFunc strings_Compare (dedupe_labels [] l)
  end.

(** ** Size classes (size_class.go) *)
Definition SizeClass : Type := string.
Definition SizeSmall : string := "small".
Definition SizeMedium : string := "medium".
Definition SizeLarge : string := "large".
Definition SizeClasses : list string := [SizeSmall; SizeMedium; SizeLarge].

Definition Rank (c : string) : Z :=
  if str_eqb c SizeSmall then 0
  else if str_eqb c SizeMedium then 1
  else if str_eqb c SizeLarge then 2
  else -1.
Definition SizeClass_Valid (c : string) : bool := 0 <=? Rank c.

Definition Larger (c : string) : option string :=
  let i := Rank c in
  if (0 <=? i) && (i + 1 <? 3) then SizeClasses !! Z.to_nat (i + 1) else None.
Definition Smaller (c : string) : option string :=
  let i := Rank c in
  if 0 <? i then SizeClasses !! Z.to_nat (i - 1) else None.

Definition ParseSizeClass (s : string) : string * bool :=
  let c := strings_ToLower (strings_TrimSpace s) in (c, SizeClass_Valid c).

Definition LabelOS : string := "os".
Definition LabelArch : string := "arch".
Definition LabelSize : string := "size".

Record HostSizeClass := {
  hsc_Class : string;
  hsc_Pending : string;
  hsc_PendingSince : option Time;
  hsc_ChangedAt : option Time
}.
Definition HostSizeClass_Set (h : HostSizeClass) : bool := negb (str_eqb (hsc_Class h) "").

(** ** Resources *)
Record Resources := {
  rs_CPUs : float64;
  rs_MemoryMB : Z;
  rs_DiskGB : Z;
  rs_PidsLimit : Z;
  rs_MinCPUs : float64;
  rs_MinMemoryMB : Z;
  rs_DaemonSharePercent : Z;
  rs_DaemonCPUSharePercent : Z;
  rs_DaemonMemorySharePercent : Z
}.

(** A copy with new sizes, and one with new minimums. *)
Definition rs_with_size (r : Resources) (cpus : float64) (memoryMB : Z) : Resources :=
  {| rs_CPUs := cpus; rs_MemoryMB := memoryMB; rs_DiskGB := rs_DiskGB r; rs_PidsLimit := rs_PidsLimit r;
     rs_MinCPUs := rs_MinCPUs r; rs_MinMemoryMB := rs_MinMemoryMB r;
     rs_DaemonSharePercent := rs_DaemonSharePercent r;
     rs_DaemonCPUSharePercent := rs_DaemonCPUSharePercent r;
     rs_DaemonMemorySharePercent := rs_DaemonMemorySharePercent r |}.
Definition rs_with_min (r : Resources) (cpus : float64) (memoryMB : Z) : Resources :=
  {| rs_CPUs := rs_CPUs r; rs_MemoryMB := rs_MemoryMB r; rs_DiskGB := rs_DiskGB r; rs_PidsLimit := rs_PidsLimit r;
     rs_MinCPUs := cpus; rs_MinMemoryMB := memoryMB;
     rs_DaemonSharePercent := rs_DaemonSharePercent r;
     rs_DaemonCPUSharePercent := rs_DaemonCPUSharePercent r;
     rs_DaemonMemorySharePercent := rs_DaemonMemorySharePercent r |}.

Definition zero_Resources : Resources :=
  {| rs_CPUs := f64_zero; rs_MemoryMB := 0; rs_DiskGB := 0; rs_PidsLimit := 0;
     rs_MinCPUs := f64_zero; rs_MinMemoryMB := 0; rs_DaemonSharePercent := 0;
     rs_DaemonCPUSharePercent := 0; rs_DaemonMemorySharePercent := 0 |}.

Definition DefaultDaemonSharePercent : Z := 50.
Definition MinDaemonSharePercent : Z := 10.
Definition MaxDaemonSharePercent : Z := 90.

Definition daemonShare (specific general : Z) : Z :=
  if 0 <? specific then specific
  else if 0 <? general then general
  else DefaultDaemonSharePercent.

Definition DaemonCPUPercent (r : Resources) : Z :=
  daemonShare (rs_DaemonCPUSharePercent r) (rs_DaemonSharePercent r).
Definition DaemonMemoryPercent (r : Resources) : Z :=
  daemonShare (rs_DaemonMemorySharePercent r) (rs_DaemonSharePercent r).

Definition pairFactor (daemonPercent : Z) : float64 :=
  (f64_of_Z 100 / f64_of_Z (Z.min daemonPercent (100 -% daemonPercent)))%f64.
Definition CPUPairFactor (r : Resources) : float64 := pairFactor (DaemonCPUPercent r).
Definition MemoryPairFactor (r : Resources) : float64 := pairFactor (DaemonMemoryPercent r).

(** [x > 0] on a [float64]. *)
Definition fpos (x : float64) : bool := fltb f64_zero x.

Definition Reducible (r : Resources) : bool :=
  (fpos (rs_MinCPUs r) && ((rs_CPUs r <=? f64_zero)%f64 || (rs_MinCPUs r <? rs_CPUs r)%f64)) ||
  ((0 <? rs_MinMemoryMB r) && ((rs_MemoryMB r <=? 0) || (rs_MinMemoryMB r <? rs_MemoryMB r))).

Definition clampShare (p : Z) : Z :=
  if (p <? MinDaemonSharePercent) || (MaxDaemonSharePercent <? p) then DefaultDaemonSharePercent else p.

(** [SplitWithDaemonShares]: the runner's half and the daemon's. *)
Definition SplitWithDaemonShares (r : Resources) (cpuPercent memoryPercent : Z) : Resources * Resources :=
  let cpuPercent := clampShare cpuPercent in
  let memoryPercent := clampShare memoryPercent in
  let '(rc, dc) :=
    if fpos (rs_CPUs r) then
      if cpuPercent =? DefaultDaemonSharePercent then
        let rc := (rs_CPUs r / f64_of_Z 2)%f64 in (rc, (rs_CPUs r - rc)%f64)
      else
        let dc := (rs_CPUs r * f64_of_Z cpuPercent / f64_of_Z 100)%f64 in ((rs_CPUs r - dc)%f64, dc)
    else (rs_CPUs r, rs_CPUs r) in
  let '(rm, dm) :=
    if 0 <? rs_MemoryMB r then
      if memoryPercent =? DefaultDaemonSharePercent then
        let rm := rs_MemoryMB r /% 2 in (rm, rs_MemoryMB r -% rm)
      else
        let dm := (rs_MemoryMB r *% memoryPercent) /% 100 in (rs_MemoryMB r -% dm, dm)
    else (rs_MemoryMB r, rs_MemoryMB r) in
  (rs_with_size r rc rm, rs_with_size r dc dm).

Definition SplitWithDaemon (r : Resources) : Resources * Resources :=
  SplitWithDaemonShares r DefaultDaemonSharePercent DefaultDaemonSharePercent.

(** ** The brand (brand.go) *)
Definition Brand : string := "zoomies".
Definition BrandLabel : string := Brand.
Definition RunnerNamePrefix : string := "zoomies-".
Definition maxLabelSegment : Z := 40.

Definition is_label_rune (r : Z) : bool := ((97 <=? r) && (r <=? 122)) || ((48 <=? r) && (r <=? 57)).

(** Runs of hyphens become one. *)
Fixpoint collapse_go (prev : bool) (l : list ascii) : list ascii :=
  match l with
  | [] => []
  | a :: l' =>
      let dash := bool_decide (a = "-"%char) in
      if dash && prev then collapse_go prev l' else a :: collapse_go dash l'
  end.

Definition trim_dashes (l : list ascii) : list ascii :=
  rev (drop_byte "-" (rev (drop_byte "-" l))).

Definition SanitizeLabel (s : string) : string :=
  let mapped := (fun g => if is_label_rune (seg_rune g) then to_byte (seg_rune g) else "-"%char)
                  <$> segments (NormalizeLabel s) in
  let out := trim_dashes (collapse_go false mapped) in
  string_of_list_ascii
    (if maxLabelSegment <? Z.of_nat (length out)
     then trim_dashes (firstn (Z.to_nat maxLabelSegment) out) else out).

Definition BrandedLabel (name : string) : string :=
  let s := SanitizeLabel name in
  if str_eqb s "" then BrandLabel
  else if str_eqb s Brand || String.prefix RunnerNamePrefix s then s
  else RunnerNamePrefix +:+ s.

Definition SizeClass_Label (c : string) : string := BrandedLabel c.

Definition ClassOfLabel (label : string) : option string :=
  let l := NormalizeLabel label in
  List.find (fun c => str_eqb l (SizeClass_Label c)) SizeClasses.

(** ** Platforms *)
Record Platform := { pl_OS : string; pl_OSVersion : string; pl_Arch : string }.

Definition Normalized (p : Platform) : Platform :=
  {| pl_OS := NormalizeOS (pl_OS p);
     pl_OSVersion := strings_TrimSpace (pl_OSVersion p);
     pl_Arch := NormalizeArch (pl_Arch p) |}.

Definition nonempty (s : string) : bool := negb (str_eqb s "").

Definition Platform_Matches (p h : Platform) : bool :=
  let p := Normalized p in
  let h := Normalized h in
  if nonempty (pl_OS p) && nonempty (pl_OS h) && negb (str_eqb (pl_OS p) (pl_OS h)) then false
  else if nonempty (pl_Arch p) && nonempty (pl_Arch h) && negb (str_eqb (pl_Arch p) (pl_Arch h)) then false
  else if nonempty (pl_OSVersion p) && nonempty (pl_OSVersion h) &&
          negb (str_eqb (CompactVersion (pl_OSVersion p)) (CompactVersion (pl_OSVersion h))) then false
  else true.

Definition Platform_Describe (p : Platform) : string :=
  Spec_Platform (pl_OS p) (pl_OSVersion p) (pl_Arch p).

(** ** Pools *)
Record RunnerSettings := {
  rst_ProvisionTimeout : option Duration;
  rst_DrainTimeout : option Duration;
  rst_MaxRunnerLifetime : option Duration;
  rst_ScaleUpDelay : option Duration;
  rst_DockerWait : option Duration
}.

Definition isSome {A} (o : option A) : bool := match o with Some _ => true | None => false end.

Definition RunnerSettings_Set (r : RunnerSettings) : bool :=
  isSome (rst_ProvisionTimeout r) || isSome (rst_DrainTimeout r) || isSome (rst_MaxRunnerLifetime r) ||
  isSome (rst_ScaleUpDelay r) || isSome (rst_DockerWait r).

Record RunnerSize := { sz_CPUs : float64; sz_MemoryMB : Z }.
Definition zero_RunnerSize : RunnerSize := {| sz_CPUs := f64_zero; sz_MemoryMB := 0 |}.

Record Pool := {
  p_ID : string;
  p_Name : string;
  p_InstallationID : string;
  p_Labels : list string;
  p_NoDefaultLabels : bool;
  p_RunnerGroup : string;
  p_Backend : string;
  p_Platform : Platform;
  p_Image : string;
  p_PullPolicy : string;
  p_MinRunners : Z;
  p_MaxRunners : Z;
  p_RepositoryScaleUpLimit : Z;
  p_Priority : Z;
  p_IdleTimeout : Duration;
  p_Ephemeral : bool;
  p_DockerMode : DockerMode;
  p_Resources : Resources;
  p_CPUBurstMode : string;
  p_MemoryBurstMode : string;
  p_CacheScope : string;
  p_CPUBurstMaxCPUs : float64;
  p_MemoryBurstMaxMemoryMB : Z;
  p_SizeFromProfile : bool;
  p_AutoKey : string;
  p_AutoMin : Z;
  p_AutoCap : Z;
  p_AutoPaused : bool;
  p_FleetStandard : RunnerSize;
  p_FleetMinimum : RunnerSize;
  p_RunnerSettings : RunnerSettings;
  p_HostSelector : gmap string string;
  p_Enabled : bool
}.

(** A copy of a pool with other resources. *)
Definition p_with_resources (p : Pool) (r : Resources) : Pool :=
  {| p_ID := p_ID p; p_Name := p_Name p; p_InstallationID := p_InstallationID p; p_Labels := p_Labels p;
     p_NoDefaultLabels := p_NoDefaultLabels p; p_RunnerGroup := p_RunnerGroup p; p_Backend := p_Backend p;
     p_Platform := p_Platform p; p_Image := p_Image p; p_PullPolicy := p_PullPolicy p; p_MinRunners := p_MinRunners p; p_MaxRunners := p_MaxRunners p;
     p_RepositoryScaleUpLimit := p_RepositoryScaleUpLimit p; p_Priority := p_Priority p;
     p_IdleTimeout := p_IdleTimeout p; p_Ephemeral := p_Ephemeral p; p_DockerMode := p_DockerMode p; p_Resources := r;
     p_CPUBurstMode := p_CPUBurstMode p; p_MemoryBurstMode := p_MemoryBurstMode p; p_CacheScope := p_CacheScope p;
     p_CPUBurstMaxCPUs := p_CPUBurstMaxCPUs p; p_MemoryBurstMaxMemoryMB := p_MemoryBurstMaxMemoryMB p;
     p_SizeFromProfile := p_SizeFromProfile p; p_AutoKey := p_AutoKey p; p_AutoMin := p_AutoMin p;
     p_AutoCap := p_AutoCap p; p_AutoPaused := p_AutoPaused p; p_FleetStandard := p_FleetStandard p;
     p_FleetMinimum := p_FleetMinimum p; p_RunnerSettings := p_RunnerSettings p;
     p_HostSelector := p_HostSelector p; p_Enabled := p_Enabled p |}.

Definition Automatic (p : Pool) : bool :=
  (rs_CPUs (p_Resources p) <=? f64_zero)%f64 && (rs_MemoryMB (p_Resources p) <=? 0).

Definition FromHosts (p : Pool) : bool := nonempty (p_AutoKey p).

Definition AutoKeyFor (arch class : string) : string := NormalizeArch arch +:+ "/" +:+ class.

(** [ParseAutoKey]: the architecture and the class, for a key that is one. *)
Definition ParseAutoKey (key : string) : option (string * string) :=
  let '(a, c, found) := strings_Cut key "/" in
  let '(class, valid) := ParseSizeClass c in
  if negb found || negb (str_eqb (NormalizeArch a) a) || str_eqb a "" || negb valid then None
  else Some (a, class).

(** ** Host usage (host_usage.go) *)
Record HostUsage := {
  u_CPUPercent : option float64;
  u_MemoryAvailableMB : option Z;
  u_LoadAverage1 : option float64;
  u_SampledAt : Time;
  u_CPUHighSince : option Time;
  u_CPUHeld : bool;
  u_LentCPUPercent : float64;
  u_IOWaitPercent : option float64;
  u_StealPercent : option float64;
  u_IOWaitHighSince : option Time
}.

Definition zero_HostUsage : HostUsage :=
  {| u_CPUPercent := None; u_MemoryAvailableMB := None; u_LoadAverage1 := None; u_SampledAt := 0;
     u_CPUHighSince := None; u_CPUHeld := false; u_LentCPUPercent := f64_zero; u_IOWaitPercent := None;
     u_StealPercent := None; u_IOWaitHighSince := None |}.

Definition UnlentCPUPercent (u : HostUsage) : option float64 :=
  (fun v => fmax (v - fmax (u_LentCPUPercent u) f64_zero)%f64 f64_zero) <$> u_CPUPercent u.

Definition HostUsageMaxAge : Duration := 90 * Second.
Definition CPUHoldWindow : Duration := 30 * Second.
Definition IOWaitHighPercent : float64 := Eval vm_compute in f64_of_Z 20.
Definition IOWaitCalmPercent : float64 := Eval vm_compute in f64_of_Z 10.
Definition IOWaitSustained : Duration := 10 * Minute.

Definition Usage_Fresh (u : HostUsage) (now : Time) : bool :=
  negb (Time_IsZero (u_SampledAt u)) && negb (Time_Before now (u_SampledAt u)) &&
  (Time_Sub now (u_SampledAt u) <? HostUsageMaxAge).

Definition DiskBound (u : HostUsage) (now : Time) : bool :=
  Usage_Fresh u now &&
  match u_IOWaitHighSince u with Some since => IOWaitSustained <=? Time_Sub now since | None => false end.

(** ** The throttle (host_throttle.go) *)
Record HostThrottle := {
  th_Level : Z;
  th_Since : option Time;
  th_ChangedAt : option Time;
  th_CalmSince : option Time;
  th_Reason : string
}.

Definition zero_HostThrottle : HostThrottle :=
  {| th_Level := 0; th_Since := None; th_ChangedAt := None; th_CalmSince := None; th_Reason := "" |}.

Definition MaxThrottleLevel : Z := 3.
Definition throttleStepFraction : float64 := Eval vm_compute in f64_lit 1 4.
Definition MinCPUFactor : float64 := Eval vm_compute in f64_lit 1 2.

Definition Throttle_Active (t : HostThrottle) : bool := 0 <? th_Level t.
Definition Throttle_Factor (t : HostThrottle) : float64 :=
  let level := Z.min (Z.max (th_Level t) 0) MaxThrottleLevel in
  (f64_of_Z 1 - throttleStepFraction * f64_of_Z level)%f64.
Definition CPUFactor (t : HostThrottle) : float64 := fmax MinCPUFactor (Throttle_Factor t).

(** ** Runner profiles (runner_profile.go) *)
Record RunnerStandard := {
  std_CPUs : float64;
  std_MemoryMB : Z;
  std_BurstMaxCPUs : float64;
  std_BurstMaxMemoryMB : Z
}.
Definition Sized (s : RunnerStandard) : bool := fpos (std_CPUs s) || (0 <? std_MemoryMB s).

Record RunnerProfile := { rp_Minimum : RunnerSize; rp_Standard : RunnerStandard }.
Definition zero_RunnerProfile : RunnerProfile :=
  {| rp_Minimum := zero_RunnerSize;
     rp_Standard := {| std_CPUs := f64_zero; std_MemoryMB := 0;
                       std_BurstMaxCPUs := f64_zero; std_BurstMaxMemoryMB := 0 |} |}.

(** ** Hosts *)
Record LimitSupport := { ls_Known : bool; ls_CPU : bool; ls_Memory : bool; ls_Pids : bool }.
Definition zero_LimitSupport : LimitSupport :=
  {| ls_Known := false; ls_CPU := false; ls_Memory := false; ls_Pids := false |}.

Record HostBackend := {
  hb_Kind : string;
  hb_Available : bool;
  hb_Detail : string;
  hb_CPUs : Z;
  hb_MemoryMB : Z;
  hb_Limits : LimitSupport
}.

Definition HostBackends_Find (l : list HostBackend) (kind : string) : option HostBackend :=
  List.find (fun i => str_eqb (hb_Kind i) kind) l.

Definition HostBackends_Kinds (l : list HostBackend) : list string :=
  SortStableFunc strings_Compare (hb_Kind <$> List.filter hb_Available l).

Record Host := {
  h_Retired : bool;
  h_ID : string;
  h_Name : string;
  h_Embedded : bool;
  h_Capacity : Z;
  h_Backends : list string;
  h_BackendInfo : list HostBackend;
  h_Labels : gmap string string;
  h_OS : string;
  h_Distro : string;
  h_OSVersion : string;
  h_Arch : string;
  h_CPUs : Z;
  h_MemoryMB : Z;
  h_CPUMHz : Z;
  h_MemoryMTs : Z;
  h_DiskKind : string;
  h_Usage : HostUsage;
  h_Throttle : HostThrottle;
  h_DiskTotalMB : Z;
  h_DiskFreeMB : Z;
  h_ReserveCPUs : Z;
  h_ReserveMemoryMB : Z;
  h_ReserveDiskMB : Z;
  h_RunnerProfile : RunnerProfile;
  h_PriorityOverride : option Z;
  h_SizeClass : HostSizeClass;
  h_Cordoned : bool;
  h_Incompatible : bool;
  h_LastHeartbeat : Time;
  h_ActiveRunners : Z;
  h_UnlimitedRunners : Z
}.

(** A copy of a host with another measured size. *)
Definition h_with_size (h : Host) (cpus memoryMB diskTotalMB diskFreeMB : Z) : Host :=
  {| h_Retired := h_Retired h; h_ID := h_ID h; h_Name := h_Name h; h_Embedded := h_Embedded h;
     h_Capacity := h_Capacity h; h_Backends := h_Backends h; h_BackendInfo := h_BackendInfo h;
     h_Labels := h_Labels h; h_OS := h_OS h; h_Distro := h_Distro h; h_OSVersion := h_OSVersion h;
     h_Arch := h_Arch h; h_CPUs := cpus; h_MemoryMB := memoryMB; h_CPUMHz := h_CPUMHz h;
     h_MemoryMTs := h_MemoryMTs h; h_DiskKind := h_DiskKind h; h_Usage := h_Usage h;
     h_Throttle := h_Throttle h; h_DiskTotalMB := diskTotalMB; h_DiskFreeMB := diskFreeMB;
     h_ReserveCPUs := h_ReserveCPUs h; h_ReserveMemoryMB := h_ReserveMemoryMB h;
     h_ReserveDiskMB := h_ReserveDiskMB h; h_RunnerProfile := h_RunnerProfile h;
     h_PriorityOverride := h_PriorityOverride h; h_SizeClass := h_SizeClass h; h_Cordoned := h_Cordoned h;
     h_Incompatible := h_Incompatible h; h_LastHeartbeat := h_LastHeartbeat h;
     h_ActiveRunners := h_ActiveRunners h; h_UnlimitedRunners := h_UnlimitedRunners h |}.

(** A copy of a host on another rung of the throttle. *)
Definition h_with_throttle (h : Host) (t : HostThrottle) : Host :=
  {| h_Retired := h_Retired h; h_ID := h_ID h; h_Name := h_Name h; h_Embedded := h_Embedded h;
     h_Capacity := h_Capacity h; h_Backends := h_Backends h; h_BackendInfo := h_BackendInfo h;
     h_Labels := h_Labels h; h_OS := h_OS h; h_Distro := h_Distro h; h_OSVersion := h_OSVersion h;
     h_Arch := h_Arch h; h_CPUs := h_CPUs h; h_MemoryMB := h_MemoryMB h; h_CPUMHz := h_CPUMHz h;
     h_MemoryMTs := h_MemoryMTs h; h_DiskKind := h_DiskKind h; h_Usage := h_Usage h;
     h_Throttle := t; h_DiskTotalMB := h_DiskTotalMB h; h_DiskFreeMB := h_DiskFreeMB h;
     h_ReserveCPUs := h_ReserveCPUs h; h_ReserveMemoryMB := h_ReserveMemoryMB h;
     h_ReserveDiskMB := h_ReserveDiskMB h; h_RunnerProfile := h_RunnerProfile h;
     h_PriorityOverride := h_PriorityOverride h; h_SizeClass := h_SizeClass h; h_Cordoned := h_Cordoned h;
     h_Incompatible := h_Incompatible h; h_LastHeartbeat := h_LastHeartbeat h;
     h_ActiveRunners := h_ActiveRunners h; h_UnlimitedRunners := h_UnlimitedRunners h |}.

Definition Host_Platform (h : Host) : Platform :=
  let os := if str_eqb (NormalizeOS (h_Distro h)) "" then h_OS h else h_Distro h in
  Normalized {| pl_OS := os; pl_OSVersion := h_OSVersion h; pl_Arch := h_Arch h |}.

Definition SpecDiskSpeed (h : Host) : float64 :=
  if str_eqb (h_DiskKind h) "ssd" then f64_of_Z 1 else f64_zero.

Definition HeartbeatTimeout : Duration := 90 * Second.
Definition Healthy (h : Host) (now : Time) : bool :=
  negb (h_Retired h) && (Time_Sub now (h_LastHeartbeat h) <? HeartbeatTimeout).

(** *** Reserves and what is allocatable *)
Definition MinHostReserveMemoryMB : Z := 512.
Definition MinHostReserveMemoryFraction : float64 := Eval vm_compute in f64_lit 5 100.
Definition MaxHostReserveMemoryMB : Z := 8192.
Definition MinHostReserveDiskMB : Z := 2048.
Definition MinHostReserveCPUs : float64 := Eval vm_compute in f64_lit 1 2.
Definition MinHostReserveCPUFraction : float64 := Eval vm_compute in f64_lit 5 100.
Definition ControllerReserveCPUs : float64 := Eval vm_compute in f64_of_Z 1.
Definition ControllerReserveMemoryMB : Z := 1024.
Definition MinRunnerCPUs : float64 := Eval vm_compute in f64_lit 1 4.
Definition MinRunnerMemoryMB : Z := 512.

Definition MemoryReserve (h : Host) : Z :=
  if h_MemoryMB h <=? 0 then 0 else
  let floor := Z.min (Z.max MinHostReserveMemoryMB
                            (f64_to_int (MinHostReserveMemoryFraction * f64_of_Z (h_MemoryMB h))%f64))
                     MaxHostReserveMemoryMB in
  let floor := if h_Embedded h then floor +% ControllerReserveMemoryMB else floor in
  Z.max (h_ReserveMemoryMB h) floor.

Definition CPUReserve (h : Host) : float64 :=
  if h_CPUs h <=? 0 then f64_zero else
  let floor := fmax MinHostReserveCPUs (MinHostReserveCPUFraction * f64_of_Z (h_CPUs h))%f64 in
  let floor := if h_Embedded h then (floor + ControllerReserveCPUs)%f64 else floor in
  fmax (f64_of_Z (h_ReserveCPUs h)) floor.

Record HostAllocation := {
  al_CPUs : float64;
  al_MemoryMB : Z;
  al_DiskMB : Z;
  al_CPUsKnown : bool;
  al_MemoryKnown : bool;
  al_DiskKnown : bool
}.

Definition Allocatable (h : Host) : HostAllocation :=
  let cpusKnown := 0 <? h_CPUs h in
  let memoryKnown := 0 <? h_MemoryMB h in
  let diskKnown := 0 <? h_DiskTotalMB h in
  {| al_CPUs := if cpusKnown then fmax (f64_of_Z (h_CPUs h) - CPUReserve h)%f64 f64_zero else f64_zero;
     al_MemoryMB := if memoryKnown then Z.max (h_MemoryMB h -% MemoryReserve h) 0 else 0;
     al_DiskMB := if diskKnown then Z.max (h_DiskFreeMB h -% Z.max (h_ReserveDiskMB h) MinHostReserveDiskMB) 0 else 0;
     al_CPUsKnown := cpusKnown;
     al_MemoryKnown := memoryKnown;
     al_DiskKnown := diskKnown |}.

(** *** Slots *)
Definition slotEpsilon : float64 := Eval vm_compute in f64_lit 1 1000000.

Definition Slots (h : Host) : Z :=
  let std := rp_Standard (h_RunnerProfile h) in
  if (h_Capacity h <=? 0) || negb (Sized std) then h_Capacity h else
  let alloc := Allocatable h in
  let byCPU := fpos (std_CPUs std) && al_CPUsKnown alloc in
  let byMem := (0 <? std_MemoryMB std) && al_MemoryKnown alloc in
  let slots := h_Capacity h in
  let slots := if byCPU
               then Z.min slots (f64_to_int ((al_CPUs alloc + slotEpsilon) / std_CPUs std)%f64) else slots in
  let slots := if byMem then Z.min slots (al_MemoryMB alloc /% std_MemoryMB std) else slots in
  if negb (byCPU || byMem) then h_Capacity h else Z.max slots 0.

Definition EffectiveCapacity (h : Host) : Z :=
  let slots := Slots h in
  if (slots <=? 0) || negb (Throttle_Active (h_Throttle h)) then slots
  else Z.max 1 (f64_to_int (math_Floor (f64_of_Z slots * Throttle_Factor (h_Throttle h))%f64)).

Definition Host_Available (h : Host) (now : Time) : bool :=
  Healthy h now && negb (h_Cordoned h) && (h_ActiveRunners h <? EffectiveCapacity h).

Definition Host_Free (h : Host) : Z :=
  if h_Retired h then 0
  else let n := EffectiveCapacity h -% h_ActiveRunners h in if 0 <? n then n else 0.

Definition SelectorValue (h : Host) (key : string) : string :=
  match h_Labels h !! key with
  | Some v => v
  | None =>
      if str_eqb key LabelOS then h_OS h
      else if str_eqb key LabelArch then h_Arch h
      else if str_eqb key LabelSize then hsc_Class (h_SizeClass h)
      else ""
  end.

(** [EffectiveSizeClass]: the class, and whether an operator's label gave it. *)
Definition EffectiveSizeClass (h : Host) : string * bool :=
  match h_Labels h !! LabelSize with
  | Some v => if SizeClass_Valid v then (v, true) else ("", true)
  | None => (hsc_Class (h_SizeClass h), false)
  end.

(** ** Runners *)
Definition AllocationFromPool : string := "pool".
Definition AllocationFromHost : string := "host".
Definition AllocationReduced : string := "reduced".
Definition AllocationHistory : string := "history".
Definition AllocationFromProfile : string := "profile".

Definition SizedByHost (source : string) : bool :=
  str_eqb source AllocationFromHost || str_eqb source AllocationFromProfile.

Record Runner := {
  r_ID : string;
  r_PoolID : string;
  r_HostID : string;
  r_Name : string;
  r_Ephemeral : bool;
  r_State : RunnerState;
  r_Image : string;
  r_CurrentJobID : string;
  r_CreatedAt : Time;
  r_ContainerStartedAt : option Time;
  r_RegisteredAt : option Time;
  r_DrainingSince : option Time;
  r_StartedAt : option Time;
  r_LastIdleAt : option Time;
  r_FinishedAt : option Time;
  r_Message : string;
  r_JobsHandled : Z;
  r_AllocatedCPUs : float64;
  r_AllocatedMemoryMB : Z;
  r_AllocationSource : string;
  r_LentMemoryMB : Z;
  r_FaultKind : string
}.

Definition Runner_Age (r : Runner) (now : Time) : Duration := Time_Sub now (r_CreatedAt r).
Definition IdleFor (r : Runner) (now : Time) : Duration :=
  if negb (is_state (r_State r) RunnerIdle) then 0
  else match r_LastIdleAt r with None => 0 | Some t => Time_Sub now t end.

(** ** Jobs *)
Definition SizeBasisExplicit : string := "explicit".
Definition SizeBasisPin : string := "pin".
Definition SizeBasisHistory : string := "history".
Definition SizeBasisDefault : string := "default".

Record Job := {
  j_Provisioning : string;
  j_ProvisionNow : bool;
  j_ID : string;
  j_Repo : string;
  j_Workflow : string;
  j_JobName : string;
  j_Labels : list string;
  j_State : JobState;
  j_InstallationID : string;
  j_RunnerID : string;
  j_QueuedAt : Time;
  j_EligibleAt : option Time;
  j_SizeClass : string;
  j_SizeBasis : string;
  j_SizeFloorMB : Z;
  j_RoutedClass : string
}.

Record Installation := { i_ID : string; i_Target : string }.

(** Measured runs of a job (queries_job_usage.go, queries_size_routing.go). *)
Record JobPeak := {
  jp_CPUs : float64;
  jp_MemoryMB : Z;
  jp_OOMKilled : bool;
  jp_GrantedMemoryMB : Z
}.

Definition JobUsageKey : Type := string * string * string * string.
Definition JobUsageHistoryLimit : Z := 20.

Record JobRun := {
  run_CompletedAt : Time;
  run_Duration : Duration;
  run_PeakCPUs : float64;
  run_PeakMemoryMB : Z;
  run_GrantedCPUs : float64;
  run_GrantedMemoryMB : Z;
  run_OOMKilled : bool;
  run_CPUPeriods : Z;
  run_CPUThrottledPeriods : Z
}.

Definition JobRun_Throttled (r : JobRun) : option float64 :=
  if run_CPUPeriods r <=? 0 then None
  else Some (fmin (f64_of_Z 1) (f64_of_Z (run_CPUThrottledPeriods r) / f64_of_Z (run_CPUPeriods r))%f64).

Record SizePin := { pin_Repo : string; pin_Workflow : string; pin_JobName : string; pin_Class : string }.
Definition ForRepository (p : SizePin) : bool :=
  str_eqb (pin_Workflow p) "" && str_eqb (pin_JobName p) "".

Record JobClass := {
  jc_Repo : string;
  jc_Workflow : string;
  jc_JobName : string;
  jc_Class : string;
  jc_Reason : string;
  jc_Basis : string;
  jc_FloorMB : Z;
  jc_Runs : Z;
  jc_ComputedAt : Time;
  jc_MovedAt : Time
}.

(** A time written with [ms] and read back with [at]: whole milliseconds. *)
Definition at_ms (t : Time) : Time := Z.div t Millisecond * Millisecond.

(** The table of kept classes, by repository, workflow and job name. *)
Definition JobKey : Type := string * string * string.
Definition jc_key (c : JobClass) : JobKey := (jc_Repo c, jc_Workflow c, jc_JobName c).

Inductive PutError := NotASizeClass (class : string).

(** [PutJobClass] at a time: the table after it and the class it replaced, or the
    error for a class that is none. *)
Definition PutJobClass (table : gmap JobKey JobClass) (now : Time) (c : JobClass)
  : (gmap JobKey JobClass * string) + PutError :=
  if negb (SizeClass_Valid (jc_Class c)) then inr (NotASizeClass (jc_Class c)) else
  let '(previous, movedAt) :=
    match table !! jc_key c with
    | Some row => (jc_Class row, if str_eqb (jc_Class row) (jc_Class c) then jc_MovedAt row else now)
    | None => ("", now)
    end in
  inl (<[jc_key c := {| jc_Repo := jc_Repo c; jc_Workflow := jc_Workflow c; jc_JobName := jc_JobName c;
                        jc_Class := jc_Class c; jc_Reason := jc_Reason c; jc_Basis := jc_Basis c;
                        jc_FloorMB := Z.max (jc_FloorMB c) 0; jc_Runs := jc_Runs c;
                        jc_ComputedAt := at_ms now; jc_MovedAt := at_ms movedAt |}]> table, previous).
