(* ===== verification/StoreNames.v ===== *)
(** * Names the store makes (brand.go, ids.go, kennel.go, models.go)

    Runner names, machine names, secrets, the branding of labels and pool names, and the
    description of a pool or a host in the grammar of Names.v.  Random bytes and the word
    drawn from the kennel are arguments.  The theorems: the reaper knows every runner
    name by its start, and runners minted from different random bytes have different
    names, whatever their pools and hosts are called. *)
From Stdlib Require Import ZArith Lia Ascii String.
From stdpp Require Import base strings list.
From S2P Require Import Prelude GoFloat GoString GoText Naming Names Store.
Local Open Scope string_scope.
Local Open Scope list_scope.
Local Open Scope Z_scope.

(** ** Identifiers and secrets (ids.go) *)

(** [base32.NewEncoding] without padding: five bits to a letter, the last group filled
    up with zeros. *)
Definition base32_alphabet : list ascii := Eval vm_compute in chars "abcdefghijklmnopqrstuvwxyz234567".
Definition bits8 (b : Z) : list bool := Z.testbit b <$> [7; 6; 5; 4; 3; 2; 1; 0].
Definition letter (a b c d e : bool) : ascii :=
  let bit (x : bool) := if x then 1%nat else 0%nat in
  nth (16 * bit a + 8 * bit b + 4 * bit c + 2 * bit d + bit e) base32_alphabet "a"%char.
Fixpoint letters (l : list bool) : list ascii :=
  match l with
  | a :: b :: c :: d :: e :: l' => letter a b c d e :: letters l'
  | [] => []
  | [a] => [letter a false false false false]
  | [a; b] => [letter a b false false false]
  | [a; b; c] => [letter a b c false false]
  | [a; b; c; d] => [letter a b c d false]
  end.
Definition idEncoding (b : list Z) : string := text (letters (concat (bits8 <$> b))).

(** [NewSecret] and [NewID], of the random bytes they read. *)
Definition NewSecret (random : list Z) : string := idEncoding random.
Definition NewID (prefix : string) (random : list Z) : string := prefix +:+ "_" +:+ idEncoding random.

Definition generatedIDLength : Z := 13.
Definition LooksGenerated (id : string) : bool :=
  let '(_, rest, ok) := strings_Cut id "_" in
  ok && (strlen rest =? generatedIDLength) &&
  forallb (fun a => let c := byte_of a in ((97 <=? c) && (c <=? 122)) || ((50 <=? c) && (c <=? 55))) (chars rest).
Definition HasPrefix (id prefix : string) : bool := String.prefix (prefix +:+ "_") id.

(** ** The kennel (kennel.go) *)
Definition Kennel : list string :=
  ["banjo"; "biscuit"; "boogie"; "bramble"; "bubbles"; "cocoa"; "crumpet"; "custard"; "digby"; "disco"; "flapjack";
   "gizmo"; "hazel"; "jellybean"; "jitterbug"; "maple"; "marmalade"; "muffin"; "noodle"; "pancake"; "pepper"; "pickles";
   "popcorn"; "rascal"; "rocket"; "rusty"; "scampi"; "toffee"; "truffle"; "waffles"; "wiggles"; "ziggy"].
(** [KennelWord], of the index that was drawn. *)
Definition KennelWord (index : nat) : string := nth index Kennel "".

(** ** The description of a pool and a host (models.go) *)
Definition Pool_Spec (p : Pool) : Spec :=
  {| sp_CPUs := rs_CPUs (p_Resources p); sp_MemoryGB := rs_MemoryMB (p_Resources p) /% 1024;
     sp_OS := pl_OS (p_Platform p); sp_Version := pl_OSVersion (p_Platform p); sp_Arch := pl_Arch (p_Platform p); sp_Suffix := "" |}.
Definition Pool_CanonicalName (p : Pool) : string := PoolName (Pool_Spec p).

Definition Host_Spec (h : Host) : Spec :=
  let machine := match Parse (h_Name h) with Some parsed => sp_Suffix parsed | None => h_Name h end in
  let p := Host_Platform h in
  {| sp_CPUs := f64_of_Z (h_CPUs h); sp_MemoryGB := h_MemoryMB h /% 1024; sp_OS := pl_OS p; sp_Version := pl_OSVersion p;
     sp_Arch := pl_Arch p; sp_Suffix := machine |}.
Definition Host_CanonicalName (h : Host) : string := Spec_String (Host_Spec h).

(** ** Runner names (brand.go) *)
Definition runnerBase (p : option Pool) : string :=
  match p with
  | None => Brand
  | Some p => let spec := Pool_Spec p in if negb (Spec_Empty spec) then Spec_String spec else p_Name p
  end.

Definition NewRunnerName (index : nat) (random : list Z) (p : option Pool) : string :=
  RunnerName (runnerBase p) (KennelWord index +:+ "-" +:+ NewSecret random).

(** The part of a host's name a runner on it carries. *)
Definition hostPart (h : Host) : string :=
  HostSegment (match Parse (h_Name h) with Some parsed => sp_Suffix parsed | None => h_Name h end).

Definition NewRunnerNameOn (index : nat) (random : list Z) (p : option Pool) (h : option Host) : string :=
  match h with
  | None => NewRunnerName index random p
  | Some h =>
      let segment := hostPart h in
      if str_eqb segment "" then NewRunnerName index random p
      else RunnerName (runnerBase p) (segment +:+ "-" +:+ NewSecret random)
  end.

Definition IsRunnerName (name : string) : bool := String.prefix RunnerNamePrefix (NormalizeLabel name).

Definition MachineNamePrefix : string := "zoomies-mach-".
Definition NewMachineName (machineID : string) : string :=
  let '(_, fragment, ok) := strings_Cut machineID "_" in
  let fragment := if negb ok || str_eqb fragment "" then machineID else fragment in
  MachineNamePrefix +:+ SanitizeLabel fragment.
Definition IsMachineName (name : string) : bool := String.prefix MachineNamePrefix (NormalizeLabel name).

(** ** The brand on labels and pool names (brand.go) *)
Definition BrandLabels (labels : list string) : list string := NormalizeLabels (BrandLabel :: labels).

Definition IsBrandedName (name : string) : bool :=
  let s := NormalizeLabel name in str_eqb s Brand || String.prefix RunnerNamePrefix s.

(** [strings.TrimLeft] of dashes. *)
Definition BrandedName (name : string) : string :=
  let s := strings_TrimSpace name in
  if str_eqb s "" || IsBrandedName s then s
  else RunnerNamePrefix +:+ text (drop_byte "-" (chars s)).

Definition RunsOn (labels : list string) : string :=
  let specific := List.filter (fun l => negb (ImplicitLabels l || str_eqb l BrandLabel)) (NormalizeLabels labels) in
  match specific with
  | [l] => l
  | [] => if str_in BrandLabel (NormalizeLabels labels) then BrandLabel else "self-hosted"
  | _ => "[" +:+ strings_Join specific ", " +:+ "]"
  end.

Example NewSecret_1 : NewSecret [102; 111; 111; 98; 97] = "mzxw6ytb".
Proof. vm_compute. reflexivity. Qed.
Example NewSecret_2 : LooksGenerated (NewID "pool" [1; 2; 3; 4; 5; 6; 7; 8]) = true.
Proof. vm_compute. reflexivity. Qed.
Example RunsOn_1 : RunsOn ["linux"; "gpu"; "Zoomies"] = "gpu".
Proof. vm_compute. reflexivity. Qed.

(** ** Secrets *)
Lemma letter_alnum a b c d e : alnum (letter a b c d e).
Proof. by destruct a, b, c, d, e. Qed.

(** The bits a letter stands for. *)
Definition unletter (x : ascii) : list bool :=
  let i := default 0%nat (fst <$> list_find (fun y => y = x) base32_alphabet) in Z.testbit (Z.of_nat i) <$> [4; 3; 2; 1; 0].

Lemma unletter_letter a b c d e : unletter (letter a b c d e) = [a; b; c; d; e].
Proof. by destruct a, b, c, d, e. Qed.

Lemma letter_inj a b c d e a' b' c' d' e' :
  letter a b c d e = letter a' b' c' d' e' -> a = a' /\ b = b' /\ c = c' /\ d = d' /\ e = e'.
Proof. intros H%(f_equal unletter). rewrite !unletter_letter in H. by injection H. Qed.

(** Five random bytes. *)
Definition entropy (r : list Z) : Prop := length r = 5%nat /\ Forall (fun b => 0 <= b < 256) r.

Lemma bits8_inj b b' : 0 <= b < 256 -> 0 <= b' < 256 -> bits8 b = bits8 b' -> b = b'.
Proof.
  intros Hb Hb' E. unfold bits8 in E. cbn [fmap list_fmap] in E. injection E as E7 E6 E5 E4 E3 E2 E1 E0.
  apply Z.bits_inj'. intros n Hn. destruct (Z.lt_ge_cases n 8) as [Hl|Hl].
  - destruct n as [|p|p]; [done| |lia]. do 3 (destruct p as [p|p|]; try done). all: lia.
  - assert (Hz : forall x, 0 <= x < 256 -> Z.testbit x n = false).
    { intros x Hx. destruct (Z.eq_dec x 0) as [->|]; [apply Z.bits_0|]. apply Z.bits_above_log2; [lia|].
      eapply Z.lt_le_trans; [apply (proj1 (Z.log2_lt_pow2 x 8 ltac:(lia))); simpl; lia|done]. }
    by rewrite !Hz.
Qed.

Lemma NewSecret_word r : entropy r -> word (chars (NewSecret r)) /\ length (chars (NewSecret r)) = 8%nat.
Proof.
  intros [Hl _]. destruct r as [|b0 [|b1 [|b2 [|b3 [|b4 [|? ?]]]]]]; try done. clear Hl.
  unfold NewSecret, idEncoding. rewrite chars_text. unfold bits8. cbn [fmap list_fmap concat app letters].
  split; [|done]. split; [done|]. repeat (constructor; [apply letter_alnum|]). constructor.
Qed.

Lemma letters_inj n l l' :
  length l = (5 * n)%nat -> length l' = (5 * n)%nat -> letters l = letters l' -> l = l'.
Proof.
  revert l l'. induction n as [|n IH]; intros l l' Hl Hl' E; [by destruct l, l'|].
  destruct l as [|a [|b [|c [|d [|e l]]]]]; simpl in Hl; try lia.
  destruct l' as [|a' [|b' [|c' [|d' [|e' l']]]]]; simpl in Hl'; try lia.
  cbn [letters] in E. apply (f_equal (fun l => (head l, tail l))) in E. cbn [head tail] in E.
  assert (letter a b c d e = letter a' b' c' d' e' /\ letters l = letters l') as [E1 E2] by (split; congruence).
  apply letter_inj in E1 as (-> & -> & -> & -> & ->). by rewrite (IH l l') by (done || lia).
Qed.

Lemma NewSecret_inj r r' : entropy r -> entropy r' -> NewSecret r = NewSecret r' -> r = r'.
Proof.
  intros [Hl Hr] [Hl' Hr'] E. apply (f_equal chars) in E. unfold NewSecret, idEncoding in E. rewrite !chars_text in E.
  assert (Hlen : forall r, length (concat (bits8 <$> r)) = (8 * length r)%nat).
  { clear. induction r as [|b r IH]; [done|]. rewrite fmap_cons. cbn [concat]. rewrite length_app, IH. simpl. lia. }
  apply (letters_inj 8) in E; [|by rewrite Hlen, Hl|by rewrite Hlen, Hl'].
  assert (Hl2 : length r = length r') by lia. clear Hl Hl' Hlen. revert r' Hr' E Hl2.
  induction Hr as [|b r Hb Hr IH]; intros [|b' r'] Hr' E Hl; try done. apply Forall_cons in Hr' as [Hb' Hr'].
  rewrite !fmap_cons in E. cbn [concat] in E. apply app_inj_1 in E as [E1 E2]; [|done].
  f_equal; [by apply bits8_inj|]. apply IH; [done|done|]. simpl in Hl. lia.
Qed.

(** ** The word before the secret *)
Lemma HostSegment_words m : exists ws, Forall word ws /\ chars (HostSegment m) = joined "-" ws /\ strlen (HostSegment m) <= MaxHostSegment.
Proof.
  destruct (Slug_words m) as (ws & Hw & E). unfold HostSegment. destruct (Z.leb_spec (strlen (Slug m)) MaxHostSegment) as [|Hlong]; [by exists ws|].
  assert (Hn : ws <> []).
  { intros ->. rewrite strlen_chars, E in Hlong. unfold MaxHostSegment in Hlong. cbn in Hlong. lia. }
  rewrite (Split_words _ ws Hn Hw E).
  destruct (drop_parts_spec (length (text <$> ws)) MaxHostSegment (text <$> ws)) as (k & _ & -> & _).
  { intros E'%(f_equal length). rewrite length_fmap in E'. by destruct ws. }
  rewrite <- fmap_take. set (kept := take k ws). assert (Hk : Forall word kept) by by apply Forall_take.
  assert (Ej : strings_Join (text <$> kept) "-" = text (joined "-" kept)) by (apply chars_inj; by rewrite chars_Join, chars_text).
  rewrite Ej. unfold truncateTo. destruct (Z.leb_spec (strlen (text (joined "-" kept))) MaxHostSegment).
  - exists kept. split; [done|]. split; [rewrite TrimRight_chars, chars_text; by apply trim_words|]. etrans; [apply TrimRight_length|done].
  - destruct (cut_words kept MaxHostSegment Hk) as (ws' & Hw' & E'). exists ws'. split; [done|]. split; [done|].
    etrans; [apply TrimRight_length|]. etrans; [apply str_take_length|]. unfold MaxHostSegment. lia.
Qed.

Lemma KennelWord_word i : (i < length Kennel)%nat -> word (chars (KennelWord i)) /\ strlen (KennelWord i) <= MaxHostSegment.
Proof.
  intros Hi. assert (H : Forall (fun w => word (chars w) /\ strlen w <= MaxHostSegment) Kennel).
  { repeat (constructor; [split; [split; [done|repeat constructor]|by vm_compute]|]). constructor. }
  rewrite Forall_forall in H. apply H, list_elem_of_In, nth_In. done.
Qed.

(** A discriminator of words and a secret is kept whole. *)
Lemma tail_whole first ws r :
  Forall word ws -> ws <> [] -> chars first = joined "-" ws -> strlen first <= MaxHostSegment -> entropy r ->
  runnerTail (first +:+ "-" +:+ NewSecret r) = first +:+ "-" +:+ NewSecret r.
Proof.
  intros Hw Hn E Hl Hr. destruct (NewSecret_word r Hr) as [Hs H8]. set (d := first +:+ "-" +:+ NewSecret r).
  assert (Ed : d = text (joined "-" (ws ++ [chars (NewSecret r)]))).
  { apply chars_inj. rewrite chars_text, joined_snoc by done. unfold d. by rewrite !chars_app, E. }
  assert (Hslug : Slug d = d).
  { rewrite Ed. apply Slug_fixed, Forall_app. split; [done|by apply Forall_singleton]. }
  unfold runnerTail. rewrite Hslug. destruct (Z.ltb_spec (MaxNameLength - strlen Prefix - 1) (strlen d)) as [Hlt|]; [|done].
  unfold d in Hlt. rewrite !strlen_app, (strlen_chars (NewSecret r)), H8 in Hlt. unfold MaxHostSegment in Hl.
  change (MaxNameLength - strlen Prefix - 1) with 56 in Hlt. change (strlen "-") with 1 in Hlt. lia.
Qed.

(** ** Runner names *)

(** Every name ends with a dash and its secret. *)
Lemma runner_name_shape i r p h :
  (i < length Kennel)%nat -> entropy r ->
  exists d first, NewRunnerNameOn i r p h = RunnerName (runnerBase p) d /\ runnerTail d = first +:+ "-" +:+ NewSecret r.
Proof.
  intros Hi Hr. destruct (KennelWord_word i Hi) as [Hk Hkl].
  assert (Hkt : runnerTail (KennelWord i +:+ "-" +:+ NewSecret r) = KennelWord i +:+ "-" +:+ NewSecret r).
  { apply (tail_whole _ [chars (KennelWord i)]); [by apply Forall_singleton|done|simpl; by rewrite app_nil_r|done|done]. }
  destruct h as [h|]; [|by eexists _, _]. unfold NewRunnerNameOn, hostPart, str_eqb. set (m := match Parse _ with Some _ => _ | None => _ end).
  destruct (HostSegment_words m) as (ws & Hw & E & Hl). case_bool_decide as E0; [by eexists _, _|].
  eexists _, _. split; [done|]. apply (tail_whole _ ws); [done| |done|done|done]. intros ->. apply E0, chars_inj. by rewrite E.
Qed.

(** Names in lower case are normalised already. *)
Lemma NormalizeLabel_slug s : Slug s = s -> NormalizeLabel s = s.
Proof.
  intros E. destruct (Slug_words s) as (ws & Hw & Es). rewrite E in Es. unfold NormalizeLabel.
  rewrite <- (text_chars s), Es. apply slug_plain. by eapply slug_from_chars, slug_from_words.
Qed.

Lemma prefix_app a b : String.prefix a (a +:+ b) = true.
Proof. induction a as [|c a IH]; simpl; [by destruct b|]. by destruct (ascii_dec c c). Qed.

(** A runner's name is within GitHub's 64 characters, is one the reaper
    knows as the fleet's, and is never the name of a runner minted from other random
    bytes, whatever the pools, the hosts and the words are. *)
Theorem runner_names_distinct (i : nat) (r : list Z) (p : option Pool) (h : option Host) :
  (i < length Kennel)%nat -> entropy r ->
  let name := NewRunnerNameOn i r p h in
  strlen name <= MaxNameLength /\ IsRunnerName name = true /\
  forall i' r' p' h', (i' < length Kennel)%nat -> entropy r' -> NewRunnerNameOn i' r' p' h' = name -> r' = r.
Proof.
  intros Hi Hr. cbv zeta. destruct (runner_name_shape i r p h Hi Hr) as (d & first & E & Et). rewrite E.
  destruct (RunnerName_shape (runnerBase p) d) as (H1 & H2 & H3 & H4).
  assert (Hte : runnerTail d <> "") by (rewrite Et; by destruct first).
  destruct (H4 Hte) as [start Hs]. split_and!; [exact H1| |].
  - unfold IsRunnerName. rewrite NormalizeLabel_slug by done. destruct H3 as [E3|[rest E3]].
    + exfalso. rewrite Hs, Et in E3. apply (f_equal strlen) in E3. rewrite !strlen_app in E3. destruct (NewSecret_word r Hr) as [_ H8].
      rewrite (strlen_chars (NewSecret r)), H8 in E3. change (strlen "-") with 1 in E3. change (strlen Prefix) with 7 in E3.
      rewrite !strlen_chars in E3. lia.
    + rewrite E3. change (Prefix +:+ "-" +:+ rest) with (RunnerNamePrefix +:+ rest). apply prefix_app.
  - intros i' r' p' h' Hi' Hr' En. destruct (runner_name_shape i' r' p' h' Hi' Hr') as (d' & first' & E' & Et').
    destruct (RunnerName_shape (runnerBase p') d') as (_ & _ & _ & H4').
    assert (Hte' : runnerTail d' <> "") by (rewrite Et'; by destruct first'). destruct (H4' Hte') as [start' Hs'].
    rewrite E', Hs', Hs, Et, Et' in En. apply (f_equal chars) in En. rewrite !chars_app, !app_assoc in En.
    apply app_inj_2 in En as [_ En]; [|rewrite (proj2 (NewSecret_word r' Hr')), (proj2 (NewSecret_word r Hr)); done].
    by apply NewSecret_inj; [| |apply chars_inj].
Qed.
