(* ===== verification/Lifecycle.v ===== *)
(** * The runner lifecycle

    [Store.transitionRunner] (internal/store/queries_fleet.go) moves a runner's
    state: it checks the move against the allow-list, refuses one that would stop a
    job where the caller asked it to, and stamps the times that belong to the new
    state.  [StartRunnerJob] and [CompleteRunnerJob] move it on GitHub's word that a
    job began or ended.  Each acts on the table of runners, as one transaction.  The invariant [runner_wf] is what the scheduler's timeouts rely
    on: a draining row has a drain clock, a terminal row the moment it ended, an
    idle row the moment it became idle. *)
From Stdlib Require Import ZArith Lia String.
From stdpp Require Import base strings list gmap relations.
From S2P Require Import Prelude GoFloat GoString Store.
Local Open Scope string_scope.
Local Open Scope list_scope.
Local Open Scope Z_scope.

Inductive TransitionError :=
  | ErrNotFound
  | ErrInvalidTransition (why : string).

(** The columns a transition writes; the others are copied. *)
Definition r_with_lifecycle (r : Runner) (state : RunnerState) (message currentJobID : string)
    (registeredAt startedAt lastIdleAt drainingSince finishedAt : option Time)
    (jobsHandled : Z) (faultKind : string) : Runner :=
  {| r_ID := r_ID r; r_PoolID := r_PoolID r; r_HostID := r_HostID r; r_Name := r_Name r; r_Ephemeral := r_Ephemeral r; r_State := state; r_Image := r_Image r;
     r_CurrentJobID := currentJobID; r_CreatedAt := r_CreatedAt r; r_ContainerStartedAt := r_ContainerStartedAt r;
     r_RegisteredAt := registeredAt; r_DrainingSince := drainingSince; r_StartedAt := startedAt;
     r_LastIdleAt := lastIdleAt; r_FinishedAt := finishedAt; r_Message := message; r_JobsHandled := jobsHandled;
     r_AllocatedCPUs := r_AllocatedCPUs r; r_AllocatedMemoryMB := r_AllocatedMemoryMB r;
     r_AllocationSource := r_AllocationSource r; r_LentMemoryMB := r_LentMemoryMB r; r_FaultKind := faultKind |}.

(** The value a nil pointer is given, and a set one keeps. *)
Definition or_now (t : option Time) (now : Time) : option Time :=
  match t with None => Some now | Some _ => t end.

(** The row after a legal move to [to] at [now]. *)
Definition stamp (r : Runner) (to : RunnerState) (message kind : string) (now : Time) : Runner :=
  let prev := r_State r in
  let message := if str_eqb message "" then r_Message r else message in
  let fault := if nonempty kind && is_state to RunnerFailed then kind else r_FaultKind r in
  match to with
  | RunnerIdle =>
      r_with_lifecycle r to message "" (or_now (r_RegisteredAt r) now) (or_now (r_StartedAt r) now)
        (if is_state prev RunnerIdle then r_LastIdleAt r else Some now)
        (r_DrainingSince r) (r_FinishedAt r)
        (if is_state prev RunnerBusy then r_JobsHandled r +% 1 else r_JobsHandled r) fault
  | RunnerBusy =>
      r_with_lifecycle r to message (r_CurrentJobID r) (or_now (r_RegisteredAt r) now)
        (or_now (r_StartedAt r) now) None (r_DrainingSince r) (r_FinishedAt r) (r_JobsHandled r) fault
  | RunnerDraining =>
      r_with_lifecycle r to message (r_CurrentJobID r) (r_RegisteredAt r) (r_StartedAt r) (r_LastIdleAt r)
        (if is_state prev RunnerDraining then r_DrainingSince r else Some now)
        (r_FinishedAt r) (r_JobsHandled r) fault
  | RunnerRemoved | RunnerFailed =>
      r_with_lifecycle r to message "" (r_RegisteredAt r) (r_StartedAt r) (r_LastIdleAt r) (r_DrainingSince r)
        (if is_state prev to then r_FinishedAt r else Some now) (r_JobsHandled r) fault
  | RunnerProvisioning | RunnerRegistering =>
      r_with_lifecycle r to message (r_CurrentJobID r) (r_RegisteredAt r) (r_StartedAt r) (r_LastIdleAt r)
        (r_DrainingSince r) (r_FinishedAt r) (r_JobsHandled r) fault
  end.

Definition runner_busy (r : Runner) : bool := is_state (r_State r) RunnerBusy || nonempty (r_CurrentJobID r).

Definition cannot_go (r : Runner) (id : string) (to : RunnerState) : string :=
  "runner " +:+ id +:+ " cannot go " +:+ RunnerState_string (r_State r) +:+ " -> " +:+ RunnerState_string to.
Definition running_a_job (r : Runner) (id : string) (to : RunnerState) : string :=
  "runner " +:+ id +:+ " is running a job, so it cannot go " +:+
  RunnerState_string (r_State r) +:+ " -> " +:+ RunnerState_string to +:+ " now".

(** [transitionRunner]: the row as it now stands and the table it stands in, or
    the error, in which case nothing was written. *)
Definition transitionRunner (tbl : gmap string Runner) (id : string) (to : RunnerState)
    (message kind : string) (unlessBusy : bool) (now : Time)
  : TransitionError + (Runner * gmap string Runner) :=
  match tbl !! id with
  | None => inl ErrNotFound
  | Some r =>
      if negb (CanTransition (r_State r) to) then inl (ErrInvalidTransition (cannot_go r id to))
      else if unlessBusy && runner_busy r then inl (ErrInvalidTransition (running_a_job r id to))
      else let r' := stamp r to message kind now in inr (r', <[id:=r']> tbl)
  end.

Definition TransitionRunner tbl id to message now := transitionRunner tbl id to message "" false now.
Definition TransitionRunnerUnlessBusy tbl id to message now := transitionRunner tbl id to message "" true now.

Definition recordedFault (kind : string) : string :=
  let kind := FaultKind_Normalise kind in if str_eqb kind "" then FaultRunnerExited else kind.
Definition FailRunner tbl id message kind now :=
  transitionRunner tbl id RunnerFailed message (recordedFault kind) false now.
Definition FailRunnerUnlessBusy tbl id message kind now :=
  transitionRunner tbl id RunnerFailed message (recordedFault kind) true now.

(** [StartRunnerJob]: the row, the table, and whether it changed. *)
Definition started (r : Runner) (jobID message : string) (now : Time) : Runner :=
  match r_State r with
  | RunnerProvisioning | RunnerRegistering | RunnerIdle =>
      r_with_lifecycle r RunnerBusy (if str_eqb message "" then r_Message r else message) jobID (or_now (r_RegisteredAt r) now)
        (or_now (r_StartedAt r) now) None (r_DrainingSince r) (r_FinishedAt r) (r_JobsHandled r) (r_FaultKind r)
  | state =>
      r_with_lifecycle r state (r_Message r) jobID (r_RegisteredAt r) (r_StartedAt r) (r_LastIdleAt r) (r_DrainingSince r)
        (r_FinishedAt r) (r_JobsHandled r) (r_FaultKind r)
  end.
Definition StartRunnerJob (tbl : gmap string Runner) (id jobID message : string) (now : Time)
  : TransitionError + (Runner * gmap string Runner * bool) :=
  match tbl !! id with
  | None => inl ErrNotFound
  | Some r =>
      if Terminal (r_State r) then inr (r, tbl, false)
      else if (is_state (r_State r) RunnerBusy || is_state (r_State r) RunnerDraining) && nonempty (r_CurrentJobID r)
      then inr (r, tbl, false)
      else let r' := started r jobID message now in inr (r', <[id:=r']> tbl, true)
  end.

(** [CompleteRunnerJob]; [linked] is whether the jobs table has the job as a completed
    one of this runner. *)
Definition completed (r : Runner) (message : string) (now : Time) : Runner :=
  r_with_lifecycle r (if r_Ephemeral r then RunnerRemoved else if is_state (r_State r) RunnerDraining then RunnerDraining else RunnerIdle)
    message "" (r_RegisteredAt r) (r_StartedAt r)
    (if r_Ephemeral r || is_state (r_State r) RunnerDraining then r_LastIdleAt r else Some now)
    (r_DrainingSince r) (if r_Ephemeral r then Some now else r_FinishedAt r) (r_JobsHandled r +% 1) (r_FaultKind r).
Definition assigned (r : Runner) (jobID : string) : bool :=
  str_eqb (r_CurrentJobID r) jobID && (is_state (r_State r) RunnerBusy || is_state (r_State r) RunnerDraining).
Definition missedStart (r : Runner) (linked : bool) : bool :=
  r_Ephemeral r && str_eqb (r_CurrentJobID r) "" && (r_JobsHandled r =? 0) &&
  (is_state (r_State r) RunnerProvisioning || is_state (r_State r) RunnerRegistering || is_state (r_State r) RunnerIdle) && linked.
Definition CompleteRunnerJob (tbl : gmap string Runner) (id jobID message : string) (linked : bool) (now : Time)
  : TransitionError + (Runner * gmap string Runner * bool) :=
  match tbl !! id with
  | None => inl ErrNotFound
  | Some r =>
      if negb (assigned r jobID) && negb (missedStart r linked) then inr (r, tbl, false)
      else let r' := completed r message now in inr (r', <[id:=r']> tbl, true)
  end.

(** A row as [CreateRunner] writes it: provisioning, with no job and no lifecycle time. *)
Definition fresh_row (r : Runner) : Prop :=
  r_State r = RunnerProvisioning /\ r_CurrentJobID r = "" /\ r_RegisteredAt r = None /\ r_StartedAt r = None /\
  r_LastIdleAt r = None /\ r_DrainingSince r = None /\ r_FinishedAt r = None.

(** One committed transaction on the table: a move by any of the four entry points, a
    job GitHub says has started or ended, a new row. *)
Inductive tstep (tbl : gmap string Runner) : gmap string Runner -> Prop :=
  | tstep_start id jobID message now r' tbl' changed :
      jobID <> "" -> StartRunnerJob tbl id jobID message now = inr (r', tbl', changed) -> tstep tbl tbl'
  | tstep_complete id jobID message linked now r' tbl' changed :
      jobID <> "" -> CompleteRunnerJob tbl id jobID message linked now = inr (r', tbl', changed) -> tstep tbl tbl'
  | tstep_transition id to message kind ub now r' tbl' :
      transitionRunner tbl id to message kind ub now = inr (r', tbl') -> tstep tbl tbl'
  | tstep_create id r :
      tbl !! id = None -> fresh_row r -> tstep tbl (<[id:=r]> tbl).

Definition reachable (tbl : gmap string Runner) : Prop := rtc tstep ∅ tbl.

(** ** The invariant *)
Definition runner_wf (r : Runner) : Prop :=
  match r_State r with
  | RunnerProvisioning | RunnerRegistering => r_CurrentJobID r = "" /\ r_DrainingSince r = None /\ r_FinishedAt r = None
  | RunnerIdle =>
      is_Some (r_RegisteredAt r) /\ is_Some (r_StartedAt r) /\ is_Some (r_LastIdleAt r) /\
      r_CurrentJobID r = "" /\ r_DrainingSince r = None /\ r_FinishedAt r = None
  | RunnerBusy =>
      is_Some (r_RegisteredAt r) /\ is_Some (r_StartedAt r) /\ r_LastIdleAt r = None /\
      r_DrainingSince r = None /\ r_FinishedAt r = None
  | RunnerDraining => is_Some (r_DrainingSince r) /\ r_FinishedAt r = None
  | RunnerRemoved | RunnerFailed => is_Some (r_FinishedAt r) /\ r_CurrentJobID r = ""
  end.

Definition table_wf (tbl : gmap string Runner) : Prop := map_Forall (fun _ r => runner_wf r) tbl.

Lemma or_now_some t now : is_Some (or_now t now).
Proof. destruct t; simpl; eauto. Qed.
#[local] Hint Resolve or_now_some : core.

Lemma stamp_state r to message kind now : r_State (stamp r to message kind now) = to.
Proof. by destruct to. Qed.

Lemma stamp_wf r to message kind now :
  CanTransition (r_State r) to = true -> runner_wf r -> runner_wf (stamp r to message kind now).
Proof.
  unfold runner_wf. intros Hc Hw. rewrite stamp_state.
  destruct (r_State r) eqn:E, to; try (by vm_compute in Hc);
    unfold stamp, is_state; rewrite ?E; simpl; naive_solver.
Qed.

Lemma transition_inv tbl id to message kind ub now r' tbl' :
  transitionRunner tbl id to message kind ub now = inr (r', tbl') ->
  exists r : Runner, tbl !! id = Some r /\ CanTransition (r_State r) to = true /\
            (ub = true -> runner_busy r = false) /\
            r' = stamp r to message kind now /\ tbl' = <[id:=r']> tbl.
Proof.
  unfold transitionRunner. destruct (tbl !! id) as [r|] eqn:E; [|done].
  destruct (CanTransition (r_State r) to) eqn:C; simpl; [|done].
  destruct (ub && runner_busy r) eqn:B; [done|]. intros [= <- <-]. exists r.
  repeat split; try done. intros ->. done.
Qed.

Lemma fresh_wf r : fresh_row r -> runner_wf r.
Proof. intros (E & ? & ? & ? & ? & ? & ?). unfold runner_wf. by rewrite E. Qed.

Lemma start_inv tbl id jobID message now r' tbl' changed :
  StartRunnerJob tbl id jobID message now = inr (r', tbl', changed) ->
  exists r : Runner, tbl !! id = Some r /\
    (tbl' = tbl /\ r' = r /\ changed = false /\ (Terminal (r_State r) = true \/ r_CurrentJobID r <> "") \/
     Terminal (r_State r) = false /\ (r_State r ∈ [RunnerBusy; RunnerDraining] -> r_CurrentJobID r = "") /\
     r' = started r jobID message now /\ tbl' = <[id:=r']> tbl /\ changed = true).
Proof.
  unfold StartRunnerJob. destruct (tbl !! id) as [r|] eqn:E; [|done]. intros H. exists r. split; [done|].
  destruct (Terminal (r_State r)) eqn:Et; [injection H as <- <- <-; left; tauto|].
  destruct (_ && nonempty _) eqn:Eb; injection H as <- <- <-.
  - left. split_and!; [done..|]. right. apply andb_true_iff in Eb as [_ Eb]. unfold nonempty, str_eqb in Eb. by bool_to_prop.
  - right. split_and!; [done| |done..]. intros Hs. apply andb_false_iff in Eb as [Eb|Eb].
    + unfold is_state in Eb. bool_to_prop. exfalso. set_solver.
    + unfold nonempty, str_eqb in Eb. by bool_to_prop.
Qed.

Lemma complete_inv tbl id jobID message linked now r' tbl' changed :
  CompleteRunnerJob tbl id jobID message linked now = inr (r', tbl', changed) ->
  exists r : Runner, tbl !! id = Some r /\
    (tbl' = tbl /\ r' = r /\ changed = false /\ assigned r jobID = false \/
     (assigned r jobID || missedStart r linked = true) /\ r' = completed r message now /\ tbl' = <[id:=r']> tbl /\ changed = true).
Proof.
  unfold CompleteRunnerJob. destruct (tbl !! id) as [r|] eqn:E; [|done]. intros H. exists r. split; [done|].
  destruct (assigned r jobID) eqn:Ea; simpl in H; [injection H as <- <- <-; right; tauto|].
  destruct (missedStart r linked); simpl in H; injection H as <- <- <-; [right; tauto|left; tauto].
Qed.

Lemma started_wf r jobID message now :
  Terminal (r_State r) = false -> runner_wf r -> runner_wf (started r jobID message now).
Proof. unfold runner_wf, started. intros Ht Hw. destruct (r_State r) eqn:E; simpl in *; try done; naive_solver. Qed.

Lemma assigned_state r jobID : assigned r jobID = true -> r_State r = RunnerBusy \/ r_State r = RunnerDraining.
Proof. unfold assigned, is_state. intros H. apply andb_true_iff in H as [_ H]. apply orb_true_iff in H as [H|H]; bool_to_prop; auto. Qed.

Lemma missedStart_ephemeral r linked : missedStart r linked = true ->
  r_Ephemeral r = true /\ (r_State r = RunnerProvisioning \/ r_State r = RunnerRegistering \/ r_State r = RunnerIdle).
Proof.
  unfold missedStart, is_state. intros H. rewrite !andb_true_iff, !orb_true_iff in H. destruct H as ((((He & _) & _) & Hs) & _).
  split; [done|]. destruct Hs as [[Hs|Hs]|Hs]; bool_to_prop; auto.
Qed.

Lemma completed_wf r jobID linked message now :
  assigned r jobID || missedStart r linked = true -> runner_wf r -> runner_wf (completed r message now).
Proof.
  intros H Hw. unfold completed, runner_wf, is_state in *. destruct (r_Ephemeral r) eqn:Ee; simpl; [eauto|].
  apply orb_true_iff in H as [H|H]; [|by apply missedStart_ephemeral in H as [? _]; congruence].
  apply assigned_state in H as [E|E]; rewrite E in *; simpl; naive_solver.
Qed.

(** What one transaction makes of a row. *)
Definition moved (r r' : Runner) : Prop :=
  r' = r \/ (exists to message kind now, CanTransition (r_State r) to = true /\ r' = stamp r to message kind now) \/
  (exists jobID message now, jobID <> "" /\ Terminal (r_State r) = false /\ (r_State r ∈ [RunnerBusy; RunnerDraining] -> r_CurrentJobID r = "") /\
     r' = started r jobID message now) \/
  (exists jobID linked message now, jobID <> "" /\ assigned r jobID || missedStart r linked = true /\ r' = completed r message now).

Lemma moved_wf r r' : moved r r' -> runner_wf r -> runner_wf r'.
Proof.
  intros [->|[(to & m & k & now & Hc & ->)|[(j & m & now & _ & Ht & _ & ->)|(j & l & m & now & _ & Ha & ->)]]];
    [done|by apply stamp_wf|by apply started_wf|by eapply completed_wf].
Qed.

(** A step keeps every row, and moves at most one of them; a row it adds is fresh. *)
Lemma tstep_row (tbl tbl' : gmap string Runner) :
  tstep tbl tbl' -> forall id,
  match tbl !! id, tbl' !! id with
  | Some r, Some r' => moved r r'
  | Some _, None => False
  | None, Some r' => fresh_row r'
  | None, None => True
  end.
Proof.
  assert (Hsame : forall id, match tbl !! id, tbl !! id with Some r, Some r' => moved r r' | Some _, None => False
                             | None, Some r' => fresh_row r' | None, None => True end)
    by (intros id; destruct (tbl !! id); [by left|done]).
  assert (Hins : forall id0 r r', tbl !! id0 = Some r -> moved r r' -> forall id,
    match tbl !! id, <[id0:=r']> tbl !! id with Some r, Some r' => moved r r' | Some _, None => False
    | None, Some r' => fresh_row r' | None, None => True end).
  { intros id0 r r' Hl Hm id. destruct (decide (id0 = id)) as [->|Hne]; [by rewrite lookup_insert_eq, Hl|].
    rewrite lookup_insert_ne by done. apply Hsame. }
  intros Hst. destruct Hst as [id0 j m now r' t' ch Hj H|id0 j m l now r' t' ch Hj H|id0 to m k ub now r' t' H|id0 r Hn Hf].
  - apply start_inv in H as (r & Hl & [(-> & _)|(Ht & Hb & -> & -> & _)]); [done|].
    apply (Hins id0 r); [done|]. right. right. left. by exists j, m, now.
  - apply complete_inv in H as (r & Hl & [(-> & _)|(Ha & -> & -> & _)]); [done|].
    apply (Hins id0 r); [done|]. right. right. right. by exists j, l, m, now.
  - apply transition_inv in H as (r & Hl & Hc & _ & -> & ->). apply (Hins id0 r); [done|]. right. left. by exists to, m, k, now.
  - intros id. destruct (decide (id0 = id)) as [->|Hne]; [by rewrite lookup_insert_eq, Hn|]. rewrite lookup_insert_ne by done. apply Hsame.
Qed.

Lemma tstep_wf tbl tbl' : tstep tbl tbl' -> table_wf tbl -> table_wf tbl'.
Proof.
  intros Hst Hw id r' Hl. pose proof (tstep_row tbl tbl' Hst id) as H. rewrite Hl in H.
  destruct (tbl !! id) as [r|] eqn:E; [|by apply fresh_wf]. eapply moved_wf; [done|]. by apply (Hw id).
Qed.

Lemma reachable_ind_wf tbl : reachable tbl -> table_wf tbl.
Proof.
  intros H. assert (H0 : table_wf ∅) by apply map_Forall_empty.
  revert H0. induction H as [|x y z Hs Hr IH]; [done|]. intros Hw. apply IH. by eapply tstep_wf.
Qed.

Lemma tstep_keeps tbl tbl' id (r : Runner) :
  tstep tbl tbl' -> tbl !! id = Some r -> exists r' : Runner, tbl' !! id = Some r' /\ moved r r'.
Proof. intros Hst Hl. pose proof (tstep_row tbl tbl' Hst id) as H. rewrite Hl in H. destruct (tbl' !! id) as [r'|]; [by exists r'|done]. Qed.

Lemma moved_drains r r' : moved r r' -> r_State r ∈ [RunnerDraining; RunnerFailed; RunnerRemoved] ->
  r_State r' ∈ [RunnerDraining; RunnerFailed; RunnerRemoved] /\ r_DrainingSince r' = r_DrainingSince r.
Proof.
  intros [->|[(to & m & k & now & Hc & ->)|[(j & m & now & _ & Ht & _ & ->)|(j & l & m & now & _ & Ha & ->)]]] Hin; [done| | |].
  - rewrite stamp_state. destruct (r_State r) eqn:E, to; try (by vm_compute in Hc); try (exfalso; clear -Hin; set_solver);
      (split; [set_solver|]); unfold stamp, is_state; by rewrite ?E.
  - unfold started. destruct (r_State r) eqn:E; try (exfalso; clear -Hin; set_solver); simpl; split; try done; set_solver.
  - unfold completed. simpl. split; [|done]. apply orb_true_iff in Ha as [Ha|Ha].
    + apply assigned_state in Ha as [E|E]; rewrite E in *; [exfalso; clear -Hin; set_solver|]. destruct (r_Ephemeral r); simpl; set_solver.
    + apply missedStart_ephemeral in Ha as [-> _]. set_solver.
Qed.

Lemma moved_terminal r r' : moved r r' -> Terminal (r_State r) = true ->
  Terminal (r_State r') = true /\ (r_State r = RunnerRemoved -> r_State r' = RunnerRemoved).
Proof.
  intros [->|[(to & m & k & now & Hc & ->)|[(j & m & now & _ & Hn & _ & ->)|(j & l & m & now & _ & Ha & ->)]]] Ht; [done| |congruence|].
  - rewrite stamp_state. by destruct (r_State r) eqn:E, to; vm_compute in Ht, Hc |- *.
  - exfalso. apply orb_true_iff in Ha as [Ha|Ha]; [apply assigned_state in Ha|apply missedStart_ephemeral in Ha as [_ Ha]];
      destruct (r_State r); naive_solver.
Qed.

(** ** Properties *)

(** C10: Every table of runners that can be reached from the empty one by creating
    rows and moving them is well formed: a draining row has its drain clock, an
    idle one the moment it became idle, a terminal one the moment it ended and no
    job on it. *)
Theorem lifecycle_invariant tbl : reachable tbl -> table_wf tbl.
Proof. apply reachable_ind_wf. Qed.

(** A drain is one way and its clock is set once: whatever is committed after a
    runner started draining, its row is still there, is draining, failed or
    removed, and has the drain clock it had. *)
Theorem draining_is_one_way (tbl tbl' : gmap string Runner) (id : string) (r : Runner) :
  rtc tstep tbl tbl' -> tbl !! id = Some r -> r_State r = RunnerDraining ->
  exists r' : Runner, tbl' !! id = Some r' /\ r_State r' ∈ [RunnerDraining; RunnerFailed; RunnerRemoved] /\
             r_DrainingSince r' = r_DrainingSince r.
Proof.
  intros Hs Hl Hd.
  assert (Hin : r_State r ∈ [RunnerDraining; RunnerFailed; RunnerRemoved]) by (rewrite Hd; set_solver).
  clear Hd. revert r Hl Hin. induction Hs as [t|t1 t2 t3 Hst Hs IH]; intros r Hl Hin; [eauto|].
  destruct (tstep_keeps _ _ _ _ Hst Hl) as (r2 & Hl2 & Hr2). destruct (moved_drains r r2 Hr2 Hin) as [Hin2 <-].
  destruct (IH r2 Hl2 Hin2) as (r' & ? & ? & Heq). eauto.
Qed.

(** A removed runner stays removed, and a failed one is only ever removed. *)
Theorem terminal_is_absorbing (tbl tbl' : gmap string Runner) (id : string) (r : Runner) :
  rtc tstep tbl tbl' -> tbl !! id = Some r -> Terminal (r_State r) = true ->
  exists r' : Runner, tbl' !! id = Some r' /\ Terminal (r_State r') = true /\
             (r_State r = RunnerRemoved -> r_State r' = RunnerRemoved).
Proof.
  intros Hs. revert r. induction Hs as [t|t1 t2 t3 Hst Hs IH]; intros r Hl Ht; [eauto|].
  destruct (tstep_keeps _ _ _ _ Hst Hl) as (r2 & Hl2 & Hr2). destruct (moved_terminal r r2 Hr2 Ht) as [Ht2 Hrem].
 destruct (IH r2 Hl2 Ht2) as (r' & ? & ? & ?). exists r'. naive_solver.
Qed.

(** A drain or a failure decided from a snapshot cannot stop a job that started
    since: whatever was committed between the snapshot and the write, the guarded
    transition is refused, and writes nothing, if the row then says it is busy or
    has a job; and where it is applied the runner had neither. *)
Theorem unless_busy_never_stops_a_job (tbl : gmap string Runner) (id : string) to message kind now :
  match transitionRunner tbl id to message kind true now with
  | inr (r', tbl') => exists r : Runner, tbl !! id = Some r /\ r_State r <> RunnerBusy /\ r_CurrentJobID r = "" /\
                                r_State r' = to /\ tbl' = <[id:=r']> tbl
  | inl e => forall r, tbl !! id = Some r -> CanTransition (r_State r) to = true -> runner_busy r = true
  end.
Proof.
  destruct (transitionRunner tbl id to message kind true now) as [e|[r' tbl']] eqn:E.
  - intros r Hl Hc. unfold transitionRunner in E. rewrite Hl, Hc in E. simpl in E.
    by destruct (runner_busy r).
  - apply transition_inv in E as (r & Hl & Hc & Hb & -> & ->). exists r.
    specialize (Hb eq_refl). unfold runner_busy, is_state, nonempty, str_eqb in Hb. bool_to_prop.
    rewrite stamp_state. naive_solver.
Qed.

(** The jobs a runner has handled go up by one on each busy to idle move and on
    no other. *)
Theorem jobs_handled_counts_finished_jobs (tbl tbl' : gmap string Runner) (id : string) to message kind ub now r r' :
  tbl !! id = Some r -> in_int64 (r_JobsHandled r + 1) ->
  transitionRunner tbl id to message kind ub now = inr (r', tbl') ->
  r_JobsHandled r' =
    r_JobsHandled r + (if is_state (r_State r) RunnerBusy && is_state to RunnerIdle then 1 else 0).
Proof.
  intros Hl Hi H. apply transition_inv in H as (r0 & Hl0 & Hc & _ & -> & ->). simplify_eq.
  destruct to; simpl; try (unfold is_state; simpl; rewrite ?andb_false_r; lia).
  destruct (is_state (r_State r) RunnerBusy); simpl; [by rewrite wrap64_id|lia].
Qed.
