(* ===== verification/Phrases.v ===== *)
(** * The scheduler's phrases

    How a count, a duration, a number of CPUs and a size in megabytes are written
    in every sentence the scheduler gives an operator (scheduler.go, resources.go,
    classify.go). *)
From Stdlib Require Import ZArith Lia Ascii String.
From stdpp Require Import base strings list pretty.
From S2P Require Import Prelude GoFloat GoString.
Local Open Scope string_scope.
Local Open Scope list_scope.
Local Open Scope Z_scope.

Definition plural (n : Z) (unit : string) : string :=
  if n =? 1 then "1 " +:+ unit else itoa n +:+ " " +:+ unit +:+ "s".

Definition formatDuration (d : Duration) : string :=
  let s := Duration_String d in
  let s := if strings_HasSuffix s "m0s" then str_take (strlen s - 2) s else s in
  if strings_HasSuffix s "h0m" then str_take (strlen s - 2) s else s.

Definition formatCPUs (v : float64) : string :=
  let s := strings_TrimRight (strings_TrimRight (format_f 2 v) "0") "." in
  if str_eqb s "" || str_eqb s "-" then "0" else s.

Definition formatMB (mb : Z) : string :=
  if (1024 <=? mb) && (Z.rem mb 1024 =? 0) then itoa (mb /% 1024) +:+ " GB"
  else if 1024 <=? mb then format_f 1 (f64_of_Z mb / f64_of_Z 1024)%f64 +:+ " GB"
  else itoa mb +:+ " MB".

Definition sizePhrase (cpus : float64) (memoryMB : Z) : string :=
  strings_Join ((if fltb f64_zero cpus then [formatCPUs cpus +:+ " CPU"] else []) ++
                (if 0 <? memoryMB then [formatMB memoryMB] else [])) " and ".

Definition sentence (what fx : string) : string :=
  if str_eqb fx "" then what else what +:+ "; " +:+ fx.

Definition scaled (pool : string) (from to : Z) (why : string) : string :=
  "scaled " +:+ pool +:+ " " +:+ itoa from +:+ " -> " +:+ itoa to +:+ ": " +:+ why.

Definition cannotScale (pool : string) (from to : Z) (why : string) : string :=
  "cannot scale " +:+ pool +:+ " " +:+ itoa from +:+ " -> " +:+ itoa to +:+ ": " +:+ why.

Definition firstNonEmpty (a b : string) : string := if str_eqb a "" then b else a.

(** [summarise]: a failure message as one clause of a sentence. *)
Definition summarise (message : string) : string :=
  let message := strings_Join (strings_Fields message) " " in
  if str_eqb message "" then "no reason was recorded"
  else if 160 <? strlen message then strings_ToValidUTF8 (str_take 159 message) +:+ "…"
  else message.

Example formatDuration_1 : formatDuration (5 * Minute) = "5m".
Proof. vm_compute. reflexivity. Qed.
Example formatDuration_2 : formatDuration (6 * Hour) = "6h".
Proof. vm_compute. reflexivity. Qed.
Example formatCPUs_1 : formatCPUs (f64_lit 15 4) = "3.75".
Proof. vm_compute. reflexivity. Qed.
Example formatCPUs_2 : formatCPUs (f64_of_Z 10) = "10".
Proof. vm_compute. reflexivity. Qed.
Example formatMB_1 : formatMB 3379 = "3.3 GB".
Proof. vm_compute. reflexivity. Qed.
