(* ===== verification/Resources.v ===== *)
(** * What a runner costs (resources.go, profile.go, allocation.go)

    [Reserve] is what one runner of a pool is charged on a host, [MinimumReserve]
    the least it may be, [ReducedSize] what it is given on a host with less than
    the standard to spare, and [fits] the one comparison behind all of them.  A
    figure the agent never measured constrains nothing.  Memory and disk are
    machine integers and their bounds are proved on the nose; CPU is a
    [float64]. *)
From Stdlib Require Import ZArith Lia Ascii String.
From stdpp Require Import base strings list gmap.
From S2P Require Import Prelude GoFloat GoString Naming Store Phrases.
Local Open Scope string_scope.
Local Open Scope list_scope.
Local Open Scope Z_scope.

Record Reservation := { res_CPUs : float64; res_MemoryMB : Z; res_DiskMB : Z }.
Definition zero_Reservation : Reservation :=
  {| res_CPUs := f64_zero; res_MemoryMB := 0; res_DiskMB := 0 |}.

Definition cpuEpsilon : float64 := Eval vm_compute in f64_lit 1 1000000.
Definition comfortableRunnerCPUs : float64 := Eval vm_compute in f64_of_Z 1.
Definition comfortableRunnerMemoryMB : Z := 2048.
(** recommend.go: the working room a runner is assumed to need on the disk. *)
Definition RunnerDiskMB : Z := 10 * 1024.

(** ** The host's say (profile.go) *)

Definition raisedMinimum (own host typed : float64) : float64 :=
  if (host <=? own)%f64 || (fpos typed && (host >? typed)%f64) then own else host.

Definition sizedOn (p : Pool) (h : Host) : Pool :=
  let floor := rp_Minimum (h_RunnerProfile h) in
  let r := p_Resources p in
  let cpus := raisedMinimum (rs_MinCPUs r) (sz_CPUs floor) (rs_CPUs r) in
  let memoryMB := f64_to_int (raisedMinimum (f64_of_Z (rs_MinMemoryMB r)) (f64_of_Z (sz_MemoryMB floor))
                                            (f64_of_Z (rs_MemoryMB r))) in
  if (cpus =? rs_MinCPUs r)%f64 && (memoryMB =? rs_MinMemoryMB r) then p
  else p_with_resources p (rs_with_min r cpus memoryMB).

(** [StandardSize]: the size of one runner of a profile pool, per field. *)
Definition StandardSize (p : Pool) (h : Host) : float64 * Z :=
  if negb (p_SizeFromProfile p) then (f64_zero, 0) else
  let std := rp_Standard (h_RunnerProfile h) in
  (if fpos (std_CPUs std) then std_CPUs std else sz_CPUs (p_FleetStandard p),
   if 0 <? std_MemoryMB std then std_MemoryMB std else sz_MemoryMB (p_FleetStandard p)).

(** ** Shares (resources.go, allocation.go) *)

Definition share (total : float64) (capacity : Z) : float64 :=
  if (capacity <? 1) || (total <=? f64_zero)%f64 then f64_zero
  else (total / f64_of_Z capacity)%f64.

Definition shareCPUs (total : float64) (capacity : Z) : float64 :=
  (math_Floor (share total capacity * f64_of_Z 100) / f64_of_Z 100)%f64.

(** The two figures of [store.Resources] that [HostShare] fills in. *)
Definition HostShare (h : Host) : RunnerSize :=
  let alloc := Allocatable h in
  {| sz_CPUs := if al_CPUsKnown alloc then shareCPUs (al_CPUs alloc) (Slots h) else f64_zero;
     sz_MemoryMB := if al_MemoryKnown alloc
                    then f64_to_int (share (f64_of_Z (al_MemoryMB alloc)) (Slots h)) else 0 |}.

Definition slotSize (p : Pool) (h : Host) : RunnerSize :=
  let out := HostShare h in
  let '(cpus, memoryMB) := StandardSize p h in
  {| sz_CPUs := if fpos cpus then cpus else sz_CPUs out;
     sz_MemoryMB := if 0 <? memoryMB then memoryMB else sz_MemoryMB out |}.

(** ** Floors (resources.go) *)

Definition comfortFloor (p : Pool) : Reservation :=
  let r := p_Resources p in
  let dind := is_dind (p_DockerMode p) in
  {| res_CPUs := if dind && (rs_CPUs r <=? f64_zero)%f64
                 then (comfortableRunnerCPUs * CPUPairFactor r)%f64 else MinRunnerCPUs;
     res_MemoryMB := if dind && (rs_MemoryMB r <=? 0)
                     then f64_to_int (math_Ceil (f64_of_Z comfortableRunnerMemoryMB * MemoryPairFactor r)%f64)
                     else MinRunnerMemoryMB;
     res_DiskMB := 0 |}.

Definition ShareFloor (p : Pool) : Reservation :=
  let floor := comfortFloor p in
  let r := p_Resources p in
  let dind := is_dind (p_DockerMode p) in
  let cpuPair := if dind then CPUPairFactor r else f64_of_Z 1 in
  let memPair := if dind then MemoryPairFactor r else f64_of_Z 1 in
  {| res_CPUs := if fpos (rs_MinCPUs r) && (rs_CPUs r <=? f64_zero)%f64
                 then (fmax (rs_MinCPUs r) MinRunnerCPUs * cpuPair)%f64 else res_CPUs floor;
     res_MemoryMB := if (0 <? rs_MinMemoryMB r) && (rs_MemoryMB r <=? 0)
                     then f64_to_int (math_Ceil (f64_of_Z (Z.max (rs_MinMemoryMB r) MinRunnerMemoryMB) * memPair)%f64)
                     else res_MemoryMB floor;
     res_DiskMB := res_DiskMB floor |}.

Definition MinimumSlot (p : Pool) : Reservation :=
  let floor := ShareFloor p in
  let r := p_Resources p in
  {| res_CPUs := if fpos (rs_MinCPUs r) && (rs_CPUs r <=? f64_zero)%f64 then res_CPUs floor else f64_zero;
     res_MemoryMB := if (0 <? rs_MinMemoryMB r) && (rs_MemoryMB r <=? 0) then res_MemoryMB floor else 0;
     res_DiskMB := 0 |}.

(** ** Charges *)

Definition Reserve (p : Pool) (h : Host) : Reservation :=
  let p := sizedOn p h in
  let r := p_Resources p in
  let alloc := Allocatable h in
  let cpuFromHost := (rs_CPUs r <=? f64_zero)%f64 in
  let memoryFromHost := rs_MemoryMB r <=? 0 in
  let diskTyped := rs_DiskGB r *% 1024 in
  let diskFromHost := diskTyped <=? 0 in
  let disk := if diskFromHost then RunnerDiskMB else diskTyped in
  let floor := MinimumSlot p in
  let '(standardCPUs, standardMemoryMB) := StandardSize p h in
  let cpus :=
    if cpuFromHost then
      let slot := if fpos standardCPUs then standardCPUs else share (al_CPUs alloc) (Slots h) in
      fmax slot (res_CPUs floor)
    else rs_CPUs r in
  let memory :=
    if memoryFromHost then
      let slot := if 0 <? standardMemoryMB then standardMemoryMB
                  else f64_to_int (share (f64_of_Z (al_MemoryMB alloc)) (Slots h)) in
      Z.max slot (res_MemoryMB floor)
    else rs_MemoryMB r in
  let dind := is_dind (p_DockerMode p) in
  {| res_CPUs := if dind && negb cpuFromHost then (cpus * f64_of_Z 2)%f64 else cpus;
     res_MemoryMB := if dind && negb memoryFromHost then memory *% 2 else memory;
     res_DiskMB := if dind && negb diskFromHost then disk *% 2 else disk |}.

Definition fieldFactor (p : Pool) (typed : bool) : Z :=
  if typed && is_dind (p_DockerMode p) then 2 else 1.

Definition RunnerGuarantee (p : Pool) (h : Host) (r : Runner) : Reservation :=
  let res := Reserve p h in
  let reduced := str_eqb (r_AllocationSource r) AllocationReduced ||
                 str_eqb (r_AllocationSource r) AllocationHistory in
  {| res_CPUs :=
       if fpos (r_AllocatedCPUs r) then
         let given := (r_AllocatedCPUs r * f64_of_Z (fieldFactor p (fpos (rs_CPUs (p_Resources p)))))%f64 in
         if reduced then given else fmax (res_CPUs res) given
       else res_CPUs res;
     res_MemoryMB :=
       if 0 <? r_AllocatedMemoryMB r then
         let given := r_AllocatedMemoryMB r *% fieldFactor p (0 <? rs_MemoryMB (p_Resources p)) in
         if reduced then given else Z.max (res_MemoryMB res) given
       else res_MemoryMB res;
     res_DiskMB := res_DiskMB res |}.

Definition RunnerCharge (p : Pool) (h : Host) (r : Runner) : Reservation :=
  let res := RunnerGuarantee p h r in
  if 0 <? r_LentMemoryMB r
  then {| res_CPUs := res_CPUs res; res_MemoryMB := res_MemoryMB res +% r_LentMemoryMB r;
          res_DiskMB := res_DiskMB res |}
  else res.

Definition MinimumReserve (p : Pool) (h : Host) : Reservation :=
  let p := sizedOn p h in
  let res := Reserve p h in
  let r := p_Resources p in
  if negb (Reducible r) then res else
  let floor := ShareFloor p in
  {| res_CPUs :=
       if fpos (rs_MinCPUs r) then
         let typed := fpos (rs_CPUs r) in
         let v := (rs_MinCPUs r * f64_of_Z (fieldFactor p typed))%f64 in
         let v := if typed then v else fmax v (res_CPUs floor) in
         fmin (res_CPUs res) v
       else res_CPUs res;
     res_MemoryMB :=
       if 0 <? rs_MinMemoryMB r then
         let typed := 0 <? rs_MemoryMB r in
         let v := rs_MinMemoryMB r *% fieldFactor p typed in
         let v := if typed then v else Z.max v (res_MemoryMB floor) in
         Z.min (res_MemoryMB res) v
       else res_MemoryMB res;
     res_DiskMB := res_DiskMB res |}.

(** [fits]: the one comparison. *)
Definition fits (left want : Reservation) (known : HostAllocation) : bool :=
  if al_DiskKnown known && ((al_DiskMB known <=? 0) || (res_DiskMB left <? res_DiskMB want)) then false
  else if al_CPUsKnown known && (res_CPUs left + cpuEpsilon <? res_CPUs want)%f64 then false
  else if al_MemoryKnown known && (res_MemoryMB left <? res_MemoryMB want) then false
  else true.

(** [ReducedSize]: the charge, and the limits the runner is created with. *)
Definition ReducedSize (p : Pool) (h : Host) (left : Reservation) (known : HostAllocation)
  : option (Reservation * Resources) :=
  let p := sizedOn p h in
  let floor := MinimumReserve p h in
  let r := p_Resources p in
  if negb (Reducible r) || negb (fits left floor known) then None else
  let charge := Reserve p h in
  let cpuFactor := f64_of_Z (fieldFactor p (fpos (rs_CPUs r))) in
  let memFactor := fieldFactor p (0 <? rs_MemoryMB r) in
  let cpus :=
    if al_CPUsKnown known && (res_CPUs left + cpuEpsilon <? res_CPUs charge)%f64 &&
       (res_CPUs floor <? res_CPUs charge)%f64
    then
      let each := (math_Floor (res_CPUs left / cpuFactor * f64_of_Z 100 + cpuEpsilon) / f64_of_Z 100)%f64 in
      fmax (each * cpuFactor)%f64 (res_CPUs floor)
    else res_CPUs charge in
  let memory :=
    if al_MemoryKnown known && (res_MemoryMB left <? res_MemoryMB charge) &&
       (res_MemoryMB floor <? res_MemoryMB charge)
    then Z.max ((res_MemoryMB left /% memFactor) *% memFactor) (res_MemoryMB floor)
    else res_MemoryMB charge in
  let charge := {| res_CPUs := cpus; res_MemoryMB := memory; res_DiskMB := res_DiskMB charge |} in
  if negb (fits left charge known) then None else
  let grant := rs_with_size (rs_with_min r f64_zero 0) (res_CPUs charge / cpuFactor)%f64
                            (res_MemoryMB charge /% memFactor) in
  Some (charge, grant).

(** ** Exclusions (profile.go) *)
Record SizeExclusion := { se_Code : string; se_Field : string; se_Reason : string }.
Definition ExclusionHostMinimum : string := "host_minimum".
Definition ExclusionHostStandard : string := "host_standard".

Definition poolsOrFleets (fleet : bool) : string := if fleet then "the fleet's" else "this pool's".
Definition standardPhrase (figure : string) (fromHost : bool) : string :=
  if fromHost then "its standard runner is " +:+ figure
  else "its profile names no standard runner size, so the fleet's default of " +:+ figure +:+ " applies".

Definition ExcludedBySize (h : Host) (p : Pool) : option SizeExclusion :=
  let floor := rp_Minimum (h_RunnerProfile h) in
  let std := rp_Standard (h_RunnerProfile h) in
  let r := p_Resources p in
  if p_SizeFromProfile p then
    let '(cpus, memoryMB) := StandardSize p h in
    let poolMin := rs_MinCPUs r in
    let poolMinMemory := rs_MinMemoryMB r in
    if fpos cpus && (fmax poolMin (sz_CPUs floor) >? cpus + cpuEpsilon)%f64 then
      let '(whose, need) :=
        if (sz_CPUs floor >=? poolMin)%f64 then ("this host's own", sz_CPUs floor)
        else (poolsOrFleets (fpos (sz_CPUs (p_FleetMinimum p))), poolMin) in
      Some {| se_Code := ExclusionHostStandard; se_Field := "cpu";
              se_Reason := standardPhrase (formatCPUs cpus +:+ " CPU") (fpos (std_CPUs std)) +:+ ", below " +:+
                whose +:+ " minimum of " +:+ formatCPUs need +:+
                " CPU -- give the host a standard runner of at least that, or lower the minimum" |}
    else if (0 <? memoryMB) && (memoryMB <? Z.max poolMinMemory (sz_MemoryMB floor)) then
      let '(whose, need) :=
        if poolMinMemory <=? sz_MemoryMB floor then ("this host's own", sz_MemoryMB floor)
        else (poolsOrFleets (0 <? sz_MemoryMB (p_FleetMinimum p)), poolMinMemory) in
      Some {| se_Code := ExclusionHostStandard; se_Field := "memory";
              se_Reason := standardPhrase (formatMB memoryMB +:+ " of memory") (0 <? std_MemoryMB std) +:+ ", below " +:+
                whose +:+ " minimum of " +:+ formatMB need +:+
                " -- give the host a standard runner of at least that, or lower the minimum" |}
    else None
  else if negb (Automatic p) then
    if fpos (rs_CPUs r) && (sz_CPUs floor >? rs_CPUs r + cpuEpsilon)%f64 then
      Some {| se_Code := ExclusionHostMinimum; se_Field := "cpu";
              se_Reason := "its minimum runner size is " +:+ formatCPUs (sz_CPUs floor) +:+ " CPU, above the " +:+
                formatCPUs (rs_CPUs r) +:+
                " CPU this pool gives each runner, and a pool that states its size is never given more than it states -- lower the host's minimum, or raise the pool's CPU" |}
    else if (0 <? rs_MemoryMB r) && (rs_MemoryMB r <? sz_MemoryMB floor) then
      Some {| se_Code := ExclusionHostMinimum; se_Field := "memory";
              se_Reason := "its minimum runner size is " +:+ formatMB (sz_MemoryMB floor) +:+ " of memory, above the " +:+
                formatMB (rs_MemoryMB r) +:+
                " this pool gives each runner, and a pool that states its size is never given more than it states -- lower the host's minimum, or raise the pool's memory" |}
    else None
  else None.

(** [BurstLimit]: the smaller of the two ceilings that are set. *)
Definition BurstLimit (p : Pool) (h : Host) : float64 :=
  let pool := p_CPUBurstMaxCPUs p in
  let host := std_BurstMaxCPUs (rp_Standard (h_RunnerProfile h)) in
  if fpos pool && fpos host then fmin pool host else if fpos pool then pool else host.

(** ** The limits a runner is created with (allocation.go) *)
Definition hostSource (fromProfile : bool) (current : string) : string :=
  if fromProfile || str_eqb current AllocationFromProfile then AllocationFromProfile else AllocationFromHost.

Definition hostLimits (h : Host) (kind : string) : LimitSupport :=
  match HostBackends_Find (h_BackendInfo h) kind with
  | Some info => if ls_Known (hb_Limits info) then hb_Limits info else zero_LimitSupport
  | None => zero_LimitSupport
  end.

Definition DefaultsBind (h : Host) : bool * bool :=
  foldl (fun '(cpu, memory) info =>
    if negb (hb_Available info) || str_eqb (hb_Kind info) BackendProcess || negb (ls_Known (hb_Limits info))
    then (cpu, memory)
    else (cpu || ls_CPU (hb_Limits info), memory || ls_Memory (hb_Limits info)))
    (false, false) (h_BackendInfo h).

Definition Allocation (p : Pool) (h : option Host) (defaults : bool) : Resources * string :=
  let res := p_Resources p in
  let source := if fpos (rs_CPUs res) || (0 <? rs_MemoryMB res) then AllocationFromPool else "" in
  match h with
  | Some h =>
      if negb defaults || str_eqb (p_Backend p) BackendProcess then (res, source) else
      let p := sizedOn p h in
      let infoCPUs := match HostBackends_Find (h_BackendInfo h) (p_Backend p) with
                      | Some info => hb_CPUs info | None => 0 end in
      let limits := hostLimits h (p_Backend p) in
      let alloc := Allocatable h in
      let def := slotSize p h in
      let '(standardCPUs, standardMemoryMB) := StandardSize p h in
      let floor := MinimumSlot p in
      let defCPUs := fmax (sz_CPUs def) (res_CPUs floor) in
      let defMemoryMB := Z.max (sz_MemoryMB def) (res_MemoryMB floor) in
      let '(cpus, source) :=
        if (rs_CPUs res <=? f64_zero)%f64 && al_CPUsKnown alloc && ls_CPU limits && fpos defCPUs then
          (if (0 <? infoCPUs) && (defCPUs >? f64_of_Z infoCPUs)%f64 then f64_of_Z infoCPUs else defCPUs,
           hostSource (fpos standardCPUs) source)
        else (rs_CPUs res, source) in
      let '(memoryMB, source) :=
        if (rs_MemoryMB res <=? 0) && al_MemoryKnown alloc && ls_Memory limits && (0 <? defMemoryMB) then
          (defMemoryMB, hostSource (0 <? standardMemoryMB) source)
        else (rs_MemoryMB res, source) in
      (rs_with_size res cpus memoryMB, source)
  | None => (res, source)
  end.

(** ** What a host can hold *)
Definition whole (alloc : HostAllocation) : Reservation :=
  {| res_CPUs := al_CPUs alloc; res_MemoryMB := al_MemoryMB alloc; res_DiskMB := al_DiskMB alloc |}.

(** [ShareTooSmall]: the field whose slot share is below what a runner needs, or
    the empty string. *)
Definition ShareTooSmall (h : Host) (p : Pool) : string :=
  if (fpos (rs_CPUs (p_Resources p)) && (0 <? rs_MemoryMB (p_Resources p))) || (h_Capacity h <=? 0) then "" else
  let p := sizedOn p h in
  let r := p_Resources p in
  let alloc := Allocatable h in
  let share := slotSize p h in
  let need := ShareFloor p in
  let given := MinimumSlot p in
  if (rs_CPUs r <=? f64_zero)%f64 && al_CPUsKnown alloc && (res_CPUs given <=? f64_zero)%f64 &&
     (sz_CPUs share <? res_CPUs need)%f64 then "cpu"
  else if (rs_MemoryMB r <=? 0) && al_MemoryKnown alloc && (res_MemoryMB given <=? 0) &&
          (sz_MemoryMB share <? res_MemoryMB need) then "memory"
  else "".

Definition HostFits (h : Host) (p : Pool) : bool :=
  match ExcludedBySize h p with
  | Some _ => false
  | None =>
      let p := sizedOn p h in
      if nonempty (ShareTooSmall h p) then false
      else let alloc := Allocatable h in fits (whole alloc) (MinimumReserve p h) alloc
  end.

Definition HostReduction (h : Host) (p : Pool) : string :=
  if negb (HostFits h p) then "" else
  let p := sizedOn p h in
  let alloc := Allocatable h in
  if Automatic p then
    if p_SizeFromProfile p then "" else
    let share := HostShare h in
    let comfort := comfortFloor p in
    let per := if is_dind (p_DockerMode p) then ", split between the runner and its Docker daemon" else "" in
    let given := MinimumSlot p in
    if al_MemoryKnown alloc && (sz_MemoryMB share <? res_MemoryMB given) then
      "its slot share is " +:+ formatMB (sz_MemoryMB share) +:+
      " of memory, less than this pool's minimum, so its runners there are given " +:+
      formatMB (res_MemoryMB given) +:+ per +:+ " and it holds fewer of them than its " +:+ plural (Slots h) "slot"
    else if al_CPUsKnown alloc && (res_CPUs given >? sz_CPUs share + cpuEpsilon)%f64 then
      "its slot share is " +:+ formatCPUs (sz_CPUs share) +:+
      " CPU, less than this pool's minimum, so its runners there are given " +:+
      formatCPUs (res_CPUs given) +:+ " CPU" +:+ per +:+ " and it holds fewer of them than its " +:+ plural (Slots h) "slot"
    else if al_MemoryKnown alloc && (sz_MemoryMB share <? res_MemoryMB comfort) then
      "its slot share is " +:+ formatMB (sz_MemoryMB share) +:+ " of memory" +:+ per +:+ ", less than the " +:+
      formatMB (res_MemoryMB comfort) +:+
      " this pool's runners get room to work in on a larger machine; they run there at that share, above this pool's minimum"
    else if al_CPUsKnown alloc && (sz_CPUs share <? res_CPUs comfort)%f64 then
      "its slot share is " +:+ formatCPUs (sz_CPUs share) +:+ " CPU" +:+ per +:+ ", less than the " +:+
      formatCPUs (res_CPUs comfort) +:+
      " this pool's runners get room to work in on a larger machine; they run there at that share, above this pool's minimum"
    else ""
  else if negb (Reducible (p_Resources p)) then ""
  else if fits (whole alloc) (Reserve p h) alloc then ""
  else "it is smaller than this pool's standard size, so its runners there get what the machine can spare -- never less than this pool's minimum".

(** ** Why a host cannot (resources.go) *)
Definition charged (set dind : bool) : string :=
  if set && dind then ", twice what it asks for, because a docker-in-docker runner is charged for its sidecar too"
  else "".

Definition workingRoomCharged (p : Pool) : string :=
  if 0 <? rs_DiskGB (p_Resources p) then ""
  else ", the working room every runner is given when its pool types no resources.disk_gb".

Definition pairCharged (p : Pool) (daemonPercent : Z) : string :=
  if negb (is_dind (p_DockerMode p)) then "" else
  let thinner := Z.min daemonPercent (100 -% daemonPercent) in
  if thinner *% 2 =? 100 then ", twice over for a runner and its Docker daemon, which share one slot"
  else ", which has to fit in the " +:+ itoa thinner +:+
       "% of a slot the thinner of a runner and its Docker daemon is given".

Definition minimumCharged (p : Pool) (field : string) : string :=
  let floor := MinimumSlot p in
  let r := p_Resources p in
  if str_eqb field "cpu" && fpos (res_CPUs floor) then
    ", this pool's minimum of " +:+ formatCPUs (fmax (rs_MinCPUs r) MinRunnerCPUs) +:+ " CPU a container" +:+
    pairCharged p (DaemonCPUPercent r)
  else if str_eqb field "memory" && (0 <? res_MemoryMB floor) then
    ", this pool's minimum of " +:+ formatMB (Z.max (rs_MinMemoryMB r) MinRunnerMemoryMB) +:+ " a container" +:+
    pairCharged p (DaemonMemoryPercent r)
  else "".

Definition nanoEpsilon : float64 := Eval vm_compute in f64_lit 1 1000000000.

Definition capacityThatFits (h : Host) (need : Reservation) : string :=
  let a := Allocatable h in
  let n := int_max in
  let n := if al_CPUsKnown a && fpos (res_CPUs need)
           then Z.min n (f64_to_int (math_Floor (al_CPUs a / res_CPUs need + nanoEpsilon)%f64)) else n in
  let n := if al_MemoryKnown a && (0 <? res_MemoryMB need)
           then Z.min n (al_MemoryMB a /% res_MemoryMB need) else n in
  if (n <? 1) || (Slots h <=? n) || (n =? int_max) then ""
  else " -- lower the host's capacity to " +:+ itoa n +:+ ", which gives each slot that much".

Definition HostShortfall (h : Host) (p : Pool) : string :=
  match ExcludedBySize h p with
  | Some ex => se_Reason ex
  | None =>
    let p := sizedOn p h in
    let dind := is_dind (p_DockerMode p) in
    let alloc := Allocatable h in
    let field := ShareTooSmall h p in
    if nonempty field then
      let share := slotSize p h in
      let need := ShareFloor p in
      let pair := if dind then ", because this pool's runners share their slot with a Docker daemon" else "" in
      if p_SizeFromProfile p then
        let standard := if Sized (rp_Standard (h_RunnerProfile h)) then "its standard runner of "
                        else "the fleet's default of " in
        if str_eqb field "cpu" then
          standard +:+ formatCPUs (sz_CPUs share) +:+ " CPU is below the " +:+ formatCPUs (res_CPUs need) +:+
          " a runner needs to keep up with its own job" +:+ pair +:+ " -- raise the host's standard runner size"
        else
          standard +:+ formatMB (sz_MemoryMB share) +:+ " is below the " +:+ formatMB (res_MemoryMB need) +:+
          " a runner needs before it is killed before taking a job" +:+ pair +:+ " -- raise the host's standard runner size"
      else if str_eqb field "cpu" then
        "it is set to " +:+ plural (Slots h) "slot" +:+ ", which divides its " +:+ formatCPUs (al_CPUs alloc) +:+
        " allocatable CPU into shares of " +:+ formatCPUs (sz_CPUs share) +:+ " each, and a runner needs at least " +:+
        formatCPUs (res_CPUs need) +:+ " to keep up with its own job" +:+ pair +:+ capacityThatFits h need
      else
        "it is set to " +:+ plural (Slots h) "slot" +:+ ", which divides its " +:+ formatMB (al_MemoryMB alloc) +:+
        " of allocatable memory into shares of " +:+ formatMB (sz_MemoryMB share) +:+
        " each, and a runner is killed before it takes a job below " +:+ formatMB (res_MemoryMB need) +:+ pair +:+
        capacityThatFits h need
    else
      let left := whole alloc in
      let want := MinimumReserve p h in
      if fits left want alloc then ""
      else if al_DiskKnown alloc && (al_DiskMB alloc <=? 0) then
        "its work directory is at or below its disk reserve, so it takes no runner of any pool"
      else if al_DiskKnown alloc && (res_DiskMB left <? res_DiskMB want) then
        "it has " +:+ formatMB (res_DiskMB left) +:+ " of disk free to place on, and one runner of this pool is charged " +:+
        formatMB (res_DiskMB want) +:+ charged (0 <? rs_DiskGB (p_Resources p)) dind +:+ workingRoomCharged p
      else if al_CPUsKnown alloc && (res_CPUs left + cpuEpsilon <? res_CPUs want)%f64 then
        "it has " +:+ formatCPUs (res_CPUs left) +:+ " CPU to place on, and one runner of this pool is charged " +:+
        formatCPUs (res_CPUs want) +:+ charged (fpos (rs_CPUs (p_Resources p))) dind +:+ minimumCharged p "cpu"
      else if al_MemoryKnown alloc && (res_MemoryMB left <? res_MemoryMB want) then
        "it has " +:+ formatMB (res_MemoryMB left) +:+ " of memory to place on, and one runner of this pool is charged " +:+
        formatMB (res_MemoryMB want) +:+ charged (0 <? rs_MemoryMB (p_Resources p)) dind +:+ minimumCharged p "memory"
      else "it is too small for this pool's limits"
  end.

(** ** The smallest machine that would do *)
Definition machineForMaxCPUs : Z := 512.
Definition machineForMaxMemoryMB : Z := 4194304.
Definition machineForMaxDiskMB : Z := 67108864.

Record MachineSize := { ms_CPUs : Z; ms_MemoryMB : Z; ms_DiskMB : Z }.

Definition wholeGB (mb : Z) : Z := ((mb +% 1023) /% 1024) *% 1024.

(** [smallestFitting]: a bisection.  The interval is a machine integer wide and
    halves at every step, so 64 steps are enough ([smallestFitting_least]). *)
Fixpoint smallestFitting_loop (fuel : nat) (lo hi : Z) (ok : Z -> bool) : Z :=
  match fuel with
  | O => hi
  | S fuel =>
      if lo <? hi then
        let mid := lo +% ((hi -% lo) /% 2) in
        if ok mid then smallestFitting_loop fuel lo mid ok
        else smallestFitting_loop fuel (mid +% 1) hi ok
      else hi
  end.
Definition smallestFitting (lo hi : Z) (ok : Z -> bool) : Z := smallestFitting_loop 64 lo hi ok.

(** The first number of processors, from [n] up, that [ok] accepts. *)
Definition firstCPUs (n : Z) (ok : Z -> bool) : option Z :=
  List.find ok (seqZ n (machineForMaxCPUs - n + 1)).

Definition MachineFor (h : Host) (p : Pool) : option MachineSize :=
  if HostFits h p || isSome (ExcludedBySize h p) then None else
  let diskKnown := 0 <? h_DiskTotalMB h in
  let disk := if diskKnown then machineForMaxDiskMB else h_DiskTotalMB h in
  let free := if diskKnown then machineForMaxDiskMB else h_DiskFreeMB h in
  let try cpus memoryMB total free := HostFits (h_with_size h cpus memoryMB total free) p in
  let cpus :=
    if 0 <? h_CPUs h then
      firstCPUs (Z.max (h_CPUs h) 1)
        (fun n => try n (if 0 <? h_MemoryMB h then machineForMaxMemoryMB else h_MemoryMB h) disk free)
    else Some (h_CPUs h) in
  match cpus with
  | None => None
  | Some cpus =>
    let memoryMB :=
      if 0 <? h_MemoryMB h then
        if negb (try cpus machineForMaxMemoryMB disk free) then None
        else Some (smallestFitting (h_MemoryMB h) machineForMaxMemoryMB (fun v => try cpus v disk free))
      else Some (h_MemoryMB h) in
    match memoryMB with
    | None => None
    | Some memoryMB =>
      let grow := (h_CPUs h <? cpus) || (h_MemoryMB h <? memoryMB) in
      let diskMB :=
        if diskKnown then
          let used := Z.max (h_DiskTotalMB h -% h_DiskFreeMB h) 0 in
          if try cpus memoryMB (h_DiskTotalMB h) (h_DiskFreeMB h) then Some 0 else
          let total := smallestFitting (h_DiskTotalMB h) machineForMaxDiskMB
                         (fun v => try cpus memoryMB v (v -% used)) in
          if try cpus memoryMB total (total -% used) then Some (wholeGB total) else None
        else Some 0 in
      match diskMB with
      | None => None
      | Some diskMB =>
        let out := {| ms_CPUs := if grow then cpus else 0; ms_MemoryMB := if grow then wholeGB memoryMB else 0;
                      ms_DiskMB := diskMB |} in
        if (ms_CPUs out =? 0) && (ms_MemoryMB out =? 0) && (ms_DiskMB out =? 0) then None else Some out
      end
    end
  end.

(** ** How many runners an empty host holds *)
Record HostRoom := { hr_Slots : Z; hr_Fits : Z; hr_Room : Z; hr_LimitedBy : string }.

Definition res_eqb (a b : Reservation) : bool :=
  (res_CPUs a =? res_CPUs b)%f64 && (res_MemoryMB a =? res_MemoryMB b) && (res_DiskMB a =? res_DiskMB b).

(** [consider], the closure of [HostRoomFor]: keep the smallest count and what gave it. *)
Definition consider (n : Z) (by' : string) (acc : Z * string) : Z * string :=
  if (fst acc =? -1) || (n <? fst acc) then (n, by') else acc.

Definition HostRoomFor (h : Host) (p : Pool) : HostRoom :=
  let slots := EffectiveCapacity h in
  let none_ by' := {| hr_Slots := slots; hr_Fits := 0; hr_Room := 0; hr_LimitedBy := by' |} in
  if isSome (ExcludedBySize h p) then none_ "profile" else
  let p := sizedOn p h in
  let field := ShareTooSmall h p in
  if nonempty field then none_ field else
  let alloc := Allocatable h in
  if al_DiskKnown alloc && (al_DiskMB alloc <=? 0) then none_ "disk" else
  let want := Reserve p h in
  let acc := (-1, "") in
  let acc := if al_CPUsKnown alloc && fpos (res_CPUs want)
             then consider (f64_to_int ((al_CPUs alloc + cpuEpsilon) / res_CPUs want)%f64) "cpu" acc else acc in
  let acc := if al_MemoryKnown alloc && (0 <? res_MemoryMB want)
             then consider (al_MemoryMB alloc /% res_MemoryMB want) "memory" acc else acc in
  let acc := if al_DiskKnown alloc && (0 <? res_DiskMB want)
             then consider (al_DiskMB alloc /% res_DiskMB want) "disk" acc else acc in
  let '(fit, limit) := acc in
  let fit :=
    if (0 <=? fit) && negb (res_eqb (MinimumReserve p h) want) then
      let rest := {| res_CPUs := (al_CPUs alloc - f64_of_Z fit * res_CPUs want)%f64;
                     res_MemoryMB := al_MemoryMB alloc -% (fit *% res_MemoryMB want);
                     res_DiskMB := al_DiskMB alloc -% (fit *% res_DiskMB want) |} in
      if isSome (ReducedSize p h rest alloc) then fit +% 1 else fit
    else fit in
  if fit =? -1 then {| hr_Slots := slots; hr_Fits := slots; hr_Room := slots; hr_LimitedBy := "" |}
  else
    let fits := Z.max fit 0 in
    {| hr_Slots := slots; hr_Fits := fits; hr_Room := Z.min fits slots;
       hr_LimitedBy := if slots <? fits then "slots" else limit |}.

(** ** What is promised away, host by host *)
Record hostTotals := {
  ht_ours : bool;
  ht_warming : Z;
  ht_warmingDinD : Z;
  ht_reserved : Reservation;
  ht_pending : Reservation
}.
Definition zero_hostTotals : hostTotals :=
  {| ht_ours := false; ht_warming := 0; ht_warmingDinD := 0;
     ht_reserved := zero_Reservation; ht_pending := zero_Reservation |}.

Definition starting (r : Runner) : bool :=
  is_state (r_State r) RunnerProvisioning || is_state (r_State r) RunnerRegistering.

Definition hostTotals_add (t : hostTotals) (p : Pool) (h : Host) (r : Runner) : hostTotals :=
  let res := RunnerCharge p h r in
  let warm := starting r in
  let sampled := u_SampledAt (h_Usage h) in
  let pend := warm || Time_After (r_CreatedAt r) sampled ||
    match r_ContainerStartedAt r with Some s => Time_After s sampled | None => false end in
  {| ht_ours := ht_ours t;
     ht_warming := if warm then ht_warming t + 1 else ht_warming t;
     ht_warmingDinD := if warm && is_dind (p_DockerMode p) then ht_warmingDinD t + 1 else ht_warmingDinD t;
     ht_reserved := {| res_CPUs := (res_CPUs (ht_reserved t) + res_CPUs res)%f64;
                       res_MemoryMB := res_MemoryMB (ht_reserved t) +% res_MemoryMB res;
                       res_DiskMB := res_DiskMB (ht_reserved t) +% res_DiskMB res |};
     ht_pending := if pend then {| res_CPUs := (res_CPUs (ht_pending t) + res_CPUs res)%f64;
                                   res_MemoryMB := res_MemoryMB (ht_pending t) +% res_MemoryMB res;
                                   res_DiskMB := res_DiskMB (ht_pending t) |}
                   else ht_pending t |}.

Definition set_ours (t : hostTotals) : hostTotals :=
  {| ht_ours := true; ht_warming := ht_warming t; ht_warmingDinD := ht_warmingDinD t;
     ht_reserved := ht_reserved t; ht_pending := ht_pending t |}.

(** The first row of each host ID. *)
Definition hostIndex (hosts : list (option Host)) : gmap string nat :=
  foldl (fun m '(i, o) =>
    match o with
    | None => m
    | Some h => match m !! h_ID h with Some _ => m | None => <[h_ID h := i]> m end
    end) ∅ (imap pair hosts).

Definition live_runners (rs : list (option Runner)) : list Runner :=
  List.filter (fun r => Live (r_State r)) (omap id rs).

Definition totalsByHost (hosts : list (option Host)) (pools : list (option Pool))
    (runners : gmap string (list (option Runner))) : list hostTotals :=
  let out := (fun _ => zero_hostTotals) <$> hosts in
  let index := hostIndex hosts in
  let out := foldl (fun out '(_, rs) => foldl (fun out r =>
      match index !! r_HostID r with Some i => alter set_ours i out | None => out end)
      out (live_runners rs)) out (map_to_list runners) in
  let out := foldl (fun out p => foldl (fun out r =>
      match index !! r_HostID r with
      | Some i => match hosts !! i with
                  | Some (Some h) => alter (fun t => hostTotals_add t p h r) i out
                  | _ => out
                  end
      | None => out
      end) out (live_runners (map_get runners (p_ID p) []))) out (omap id pools) in
  imap (fun i t =>
    match hosts !! i with
    | Some (Some h) => match index !! h_ID h with
                       | Some j => default t (out !! j)
                       | None => t
                       end
    | _ => t
    end) out.

Definition Reserved (h : Host) (pools : list (option Pool)) (runners : gmap string (list (option Runner))) : Reservation :=
  match totalsByHost [Some h] pools runners with t :: _ => ht_reserved t | [] => zero_Reservation end.

Definition ReservedByHost (hosts : list (option Host)) (pools : list (option Pool))
    (runners : gmap string (list (option Runner))) : gmap string Reservation :=
  foldl (fun m '(o, t) => match o with Some h => <[h_ID h := ht_reserved t]> m | None => m end)
    ∅ (zip hosts (totalsByHost hosts pools runners)).

(** ** A host is refused exactly when the refusal is explained *)
Lemma excluded_has_reason h p ex : ExcludedBySize h p = Some ex -> se_Reason ex <> "".
Proof.
  unfold ExcludedBySize, standardPhrase.
  repeat (case_match; try done); intros [= <-]; simpl; done.
Qed.

(** C22: [HostShortfall] is empty exactly for the hosts [HostFits]
    accepts, so every host left out of a count has a sentence and no host in it
    does. *)
Theorem HostShortfall_empty_iff_fits (h : Host) (p : Pool) : HostShortfall h p = "" <-> HostFits h p = true.
Proof.
  unfold HostShortfall, HostFits.
  destruct (ExcludedBySize h p) as [ex|] eqn:Ex.
  { split; [|done]. intros E. by apply excluded_has_reason in Ex. }
  destruct (nonempty (ShareTooSmall h (sizedOn p h))); [split; [|done]; by repeat case_match|].
  destruct (fits _ _ _) eqn:Ef; [done|]. split; [|done].
  by repeat case_match.
Qed.

(** ** Sizing a pool on a host *)

(** The memory figures of a pool and a host are below 2^53 MB. *)
Definition measurable (p : Pool) (h : Host) : Prop :=
  exact_int (rs_MinMemoryMB (p_Resources p)) /\ exact_int (rs_MemoryMB (p_Resources p)) /\
  exact_int (sz_MemoryMB (rp_Minimum (h_RunnerProfile h))).

(** [raisedMinimum] on integers. *)
Definition raisedMinimumZ (own host typed : Z) : Z :=
  if (host <=? own) || ((0 <? typed) && (typed <? host)) then own else host.

Lemma raisedMinimum_of_Z own host typed :
  exact_int own -> exact_int host -> exact_int typed ->
  f64_to_int (raisedMinimum (f64_of_Z own) (f64_of_Z host) (f64_of_Z typed)) = raisedMinimumZ own host typed.
Proof.
  intros Ho Hh Ht. unfold raisedMinimum, raisedMinimumZ, fpos.
  change f64_zero with (f64_of_Z 0). rewrite fleb_of_Z, !fltb_of_Z by (done || (unfold exact_int; lia)).
  case_match; by rewrite f64_to_int_of_Z.
Qed.

Lemma raisedMinimum_idemp own host typed :
  raisedMinimum (raisedMinimum own host typed) host typed = raisedMinimum own host typed.
Proof.
  unfold raisedMinimum. destruct ((host <=? own)%f64 || _) eqn:E; [by rewrite E|].
  simpl. by case_match.
Qed.

Lemma raisedMinimumZ_idemp own host typed :
  raisedMinimumZ (raisedMinimumZ own host typed) host typed = raisedMinimumZ own host typed.
Proof.
  unfold raisedMinimumZ. destruct ((host <=? own) || _) eqn:E; [by rewrite E|]. simpl. by case_match.
Qed.

Lemma raisedMinimumZ_exact own host typed :
  exact_int own -> exact_int host -> exact_int (raisedMinimumZ own host typed).
Proof. unfold raisedMinimumZ. by case_match. Qed.

(** The pool with the minimums of [sizedOn], whether or not they changed. *)
Definition sized_min (p : Pool) (h : Host) : float64 * Z :=
  (raisedMinimum (rs_MinCPUs (p_Resources p)) (sz_CPUs (rp_Minimum (h_RunnerProfile h))) (rs_CPUs (p_Resources p)),
   raisedMinimumZ (rs_MinMemoryMB (p_Resources p)) (sz_MemoryMB (rp_Minimum (h_RunnerProfile h)))
                  (rs_MemoryMB (p_Resources p))).

Lemma sizedOn_cases p h :
  measurable p h ->
  sizedOn p h = p \/
  sizedOn p h = p_with_resources p (rs_with_min (p_Resources p) (fst (sized_min p h)) (snd (sized_min p h))).
Proof.
  intros (H1 & H2 & H3). unfold sizedOn. rewrite raisedMinimum_of_Z by done.
  simpl. case_match; auto.
Qed.

Lemma sizedOn_idemp p h : measurable p h -> sizedOn (sizedOn p h) h = sizedOn p h.
Proof.
  intros Hm. destruct (sizedOn_cases p h Hm) as [E|E]; rewrite E; [done|]. clear E.
  destruct Hm as (H1 & H2 & H3). unfold sizedOn. simpl.
  rewrite raisedMinimum_idemp, raisedMinimum_of_Z, raisedMinimumZ_idemp by auto using raisedMinimumZ_exact.
  by case_match.
Qed.

Lemma sizedOn_min_memory p h :
  measurable p h -> rs_MinMemoryMB (p_Resources (sizedOn p h)) = snd (sized_min p h).
Proof.
  intros (H1 & H2 & H3). unfold sizedOn. rewrite raisedMinimum_of_Z by done. simpl.
  destruct (_ && _) eqn:E; bool_to_prop; done.
Qed.

(** On a host the memory minimum of a pool is the larger of the pool's
    and the host's, except that the host's never passes a size the pool states; and
    applying it twice changes nothing. *)
Theorem sizedOn_minimum (p : Pool) (h : Host) :
  measurable p h ->
  let own := rs_MinMemoryMB (p_Resources p) in
  let host := sz_MemoryMB (rp_Minimum (h_RunnerProfile h)) in
  let typed := rs_MemoryMB (p_Resources p) in
  rs_MinMemoryMB (p_Resources (sizedOn p h)) =
    (if decide (0 < typed < host) then own else Z.max own host) /\
  rs_MemoryMB (p_Resources (sizedOn p h)) = typed /\
  sizedOn (sizedOn p h) h = sizedOn p h.
Proof.
  intros Hm own host typed. rewrite sizedOn_min_memory by done. split; [|split; [|by apply sizedOn_idemp]].
  - unfold sized_min, raisedMinimumZ. simpl. fold own host typed.
    destruct (Z.leb_spec host own), (Z.ltb_spec 0 typed), (Z.ltb_spec typed host); simpl; case_decide; lia.
  - destruct (sizedOn_cases p h Hm) as [-> | ->]; done.
Qed.

(** ** Reduced runners *)
Lemma Reserve_sizedOn p h : measurable p h -> Reserve (sizedOn p h) h = Reserve p h.
Proof. intros. unfold Reserve. by rewrite sizedOn_idemp. Qed.
Lemma MinimumReserve_sizedOn p h : measurable p h -> MinimumReserve (sizedOn p h) h = MinimumReserve p h.
Proof. intros. unfold MinimumReserve. by rewrite sizedOn_idemp. Qed.

Lemma MinimumReserve_le p h :
  measurable p h -> res_MemoryMB (MinimumReserve p h) <= res_MemoryMB (Reserve p h) /\
                    res_DiskMB (MinimumReserve p h) = res_DiskMB (Reserve p h).
Proof.
  intros Hm. rewrite <- (Reserve_sizedOn p h Hm). unfold MinimumReserve.
  case_match; [done|]. simpl. split; [|done]. case_match; lia.
Qed.

Lemma fits_memory left want known :
  fits left want known = true -> al_MemoryKnown known = true -> res_MemoryMB want <= res_MemoryMB left.
Proof. unfold fits. repeat case_match; try done. intros _ Hk. rewrite Hk in *. simpl in *. by bool_to_prop. Qed.

Lemma fits_disk left want known :
  fits left want known = true -> al_DiskKnown known = true ->
  0 < al_DiskMB known /\ res_DiskMB want <= res_DiskMB left.
Proof. unfold fits. repeat case_match; try done. intros _ Hk. rewrite Hk in *. simpl in *. bool_to_prop. lia. Qed.

Lemma fieldFactor_cases p typed : fieldFactor p typed = 1 \/ fieldFactor p typed = 2.
Proof. unfold fieldFactor. case_match; auto. Qed.

(** Rounding down to a whole number of containers. *)
Lemma factor_floor p typed z : 0 <= z <= int_max ->
  0 <= (z /% fieldFactor p typed) *% fieldFactor p typed <= z.
Proof.
  intros Hz. destruct (fieldFactor_cases p typed) as [-> | ->].
  - rewrite Z.quot_1_r, (wrap64_id z), Z.mul_1_r, (wrap64_id z); unfold in_int64, int_min, int_max in *; lia.
  - assert (0 <= Z.quot z 2 * 2 <= z)
      by (rewrite Z.quot_div_nonneg by lia; pose proof (Z.mul_div_le z 2); pose proof (Z.div_pos z 2); lia).
    rewrite (wrap64_id (Z.quot z 2)), wrap64_id; unfold in_int64, int_min, int_max in *; lia.
Qed.

Lemma ReducedSize_ge_minimum p h left known charge grant :
  measurable p h -> ReducedSize p h left known = Some (charge, grant) ->
  res_MemoryMB (MinimumReserve p h) <= res_MemoryMB charge.
Proof.
  intros Hm. unfold ReducedSize. rewrite Reserve_sizedOn, MinimumReserve_sizedOn by done.
  destruct (MinimumReserve_le p h Hm) as [Hmin _].
  destruct (negb (Reducible _) || _); [done|]. destruct (fits left _ known); simpl; [|done].
  intros [= <- _]. simpl.
  match goal with |- _ <= (if ?b then _ else _) => destruct b; [lia|done] end.
Qed.

(** A reduced runner is charged at least the pool's minimum and at most
    its standard, never more memory or disk than the host has left, and the disk of
    any other runner; the limits it is created with divide that charge between its
    containers, with no minimum left on them. *)
Theorem ReducedSize_bounds (p : Pool) (h : Host) (left : Reservation) (known : HostAllocation)
    (charge : Reservation) (grant : Resources) :
  measurable p h -> 0 <= res_MemoryMB left <= int_max ->
  ReducedSize p h left known = Some (charge, grant) ->
  res_MemoryMB (MinimumReserve p h) <= res_MemoryMB charge <= res_MemoryMB (Reserve p h) /\
  res_DiskMB charge = res_DiskMB (Reserve p h) /\
  (al_MemoryKnown known = true -> res_MemoryMB charge <= res_MemoryMB left) /\
  (al_DiskKnown known = true -> res_DiskMB charge <= res_DiskMB left) /\
  rs_MemoryMB grant = res_MemoryMB charge /% fieldFactor p (0 <? rs_MemoryMB (p_Resources p)) /\
  rs_MinMemoryMB grant = 0 /\ rs_MinCPUs grant = f64_zero.
Proof.
  intros Hm Hl Hr. pose proof (ReducedSize_ge_minimum _ _ _ _ _ _ Hm Hr) as Hge. revert Hr.
  unfold ReducedSize. rewrite Reserve_sizedOn, MinimumReserve_sizedOn by done.
  destruct (negb (Reducible _) || _); [done|].
  destruct (fits left _ known) eqn:Ef; simpl; [|done]. intros [= <- <-].
  pose proof (fits_memory _ _ _ Ef) as Hmem. pose proof (fits_disk _ _ _ Ef) as Hdisk. simpl in *.
  assert (Hres : rs_MemoryMB (p_Resources (sizedOn p h)) = rs_MemoryMB (p_Resources p) /\
                 p_DockerMode (sizedOn p h) = p_DockerMode p)
    by (destruct (sizedOn_cases p h Hm) as [-> | ->]; done).
  split_and!; try done.
  - match goal with |- (if ?b then _ else _) <= _ => destruct b eqn:E; [|done] end. bool_to_prop.
    pose proof (factor_floor (sizedOn p h) (0 <? rs_MemoryMB (p_Resources (sizedOn p h))) _ Hl). lia.
  - intros. by apply Hdisk.
  - unfold fieldFactor. by destruct Hres as [-> ->].
Qed.

(** ** The search for a machine *)
Lemma bisect_mid lo hi : 0 <= lo < hi -> hi <= int_max ->
  lo +% ((hi -% lo) /% 2) = lo + (hi - lo) / 2 /\ lo <= lo + (hi - lo) / 2 < hi /\
  (lo + (hi - lo) / 2) +% 1 = lo + (hi - lo) / 2 + 1.
Proof.
  intros Hlo Hhi. unfold int_max in Hhi.
  assert (Hd : 0 <= (hi - lo) / 2 < hi - lo) by (split; [apply Z.div_pos; lia|apply Z.div_lt; lia]).
  rewrite (wrap64_id (hi - lo)) by (unfold in_int64, int_min, int_max; lia).
  rewrite Z.quot_div_nonneg by lia.
  rewrite (wrap64_id ((hi - lo) / 2)) by (unfold in_int64, int_min, int_max; lia).
  rewrite !wrap64_id by (unfold in_int64, int_min, int_max; lia). lia.
Qed.

Lemma bisect_spec n lo hi ok :
  0 <= lo <= hi -> hi <= int_max -> hi - lo < 2 ^ Z.of_nat n ->
  (forall v w, v <= w -> ok v = true -> ok w = true) ->
  let r := smallestFitting_loop n lo hi ok in
  lo <= r <= hi /\ (forall v, lo <= v < r -> ok v = false).
Proof.
  intros Hlo Hhi Hn Hmono. revert lo hi Hlo Hhi Hn. induction n as [|n IH]; intros lo hi Hlo Hhi Hn.
  { simpl in Hn. simpl. split; [lia|]. intros v Hv. lia. }
  simpl. destruct (Z.ltb_spec lo hi) as [Hlt|Hge]; [|split; [lia|intros; lia]].
  destruct (bisect_mid lo hi) as (-> & Hmid & ->); [lia|done|].
  rewrite Nat2Z.inj_succ, Z.pow_succ_r in Hn by lia.
  assert (Hhalf : (hi - lo) / 2 < 2 ^ Z.of_nat n) by (apply Z.div_lt_upper_bound; lia).
  assert (hi - (lo + (hi - lo) / 2 + 1) < 2 ^ Z.of_nat n)
    by (pose proof (Z.div_mod (hi - lo) 2 ltac:(lia)); pose proof (Z.mod_pos_bound (hi - lo) 2 ltac:(lia)); lia).
  destruct (ok (lo + (hi - lo) / 2)) eqn:Eok.
  - destruct (IH lo (lo + (hi - lo) / 2)) as [H1 H2]; [lia|lia|lia|]. split; [lia|exact H2].
  - destruct (IH (lo + (hi - lo) / 2 + 1) hi) as [H1 H2]; [lia|lia|lia|]. split; [lia|].
    intros v Hv. destruct (Z.le_gt_cases v (lo + (hi - lo) / 2)).
    + destruct (ok v) eqn:Ev; [|done]. by rewrite (Hmono v (lo + (hi - lo) / 2)) in Eok.
    + apply H2. lia.
Qed.

Lemma bisect_ok n lo hi ok :
  smallestFitting_loop n lo hi ok = hi \/ ok (smallestFitting_loop n lo hi ok) = true.
Proof.
  revert lo hi. induction n as [|n IH]; intros lo hi; simpl; [by left|].
  case_match; [|by left]. case_match eqn:E; [|apply IH].
  destruct (IH lo (lo +% (hi -% lo) /% 2)) as [-> | ?]; auto.
Qed.

Lemma smallestFitting_ok lo hi ok : ok hi = true -> ok (smallestFitting lo hi ok) = true.
Proof. intros. unfold smallestFitting. by destruct (bisect_ok 64 lo hi ok) as [-> | ?]. Qed.

(** The bisection stops within its 64 steps at the least value of the
    interval that fits, or at the end of the interval when nothing before it does,
    for a test that only turns from false to true; and no sum overflows on the way. *)
Theorem smallestFitting_least (lo hi : Z) (ok : Z -> bool) :
  0 <= lo <= hi -> hi <= int_max ->
  (forall v w, v <= w -> ok v = true -> ok w = true) ->
  lo <= smallestFitting lo hi ok <= hi /\
  (forall v, lo <= v < smallestFitting lo hi ok -> ok v = false) /\
  (smallestFitting lo hi ok = hi \/ ok (smallestFitting lo hi ok) = true).
Proof.
  intros Hlo Hhi Hm. destruct (bisect_spec 64 lo hi ok) as [H1 H2]; auto.
  { unfold int_max in Hhi. change (Z.of_nat 64) with 64. lia. }
  split; [done|]. split; [done|]. apply bisect_ok.
Qed.

(** The machine [MachineFor] names is one the pool's runner fits on:
    there are exact figures, of which it names the processors and the sizes rounded
    up to whole gigabytes, with which [HostFits] accepts the host. *)
Theorem MachineFor_fits (h : Host) (p : Pool) (m : MachineSize) :
  MachineFor h p = Some m ->
  exists cpus memoryMB total free,
    HostFits (h_with_size h cpus memoryMB total free) p = true /\
    (ms_CPUs m = cpus /\ ms_MemoryMB m = wholeGB memoryMB \/
     ms_CPUs m = 0 /\ ms_MemoryMB m = 0 /\ cpus <= h_CPUs h /\ memoryMB <= h_MemoryMB h) /\
    (ms_DiskMB m = 0 /\ total = h_DiskTotalMB h /\ free = h_DiskFreeMB h \/
     ms_DiskMB m = wholeGB total /\ free = total -% Z.max (h_DiskTotalMB h -% h_DiskFreeMB h) 0).
Proof.
  unfold MachineFor. case_match; [done|].
  set (diskKnown := 0 <? h_DiskTotalMB h). set (disk := if diskKnown then _ else _). set (free := if diskKnown then _ else _).
  cbv zeta.
  step_option cpus Ecpus.
  step_option memoryMB Emem.
  assert (Hfit : (0 <? h_CPUs h) || (0 <? h_MemoryMB h) = true ->
                 HostFits (h_with_size h cpus memoryMB disk free) p = true).
  { intros Hk. destruct (0 <? h_MemoryMB h).
    - destruct (negb _) eqn:E; [done|]. injection Emem as <-. apply negb_false_iff in E.
      by apply (smallestFitting_ok _ _ (fun v => HostFits (h_with_size h cpus v disk free) p)).
    - injection Emem as <-. destruct (0 <? h_CPUs h); [|done]. by apply List.find_some in Ecpus as [_ ?]. }
  assert (Hsame : (0 <? h_CPUs h) || (0 <? h_MemoryMB h) = false -> cpus = h_CPUs h /\ memoryMB = h_MemoryMB h).
  { intros Hk. apply orb_false_iff in Hk as [Hc Hmem]. rewrite Hc in Ecpus. rewrite Hmem in Emem. split; congruence. }
  clear Ecpus Emem. set (grow := (h_CPUs h <? cpus) || (h_MemoryMB h <? memoryMB)).
  step_option diskMB Ed.
  destruct (_ && _) eqn:Ez; [done|]. intros [= <-]. cbn [ms_CPUs ms_MemoryMB ms_DiskMB] in *.
  assert (Hgrow : ((if grow then cpus else 0) = cpus /\ (if grow then wholeGB memoryMB else 0) = wholeGB memoryMB) \/
    ((if grow then cpus else 0) = 0 /\ (if grow then wholeGB memoryMB else 0) = 0 /\
     cpus <= h_CPUs h /\ memoryMB <= h_MemoryMB h)).
  { destruct grow eqn:Eg; [by left|right]. subst grow. bool_to_prop. auto. }
  destruct diskKnown eqn:Ek.
  - destruct (HostFits (h_with_size h cpus memoryMB (h_DiskTotalMB h) (h_DiskFreeMB h)) p) eqn:E0.
    + injection Ed as <-. exists cpus, memoryMB, (h_DiskTotalMB h), (h_DiskFreeMB h). auto 6.
    + set (used := Z.max _ 0) in *. destruct (HostFits _ p) eqn:E1 in Ed; [|done]. injection Ed as <-. eauto 10.
  - injection Ed as <-. exists cpus, memoryMB, disk, free. split; [|auto 6].
    destruct (_ || _) eqn:Em in Hfit; [auto|]. destruct (Hsame Em) as [-> ->]. exfalso.
    assert (grow = false) as E by (subst grow; by rewrite !Z.ltb_irrefl). by rewrite E in Ez.
Qed.

(** ** One pass for every host, or one look at one of them *)
Lemma hostIndex_snoc hosts o :
  hostIndex (hosts ++ [o]) =
  match o with
  | None => hostIndex hosts
  | Some h => match hostIndex hosts !! h_ID h with
              | Some _ => hostIndex hosts
              | None => <[h_ID h := length hosts]> (hostIndex hosts)
              end
  end.
Proof.
  unfold hostIndex. rewrite imap_app, foldl_app. cbn [imap foldl].
  change ((pair ∘ Init.Nat.add (length hosts)) 0%nat o) with ((length hosts + 0)%nat, o).
  by rewrite Nat.add_0_r.
Qed.

Lemma hostIndex_sound hosts k i :
  hostIndex hosts !! k = Some i -> exists h, hosts !! i = Some (Some h) /\ h_ID h = k.
Proof.
  revert i. induction hosts as [|o hosts IH] using rev_ind; intros i; [done|]. rewrite hostIndex_snoc.
  assert (Hold : hostIndex hosts !! k = Some i -> exists h, (hosts ++ [o]) !! i = Some (Some h) /\ h_ID h = k).
  { intros H. apply IH in H as (h & Hi & ?). exists h. split; [|done]. by apply lookup_app_l_Some. }
  destruct o as [h|]; [|done]. destruct (hostIndex hosts !! h_ID h) eqn:E; [done|].
  rewrite lookup_insert. case_decide; [|done]. intros [= <-]. exists h. split; [|done].
  by rewrite lookup_app_r, Nat.sub_diag.
Qed.

Lemma hostIndex_complete hosts h : Some h ∈ hosts -> is_Some (hostIndex hosts !! h_ID h).
Proof.
  induction hosts as [|o hosts IH] using rev_ind; [by intros ?%elem_of_nil|].
  rewrite elem_of_app, list_elem_of_singleton, hostIndex_snoc. intros [H| <-].
  - apply IH in H. destruct o as [h'|]; [|done]. destruct (hostIndex hosts !! h_ID h'); [done|].
    rewrite lookup_insert. by case_decide.
  - destruct (hostIndex hosts !! h_ID h) eqn:E; [by rewrite E|]. rewrite lookup_insert_eq. done.
Qed.

(** No two hosts have one ID. *)
Definition distinct_hosts (hosts : list (option Host)) : Prop :=
  forall i j h h', hosts !! i = Some (Some h) -> hosts !! j = Some (Some h') -> h_ID h = h_ID h' -> i = j.

Lemma hostIndex_unique hosts i h k :
  distinct_hosts hosts -> hosts !! i = Some (Some h) -> hostIndex hosts !! k = Some i <-> k = h_ID h.
Proof.
  intros Hd Hi. split.
  - intros H. apply hostIndex_sound in H as (h' & Hi' & <-). congruence.
  - intros ->. destruct (hostIndex_complete hosts h) as [j Hj]; [by eapply list_elem_of_lookup_2|].
    rewrite Hj. f_equal. apply hostIndex_sound in Hj as (h' & Hj' & E). by apply (Hd _ _ _ _ Hj' Hi).
Qed.

(** Every live runner, and every live runner of the pools with its pool, in the
    order the loops meet them. *)
Definition live_all (runners : gmap string (list (option Runner))) : list Runner :=
  concat ((fun kv => live_runners (snd kv)) <$> map_to_list runners).
Definition live_of_pools (pools : list (option Pool)) (runners : gmap string (list (option Runner)))
  : list (Pool * Runner) :=
  concat ((fun p => pair p <$> live_runners (map_get runners (p_ID p) [])) <$> omap id pools).

(** What the runners on one host add up to. *)
Definition on_host (h : Host) (r : Runner) : bool := str_eqb (r_HostID r) (h_ID h).
Definition hostTotal (h : Host) (pools : list (option Pool)) (runners : gmap string (list (option Runner))) : hostTotals :=
  foldl (fun t '(p, r) => if on_host h r then hostTotals_add t p h r else t)
    (foldl (fun t r => if on_host h r then set_ours t else t) zero_hostTotals (live_all runners))
    (live_of_pools pools runners).

Lemma totalsByHost_at hosts pools runners i h :
  distinct_hosts hosts -> hosts !! i = Some (Some h) ->
  totalsByHost hosts pools runners !! i = Some (hostTotal h pools runners).
Proof.
  intros Hd Hi. unfold totalsByHost, hostTotal. set (index := hostIndex hosts).
  assert (Hix : forall k, index !! k = Some i <-> k = h_ID h) by (intros; by apply hostIndex_unique).
  rewrite list_lookup_imap, Hi. rewrite (proj2 (Hix (h_ID h)) eq_refl). simpl.
  match goal with |- context [default _ (?out !! i)] =>
    enough (E : out !! i = Some (hostTotal h pools runners)) by by rewrite E end.
  unfold hostTotal, live_of_pools. rewrite <- foldl_concat, foldl_fmap_arg.
  apply (foldl_at _ (fun t p => foldl (fun t '(p, r) => if on_host h r then hostTotals_add t p h r else t) t
                          (pair p <$> live_runners (map_get runners (p_ID p) [])))).
  - unfold live_all. rewrite <- foldl_concat, foldl_fmap_arg.
    apply (foldl_at _ (fun t kv => foldl (fun t r => if on_host h r then set_ours t else t) t (live_runners (snd kv)))).
    { by rewrite list_lookup_fmap, Hi. }
    intros out [k rs] _. simpl.
    rewrite (foldl_through (fun out => out !! i) _ (fun o r => (fun t => if on_host h r then set_ours t else t) <$> o)).
    { destruct (out !! i); [by rewrite foldl_Some|]. simpl. by induction (live_runners rs). }
    intros o r _. rewrite at_index. unfold on_host, str_eqb.
    destruct (o !! i); [|done]. simpl. f_equal. case_decide as E; rewrite Hix in E.
    + by rewrite bool_decide_true.
    + by rewrite bool_decide_false.
  - intros out p _.
    rewrite (foldl_through (fun out => out !! i) _
               (fun o r => (fun t => if on_host h r then hostTotals_add t p h r else t) <$> o)).
    { destruct (out !! i); simpl; [by rewrite foldl_Some, foldl_fmap_arg|]. by induction (live_runners _). }
    intros o r _. unfold on_host, str_eqb.
    destruct (index !! r_HostID r) as [j|] eqn:Ej; [destruct (decide (j = i)) as [->|Hne]|].
    + rewrite Hi, list_lookup_alter_eq. apply Hix in Ej. by rewrite Ej, bool_decide_true.
    + rewrite bool_decide_false by (rewrite <- Hix; congruence).
      assert (forall t : list hostTotals, match hosts !! j with
        | Some (Some h') => alter (fun t => hostTotals_add t p h' r) j t | _ => t end !! i = t !! i) as ->.
      { intros t. destruct (hosts !! j) as [[h'|]|]; [|done|done]. by rewrite list_lookup_alter_ne. }
      by destruct (o !! i).
    + rewrite bool_decide_false by (rewrite <- Hix; congruence). by destruct (o !! i).
Qed.

Lemma totalsByHost_length hosts pools runners : length (totalsByHost hosts pools runners) = length hosts.
Proof.
  unfold totalsByHost. rewrite length_imap.
  apply (foldl_invariant (fun out => length out = length hosts)).
  - apply (foldl_invariant (fun out => length out = length hosts)); [by rewrite length_fmap|].
    intros out [k rs] Ho _. apply (foldl_invariant (fun out => length out = length hosts)); [done|].
    intros o r Hr _. case_match; [|done]. by rewrite length_alter.
  - intros out p Ho _. apply (foldl_invariant (fun out => length out = length hosts)); [done|].
    intros o r Hr _. repeat case_match; by rewrite ?length_alter.
Qed.

Lemma Reserved_total h pools runners : Reserved h pools runners = ht_reserved (hostTotal h pools runners).
Proof.
  unfold Reserved. pose proof (totalsByHost_at [Some h] pools runners 0 h) as H.
  destruct (totalsByHost [Some h] pools runners) as [|t l]; simpl in H.
  - ospecialize (H _ _); [|done|done]. intros [|i] [|j] a b; simpl; try done; lia.
  - ospecialize (H _ _); [|done|congruence]. intros [|i] [|j] a b; simpl; try done; lia.
Qed.

(** Adding up the whole fleet's runners in one pass gives every host the
    figure a look at that host alone gives. *)
Theorem ReservedByHost_is_Reserved (hosts : list (option Host)) (pools : list (option Pool))
    (runners : gmap string (list (option Runner))) (h : Host) :
  distinct_hosts hosts -> Some h ∈ hosts ->
  ReservedByHost hosts pools runners !! h_ID h = Some (Reserved h pools runners).
Proof.
  intros Hd Hin. apply list_elem_of_lookup in Hin as [i Hi]. rewrite Reserved_total.
  unfold ReservedByHost.
  assert (Ht : forall h' t, (Some h', t) ∈ zip hosts (totalsByHost hosts pools runners) -> h_ID h' = h_ID h ->
    ht_reserved t = ht_reserved (hostTotal h pools runners)).
  { intros h' t H E. apply list_elem_of_lookup in H as [j Hj].
    apply lookup_zip_with_Some in Hj as (o & t' & [= <- <-] & Hj1 & Hj2).
    assert (j = i) as -> by by apply (Hd j i h' h).
    rewrite (totalsByHost_at hosts pools runners i h') in Hj2 by done. congruence. }
  assert (Hex : exists t, (Some h, t) ∈ zip hosts (totalsByHost hosts pools runners)).
  { exists (hostTotal h pools runners). apply list_elem_of_lookup. exists i. apply lookup_zip_with_Some.
    eexists _, _. split; [done|]. split; [done|]. by apply totalsByHost_at. }
  revert Ht Hex. generalize (zip hosts (totalsByHost hosts pools runners)) as l.
  induction l as [|[o t] l IH] using rev_ind; intros Ht [t' Hex]; [by apply elem_of_nil in Hex|].
  rewrite foldl_app. simpl.
  assert (Hrest : forall h' t0, (Some h', t0) ∈ l -> h_ID h' = h_ID h ->
    ht_reserved t0 = ht_reserved (hostTotal h pools runners)) by (intros; eapply Ht; [apply elem_of_app; by left|done]).
  destruct o as [h'|].
  - rewrite lookup_insert. case_decide as E; [f_equal; eapply Ht; [apply elem_of_app; right; left|done]|].
    apply IH; [done|]. exists t'. apply elem_of_app in Hex as [Hex|Hex]; [done|].
    apply list_elem_of_singleton in Hex. congruence.
  - apply IH; [done|]. exists t'. apply elem_of_app in Hex as [Hex|Hex]; [done|].
    apply list_elem_of_singleton in Hex. congruence.
Qed.
