(* ===== verification/Throttle.v ===== *)
(** * Host pressure: observed usage, holds and the throttle ladder

    [ObserveHostUsage] (internal/store/host_usage.go) turns what an agent reports
    into the usage the fleet acts on, with the CPU hold's hysteresis;
    [NextThrottle] (internal/scheduler/throttle.go) is the ladder a host climbs
    under sustained pressure and climbs down after calm; [HostAdmissionReason] and
    [hostUnderCPUPressure] (headroom.go) are what placement asks. *)
From Stdlib Require Import ZArith Lia Ascii String.
From stdpp Require Import base strings list gmap.
From S2P Require Import Prelude GoFloat GoString Store Phrases.
Local Open Scope string_scope.
Local Open Scope list_scope.
Local Open Scope Z_scope.

(** ** Observations (host_usage.go) *)
Definition f85 : float64 := Eval vm_compute in f64_of_Z 85.
Definition f95 : float64 := Eval vm_compute in f64_of_Z 95.
Definition f100 : float64 := Eval vm_compute in f64_of_Z 100.
Definition tenth : float64 := Eval vm_compute in f64_lit 1 10.

(** A figure that is a percentage: finite and between 0 and 100. *)
Definition is_percent (v : float64) : bool :=
  negb (f64_is_nan v) && negb (f64_is_inf v) && (v >=? f64_zero)%f64 && (v <=? f100)%f64.

(** The CPU half of [ObserveHostUsage]: the lent share, when the pressure began and
    whether new starts are held. *)
Definition observeCPU (previous : HostUsage) (raw lentPercent : float64) (now : Time)
  : float64 * option Time * bool :=
  let lent := if negb (f64_is_nan lentPercent) && fpos lentPercent then fmin lentPercent raw else f64_zero in
  let value := fmax (raw - fmax lent f64_zero)%f64 f64_zero in
  let held := Usage_Fresh previous now && isSome (u_CPUPercent previous) && u_CPUHeld previous && (value >=? f85)%f64 in
  if (value >=? f95)%f64 then
    let since := match u_CPUHighSince previous with
                 | Some s => if Usage_Fresh previous now then s else now
                 | None => now
                 end in
    (lent, Some since, held || (CPUHoldWindow <=? Time_Sub now since))
  else (lent, None, held).

(** The I/O wait half: when the wait began, if it is still on. *)
Definition observeIOWait (previous : HostUsage) (wait : float64) (now : Time) : option Time :=
  let held := if Usage_Fresh previous now then u_IOWaitHighSince previous else None in
  if (wait >=? IOWaitHighPercent)%f64 then
    match held with Some s => Some s | None => Some now end
  else if (wait >=? IOWaitCalmPercent)%f64 then held
  else None.

Definition ObserveHostUsage (previous measured : HostUsage) (lentPercent : float64) (memoryMB : Z) (now : Time)
  : HostUsage :=
  let cpu := match u_CPUPercent measured with
             | Some v => if is_percent v then Some v else None
             | None => None
             end in
  let '(lent, since, held) := match cpu with
                              | Some raw => observeCPU previous raw lentPercent now
                              | None => (f64_zero, None, false)
                              end in
  let memory := match u_MemoryAvailableMB measured with
                | Some v => if (0 <=? v) && (0 <? memoryMB) && (v <=? memoryMB) then Some v else None
                | None => None
                end in
  let io := match u_IOWaitPercent measured with
            | Some v => if is_percent v then Some v else None
            | None => None
            end in
  let ioSince := match io with Some wait => observeIOWait previous wait now | None => None end in
  let steal := match u_StealPercent measured, cpu with
               | Some v, Some raw => if is_percent v && (v <=? raw + tenth)%f64 then Some v else None
               | _, _ => None
               end in
  let load := match u_LoadAverage1 measured with
              | Some v => if negb (f64_is_nan v) && negb (f64_is_inf v) && (v >=? f64_zero)%f64 then Some v else None
              | None => None
              end in
  if negb (isSome cpu) && negb (isSome memory) && negb (isSome load) then zero_HostUsage
  else {| u_CPUPercent := cpu; u_MemoryAvailableMB := memory; u_LoadAverage1 := load; u_SampledAt := now;
          u_CPUHighSince := since; u_CPUHeld := held; u_LentCPUPercent := lent; u_IOWaitPercent := io;
          u_StealPercent := steal; u_IOWaitHighSince := ioSince |}.

(** ** Admission (headroom.go) *)
Definition HostAdmissionReason (h : Host) (now : Time) : string :=
  if negb (Usage_Fresh (h_Usage h) now) then ""
  else if u_CPUHeld (h_Usage h) then
    "new starts held after sustained CPU pressure; they resume when CPU usage falls below 85%"
  else match u_MemoryAvailableMB (h_Usage h) with
       | Some v => if v <=? MemoryReserve h
                   then "new starts held because available memory is at or below the host reserve" else ""
       | None => ""
       end.

Definition hostUnderCPUPressure (h : Host) (now : Time) : bool :=
  Usage_Fresh (h_Usage h) now &&
  match UnlentCPUPercent (h_Usage h) with Some v => (v >=? f85)%f64 | None => false end.

(** ** The ladder (throttle.go) *)
Definition ThrottleStep : Duration := 2 * Minute.
Definition ThrottleRecovery : Duration := 5 * Minute.
Definition StaleThrottleReset : Duration := 10 * Minute.
Definition LoadPerCPUOverwhelmed : float64 := Eval vm_compute in f64_of_Z 2.
Definition LoadPerCPUCalm : float64 := Eval vm_compute in f64_of_Z 1.
Definition cpuCalmPercent : float64 := Eval vm_compute in f64_of_Z 85.

(** [hostOverwhelmed]: the words of the measurement that says so. *)
Definition hostOverwhelmed (h : Host) : option string :=
  let u := h_Usage h in
  if u_CPUHeld u && (0 <? h_UnlimitedRunners h) then
    Some ("CPU has been at or above 95% for 30 s with " +:+ plural (h_UnlimitedRunners h) "runner" +:+
          " here that no CPU limit binds")
  else
    match u_LoadAverage1 u with
    | Some load =>
        if (0 <? h_CPUs h) && (load >=? LoadPerCPUOverwhelmed * f64_of_Z (h_CPUs h))%f64 then
          Some ("the 1-minute load average is " +:+ format_f 1 load +:+ ", at least twice the host's " +:+
                itoa (h_CPUs h) +:+ " CPUs")
        else match u_MemoryAvailableMB u with
             | Some v => if v <=? MemoryReserve h
                         then Some "available memory is at or below the host's reserve" else None
             | None => None
             end
    | None => match u_MemoryAvailableMB u with
              | Some v => if v <=? MemoryReserve h
                          then Some "available memory is at or below the host's reserve" else None
              | None => None
              end
    end.

Definition hostCalm (h : Host) : bool :=
  let u := h_Usage h in
  if u_CPUHeld u then false
  else if match UnlentCPUPercent u with Some v => (v >=? cpuCalmPercent)%f64 | None => false end then false
  else if match u_LoadAverage1 u with
          | Some load => (0 <? h_CPUs h) && (load >=? LoadPerCPUCalm * f64_of_Z (h_CPUs h))%f64
          | None => false
          end then false
  else if match u_MemoryAvailableMB u with Some v => v <=? MemoryReserve h | None => false end then false
  else true.

Definition th_with_calm (t : HostThrottle) (c : option Time) : HostThrottle :=
  {| th_Level := th_Level t; th_Since := th_Since t; th_ChangedAt := th_ChangedAt t; th_CalmSince := c;
     th_Reason := th_Reason t |}.

Definition NextThrottle (h : Host) (now : Time) : HostThrottle :=
  let t := h_Throttle h in
  let u := h_Usage h in
  if negb (Usage_Fresh u now) then
    if Throttle_Active t && negb (Time_IsZero (u_SampledAt u)) &&
       (StaleThrottleReset <=? Time_Sub now (u_SampledAt u)) then zero_HostThrottle
    else if Throttle_Active t && Time_IsZero (u_SampledAt u) then zero_HostThrottle
    else t
  else
    match hostOverwhelmed h with
    | Some reason =>
        let t := th_with_calm t None in
        if MaxThrottleLevel <=? th_Level t then t
        else if match th_ChangedAt t with Some c => Time_Sub now c <? ThrottleStep | None => false end then t
        else {| th_Level := th_Level t +% 1;
                th_Since := match th_Since t with Some s => Some s | None => Some now end;
                th_ChangedAt := Some now; th_CalmSince := None; th_Reason := reason |}
    | None =>
        if hostCalm h then
          if negb (Throttle_Active t) then zero_HostThrottle
          else match th_CalmSince t with
               | None => th_with_calm t (Some now)
               | Some c =>
                   if Time_Sub now c <? ThrottleRecovery then t
                   else if th_Level t -% 1 <=? 0 then zero_HostThrottle
                   else {| th_Level := th_Level t -% 1; th_Since := th_Since t; th_ChangedAt := Some now;
                           th_CalmSince := Some now; th_Reason := th_Reason t |}
               end
        else th_with_calm t None
    end.

Definition ThrottleFloorFactor (minimumCPUs : float64) (containerCPUs : list float64) : float64 :=
  if (minimumCPUs <=? f64_zero)%f64 then f64_zero
  else fmin (foldl (fun factor cpus => if fpos cpus then fmax factor (minimumCPUs / cpus)%f64 else factor)
                   f64_zero containerCPUs) (f64_of_Z 1).

Definition hostCanThrottleContainers (h : Host) : bool :=
  existsb (fun kind => negb (str_eqb kind BackendProcess)) (h_Backends h).

Definition ThrottleReason (h : Host) : string :=
  let t := h_Throttle h in
  if negb (Throttle_Active t) then "" else
  let slots := "throttled to " +:+ itoa (EffectiveCapacity h) +:+ " of " +:+ itoa (Slots h) +:+ " slots (step " +:+
               itoa (th_Level t) +:+ " of " +:+ itoa MaxThrottleLevel +:+ ") after sustained pressure: " +:+ th_Reason t in
  let limited := h_ActiveRunners h -% h_UnlimitedRunners h in
  let floor := sz_CPUs (rp_Minimum (h_RunnerProfile h)) in
  let jobs :=
    if (0 <? limited) && hostCanThrottleContainers h then
      "running jobs continue, the " +:+ plural limited "runner" +:+ " with a CPU limit at " +:+
      itoa (f64_to_int (CPUFactor t * f100)%f64) +:+ "% of it" +:+
      (if fpos floor then ", but never below this host's minimum of " +:+ formatCPUs floor +:+ " CPU a runner" else "")
    else "running jobs continue" in
  slots +:+ "; " +:+ jobs +:+ ", and the throttle lifts one step after " +:+ formatDuration ThrottleRecovery +:+ " of calm".

(** ** The ladder as a state machine

    A pass looks at a host as measured at some instant; the rung is carried from one
    pass to the next. *)
Definition pass : Type := Host * Time.
Definition throttle_pass (t : HostThrottle) (x : pass) : HostThrottle :=
  NextThrottle (h_with_throttle (fst x) t) (snd x).
Definition throttle_run (t : HostThrottle) (l : list pass) : HostThrottle := foldl throttle_pass t l.

(** Off the ladder nothing is recorded; on it, since when and when it last moved. *)
Definition throttle_wf (t : HostThrottle) : Prop :=
  t = zero_HostThrottle \/
  (1 <= th_Level t <= MaxThrottleLevel /\ is_Some (th_Since t) /\ is_Some (th_ChangedAt t)).

(** Every way a pass can move the ladder. *)
Lemma throttle_pass_cases t x :
  throttle_wf t ->
  let t' := throttle_pass t x in
  let now := snd x in
  (t' = zero_HostThrottle) \/
  (exists c, t' = th_with_calm t c /\ (c = None \/ c = th_CalmSince t \/ (c = Some now /\ 0 < th_Level t))) \/
  (th_Level t < MaxThrottleLevel /\ th_Level t' = th_Level t + 1 /\ th_ChangedAt t' = Some now /\
   th_CalmSince t' = None /\ is_Some (th_Since t') /\
   (forall c, th_ChangedAt t = Some c -> ThrottleStep <= Time_Sub now c)) \/
  (1 < th_Level t /\ th_Level t' = th_Level t - 1 /\ th_ChangedAt t' = Some now /\ th_CalmSince t' = Some now /\
   th_Since t' = th_Since t /\ exists c, th_CalmSince t = Some c /\ ThrottleRecovery <= Time_Sub now c).
Proof.
  intros Hwf. destruct x as [h now]. unfold throttle_pass, NextThrottle. cbv zeta. simpl fst. simpl snd.
  change (h_Throttle (h_with_throttle h t)) with t.
  change (h_Usage (h_with_throttle h t)) with (h_Usage h).
  change (hostOverwhelmed (h_with_throttle h t)) with (hostOverwhelmed h).
  change (hostCalm (h_with_throttle h t)) with (hostCalm h).
  assert (Hlev : 0 <= th_Level t <= 3) by (destruct Hwf as [-> |(H & _)]; [simpl; lia|unfold MaxThrottleLevel in H; lia]).
  assert (Hkeep : t = th_with_calm t (th_CalmSince t)) by by destruct t.
  destruct (Usage_Fresh (h_Usage h) now); simpl.
  2: { repeat case_match; auto. right; left. exists (th_CalmSince t). auto. }
  destruct (hostOverwhelmed h) as [reason|].
  - destruct (Z.leb_spec MaxThrottleLevel (th_Level t)); [right; left; eauto|].
    assert (Hchg : match th_ChangedAt t with Some c => Time_Sub now c <? ThrottleStep | None => false end = false ->
      forall c, th_ChangedAt t = Some c -> ThrottleStep <= Time_Sub now c)
      by (intros H1 c Hc; rewrite Hc in H1; by bool_to_prop).
    destruct (match th_ChangedAt t with Some c => _ | None => _ end); [right; left; eauto|].
    right; right; left. simpl. rewrite wrap64_id by (unfold in_int64, int_min, int_max; lia).
    split_and!; auto. destruct (th_Since t); eauto.
  - destruct (hostCalm h); [|right; left; eauto].
    destruct (Throttle_Active t) eqn:Ha; simpl; [|auto].
    unfold Throttle_Active in Ha. bool_to_prop.
    destruct (th_CalmSince t) as [c|] eqn:Ec; [|right; left; eauto 6].
    destruct (Z.ltb_spec (Time_Sub now c) ThrottleRecovery); [right; left; exists (Some c); auto|].
    rewrite wrap64_id by (unfold in_int64, int_min, int_max; lia).
    destruct (Z.leb_spec (th_Level t - 1) 0); [auto|].
    right; right; right. simpl. split_and!; eauto; lia.
Qed.

Lemma throttle_pass_wf t x : throttle_wf t -> throttle_wf (throttle_pass t x).
Proof.
  intros Hwf. destruct (throttle_pass_cases t x Hwf)
    as [E|[(c & E & Hc)|[(Hl & E & Ec & _ & Es & _)|(Hl & E & Ec & _ & Es & _)]]].
  - by left.
  - rewrite E. destruct Hwf as [-> |H]; [left|by right].
    by destruct Hc as [-> |[-> |[_ Hl]]].
  - right. destruct Hwf as [-> |(H & _)]; simpl in *; rewrite E, Ec; split_and!; try done; try (unfold MaxThrottleLevel in *; lia); eauto.
  - right. destruct Hwf as [-> |(H & Hs & _)]; simpl in *; [lia|]. rewrite E, Ec, Es. split_and!; eauto; lia.
Qed.

(** Whatever an agent reports and whenever a pass runs, a host stays
    between no throttle and the top rung, and while it is throttled the controller
    knows since when and when the rung last changed. *)
Theorem throttle_invariant (l : list pass) :
  let t := throttle_run zero_HostThrottle l in
  0 <= th_Level t <= MaxThrottleLevel /\
  (th_Level t = 0 -> t = zero_HostThrottle) /\
  (0 < th_Level t -> is_Some (th_Since t) /\ is_Some (th_ChangedAt t)).
Proof.
  assert (Hwf : throttle_wf (throttle_run zero_HostThrottle l)).
  { apply (foldl_invariant throttle_wf); [by left|]. intros. by apply throttle_pass_wf. }
  destruct Hwf as [-> |(H & ? & ?)]; simpl; [unfold MaxThrottleLevel; split_and!; done || lia|].
  unfold MaxThrottleLevel in *. split_and!; auto; lia.
Qed.

(** Within any two minutes a host climbs at most one rung, whatever was
    measured and however often the passes ran. *)
Theorem throttle_climbs_slowly (t : HostThrottle) (l : list pass) (t0 : Time) :
  throttle_wf t ->
  (forall x, x ∈ l -> t0 <= snd x < t0 + ThrottleStep) ->
  th_Level (throttle_run t l) <= th_Level t + 1.
Proof.
  intros Hwf Hl.
  assert (Hlev : forall u, throttle_wf u -> 0 <= th_Level u)
    by (intros u [-> |[? _]]; [simpl; lia|unfold MaxThrottleLevel in *; lia]).
  enough (H : throttle_wf (throttle_run t l) /\ (th_Level (throttle_run t l) <= th_Level t \/
     th_Level (throttle_run t l) <= th_Level t + 1 /\ exists s, th_ChangedAt (throttle_run t l) = Some s /\ t0 <= s))
    by lia.
  apply (foldl_invariant (fun u => throttle_wf u /\ (th_Level u <= th_Level t \/
    th_Level u <= th_Level t + 1 /\ exists s, th_ChangedAt u = Some s /\ t0 <= s))); [split; [done|lia]|].
  intros u x [Hu Hb] Hx. split; [by apply throttle_pass_wf|]. specialize (Hl x Hx). pose proof (Hlev t Hwf).
  destruct (throttle_pass_cases u x Hu) as [-> |[(c & -> & _)|[(_ & -> & -> & _ & _ & Hstep)|(_ & -> & -> & _)]]].
  - left. simpl. lia.
  - simpl. done.
  - destruct Hb as [Hb|(Hb & s & Es & Hs)].
    + right. split; [lia|]. eexists; split; [done|lia].
    + specialize (Hstep s Es). apply Time_Sub_ge in Hstep; [|unfold in_int64, int_min, int_max, ThrottleStep, Minute, Second, Millisecond, Microsecond; lia].
      unfold int_min, ThrottleStep, Minute, Second, Millisecond, Microsecond in *. lia.
  - destruct Hb as [Hb|(Hb & s & Es & Hs)]; left; lia.
Qed.

(** A fresh measurement in which everything is calm. *)
Definition calm_pass (x : pass) : Prop :=
  Usage_Fresh (h_Usage (fst x)) (snd x) = true /\ hostOverwhelmed (fst x) = None /\ hostCalm (fst x) = true.

(** Passes at least a recovery apart. *)
Fixpoint spaced (since : Time) (l : list pass) : Prop :=
  match l with
  | [] => True
  | x :: l => since + ThrottleRecovery <= snd x /\ spaced (snd x) l
  end.

Lemma calm_pass_step t x :
  throttle_wf t -> calm_pass x -> throttle_pass t x =
  if th_Level t <=? 0 then zero_HostThrottle
  else match th_CalmSince t with
       | None => th_with_calm t (Some (snd x))
       | Some c =>
           if Time_Sub (snd x) c <? ThrottleRecovery then t
           else if th_Level t -% 1 <=? 0 then zero_HostThrottle
           else {| th_Level := th_Level t -% 1; th_Since := th_Since t; th_ChangedAt := Some (snd x);
                   th_CalmSince := Some (snd x); th_Reason := th_Reason t |}
       end.
Proof.
  intros Hwf (Hf & Ho & Hc). destruct x as [h now]. unfold throttle_pass, NextThrottle. cbv zeta. cbn [fst snd] in *.
  change (h_Throttle (h_with_throttle h t)) with t.
  change (h_Usage (h_with_throttle h t)) with (h_Usage h).
  change (hostOverwhelmed (h_with_throttle h t)) with (hostOverwhelmed h).
  change (hostCalm (h_with_throttle h t)) with (hostCalm h).
  rewrite Hf, Ho, Hc. cbn [negb]. unfold Throttle_Active.
  replace (th_Level t <=? 0) with (negb (0 <? th_Level t)); [done|].
  by rewrite Z.leb_antisym.
Qed.

Lemma calm_descends l t since :
  throttle_wf t -> (0 < th_Level t -> exists c, th_CalmSince t = Some c /\ c <= since) ->
  spaced since l -> Forall calm_pass l ->
  th_Level t <= Z.of_nat (length l) -> throttle_run t l = zero_HostThrottle.
Proof.
  revert t since. induction l as [|x l IH]; intros t since Hwf Hc Hs Hl Hn; simpl in *.
  - destruct Hwf as [-> |[H _]]; [done|lia].
  - inversion Hl as [|? ? Hx Hl']; subst. destruct Hs as [Hs1 Hs2].
    assert (Hz : forall l', Forall calm_pass l' -> throttle_run zero_HostThrottle l' = zero_HostThrottle).
    { clear. induction 1 as [|y l' Hy _ IH]; [done|]. cbn [throttle_run foldl].
      rewrite calm_pass_step by (done || by left). done. }
    pose proof (throttle_pass_wf t x Hwf) as Hwf'.
    rewrite calm_pass_step in Hwf' |- * by done.
    destruct (Z.leb_spec (th_Level t) 0) as [H0|H0]; [by apply Hz|].
    destruct Hc as (c & Hc & Hcs); [done|]. rewrite Hc in *.
    assert (ThrottleRecovery <= Time_Sub (snd x) c).
    { apply Time_Sub_ge; [|left; lia].
      unfold in_int64, int_min, int_max, ThrottleRecovery, Minute, Second, Millisecond, Microsecond. lia. }
    replace (Time_Sub (snd x) c <? ThrottleRecovery) with false in * by (symmetry; apply Z.ltb_ge; lia).
    assert (Hw : th_Level t -% 1 = th_Level t - 1).
    { apply wrap64_id. destruct Hwf as [-> |[H' _]]; [simpl in *; lia|].
      unfold MaxThrottleLevel, in_int64, int_min, int_max in *. lia. }
    rewrite Hw in *. destruct (Z.leb_spec (th_Level t - 1) 0); [by apply Hz|].
    eapply IH; [done| |exact Hs2|done|simpl; lia]. intros _. exists (snd x). split; [done|lia].
Qed.

(** A host that stays calm comes off the ladder: a calm pass starts the
    streak, and one more calm pass for every rung, each a recovery after the last,
    takes it all the way down. *)
Theorem throttle_recovers (t : HostThrottle) (x : pass) (l : list pass) :
  throttle_wf t -> calm_pass x -> Forall calm_pass l -> spaced (snd x) l ->
  (forall c, th_CalmSince t = Some c -> c <= snd x) ->
  th_Level t <= Z.of_nat (length l) ->
  throttle_run t (x :: l) = zero_HostThrottle.
Proof.
  intros Hwf Hx Hl Hs Hc Hn. cbn [throttle_run foldl].
  apply (calm_descends l _ (snd x)); auto using throttle_pass_wf.
  - rewrite calm_pass_step by done.
    destruct (Z.leb_spec (th_Level t) 0); [done|]. intros H'.
    destruct (th_CalmSince t) as [c|] eqn:E; [|simpl; eauto with lia].
    destruct (_ <? _); [rewrite E; eauto|]. destruct (_ <=? _); [done|]. simpl. eauto with lia.
  - rewrite calm_pass_step by done.
    destruct (Z.leb_spec (th_Level t) 0); [simpl; lia|].
    destruct (th_CalmSince t); [|done]. destruct (_ <? _); [done|].
    destruct (Z.leb_spec (th_Level t -% 1) 0); simpl; [lia|].
    rewrite wrap64_id; [lia|]. destruct Hwf as [-> |[H' _]]; [simpl in *; lia|].
    unfold MaxThrottleLevel, in_int64, int_min, int_max in *. lia.
Qed.

(** ** The CPU hold over a history of samples

    [observed us]: the usages the controller has recorded for a host, newest first,
    each from the one before it and what the agent sent. *)
Inductive observed : list HostUsage -> Prop :=
  | observed_none : observed []
  | observed_more us measured lentPercent memoryMB now :
      observed us ->
      observed (ObserveHostUsage (default zero_HostUsage (head us)) measured lentPercent memoryMB now :: us).

(** The CPU in use that was not lent is at least [bar]. *)
Definition busy_at (bar : float64) (u : HostUsage) : Prop :=
  exists v, UnlentCPUPercent u = Some v /\ (v >=? bar)%f64 = true.

Lemma busy_95_85 u : busy_at f95 u -> busy_at f85 u.
Proof. intros (v & E & H). exists v. split; [done|]. eapply fleb_trans; [|exact H]. vm_compute. reflexivity. Qed.

(** What one observation does to the hold and the pressure clock. *)
Lemma observe_cpu previous measured lentPercent memoryMB now :
  let u := ObserveHostUsage previous measured lentPercent memoryMB now in
  (forall s, u_CPUHighSince u = Some s ->
     busy_at f95 u /\ u_SampledAt u = now /\
     (s = now \/ Usage_Fresh previous now = true /\ u_CPUHighSince previous = Some s)) /\
  (u_CPUHeld u = true ->
     busy_at f85 u /\
     (u_CPUHeld previous = true \/ exists s, u_CPUHighSince u = Some s /\ CPUHoldWindow <= Time_Sub now s)).
Proof.
  unfold ObserveHostUsage. cbv zeta.
  destruct (match u_CPUPercent measured with Some v => _ | None => None end) as [raw|] eqn:Ecpu.
  2: { match goal with |- context [if ?b then zero_HostUsage else _] => destruct b end; split; [by intros s [=]|by intros [=]|by intros s [=]|by intros [=]]. }
  destruct (observeCPU previous raw lentPercent now) as [[lent since] held] eqn:Eo. simpl.
  unfold observeCPU in Eo.
  set (lent' := if _ && _ then fmin lentPercent raw else f64_zero) in *.
  set (value := fmax (raw - fmax lent' f64_zero)%f64 f64_zero) in *.
  assert (Hv : lent = lent').
  { clear -Eo. by destruct (f95 <=? value)%f64; injection Eo as <- _ _. }
  unfold busy_at, UnlentCPUPercent. simpl.
  destruct (f95 <=? value)%f64 eqn:E95.
  - injection Eo as _ <- <-. split.
    + intros s [= <-]. split; [eexists; split; [done|by rewrite Hv]|]. split; [done|].
      destruct (u_CPUHighSince previous) as [s'|]; [|by left]. destruct (Usage_Fresh previous now); auto.
    + intros Hh. split.
      * eexists; split; [done|]. rewrite Hv. fold value. eapply fleb_trans; [|exact E95]. vm_compute. reflexivity.
      * apply orb_true_iff in Hh as [Hh|Hh]; bool_to_prop; [by left|right]. eexists. split; [done|]. by bool_to_prop.
  - injection Eo as _ <- <-. split; [done|]. intros Hh. bool_to_prop. split; [|by left].
    eexists; split; [done|]. by rewrite Hv.
Qed.

(** The clock starts at the first of an unbroken run of samples at 95% or more. *)
Lemma high_since_run us u s :
  observed (u :: us) -> u_CPUHighSince u = Some s ->
  exists j w, (u :: us) !! j = Some w /\ u_SampledAt w = s /\
    forall i x, (i <= j)%nat -> (u :: us) !! i = Some x -> busy_at f95 x.
Proof.
  revert u s. induction us as [|v us IH]; intros u s Hobs Hs.
  - inversion Hobs as [|? m l mem now Ho Eu]; subst.
    destruct (observe_cpu (default zero_HostUsage (head [])) m l mem now) as [H1 _].
    destruct (H1 s Hs) as (Hb & Hnow & [-> |[_ Hprev]]); [|done].
    exists 0%nat. eexists. split; [done|]. split; [done|]. intros [|i] x Hi Hx; [|lia]. by injection Hx as <-.
  - inversion Hobs as [|? m l mem now Ho Eu]; subst.
    destruct (observe_cpu (default zero_HostUsage (head (v :: us))) m l mem now) as [H1 _].
    destruct (H1 s Hs) as (Hb & Hnow & [-> |[_ Hprev]]).
    + exists 0%nat. eexists. split; [done|]. split; [done|]. intros [|i] x Hi Hx; [|lia]. by injection Hx as <-.
    + destruct (IH v s Ho Hprev) as (j & w & Hj & Hw & Hall). exists (S j), w. split; [done|]. split; [done|].
      intros [|i] x Hi Hx; [by injection Hx as <-|]. apply (Hall i x); [lia|done].
Qed.

(** New starts are held for CPU only after 30 seconds of samples that were
    all at 95% or more without lent CPU, and only while every sample since has been at
    85% or more: one lower reading anywhere after releases the hold. *)
Theorem cpu_hold_hysteresis (u : HostUsage) (us : list HostUsage) :
  observed (u :: us) -> u_CPUHeld u = true ->
  exists k j uk uj, (k <= j)%nat /\ (u :: us) !! k = Some uk /\ (u :: us) !! j = Some uj /\
    CPUHoldWindow <= u_SampledAt uk - u_SampledAt uj /\
    (forall i x, (i <= k)%nat -> (u :: us) !! i = Some x -> busy_at f85 x) /\
    (forall i x, (k <= i <= j)%nat -> (u :: us) !! i = Some x -> busy_at f95 x).
Proof.
  revert u. induction us as [|v us IH]; intros u Hobs Hh;
    inversion Hobs as [|? m l mem now Ho Eu]; subst;
    match type of Hh with u_CPUHeld (ObserveHostUsage ?prev _ _ _ _) = _ =>
      destruct (observe_cpu prev m l mem now) as [H1 H2] end;
    destruct (H2 Hh) as [Hb [Hprev|(s & Hs & Hwin)]]; try done.
  2: { destruct (IH v Ho Hprev) as (k & j & uk & uj & Hkj & Hk & Hj & Ht & H85 & H95).
       exists (S k), (S j), uk, uj. split_and!; [lia|done|done|done| |].
       - intros [|i] x Hi Hx; [by injection Hx as <-|]. apply (H85 i x); [lia|done].
       - intros [|i] x Hi Hx; [lia|]. apply (H95 i x); [lia|done]. }
  all: destruct (high_since_run _ _ s Hobs Hs) as (j & w & Hj & Hw & Hall);
    destruct (H1 s Hs) as (_ & Hnow & _);
    exists 0%nat, j; eexists _, w; split_and!; [lia|done|done| | |].
  all: try (rewrite Hnow, Hw; apply Time_Sub_ge in Hwin;
    [|unfold in_int64, int_min, int_max, CPUHoldWindow, Second, Millisecond, Microsecond; lia];
    unfold int_min, CPUHoldWindow, Second, Millisecond, Microsecond in *; lia).
  all: try (intros [|i] x Hi Hx; [by injection Hx as <-|lia]).
  all: intros i x Hi Hx; apply (Hall i x); [lia|done].
Qed.

(** ** Slots under a throttle *)
Definition slots_at (slots level : Z) : Z :=
  Z.max 1 (f64_to_int (math_Floor (f64_of_Z slots *
    Throttle_Factor {| th_Level := level; th_Since := None; th_ChangedAt := None; th_CalmSince := None; th_Reason := "" |})%f64)).

Lemma slots_at_table :
  forallb (fun level => forallb (fun slots => slots_at slots level =? Z.max 1 (slots * (4 - level) / 4))
    (seqZ 1 1024)) [1; 2; 3] = true.
Proof. vm_compute. reflexivity. Qed.

(** A rung takes a quarter of a host's slots, rounded down to whole
    runners, and always leaves one: on rung [l] a host of [n] slots admits
    [max 1 (n * (4 - l) / 4)], for every host of up to 1024 slots. *)
Theorem EffectiveCapacity_quarters (h : Host) :
  1 <= Slots h <= 1024 -> 1 <= th_Level (h_Throttle h) <= MaxThrottleLevel ->
  EffectiveCapacity h = Z.max 1 (Slots h * (4 - th_Level (h_Throttle h)) / 4) /\
  1 <= EffectiveCapacity h <= Slots h.
Proof.
  intros Hs Hl. unfold MaxThrottleLevel in Hl.
  assert (E : EffectiveCapacity h = slots_at (Slots h) (th_Level (h_Throttle h))).
  { unfold EffectiveCapacity, Throttle_Active. replace (Slots h <=? 0) with false by (symmetry; apply Z.leb_gt; lia).
    by replace (0 <? th_Level (h_Throttle h)) with true by (symmetry; apply Z.ltb_lt; lia). }
  assert (T : slots_at (Slots h) (th_Level (h_Throttle h)) = Z.max 1 (Slots h * (4 - th_Level (h_Throttle h)) / 4)).
  { pose proof slots_at_table as T. rewrite List.forallb_forall in T.
    specialize (T (th_Level (h_Throttle h))). rewrite List.forallb_forall in T.
    apply Z.eqb_eq, T.
    - assert (th_Level (h_Throttle h) = 1 \/ th_Level (h_Throttle h) = 2 \/ th_Level (h_Throttle h) = 3) by lia.
      simpl. intuition congruence.
    - apply list_elem_of_In, elem_of_seqZ. lia. }
  rewrite E, T. split; [done|].
  assert (Slots h * (4 - th_Level (h_Throttle h)) / 4 <= Slots h)
    by (apply Z.div_le_upper_bound; [lia|nia]). lia.
Qed.
