(* ===== verification/Elastic.v ===== *)
(** * Lending CPU and memory (elastic_loan.go, elastic_memory.go)

    [DecideLoan] decides at each heartbeat whether a runner may be lent CPU, from what
    it remembers of the last loan; [PlanMemoryPool] works out how much memory a host may
    lend.  The theorems say that a loan is taken back only after three fresh samples in
    a row that left it unused, that a runner whose loan was taken back is not lent again
    before its backoff ends unless its demand is new, and that a host never lends
    memory it has promised or that its floor needs. *)
From Stdlib Require Import ZArith Lia Ascii String.
From stdpp Require Import base strings list sorting sets.
From S2P Require Import Prelude GoFloat GoString Store Phrases Resources.
Local Open Scope string_scope.
Local Open Scope list_scope.
Local Open Scope Z_scope.

(** ** Loans (elastic_loan.go) *)
Definition LoanInUseShare : float64 := Eval vm_compute in f64_lit 25 100.
Definition LoanReclaimSamples : Z := 3.
Definition LoanBackoff : Duration := 5 * Minute.
Definition LoanBackoffMax : Duration := 30 * Minute.
Definition LoanSaturatedShare : float64 := Eval vm_compute in f64_lit 95 100.

Record LoanMemory := {
  lm_LastSampleAt : Time;
  lm_LowSamples : Z;
  lm_WastedAt : Time;
  lm_Strikes : Z;
  lm_WastedPeakCPUs : float64;
  lm_PeakCPUs : float64
}.
Definition zero_LoanMemory : LoanMemory :=
  {| lm_LastSampleAt := 0; lm_LowSamples := 0; lm_WastedAt := 0; lm_Strikes := 0;
     lm_WastedPeakCPUs := f64_zero; lm_PeakCPUs := f64_zero |}.

Record LoanInput := {
  li_Now : Time;
  li_SampledAt : Time;
  li_BaseCPUs : float64;
  li_LimitCPUs : float64;
  li_UsedCPUs : float64;
  li_HolderBaseCPUs : float64;
  li_HolderUsedCPUs : float64;
  li_Saturated : bool;
  li_Demanding : bool;
  li_Memory : LoanMemory
}.

Inductive LoanCode :=
  | LoanNotDemanding | LoanLend | LoanInUse | LoanWatching | LoanReclaimed | LoanBackingOff | LoanBackoffOverride.

Record LoanDecision := { ld_Lend : bool; ld_Code : LoanCode; ld_Reason : string; ld_Memory : LoanMemory }.

(** [LoanMemory.Backoff]: doubled for every strike after the first, up to the cap. *)
Fixpoint backoff_loop (n : nat) (d : Duration) : Duration :=
  match n with
  | O => d
  | S n => if d <? LoanBackoffMax then backoff_loop n (d * 2) else d
  end.
Definition Backoff (m : LoanMemory) : Duration :=
  Z.min (backoff_loop (Z.to_nat (lm_Strikes m - 1)) LoanBackoff) LoanBackoffMax.

(** The sample a heartbeat carries counts once. *)
Definition loanFresh (inp : LoanInput) (m : LoanMemory) : bool :=
  negb (Time_IsZero (li_SampledAt inp)) && Time_After (li_SampledAt inp) (lm_LastSampleAt m).
Definition loanLent (inp : LoanInput) : bool := (li_LimitCPUs inp >? li_BaseCPUs inp + cpuEpsilon)%f64.
Definition loanSize (inp : LoanInput) : float64 := (li_LimitCPUs inp - li_BaseCPUs inp)%f64.

(** The container that holds the loan, and the use below which it is unused. *)
Definition holderBase (inp : LoanInput) : float64 := if fpos (li_HolderBaseCPUs inp) then li_HolderBaseCPUs inp else li_BaseCPUs inp.
Definition holderUsed (inp : LoanInput) : float64 := if fpos (li_HolderBaseCPUs inp) then li_HolderUsedCPUs inp else li_UsedCPUs inp.
Definition loanFloor (inp : LoanInput) : float64 := (holderBase inp + LoanInUseShare * loanSize inp)%f64.
Definition loanUsed (inp : LoanInput) : bool := (holderUsed inp >=? loanFloor inp)%f64.

Definition pressing (inp : LoanInput) : bool :=
  negb (loanLent inp) && ((li_UsedCPUs inp >=? LoanSaturatedShare * li_LimitCPUs inp)%f64 || li_Saturated inp).

Definition lm_with (m : LoanMemory) (low : Z) (wastedAt : Time) (strikes : Z) (wastedPeak peak : float64) : LoanMemory :=
  {| lm_LastSampleAt := lm_LastSampleAt m; lm_LowSamples := low; lm_WastedAt := wastedAt; lm_Strikes := strikes;
     lm_WastedPeakCPUs := wastedPeak; lm_PeakCPUs := peak |}.

(** The part of [DecideLoan] for a runner that is backing off. *)
Definition backingOff (inp : LoanInput) (m : LoanMemory) (since : Duration) : LoanDecision :=
  if pressing inp && (lm_WastedPeakCPUs m <? LoanSaturatedShare * li_BaseCPUs inp)%f64 then
    {| ld_Lend := true; ld_Code := LoanBackoffOverride;
       ld_Reason := "lent again before its backoff ended: now at its " +:+ format_f 2 (li_LimitCPUs inp) +:+
                    " CPU limit, where it used only " +:+ format_f 2 (lm_WastedPeakCPUs (li_Memory inp)) +:+
                    " while it last held a loan";
       ld_Memory := lm_with m 0 0 (lm_Strikes m) f64_zero f64_zero |}
  else
    {| ld_Lend := false; ld_Code := LoanBackingOff;
       ld_Reason := "not lent: its last loan went unused, and it waits another " +:+
                    Duration_String (Duration_Round (Backoff m - since) Second) +:+ " before it is lent again";
       ld_Memory := lm_with m 0 (lm_WastedAt m) (lm_Strikes m) (lm_WastedPeakCPUs m) f64_zero |}.

(** The part for a runner that holds a loan. *)
Definition holdingLoan (inp : LoanInput) (m : LoanMemory) (fresh : bool) : LoanDecision :=
  let peak := if fresh then fmax (lm_PeakCPUs m) (li_UsedCPUs inp) else lm_PeakCPUs m in
  if loanUsed inp then
    {| ld_Lend := true; ld_Code := LoanInUse;
       ld_Reason := "keeps its loan: using " +:+ format_f 2 (holderUsed inp) +:+
                    " CPUs where the loan is, at least a quarter of the " +:+ format_f 2 (loanSize inp) +:+
                    " lent above a " +:+ format_f 2 (holderBase inp) +:+ " share";
       ld_Memory := lm_with m 0 0 0 f64_zero peak |}
  else
    let low := if fresh then lm_LowSamples m + 1 else lm_LowSamples m in
    if low <? LoanReclaimSamples then
      {| ld_Lend := true; ld_Code := LoanWatching;
         ld_Reason := "keeps its loan for now: using " +:+ format_f 2 (holderUsed inp) +:+
                      " CPUs where the loan is, under " +:+ format_f 2 (loanFloor inp) +:+ ", for " +:+ itoa low +:+
                      " of " +:+ itoa LoanReclaimSamples +:+ " samples before it is taken back";
         ld_Memory := lm_with m low (lm_WastedAt m) (lm_Strikes m) (lm_WastedPeakCPUs m) peak |}
    else
      let m' := lm_with m 0 (li_Now inp) (lm_Strikes m + 1) peak f64_zero in
      {| ld_Lend := false; ld_Code := LoanReclaimed;
         ld_Reason := "loan taken back: used at most " +:+ format_f 2 (lm_WastedPeakCPUs m') +:+ " CPUs of " +:+
                      format_f 2 (li_LimitCPUs inp) +:+ " for " +:+ itoa LoanReclaimSamples +:+
                      " samples in a row; not lent again for " +:+ Duration_String (Backoff m') +:+
                      " unless its demand changes";
         ld_Memory := m' |}.

(** The part for a runner that holds none. *)
Definition notLent (inp : LoanInput) (m : LoanMemory) : LoanDecision :=
  let m := lm_with m 0 (lm_WastedAt m) (lm_Strikes m) (lm_WastedPeakCPUs m) f64_zero in
  if li_Demanding inp then
    {| ld_Lend := true; ld_Code := LoanLend;
       ld_Reason := "may be lent CPU: using " +:+ format_f 2 (li_UsedCPUs inp) +:+ " CPUs of its " +:+
                    format_f 2 (li_BaseCPUs inp) +:+ " guarantee, or throttled at it";
       ld_Memory := m |}
  else
    {| ld_Lend := false; ld_Code := LoanNotDemanding;
       ld_Reason := "not lent: using " +:+ format_f 2 (li_UsedCPUs inp) +:+ " CPUs of its " +:+
                    format_f 2 (li_BaseCPUs inp) +:+ " guarantee, short of what would count as demand";
       ld_Memory := m |}.

Definition DecideLoan (inp : LoanInput) : LoanDecision :=
  let m := li_Memory inp in
  let fresh := loanFresh inp m in
  let m := if fresh then {| lm_LastSampleAt := li_SampledAt inp; lm_LowSamples := lm_LowSamples m;
                            lm_WastedAt := lm_WastedAt m; lm_Strikes := lm_Strikes m;
                            lm_WastedPeakCPUs := lm_WastedPeakCPUs m; lm_PeakCPUs := lm_PeakCPUs m |} else m in
  let since := Time_Sub (li_Now inp) (lm_WastedAt m) in
  let wasted := negb (Time_IsZero (lm_WastedAt m)) in
  if wasted && (since <? Backoff m) then backingOff inp m since else
  let m := if wasted && (Backoff m + LoanBackoffMax <=? since)
           then lm_with m (lm_LowSamples m) 0 0 f64_zero (lm_PeakCPUs m) else m in
  if loanLent inp then holdingLoan inp m fresh else notLent inp m.

(** ** The memory valve (elastic_memory.go) *)
Definition DefaultMemoryCeilingFactor : float64 := Eval vm_compute in f64_lit 15 10.
Definition MemoryPoolSafetyShare : float64 := Eval vm_compute in f64_lit 5 100.

Definition LaunchedMemoryMB (p : option Pool) (r : option Runner) : Z * bool :=
  match p, r with
  | Some p, Some r =>
      if r_AllocatedMemoryMB r <=? 0 then (0, false) else
      let mb := r_AllocatedMemoryMB r in
      let doubled := is_dind (p_DockerMode p) &&
        (str_eqb (r_AllocationSource r) AllocationFromPool ||
         ((str_eqb (r_AllocationSource r) AllocationReduced || str_eqb (r_AllocationSource r) AllocationHistory) &&
          (0 <? rs_MemoryMB (p_Resources p)))) in
      (if doubled then mb *% 2 else mb, true)
  | _, _ => (0, false)
  end.

Definition lowered (ceiling cap : Z) : Z := if 0 <? cap then Z.min ceiling cap else ceiling.

Definition MemoryCeiling (p : option Pool) (h : option Host) (guaranteeMB : Z) : Z :=
  if guaranteeMB <=? 0 then 0 else
  let ceiling := f64_to_int (f64_of_Z guaranteeMB * DefaultMemoryCeilingFactor)%f64 in
  let ceiling := match p with
                 | Some p => if 0 <? p_MemoryBurstMaxMemoryMB p then p_MemoryBurstMaxMemoryMB p else ceiling
                 | None => ceiling
                 end in
  let ceiling := match h with
    | Some h =>
        let ceiling := lowered ceiling (std_BurstMaxMemoryMB (rp_Standard (h_RunnerProfile h))) in
        let ceiling := lowered ceiling (h_MemoryMB h) in
        match p with
        | Some p => match HostBackends_Find (h_BackendInfo h) (p_Backend p) with
                    | Some info => lowered ceiling (hb_MemoryMB info)
                    | None => ceiling
                    end
        | None => ceiling
        end
    | None => ceiling
    end in
  Z.max ceiling guaranteeMB.

Definition MemoryPoolFloor (h : option Host) : Z :=
  match h with
  | None => 0
  | Some h => if h_MemoryMB h <=? 0 then 0
              else MemoryReserve h +% f64_to_int (MemoryPoolSafetyShare * f64_of_Z (h_MemoryMB h))%f64
  end.

Record MemoryWorkload := { mw_ID : string; mw_GuaranteeMB : Z; mw_LentMB : Z; mw_Idle : bool }.

Record MemoryPoolInput := {
  mi_TotalMB : Z;
  mi_FloorMB : Z;
  mi_StartReserveMB : Z;
  mi_AvailableMB : option Z;
  mi_Workloads : list MemoryWorkload
}.

Inductive MemoryBound := MemoryBoundLedger | MemoryBoundMeasured.

Record MemoryPool := {
  mp_CapacityMB : Z;
  mp_LentMB : Z;
  mp_PoolMB : Z;
  mp_CommittedMB : Z;
  mp_IdleReserveMB : Z;
  mp_StartReserveMB : Z;
  mp_Binding : MemoryBound
}.

(** The ledger: what is lent, the largest idle guarantee, and what is committed. *)
Record ledger := { lg_lent : Z; lg_idle : Z; lg_committed : Z }.
Definition ledger_add (l : ledger) (w : MemoryWorkload) : ledger :=
  let lent := lg_lent l +% Z.max (mw_LentMB w) 0 in
  if mw_Idle w
  then {| lg_lent := lent; lg_idle := Z.max (lg_idle l) (Z.max (mw_GuaranteeMB w) 0); lg_committed := lg_committed l |}
  else {| lg_lent := lent; lg_idle := lg_idle l; lg_committed := lg_committed l +% Z.max (mw_GuaranteeMB w) 0 |}.
Definition ledgerOf (ws : list MemoryWorkload) : ledger :=
  foldl ledger_add {| lg_lent := 0; lg_idle := 0; lg_committed := 0 |} ws.

Definition PlanMemoryPool (inp : MemoryPoolInput) : MemoryPool :=
  let start := Z.max (mi_StartReserveMB inp) 0 in
  let floor := Z.max (mi_FloorMB inp) 0 in
  let l := ledgerOf (mi_Workloads inp) in
  let unpromised := Z.max (mi_TotalMB inp -% floor -% lg_committed l -% lg_idle l -% start) 0 in
  let '(capacity, binding) :=
    match mi_AvailableMB inp with
    | Some available =>
        let measured := Z.max (available -% floor) 0 +% lg_lent l in
        if measured <? unpromised then (measured, MemoryBoundMeasured) else (unpromised, MemoryBoundLedger)
    | None => (unpromised, MemoryBoundLedger)
    end in
  {| mp_CapacityMB := capacity; mp_LentMB := lg_lent l; mp_PoolMB := Z.max (capacity -% lg_lent l) 0;
     mp_CommittedMB := lg_committed l; mp_IdleReserveMB := lg_idle l; mp_StartReserveMB := start; mp_Binding := binding |}.

(** ** Heartbeats *)

(** One heartbeat with what was remembered, and the memory after a series of them. *)
Definition li_with_memory (x : LoanInput) (m : LoanMemory) : LoanInput :=
  {| li_Now := li_Now x; li_SampledAt := li_SampledAt x; li_BaseCPUs := li_BaseCPUs x; li_LimitCPUs := li_LimitCPUs x;
     li_UsedCPUs := li_UsedCPUs x; li_HolderBaseCPUs := li_HolderBaseCPUs x; li_HolderUsedCPUs := li_HolderUsedCPUs x;
     li_Saturated := li_Saturated x; li_Demanding := li_Demanding x; li_Memory := m |}.
Definition beat (m : LoanMemory) (x : LoanInput) : LoanDecision := DecideLoan (li_with_memory x m).
Definition recall (m : LoanMemory) (l : list LoanInput) : LoanMemory := foldl (fun m x => ld_Memory (beat m x)) m l.

(** A heartbeat at which a runner holds a loan it is not using. *)
Definition unused (x : LoanInput) : Prop := loanLent x = true /\ loanUsed x = false.

Definition newest (m : LoanMemory) (x : LoanInput) : Time := if loanFresh x m then li_SampledAt x else lm_LastSampleAt m.
Definition lowAfter (m : LoanMemory) (x : LoanInput) : Z := if loanFresh x m then lm_LowSamples m + 1 else lm_LowSamples m.

(** What a decision does to the samples remembered: the count goes to zero, or the loan
    went unused and the count is [low]; and only a count of three takes a loan back. *)
Definition counts (inp : LoanInput) (sample : Time) (low : Z) (d : LoanDecision) : Prop :=
  lm_LastSampleAt (ld_Memory d) = sample /\
  (lm_LowSamples (ld_Memory d) = 0 \/ unused inp /\ lm_LowSamples (ld_Memory d) = low) /\
  (ld_Code d = LoanReclaimed -> unused inp /\ LoanReclaimSamples <= low).

Lemma backingOff_counts inp m since low : counts inp (lm_LastSampleAt m) low (backingOff inp m since).
Proof. unfold backingOff. case_match; (split; [done|]; split; [by left|done]). Qed.

Lemma notLent_counts inp m low : counts inp (lm_LastSampleAt m) low (notLent inp m).
Proof. unfold notLent. cbv zeta. case_match; (split; [done|]; split; [by left|done]). Qed.

Lemma holdingLoan_counts inp m (fresh : bool) :
  loanLent inp = true ->
  counts inp (lm_LastSampleAt m) (if fresh then lm_LowSamples m + 1 else lm_LowSamples m) (holdingLoan inp m fresh).
Proof.
  intros Hl. unfold holdingLoan. cbv zeta. destruct (loanUsed inp) eqn:Eu; [split; [done|]; split; [by left|done]|].
  assert (unused inp) by done.
  destruct (Z.ltb_spec (if fresh then lm_LowSamples m + 1 else lm_LowSamples m) LoanReclaimSamples).
  - split; [done|]. split; [by right|done].
  - split; [done|]. split; [by left|done].
Qed.

(** Neither the sample nor the reset of an old waste changes the count. *)
Lemma beat_low m x : counts x (newest m x) (lowAfter m x) (beat m x).
Proof.
  unfold beat, DecideLoan. cbn [li_Memory li_with_memory]. set (inp := li_with_memory x m).
  change (loanFresh inp m) with (loanFresh x m). unfold newest, lowAfter. change (counts x) with (counts inp).
  set (m1 := if loanFresh x m then _ else m).
  assert (E1 : lm_LastSampleAt m1 = if loanFresh x m then li_SampledAt x else lm_LastSampleAt m) by (unfold m1; destruct (loanFresh x m); reflexivity).
  assert (E2 : lm_LowSamples m1 = lm_LowSamples m) by (unfold m1; destruct (loanFresh x m); reflexivity).
  rewrite <- E1, <- E2. cbv zeta. destruct (_ && (_ <? Backoff m1)); [apply backingOff_counts|].
  set (m2 := if _ && _ then _ else m1).
  assert (lm_LastSampleAt m1 = lm_LastSampleAt m2 /\ lm_LowSamples m1 = lm_LowSamples m2) as [-> ->] by (unfold m2; clearbody m1; by destruct (_ && (Backoff m1 + _ <=? _))).
  destruct (loanLent inp) eqn:El; [by apply holdingLoan_counts|apply notLent_counts].
Qed.

(** The count is of fresh samples, one after another, over a stretch of heartbeats at
    all of which the loan went unused. *)
Definition low_run (l : list LoanInput) (low : Z) (upto : Time) : Prop :=
  exists pre run xs, l = pre ++ run /\ Forall unused run /\ xs `sublist_of` run /\ Z.of_nat (length xs) = low /\
    StronglySorted Z.lt (li_SampledAt <$> xs) /\ Forall (fun x => li_SampledAt x <= upto) xs.

Lemma low_run_nil l upto : low_run l 0 upto.
Proof. exists l, [], []. rewrite app_nil_r. split_and!; try done; constructor. Qed.

Lemma StronglySorted_snoc (l : list Z) x : StronglySorted Z.lt l -> Forall (fun y => y < x) l -> StronglySorted Z.lt (l ++ [x]).
Proof.
  induction 1 as [|a l Hl IH Ha]; intros Hx; [by repeat constructor|]. apply Forall_cons in Hx as [? Hx].
  simpl. constructor; [by apply IH|]. apply Forall_app. split; [done|by apply Forall_singleton].
Qed.

Lemma low_run_snoc m l x :
  low_run l (lm_LowSamples m) (lm_LastSampleAt m) -> unused x -> low_run (l ++ [x]) (lowAfter m x) (newest m x).
Proof.
  intros (pre & run & xs & -> & Hu & Hs & Hn & Hsort & Hle) Hx. unfold lowAfter, newest.
  destruct (loanFresh x m) eqn:Ef.
  - apply andb_prop in Ef as [_ Ef%Z.ltb_lt]. exists pre, (run ++ [x]), (xs ++ [x]).
    split_and!; [by rewrite app_assoc|apply Forall_app; split; [done|by apply Forall_singleton]|by apply sublist_app|..].
    + rewrite length_app. simpl. lia.
    + rewrite fmap_app. apply StronglySorted_snoc; [done|]. apply Forall_fmap. eapply Forall_impl; [exact Hle|]. unfold compose. intros. lia.
    + apply Forall_app. split; [|by apply Forall_singleton]. eapply Forall_impl; [exact Hle|]. intros. simpl in *. lia.
  - exists pre, (run ++ [x]), xs.
    split_and!; [by rewrite app_assoc|apply Forall_app; split; [done|by apply Forall_singleton]|by apply sublist_inserts_r|done..].
Qed.

Lemma recall_low l : low_run l (lm_LowSamples (recall zero_LoanMemory l)) (lm_LastSampleAt (recall zero_LoanMemory l)).
Proof.
  induction l as [|x l IH] using rev_ind; [apply low_run_nil|]. unfold recall. rewrite foldl_app. cbn [foldl].
  fold (recall zero_LoanMemory l). destruct (beat_low (recall zero_LoanMemory l) x) as (El & [-> |[Hu ->]] & _); [apply low_run_nil|].
  rewrite El. by apply low_run_snoc.
Qed.

(** Whatever the heartbeats were, a loan is taken back only at the end of
    a stretch of heartbeats at every one of which the runner held a loan and used less
    than a quarter of it, and which carried at least three samples, each newer than the
    one before. *)
Theorem loan_reclaimed_after_low_samples (l : list LoanInput) (x : LoanInput) :
  ld_Code (beat (recall zero_LoanMemory l) x) = LoanReclaimed ->
  exists pre run xs, l ++ [x] = pre ++ run /\ Forall unused run /\ xs `sublist_of` run /\
    LoanReclaimSamples <= Z.of_nat (length xs) /\ StronglySorted Z.lt (li_SampledAt <$> xs).
Proof.
  intros E. destruct (beat_low (recall zero_LoanMemory l) x) as (_ & _ & H). destruct (H E) as [Hu Hlow].
  destruct (low_run_snoc _ l x (recall_low l) Hu) as (pre & run & xs & ? & ? & ? & Hn & ? & _).
  exists pre, run, xs. split_and!; [done|done|done|lia|done].
Qed.

(** ** Backing off *)
Lemma backoff_loop_bounds n d : LoanBackoff <= d -> LoanBackoff <= backoff_loop n d.
Proof.
  revert d. induction n as [|n IH]; intros d Hd; simpl; [done|]. case_match; [|done]. apply IH. assert (0 < LoanBackoff) by by vm_compute. lia.
Qed.

Lemma Backoff_bounds m : LoanBackoff <= Backoff m <= LoanBackoffMax.
Proof.
  unfold Backoff. pose proof (backoff_loop_bounds (Z.to_nat (lm_Strikes m - 1)) LoanBackoff ltac:(lia)).
  assert (LoanBackoff <= LoanBackoffMax) by by vm_compute. lia.
Qed.

(** A heartbeat within the least backoff of a waste either leaves the runner backing
    off, with the waste remembered, or overrides it for a demand that is new. *)
Lemma beat_backs_off m x :
  lm_WastedAt m <> 0 -> Time_Sub (li_Now x) (lm_WastedAt m) < LoanBackoff ->
  (ld_Lend (beat m x) = false /\ ld_Code (beat m x) = LoanBackingOff /\
   lm_WastedAt (ld_Memory (beat m x)) = lm_WastedAt m /\
   lm_WastedPeakCPUs (ld_Memory (beat m x)) = lm_WastedPeakCPUs m) \/
  (ld_Code (beat m x) = LoanBackoffOverride /\ pressing x = true /\
   (lm_WastedPeakCPUs m <? LoanSaturatedShare * li_BaseCPUs x)%f64 = true).
Proof.
  intros Hw Hs. unfold beat, DecideLoan. cbn [li_Memory li_with_memory]. set (inp := li_with_memory x m).
  set (m1 := if loanFresh inp m then _ else m). cbv zeta.
  assert (E1 : lm_WastedAt m1 = lm_WastedAt m) by (unfold m1; destruct (loanFresh inp m); reflexivity).
  assert (E2 : lm_WastedPeakCPUs m1 = lm_WastedPeakCPUs m) by (unfold m1; destruct (loanFresh inp m); reflexivity).
  pose proof (Backoff_bounds m1) as Hb. rewrite E1. unfold Time_IsZero. rewrite (proj2 (Z.eqb_neq _ _) Hw). simpl negb.
  change (li_Now inp) with (li_Now x). rewrite (proj2 (Z.ltb_lt _ _)) by lia. cbn [andb].
  unfold backingOff. rewrite E2. change (pressing inp) with (pressing x). change (li_BaseCPUs inp) with (li_BaseCPUs x).
  destruct (pressing x && _) eqn:Ep; [right|left].
  - by apply andb_prop in Ep as [-> ->].
  - split_and!; [done|done|exact E1|done].
Qed.

(** A loan taken back is remembered as wasted now. *)
Lemma holdingLoan_wasted inp m (f : bool) :
  ld_Code (holdingLoan inp m f) = LoanReclaimed -> lm_WastedAt (ld_Memory (holdingLoan inp m f)) = li_Now inp.
Proof.
  unfold holdingLoan. cbv zeta. destruct (loanUsed inp); [done|].
  by destruct ((if f then lm_LowSamples m + 1 else lm_LowSamples m) <? LoanReclaimSamples).
Qed.

Lemma reclaimed_wasted m r :
  ld_Code (beat m r) = LoanReclaimed -> lm_WastedAt (ld_Memory (beat m r)) = li_Now r.
Proof.
  unfold beat, DecideLoan. cbn [li_Memory li_with_memory]. set (inp := li_with_memory r m).
  set (m1 := if loanFresh inp m then _ else m). clearbody m1. cbv zeta.
  destruct (_ && (_ <? Backoff m1)); [unfold backingOff; by destruct (pressing inp && _)|].
  match goal with |- context [if _ && (Backoff m1 + _ <=? _) then ?a else m1] => set (m2 := if _ && (Backoff m1 + _ <=? _) then a else m1) end. clearbody m2.
  destruct (loanLent inp); [by intros ->%holdingLoan_wasted|]. unfold notLent. cbv zeta. by destruct (li_Demanding inp).
Qed.

(** Once a loan has been taken back, the first heartbeat within five
    minutes that lends again does so because the runner presses against its limit and
    used less than that under the loan it wasted; every heartbeat before it lends
    nothing. *)
Theorem loan_backs_off (m : LoanMemory) (r : LoanInput) (quiet : list LoanInput) (x : LoanInput) :
  let wasted := ld_Memory (beat m r) in
  ld_Code (beat m r) = LoanReclaimed -> li_Now r <> 0 ->
  (forall y, y ∈ quiet ++ [x] -> Time_Sub (li_Now y) (li_Now r) < LoanBackoff) ->
  (forall before y after, quiet = before ++ y :: after -> ld_Code (beat (recall wasted before) y) <> LoanBackoffOverride) ->
  (forall before y after, quiet = before ++ y :: after -> ld_Lend (beat (recall wasted before) y) = false) /\
  (ld_Lend (beat (recall wasted quiet) x) = true ->
   ld_Code (beat (recall wasted quiet) x) = LoanBackoffOverride /\ pressing x = true /\
   (lm_WastedPeakCPUs wasted <? LoanSaturatedShare * li_BaseCPUs x)%f64 = true).
Proof.
  cbv zeta. intros Hr Hnz Hsoon Hno. set (w := ld_Memory (beat m r)) in *.
  assert (Hw : lm_WastedAt w = li_Now r).
  { by apply reclaimed_wasted. }
  assert (Hkept : forall before after, quiet = before ++ after ->
    lm_WastedAt (recall w before) = li_Now r /\ lm_WastedPeakCPUs (recall w before) = lm_WastedPeakCPUs w).
  { induction before as [|y before IH] using rev_ind; intros after E; [done|].
    rewrite <- app_assoc in E. destruct (IH _ E) as [IH1 IH2]. unfold recall. rewrite foldl_app. cbn [foldl]. fold (recall w before).
    destruct (beat_backs_off (recall w before) y) as [(_ & _ & -> & ->)|(Ho & _)]; [by rewrite IH1| |by split|].
    - rewrite IH1. apply Hsoon. rewrite E. set_solver.
    - by destruct (Hno _ _ _ E). }
  split.
  - intros before y after E. destruct (Hkept before (y :: after) E) as [H1 H2].
    destruct (beat_backs_off (recall w before) y) as [(? & _)|(Ho & _)]; [by rewrite H1| |done|by destruct (Hno _ _ _ E)].
    rewrite H1. apply Hsoon. rewrite E. set_solver.
  - intros Hl. destruct (Hkept quiet [] ltac:(by rewrite app_nil_r)) as [H1 H2].
    destruct (beat_backs_off (recall w quiet) x) as [(Hf & _)|Ho]; [by rewrite H1| |congruence|by rewrite <- H2].
    rewrite H1. apply Hsoon. set_solver.
Qed.

(** ** The ledger *)
Definition sum_of {A} (f : A -> Z) (l : list A) : Z := foldr (fun x s => f x + s) 0 l.

Lemma sum_of_perm {A} (f : A -> Z) l l' : Permutation l l' -> sum_of f l = sum_of f l'.
Proof. induction 1; simpl; lia. Qed.

Lemma sum_of_nonneg {A} (f : A -> Z) l : (forall x, 0 <= f x) -> 0 <= sum_of f l.
Proof. intros H. induction l as [|x l IH]; simpl; [lia|]. pose proof (H x). lia. Qed.

Lemma sum_of_app {A} (f : A -> Z) l l' : sum_of f (l ++ l') = sum_of f l + sum_of f l'.
Proof. induction l as [|x l IH]; simpl; lia. Qed.

Definition lent_of (w : MemoryWorkload) : Z := Z.max (mw_LentMB w) 0.
Definition busy_of (w : MemoryWorkload) : Z := if mw_Idle w then 0 else Z.max (mw_GuaranteeMB w) 0.
Definition idle_of (w : MemoryWorkload) : Z := if mw_Idle w then Z.max (mw_GuaranteeMB w) 0 else 0.
Definition largest_idle (ws : list MemoryWorkload) : Z := foldr (fun w m => Z.max (idle_of w) m) 0 ws.

(** Megabytes that a machine could hold: far below where the sums would wrap. *)
Definition mb_limit : Z := 2 ^ 50.

Record sane (inp : MemoryPoolInput) : Prop := {
  sane_total : 0 <= mi_TotalMB inp <= mb_limit;
  sane_floor : mi_FloorMB inp <= mb_limit;
  sane_start : mi_StartReserveMB inp <= mb_limit;
  sane_available : forall a, mi_AvailableMB inp = Some a -> - mb_limit <= a <= mb_limit;
  sane_lent : sum_of lent_of (mi_Workloads inp) <= mb_limit;
  sane_busy : sum_of busy_of (mi_Workloads inp) <= mb_limit;
  sane_idle : largest_idle (mi_Workloads inp) <= mb_limit
}.

Lemma lent_nonneg w : 0 <= lent_of w.
Proof. unfold lent_of. lia. Qed.
Lemma busy_nonneg w : 0 <= busy_of w.
Proof. unfold busy_of. case_match; lia. Qed.

Lemma largest_idle_nonneg ws : 0 <= largest_idle ws.
Proof. unfold largest_idle. induction ws; simpl; lia. Qed.

Lemma largest_idle_app ws w : largest_idle (ws ++ [w]) = Z.max (largest_idle ws) (idle_of w).
Proof.
  unfold largest_idle. induction ws as [|x ws IH]; simpl; [|rewrite IH; lia]. unfold idle_of. case_match; lia.
Qed.

Lemma largest_idle_perm ws ws' : Permutation ws ws' -> largest_idle ws = largest_idle ws'.
Proof. unfold largest_idle. induction 1; simpl; lia. Qed.

Lemma small_in_int64 z : 0 <= z <= mb_limit -> in_int64 z.
Proof. unfold mb_limit, in_int64, int_min, int_max. lia. Qed.

(** The ledger is two sums and one maximum. *)
Lemma ledgerOf_sums ws :
  sum_of lent_of ws <= mb_limit -> sum_of busy_of ws <= mb_limit ->
  ledgerOf ws = {| lg_lent := sum_of lent_of ws; lg_idle := largest_idle ws; lg_committed := sum_of busy_of ws |}.
Proof.
  unfold ledgerOf. induction ws as [|w ws IH] using rev_ind; [done|]. rewrite !sum_of_app, largest_idle_app. simpl. intros Hl Hb.
  pose proof (lent_nonneg w). pose proof (busy_nonneg w).
  pose proof (sum_of_nonneg lent_of ws lent_nonneg). pose proof (sum_of_nonneg busy_of ws busy_nonneg).
  rewrite foldl_app, IH by lia. simpl. unfold ledger_add. simpl. unfold lent_of, busy_of, idle_of in *.
  rewrite wrap64_id by (apply small_in_int64; lia). destruct (mw_Idle w); f_equal; try lia.
  - pose proof (largest_idle_nonneg ws). lia.
  - rewrite wrap64_id by (apply small_in_int64; lia). lia.
Qed.

(** However the runners are listed, the memory a host may lend, added to
    the floor, to what busy runners are guaranteed, to the largest idle guarantee and to
    the start it protects, is within the machine; and handing out the whole pool leaves
    what was measured as available at or above the floor.  What is lent already is never
    counted as left to lend. *)
Theorem memory_pool_within_machine (inp : MemoryPoolInput) :
  sane inp ->
  let out := PlanMemoryPool inp in
  let floor := Z.max (mi_FloorMB inp) 0 in
  0 <= mp_PoolMB out /\ mp_LentMB out + mp_PoolMB out = Z.max (mp_CapacityMB out) (mp_LentMB out) /\
  (0 < mp_CapacityMB out ->
   floor + sum_of busy_of (mi_Workloads inp) + largest_idle (mi_Workloads inp) + Z.max (mi_StartReserveMB inp) 0 +
   mp_CapacityMB out <= mi_TotalMB inp) /\
  (forall a, mi_AvailableMB inp = Some a -> 0 < mp_PoolMB out -> mp_PoolMB out + floor <= a) /\
  forall ws, Permutation ws (mi_Workloads inp) ->
    PlanMemoryPool {| mi_TotalMB := mi_TotalMB inp; mi_FloorMB := mi_FloorMB inp;
                      mi_StartReserveMB := mi_StartReserveMB inp; mi_AvailableMB := mi_AvailableMB inp;
                      mi_Workloads := ws |} = out.
Proof.
  intros [Ht Hf Hs Ha Hl Hb Hi]. cbv zeta.
  pose proof (largest_idle_nonneg (mi_Workloads inp)) as Hidle.
  pose proof (sum_of_nonneg lent_of (mi_Workloads inp) lent_nonneg).
  pose proof (sum_of_nonneg busy_of (mi_Workloads inp) busy_nonneg).
  assert (Hperm : forall ws, Permutation ws (mi_Workloads inp) -> ledgerOf ws = ledgerOf (mi_Workloads inp)).
  { intros ws Hp. rewrite !ledgerOf_sums by (rewrite ?(sum_of_perm _ _ _ Hp); done).
    by rewrite !(sum_of_perm _ _ _ Hp), (largest_idle_perm _ _ Hp). }
  unfold PlanMemoryPool. cbn [mi_TotalMB mi_FloorMB mi_StartReserveMB mi_AvailableMB mi_Workloads].
  assert (Hw : forall z, - (8 * mb_limit) <= z <= 8 * mb_limit -> wrap64 z = z).
  { intros z Hz. apply wrap64_id. unfold in_int64, int_min, int_max, mb_limit in *. lia. }
  cut (let out := PlanMemoryPool inp in
       0 <= mp_PoolMB out /\ mp_LentMB out + mp_PoolMB out = Z.max (mp_CapacityMB out) (mp_LentMB out) /\
       (0 < mp_CapacityMB out ->
        Z.max (mi_FloorMB inp) 0 + sum_of busy_of (mi_Workloads inp) + largest_idle (mi_Workloads inp) +
        Z.max (mi_StartReserveMB inp) 0 + mp_CapacityMB out <= mi_TotalMB inp) /\
       (forall a, mi_AvailableMB inp = Some a -> 0 < mp_PoolMB out -> mp_PoolMB out + Z.max (mi_FloorMB inp) 0 <= a)).
  { intros (H1 & H2 & H3 & H4). split_and!; [done..|]. by intros ws ->%Hperm. }
  unfold PlanMemoryPool. rewrite ledgerOf_sums by done. cbn [lg_lent lg_idle lg_committed]. cbv zeta.
  set (F := Z.max (mi_FloorMB inp) 0) in *. set (S := Z.max (mi_StartReserveMB inp) 0) in *.
  assert (0 <= F <= mb_limit /\ 0 <= S <= mb_limit) as [? ?] by (unfold F, S, mb_limit in *; lia). clearbody F S.
  generalize dependent (sum_of lent_of (mi_Workloads inp)). generalize dependent (sum_of busy_of (mi_Workloads inp)).
  generalize dependent (largest_idle (mi_Workloads inp)). intros I Hi Hi0 B Hb Hb0 L Hl Hl0.
  generalize dependent (mi_TotalMB inp). intros T Ht.
  rewrite (Hw (T - F)), (Hw (T - F - B)), (Hw (T - F - B - I)), (Hw (T - F - B - I - S)) by lia.
  destruct (mi_AvailableMB inp) as [a|]; [specialize (Ha a eq_refl)|].
  - rewrite (Hw (a - F)), (Hw (Z.max (a - F) 0 + L)) by lia. destruct (Z.ltb_spec (Z.max (a - F) 0 + L) (Z.max (T - F - B - I - S) 0));
      cbn [mp_PoolMB mp_LentMB mp_CapacityMB]; rewrite Hw by lia; (split_and!; [lia..|]); intros ? [= <-]; lia.
  - cbn [mp_PoolMB mp_LentMB mp_CapacityMB]. rewrite Hw by lia. split_and!; [lia..|done].
Qed.

(** A runner's ceiling is never below its guarantee, and where it is above
    it, it is within the host's memory, the host's own cap and the memory of the daemon
    the pool runs on, wherever those are known. *)
Theorem MemoryCeiling_bounds (p : Pool) (h : Host) (guaranteeMB : Z) :
  0 < guaranteeMB ->
  let ceiling := MemoryCeiling (Some p) (Some h) guaranteeMB in
  guaranteeMB <= ceiling /\
  (guaranteeMB < ceiling ->
   (0 < h_MemoryMB h -> ceiling <= h_MemoryMB h) /\
   (0 < std_BurstMaxMemoryMB (rp_Standard (h_RunnerProfile h)) -> ceiling <= std_BurstMaxMemoryMB (rp_Standard (h_RunnerProfile h))) /\
   (0 < p_MemoryBurstMaxMemoryMB p -> ceiling <= p_MemoryBurstMaxMemoryMB p) /\
   (forall info, HostBackends_Find (h_BackendInfo h) (p_Backend p) = Some info -> 0 < hb_MemoryMB info -> ceiling <= hb_MemoryMB info)).
Proof.
  intros Hg. unfold MemoryCeiling. rewrite (proj2 (Z.leb_gt _ _) Hg). cbv zeta. unfold lowered.
  generalize (f64_to_int (f64_of_Z guaranteeMB * DefaultMemoryCeilingFactor)%f64) as c0. intros c0.
  destruct (HostBackends_Find _ _) as [info|]; (split; [lia|]);
    repeat case_match; bool_to_prop; intros; split_and!; intros; simplify_eq; lia.
Qed.
