(* ===== verification/Labels.v ===== *)
(** * Which pool runs a job (labels.go)

    [matches] is GitHub's rule for labels, [Score] ranks the pools that match by
    how little they advertise that the job never asked for, and [bestOf] takes
    the best of them with every tie broken.  [bestOf] compares prepared labels
    and a bit word of the implicit ones; the lemmas below show that neither is
    visible, that its answer is the best eligible pool, and that it does not
    depend on the order the pools are listed in. *)
From Stdlib Require Import ZArith Lia Ascii String Sorted Permutation.
From stdpp Require Import base strings list gmap.
From S2P Require Import Prelude GoString Store.
Local Open Scope string_scope.
Local Open Scope list_scope.
Local Open Scope Z_scope.

Definition osLabels (l : string) : bool := str_in l ["linux"; "windows"; "macos"].
Definition archLabels (l : string) : bool := str_in l ["x64"; "arm"; "arm64"].

Definition noMatch : Z := -1.
Definition exactScore : Z := 65536.

(** [jobLabels]: the normalised labels, and a word with bit [i] set when the
    [i]-th of the first 64 is implicit. *)
Record jobLabels := { jl_names : list string; jl_implicit : Z }.

Definition labelsOf (names : list string) : jobLabels :=
  {| jl_names := names;
     jl_implicit := foldl (fun w '(i, l) => if ImplicitLabels l then Z.lor w (Z.shiftl 1 (Z.of_nat i)) else w)
                          0 (imap pair (take 64 names)) |}.

Definition isImplicit (j : jobLabels) (i : nat) : bool :=
  if (i <? 64)%nat then negb (Z.land (jl_implicit j) (Z.shiftl 1 (Z.of_nat i)) =? 0)
  else match jl_names j !! i with Some l => ImplicitLabels l | None => false end.

Definition contradicts (pool job : list string) (dim : string -> bool) : bool :=
  if negb (existsb dim pool) then false
  else existsb (fun l => dim l && negb (str_in l pool)) job.

Definition matches (pool : list string) (job : jobLabels) (implicit : bool) : bool :=
  forallb (fun '(i, l) => (implicit && isImplicit job i) || str_in l pool) (imap pair (jl_names job)) &&
  negb (contradicts pool (jl_names job) osLabels) && negb (contradicts pool (jl_names job) archLabels).

Definition Matches (poolLabels jobLabels : list string) : bool :=
  matches (NormalizeLabels poolLabels) (labelsOf (NormalizeLabels jobLabels)) true.

Definition PoolMatches (p : Pool) (jobLabels : list string) : bool :=
  matches (NormalizeLabels (p_Labels p)) (labelsOf (NormalizeLabels jobLabels)) (negb (p_NoDefaultLabels p)).

Definition surplusScore (pool job : list string) : Z :=
  Z.max (exactScore - countb (fun l => negb (str_in l job)) pool) 0.

Definition score (poolLabels jobLabels : list string) (implicit : bool) : Z :=
  let pool := NormalizeLabels poolLabels in
  let job := labelsOf (NormalizeLabels jobLabels) in
  if negb (matches pool job implicit) then noMatch else surplusScore pool (jl_names job).
Definition Score (poolLabels jobLabels : list string) : Z := score poolLabels jobLabels true.

Definition refusalBeforeLabels (p : Pool) (j : Job) : string :=
  if negb (p_Enabled p) then "the pool is disabled"
  else if str_eqb (j_InstallationID j) "" then "no GitHub App installation here covers that repository"
  else if negb (str_eqb (p_InstallationID p) (j_InstallationID j))
  then "the pool belongs to another GitHub App installation"
  else "".

Definition Eligible (p : option Pool) (j : option Job) : bool * string :=
  match p, j with
  | Some p, Some j =>
      let why := refusalBeforeLabels p j in
      if nonempty why then (false, why)
      else if negb (PoolMatches p (j_Labels j)) then (false, "the pool does not advertise those labels")
      else (true, "")
  | _, _ => (false, "")
  end.

(** ** Ties *)
Definition lessPool (a b : Pool) : bool :=
  if negb (str_eqb (p_Name a) (p_Name b)) then
    match strings_Compare (p_Name a) (p_Name b) with Lt => true | _ => false end
  else match strings_Compare (p_ID a) (p_ID b) with Lt => true | _ => false end.

Definition classPreference (want : string) (p : Pool) : Z :=
  if negb (FromHosts p) then 1 else
  match ParseAutoKey (p_AutoKey p) with
  | None => 1
  | Some (_, have) =>
      let d := Rank have - Rank want in
      if d =? 0 then 0 else if 0 <? d then 1 + d else 10 - d
  end.

(** The controller's pool of an architecture that is not the default one. *)
Definition otherArch (p : Pool) : bool := FromHosts p && negb (str_eqb (pl_Arch (p_Platform p)) "amd64").

Definition lessPoolFor (j : Job) (a b : Pool) : bool :=
  if negb (SizeClass_Valid (j_RoutedClass j)) then lessPool a b else
  let ra := classPreference (j_RoutedClass j) a in
  let rb := classPreference (j_RoutedClass j) b in
  if negb (ra =? rb) then ra <? rb
  else if negb (Bool.eqb (otherArch a) (otherArch b)) then otherArch b
  else lessPool a b.

Definition installationName (id : string) (targets : gmap string string) : string :=
  let t := map_get targets id "" in if nonempty t then t else id.

(** ** The best pool *)
Definition preparedLabels (pools : list (option Pool)) : list (list string) :=
  (fun p => match p with Some p => NormalizeLabels (p_Labels p) | None => [] end) <$> pools.

(** The loop's variables: [best] and its score, and the near miss. *)
Record bestState := { bs_best : option Pool; bs_elsewhere : option Pool; bs_score : Z }.

Definition bestOf_step (j : Job) (job : jobLabels) (labels : list string) (p : Pool) (s : bestState) : bestState :=
  if negb (p_Enabled p) then s
  else if negb (matches labels job (negb (p_NoDefaultLabels p))) then s
  else if nonempty (refusalBeforeLabels p j) then
    {| bs_best := bs_best s;
       bs_elsewhere := match bs_elsewhere s with
                       | Some e => if lessPool p e then Some p else Some e
                       | None => Some p
                       end;
       bs_score := bs_score s |}
  else
    let sc := surplusScore labels (jl_names job) in
    let better := match bs_best s with
                  | None => true
                  | Some b => (bs_score s <? sc) || ((sc =? bs_score s) && lessPoolFor j p b)
                  end in
    if better then {| bs_best := Some p; bs_elsewhere := bs_elsewhere s; bs_score := sc |} else s.

Definition bestOf_loop (pools : list (option Pool)) (prepared : option (list (list string))) (j : Job)
    (job : jobLabels) : bestState :=
  foldl (fun s '(i, o) =>
      match o with
      | None => s
      | Some p =>
          let labels := match prepared with
                        | Some pr => default [] (pr !! i)
                        | None => NormalizeLabels (p_Labels p)
                        end in
          bestOf_step j job labels p s
      end)
    {| bs_best := None; bs_elsewhere := None; bs_score := noMatch |} (imap pair pools).

Definition bestOf (pools : list (option Pool)) (prepared : option (list (list string))) (j : Job)
    (job : jobLabels) (targets : gmap string string) : option Pool * string :=
  let s := bestOf_loop pools prepared j job in
  match bs_best s, bs_elsewhere s with
  | Some b, _ => (Some b, "")
  | None, None => (None, "")
  | None, Some e =>
      if str_eqb (j_InstallationID j) "" then
        (None, "its labels match pool " +:+ p_Name e +:+ ", but no GitHub App installation here covers " +:+ j_Repo j)
      else
        (None, "its labels match pool " +:+ p_Name e +:+ ", which belongs to installation " +:+
               installationName (p_InstallationID e) targets)
  end.

Definition bestPool (pools : list (option Pool)) (j : Job) (targets : gmap string string) : option Pool * string :=
  bestOf pools None j (labelsOf (NormalizeLabels (j_Labels j))) targets.
Definition BestPool (pools : list (option Pool)) (j : Job) : option Pool := fst (bestPool pools j ∅).

(** ** The bit word

    The word answers as the map does, for every label. *)
Lemma implicit_word_testbit (names : list string) (i : nat) :
  Z.testbit (foldl (fun w '(i, l) => if ImplicitLabels l then Z.lor w (Z.shiftl 1 (Z.of_nat i)) else w) 0
               (imap pair names)) (Z.of_nat i)
  = match names !! i with Some l => ImplicitLabels l | None => false end.
Proof.
  induction names as [|l names IH] using rev_ind; [by rewrite Z.bits_0|].
  rewrite imap_app, foldl_app. cbn [imap foldl].
  change ((pair ∘ Init.Nat.add (length names)) 0%nat l) with ((length names + 0)%nat, l).
  rewrite Nat.add_0_r. cbv beta iota.
  assert (Hsnoc : (names ++ [l]) !! i =
    if decide (i < length names)%nat then names !! i else if decide (i = length names) then Some l else None).
  { destruct (decide (i < length names)%nat); [by rewrite lookup_app_l|].
    rewrite lookup_app_r by lia. destruct (decide (i = length names)) as [->|].
    - by rewrite Nat.sub_diag.
    - destruct (i - length names)%nat eqn:E; [lia|]. done. }
  rewrite Hsnoc. clear Hsnoc.
  assert (Hbit : Z.testbit (Z.shiftl 1 (Z.of_nat (length names))) (Z.of_nat i) = bool_decide (i = length names)).
  { rewrite Z.shiftl_1_l, Z.pow2_bits_eqb by lia. case_bool_decide; [subst; apply Z.eqb_refl|].
    apply Z.eqb_neq. lia. }
  destruct (ImplicitLabels l) eqn:El; rewrite ?Z.lor_spec, ?Hbit, IH; clear IH Hbit;
    destruct (decide (i < length names)%nat), (decide (i = length names)) as [->|];
    rewrite ?bool_decide_true, ?bool_decide_false, ?orb_false_r by (done || lia); try done; try lia;
    rewrite lookup_ge_None_2 by lia; done.
Qed.

Lemma labelsOf_isImplicit (names : list string) (i : nat) (l : string) :
  names !! i = Some l -> isImplicit (labelsOf names) i = ImplicitLabels l.
Proof.
  intros Hl. unfold isImplicit. destruct (Nat.ltb_spec i 64) as [Hi|Hi].
  2: { simpl. by rewrite Hl. }
  unfold labelsOf, jl_implicit.
  pose proof (implicit_word_testbit (take 64 names) i) as H.
  rewrite lookup_take_lt, Hl in H by lia.
  match goal with |- context [Z.land ?w _] => set (word := w) in * end.
  rewrite <- H, Z.shiftl_1_l. clearbody word.
  destruct (Z.testbit word (Z.of_nat i)) eqn:E.
  - apply negb_true_iff, Z.eqb_neq. intros E0.
    pose proof (f_equal (fun z => Z.testbit z (Z.of_nat i)) E0) as E1. simpl in E1.
    rewrite Z.land_spec, Z.pow2_bits_true, E, Z.bits_0 in E1 by lia. done.
  - apply negb_false_iff, Z.eqb_eq. apply Z.bits_inj'. intros k Hk.
    rewrite Z.land_spec, Z.pow2_bits_eqb, Z.bits_0 by lia.
    destruct (Z.eqb_spec (Z.of_nat i) k) as [<-|]; [by rewrite E|by rewrite andb_false_r].
Qed.

(** ** The rule, as a proposition *)
Definition contradicted (pool job : list string) (dim : string -> bool) : Prop :=
  (exists d, d ∈ pool /\ dim d = true) /\ exists l, l ∈ job /\ dim l = true /\ l ∉ pool.

(** Every label is implicit or advertised, and the pool promises no other os or
    architecture. *)
Definition may_run (pool job : list string) (implicit : bool) : Prop :=
  (forall l, l ∈ job -> (implicit = true /\ ImplicitLabels l = true) \/ l ∈ pool) /\
  ~ contradicted pool job osLabels /\ ~ contradicted pool job archLabels.

Lemma existsb_elem_of {A} (f : A -> bool) l : existsb f l = true <-> exists x, x ∈ l /\ f x = true.
Proof. rewrite List.existsb_exists. setoid_rewrite list_elem_of_In. done. Qed.

Lemma contradicts_iff pool job dim : contradicts pool job dim = true <-> contradicted pool job dim.
Proof.
  unfold contradicts, contradicted. destruct (existsb dim pool) eqn:E; simpl.
  - rewrite existsb_elem_of in E. rewrite existsb_elem_of.
    setoid_rewrite andb_true_iff. setoid_rewrite negb_true_iff. unfold str_in.
    setoid_rewrite bool_decide_eq_false. naive_solver.
  - split; [done|]. intros [H _]. apply existsb_elem_of in H. congruence.
Qed.

Lemma matches_iff pool names implicit :
  matches pool (labelsOf names) implicit = true <-> may_run pool names implicit.
Proof.
  unfold matches, may_run. rewrite !andb_true_iff, !negb_true_iff.
  rewrite <- !contradicts_iff, !not_true_iff_false.
  assert (forallb (fun '(i, l) => implicit && isImplicit (labelsOf names) i || str_in l pool)
            (imap pair (jl_names (labelsOf names))) = true <->
          (forall l, l ∈ names -> (implicit = true /\ ImplicitLabels l = true) \/ l ∈ pool)) as ->;
    [|naive_solver].
  rewrite List.forallb_forall. simpl. split.
  - intros H l Hl. apply list_elem_of_lookup in Hl as [i Hi].
    specialize (H (i, l)). rewrite <- list_elem_of_In, elem_of_imap_pair in H. specialize (H Hi). simpl in H.
    rewrite (labelsOf_isImplicit _ _ _ Hi) in H. unfold str_in in H.
    apply orb_true_iff in H as [H|H]; bool_to_prop; auto.
  - intros H [i l]. rewrite <- list_elem_of_In, elem_of_imap_pair. intros Hi.
    rewrite (labelsOf_isImplicit _ _ _ Hi). apply orb_true_iff. unfold str_in.
    destruct (H l) as [[-> ->]|Hin]; [by eapply list_elem_of_lookup_2|by left|right].
    by apply bool_decide_eq_true.
Qed.

(** ** The orders behind the ties *)

(** [sortedPools] and [lessPool]. *)
Definition pool_cmp : Pool -> Pool -> comparison :=
  cmp_lex (cmp_on p_Name strings_Compare) (cmp_on p_ID strings_Compare).

(** [lessPoolFor]: the class a routed job wants first, then the default architecture. *)
Definition pool_for_cmp (j : Job) : Pool -> Pool -> comparison :=
  let routed := SizeClass_Valid (j_RoutedClass j) in
  cmp_lex (cmp_on (fun p => if routed then classPreference (j_RoutedClass j) p else 0) Z.compare)
  (cmp_lex (cmp_on (fun p => negb (routed && otherArch p)) cmp_flag) pool_cmp).

(** [bestOf]: the least surplus first. *)
Definition best_cmp (j : Job) (names : list string) : Pool -> Pool -> comparison :=
  cmp_lex (cmp_rev (cmp_on (fun p => surplusScore (NormalizeLabels (p_Labels p)) names) Z.compare))
          (pool_for_cmp j).

#[global] Instance pool_cmp_order : CmpOrder pool_cmp.
Proof. unfold pool_cmp. apply _. Qed.
#[global] Typeclasses Opaque pool_cmp.
#[global] Instance pool_for_cmp_order j : CmpOrder (pool_for_cmp j).
Proof. unfold pool_for_cmp. apply _. Qed.
#[global] Typeclasses Opaque pool_for_cmp.
#[global] Instance best_cmp_order j names : CmpOrder (best_cmp j names).
Proof. unfold best_cmp. apply _. Qed.
#[global] Typeclasses Opaque best_cmp.

Definition is_Lt (c : comparison) : bool := match c with Lt => true | _ => false end.

Lemma pool_cmp_eq a b : pool_cmp a b = Eq -> p_Name a = p_Name b /\ p_ID a = p_ID b.
Proof.
  unfold pool_cmp, cmp_lex, cmp_on, cmp_then. destruct (strings_Compare (p_Name a) (p_Name b)) eqn:E; try done.
  intros H. split; by apply strings_Compare_decides.
Qed.

Lemma lessPool_cmp a b : lessPool a b = is_Lt (pool_cmp a b).
Proof.
  unfold lessPool, pool_cmp, cmp_lex, cmp_on, cmp_then, str_eqb.
  destruct (strings_Compare (p_Name a) (p_Name b)) eqn:E.
  - apply strings_Compare_decides in E. rewrite E, bool_decide_true by done. simpl. by case_match.
  - rewrite bool_decide_false; [done|]. intros E'. rewrite E', cmp_refl in E; [done|apply _].
  - rewrite bool_decide_false; [done|]. intros E'. rewrite E', cmp_refl in E; [done|apply _].
Qed.

Lemma lessPoolFor_cmp j a b : lessPoolFor j a b = is_Lt (pool_for_cmp j a b).
Proof.
  unfold lessPoolFor, pool_for_cmp. rewrite lessPool_cmp.
  destruct (SizeClass_Valid (j_RoutedClass j)) eqn:E; simpl; [|done].
  unfold cmp_lex, cmp_on, cmp_then.
  destruct (Z.compare_spec (classPreference (j_RoutedClass j) a) (classPreference (j_RoutedClass j) b)) as [Ec|Ec|Ec].
  - rewrite Ec, Z.eqb_refl. simpl. by destruct (otherArch a), (otherArch b).
  - replace (_ =? _) with false by (symmetry; apply Z.eqb_neq; lia). simpl. by apply Z.ltb_lt.
  - replace (_ =? _) with false by (symmetry; apply Z.eqb_neq; lia). simpl. by apply Z.ltb_ge, Z.lt_le_incl.
Qed.

Lemma best_cmp_lt j names a b :
  is_Lt (best_cmp j names a b) =
  ((surplusScore (NormalizeLabels (p_Labels b)) names <? surplusScore (NormalizeLabels (p_Labels a)) names) ||
   ((surplusScore (NormalizeLabels (p_Labels a)) names =? surplusScore (NormalizeLabels (p_Labels b)) names) &&
    lessPoolFor j a b)).
Proof.
  rewrite lessPoolFor_cmp. unfold best_cmp, cmp_lex at 1, cmp_rev, cmp_on, cmp_then.
  match goal with |- context [?x ?= ?y] => destruct (Z.compare_spec x y) as [E|E|E] end.
  - rewrite E, Z.eqb_refl, Z.ltb_irrefl. done.
  - symmetry. apply orb_true_iff. left. by apply Z.ltb_lt.
  - replace (_ <? _) with false by (symmetry; apply Z.ltb_ge; lia).
    by replace (_ =? _) with false by (symmetry; apply Z.eqb_neq; lia).
Qed.

(** ** What [bestOf] computes *)
Definition fitted (j : Job) (names : list string) (p : Pool) : bool :=
  p_Enabled p && matches (NormalizeLabels (p_Labels p)) (labelsOf names) (negb (p_NoDefaultLabels p)).
Definition claimant (j : Job) (names : list string) (p : Pool) : bool :=
  fitted j names p && negb (nonempty (refusalBeforeLabels p j)).
Definition nearMiss (j : Job) (names : list string) (p : Pool) : bool :=
  fitted j names p && nonempty (refusalBeforeLabels p j).

Definition best_sum (j : Job) (names : list string) (l : list Pool) : bestState :=
  let best := min_by (best_cmp j names) (List.filter (claimant j names) l) in
  {| bs_best := best;
     bs_elsewhere := min_by pool_cmp (List.filter (nearMiss j names) l);
     bs_score := match best with
                 | Some b => surplusScore (NormalizeLabels (p_Labels b)) names
                 | None => noMatch
                 end |}.

Lemma bestOf_step_sum j names l p :
  bestOf_step j (labelsOf names) (NormalizeLabels (p_Labels p)) p (best_sum j names l) = best_sum j names (l ++ [p]).
Proof.
  unfold bestOf_step, best_sum. rewrite !List.filter_app. cbn [List.filter].
  change (claimant j names p) with (fitted j names p && negb (nonempty (refusalBeforeLabels p j))).
  change (nearMiss j names p) with (fitted j names p && nonempty (refusalBeforeLabels p j)).
  unfold fitted at 1 2 3.
  destruct (p_Enabled p); simpl; [|by rewrite !app_nil_r].
  destruct (matches _ _ _); simpl; [|by rewrite !app_nil_r].
  destruct (nonempty (refusalBeforeLabels p j)); simpl; rewrite ?app_nil_r, ?min_by_snoc; simpl.
  - f_equal. unfold keep_best. case_match; [|done]. rewrite lessPool_cmp. by destruct (pool_cmp p _).
  - destruct (min_by (best_cmp j names) _) as [b|] eqn:E; simpl; [|done].
    rewrite <- best_cmp_lt. by destruct (best_cmp j names p b).
Qed.

Lemma bestOf_fold j names l :
  foldl (fun s p => bestOf_step j (labelsOf names) (NormalizeLabels (p_Labels p)) p s)
    {| bs_best := None; bs_elsewhere := None; bs_score := noMatch |} l = best_sum j names l.
Proof.
  induction l as [|p l IH] using rev_ind; [done|]. rewrite foldl_app, IH. apply bestOf_step_sum.
Qed.

(** The answer, with its explanation, from the two best pools. *)
Definition answer (j : Job) (targets : gmap string string) (s : bestState) : option Pool * string :=
  match bs_best s, bs_elsewhere s with
  | Some b, _ => (Some b, "")
  | None, None => (None, "")
  | None, Some e =>
      if str_eqb (j_InstallationID j) "" then
        (None, "its labels match pool " +:+ p_Name e +:+ ", but no GitHub App installation here covers " +:+ j_Repo j)
      else
        (None, "its labels match pool " +:+ p_Name e +:+ ", which belongs to installation " +:+
               installationName (p_InstallationID e) targets)
  end.

Lemma bestOf_unprepared pools j names targets :
  bestOf pools None j (labelsOf names) targets = answer j targets (best_sum j names (omap id pools)).
Proof. unfold bestOf, bestOf_loop. rewrite foldl_imap_snd, foldl_skip_nil, bestOf_fold. done. Qed.

Lemma bestOf_prepared pools j job targets :
  bestOf pools (Some (preparedLabels pools)) j job targets = bestOf pools None j job targets.
Proof.
  unfold bestOf, bestOf_loop. erewrite foldl_ext_in; [done|]. intros s [i o] Hi. apply elem_of_imap_pair in Hi.
  destruct o as [p|]; [|done]. unfold preparedLabels. by rewrite list_lookup_fmap, Hi.
Qed.

Lemma claimant_iff j p :
  claimant j (NormalizeLabels (j_Labels j)) p = true <-> Eligible (Some p) (Some j) = (true, "").
Proof.
  unfold claimant, fitted, Eligible, PoolMatches. rewrite !andb_true_iff, negb_true_iff.
  unfold refusalBeforeLabels.
  destruct (p_Enabled p); simpl; [|split; [by intros [[? ?] ?]|done]].
  destruct (str_eqb (j_InstallationID j) ""); [split; [by intros [? ?]|done]|].
  destruct (str_eqb (p_InstallationID p) (j_InstallationID j)); [|split; [by intros [? ?]|done]].
  change (nonempty "") with false. destruct (matches _ _ _); simpl; split; try done.
  by intros [[? ?] ?].
Qed.

(** What [bestPool] answers. *)
Lemma bestPool_spec (pools : list (option Pool)) (j : Job) (targets : gmap string string) :
  match fst (bestPool pools j targets) with
  | Some b =>
      Some b ∈ pools /\ Eligible (Some b) (Some j) = (true, "") /\
      forall p, Some p ∈ pools -> Eligible (Some p) (Some j) = (true, "") ->
        let names := NormalizeLabels (j_Labels j) in
        surplusScore (NormalizeLabels (p_Labels p)) names <= surplusScore (NormalizeLabels (p_Labels b)) names /\
        (surplusScore (NormalizeLabels (p_Labels p)) names = surplusScore (NormalizeLabels (p_Labels b)) names ->
         lessPoolFor j p b = false)
  | None => forall p, Some p ∈ pools -> Eligible (Some p) (Some j) <> (true, "")
  end.
Proof.
  unfold bestPool. rewrite bestOf_unprepared. unfold answer, best_sum. simpl.
  destruct (min_by _ _) as [b|] eqn:E; simpl.
  - pose proof (min_by_elem _ _ _ E) as Hb. rewrite elem_of_bfilter, elem_of_omap_id in Hb.
    destruct Hb as [Hin Hcl]. split; [done|]. split; [by apply claimant_iff|].
    intros p Hp Hel. apply claimant_iff in Hel.
    pose proof (min_by_le _ _ _ p E) as Hle. rewrite elem_of_bfilter, elem_of_omap_id in Hle.
    specialize (Hle (conj Hp Hel)).
    pose proof (best_cmp_lt j (NormalizeLabels (j_Labels j)) p b) as Hlt.
    rewrite (cmp_antisym (cmp:=best_cmp _ _) p b) in Hle.
    destruct (best_cmp j _ p b) eqn:Ec; simpl in Hlt, Hle; try done.
    all: symmetry in Hlt; apply orb_false_iff in Hlt as [H1 H2]; apply Z.ltb_ge in H1;
      apply andb_false_iff in H2 as [H2|H2]; [apply Z.eqb_neq in H2|]; split; try lia; try done.
  - assert (Hnone : forall p, Some p ∈ pools -> Eligible (Some p) (Some j) <> (true, "")).
    { intros p Hp Hel. apply claimant_iff in Hel. apply min_by_None in E.
      assert (p ∈ List.filter (claimant j (NormalizeLabels (j_Labels j))) (omap id pools)) as Hin.
      { rewrite elem_of_bfilter, elem_of_omap_id. done. }
      rewrite E in Hin. by apply elem_of_nil in Hin. }
    destruct (min_by pool_cmp _); [|done]. by destruct (str_eqb _ _).
Qed.

(** C10: [bestPool] returns an eligible pool exactly when there is one,
    and no eligible pool is better than it: none has a smaller surplus, and among
    those with the same surplus none comes before it in the order of [lessPoolFor]. *)
Theorem bestPool_is_best (pools : list (option Pool)) (j : Job) (targets : gmap string string) :
  match fst (bestPool pools j targets) with
  | Some b =>
      Some b ∈ pools /\ Eligible (Some b) (Some j) = (true, "") /\
      forall p, Some p ∈ pools -> Eligible (Some p) (Some j) = (true, "") ->
        let names := NormalizeLabels (j_Labels j) in
        surplusScore (NormalizeLabels (p_Labels p)) names <= surplusScore (NormalizeLabels (p_Labels b)) names /\
        (surplusScore (NormalizeLabels (p_Labels p)) names = surplusScore (NormalizeLabels (p_Labels b)) names ->
         lessPoolFor j p b = false)
  | None => forall p, Some p ∈ pools -> Eligible (Some p) (Some j) <> (true, "")
  end.
Proof. apply bestPool_spec. Qed.

(** The bit word, the early exits and the two dimensions of [matches]
    together decide GitHub's rule: every label of the job is one the pool's runners
    advertise anyway or one the pool lists, and the pool declares no other os or
    architecture than the one asked for. *)
Theorem PoolMatches_rule (p : Pool) (jobLabels : list string) :
  PoolMatches p jobLabels = true <->
  may_run (NormalizeLabels (p_Labels p)) (NormalizeLabels jobLabels) (negb (p_NoDefaultLabels p)).
Proof. apply matches_iff. Qed.

(** No two of the pools have both the same name and the same ID. *)
Definition distinct_pools (pools : list (option Pool)) : Prop :=
  forall p q, Some p ∈ pools -> Some q ∈ pools -> p_Name p = p_Name q -> p_ID p = p_ID q -> p = q.

Lemma best_cmp_eq j names a b : best_cmp j names a b = Eq -> p_Name a = p_Name b /\ p_ID a = p_ID b.
Proof.
  unfold best_cmp, pool_for_cmp, cmp_lex, cmp_then. intros H. apply pool_cmp_eq.
  repeat (case_match; try done).
Qed.

Lemma best_sum_perm j names (pools pools' : list (option Pool)) :
  distinct_pools pools -> Permutation pools pools' ->
  best_sum j names (omap id pools) = best_sum j names (omap id pools').
Proof.
  intros Hd Hp. pose proof (omap_perm id _ _ Hp) as Ho. unfold best_sum.
  assert (Hdis : forall f, forall x y, x ∈ List.filter f (omap id pools) -> y ∈ List.filter f (omap id pools) ->
    p_Name x = p_Name y /\ p_ID x = p_ID y -> x = y).
  { intros f x y. rewrite !elem_of_bfilter, !elem_of_omap_id. intros [? _] [? _] [? ?]. by apply Hd. }
  rewrite (min_by_perm (best_cmp j names) _ (List.filter (claimant j names) (omap id pools')));
    [|intros; eapply Hdis; eauto using best_cmp_eq|by apply bfilter_perm].
  by rewrite (min_by_perm pool_cmp _ (List.filter (nearMiss j names) (omap id pools')));
    [|intros; eapply Hdis; eauto using pool_cmp_eq|by apply bfilter_perm].
Qed.

(** The pool a job goes to, and the sentence when there is none, do not
    depend on the order the pools are listed in. *)
Theorem bestPool_order_independent (pools pools' : list (option Pool)) (j : Job) (targets : gmap string string) :
  distinct_pools pools -> Permutation pools pools' ->
  bestPool pools j targets = bestPool pools' j targets.
Proof. intros. unfold bestPool. rewrite !bestOf_unprepared. by erewrite best_sum_perm. Qed.

(** ** Normalised labels *)
Lemma dedupe_elem seen l x :
  x ∈ dedupe_labels seen l <-> x <> "" /\ x ∉ seen /\ exists y, y ∈ l /\ x = NormalizeLabel y.
Proof.
  revert seen. induction l as [|z l IH]; intros seen; cbn [dedupe_labels].
  { split; [by intros ?%elem_of_nil|]. intros (_ & _ & y & Hy & _). by apply elem_of_nil in Hy. }
  setoid_rewrite elem_of_cons. unfold str_eqb, str_in.
  destruct (bool_decide (NormalizeLabel z = "")) eqn:E1; simpl; bool_to_prop; [rewrite IH; naive_solver|].
  destruct (bool_decide (NormalizeLabel z ∈ seen)) eqn:E2; bool_to_prop; [rewrite IH; naive_solver|].
  rewrite elem_of_cons, IH, elem_of_cons. destruct (decide (x = NormalizeLabel z)); naive_solver.
Qed.

Lemma dedupe_nodup seen l : NoDup (dedupe_labels seen l).
Proof.
  revert seen. induction l as [|z l IH]; intros seen; cbn [dedupe_labels]; [constructor|].
  case_match; [apply IH|]. constructor; [|apply IH]. rewrite dedupe_elem. intros (_ & Hn & _). apply Hn. left.
Qed.

Definition str_lt (a b : string) : Prop := strings_Compare a b = Lt.

Lemma isNormalized_go_spec prev l :
  isNormalized_go prev l = true ->
  Forall (fun x => x <> "" /\ NormalizeLabel x = x) l /\ StronglySorted str_lt l /\
  (forall p, prev = Some p -> Forall (str_lt p) l).
Proof.
  revert prev. induction l as [|x l IH]; intros prev H; cbn [isNormalized_go] in H; [repeat constructor|].
  unfold str_eqb in H.
  destruct (bool_decide (x = "")) eqn:E1; [done|]. destruct (bool_decide (NormalizeLabel x = x)) eqn:E2; [|done].
  simpl in H. bool_to_prop.
  assert (Hx : isNormalized_go (Some x) l = true /\ forall p, prev = Some p -> str_lt p x).
  { destruct prev as [p|]; [|done]. destruct (strings_Compare p x) eqn:Ec; try done. naive_solver. }
  destruct Hx as [Hrest Hprev]. destruct (IH _ Hrest) as (H1 & H2 & H3).
  split; [by constructor|]. split; [constructor; auto|]. intros p Hp. constructor; [auto|].
  eapply Forall_impl; [by apply (H3 x)|]. intros y Hy. specialize (Hprev p Hp). unfold str_lt in *.
  by eapply (cmp_lt_le_trans strings_Compare); [|rewrite Hy].
Qed.

Lemma sorted_lt_nodup l : StronglySorted str_lt l -> NoDup l.
Proof.
  induction 1 as [|x l Hl IH Hx]; constructor; [|done]. intros Hin. rewrite Forall_forall in Hx.
  specialize (Hx _ Hin). unfold str_lt in Hx. by rewrite cmp_refl in Hx by apply _.
Qed.

Lemma sorted_lt_le l : StronglySorted str_lt l -> StronglySorted (fun a b => strings_Compare a b <> Gt) l.
Proof.
  induction 1 as [|x l Hl IH Hx]; constructor; [done|].
  eapply Forall_impl; [exact Hx|]. unfold str_lt. intros ? ->. done.
Qed.

(** The fast path of [NormalizeLabels] (labels already in order come
    back as they are) gives what the slow one would: the distinct non-empty
    normalised labels, in order. *)
Theorem NormalizeLabels_fast_path (l : list string) :
  NormalizeLabels l = SortStableFunc strings_Compare (dedupe_labels [] l) /\
  NoDup (NormalizeLabels l) /\
  StronglySorted (fun a b => strings_Compare a b <> Gt) (NormalizeLabels l) /\
  forall x, x ∈ NormalizeLabels l <-> x <> "" /\ exists y, y ∈ l /\ x = NormalizeLabel y.
Proof.
  assert (E : NormalizeLabels l = SortStableFunc strings_Compare (dedupe_labels [] l)).
  { unfold NormalizeLabels. destruct l as [|z l']; [done|]. set (l := z :: l').
    destruct (isNormalized l) eqn:En; [|done]. apply isNormalized_go_spec in En as (H1 & H2 & _).
    apply (sorted_perm_unique strings_Compare);
      [intros; by apply strings_Compare_decides|by apply sorted_lt_le|apply sort_sorted, _|].
    rewrite sort_perm. apply NoDup_Permutation; auto using sorted_lt_nodup, dedupe_nodup.
    intros x. rewrite dedupe_elem. rewrite Forall_forall in H1. split.
    - intros Hx. destruct (H1 x Hx). repeat split; [done|set_solver|]. exists x. auto.
    - intros (_ & _ & y & Hy & ->). by destruct (H1 y Hy) as [_ ->]. }
  rewrite E. split; [done|]. split; [apply sort_nodup, dedupe_nodup|]. split; [apply sort_sorted, _|].
  intros x. rewrite sort_elem_of, dedupe_elem. set_solver.
Qed.
