(* ===== verification/History.v ===== *)
(** * What a job is known to need (history.go)

    [Profile] turns the measured runs of a job into its requirement: the
    nearest-rank ninetieth percentile of the peaks, with a margin on memory and a
    killed run counted as having needed more than it had.  [sizeForNeed] raises a
    runner to it on the fields its pool leaves to the host. *)
From Stdlib Require Import ZArith Lia Ascii String.
From stdpp Require Import base strings list gmap.
From S2P Require Import Prelude GoFloat GoString Naming Store Phrases Resources.
Local Open Scope string_scope.
Local Open Scope list_scope.
Local Open Scope Z_scope.

Definition HistoryOff : string := "off".
Definition HistoryShadow : string := "shadow".
Definition HistoryOn : string := "on".

Definition ProfilePercentile : float64 := Eval vm_compute in f64_lit 9 10.
Definition ProfileMemoryMargin : float64 := Eval vm_compute in f64_lit 12 10.
Definition ProfileOOMGrowth : float64 := Eval vm_compute in f64_lit 15 10.
Definition profileMemoryStep : Z := 64.

Record Requirement := { rq_CPUs : float64; rq_MemoryMB : Z; rq_Samples : Z; rq_OOMKilled : Z }.
Definition zero_Requirement : Requirement :=
  {| rq_CPUs := f64_zero; rq_MemoryMB := 0; rq_Samples := 0; rq_OOMKilled := 0 |}.

Definition Known (r : Requirement) : bool := fpos (rq_CPUs r) || (0 <? rq_MemoryMB r).

Definition Requirement_String (r : Requirement) : string :=
  strings_Join ((if 0 <? rq_MemoryMB r then ["~" +:+ formatMB (rq_MemoryMB r)] else []) ++
                (if fpos (rq_CPUs r) then ["~" +:+ formatCPUs (rq_CPUs r) +:+ " CPU"] else [])) " and ".

(** scheduler.go: the hard cap wins over a minimum above it. *)
Definition clamp (v lo hi : Z) : Z := if hi <? lo then hi else Z.min (Z.max v lo) hi.

Definition percentileIndex (n : Z) : Z :=
  clamp (f64_to_int (math_Ceil (ProfilePercentile * f64_of_Z n)%f64) - 1) 0 (n - 1).

(** The order of [slices.Sort] on floats that are not NaN. *)
Definition f64_compare (a b : float64) : comparison :=
  if (a <? b)%f64 then Lt else if (b <? a)%f64 then Gt else Eq.

(** The memory one run is taken to have needed, before the margin. *)
Definition peakMemory (p : JobPeak) : Z :=
  let m := if jp_OOMKilled p then Z.max (jp_MemoryMB p) (jp_GrantedMemoryMB p) else jp_MemoryMB p in
  if (0 <? m) && jp_OOMKilled p then f64_to_int (math_Ceil (f64_of_Z m * ProfileOOMGrowth)%f64) else m.

(** Up to a whole step of 64 MB. *)
Definition stepUp (m : float64) : Z :=
  f64_to_int (math_Ceil (m / f64_of_Z profileMemoryStep)%f64) *% profileMemoryStep.

Definition Profile (peaks : list JobPeak) : Requirement :=
  let cpus := List.filter fpos (jp_CPUs <$> peaks) in
  let mem := peakMemory <$> List.filter (fun p =>
      0 <? (if jp_OOMKilled p then Z.max (jp_MemoryMB p) (jp_GrantedMemoryMB p) else jp_MemoryMB p)) peaks in
  {| rq_CPUs := match SortStableFunc f64_compare cpus !! Z.to_nat (percentileIndex (Z.of_nat (length cpus))) with
                | Some v => (math_Ceil (v * f64_of_Z 100) / f64_of_Z 100)%f64
                | None => f64_zero
                end;
     rq_MemoryMB := match SortStableFunc Z.compare mem !! Z.to_nat (percentileIndex (Z.of_nat (length mem))) with
                    | Some v => stepUp (math_Ceil (f64_of_Z v * ProfileMemoryMargin)%f64)
                    | None => 0
                    end;
     rq_Samples := Z.of_nat (length peaks);
     rq_OOMKilled := countb jp_OOMKilled peaks |}.

Definition killedNeed (peaks : list JobPeak) : Z :=
  foldl (fun need p =>
    let limit := Z.max (jp_MemoryMB p) (jp_GrantedMemoryMB p) in
    if negb (jp_OOMKilled p) || (limit <=? 0) then need
    else Z.max need (stepUp (math_Ceil (f64_of_Z limit * ProfileOOMGrowth * ProfileMemoryMargin)%f64)))
    0 peaks.

(** [requirementFor]: one queued job's requirement on a pool. *)
Definition requirementFor (history : gmap JobUsageKey (list JobPeak)) (p : Pool) (j : Job) : Requirement :=
  let peaks := default [] (history !! ((j_Repo j, j_Workflow j, j_JobName j, p_ID p) : JobUsageKey)) in
  let r := Profile peaks in
  if negb (Known r) then zero_Requirement else
  let memoryMB := Z.max (rq_MemoryMB r) (killedNeed peaks) in
  {| rq_CPUs := if fpos (rq_CPUs r) then fmax (rq_CPUs r) (rs_MinCPUs (p_Resources p)) else rq_CPUs r;
     rq_MemoryMB := if 0 <? memoryMB then Z.max memoryMB (rs_MinMemoryMB (p_Resources p)) else memoryMB;
     rq_Samples := rq_Samples r;
     rq_OOMKilled := rq_OOMKilled r |}.

(** [sizeForNeed]: the charge, the size to create the runner at, and whether it
    was raised (the source compares the two size pointers for that). *)
Definition sizeForNeed (p : Pool) (res : Reservation) (size : option Resources) (need : Requirement)
  : Reservation * option Resources * bool :=
  let r := p_Resources p in
  let raiseCPU := (rs_CPUs r <=? f64_zero)%f64 && (rq_CPUs need >? res_CPUs res + cpuEpsilon)%f64 in
  let raiseMemory := (rs_MemoryMB r <=? 0) && (res_MemoryMB res <? rq_MemoryMB need) in
  let res := {| res_CPUs := if raiseCPU then rq_CPUs need else res_CPUs res;
                res_MemoryMB := if raiseMemory then rq_MemoryMB need else res_MemoryMB res;
                res_DiskMB := res_DiskMB res |} in
  if negb (raiseCPU || raiseMemory) then (res, size, false) else
  let grant := rs_with_size (rs_with_min r f64_zero 0)
                 (res_CPUs res / f64_of_Z (fieldFactor p (fpos (rs_CPUs r))))%f64
                 (res_MemoryMB res /% fieldFactor p (0 <? rs_MemoryMB r)) in
  (res, Some grant, true).

Definition hostName (h : Host) : string := if nonempty (h_Name h) then ForSentence (h_Name h) else h_ID h.
