(* ===== verification/SizeClass.v ===== *)
(** * Size classes of hosts (sizeclass.go) and the figures of a job (observe.go)

    [HostClass] is the class a host's measurements name, [NextHostClass] the class it
    is held in, which moves only after the measurements have named another for the
    whole of a hold, and [HostTags] what a pool's selector can ask a host for.  The
    theorems state the hold over any sequence of looks, and that a listed tag is what
    the selector answers. *)
From Stdlib Require Import ZArith Lia Ascii String.
From stdpp Require Import base strings list gmap.
From S2P Require Import Prelude GoFloat GoString Store Phrases Resources History.
Local Open Scope string_scope.
Local Open Scope list_scope.
Local Open Scope Z_scope.

Definition SizeOff : string := "off".
Definition SizeShadow : string := "shadow".
Definition SizeOn : string := "on".
Definition SizeModes : list string := [SizeOff; SizeShadow; SizeOn].
Definition ValidSizeMode (s : string) : bool := str_eqb s "" || str_in s SizeModes.

Record HostLimit := { hl_CPUs : float64; hl_MemoryMB : Z }.

Record SizeConfig := {
  sc_SmallMax : HostLimit;
  sc_MediumMax : HostLimit;
  sc_Small : RunnerSize;
  sc_Medium : RunnerSize;
  sc_Large : RunnerSize;
  sc_Hold : Duration;
  sc_DefaultClass : string;
  sc_FallbackWait : Duration
}.

Definition DefaultSizeConfig : SizeConfig :=
  {| sc_SmallMax := {| hl_CPUs := f64_of_Z 4; hl_MemoryMB := 16 * 1024 |};
     sc_MediumMax := {| hl_CPUs := f64_of_Z 12; hl_MemoryMB := 48 * 1024 |};
     sc_Small := {| sz_CPUs := f64_of_Z 1; sz_MemoryMB := 2 * 1024 |};
     sc_Medium := {| sz_CPUs := f64_of_Z 2; sz_MemoryMB := 4 * 1024 |};
     sc_Large := {| sz_CPUs := f64_of_Z 4; sz_MemoryMB := 8 * 1024 |};
     sc_Hold := 10 * Minute;
     sc_DefaultClass := SizeMedium;
     sc_FallbackWait := 2 * Minute |}.

(** [SizeConfig.Runner]. *)
Definition classRunner (c : SizeConfig) (class : string) : RunnerSize :=
  if str_eqb class SizeSmall then sc_Small c
  else if str_eqb class SizeMedium then sc_Medium c
  else if str_eqb class SizeLarge then sc_Large c
  else zero_RunnerSize.

(** ** The class of a host *)
Definition bracket (v smallMax mediumMax : float64) : string :=
  if (v <=? smallMax)%f64 then SizeSmall
  else if (v <=? mediumMax)%f64 then SizeMedium
  else SizeLarge.

(** The closure [lower] of [HostClass]. *)
Definition lowerClass (out k : string) : string :=
  if str_eqb out "" || (Rank k <? Rank out) then k else out.

Definition HostClass (c : SizeConfig) (h : option Host) : string * bool :=
  match h with
  | None => ("", false)
  | Some h =>
      let a := Allocatable h in
      let out := if al_CPUsKnown a
                 then lowerClass "" (bracket (al_CPUs a - cpuEpsilon)%f64 (hl_CPUs (sc_SmallMax c)) (hl_CPUs (sc_MediumMax c)))
                 else "" in
      let out := if al_MemoryKnown a
                 then lowerClass out (bracket (f64_of_Z (al_MemoryMB a)) (f64_of_Z (hl_MemoryMB (sc_SmallMax c)))
                                              (f64_of_Z (hl_MemoryMB (sc_MediumMax c))))
                 else out in
      (out, negb (str_eqb out ""))
  end.

Definition timeEqual (a b : option Time) : bool :=
  match a, b with Some a, Some b => a =? b | None, None => true | _, _ => false end.

Definition sameHostClass (a b : HostSizeClass) : bool :=
  str_eqb (hsc_Class a) (hsc_Class b) && str_eqb (hsc_Pending a) (hsc_Pending b) &&
  timeEqual (hsc_PendingSince a) (hsc_PendingSince b) && timeEqual (hsc_ChangedAt a) (hsc_ChangedAt b).

(** A host moved to a class now. *)
Definition moved_to (class : string) (now : Time) : HostSizeClass :=
  {| hsc_Class := class; hsc_Pending := ""; hsc_PendingSince := None; hsc_ChangedAt := Some now |}.
Definition hsc_with_pending (h : HostSizeClass) (pending : string) (since : option Time) : HostSizeClass :=
  {| hsc_Class := hsc_Class h; hsc_Pending := pending; hsc_PendingSince := since; hsc_ChangedAt := hsc_ChangedAt h |}.

Definition NextHostClass (held : HostSizeClass) (measured : string) (now : Time) (hold : Duration)
  : HostSizeClass * bool :=
  if negb (SizeClass_Valid measured) then (held, false) else
  let next :=
    if str_eqb (hsc_Class held) "" then moved_to measured now
    else if str_eqb measured (hsc_Class held) then hsc_with_pending held "" None
    else if hold <=? 0 then moved_to measured now
    else match hsc_PendingSince held with
         | Some since =>
             if negb (str_eqb (hsc_Pending held) measured) then hsc_with_pending held measured (Some now)
             else if hold <=? Time_Sub now since then moved_to measured now
             else held
         | None => hsc_with_pending held measured (Some now)
         end in
  (next, negb (sameHostClass held next)).

(** ** Tags *)
Definition TagOperator : string := "operator".
Definition TagAutomatic : string := "automatic".

Record Tag := { tag_Key : string; tag_Value : string; tag_Source : string; tag_Overrides : string }.

(** What is known of the host without a label. *)
Definition autoTags (h : Host) (size : bool) : gmap string string :=
  let auto : gmap string string := if nonempty (h_OS h) then <[LabelOS := h_OS h]> ∅ else ∅ in
  let auto := if nonempty (h_Arch h) then <[LabelArch := h_Arch h]> auto else auto in
  if size && HostSizeClass_Set (h_SizeClass h) then <[LabelSize := hsc_Class (h_SizeClass h)]> auto else auto.

Definition HostTags (h : Host) (size : bool) : list Tag :=
  let auto := autoTags h size in
  let own := (fun '(k, v) =>
      {| tag_Key := k; tag_Value := v; tag_Source := TagOperator;
         tag_Overrides := match auto !! k with Some a => if str_eqb a v then "" else a | None => "" end |})
    <$> map_to_list (h_Labels h) in
  let rest := (fun '(k, v) =>
      {| tag_Key := k; tag_Value := v; tag_Source := TagAutomatic; tag_Overrides := "" |})
    <$> List.filter (fun '(k, _) => negb (isSome (h_Labels h !! k))) (map_to_list auto) in
  SortStableFunc (cmp_on tag_Key strings_Compare) (own ++ rest).

(** ** Figures of a job's runs (observe.go) *)
Record Figures := { fig_P50 : float64; fig_P95 : float64; fig_Max : float64 }.
Definition zero_Figures : Figures := {| fig_P50 := f64_zero; fig_P95 := f64_zero; fig_Max := f64_zero |}.

Record Observed := { ob_Runs : Z; ob_CPU : Figures; ob_MemoryMB : Figures }.

Definition nearestRank (p : float64) (n : Z) : Z :=
  clamp (f64_to_int (math_Ceil (p * f64_of_Z n)%f64) - 1) 0 (n - 1).

Definition figuresOf (samples : list float64) : Figures :=
  match samples with
  | [] => zero_Figures
  | _ =>
      let s := SortStableFunc f64_compare samples in
      let n := Z.of_nat (length s) in
      let at_ i := nth (Z.to_nat i) s f64_zero in
      {| fig_P50 := at_ (nearestRank (f64_lit 5 10) n);
         fig_P95 := at_ (nearestRank (f64_lit 95 100) n);
         fig_Max := at_ (n - 1) |}
  end.

Definition Observe (runs : list JobRun) : Observed :=
  {| ob_Runs := Z.of_nat (length runs);
     ob_CPU := figuresOf (List.filter fpos (run_PeakCPUs <$> runs));
     ob_MemoryMB := figuresOf (f64_of_Z <$> List.filter (fun m => 0 <? m) (run_PeakMemoryMB <$> runs)) |}.

(** ** The hold *)

(** One look after another. *)
Definition look (hold : Duration) (h : HostSizeClass) (x : string * Time) : HostSizeClass :=
  fst (NextHostClass h (fst x) (snd x) hold).
Definition looks (hold : Duration) (l : list (string * Time)) : HostSizeClass :=
  foldl (look hold) {| hsc_Class := ""; hsc_Pending := ""; hsc_PendingSince := None; hsc_ChangedAt := None |} l.

(** Since a look at [t], every measurement has named [m]. *)
Definition named_since (l : list (string * Time)) (m : string) (t : Time) : Prop :=
  exists before after, l = before ++ (m, t) :: after /\
    forall x, x ∈ after -> SizeClass_Valid (fst x) = true -> fst x = m.

Lemma named_since_snoc l m t x :
  named_since l m t -> (SizeClass_Valid (fst x) = true -> fst x = m) -> named_since (l ++ [x]) m t.
Proof.
  intros (before & after & -> & Ha) Hx. exists before, (after ++ [x]). split; [by rewrite <- app_assoc|].
  intros y [?| ->%list_elem_of_singleton]%elem_of_app; auto.
Qed.

Lemma named_now l m t : named_since (l ++ [(m, t)]) m t.
Proof. exists l, []. split; [done|]. intros x Hx. by apply elem_of_nil in Hx. Qed.

(** The wait of a host is the stretch over which its measurements have named the
    class it is waiting for. *)
Lemma looks_pending hold l t :
  hsc_PendingSince (looks hold l) = Some t -> named_since l (hsc_Pending (looks hold l)) t.
Proof.
  revert t. induction l as [|[m now] l IH] using rev_ind; intros t; [done|].
  unfold looks. rewrite foldl_app. fold (looks hold l). set (h := looks hold l) in *. cbn [foldl]. unfold look, NextHostClass. cbn [fst snd].
  destruct (SizeClass_Valid m) eqn:Ev; simpl; [|intros Ht; apply named_since_snoc; [auto|simpl; congruence]].
  destruct (str_eqb (hsc_Class h) ""); [done|]. destruct (str_eqb m (hsc_Class h)); [done|].
  destruct (hold <=? 0); [done|].
  destruct (hsc_PendingSince h) as [since|] eqn:Es; [|intros [= <-]; apply named_now].
  unfold str_eqb. case_bool_decide as Ep; simpl; [|intros [= <-]; apply named_now].
  destruct (hold <=? Time_Sub now since); simpl; [done|]. rewrite Es. intros [= <-].
  apply named_since_snoc; [auto|]. simpl. congruence.
Qed.

(** A host that has a class leaves it only for one its measurements have
    named at every look for the whole of the hold; so a host that measures one side of
    a threshold and then the other within a hold never moves. *)
Theorem host_class_moves_after_hold (hold : Duration) (l : list (string * Time)) (m : string) (now : Time) :
  0 < hold ->
  hsc_Class (looks hold l) <> "" -> hsc_Class (looks hold (l ++ [(m, now)])) <> hsc_Class (looks hold l) ->
  hsc_Class (looks hold (l ++ [(m, now)])) = m /\
  exists since, named_since l m since /\ hold <= now - since.
Proof.
  intros Hh Hc. pose proof (looks_pending hold l) as Hp. unfold looks at 1 3. rewrite foldl_app. fold (looks hold l).
  set (h := looks hold l) in *. cbn [foldl]. unfold look, NextHostClass. cbn [fst snd].
  destruct (SizeClass_Valid m); simpl; [|done].
  unfold str_eqb. rewrite (bool_decide_eq_false_2 (hsc_Class h = "")) by done.
  case_bool_decide as Em; simpl; [done|]. destruct (Z.leb_spec hold 0); [lia|].
  destruct (hsc_PendingSince h) as [since|]; [|done]. case_bool_decide as Ep; simpl; [|done].
  destruct (Z.leb_spec hold (Time_Sub now since)) as [Hle|]; simpl; [|done]. intros _. split; [done|].
  exists since. rewrite <- Ep. split; [by apply Hp|].
  unfold Time_Sub, int_min, int_max in Hle. lia.
Qed.

(** ** Tags *)
Lemma autoTags_lookup h size k v :
  autoTags h size !! k = Some v ->
  v <> "" /\ (h_Labels h !! k = None -> SelectorValue h k = v).
Proof.
  unfold autoTags. intros H.
  assert (Hcase : (k = LabelSize /\ v = hsc_Class (h_SizeClass h) /\ v <> "") \/
    (k = LabelArch /\ v = h_Arch h /\ v <> "") \/ (k = LabelOS /\ v = h_OS h /\ v <> "")).
  { destruct (size && HostSizeClass_Set (h_SizeClass h)) eqn:Es;
      [rewrite lookup_insert in H; case_decide; [left|]|];
      try (apply andb_true_iff in Es as [_ Es]; unfold HostSizeClass_Set in Es; apply negb_true_iff, bool_decide_eq_false in Es;
           injection H as <-; done).
    all: destruct (nonempty (h_Arch h)) eqn:Ea; [rewrite lookup_insert in H; case_decide; [right; left|]|];
      try (injection H as <-; split_and!; [done|done|]; intros E; rewrite E in Ea; done).
    all: destruct (nonempty (h_OS h)) eqn:Eo; [|by rewrite lookup_empty in H];
      rewrite lookup_insert in H; case_decide; [right; right|by rewrite lookup_empty in H];
      injection H as <-; split_and!; [done|done|]; intros E; rewrite E in Eo; done. }
  unfold SelectorValue. destruct Hcase as [(-> & -> & ?)|[(-> & -> & ?)|(-> & -> & ?)]]; (split; [done|]); intros ->; done.
Qed.

(** Every tag is an operator's label or, where there is none for the key, a fact. *)
Lemma HostTags_elem h size t :
  t ∈ HostTags h size ->
  h_Labels h !! tag_Key t = Some (tag_Value t) \/
  (h_Labels h !! tag_Key t = None /\ autoTags h size !! tag_Key t = Some (tag_Value t)).
Proof.
  unfold HostTags. rewrite sort_elem_of, elem_of_app, !list_elem_of_fmap.
  intros [([k v] & -> & H)|([k v] & -> & H)]; [left; by apply elem_of_map_to_list in H|right].
  apply elem_of_bfilter in H as [H Hn]. apply elem_of_map_to_list in H. simpl.
  destruct (h_Labels h !! k); done.
Qed.

(** A host's tags name each key once, and a pool's selector finds exactly
    the value a tag shows; and where the classes are listed, every key a selector finds
    a value for has a tag. *)
Theorem HostTags_select (h : Host) (size : bool) :
  NoDup (tag_Key <$> HostTags h size) /\
  (forall t, t ∈ HostTags h size -> SelectorValue h (tag_Key t) = tag_Value t) /\
  (size = true -> forall k, SelectorValue h k <> "" ->
     exists t, t ∈ HostTags h size /\ tag_Key t = k /\ tag_Value t = SelectorValue h k).
Proof.
  split_and!.
  - unfold HostTags. rewrite sort_perm, fmap_app, <- !list_fmap_compose. apply NoDup_app. split_and!.
    + rewrite (list_fmap_ext _ fst); [apply NoDup_fst_map_to_list|]. by intros ? [].
    + intros k Hk1 Hk2. apply list_elem_of_fmap in Hk1 as ([k1 v1] & -> & H1). apply list_elem_of_fmap in Hk2 as ([k2 v2] & E & H2).
      apply elem_of_map_to_list in H1. apply elem_of_bfilter in H2 as [_ H2]. simpl in *. subst. by rewrite H1 in H2.
    + rewrite (list_fmap_ext _ fst) by by intros ? []. apply NoDup_key_filter, NoDup_fst_map_to_list.
  - intros t Ht. destruct (HostTags_elem _ _ _ Ht) as [E|[E1 E2]]; [unfold SelectorValue; by rewrite E|].
    by apply autoTags_lookup in E2 as [_ ?]; auto.
  - intros -> k Hk. unfold HostTags. setoid_rewrite sort_elem_of. setoid_rewrite elem_of_app. setoid_rewrite list_elem_of_fmap.
    destruct (h_Labels h !! k) as [v|] eqn:El.
    + eexists. split; [left; exists (k, v); split; [done|by apply elem_of_map_to_list]|]. simpl.
      unfold SelectorValue. by rewrite El.
    + assert (Hauto : autoTags h true !! k = Some (SelectorValue h k)); [|eexists; split;
        [right; exists (k, SelectorValue h k); split; [done|];
         apply elem_of_bfilter; split; [by apply elem_of_map_to_list|by rewrite El]|done]].
      unfold SelectorValue in *. rewrite El in *. unfold autoTags, str_eqb in *. simpl.
      unfold HostSizeClass_Set, nonempty, str_eqb.
      repeat case_bool_decide; simplify_eq/=; rewrite ?lookup_insert_eq, ?lookup_insert_ne by done; try done.
Qed.
