(* ===== verification/Classify.v ===== *)
(** * Which class a job is in (classify.go, routing.go: AtQueue)

    [Classify] puts a job in a size class: by a label of its own, by an operator's pin,
    or by what its measured runs needed, with [AtQueue] reading the kept answer when a
    job arrives.  Moving up is quick and moving down is slow; the theorems say how
    slow, and that the class always has the memory the job is known to need, where any
    class has. *)
From Stdlib Require Import ZArith Lia Ascii String.
From stdpp Require Import base strings list gmap.
From S2P Require Import Prelude GoFloat GoString Store Phrases Resources History SizeClass.
Local Open Scope string_scope.
Local Open Scope list_scope.
Local Open Scope Z_scope.

Definition ClassWindow : Duration := 14 * 24 * Hour.
Definition ClassRuns : Z := JobUsageHistoryLimit.
Definition DownRuns : Z := 10.
Definition DownSpan : Duration := 7 * 24 * Hour.
Definition ThrottledShare : float64 := Eval vm_compute in f64_lit 25 100.
Definition ThrottleRuns : Z := 3.
Definition ThrottleFraction : float64 := Eval vm_compute in f64_lit 5 10.
Definition ThrottleMinDuration : Duration := 3 * Minute.

Record ClassifyInput := {
  ci_Labels : list string;
  ci_Pin : option SizePin;
  ci_Runs : list JobRun;
  ci_Current : option JobClass;
  ci_Now : Time
}.

Record Classification := {
  cn_Class : string;
  cn_Reason : string;
  cn_Basis : string;
  cn_FloorMB : Z;
  cn_Runs : Z
}.

(** [Duration.Hours]. *)
Definition Duration_Hours (d : Duration) : float64 :=
  (f64_of_Z (Z.quot d Hour) + f64_of_Z (Z.rem d Hour) / f64_of_Z Hour)%f64.

Definition longSpan (d : Duration) : string :=
  if 36 * Hour <=? d then plural (f64_to_int (math_Round (Duration_Hours d / f64_of_Z 24)%f64)) "day"
  else if 90 * Minute <=? d then plural (f64_to_int (math_Round (Duration_Hours d))) "hour"
  else formatDuration (Duration_Round d Minute).

Definition roundUp (v : float64) (step : Z) : Z := f64_to_int (math_Ceil (v / f64_of_Z step)%f64) *% step.

Definition RequestedClass (labels : list string) : string * bool :=
  let out := foldl (fun out l => match ClassOfLabel l with
                                 | Some k => if Rank out <? Rank k then k else out
                                 | None => out
                                 end) "" labels in
  (out, nonempty out).

Definition authority (labels : list string) (pin : option SizePin) : option Classification :=
  let '(class, ok) := RequestedClass labels in
  if ok then Some {| cn_Class := class; cn_Reason := "its runs-on asks for " +:+ SizeClass_Label class;
                     cn_Basis := SizeBasisExplicit; cn_FloorMB := 0; cn_Runs := 0 |}
  else match pin with
       | Some p =>
           if SizeClass_Valid (pin_Class p) then
             let what := if ForRepository p then "every job in " +:+ pin_Repo p else "this job" in
             Some {| cn_Class := pin_Class p;
                     cn_Reason := "an operator pinned " +:+ what +:+ " to " +:+ pin_Class p;
                     cn_Basis := SizeBasisPin; cn_FloorMB := 0; cn_Runs := 0 |}
           else None
       | None => None
       end.

(** The smallest class whose runner has the memory, and the largest if none has. *)
Definition holding (c : SizeConfig) (mb : Z) : string :=
  default SizeLarge (List.find (fun k => mb <=? sz_MemoryMB (classRunner c k)) SizeClasses).

Definition defaultClass (c : SizeConfig) : string :=
  if SizeClass_Valid (sc_DefaultClass c) then sc_DefaultClass c else SizeSmall.

Definition memoryClause (c : SizeConfig) (req : Requirement) (runs : Z) (class : string) : string :=
  if rq_MemoryMB req <=? 0 then
    "its last " +:+ itoa runs +:+ " runs used almost no memory, which a " +:+ class +:+ " runner holds"
  else
    let limit := sz_MemoryMB (classRunner c SizeLarge) in
    let needs := "its memory needs about " +:+ formatMB (rq_MemoryMB req) +:+ " (the 90th percentile of " +:+
                 itoa runs +:+ " runs, with a fifth added), which " in
    if (limit <? rq_MemoryMB req) && str_eqb class SizeLarge
    then needs +:+ "is more than a large runner has (" +:+ formatMB limit +:+ ")"
    else needs +:+ "a " +:+ class +:+ " runner holds".

(** The share of its time a run was held back reached the threshold. *)
Definition cpuBound (r : JobRun) : bool :=
  match JobRun_Throttled r with Some share => (share >=? ThrottledShare)%f64 | None => false end.

Definition cpuClass (c : SizeConfig) (runs : list JobRun) : string * string :=
  let sampled := countb (fun r => isSome (JobRun_Throttled r)) runs in
  let bound := List.filter cpuBound runs in
  let n := Z.of_nat (length bound) in
  if (sampled <? ThrottleRuns) || (f64_of_Z n <? ThrottleFraction * f64_of_Z sampled)%f64 then (SizeSmall, "")
  else
    let durations := SortStableFunc Z.compare (run_Duration <$> bound) in
    let cpus := List.filter fpos (run_GrantedCPUs <$> bound) in
    if nth (Nat.div2 (length durations)) durations 0 <? ThrottleMinDuration then (SizeSmall, "")
    else
      let had := match cpus with
                 | [] => sz_CPUs (classRunner c SizeSmall)
                 | _ => nth (Nat.div2 (length cpus)) (SortStableFunc f64_compare cpus) f64_zero
                 end in
      (default SizeLarge (List.find (fun k => (sz_CPUs (classRunner c k) >? had + cpuEpsilon)%f64) SizeClasses),
       itoa n +:+ " of its " +:+ itoa sampled +:+ " sampled runs were held back by their CPU limit (" +:+
       formatCPUs had +:+ " CPU) for at least a quarter of their time").

Definition runsSince (runs : list JobRun) (t : Time) : list JobRun :=
  List.filter (fun r => Time_After (run_CompletedAt r) t) runs.

(** What one run is taken to have needed. *)
Definition runNeed (r : JobRun) : Z :=
  roundUp (f64_of_Z (run_PeakMemoryMB r) * ProfileMemoryMargin)%f64 profileMemoryStep.

Definition newestOf (t0 : Time) (runs : list JobRun) : Time :=
  foldl (fun t r => if Time_After (run_CompletedAt r) t then run_CompletedAt r else t) t0 runs.
Definition oldestOf (t0 : Time) (runs : list JobRun) : Time :=
  foldl (fun t r => if Time_Before (run_CompletedAt r) t then run_CompletedAt r else t) t0 runs.

(** [fitsBelow]: whether the runs are evidence enough, how many there were, how long
    they spanned, and the most any needed. *)
Definition fitsBelow (c : SizeConfig) (runs : list JobRun) (lower : string) : bool * Z * Duration * Z :=
  match runs with
  | [] => (false, 0, 0, 0)
  | r0 :: _ =>
      let n := Z.of_nat (length runs) in
      let span := Time_Sub (newestOf (run_CompletedAt r0) runs) (oldestOf (run_CompletedAt r0) runs) in
      let most := foldl (fun most r => Z.max most (runNeed r)) 0 runs in
      let fits := forallb (fun r => negb (run_OOMKilled r || (sz_MemoryMB (classRunner c lower) <? runNeed r))) runs in
      let fits := fits && negb (Rank SizeSmall <? Rank (fst (cpuClass c runs))) in
      (fits && (DownRuns <=? n) && (DownSpan <=? span), n, span, most)
  end.

(** The limit a killed run hit, and what it is taken to need. *)
Definition killLimit (r : JobRun) : Z := Z.max (run_PeakMemoryMB r) (run_GrantedMemoryMB r).
Definition killNeed (r : JobRun) : Z :=
  roundUp (f64_of_Z (killLimit r) * ProfileOOMGrowth * ProfileMemoryMargin)%f64 profileMemoryStep.

(** The most a run killed since the class moved is taken to need, and the limit it hit. *)
Definition killedSince (runs : list JobRun) (movedAt : Time) : Z * Z :=
  foldl (fun '(oomNeed, oomLimit) r =>
    if run_OOMKilled r && Time_After (run_CompletedAt r) movedAt then
      if oomNeed <? killNeed r then (killNeed r, killLimit r) else (oomNeed, oomLimit)
    else (oomNeed, oomLimit)) (0, 0) runs.

Definition largerOf (a b : string) : string := if Rank a <? Rank b then b else a.

(** The peaks [fromRuns] profiles: what a run was granted is not among them. *)
Definition peakOf (r : JobRun) : JobPeak :=
  {| jp_CPUs := run_PeakCPUs r; jp_MemoryMB := run_PeakMemoryMB r;
     jp_GrantedMemoryMB := 0; jp_OOMKilled := run_OOMKilled r |}.

(** What the runs say: the evidence [fromRuns] gathers before it chooses. *)
Record evidence := {
  ev_current : string;
  ev_movedAt : Time;
  ev_recent : Z;
  ev_req : Requirement;
  ev_memClass : string;
  ev_oomNeed : Z;
  ev_oomLimit : Z;
  ev_oomClass : string;
  ev_cpuClass : string;
  ev_cpuNote : string;
  ev_proposed : string;
  ev_floor : Z
}.

(** The class kept for the job and when it moved there; none, and the zero time, for a
    job with no valid one. *)
Definition keptClass (current : option JobClass) : string * Time :=
  match current with
  | Some k => if SizeClass_Valid (jc_Class k) then (jc_Class k, jc_MovedAt k) else ("", 0)
  | None => ("", 0)
  end.

Definition weigh (c : SizeConfig) (inp : ClassifyInput) : evidence :=
  let '(current, movedAt) := keptClass (ci_Current inp) in
  let runs := ci_Runs inp in
  let recent := take (Z.to_nat (Z.min (Z.of_nat (length runs)) ClassRuns)) runs in
  let req := Profile (peakOf <$> recent) in
  let memClass := holding c (rq_MemoryMB req) in
  let '(oomNeed, oomLimit) := killedSince runs movedAt in
  let oomClass := if 0 <? oomNeed then holding c oomNeed else SizeSmall in
  let '(cpu, cpuNote) := cpuClass c recent in
  {| ev_current := current; ev_movedAt := movedAt; ev_recent := Z.of_nat (length recent);
     ev_req := req; ev_memClass := memClass;
     ev_oomNeed := oomNeed; ev_oomLimit := oomLimit; ev_oomClass := oomClass;
     ev_cpuClass := cpu; ev_cpuNote := cpuNote;
     ev_proposed := largerOf (largerOf memClass oomClass) cpu;
     ev_floor := Z.max (rq_MemoryMB req) oomNeed |}.

(** The clauses of a job that moved up, or that had no class. *)
Definition upBecause (c : SizeConfig) (e : evidence) : list string :=
  let memory := memoryClause c (ev_req e) (ev_recent e) (ev_proposed e) in
  let because :=
    if (0 <? ev_oomNeed e) && str_eqb (ev_oomClass e) (ev_proposed e) then
      ["the kernel killed a run for memory at " +:+ formatMB (ev_oomLimit e) +:+
       ", so it is taken to need about " +:+ formatMB (ev_oomNeed e)]
    else if str_eqb (ev_memClass e) (ev_proposed e) then [memory] else [] in
  let because := if str_eqb (ev_cpuClass e) (ev_proposed e) && nonempty (ev_cpuNote e)
                 then because ++ [ev_cpuNote e] else because in
  match because with [] => [memory] | _ => because end.

Definition stayReason (c : SizeConfig) (e : evidence) : string :=
  memoryClause c (ev_req e) (ev_recent e) (ev_current e) +:+
  (if str_eqb (ev_cpuClass e) (ev_current e) && nonempty (ev_cpuNote e) then "; and " +:+ ev_cpuNote e else "").

Definition fromHistory (e : evidence) (class : string) (floor : Z) (reason : string) : Classification :=
  {| cn_Class := class; cn_Reason := reason; cn_Basis := SizeBasisHistory; cn_FloorMB := floor; cn_Runs := ev_recent e |}.

(** The default arm of [fromRuns]: the job stays, or moves down one class. *)
Definition stayOrDown (c : SizeConfig) (runs : list JobRun) (e : evidence) : Classification :=
  let current := ev_current e in
  let stay := fromHistory e current (ev_floor e) (stayReason c e) in
  match Smaller current with
  | None => stay
  | Some lower =>
      let '(fits, n, span, most) := fitsBelow c (runsSince runs (ev_movedAt e)) lower in
      if fits && (Rank (ev_proposed e) <=? Rank lower) then
        fromHistory e lower most
          ("its last " +:+ itoa n +:+ " runs, over " +:+ longSpan span +:+ ", all fit a " +:+ lower +:+
           " runner (the most needed about " +:+ formatMB most +:+ "), so it moved down from " +:+ current)
      else if Rank (ev_proposed e) <? Rank current then
        fromHistory e current (ev_floor e)
          ("its runs would fit a " +:+ ev_proposed e +:+ " runner, but moving down takes " +:+ itoa DownRuns +:+
           " runs over " +:+ longSpan DownSpan +:+ " since it moved to " +:+ current +:+
           ", and there have been " +:+ itoa n +:+ " over " +:+ longSpan span)
      else stay
  end.

(** The class of a job nothing has measured. *)
Definition startsInDefault (c : SizeConfig) : Classification :=
  {| cn_Class := defaultClass c;
     cn_Reason := "it has no measured runs yet, so it starts in the default class, " +:+ defaultClass c;
     cn_Basis := SizeBasisDefault; cn_FloorMB := 0; cn_Runs := 0 |}.

Definition fromRuns (c : SizeConfig) (inp : ClassifyInput) : Classification :=
  match ci_Runs inp with
  | [] =>
      let current := fst (keptClass (ci_Current inp)) in
      if nonempty current then
        {| cn_Class := current;
           cn_Reason := "it has had no measured run in the last " +:+ longSpan ClassWindow +:+
                        ", so it keeps the class it had";
           cn_Basis := SizeBasisHistory; cn_FloorMB := 0; cn_Runs := 0 |}
      else startsInDefault c
  | runs =>
      let e := weigh c inp in
      if str_eqb (ev_current e) "" || (Rank (ev_current e) <? Rank (ev_proposed e)) then
        fromHistory e (ev_proposed e) (ev_floor e)
          (strings_Join (upBecause c e) "; and " +:+
           (if nonempty (ev_current e) then ", so it moved up from " +:+ ev_current e else ""))
      else stayOrDown c runs e
  end.

Definition Classify (c : SizeConfig) (inp : ClassifyInput) : Classification :=
  default (fromRuns c inp) (authority (ci_Labels inp) (ci_Pin inp)).

Definition AtQueue (c : SizeConfig) (labels : list string) (pin : option SizePin) (kept : option JobClass)
  : Classification :=
  match authority labels pin with
  | Some out => out
  | None =>
      match kept with
      | Some k =>
          if SizeClass_Valid (jc_Class k) then
            {| cn_Class := jc_Class k; cn_Reason := jc_Reason k;
               cn_Basis := if nonempty (jc_Basis k) then jc_Basis k else SizeBasisHistory;
               cn_FloorMB := jc_FloorMB k; cn_Runs := jc_Runs k |}
          else startsInDefault c
      | None => startsInDefault c
      end
  end.

(** The end of the controller's [refreshJobClass]: the class the runs of a job call for,
    kept when it came from them.  Labels and pins are left out of it. *)
Definition refreshJobClass (c : SizeConfig) (key : JobKey) (runs : list JobRun) (now : Time)
    (table : gmap JobKey JobClass) : gmap JobKey JobClass :=
  let cl := Classify c {| ci_Labels := []; ci_Pin := None; ci_Runs := runs; ci_Current := table !! key; ci_Now := now |} in
  if negb (str_eqb (cn_Basis cl) SizeBasisHistory) then table else
  let '(repo, workflow, name) := key in
  match PutJobClass table now
          {| jc_Repo := repo; jc_Workflow := workflow; jc_JobName := name;
             jc_Class := cn_Class cl; jc_Reason := cn_Reason cl; jc_Basis := cn_Basis cl;
             jc_FloorMB := cn_FloorMB cl; jc_Runs := cn_Runs cl; jc_ComputedAt := 0; jc_MovedAt := 0 |} with
  | inl (table, _) => table
  | inr _ => table
  end.

(** ** Classes and their order *)

Lemma valid_class k : SizeClass_Valid k = true <-> k ∈ SizeClasses.
Proof.
  unfold SizeClass_Valid, Rank, str_eqb. repeat case_bool_decide; subst; (split; [|set_solver]); try set_solver.
Qed.

Lemma class_cases k : k ∈ SizeClasses -> k = SizeSmall \/ k = SizeMedium \/ k = SizeLarge.
Proof. set_solver. Qed.

(** Case on which class each string of the context known to be one is. *)
Ltac by_class :=
  repeat match goal with H : ?k ∈ SizeClasses |- _ => apply class_cases in H; destruct H as [H|[H|H]] end;
  subst.

Lemma Rank_inj a b : a ∈ SizeClasses -> Rank a = Rank b -> a = b.
Proof. intros. by_class; unfold Rank, str_eqb in *; simpl in *; repeat case_bool_decide; done. Qed.

Lemma Rank_invalid k : k ∉ SizeClasses -> Rank k = -1.
Proof. unfold Rank, str_eqb. intros. repeat case_bool_decide; subst; set_solver. Qed.

Lemma Rank_bounds k : k ∈ SizeClasses -> 0 <= Rank k <= 2.
Proof. intros. by_class; done. Qed.

Lemma largerOf_rank a b : Rank (largerOf a b) = Z.max (Rank a) (Rank b).
Proof. unfold largerOf. destruct (Z.ltb_spec (Rank a) (Rank b)); lia. Qed.

Lemma largerOf_class a b : a ∈ SizeClasses -> b ∈ SizeClasses -> largerOf a b ∈ SizeClasses.
Proof. unfold largerOf. by case_match. Qed.

Lemma Smaller_spec k lower : Smaller k = Some lower -> lower ∈ SizeClasses /\ k ∈ SizeClasses /\ Rank lower = Rank k - 1.
Proof.
  destruct (decide (k ∈ SizeClasses)) as [Hk|Hk]; [|unfold Smaller; by rewrite (Rank_invalid k)].
  by_class; vm_compute; intros [=]; subst; split_and!; set_solver.
Qed.

(** The memory of a class's runner. *)
Definition classMB (c : SizeConfig) (k : string) : Z := sz_MemoryMB (classRunner c k).

(** The runners of the classes go up in memory. *)
Definition ascending (c : SizeConfig) : Prop :=
  classMB c SizeSmall <= classMB c SizeMedium <= classMB c SizeLarge.

Lemma classMB_mono c a b :
  ascending c -> a ∈ SizeClasses -> b ∈ SizeClasses -> Rank a <= Rank b -> classMB c a <= classMB c b.
Proof.
  intros [H1 H2] ???. by_class; change (Rank SizeSmall) with 0 in *; change (Rank SizeMedium) with 1 in *; change (Rank SizeLarge) with 2 in *; lia.
Qed.

Lemma first_class f : default SizeLarge (List.find f SizeClasses) ∈ SizeClasses.
Proof. destruct (List.find _ _) eqn:E; simpl; [|set_solver]. by apply find_some in E as [?%list_elem_of_In _]. Qed.

Lemma holding_class c mb : holding c mb ∈ SizeClasses.
Proof. apply first_class. Qed.

(** [holding] is the smallest class that holds the memory, and the largest if none does. *)
Lemma holding_holds c mb : mb <= classMB c (holding c mb) \/ holding c mb = SizeLarge.
Proof.
  unfold holding. destruct (List.find _ _) eqn:E; simpl; [left|by right].
  apply find_some in E as [_ E%Z.leb_le]. done.
Qed.

Lemma cpuClass_class c runs : fst (cpuClass c runs) ∈ SizeClasses.
Proof.
  assert (SizeSmall ∈ SizeClasses) by left. unfold cpuClass. do 2 (case_match; [done|]). apply first_class.
Qed.

(** *** Evidence *)

Lemma killedSince_grows runs movedAt acc :
  fst acc <= fst (foldl (fun '(oomNeed, oomLimit) r =>
    if run_OOMKilled r && Time_After (run_CompletedAt r) movedAt then
      if oomNeed <? killNeed r then (killNeed r, killLimit r) else (oomNeed, oomLimit)
    else (oomNeed, oomLimit)) acc runs).
Proof.
  revert acc. induction runs as [|r runs IH]; intros [n l]; simpl; [lia|].
  etrans; [|apply IH]. case_match; simpl; [|lia]. destruct (Z.ltb_spec n (killNeed r)); simpl; lia.
Qed.

Lemma killedSince_nonneg runs movedAt : 0 <= fst (killedSince runs movedAt).
Proof. apply (killedSince_grows runs movedAt (0, 0)). Qed.

(** Every kill since the class moved is covered. *)
Lemma killedSince_covers runs movedAt r :
  r ∈ runs -> run_OOMKilled r = true -> movedAt < run_CompletedAt r ->
  killNeed r <= fst (killedSince runs movedAt).
Proof.
  intros Hr Ho Ht. unfold killedSince. generalize (0, 0) as acc.
  induction runs as [|x runs IH]; intros acc; [by apply elem_of_nil in Hr|].
  apply elem_of_cons in Hr as [<-|Hr]; simpl; [|by apply IH].
  etrans; [|apply killedSince_grows]. destruct acc as [n l]. unfold Time_After.
  rewrite Ho, (proj2 (Z.ltb_lt _ _) Ht). simpl. destruct (Z.ltb_spec n (killNeed r)); simpl; lia.
Qed.

(** With no run since the class moved there is none killed. *)
Lemma killedSince_none runs movedAt :
  (forall r, r ∈ runs -> run_CompletedAt r <= movedAt) -> killedSince runs movedAt = (0, 0).
Proof.
  unfold killedSince. intros H. induction runs as [|r runs IH]; [done|]. simpl. unfold Time_After at 2.
  rewrite (proj2 (Z.ltb_ge _ _)) by (apply H; set_solver). rewrite andb_false_r. apply IH. set_solver.
Qed.

Lemma runsSince_none runs movedAt :
  (forall r, r ∈ runs -> run_CompletedAt r <= movedAt) -> runsSince runs movedAt = [].
Proof.
  unfold runsSince, Time_After. intros H. induction runs as [|r runs IH]; [done|]. simpl.
  rewrite (proj2 (Z.ltb_ge _ _)) by (apply H; set_solver). apply IH. set_solver.
Qed.

(** A span is between two of the runs. *)
Lemma newestOf_elem t0 runs : newestOf t0 runs = t0 \/ exists r, r ∈ runs /\ newestOf t0 runs = run_CompletedAt r.
Proof.
  unfold newestOf. revert t0. induction runs as [|r runs IH]; intros t0; simpl; [by left|].
  destruct (IH (if Time_After (run_CompletedAt r) t0 then run_CompletedAt r else t0)) as [E|(x & Hx & E)]; rewrite E;
    [|right; exists x; set_solver].
  case_match; [right; exists r; set_solver|by left].
Qed.

Lemma oldestOf_elem t0 runs : oldestOf t0 runs = t0 \/ exists r, r ∈ runs /\ oldestOf t0 runs = run_CompletedAt r.
Proof.
  unfold oldestOf. revert t0. induction runs as [|r runs IH]; intros t0; simpl; [by left|].
  destruct (IH (if Time_Before (run_CompletedAt r) t0 then run_CompletedAt r else t0)) as [E|(x & Hx & E)]; rewrite E;
    [|right; exists x; set_solver].
  case_match; [right; exists r; set_solver|by left].
Qed.

Lemma foldl_max_ge (f : JobRun -> Z) runs m : m <= foldl (fun most r => Z.max most (f r)) m runs.
Proof. revert m. induction runs as [|r runs IH]; intros m; simpl; [lia|]. etrans; [|apply IH]. lia. Qed.

Lemma foldl_max_le (f : JobRun -> Z) runs m b :
  m <= b -> (forall r, r ∈ runs -> f r <= b) -> foldl (fun most r => Z.max most (f r)) m runs <= b.
Proof.
  revert m. induction runs as [|r runs IH]; intros m Hm H; simpl; [done|].
  apply IH; [|set_solver]. apply Z.max_lub; [done|]. apply H. set_solver.
Qed.

(** What moving down takes. *)
Definition fit_below (c : SizeConfig) (runs : list JobRun) (lower : string) : Prop :=
  DownRuns <= Z.of_nat (length runs) /\
  (exists new old, new ∈ runs /\ old ∈ runs /\ DownSpan <= run_CompletedAt new - run_CompletedAt old) /\
  (forall r, r ∈ runs -> run_OOMKilled r = false /\ runNeed r <= classMB c lower) /\
  fst (cpuClass c runs) = SizeSmall.

Lemma fitsBelow_spec c runs lower n span most :
  fitsBelow c runs lower = (true, n, span, most) ->
  fit_below c runs lower /\ (most = 0 \/ most <= classMB c lower).
Proof.
  destruct runs as [|r0 runs']; [done|]. unfold fitsBelow. set (runs := r0 :: runs').
  intros [[[H <-]%pair_equal_spec <-]%pair_equal_spec <-]%pair_equal_spec.
  apply andb_prop in H as [[[Hf Hc]%andb_prop Hn%Z.leb_le]%andb_prop Hs%Z.leb_le].
  apply negb_true_iff, Z.ltb_ge in Hc.
  assert (Hall : forall r, r ∈ runs -> run_OOMKilled r = false /\ runNeed r <= classMB c lower).
  { intros r Hr%list_elem_of_In. rewrite forallb_forall in Hf. specialize (Hf r Hr).
    apply negb_true_iff, orb_false_elim in Hf as [? ?%Z.ltb_ge]. done. }
  split; [split_and!; [done| |done|]|].
  - assert (Hr0 : r0 ∈ runs) by (by left).
    assert (exists new, new ∈ runs /\ newestOf (run_CompletedAt r0) runs = run_CompletedAt new) as (new & ? & En)
      by (destruct (newestOf_elem (run_CompletedAt r0) runs) as [?|?]; eauto).
    assert (exists old, old ∈ runs /\ oldestOf (run_CompletedAt r0) runs = run_CompletedAt old) as (old & ? & Eo)
      by (destruct (oldestOf_elem (run_CompletedAt r0) runs) as [?|?]; eauto).
    exists new, old. split_and!; [done..|]. rewrite En, Eo in Hs.
    apply Time_Sub_ge in Hs as [?|?]; [done|done|]. vm_compute. by split.
  - pose proof (cpuClass_class c runs) as Hk. apply Rank_inj; [done|]. pose proof (Rank_bounds _ Hk).
    change (Rank SizeSmall) with 0 in *. lia.
  - destruct (Z.le_gt_cases 0 (classMB c lower)).
    + right. apply foldl_max_le; [done|]. intros. by apply Hall.
    + left. apply Z.le_antisymm; [|apply foldl_max_ge]. apply foldl_max_le; [done|]. intros r Hr.
      destruct (Hall r Hr). lia.
Qed.

(** *** What the runs propose *)

(** [k] holds [mb], as far as any class does. *)
Definition holds_mb (c : SizeConfig) (k : string) (mb : Z) : Prop :=
  mb = 0 \/ mb <= classMB c k \/ k = SizeLarge.

Lemma holds_mb_larger c a b mb :
  ascending c -> a ∈ SizeClasses -> b ∈ SizeClasses -> Rank a <= Rank b ->
  holds_mb c a mb -> holds_mb c b mb.
Proof.
  intros Hc Ha Hb Hab [->|[Hle| ->]]; [by left|right; left|right; right].
  - etrans; [exact Hle|]. by apply classMB_mono.
  - apply Rank_inj; [done|]. pose proof (Rank_bounds _ Hb). change (Rank SizeLarge) with 2 in *. lia.
Qed.

Lemma weigh_kept c inp :
  ev_current (weigh c inp) = fst (keptClass (ci_Current inp)) /\
  ev_movedAt (weigh c inp) = snd (keptClass (ci_Current inp)).
Proof. unfold weigh. destruct (keptClass _), (killedSince _ _), (cpuClass _ _). done. Qed.

Lemma weigh_oom c inp :
  ev_oomNeed (weigh c inp) = fst (killedSince (ci_Runs inp) (ev_movedAt (weigh c inp))) /\
  ev_floor (weigh c inp) = Z.max (rq_MemoryMB (ev_req (weigh c inp))) (ev_oomNeed (weigh c inp)).
Proof.
  unfold weigh. destruct (keptClass _) as [cur mv], (killedSince _ mv) as [need lim] eqn:E, (cpuClass _ _). simpl.
  by rewrite E.
Qed.

Lemma weigh_proposed c inp :
  let e := weigh c inp in
  ev_proposed e = largerOf (largerOf (holding c (rq_MemoryMB (ev_req e)))
                             (if 0 <? ev_oomNeed e then holding c (ev_oomNeed e) else SizeSmall)) (ev_cpuClass e) /\
  ev_proposed e ∈ SizeClasses.
Proof.
  unfold weigh. destruct (keptClass _) as [cur mv], (killedSince _ mv) as [need lim]. destruct (cpuClass _ _) as [k note] eqn:Ek.
  simpl. split; [done|]. pose proof (cpuClass_class c) as Hk. repeat apply largerOf_class.
  - apply holding_class.
  - case_match; [apply holding_class|left].
  - change k with (fst (k, note)). rewrite <- Ek. apply Hk.
Qed.

(** The class proposed holds what the job is known to need. *)
Lemma weigh_holds c inp : ascending c -> holds_mb c (ev_proposed (weigh c inp)) (ev_floor (weigh c inp)).
Proof.
  intros Hc. destruct (weigh_proposed c inp) as [Ep Hp]. destruct (weigh_oom c inp) as [En Ef].
  pose proof (killedSince_nonneg (ci_Runs inp) (ev_movedAt (weigh c inp))) as Hn. rewrite <- En in Hn.
  set (e := weigh c inp) in *. set (req := rq_MemoryMB (ev_req e)) in *.
  pose proof (largerOf_rank (largerOf (holding c req) (if 0 <? ev_oomNeed e then holding c (ev_oomNeed e) else SizeSmall))
    (ev_cpuClass e)) as Hr. rewrite <- Ep, largerOf_rank in Hr.
  assert (Hhold : forall mb, Rank (holding c mb) <= Rank (ev_proposed e) -> holds_mb c (ev_proposed e) mb).
  { intros mb Hle. apply (holds_mb_larger c (holding c mb)); auto using holding_class. right. apply holding_holds. }
  rewrite Ef. destruct (Z.max_spec req (ev_oomNeed e)) as [[Hlt ->]|[Hle ->]]; [|apply Hhold; lia].
  destruct (Z.ltb_spec 0 (ev_oomNeed e)); [apply Hhold; lia|left; lia].
Qed.

(** *** Moving up, staying and moving down *)

(** The three outcomes for a job with runs: it is put in the proposed class, it stays,
    or it moves down one class on the evidence [fit_below] asks for. *)
Inductive outcome (c : SizeConfig) (runs : list JobRun) (e : evidence) (out : Classification) : Prop :=
  | moves_up :
      ev_current e = "" \/ Rank (ev_current e) < Rank (ev_proposed e) ->
      cn_Class out = ev_proposed e -> cn_FloorMB out = ev_floor e -> outcome c runs e out
  | stays :
      ev_current e <> "" -> Rank (ev_proposed e) <= Rank (ev_current e) ->
      cn_Class out = ev_current e -> cn_FloorMB out = ev_floor e -> outcome c runs e out
  | moves_down :
      ev_current e <> "" ->
      Smaller (ev_current e) = Some (cn_Class out) -> Rank (ev_proposed e) <= Rank (cn_Class out) ->
      fit_below c (runsSince runs (ev_movedAt e)) (cn_Class out) ->
      cn_FloorMB out = 0 \/ cn_FloorMB out <= classMB c (cn_Class out) -> outcome c runs e out.

Lemma stayOrDown_outcome c runs e :
  ev_current e <> "" -> Rank (ev_proposed e) <= Rank (ev_current e) -> outcome c runs e (stayOrDown c runs e).
Proof.
  intros Hc Hle. unfold stayOrDown. destruct (Smaller (ev_current e)) as [lower|] eqn:El; [|by apply stays].
  destruct (fitsBelow c _ lower) as [[[fits n] span] most] eqn:Ef.
  destruct (fits && (Rank (ev_proposed e) <=? Rank lower)) eqn:Ed; [|case_match; by apply stays].
  apply andb_prop in Ed as [-> ?%Z.leb_le]. destruct (fitsBelow_spec _ _ _ _ _ _ Ef). by apply moves_down.
Qed.

Lemma fromRuns_outcome c inp :
  ci_Runs inp <> [] -> outcome c (ci_Runs inp) (weigh c inp) (fromRuns c inp) /\ cn_Basis (fromRuns c inp) = SizeBasisHistory.
Proof.
  intros Hr. unfold fromRuns. destruct (ci_Runs inp) as [|r runs] eqn:Er; [done|]. cbv zeta.
  destruct (str_eqb _ "" || _) eqn:E.
  - split; [|done]. apply moves_up; [|done..]. apply orb_prop in E as [?%bool_decide_eq_true|?%Z.ltb_lt]; auto.
  - apply orb_false_elim in E as [?%bool_decide_eq_false ?%Z.ltb_ge]. split; [by apply stayOrDown_outcome|].
    unfold stayOrDown. repeat case_match; done.
Qed.

Lemma keptClass_valid current : fst (keptClass current) = "" \/ fst (keptClass current) ∈ SizeClasses.
Proof.
  unfold keptClass. destruct current as [k|]; [|by left]. destruct (SizeClass_Valid _) eqn:E; [right|by left].
  by apply valid_class.
Qed.

(** The class of a job with no runs in the window: the one it has, or the default. *)
Lemma fromRuns_nil c inp :
  ci_Runs inp = [] ->
  cn_FloorMB (fromRuns c inp) = 0 /\
  cn_Class (fromRuns c inp) = (if nonempty (fst (keptClass (ci_Current inp))) then fst (keptClass (ci_Current inp)) else defaultClass c).
Proof. intros E. unfold fromRuns. rewrite E. by case_match. Qed.

Lemma requested_fold labels out :
  out = "" \/ out ∈ SizeClasses ->
  let o := foldl (fun out l => match ClassOfLabel l with
             | Some k => if Rank out <? Rank k then k else out | None => out end) out labels in
  o = "" \/ o ∈ SizeClasses.
Proof.
  revert out. induction labels as [|l labels IH]; intros out Hout; [done|]. apply IH.
  destruct (ClassOfLabel l) as [x|] eqn:Ex; [|done]. case_match; [right|done].
  unfold ClassOfLabel in Ex. by apply find_some in Ex as [?%list_elem_of_In _].
Qed.

Lemma RequestedClass_spec labels k : RequestedClass labels = (k, true) -> k ∈ SizeClasses.
Proof.
  unfold RequestedClass. intros [E En]%pair_equal_spec.
  destruct (requested_fold labels "" (or_introl eq_refl)) as [E'|?]; [by rewrite E' in En|by rewrite <- E].
Qed.

(** What is settled by a label or a pin is a class, with no floor. *)
Lemma authority_class labels pin out :
  authority labels pin = Some out -> cn_Class out ∈ SizeClasses /\ cn_FloorMB out = 0.
Proof.
  unfold authority. destruct (RequestedClass labels) as [k []] eqn:Er.
  - intros [= <-]. split; [by apply RequestedClass_spec in Er|done].
  - destruct pin as [p|]; [|done]. destruct (SizeClass_Valid _) eqn:Ev; [|done]. intros [= <-].
    split; [by apply valid_class|done].
Qed.

Lemma defaultClass_class c : defaultClass c ∈ SizeClasses.
Proof. unfold defaultClass. case_match eqn:E; [by apply valid_class|left]. Qed.

Lemma outcome_class c runs inp out :
  outcome c runs (weigh c inp) out -> cn_Class out ∈ SizeClasses.
Proof.
  destruct (weigh_proposed c inp) as [_ Hp]. destruct (weigh_kept c inp) as [Ek _].
  intros [_ -> _|Hc _ -> _|_ Hs _ _ _]; [done| |by apply Smaller_spec in Hs as [? _]].
  rewrite Ek in *. by destruct (keptClass_valid (ci_Current inp)).
Qed.

Lemma Classify_holds_need (c : SizeConfig) (inp : ClassifyInput) :
  ascending c ->
  cn_Class (Classify c inp) ∈ SizeClasses /\
  holds_mb c (cn_Class (Classify c inp)) (cn_FloorMB (Classify c inp)).
Proof.
  intros Hc. unfold Classify. destruct (authority _ _) as [out|] eqn:Ea; simpl.
  { destruct (authority_class _ _ _ Ea) as [? ->]. split; [done|by left]. }
  destruct (decide (ci_Runs inp = [])) as [Hr|Hr].
  - destruct (fromRuns_nil c inp Hr) as [-> ->]. split; [|by left].
    case_match eqn:En; [|apply defaultClass_class]. destruct (keptClass_valid (ci_Current inp)) as [E|]; [by rewrite E in En|done].
  - destruct (fromRuns_outcome c inp Hr) as [Ho _]. pose proof (outcome_class _ _ _ _ Ho) as Hk. split; [done|].
    pose proof (weigh_holds c inp Hc) as Hw. pose proof (proj2 (weigh_proposed c inp)) as Hp.
    destruct Ho as [_ Ec Ef|_ Hle Ec Ef|_ _ _ _ Hf]; [by rewrite Ec, Ef| |destruct Hf; [by left|by right; left]].
    rewrite Ec in Hk. rewrite Ec, Ef. by apply (holds_mb_larger c (ev_proposed (weigh c inp))).
Qed.

(** Every job is given one of the three classes, and where the classes'
    runners go up in memory the runner of that class has the memory the job is known to
    need, or the class is the largest there is. *)
Theorem Classify_holds_the_need (c : SizeConfig) (inp : ClassifyInput) :
  ascending c ->
  cn_Class (Classify c inp) ∈ SizeClasses /\
  holds_mb c (cn_Class (Classify c inp)) (cn_FloorMB (Classify c inp)).
Proof. apply Classify_holds_need. Qed.

(** A job nobody named a class for leaves its class for a smaller one only
    for the next one down, and only when the runs since it last moved are at least ten,
    two of them at least a week apart, none was killed for memory or held back by its
    CPU limit, and each needed no more memory than the smaller runner has. *)
Theorem Classify_moves_down_slowly (c : SizeConfig) (inp : ClassifyInput) (k : JobClass) :
  authority (ci_Labels inp) (ci_Pin inp) = None ->
  ci_Current inp = Some k -> SizeClass_Valid (jc_Class k) = true ->
  Rank (cn_Class (Classify c inp)) < Rank (jc_Class k) ->
  Smaller (jc_Class k) = Some (cn_Class (Classify c inp)) /\
  fit_below c (runsSince (ci_Runs inp) (jc_MovedAt k)) (cn_Class (Classify c inp)).
Proof.
  intros Ha Ek Hv. unfold Classify. rewrite Ha. simpl. intros Hlt.
  assert (Hkept : keptClass (ci_Current inp) = (jc_Class k, jc_MovedAt k)) by (unfold keptClass; by rewrite Ek, Hv).
  assert (Hne : jc_Class k <> "") by (intros E; by rewrite E in Hv).
  destruct (decide (ci_Runs inp = [])) as [Hr|Hr].
  - destruct (fromRuns_nil c inp Hr) as [_ E]. rewrite Hkept in E. simpl in E. rewrite E in Hlt.
    unfold nonempty in Hlt. destruct (jc_Class k); [done|simpl in Hlt; lia].
  - destruct (fromRuns_outcome c inp Hr) as [Ho _]. destruct (weigh_kept c inp) as [E1 E2]. rewrite Hkept in E1, E2. simpl in E1, E2.
    destruct Ho as [H Ec _|_ _ Ec _|_ Hs _ Hf _]; rewrite ?E1, ?E2 in *; [|rewrite Ec in Hlt; lia|done].
    destruct H; [done|]. rewrite Ec in Hlt. lia.
Qed.

(** *** Kills *)

(** A job nobody named a class for that the kernel killed for memory since
    it last moved is put at once in a class whose runner has what the killed run is
    taken to need, or in the largest. *)
Theorem Classify_kill_moves_up (c : SizeConfig) (inp : ClassifyInput) (r : JobRun) :
  ascending c -> authority (ci_Labels inp) (ci_Pin inp) = None ->
  r ∈ ci_Runs inp -> run_OOMKilled r = true -> snd (keptClass (ci_Current inp)) < run_CompletedAt r -> 0 < killNeed r ->
  killNeed r <= cn_FloorMB (Classify c inp) /\
  (killNeed r <= classMB c (cn_Class (Classify c inp)) \/ cn_Class (Classify c inp) = SizeLarge).
Proof.
  intros Hc Ha Hr Ho Ht Hn.
  assert (Hfl : killNeed r <= cn_FloorMB (fromRuns c inp)).
  { destruct (weigh_oom c inp) as [E1 E2]. destruct (weigh_kept c inp) as [_ Em].
    assert (killNeed r <= ev_floor (weigh c inp)).
    { rewrite E2, E1, Em. etrans; [by apply killedSince_covers|]. lia. }
    assert (Hne : ci_Runs inp <> []) by (intros E; rewrite E in Hr; by apply elem_of_nil in Hr).
    destruct (fromRuns_outcome c inp Hne) as [[_ _ -> |_ _ _ ->|_ _ _ (_ & _ & Hf & _) _] _]; [done|done|].
    destruct (Hf r) as [Hf' _]; [|congruence]. unfold runsSince. apply elem_of_bfilter. split; [done|].
    rewrite Em. by apply Z.ltb_lt. }
  assert (He : Classify c inp = fromRuns c inp) by (unfold Classify; by rewrite Ha).
  destruct (Classify_holds_need c inp Hc) as [_ Hh]. rewrite He in *. split; [done|].
  destruct Hh as [?|[?|?]]; [lia|left; lia|by right].
Qed.

(** *** Refreshing *)

Lemma fromRuns_kept c inp inp' :
  ci_Runs inp = ci_Runs inp' -> keptClass (ci_Current inp) = keptClass (ci_Current inp') -> fromRuns c inp = fromRuns c inp'.
Proof. intros E1 E2. unfold fromRuns, weigh. by rewrite E1, E2. Qed.

Lemma weigh_runs c inp inp' :
  ci_Runs inp = ci_Runs inp' ->
  ev_req (weigh c inp) = ev_req (weigh c inp') /\ ev_cpuClass (weigh c inp) = ev_cpuClass (weigh c inp').
Proof.
  intros E. unfold weigh. rewrite E. destruct (keptClass _) as [a1 b1], (keptClass _) as [a2 b2], (killedSince _ b1), (killedSince _ b2), (cpuClass _ _). done.
Qed.

(** With no run since the job last moved, the runs propose no more than they did. *)
Lemma proposed_after_move c inp inp' :
  ci_Runs inp = ci_Runs inp' ->
  (forall r, r ∈ ci_Runs inp' -> run_CompletedAt r <= snd (keptClass (ci_Current inp'))) ->
  Rank (ev_proposed (weigh c inp')) <= Rank (ev_proposed (weigh c inp)).
Proof.
  intros E Hr. destruct (weigh_runs c inp inp' E) as [E1 E2].
  destruct (weigh_oom c inp') as [Eo _]. destruct (weigh_kept c inp') as [_ Em].
  rewrite (killedSince_none _ (ev_movedAt (weigh c inp'))) in Eo by by rewrite Em.
  rewrite (proj1 (weigh_proposed c inp)), (proj1 (weigh_proposed c inp')), Eo, E1, E2. simpl.
  rewrite !largerOf_rank. change (Rank SizeSmall) with 0.
  case_match; [pose proof (Rank_bounds _ (holding_class c (ev_oomNeed (weigh c inp))))|change (Rank SizeSmall) with 0]; lia.
Qed.

(** A job that has just moved stays on the same runs. *)
Lemma fromRuns_after_move c inp inp' :
  ci_Runs inp = ci_Runs inp' -> ci_Runs inp <> [] ->
  fst (keptClass (ci_Current inp')) = cn_Class (fromRuns c inp) ->
  (forall r, r ∈ ci_Runs inp' -> run_CompletedAt r <= snd (keptClass (ci_Current inp'))) ->
  cn_Class (fromRuns c inp') = cn_Class (fromRuns c inp).
Proof.
  intros E Hne Hk Hr. pose proof (proposed_after_move c inp inp' E Hr) as Hp.
  destruct (fromRuns_outcome c inp Hne) as [Ho _]. pose proof (outcome_class _ _ _ _ Ho) as Hcls.
  assert (Hle : Rank (ev_proposed (weigh c inp)) <= Rank (cn_Class (fromRuns c inp))).
  { destruct Ho as [_ -> _|_ ? -> _|_ _ ? _ _]; done. }
  rewrite E in Hne. destruct (fromRuns_outcome c inp' Hne) as [Ho' _].
  destruct (weigh_kept c inp') as [Ek Em]. rewrite Hk in Ek.
  destruct Ho' as [[H|H] _ _|_ _ -> _|_ _ _ (Hf & _) _]; rewrite ?Ek in *; [|lia|done|].
  - rewrite H in Hcls. apply Rank_bounds in Hcls. change (Rank "") with (-1) in Hcls. lia.
  - rewrite runsSince_none in Hf by by rewrite Em. unfold DownRuns in Hf. simpl in Hf. lia.
Qed.

(** The input [refreshJobClass] classifies. *)
Definition refresh_input (key : JobKey) (runs : list JobRun) (now : Time) (table : gmap JobKey JobClass) : ClassifyInput :=
  {| ci_Labels := []; ci_Pin := None; ci_Runs := runs; ci_Current := table !! key; ci_Now := now |}.

(** When a class last moved, kept as [cl] at [now]. *)
Definition moved_at (row : option JobClass) (class : string) (now : Time) : Time :=
  at_ms (match row with Some row => if str_eqb (jc_Class row) class then jc_MovedAt row else now | None => now end).

(** A valid class is put in its row, with the time of the last move. *)
Lemma PutJobClass_row table now cl :
  jc_Class cl ∈ SizeClasses ->
  exists table' previous row, PutJobClass table now cl = inl (table', previous) /\ table' !! jc_key cl = Some row /\
    jc_Class row = jc_Class cl /\ jc_MovedAt row = moved_at (table !! jc_key cl) (jc_Class cl) now.
Proof.
  intros Hv%valid_class. unfold PutJobClass, moved_at. rewrite Hv. simpl.
  destruct (table !! jc_key cl); do 3 eexists; (split; [done|]); (split; [apply lookup_insert_eq|done]).
Qed.

(** What a refresh leaves in the table: nothing new, or a row of the class the runs
    call for. *)
Lemma refresh_lookup c key runs now table :
  let cl := fromRuns c (refresh_input key runs now table) in
  (cn_Basis cl <> SizeBasisHistory /\ refreshJobClass c key runs now table = table) \/
  (cn_Basis cl = SizeBasisHistory /\ cn_Class cl ∈ SizeClasses /\
   exists row, refreshJobClass c key runs now table !! key = Some row /\
     jc_Class row = cn_Class cl /\ jc_MovedAt row = moved_at (table !! key) (cn_Class cl) now).
Proof.
  cbv zeta. unfold refreshJobClass. fold (refresh_input key runs now table).
  change (Classify c (refresh_input key runs now table)) with (fromRuns c (refresh_input key runs now table)).
  assert (Hv : cn_Class (fromRuns c (refresh_input key runs now table)) ∈ SizeClasses).
  { destruct (decide (runs = [])) as [Hr|Hr].
    - destruct (fromRuns_nil c (refresh_input key runs now table) Hr) as [_ ->].
      case_match eqn:En; [|apply defaultClass_class].
      destruct (keptClass_valid (ci_Current (refresh_input key runs now table))) as [E|]; [by rewrite E in En|done].
    - destruct (fromRuns_outcome c (refresh_input key runs now table) Hr) as [Ho _]. by apply outcome_class in Ho. }
  set (cl := fromRuns c _) in *. 
  destruct (str_eqb (cn_Basis cl) SizeBasisHistory) eqn:Eb; [apply bool_decide_eq_true in Eb|apply bool_decide_eq_false in Eb; by left].
  right.   split_and!; [done|done|]. destruct key as [[repo workflow] name]. simpl.
  match goal with |- context [PutJobClass table now ?x] => destruct (PutJobClass_row table now x Hv) as (t & prev & row & -> & Hrow) end.
  by exists row.
Qed.

Lemma at_ms_idemp t : at_ms (at_ms t) = at_ms t.
Proof. unfold at_ms. by rewrite Z.div_mul. Qed.

(** Times in the table are whole milliseconds. *)
Definition whole_ms (table : gmap JobKey JobClass) : Prop :=
  forall key row, table !! key = Some row -> at_ms (jc_MovedAt row) = jc_MovedAt row.

Definition kept_as (row : JobClass) : string * Time := (jc_Class row, jc_MovedAt row).

Lemma no_class_empty : "" ∉ SizeClasses.
Proof. by intros ?%valid_class. Qed.

(** Working a job's class out again from the same runs changes neither
    the class nor when it moved there, so a move is never taken straight back. *)
Theorem refresh_settles (c : SizeConfig) (key : JobKey) (runs : list JobRun) (now now' : Time) (table : gmap JobKey JobClass) :
  whole_ms table -> (forall r, r ∈ runs -> run_CompletedAt r <= at_ms now) ->
  let once := refreshJobClass c key runs now table in
  kept_as <$> refreshJobClass c key runs now' once !! key = kept_as <$> once !! key.
Proof.
  intros Hms Hr. cbv zeta. set (once := refreshJobClass c key runs now table).
  set (inp := refresh_input key runs now table). set (inp' := refresh_input key runs now' once).
  assert (Hstay : forall row, once !! key = Some row -> at_ms (jc_MovedAt row) = jc_MovedAt row ->
      cn_Class (fromRuns c inp') = jc_Class row ->
      kept_as <$> refreshJobClass c key runs now' once !! key = kept_as <$> once !! key).
  { intros row E Em Ec. destruct (refresh_lookup c key runs now' once) as [[_ ->]|(_ & _ & row' & -> & E1 & E2)]; [done|].
    fold inp' in E1, E2. rewrite E in *. simpl. f_equal. unfold kept_as. rewrite E1, E2, Ec. f_equal.
    unfold moved_at, str_eqb. by rewrite bool_decide_eq_true_2. }
  destruct (refresh_lookup c key runs now table) as [[Hb E]|(_ & Hv & row & E & E1 & E2)]; fold once in E.
  - fold inp in Hb. assert (Einp : fromRuns c inp' = fromRuns c inp) by (apply fromRuns_kept; [done|]; simpl; by rewrite E).
    destruct (refresh_lookup c key runs now' once) as [[_ ->]|(Hb' & _)]; [done|].
    fold inp' in Hb'. rewrite Einp in Hb'. done.
  - fold inp in Hv, E1, E2. assert (Hk' : keptClass (ci_Current inp') = (jc_Class row, jc_MovedAt row)).
    { unfold keptClass. simpl. rewrite E, E1. by rewrite (proj2 (valid_class _) Hv). }
    apply (Hstay row E); [rewrite E2; apply at_ms_idemp|]. rewrite E1.
    destruct (decide (keptClass (ci_Current inp) = keptClass (ci_Current inp'))) as [Hsame|Hdiff]; [by rewrite (fromRuns_kept c inp' inp)|].
    destruct (decide (runs = [])) as [->|Hne].
    { destruct (fromRuns_nil c inp' eq_refl) as [_ ->]. rewrite Hk', E1. cbn [fst].
      destruct (cn_Class (fromRuns c inp)) eqn:Ec; [by apply no_class_empty in Hv|done]. }
    apply fromRuns_after_move; [done|done|by rewrite Hk', E1|]. rewrite Hk'. cbn [snd]. rewrite E2.
    unfold moved_at. destruct (table !! key) as [row0|] eqn:E0; [|done].
    unfold str_eqb. case_bool_decide as Es; [|done]. destruct Hdiff. rewrite Hk', E2, E1. unfold keptClass. simpl. rewrite E0.
    rewrite Es, (proj2 (valid_class _) Hv). unfold moved_at, str_eqb. rewrite bool_decide_eq_true_2 by done. f_equal. symmetry. by eapply Hms.
Qed.
