(* ===== verification/Placement.v ===== *)
(** * Placement: which host takes a runner

    [hostSet] (scheduler.go) tracks what is left on each host while a plan is
    built.  [newHostSet] seeds it, [pick] and [pickReduced] choose a host,
    [placeAvoiding] takes the slot and the room, and [why] explains a placement
    that failed.  The order hosts are preferred in is headroom.go, host_order.go
    and host_priority.go. *)
From Stdlib Require Import ZArith Lia Ascii String.
From stdpp Require Import base strings list gmap.
From S2P Require Import Prelude GoFloat GoString Naming Store Phrases Resources Throttle History.
Local Open Scope string_scope.
Local Open Scope list_scope.
Local Open Scope Z_scope.

(** ** The placement rule (scheduler.go) *)
Definition HostPresent (h : Host) (now : Time) : bool :=
  Healthy h now && negb (h_Cordoned h) && negb (h_Incompatible h).
Definition HostAvailable (h : Host) (now : Time) : bool :=
  HostPresent h now && negb (nonempty (HostAdmissionReason h now)).
Definition HostOffers (h : Host) (p : Pool) : bool := str_in (p_Backend p) (h_Backends h).
Definition HostIsPlatform (h : Host) (p : Pool) : bool := Platform_Matches (p_Platform p) (Host_Platform h).
Definition HostSelects (h : Host) (p : Pool) : bool :=
  forallb (fun '(k, v) => str_eqb (SelectorValue h k) v) (map_to_list (p_HostSelector p)).
Definition HostCouldRun (h : Host) (p : Pool) : bool :=
  HostOffers h p && HostIsPlatform h p && HostSelects h p && HostFits h p.
Definition HostCanRun (h : Host) (p : Pool) (now : Time) : bool := HostAvailable h now && HostCouldRun h p.

(** ** Priority (host_priority.go) *)
Record hostPriorityAxis := {
  ax_name : string;
  ax_share : Z;
  ax_full : Z;
  ax_value : Host -> float64;
  ax_known : Host -> bool
}.

Definition hostPriorityAxes : list hostPriorityAxis :=
  [ {| ax_name := "CPUs"; ax_share := 30; ax_full := 64;
       ax_value := fun h => f64_of_Z (h_CPUs h); ax_known := fun h => 0 <? h_CPUs h |};
    {| ax_name := "CPU clock"; ax_share := 20; ax_full := 4000;
       ax_value := fun h => f64_of_Z (h_CPUMHz h); ax_known := fun h => 0 <? h_CPUMHz h |};
    {| ax_name := "memory"; ax_share := 25; ax_full := 256 * 1024;
       ax_value := fun h => f64_of_Z (h_MemoryMB h); ax_known := fun h => 0 <? h_MemoryMB h |};
    {| ax_name := "memory speed"; ax_share := 5; ax_full := 6400;
       ax_value := fun h => f64_of_Z (h_MemoryMTs h); ax_known := fun h => 0 <? h_MemoryMTs h |};
    {| ax_name := "disk"; ax_share := 10; ax_full := 2 * 1024 * 1024;
       ax_value := fun h => f64_of_Z (h_DiskTotalMB h); ax_known := fun h => 0 <? h_DiskTotalMB h |};
    {| ax_name := "disk speed"; ax_share := 10; ax_full := 1;
       ax_value := SpecDiskSpeed; ax_known := fun h => nonempty (h_DiskKind h) |} ].

Definition HostSpecPriority (h : Host) : Z :=
  let '(value, weight) := foldl (fun '(value, weight) axis =>
      if negb (ax_known axis h) then (value, weight)
      else ((value + f64_of_Z (ax_share axis) *
               fmin (ax_value axis h / f64_of_Z (ax_full axis)) (f64_of_Z 1))%f64,
            (weight + f64_of_Z (ax_share axis))%f64))
    (f64_zero, f64_zero) hostPriorityAxes in
  if (weight =? f64_zero)%f64 then 0
  else f64_to_int (math_Round (value / weight * f64_of_Z 100)%f64).

(** [HostPriority]'s score: the operator's pin, or the specs. *)
Definition HostPriority (h : Host) : Z :=
  match h_PriorityOverride h with Some s => s | None => HostSpecPriority h end.

(** ** What is left on each host *)
Record hostSet := {
  hs_readiness : gmap string (gmap string Duration);
  hs_preferReadiness : bool;
  hs_hosts : list Host;
  hs_free : gmap string Z;
  hs_observedCPU : gmap string float64;
  hs_warming : gmap string Z;
  hs_warmingDinD : gmap string Z;
  hs_left : gmap string Reservation;
  hs_alloc : gmap string HostAllocation;
  hs_promisedMemory : gmap string Z;
  hs_ours : gmap string bool;
  hs_now : Time;
  hs_order : string;
  hs_need : option Requirement
}.

Definition zero_HostAllocation : HostAllocation :=
  {| al_CPUs := f64_zero; al_MemoryMB := 0; al_DiskMB := 0;
     al_CPUsKnown := false; al_MemoryKnown := false; al_DiskKnown := false |}.

Definition free_of (hs : hostSet) (h : Host) : Z := map_get (hs_free hs) (h_ID h) 0.
Definition warming_of (hs : hostSet) (h : Host) : Z := map_get (hs_warming hs) (h_ID h) 0.
Definition warmingDinD_of (hs : hostSet) (h : Host) : Z := map_get (hs_warmingDinD hs) (h_ID h) 0.
Definition left_of (hs : hostSet) (h : Host) : Reservation := map_get (hs_left hs) (h_ID h) zero_Reservation.
Definition alloc_of (hs : hostSet) (h : Host) : HostAllocation :=
  map_get (hs_alloc hs) (h_ID h) zero_HostAllocation.
Definition promised_of (hs : hostSet) (h : Host) : Z := map_get (hs_promisedMemory hs) (h_ID h) 0.
Definition ours_of (hs : hostSet) (h : Host) : bool := map_get (hs_ours hs) (h_ID h) false.

Definition host_cmp (a b : Host) : comparison := cmp_on h_ID strings_Compare a b.
Definition sortedHosts (hosts : list (option Host)) : list Host := SortStableFunc host_cmp (omap id hosts).

(** The first loop of [newHostSet]: every host whole. *)
Definition seedHost (now : Time) (hs : hostSet) (h : Host) : hostSet :=
  let a := Allocatable h in
  {| hs_readiness := hs_readiness hs; hs_preferReadiness := hs_preferReadiness hs; hs_hosts := hs_hosts hs;
     hs_free := <[h_ID h := Host_Free h]> (hs_free hs); hs_observedCPU := hs_observedCPU hs;
     hs_warming := hs_warming hs; hs_warmingDinD := hs_warmingDinD hs;
     hs_left := <[h_ID h := whole a]> (hs_left hs);
     hs_alloc := <[h_ID h := a]> (hs_alloc hs);
     hs_promisedMemory := hs_promisedMemory hs; hs_ours := hs_ours hs; hs_now := now;
     hs_order := hs_order hs; hs_need := hs_need hs |}.

(** The second: less what the runners on it were promised, and no more than was
    measured free. *)
Definition chargeHost (now : Time) (hs : hostSet) (ht : Host * hostTotals) : hostSet :=
  let '(h, t) := ht in
  let l := left_of hs h in
  let reserved := ht_reserved t in
  let cpus := (res_CPUs l - res_CPUs reserved)%f64 in
  let memoryMB := res_MemoryMB l -% res_MemoryMB reserved in
  let diskMB := if al_DiskKnown (alloc_of hs h) then res_DiskMB l -% res_DiskMB reserved else res_DiskMB l in
  let pending := ht_pending t in
  let fresh := Usage_Fresh (h_Usage h) now in
  let measuredMB :=
    match u_MemoryAvailableMB (h_Usage h) with
    | Some v => if fresh then Z.min memoryMB (Z.max (v -% res_MemoryMB pending) 0) else memoryMB
    | None => memoryMB
    end in
  {| hs_readiness := hs_readiness hs; hs_preferReadiness := hs_preferReadiness hs; hs_hosts := hs_hosts hs;
     hs_free := hs_free hs;
     hs_observedCPU :=
       match UnlentCPUPercent (h_Usage h) with
       | Some v => if fresh then
           <[h_ID h := fmax (f64_of_Z (h_CPUs h) * (f64_of_Z 1 - v / f64_of_Z 100) - CPUReserve h - res_CPUs pending)%f64
                            f64_zero]> (hs_observedCPU hs)
         else hs_observedCPU hs
       | None => hs_observedCPU hs
       end;
     hs_warming := if 0 <? ht_warming t then <[h_ID h := warming_of hs h + ht_warming t]> (hs_warming hs)
                   else hs_warming hs;
     hs_warmingDinD := if 0 <? ht_warmingDinD t
                       then <[h_ID h := warmingDinD_of hs h + ht_warmingDinD t]> (hs_warmingDinD hs)
                       else hs_warmingDinD hs;
     hs_left := <[h_ID h := {| res_CPUs := cpus; res_MemoryMB := measuredMB; res_DiskMB := diskMB |}]> (hs_left hs);
     hs_alloc := hs_alloc hs;
     hs_promisedMemory := <[h_ID h := memoryMB]> (hs_promisedMemory hs);
     hs_ours := <[h_ID h := ht_ours t]> (hs_ours hs);
     hs_now := hs_now hs; hs_order := hs_order hs; hs_need := hs_need hs |}.

Definition empty_hostSet (hosts : list Host) (now : Time) : hostSet :=
  {| hs_readiness := ∅; hs_preferReadiness := false; hs_hosts := hosts; hs_free := ∅; hs_observedCPU := ∅;
     hs_warming := ∅; hs_warmingDinD := ∅; hs_left := ∅; hs_alloc := ∅; hs_promisedMemory := ∅; hs_ours := ∅;
     hs_now := now; hs_order := ""; hs_need := None |}.

Definition newHostSet (hosts : list (option Host)) (pools : list Pool)
    (runners : gmap string (list (option Runner))) (now : Time) : hostSet :=
  let sorted := sortedHosts hosts in
  let hs := foldl (seedHost now) (empty_hostSet sorted now) sorted in
  foldl (chargeHost now) hs (zip sorted (totalsByHost (Some <$> sorted) (Some <$> pools) runners)).

(** ** Room *)
Definition memoryLeft (hs : hostSet) (h : Host) (p : Pool) : Z :=
  if (rs_MemoryMB (p_Resources p) <=? 0) && negb (ours_of hs h) then promised_of hs h
  else res_MemoryMB (left_of hs h).

Definition leftFor (hs : hostSet) (h : Host) (p : Pool) : Reservation :=
  let l := left_of hs h in
  {| res_CPUs := res_CPUs l; res_MemoryMB := memoryLeft hs h p; res_DiskMB := res_DiskMB l |}.

Definition hasRoom (hs : hostSet) (h : Host) (p : Pool) : bool :=
  fits (leftFor hs h p) (Reserve p h) (alloc_of hs h).

(** [shortOf] (history.go): what a host cannot give, or the empty string. *)
Definition shortOf (hs : hostSet) (h : Host) (p : Pool) (r : Requirement) : string :=
  let l := leftFor hs h p in
  let a := alloc_of hs h in
  if al_MemoryKnown a && (0 <? rq_MemoryMB r) && (res_MemoryMB l <? rq_MemoryMB r) then
    "held off " +:+ hostName h +:+ ": jobs waiting need ~" +:+ formatMB (rq_MemoryMB r) +:+ ", it has " +:+
    formatMB (Z.max (res_MemoryMB l) 0)
  else if al_CPUsKnown a && fpos (rq_CPUs r) && (res_CPUs l + cpuEpsilon <? rq_CPUs r)%f64 then
    "held off " +:+ hostName h +:+ ": jobs waiting need ~" +:+ formatCPUs (rq_CPUs r) +:+ " CPU, it has " +:+
    formatCPUs (fmax (res_CPUs l) f64_zero)
  else "".

Definition holds_need (hs : hostSet) (h : Host) (p : Pool) : bool :=
  match hs_need hs with Some r => negb (nonempty (shortOf hs h p r)) | None => true end.

(** A host under CPU pressure starts one runner at a time. *)
Definition startingSlowly (hs : hostSet) (h : Host) : bool :=
  hostUnderCPUPressure h (hs_now hs) && (0 <? warming_of hs h).

Definition eligibleAsSized (hs : hostSet) (h : Host) (p : Pool) : bool :=
  (0 <? free_of hs h) && hasRoom hs h p && HostCanRun h p (hs_now hs) && negb (startingSlowly hs h).
Definition eligible (hs : hostSet) (h : Host) (p : Pool) : bool :=
  eligibleAsSized hs h p && holds_need hs h p.

(** ** Preference (headroom.go, host_order.go) *)
Definition HostOrderHeadroom : string := "headroom".
Definition HostOrderLargestStandard : string := "largest_standard".
Definition HostOrderBestFit : string := "best_fit".
Definition HostOrders : list string := [HostOrderHeadroom; HostOrderLargestStandard; HostOrderBestFit].
Definition ValidHostOrder (s : string) : bool := str_eqb s "" || existsb (str_eqb s) HostOrders.

Definition compareStandard (a b : Reservation) : comparison :=
  if (res_CPUs a >? res_CPUs b + cpuEpsilon)%f64 then Gt
  else if (res_CPUs b >? res_CPUs a + cpuEpsilon)%f64 then Lt
  else if res_MemoryMB b <? res_MemoryMB a then Gt
  else if res_MemoryMB a <? res_MemoryMB b then Lt
  else Eq.

(** [score]: the fraction of the host left after the runner is placed. *)
Definition headroom (hs : hostSet) (h : Host) (p : Pool) : float64 :=
  if Slots h <=? 0 then f64_of_Z (-1) else
  let want := Reserve p h in
  let left := left_of hs h in
  let alloc := alloc_of hs h in
  let '(score, dimensions) :=
    if al_CPUsKnown alloc && fpos (al_CPUs alloc) then
      let cpu := match hs_observedCPU hs !! h_ID h with
                 | Some measured => fmin (res_CPUs left) measured
                 | None => res_CPUs left
                 end in
      ((f64_zero + fmax (cpu - res_CPUs want) f64_zero / al_CPUs alloc)%f64, (f64_zero + f64_of_Z 1)%f64)
    else (f64_zero, f64_zero) in
  let '(score, dimensions) :=
    if al_MemoryKnown alloc && (0 <? al_MemoryMB alloc) then
      ((score + f64_of_Z (Z.max (res_MemoryMB left -% res_MemoryMB want) 0) / f64_of_Z (al_MemoryMB alloc))%f64,
       (dimensions + f64_of_Z 1)%f64)
    else (score, dimensions) in
  if fpos dimensions then (score / dimensions)%f64
  else (f64_of_Z (free_of hs h -% 1) / f64_of_Z (Slots h))%f64.

Definition readyDelay (hs : hostSet) (h : Host) (p : Pool) : Duration :=
  let d := map_get (map_get (hs_readiness hs) (p_ID p) ∅) (h_ID h) 0 in
  let d := if d <=? 0 then Minute else d in
  let d := Z.min (Z.max d (5 * Second)) (10 * Minute) in
  let warming := if is_dind (p_DockerMode p) then warmingDinD_of hs h
                 else warming_of hs h -% warmingDinD_of hs h in
  (warming +% 1) *% d.

Definition tighter (hs : hostSet) (h best : Host) (p : Pool) (measured : bool) : bool :=
  let score := headroom hs h p in
  let bestScore := headroom hs best p in
  if measured && (math_Abs (score - bestScore) >? cpuEpsilon)%f64 then (score <? bestScore)%f64
  else free_of hs h <? free_of hs best.

(** The last rule of [prefer]: more headroom, and within rounding more slots. *)
Definition roomier (hs : hostSet) (h best : Host) (p : Pool) : bool :=
  let a := alloc_of hs h in
  let b := alloc_of hs best in
  if negb (al_CPUsKnown a) && negb (al_MemoryKnown a) && negb (al_CPUsKnown b) && negb (al_MemoryKnown b)
  then free_of hs best <? free_of hs h
  else
    let score := headroom hs h p in
    let bestScore := headroom hs best p in
    (score >? bestScore + cpuEpsilon)%f64 ||
    ((math_Abs (score - bestScore) <=? cpuEpsilon)%f64 && (free_of hs best <? free_of hs h)).

Definition prefer (hs : hostSet) (h best : Host) (p : Pool) : bool :=
  let da := readyDelay hs h p in
  let db := readyDelay hs best p in
  if hs_preferReadiness hs && (da +% 5 * Second <? db) then true
  else if hs_preferReadiness hs && (db +% 5 * Second <? da) then false
  else if negb (HostPriority h =? HostPriority best) then HostPriority best <? HostPriority h
  else
    let a := alloc_of hs h in
    let b := alloc_of hs best in
    let measured := (al_CPUsKnown a || al_MemoryKnown a) && (al_CPUsKnown b || al_MemoryKnown b) in
    if str_eqb (hs_order hs) HostOrderLargestStandard then
      match compareStandard (Reserve p h) (Reserve p best) with
      | Gt => true
      | Lt => false
      | Eq => roomier hs h best p
      end
    else if str_eqb (hs_order hs) HostOrderBestFit then tighter hs h best p measured
    else roomier hs h best p.

(** ** Choosing a host *)
Definition avoided (avoid : gset string) (h : Host) : bool := bool_decide (h_ID h ∈ avoid).

Definition better_host (hs : hostSet) (p : Pool) (best : option Host) (h : Host) : option Host :=
  match best with
  | None => Some h
  | Some b => if prefer hs h b p then Some h else Some b
  end.

Definition pick (hs : hostSet) (p : Pool) (avoid : gset string) : option Host :=
  let '(best, bestAvoided) :=
    foldl (fun '(best, bestAvoided) h =>
      if negb (eligible hs h p) then (best, bestAvoided)
      else if avoided avoid h then (best, better_host hs p bestAvoided h)
      else (better_host hs p best h, bestAvoided))
    (None, None) (hs_hosts hs) in
  match best with Some b => Some b | None => bestAvoided end.

Record reducedOption := { ro_h : Host; ro_charge : Reservation; ro_grant : Resources; ro_worth : float64 }.

(** How much of the standard a charge gives. *)
Definition worthOf (p : Pool) (h : Host) (charge : Reservation) : float64 :=
  let standard := Reserve p h in
  let worth := if fpos (res_CPUs standard)
               then (f64_zero + res_CPUs charge / res_CPUs standard)%f64 else f64_zero in
  if 0 <? res_MemoryMB standard
  then (worth + f64_of_Z (res_MemoryMB charge) / f64_of_Z (res_MemoryMB standard))%f64 else worth.

Definition better_option (o : reducedOption) (slot : option reducedOption) : option reducedOption :=
  match slot with
  | None => Some o
  | Some b =>
      let same := (ro_worth o =? ro_worth b)%f64 in
      let pa := HostPriority (ro_h o) in
      let pb := HostPriority (ro_h b) in
      if (ro_worth o >? ro_worth b)%f64 || (same && (pb <? pa)) ||
         (same && (pa =? pb) &&
          match strings_Compare (h_ID (ro_h o)) (h_ID (ro_h b)) with Lt => true | _ => false end)
      then Some o else Some b
  end.

(** The hosts [pickReduced] considers: [eligible] without the room. *)
Definition canReduce (hs : hostSet) (h : Host) (p : Pool) : bool :=
  (0 <? free_of hs h) && HostCanRun h p (hs_now hs) && negb (startingSlowly hs h) && holds_need hs h p.

Definition pickReduced (hs : hostSet) (p : Pool) (avoid : gset string) : option reducedOption :=
  if negb (Reducible (p_Resources p)) then None else
  let '(best, bestAvoided) :=
    foldl (fun '(best, bestAvoided) h =>
      if negb (canReduce hs h p) then (best, bestAvoided)
      else match ReducedSize p h (leftFor hs h p) (alloc_of hs h) with
           | None => (best, bestAvoided)
           | Some (charge, grant) =>
               let o := {| ro_h := h; ro_charge := charge; ro_grant := grant; ro_worth := worthOf p h charge |} in
               if avoided avoid h then (best, better_option o bestAvoided)
               else (better_option o best, bestAvoided)
           end)
    (None, None) (hs_hosts hs) in
  match best with Some b => Some b | None => bestAvoided end.

(** ** Taking the slot *)
Record placement := { pl_hostID : string; pl_size : option Resources; pl_raised : bool }.

Definition takeSlot (hs : hostSet) (h : Host) (p : Pool) (res : Reservation) : hostSet :=
  let l := left_of hs h in
  {| hs_readiness := hs_readiness hs; hs_preferReadiness := hs_preferReadiness hs; hs_hosts := hs_hosts hs;
     hs_free := <[h_ID h := free_of hs h -% 1]> (hs_free hs);
     hs_observedCPU := match hs_observedCPU hs !! h_ID h with
                       | Some cpu => <[h_ID h := fmax (cpu - res_CPUs res)%f64 f64_zero]> (hs_observedCPU hs)
                       | None => hs_observedCPU hs
                       end;
     hs_warming := <[h_ID h := warming_of hs h +% 1]> (hs_warming hs);
     hs_warmingDinD := if is_dind (p_DockerMode p)
                       then <[h_ID h := warmingDinD_of hs h +% 1]> (hs_warmingDinD hs) else hs_warmingDinD hs;
     hs_left := <[h_ID h := {| res_CPUs := (res_CPUs l - res_CPUs res)%f64;
                               res_MemoryMB := res_MemoryMB l -% res_MemoryMB res;
                               res_DiskMB := res_DiskMB l -% res_DiskMB res |}]> (hs_left hs);
     hs_alloc := hs_alloc hs;
     hs_promisedMemory := <[h_ID h := promised_of hs h -% res_MemoryMB res]> (hs_promisedMemory hs);
     hs_ours := <[h_ID h := true]> (hs_ours hs);
     hs_now := hs_now hs; hs_order := hs_order hs; hs_need := hs_need hs |}.

(** One runner: the host, the charge against it, the size given where it is not
    the standard, and whether that is above it. *)
Definition choose (hs : hostSet) (p : Pool) (avoid : gset string)
  : option (Host * Reservation * option Resources * bool) :=
  match pick hs p avoid with
  | Some h =>
      match hs_need hs with
      | Some need => let '(res, size, raised) := sizeForNeed p (Reserve p h) None need in Some (h, res, size, raised)
      | None => Some (h, Reserve p h, None, false)
      end
  | None =>
      match pickReduced hs p avoid with
      | Some o =>
          match hs_need hs with
          | Some need => let '(res, size, raised) := sizeForNeed p (ro_charge o) (Some (ro_grant o)) need in
                         Some (ro_h o, res, size, raised)
          | None => Some (ro_h o, ro_charge o, Some (ro_grant o), false)
          end
      | None => None
      end
  end.

(** [placeAvoiding] stops at the first runner no host can take. *)
Fixpoint placeAvoiding (hs : hostSet) (p : Pool) (n : nat) (avoid : gset string) : hostSet * list placement :=
  match n with
  | O => (hs, [])
  | S n =>
      match choose hs p avoid with
      | None => (hs, [])
      | Some (h, res, size, raised) =>
          let '(hs', out) := placeAvoiding (takeSlot hs h p res) p n avoid in
          (hs', {| pl_hostID := h_ID h; pl_size := size; pl_raised := raised |} :: out)
      end
  end.

Definition place (hs : hostSet) (p : Pool) (n : nat) : hostSet * list string :=
  let '(hs', out) := placeAvoiding hs p n ∅ in (hs', pl_hostID <$> out).

(** ** What the jobs waiting need (history.go) *)
Definition anyCouldHold (hs : hostSet) (p : Pool) (r : Requirement) : bool :=
  existsb (fun h =>
    let a := alloc_of hs h in
    HostCouldRun h p &&
    negb (al_CPUsKnown a && (al_CPUs a + cpuEpsilon <? rq_CPUs r)%f64) &&
    negb (al_MemoryKnown a && (al_MemoryMB a <? rq_MemoryMB r))) (hs_hosts hs).

Definition heldOff (hs : hostSet) (p : Pool) (r : Requirement) : gmap string string :=
  foldl (fun m h =>
    if negb (eligibleAsSized hs h p) then m
    else let s := shortOf hs h p r in if nonempty s then <[h_ID h := s]> m else m) ∅ (hs_hosts hs).

Definition sortedPhrases (hs : hostSet) (m : gmap string string) : string :=
  strings_Join (omap (fun h => m !! h_ID h) (hs_hosts hs)) "; ".

(** The heaviest by memory, then by CPU.  The source sorts with an unstable sort;
    requirements it cannot tell apart ask for the same size. *)
Definition requirement_cmp (a b : Requirement) : comparison :=
  if negb (rq_MemoryMB a =? rq_MemoryMB b) then Z.compare (wrap64 (rq_MemoryMB b - rq_MemoryMB a)) 0
  else if (rq_CPUs a >? rq_CPUs b)%f64 then Lt
  else if (rq_CPUs a <? rq_CPUs b)%f64 then Gt
  else Eq.

Definition heavier (r unfit : Requirement) : bool :=
  (rq_MemoryMB unfit <? rq_MemoryMB r) ||
  ((rq_MemoryMB r =? rq_MemoryMB unfit) && (rq_CPUs r >? rq_CPUs unfit)%f64).

Definition poolNeed (hs : hostSet) (history : gmap JobUsageKey (list JobPeak)) (p : Pool) (queued : list Job)
  : Requirement * string :=
  let reqs := List.filter Known (requirementFor history p <$> queued) in
  let fitting := List.filter (anyCouldHold hs p) reqs in
  let unfit := foldl (fun u r => if anyCouldHold hs p r then u else if heavier r u then r else u)
                     zero_Requirement reqs in
  let note := if Known unfit
              then "jobs waiting on pool " +:+ p_Name p +:+ " are known to need " +:+ Requirement_String unfit +:+
                   ", and no host that can run the pool has that much to give"
              else "" in
  match fitting with
  | [] => (zero_Requirement, note)
  | _ =>
      let need := foldl (fun n r =>
          {| rq_CPUs := fmax (rq_CPUs n) (rq_CPUs r); rq_MemoryMB := Z.max (rq_MemoryMB n) (rq_MemoryMB r);
             rq_Samples := rq_Samples n + rq_Samples r; rq_OOMKilled := rq_OOMKilled n + rq_OOMKilled r |})
          zero_Requirement fitting in
      if anyCouldHold hs p need then (need, note)
      else (default zero_Requirement (head (SortStableFunc requirement_cmp fitting)), note)
  end.

(** ** Why nothing could be placed *)

(** The arm of [why]'s switch a host falls in. *)
Inductive verdict :=
  | VUnhealthy | VCordoned | VIncompatible | VBackend | VPlatform | VSelector | VProfile | VHeld | VWarming
  | VThrottled | VLowDisk | VTooSmall | VFull
  | VShortMemory (committed : bool) | VShortCPU (committed : bool).

#[global] Instance verdict_eq_dec : EqDecision verdict.
Proof. solve_decision. Defined.

Definition verdictOf (hs : hostSet) (p : Pool) (h : Host) : verdict :=
  if negb (Healthy h (hs_now hs)) then VUnhealthy
  else if h_Cordoned h then VCordoned
  else if h_Incompatible h then VIncompatible
  else if negb (str_in (p_Backend p) (h_Backends h)) then VBackend
  else if negb (HostIsPlatform h p) then VPlatform
  else if negb (HostSelects h p) then VSelector
  else if isSome (ExcludedBySize h p) then VProfile
  else if nonempty (HostAdmissionReason h (hs_now hs)) then VHeld
  else if startingSlowly hs h then VWarming
  else if Throttle_Active (h_Throttle h) && (free_of hs h <=? 0) && (h_ActiveRunners h <? Slots h) then VThrottled
  else if al_DiskKnown (alloc_of hs h) && (al_DiskMB (alloc_of hs h) <? res_DiskMB (MinimumReserve p h)) then VLowDisk
  else if negb (HostFits h p) then VTooSmall
  else if free_of hs h <=? 0 then VFull
  else
    let left := leftFor hs h p in
    let alloc := alloc_of hs h in
    let want := MinimumReserve p h in
    if al_DiskKnown alloc && ((al_DiskMB alloc <=? 0) || (res_DiskMB left <? res_DiskMB want)) then VLowDisk
    else if al_MemoryKnown alloc && (res_MemoryMB left <? res_MemoryMB want) then VShortMemory (ours_of hs h)
    else if al_CPUsKnown alloc && (res_CPUs left + cpuEpsilon <? res_CPUs want)%f64 then VShortCPU (ours_of hs h)
    else VFull.

(** A job finishing would give the host back what it lacks; what it lacks is a slot. *)
Definition waits (v : verdict) : bool :=
  match v with VThrottled | VFull | VShortMemory true | VShortCPU true => true | _ => false end.
Definition outOfSlots (v : verdict) : bool := match v with VThrottled | VFull => true | _ => false end.

(** What a host adds to the explanation, if anything. *)
Definition detailOf (hs : hostSet) (p : Pool) (h : Host) : string :=
  match verdictOf hs p h with
  | VBackend =>
      match HostBackends_Find (h_BackendInfo h) (p_Backend p) with
      | Some info => if negb (hb_Available info) && nonempty (hb_Detail info)
                     then ForSentence (h_Name h) +:+ " reports: " +:+ hb_Detail info else ""
      | None => ""
      end
  | VProfile =>
      match ExcludedBySize h p with Some ex => ForSentence (h_Name h) +:+ ": " +:+ se_Reason ex | None => "" end
  | VHeld => ForSentence (h_Name h) +:+ ": " +:+ HostAdmissionReason h (hs_now hs)
  | VThrottled => ForSentence (h_Name h) +:+ ": " +:+ ThrottleReason h
  | _ => ""
  end.

Record blockage := {
  bl_what : string;
  bl_fix : string;
  bl_atCapacity : bool;
  bl_noEligibleHost : bool;
  bl_alternatives : list string
}.

Definition backendOrder : list string := [BackendDocker; BackendPodman; BackendProcess].

(** A host with a free slot that is up, in service and selected. *)
Definition openFor (hs : hostSet) (p : Pool) (h : Host) : bool :=
  (0 <? free_of hs h) && Healthy h (hs_now hs) && negb (h_Cordoned h) && negb (h_Incompatible h) && HostSelects h p.

Definition otherBackends (hs : hostSet) (p : Pool) : list string :=
  let offered kind := existsb (fun h => openFor hs p h && str_in kind (h_Backends h)) (hs_hosts hs) in
  List.filter (fun kind => negb (str_eqb kind (p_Backend p)) && offered kind) backendOrder.

Definition offering (hs : hostSet) (p : Pool) (kind : string) : Z :=
  countb (fun h => openFor hs p h && str_in kind (h_Backends h)) (hs_hosts hs).

Definition switchTo (hs : hostSet) (p : Pool) (alternatives : list string) : string :=
  match alternatives with
  | [] => "; they offer no other backend to switch this pool to"
  | [a] => ", or point this pool at " +:+ a +:+ ", which " +:+ plural (offering hs p a) "host" +:+ " already offers"
  | _ => ", or point this pool at a backend they already offer: " +:+
         strings_Join ((fun kind => kind +:+ " (" +:+ plural (offering hs p kind) "host" +:+ ")") <$> alternatives) ", "
  end.

(** The counters of [why]'s loop. *)
Record tally := {
  n_unhealthy : Z; n_cordoned : Z; n_incompatible : Z; n_backend : Z; n_platform : Z; n_selector : Z;
  n_profile : Z; n_tooSmall : Z; n_full : Z; n_shortCPU : Z; n_shortMemory : Z; n_lowDisk : Z; n_held : Z;
  n_warming : Z; n_throttled : Z; n_committed : Z; n_candidates : Z; n_waiting : Z; n_slotsOut : Z; n_hosts : Z
}.

Definition is_verdict (v w : verdict) : bool := bool_decide (v = w).
(** The host could run the pool and has not been taken out of service. *)
Definition candidate (p : Pool) (h : Host) : bool := HostCouldRun h p && negb (h_Cordoned h).

Definition tallyOf (hs : hostSet) (p : Pool) : tally :=
  let n v := countb (fun h => is_verdict (verdictOf hs p h) v) (hs_hosts hs) in
  {| n_unhealthy := n VUnhealthy; n_cordoned := n VCordoned; n_incompatible := n VIncompatible;
     n_backend := n VBackend; n_platform := n VPlatform; n_selector := n VSelector; n_profile := n VProfile;
     n_tooSmall := n VTooSmall; n_full := n VFull;
     n_shortCPU := n (VShortCPU true) + n (VShortCPU false);
     n_shortMemory := n (VShortMemory true) + n (VShortMemory false);
     n_lowDisk := n VLowDisk; n_held := n VHeld; n_warming := n VWarming; n_throttled := n VThrottled;
     n_committed := n (VShortCPU true) + n (VShortMemory true);
     n_candidates := countb (candidate p) (hs_hosts hs);
     n_waiting := countb (fun h => candidate p h && waits (verdictOf hs p h)) (hs_hosts hs);
     n_slotsOut := countb (fun h => candidate p h && outOfSlots (verdictOf hs p h)) (hs_hosts hs);
     n_hosts := Z.of_nat (length (hs_hosts hs)) |}.

Definition whyParts (p : Pool) (t : tally) : list string :=
  let add n what := if 0 <? n then [itoa n +:+ " " +:+ what] else [] in
  add (n_unhealthy t) "unhealthy" ++
  add (n_cordoned t) "cordoned" ++
  add (n_incompatible t) "running an agent this controller cannot talk to" ++
  add (n_backend t) ("without the " +:+ p_Backend p +:+ " backend") ++
  add (n_platform t) ("not " +:+ Platform_Describe (p_Platform p)) ++
  add (n_selector t) "not matching the pool's host selector" ++
  add (n_profile t) "excluded by their runner profile" ++
  add (n_tooSmall t) "too small for this pool's limits" ++
  add (n_shortMemory t) "short of memory" ++
  add (n_shortCPU t) "short of CPU" ++
  add (n_lowDisk t) "low on disk" ++
  add (n_held t) "holding new starts while host pressure clears" ++
  add (n_warming t) "starting one runner at a time while CPU is busy" ++
  add (n_throttled t) "throttled after sustained pressure" ++
  add (n_full t) "at capacity".

(** The switch that names the fix, and the backends it offers. *)
Definition whyFix (hs : hostSet) (p : Pool) (t : tally) : string * list string :=
  let down := n_unhealthy t + n_cordoned t in
  let short := n_shortMemory t + n_shortCPU t in
  let onlyFull := (n_full t + n_throttled t =? n_hosts t) ||
                  ((0 <? n_candidates t) && (n_slotsOut t =? n_candidates t)) in
  let r := p_Resources p in
  if (0 <? n_throttled t) && (n_held t + n_warming t =? 0) then
    ("wait for the throttle to lift, lower those hosts' capacity or the pools' limits so their runners fit the machine, or add a host; running jobs continue", [])
  else if 0 <? n_held t + n_warming t then
    ("wait for host pressure to clear, reduce other work on those hosts, or add a compatible host; running jobs continue", [])
  else if onlyFull then
    ("wait for a job to finish, raise a host's capacity, or add a host", [])
  else if (0 <? n_lowDisk t) && (n_lowDisk t + down =? n_hosts t) then
    (if 0 <? rs_DiskGB r
     then "free space on those hosts' work directories, lower the pool's resources.disk_gb, or add a host"
     else "free space on those hosts' work directories, set the pool's resources.disk_gb below the " +:+
          formatMB RunnerDiskMB +:+ " of working room a runner is given, or add a host", [])
  else if (0 <? n_profile t) && (n_profile t + down =? n_hosts t) then
    ("change those hosts' minimum or standard runner size, or this pool's size or minimum, or add a host whose profile suits it", [])
  else if (0 <? n_tooSmall t) && (n_tooSmall t + down =? n_hosts t) then
    (if Automatic p
     then "lower those hosts' capacity (the reason names the figure), or add a host large enough to run one"
     else "lower this pool's CPU or memory limits, or add a host large enough to run one", [])
  else if (0 <? short) && (short + down =? n_hosts t) then
    (if Automatic p && negb (Reducible r)
     then "wait for a runner to finish, give this pool a minimum CPU and memory so a runner can start with less than a whole share of a host, or add a host"
     else if Reducible r then "wait for a runner to finish, lower this pool's minimum, or add a host"
     else "wait for a runner to finish, lower this pool's limits, or add a host", [])
  else if (0 <? n_incompatible t) && (n_incompatible t + down =? n_hosts t) then
    ("upgrade the agent on those hosts to this controller's release; their existing runners keep working and are drained as normal", [])
  else if n_unhealthy t =? n_hosts t then
    ("check that the zoomies agent is running on those hosts and can reach this controller", [])
  else if (0 <? n_platform t) && (n_platform t + down =? n_hosts t) then
    ("add a " +:+ Platform_Describe (p_Platform p) +:+
     " host, or change this pool's platform to one your fleet already has", [])
  else if (0 <? n_backend t) && (n_backend t + down =? n_hosts t) then
    let alternatives := otherBackends hs p in
    ("make the " +:+ p_Backend p +:+ " backend usable on one of those hosts" +:+ switchTo hs p alternatives, alternatives)
  else ("add a host, raise a host's capacity, uncordon one, or relax the pool's host selector", []).

Definition why (hs : hostSet) (p : Pool) : blockage :=
  match hs_hosts hs with
  | [] => {| bl_what := "no agent hosts are registered, so there is nowhere to put a runner";
             bl_fix := "run 'zoomies agent' on a machine that can host runners, using a join token from the Hosts page";
             bl_atCapacity := false; bl_noEligibleHost := true; bl_alternatives := [] |}
  | _ =>
      let t := tallyOf hs p in
      let detail := default "" (head (List.filter nonempty (detailOf hs p <$> hs_hosts hs))) in
      let what := "no host can take a new " +:+ p_Backend p +:+ " runner (" +:+
                  strings_Join (whyParts p t) ", " +:+ ")" in
      let '(fx, alternatives) := whyFix hs p t in
      {| bl_what := if nonempty detail then what +:+ ". " +:+ detail else what;
         bl_fix := fx;
         bl_atCapacity := (n_full t + n_throttled t + n_committed t =? n_hosts t) ||
                          ((0 <? n_candidates t) && (n_waiting t =? n_candidates t));
         bl_noEligibleHost := n_full t + n_throttled t + n_committed t + n_held t + n_warming t =? 0;
         bl_alternatives := alternatives |}
  end.

(** ** What the choices guarantee *)
Lemma better_host_or hs p best h b :
  better_host hs p best h = Some b -> b = h \/ best = Some b.
Proof. unfold better_host. repeat case_match; naive_solver. Qed.

Lemma better_option_or o slot b : better_option o slot = Some b -> b = o \/ slot = Some b.
Proof. unfold better_option. repeat case_match; naive_solver. Qed.

Lemma pick_eligible hs p avoid h : pick hs p avoid = Some h -> h ∈ hs_hosts hs /\ eligible hs h p = true.
Proof.
  unfold pick.
  match goal with |- context [foldl ?f ?s ?l] =>
    assert (H : let '(best, bestAvoided) := foldl f s l in
      forall b, best = Some b \/ bestAvoided = Some b -> b ∈ hs_hosts hs /\ eligible hs b p = true) end.
  { apply (foldl_invariant (fun '(best, bestAvoided) =>
      forall b, best = Some b \/ bestAvoided = Some b -> b ∈ hs_hosts hs /\ eligible hs b p = true)); [naive_solver|].
    intros [best bestAvoided] x IH Hx. destruct (eligible hs x p) eqn:E; simpl; [|done].
    destruct (avoided avoid x); intros b [Hb|Hb]; try (apply IH; naive_solver).
    all: apply better_host_or in Hb as [-> |Hb]; [done|apply IH; naive_solver]. }
  destruct (foldl _ _ _) as [best bestAvoided]. destruct best; naive_solver.
Qed.

Lemma pickReduced_spec hs p avoid o :
  pickReduced hs p avoid = Some o ->
  ro_h o ∈ hs_hosts hs /\ canReduce hs (ro_h o) p = true /\
  ReducedSize p (ro_h o) (leftFor hs (ro_h o) p) (alloc_of hs (ro_h o)) = Some (ro_charge o, ro_grant o).
Proof.
  unfold pickReduced. destruct (negb (Reducible (p_Resources p))); [done|].
  set (good o := ro_h o ∈ hs_hosts hs /\ canReduce hs (ro_h o) p = true /\
    ReducedSize p (ro_h o) (leftFor hs (ro_h o) p) (alloc_of hs (ro_h o)) = Some (ro_charge o, ro_grant o)).
  match goal with |- context [foldl ?f ?s ?l] =>
    assert (H : let '(best, bestAvoided) := foldl f s l in
      forall b, best = Some b \/ bestAvoided = Some b -> good b) end.
  { apply (foldl_invariant (fun '(best, bestAvoided) =>
      forall b, best = Some b \/ bestAvoided = Some b -> good b)); [naive_solver|].
    intros [best bestAvoided] x IH Hx. destruct (canReduce hs x p) eqn:E; simpl; [|done].
    destruct (ReducedSize p x _ _) as [[charge grant]|] eqn:Er; [|done].
    destruct (avoided avoid x); intros b [Hb|Hb]; try (apply IH; naive_solver).
    all: apply better_option_or in Hb as [-> |Hb]; [done|apply IH; naive_solver]. }
  destruct (foldl _ _ _) as [best bestAvoided]. fold good. destruct best; naive_solver.
Qed.

(** A host that has been chosen has a slot, may run the pool now, and is not already
    starting a runner while its CPU is busy. *)
Definition open_to (hs : hostSet) (h : Host) (p : Pool) : Prop :=
  h ∈ hs_hosts hs /\ 0 < free_of hs h /\ HostCanRun h p (hs_now hs) = true /\ startingSlowly hs h = false.

(** The charge has the memory: what is still unpromised covers it. *)
Definition covers (hs : hostSet) (h : Host) (p : Pool) (res : Reservation) : Prop :=
  al_MemoryKnown (alloc_of hs h) = true -> res_MemoryMB res <= memoryLeft hs h p.

Lemma eligible_open hs h p : h ∈ hs_hosts hs -> eligible hs h p = true ->
  open_to hs h p /\ fits (leftFor hs h p) (Reserve p h) (alloc_of hs h) = true /\ holds_need hs h p = true.
Proof. unfold eligible, eligibleAsSized, open_to, hasRoom. intros. by bool_to_prop. Qed.

Lemma canReduce_open hs h p : h ∈ hs_hosts hs -> canReduce hs h p = true ->
  open_to hs h p /\ holds_need hs h p = true.
Proof. unfold canReduce, open_to. intros. by bool_to_prop. Qed.

Lemma ReducedSize_fits p h left known charge grant :
  ReducedSize p h left known = Some (charge, grant) -> fits left charge known = true.
Proof. unfold ReducedSize. case_match; [done|]. case_match eqn:E; [done|]. intros [= <- _]. by bool_to_prop. Qed.

Lemma shortOf_memory hs h p r :
  shortOf hs h p r = "" -> al_MemoryKnown (alloc_of hs h) = true -> 0 < rq_MemoryMB r ->
  rq_MemoryMB r <= memoryLeft hs h p.
Proof.
  unfold shortOf. intros H Hk Hr. rewrite Hk in H. simpl in H.
  destruct (0 <? rq_MemoryMB r) eqn:E1; bool_to_prop; [|lia]. simpl in H.
  destruct (memoryLeft hs h p <? rq_MemoryMB r) eqn:E2; [done|]. by bool_to_prop.
Qed.

Lemma nonempty_false s : nonempty s = false <-> s = "".
Proof. unfold nonempty, str_eqb. rewrite negb_false_iff. apply bool_decide_eq_true. Qed.

(** Raising a charge to what the jobs need keeps it within the host. *)
Lemma sizeForNeed_covers hs h p res size need res' size' raised :
  hs_need hs = Some need -> holds_need hs h p = true -> covers hs h p res -> 0 <= res_MemoryMB res ->
  sizeForNeed p res size need = (res', size', raised) ->
  covers hs h p res' /\ res_MemoryMB res <= res_MemoryMB res'.
Proof.
  intros Hn Hh Hc H0. unfold holds_need in Hh. rewrite Hn in Hh. apply negb_true_iff, nonempty_false in Hh.
  unfold sizeForNeed. set (raise := (rs_MemoryMB (p_Resources p) <=? 0) && (res_MemoryMB res <? rq_MemoryMB need)).
  assert (Hm : covers hs h p {| res_CPUs := res_CPUs res;
      res_MemoryMB := if raise then rq_MemoryMB need else res_MemoryMB res; res_DiskMB := 0 |} /\
    res_MemoryMB res <= (if raise then rq_MemoryMB need else res_MemoryMB res)).
  { unfold covers in *. simpl. destruct raise eqn:E; [|split; [done|lia]]. subst raise. bool_to_prop.
    split; [|lia]. intros Hk. eapply shortOf_memory; [done|done|lia]. }
  destruct Hm as [Hm1 Hm2]. intros E. assert (E' := f_equal (fun x => fst (fst x)) E). cbn [fst] in E'.
  assert (Er : res_MemoryMB res' = if raise then rq_MemoryMB need else res_MemoryMB res)
    by (rewrite <- E'; by case_match).
  unfold covers in *. rewrite Er. done.
Qed.

(** The charges of a pool on a host are not negative. *)
Definition chargeable (p : Pool) (h : Host) : Prop :=
  measurable p h /\ 0 <= res_MemoryMB (MinimumReserve p h).

Lemma choose_spec hs p avoid h res size raised :
  choose hs p avoid = Some (h, res, size, raised) ->
  open_to hs h p /\ (chargeable p h -> covers hs h p res /\ 0 <= res_MemoryMB res).
Proof.
  intros Hc. unfold choose in Hc.
  assert (Hneed : forall h0 res0 size0,
    match hs_need hs with
    | Some need => let '(res, size, raised) := sizeForNeed p res0 size0 need in Some (h0, res, size, raised)
    | None => Some (h0, res0, size0, false)
    end = Some (h, res, size, raised) ->
    holds_need hs h0 p = true -> covers hs h0 p res0 ->
    h0 = h /\ (0 <= res_MemoryMB res0 -> covers hs h p res /\ 0 <= res_MemoryMB res)).
  { intros h0 res0 size0 E Hn Hcov. destruct (hs_need hs) as [need|] eqn:En; [|injection E as <- <- _ _; auto].
    destruct (sizeForNeed p res0 size0 need) as [[res' size'] raised'] eqn:Es. injection E as <- <- <- <-.
    split; [done|]. intros H0. destruct (sizeForNeed_covers _ _ _ _ _ _ _ _ _ En Hn Hcov H0 Es). split; [done|lia]. }
  destruct (pick hs p avoid) as [h0|] eqn:Ep.
  - apply pick_eligible in Ep as [Hin He]. apply eligible_open in He as (Ho & Hf & Hn); [|done].
    destruct (Hneed h0 (Reserve p h0) None) as [<- H]; [done|done|intros Hk; by apply (fits_memory _ _ _ Hf)|].
    split; [done|]. intros [Hm H0]. destruct (MinimumReserve_le p h0 Hm) as [Hle _]. apply H. lia.
  - destruct (pickReduced hs p avoid) as [o|] eqn:Er; [|done].
    apply pickReduced_spec in Er as (Hin & Hcan & Hred). apply canReduce_open in Hcan as [Ho Hn]; [|done].
    pose proof (ReducedSize_fits _ _ _ _ _ _ Hred) as Hf.
    destruct (Hneed (ro_h o) (ro_charge o) (Some (ro_grant o))) as [<- H];
      [done|done|intros Hk; by apply (fits_memory _ _ _ Hf)|].
    split; [done|]. intros [Hm H0]. apply H. pose proof (ReducedSize_ge_minimum _ _ _ _ _ _ Hm Hred). lia.
Qed.

(** A charge is the pool's standard on the host where no size is named; where one is, it
    covers the size and the pool's minimum. *)
Definition charge_covers (p : Pool) (h : Host) (res : Reservation) (size : option Resources) : Prop :=
  match size with
  | None => res_MemoryMB res = res_MemoryMB (Reserve p h)
  | Some size => rs_MemoryMB size <= res_MemoryMB res /\ res_MemoryMB (MinimumReserve p h) <= res_MemoryMB res
  end.

Lemma share_le (m : Z) p typed : 0 <= m -> m /% fieldFactor p typed <= m.
Proof.
  intros H. unfold wrap64, fieldFactor.
  assert (Hq : 0 <= m ÷ (if typed && is_dind (p_DockerMode p) then 2 else 1) <= m) by (destruct (_ && _); rewrite Z.quot_div_nonneg by lia; pose proof (Z.div_mod m 2); pose proof (Z.mod_pos_bound m 2); rewrite ?Z.div_1_r; lia).
  pose proof (Z.mod_le (m ÷ (if typed && is_dind (p_DockerMode p) then 2 else 1) + 2 ^ 63) (2 ^ 64)). lia.
Qed.

Lemma ReducedSize_grant p h left known charge grant :
  ReducedSize p h left known = Some (charge, grant) -> 0 <= res_MemoryMB charge ->
  rs_MemoryMB grant <= res_MemoryMB charge.
Proof.
  unfold ReducedSize. cbv zeta. destruct (_ || _); [done|].
  match goal with |- (if ?b then _ else _) = _ -> _ => destruct b; [done|] end.
  intros [= <- <-] H. exact (share_le _ _ _ H).
Qed.

Lemma sizeForNeed_charge p h res size need res' size' raised :
  0 <= res_MemoryMB res -> res_MemoryMB (MinimumReserve p h) <= res_MemoryMB res -> charge_covers p h res size ->
  sizeForNeed p res size need = (res', size', raised) -> charge_covers p h res' size'.
Proof.
  intros H0 Hm Hc. unfold sizeForNeed.
  set (rm := (rs_MemoryMB (p_Resources p) <=? 0) && (res_MemoryMB res <? rq_MemoryMB need)).
  assert (res_MemoryMB res <= (if rm then rq_MemoryMB need else res_MemoryMB res)).
  { destruct rm eqn:E; [|lia]. subst rm. apply andb_true_iff in E as [_ E]. bool_to_prop. lia. }
  destruct (negb _) eqn:E; intros [= <- <- _].
  - apply negb_true_iff, orb_false_iff in E as [_ E]. by rewrite E.
  - simpl. split; [apply share_le; lia|lia].
Qed.

Lemma choose_charge hs p avoid h res size raised :
  choose hs p avoid = Some (h, res, size, raised) -> chargeable p h -> charge_covers p h res size.
Proof.
  unfold choose. intros Hc [Hm Hm0].
  assert (Hneed : forall h0 res0 size0,
    match hs_need hs with
    | Some need => let '(res, size, raised) := sizeForNeed p res0 size0 need in Some (h0, res, size, raised)
    | None => Some (h0, res0, size0, false)
    end = Some (h, res, size, raised) ->
    h0 = h /\ (res_MemoryMB (MinimumReserve p h) <= res_MemoryMB res0 -> charge_covers p h res0 size0 ->
               charge_covers p h res size)).
  { intros h0 res0 size0 E. destruct (hs_need hs) as [need|]; [|by injection E as <- <- <- _].
    destruct (sizeForNeed p res0 size0 need) as [[res' size'] raised'] eqn:Es. injection E as <- <- <- <-.
    split; [done|]. intros Hle Hcc. eapply sizeForNeed_charge; [|done..]. lia. }
  destruct (MinimumReserve_le p h Hm) as [Hmin _].
  destruct (pick hs p avoid) as [h0|] eqn:Ep.
  - destruct (Hneed h0 (Reserve p h0) None Hc) as (-> & Hn). by apply Hn.
  - destruct (pickReduced hs p avoid) as [o|] eqn:Er; [|done].
    destruct (Hneed (ro_h o) (ro_charge o) (Some (ro_grant o)) Hc) as (Eh & Hn).
    apply pickReduced_spec in Er as (_ & _ & Hred). rewrite Eh in Hred.
    pose proof (ReducedSize_ge_minimum _ _ _ _ _ _ Hm Hred) as Hge. apply Hn; [done|]. split; [|done].
    eapply ReducedSize_grant; [exact Hred|lia].
Qed.

(** ** Taking a slot touches one host *)
Lemma takeSlot_same hs h p res :
  free_of (takeSlot hs h p res) h = free_of hs h -% 1 /\
  promised_of (takeSlot hs h p res) h = promised_of hs h -% res_MemoryMB res /\
  res_MemoryMB (left_of (takeSlot hs h p res) h) = res_MemoryMB (left_of hs h) -% res_MemoryMB res /\
  ours_of (takeSlot hs h p res) h = true.
Proof. unfold free_of, promised_of, left_of, ours_of. simpl. by rewrite !map_get_insert. Qed.

Lemma takeSlot_other hs h h' p res : h_ID h <> h_ID h' ->
  free_of (takeSlot hs h p res) h' = free_of hs h' /\
  promised_of (takeSlot hs h p res) h' = promised_of hs h' /\
  left_of (takeSlot hs h p res) h' = left_of hs h' /\
  ours_of (takeSlot hs h p res) h' = ours_of hs h'.
Proof. intros. unfold free_of, promised_of, left_of, ours_of. simpl. by rewrite !map_get_insert_ne. Qed.

Lemma takeSlot_alloc hs h h' p res : alloc_of (takeSlot hs h p res) h' = alloc_of hs h'.
Proof. done. Qed.

(** The hosts of a set have one ID each. *)
Definition distinct_ids (hosts : list Host) : Prop :=
  forall h h', h ∈ hosts -> h' ∈ hosts -> h_ID h = h_ID h' -> h = h'.

(** The books of a measured host: what is left is within what is unpromised, and no
    sum is near the width of an integer. *)
Definition books (hs : hostSet) (h : Host) : Prop :=
  al_MemoryKnown (alloc_of hs h) = true ->
  res_MemoryMB (left_of hs h) <= promised_of hs h <= 2 ^ 62 /\
  (if ours_of hs h then int_min else - 2 ^ 62) <= res_MemoryMB (left_of hs h).

Lemma takeSlot_books hs h p res h' :
  h ∈ hs_hosts hs -> h' ∈ hs_hosts hs -> distinct_ids (hs_hosts hs) ->
  covers hs h p res -> 0 <= res_MemoryMB res ->
  books hs h' ->
  books (takeSlot hs h p res) h' /\
  (al_MemoryKnown (alloc_of hs h') = true ->
   promised_of (takeSlot hs h p res) h' =
     promised_of hs h' - (if decide (h_ID h = h_ID h') then res_MemoryMB res else 0) /\
   (h = h' \/ 0 <= promised_of hs h' -> 0 <= promised_of (takeSlot hs h p res) h')).
Proof.
  intros Hh Hh' Hd Hc H0 Hb. unfold books. rewrite takeSlot_alloc.
  destruct (decide (h_ID h = h_ID h')) as [E|E].
  - assert (h = h') as -> by by apply Hd.
    destruct (takeSlot_same hs h' p res) as (_ & -> & -> & ->).
    assert (H : al_MemoryKnown (alloc_of hs h') = true ->
      promised_of hs h' -% res_MemoryMB res = promised_of hs h' - res_MemoryMB res /\
      res_MemoryMB (left_of hs h') -% res_MemoryMB res = res_MemoryMB (left_of hs h') - res_MemoryMB res /\
      res_MemoryMB res <= promised_of hs h' /\ int_min <= res_MemoryMB (left_of hs h') - res_MemoryMB res).
    { intros Hk. specialize (Hc Hk). destruct (Hb Hk) as [Hb1 Hb2]. unfold memoryLeft in Hc.
      unfold int_min in *.
      assert (res_MemoryMB res <= promised_of hs h' /\ - 2 ^ 63 <= res_MemoryMB (left_of hs h') - res_MemoryMB res).
      { destruct (_ && _) eqn:Em; [|destruct (ours_of hs h'); lia]. bool_to_prop.
        destruct (ours_of hs h'); [done|]. lia. }
      rewrite !wrap64_id; unfold in_int64, int_min, int_max; destruct (ours_of hs h'); lia. }
    split.
    + intros Hk. destruct (H Hk) as (-> & -> & ? & ?). destruct (Hb Hk). lia.
    + intros Hk. destruct (H Hk) as (-> & _ & ? & ?). cbv iota. lia.
  - destruct (takeSlot_other hs h h' p res E) as (_ & -> & -> & ->). split; [done|]. intros Hk.
    split; [lia|].
    intros [-> |?]; [done|lia].
Qed.

(** ** The set a pass starts from *)
Lemma seed_fold now hosts hs0 h :
  distinct_ids hosts -> h ∈ hosts ->
  let hs := foldl (seedHost now) hs0 hosts in
  free_of hs h = Host_Free h /\ alloc_of hs h = Allocatable h /\ left_of hs h = whole (Allocatable h).
Proof.
  induction hosts as [|x hosts IH] using rev_ind; intros Hd Hin; [by apply elem_of_nil in Hin|].
  cbv zeta. rewrite foldl_app. simpl. unfold free_of, alloc_of, left_of. simpl.
  destruct (decide (h_ID x = h_ID h)) as [E|E].
  - assert (x = h) as -> by (apply Hd; [apply elem_of_app; right; left|done|done]).
    by rewrite !map_get_insert.
  - rewrite !map_get_insert_ne by done. apply IH.
    + intros a b Ha Hb. apply Hd; apply elem_of_app; by left.
    + apply elem_of_app in Hin as [?|Hin]; [done|]. apply list_elem_of_singleton in Hin. by subst.
Qed.

Lemma charge_fold_frame now l hs0 :
  let hs := foldl (chargeHost now) hs0 l in
  hs_free hs = hs_free hs0 /\ hs_alloc hs = hs_alloc hs0 /\ hs_hosts hs = hs_hosts hs0 /\
  hs_now hs = hs_now hs0 /\ hs_need hs = hs_need hs0.
Proof.
  apply (foldl_invariant (fun hs => hs_free hs = hs_free hs0 /\ hs_alloc hs = hs_alloc hs0 /\
    hs_hosts hs = hs_hosts hs0 /\ hs_now hs = hs_now hs0 /\ hs_need hs = hs_need hs0)); [done|].
  intros hs [h t] IH _. exact IH.
Qed.

Lemma charge_fold_other now l hs0 h :
  (forall x, x ∈ l -> h_ID (fst x) <> h_ID h) ->
  let hs := foldl (chargeHost now) hs0 l in
  left_of hs h = left_of hs0 h /\ promised_of hs h = promised_of hs0 h.
Proof.
  intros Hl. apply (foldl_invariant (fun hs => left_of hs h = left_of hs0 h /\ promised_of hs h = promised_of hs0 h));
    [done|].
  intros hs [x t] [H1 H2] Hx. specialize (Hl _ Hx). simpl in Hl.
  unfold left_of, promised_of in *. simpl. by rewrite !map_get_insert_ne.
Qed.

Lemma charge_fold now l hs0 h t :
  (forall x y, x ∈ l -> y ∈ l -> h_ID (fst x) = h_ID (fst y) -> x = y) -> NoDup l -> (h, t) ∈ l ->
  let hs := foldl (chargeHost now) hs0 l in
  promised_of hs h = res_MemoryMB (left_of hs0 h) -% res_MemoryMB (ht_reserved t) /\
  res_MemoryMB (left_of hs h) <= promised_of hs h /\
  (promised_of hs h <= res_MemoryMB (left_of hs h) \/ 0 <= res_MemoryMB (left_of hs h)).
Proof.
  intros Hd Hnd Hin. apply list_elem_of_split in Hin as (l1 & l2 & ->).
  cbv zeta. rewrite foldl_app. cbn [foldl].
  assert (Hne : forall x, x ∈ l1 ++ l2 -> h_ID (fst x) <> h_ID h).
  { intros x Hx E. assert (x = (h, t)) as ->.
    { apply Hd; [|apply elem_of_app; right; left|done]. apply elem_of_app in Hx as [?|?]; apply elem_of_app; [by left|right; by right]. }
    apply NoDup_app in Hnd as (_ & H1 & H2). apply NoDup_cons in H2 as [H2 _].
    apply elem_of_app in Hx as [Hx|Hx]; [|done]. apply (H1 _ Hx). left. }
  destruct (charge_fold_other now l2 (chargeHost now (foldl (chargeHost now) hs0 l1) (h, t)) h) as [-> ->].
  { intros x Hx. apply Hne, elem_of_app. by right. }
  destruct (charge_fold_other now l1 hs0 h) as [El _]. { intros x Hx. apply Hne, elem_of_app. by left. }
  set (hs1 := foldl (chargeHost now) hs0 l1) in *.
  unfold promised_of at 1 2 3. unfold left_of at 2 3 4. simpl. rewrite !map_get_insert. simpl.
  rewrite El. split; [done|]. destruct (u_MemoryAvailableMB (h_Usage h)); [|lia].
  destruct (Usage_Fresh _ _); lia.
Qed.

(** Host IDs are unique. *)
Definition unique_hosts (hosts : list Host) : Prop := NoDup (h_ID <$> hosts).

Lemma unique_hosts_distinct hosts : unique_hosts hosts -> distinct_ids hosts.
Proof. intros Hu h h'. by apply NoDup_key. Qed.

Lemma unique_hosts_index hosts : unique_hosts hosts -> distinct_hosts (Some <$> hosts).
Proof.
  intros Hu i j h h'. rewrite !list_lookup_fmap. intros Hi Hj E.
  destruct (hosts !! i) as [a|] eqn:Ea; [|done]. destruct (hosts !! j) as [b|] eqn:Eb; [|done].
  injection Hi as ->. injection Hj as ->.
  eapply (NoDup_lookup _ _ _ _ Hu); rewrite list_lookup_fmap; [by rewrite Ea|rewrite Eb; simpl; by rewrite E].
Qed.

Lemma sortedHosts_unique hosts : unique_hosts (omap id hosts) -> unique_hosts (sortedHosts hosts).
Proof. unfold unique_hosts, sortedHosts. by rewrite sort_perm. Qed.

Lemma newHostSet_frame hosts pools runners now :
  hs_hosts (newHostSet hosts pools runners now) = sortedHosts hosts /\
  hs_now (newHostSet hosts pools runners now) = now /\ hs_need (newHostSet hosts pools runners now) = None.
Proof.
  unfold newHostSet.
  destruct (charge_fold_frame now (zip (sortedHosts hosts) (totalsByHost (Some <$> sortedHosts hosts) (Some <$> pools) runners))
    (foldl (seedHost now) (empty_hostSet (sortedHosts hosts) now) (sortedHosts hosts))) as (_ & _ & -> & -> & ->).
  apply (foldl_invariant (fun hs => hs_hosts hs = sortedHosts hosts /\ hs_now hs = now /\ hs_need hs = None)); [done|].
  intros hs x IH _. destruct IH as (? & ? & ?). done.
Qed.

(** What a pass starts from: the slots the host has free, and the memory that is
    allocatable and not yet promised to a runner. *)
Lemma newHostSet_host hosts pools runners now h :
  unique_hosts (omap id hosts) -> h ∈ sortedHosts hosts ->
  let hs := newHostSet hosts pools runners now in
  free_of hs h = Host_Free h /\ alloc_of hs h = Allocatable h /\
  promised_of hs h = al_MemoryMB (Allocatable h) -% res_MemoryMB (Reserved h (Some <$> pools) runners) /\
  res_MemoryMB (left_of hs h) <= promised_of hs h /\
  (promised_of hs h <= res_MemoryMB (left_of hs h) \/ 0 <= res_MemoryMB (left_of hs h)).
Proof.
  intros Hu Hin. apply sortedHosts_unique in Hu. unfold newHostSet.
  set (sorted := sortedHosts hosts) in *. set (totals := totalsByHost _ _ _).
  set (hs0 := foldl (seedHost now) _ sorted).
  pose proof (unique_hosts_distinct _ Hu) as Hd.
  destruct (seed_fold now sorted (empty_hostSet sorted now) h Hd Hin) as (Hf & Ha & Hl). fold hs0 in Hf, Ha, Hl.
  destruct (charge_fold_frame now (zip sorted totals) hs0) as (Ef & Ea & _).
  pose proof Hin as Hi. apply list_elem_of_lookup in Hi as [i Hi].
  assert (Ht : forall j x, sorted !! j = Some x -> totals !! j = Some (hostTotal x (Some <$> pools) runners)).
  { intros j x Hj. apply totalsByHost_at; [by apply unique_hosts_index|]. by rewrite list_lookup_fmap, Hj. }
  assert (Hz : forall j x t, zip sorted totals !! j = Some (x, t) ->
    sorted !! j = Some x /\ t = hostTotal x (Some <$> pools) runners).
  { intros j x t Hj. apply lookup_zip_with_Some in Hj as (a & b & [= <- <-] & H1 & H2).
    split; [done|]. rewrite (Ht _ _ H1) in H2. congruence. }
  destruct (charge_fold now (zip sorted totals) hs0 h (hostTotal h (Some <$> pools) runners)) as (Hp & H1 & H2).
  - intros [x t] [y u] Hx Hy E. simpl in E. apply list_elem_of_lookup in Hx as [a Hx]. apply list_elem_of_lookup in Hy as [b Hy].
    apply Hz in Hx as [Hx ->]. apply Hz in Hy as [Hy ->].
    assert (x = y) as -> by (apply Hd; eauto using list_elem_of_lookup_2). done.
  - apply (NoDup_fmap_1 fst). unfold totals. rewrite fst_zip; [by apply (NoDup_fmap_1 h_ID)|].
    rewrite totalsByHost_length, length_fmap. lia.
  - apply list_elem_of_lookup. exists i. apply lookup_zip_with_Some. eauto 6.
  - split; [unfold free_of in *; by rewrite Ef|]. split; [unfold alloc_of in *; by rewrite Ea|].
    rewrite Reserved_total. rewrite Hl in Hp. done.
Qed.

(** Books that start within 2^62 are in order. *)
Lemma newHostSet_books hosts pools runners now h :
  unique_hosts (omap id hosts) -> h ∈ sortedHosts hosts ->
  - 2 ^ 62 <= promised_of (newHostSet hosts pools runners now) h <= 2 ^ 62 ->
  books (newHostSet hosts pools runners now) h.
Proof.
  intros Hu Hin Hr Hk. destruct (newHostSet_host hosts pools runners now h Hu Hin) as (_ & _ & _ & H1 & H2).
  split; [lia|]. unfold int_min. destruct (ours_of _ _); lia.
Qed.

(** The placements of one call keep the books: whatever is placed, a measured host's
    unpromised memory does not go below zero by it. *)
Lemma placeAvoiding_books hs p n avoid :
  distinct_ids (hs_hosts hs) -> (forall h, h ∈ hs_hosts hs -> chargeable p h) ->
  (forall h, h ∈ hs_hosts hs -> books hs h) ->
  let '(hs', out) := placeAvoiding hs p n avoid in
  hs_hosts hs' = hs_hosts hs /\ hs_now hs' = hs_now hs /\ hs_alloc hs' = hs_alloc hs /\
  (forall h, h ∈ hs_hosts hs -> books hs' h) /\
  (forall h, h ∈ hs_hosts hs -> al_MemoryKnown (alloc_of hs h) = true ->
     h_ID h ∈ (pl_hostID <$> out) \/ 0 <= promised_of hs h -> 0 <= promised_of hs' h).
Proof.
  revert hs. induction n as [|n IH]; intros hs Hd Hc Hb; simpl.
  { split_and!; auto. intros h Hh Hk [Hin|?]; [by apply elem_of_nil in Hin|done]. }
  destruct (choose hs p avoid) as [[[[h0 res] size] raised]|] eqn:Ec.
  2: { split_and!; auto. intros h Hh Hk [Hin|?]; [by apply elem_of_nil in Hin|done]. }
  apply choose_spec in Ec as [(Hin & _) Hcov]. specialize (Hcov (Hc _ Hin)) as [Hcov H0].
  specialize (IH (takeSlot hs h0 p res) Hd Hc).
  destruct (placeAvoiding (takeSlot hs h0 p res) p n avoid) as [hs' out].
  destruct IH as (E1 & E2 & E3 & IHb & IHp).
  { intros h Hh. by eapply takeSlot_books; eauto. }
  split_and!; auto. intros h Hh Hk Hor. apply IHp; [done|done|].
  destruct (takeSlot_books hs h0 p res h Hin Hh Hd Hcov H0 (Hb h Hh)) as [_ Hbk]. specialize (Hbk Hk) as [_ Hbk].
  destruct Hor as [Hor|Hor]; [|right; auto].
  simpl in Hor. apply elem_of_cons in Hor as [Hor|Hor]; [|by left].
  right. apply Hbk. left. apply Hd; auto.
Qed.

(** C16: [pick] finds a host whenever one is eligible, and the hosts to avoid
    are a hint: an avoided host is returned only when every eligible host is to be
    avoided, and never refused when it is the only one left. *)
Theorem pick_avoids_only_if_possible (hs : hostSet) (p : Pool) (avoid : gset string) :
  match pick hs p avoid with
  | Some h => h ∈ hs_hosts hs /\ eligible hs h p = true /\
              (h_ID h ∈ avoid -> forall h', h' ∈ hs_hosts hs -> eligible hs h' p = true -> h_ID h' ∈ avoid)
  | None => forall h, h ∈ hs_hosts hs -> eligible hs h p = false
  end.
Proof.
  assert (Hloop : let '(best, bestAvoided) := foldl (fun '(best, bestAvoided) h =>
      if negb (eligible hs h p) then (best, bestAvoided)
      else if avoided avoid h then (best, better_host hs p bestAvoided h)
      else (better_host hs p best h, bestAvoided)) (None, None) (hs_hosts hs) in
    (forall b, best = Some b -> h_ID b ∉ avoid) /\
    (best = None -> forall h, h ∈ hs_hosts hs -> eligible hs h p = true -> h_ID h ∈ avoid /\ is_Some bestAvoided)).
  { induction (hs_hosts hs) as [|x l IH] using rev_ind.
    { split; [done|]. intros _ h Hh. by apply elem_of_nil in Hh. }
    rewrite foldl_app. destruct (foldl _ _ l) as [best bestAvoided]. destruct IH as [IH1 IH2]. simpl.
    assert (Hs : forall o, is_Some (better_host hs p o x)) by (intros []; simpl; [case_match|]; eauto).
    destruct (eligible hs x p) eqn:E; simpl; [destruct (avoided avoid x) eqn:Ea|].
    - split; [done|]. intros Hn h Hh He. apply elem_of_app in Hh as [Hh|Hh]; [by split; [eapply IH2|]|].
      apply list_elem_of_singleton in Hh as ->. unfold avoided in Ea. bool_to_prop. auto.
    - split; [|intros Hn; destruct (Hs best); congruence].
      intros b Hb. apply better_host_or in Hb as [-> |Hb]; [|auto]. unfold avoided in Ea. by bool_to_prop.
    - split; [done|]. intros Hn h Hh He. apply elem_of_app in Hh as [Hh|Hh]; [eauto|].
      apply list_elem_of_singleton in Hh as ->. congruence. }
  destruct (pick hs p avoid) as [h|] eqn:Ep.
  - destruct (pick_eligible _ _ _ _ Ep) as [Hin He]. split_and!; [done|done|].
    intros Hav h' Hh' He'. unfold pick in Ep. destruct (foldl _ _ _) as [best bestAvoided].
    destruct Hloop as [H1 H2]. destruct best as [b|]; [injection Ep as ->; by destruct (H1 h)|]. by apply H2.
  - unfold pick in Ep. destruct (foldl _ _ _) as [best bestAvoided]. destruct Hloop as [H1 H2].
    destruct best; [done|]. intros h Hh. destruct (eligible hs h p) eqn:E; [|done].
    destruct (H2 eq_refl h Hh E) as [_ [? ?]]. congruence.
Qed.

(** ** Explanations *)
(** A fleet is never reported both as full and as having no host that
    could ever run the pool: the first asks an operator to wait, the second to add a
    machine. *)
Theorem why_flags_exclusive (hs : hostSet) (p : Pool) :
  bl_atCapacity (why hs p) && bl_noEligibleHost (why hs p) = false.
Proof.
  unfold why. destruct (hs_hosts hs) as [|x l] eqn:Eh; [done|]. rewrite <- Eh.
  destruct (whyFix hs p (tallyOf hs p)) as [fx alts]. simpl.
  set (n v := countb (fun h => is_verdict (verdictOf hs p h) v) (hs_hosts hs)).
  assert (Hn : forall v, 0 <= n v) by (intros; apply countb_nonneg).
  apply andb_false_iff. rewrite orb_false_iff.
  destruct (_ + _ =? 0) eqn:E0; [left|by right]. apply Z.eqb_eq in E0. fold (n VFull) in *. fold (n VThrottled) in *.
  fold (n (VShortCPU true)) in *. fold (n (VShortMemory true)) in *. fold (n VHeld) in *. fold (n VWarming) in *.
  pose proof (Hn VFull). pose proof (Hn VThrottled). pose proof (Hn (VShortCPU true)).
  pose proof (Hn (VShortMemory true)). pose proof (Hn VHeld). pose proof (Hn VWarming).
  split; [apply Z.eqb_neq; rewrite Eh; simpl; lia|].
  apply andb_false_iff. destruct (Z.ltb_spec 0 (countb (candidate p) (hs_hosts hs))); [right|by left].
  apply Z.eqb_neq. intros Ew.
  destruct (countb_exists (fun h => candidate p h && waits (verdictOf hs p h)) (hs_hosts hs)) as (h & Hh & Hw); [lia|].
  apply andb_true_iff in Hw as [_ Hw].
  assert (Hv : 0 < n (verdictOf hs p h)) by (eapply countb_pos; [exact Hh|]; by apply bool_decide_eq_true).
  destruct (verdictOf hs p h) as [| | | | | | | | | | | | |[]|[]]; try done; lia.
Qed.
