(* ===== verification/Plan.v ===== *)
(** * The data of one decision (scheduler.go)

    [Snapshot] is what the caller gathers, [Plan] what [Decide] returns, and [tick]
    the mutable state of one call.  A slice of pointers is a list of options, a
    [map[string]bool] a map; the orders of the sorted copies are the comparators
    below. *)
From Stdlib Require Import ZArith Lia Ascii String.
From stdpp Require Import base strings list gmap.
From S2P Require Import Prelude GoFloat GoString Store Phrases Resources Labels History Placement.
Local Open Scope string_scope.
Local Open Scope list_scope.
Local Open Scope Z_scope.

(** ** Policy *)
Record Policy := {
  pol_ScaleUpDelay : Duration;
  pol_MaxRunnerLifetime : Duration;
  pol_ProvisionTimeout : Duration;
  pol_DrainTimeout : Duration;
  pol_MaxCreatesPerTick : Z;
  pol_MaxRunners : Z;
  pol_Interval : Duration
}.

(** [Policy.For]: the fleet's figures with a pool's own laid over them. *)
Definition Policy_For (p : Policy) (pool : Pool) : Policy :=
  let rs := p_RunnerSettings pool in
  if negb (RunnerSettings_Set rs) then p
  else {| pol_ScaleUpDelay := default (pol_ScaleUpDelay p) (rst_ScaleUpDelay rs);
          pol_MaxRunnerLifetime := default (pol_MaxRunnerLifetime p) (rst_MaxRunnerLifetime rs);
          pol_ProvisionTimeout := default (pol_ProvisionTimeout p) (rst_ProvisionTimeout rs);
          pol_DrainTimeout := default (pol_DrainTimeout p) (rst_DrainTimeout rs);
          pol_MaxCreatesPerTick := pol_MaxCreatesPerTick p;
          pol_MaxRunners := pol_MaxRunners p;
          pol_Interval := pol_Interval p |}.

(** ** Snapshot *)
Record Snapshot := {
  s_Readiness : gmap string (gmap string Duration);
  s_PreferReadiness : bool;
  s_Now : Time;
  s_LastProvisioned : gmap string Time;
  s_Pools : list (option Pool);
  s_Runners : gmap string (list (option Runner));
  s_Jobs : list (option Job);
  s_RunnersWithAJob : gmap string bool;
  s_ActiveByRepository : gmap string Z;
  s_Hosts : list (option Host);
  s_Installations : list (option Installation);
  s_Policy : Policy;
  s_Jitter : gmap string float64;
  s_HeldInstallations : gmap string Time;
  s_JobHistory : gmap JobUsageKey (list JobPeak);
  s_HistorySizing : string;
  s_HostOrder : string
}.

(** ** Actions *)
Inductive ActionKind := ActionCreate | ActionDrain | ActionRemove | ActionFail.
#[global] Instance ActionKind_eq_dec : EqDecision ActionKind.
Proof. solve_decision. Defined.

Record Action := {
  a_Kind : ActionKind;
  a_PoolID : string;
  a_PoolName : string;
  a_RunnerID : string;
  a_HostID : string;
  a_Reason : string;
  a_Size : option Resources;
  a_SizedFromHistory : bool
}.

Definition is_create (a : Action) : bool := bool_decide (a_Kind a = ActionCreate).

(** [creates]: how many creates a list of actions holds. *)
Definition creates (actions : list Action) : Z := countb is_create actions.

(** [tick.action]: an action on a runner. *)
Definition action (kind : ActionKind) (p : Pool) (r : Runner) (reason : string) : Action :=
  {| a_Kind := kind; a_PoolID := p_ID p; a_PoolName := p_Name p; a_RunnerID := r_ID r; a_HostID := "";
     a_Reason := reason; a_Size := None; a_SizedFromHistory := false |}.

(** ** Plans *)
Record PoolPlan := {
  pp_PoolID : string;
  pp_PoolName : string;
  pp_Current : Z;
  pp_Desired : Z;
  pp_QueuedMatched : Z;
  pp_QuotaDeferredJobs : Z;
  pp_QuotaDeferredRepositories : list string;
  pp_eligible : Z;
  pp_supply : Z;
  pp_Unserved : Z;
  pp_Reason : string;
  pp_Blocked : string;
  pp_BlockedFix : string;
  pp_BlockedAtCapacity : bool;
  pp_BlockedNoEligibleHost : bool;
  pp_BlockedAlternatives : list string;
  pp_Failing : string;
  pp_FailingFault : string;
  pp_Held : string;
  pp_History : string;
  pp_HistoryUnfit : string;
  pp_Actions : list Action
}.

Definition pp_with_actions (pp : PoolPlan) (Actions' : list Action) : PoolPlan :=
  {| pp_PoolID := pp_PoolID pp; pp_PoolName := pp_PoolName pp; pp_Current := pp_Current pp;
     pp_Desired := pp_Desired pp; pp_QueuedMatched := pp_QueuedMatched pp;
     pp_QuotaDeferredJobs := pp_QuotaDeferredJobs pp;
     pp_QuotaDeferredRepositories := pp_QuotaDeferredRepositories pp; pp_eligible := pp_eligible pp;
     pp_supply := pp_supply pp; pp_Unserved := pp_Unserved pp; pp_Reason := pp_Reason pp;
     pp_Blocked := pp_Blocked pp; pp_BlockedFix := pp_BlockedFix pp;
     pp_BlockedAtCapacity := pp_BlockedAtCapacity pp;
     pp_BlockedNoEligibleHost := pp_BlockedNoEligibleHost pp;
     pp_BlockedAlternatives := pp_BlockedAlternatives pp; pp_Failing := pp_Failing pp;
     pp_FailingFault := pp_FailingFault pp; pp_Held := pp_Held pp; pp_History := pp_History pp;
     pp_HistoryUnfit := pp_HistoryUnfit pp; pp_Actions := Actions' |}.

Definition pp_with_reason (pp : PoolPlan) (Reason' : string) : PoolPlan :=
  {| pp_PoolID := pp_PoolID pp; pp_PoolName := pp_PoolName pp; pp_Current := pp_Current pp;
     pp_Desired := pp_Desired pp; pp_QueuedMatched := pp_QueuedMatched pp;
     pp_QuotaDeferredJobs := pp_QuotaDeferredJobs pp;
     pp_QuotaDeferredRepositories := pp_QuotaDeferredRepositories pp; pp_eligible := pp_eligible pp;
     pp_supply := pp_supply pp; pp_Unserved := pp_Unserved pp; pp_Reason := Reason';
     pp_Blocked := pp_Blocked pp; pp_BlockedFix := pp_BlockedFix pp;
     pp_BlockedAtCapacity := pp_BlockedAtCapacity pp;
     pp_BlockedNoEligibleHost := pp_BlockedNoEligibleHost pp;
     pp_BlockedAlternatives := pp_BlockedAlternatives pp; pp_Failing := pp_Failing pp;
     pp_FailingFault := pp_FailingFault pp; pp_Held := pp_Held pp; pp_History := pp_History pp;
     pp_HistoryUnfit := pp_HistoryUnfit pp; pp_Actions := pp_Actions pp |}.

Definition pp_with_history (pp : PoolPlan) (History' : string) : PoolPlan :=
  {| pp_PoolID := pp_PoolID pp; pp_PoolName := pp_PoolName pp; pp_Current := pp_Current pp;
     pp_Desired := pp_Desired pp; pp_QueuedMatched := pp_QueuedMatched pp;
     pp_QuotaDeferredJobs := pp_QuotaDeferredJobs pp;
     pp_QuotaDeferredRepositories := pp_QuotaDeferredRepositories pp; pp_eligible := pp_eligible pp;
     pp_supply := pp_supply pp; pp_Unserved := pp_Unserved pp; pp_Reason := pp_Reason pp;
     pp_Blocked := pp_Blocked pp; pp_BlockedFix := pp_BlockedFix pp;
     pp_BlockedAtCapacity := pp_BlockedAtCapacity pp;
     pp_BlockedNoEligibleHost := pp_BlockedNoEligibleHost pp;
     pp_BlockedAlternatives := pp_BlockedAlternatives pp; pp_Failing := pp_Failing pp;
     pp_FailingFault := pp_FailingFault pp; pp_Held := pp_Held pp; pp_History := History';
     pp_HistoryUnfit := pp_HistoryUnfit pp; pp_Actions := pp_Actions pp |}.

Definition pp_with_unfit (pp : PoolPlan) (HistoryUnfit' : string) : PoolPlan :=
  {| pp_PoolID := pp_PoolID pp; pp_PoolName := pp_PoolName pp; pp_Current := pp_Current pp;
     pp_Desired := pp_Desired pp; pp_QueuedMatched := pp_QueuedMatched pp;
     pp_QuotaDeferredJobs := pp_QuotaDeferredJobs pp;
     pp_QuotaDeferredRepositories := pp_QuotaDeferredRepositories pp; pp_eligible := pp_eligible pp;
     pp_supply := pp_supply pp; pp_Unserved := pp_Unserved pp; pp_Reason := pp_Reason pp;
     pp_Blocked := pp_Blocked pp; pp_BlockedFix := pp_BlockedFix pp;
     pp_BlockedAtCapacity := pp_BlockedAtCapacity pp;
     pp_BlockedNoEligibleHost := pp_BlockedNoEligibleHost pp;
     pp_BlockedAlternatives := pp_BlockedAlternatives pp; pp_Failing := pp_Failing pp;
     pp_FailingFault := pp_FailingFault pp; pp_Held := pp_Held pp; pp_History := pp_History pp;
     pp_HistoryUnfit := HistoryUnfit'; pp_Actions := pp_Actions pp |}.

Definition pp_with_unserved (pp : PoolPlan) (Unserved' : Z) : PoolPlan :=
  {| pp_PoolID := pp_PoolID pp; pp_PoolName := pp_PoolName pp; pp_Current := pp_Current pp;
     pp_Desired := pp_Desired pp; pp_QueuedMatched := pp_QueuedMatched pp;
     pp_QuotaDeferredJobs := pp_QuotaDeferredJobs pp;
     pp_QuotaDeferredRepositories := pp_QuotaDeferredRepositories pp; pp_eligible := pp_eligible pp;
     pp_supply := pp_supply pp; pp_Unserved := Unserved'; pp_Reason := pp_Reason pp;
     pp_Blocked := pp_Blocked pp; pp_BlockedFix := pp_BlockedFix pp;
     pp_BlockedAtCapacity := pp_BlockedAtCapacity pp;
     pp_BlockedNoEligibleHost := pp_BlockedNoEligibleHost pp;
     pp_BlockedAlternatives := pp_BlockedAlternatives pp; pp_Failing := pp_Failing pp;
     pp_FailingFault := pp_FailingFault pp; pp_Held := pp_Held pp; pp_History := pp_History pp;
     pp_HistoryUnfit := pp_HistoryUnfit pp; pp_Actions := pp_Actions pp |}.

Definition pp_with_blocked (pp : PoolPlan) (Reason' : string) (Blocked' : string) (BlockedFix' : string) (BlockedAtCapacity' : bool) (BlockedNoEligibleHost' : bool) (BlockedAlternatives' : list string) : PoolPlan :=
  {| pp_PoolID := pp_PoolID pp; pp_PoolName := pp_PoolName pp; pp_Current := pp_Current pp;
     pp_Desired := pp_Desired pp; pp_QueuedMatched := pp_QueuedMatched pp;
     pp_QuotaDeferredJobs := pp_QuotaDeferredJobs pp;
     pp_QuotaDeferredRepositories := pp_QuotaDeferredRepositories pp; pp_eligible := pp_eligible pp;
     pp_supply := pp_supply pp; pp_Unserved := pp_Unserved pp; pp_Reason := Reason';
     pp_Blocked := Blocked'; pp_BlockedFix := BlockedFix';
     pp_BlockedAtCapacity := BlockedAtCapacity'; pp_BlockedNoEligibleHost := BlockedNoEligibleHost';
     pp_BlockedAlternatives := BlockedAlternatives'; pp_Failing := pp_Failing pp;
     pp_FailingFault := pp_FailingFault pp; pp_Held := pp_Held pp; pp_History := pp_History pp;
     pp_HistoryUnfit := pp_HistoryUnfit pp; pp_Actions := pp_Actions pp |}.

Record UnmatchedJob := { um_Job : Job; um_Reason : string }.

Record Plan := {
  plan_Pools : list PoolPlan;
  plan_Actions : list Action;
  plan_Unmatched : list UnmatchedJob
}.

(** ** The state of one call *)
Record tick := {
  t_creates : list Action;
  t_now : Time;
  t_policy : Policy;
  t_hosts : hostSet;
  t_budget : Z;
  t_atCeiling : bool;
  t_activeByRepository : gmap string Z;
  t_jitter : gmap string float64;
  t_lastProvisioned : gmap string Time;
  t_held : gmap string Time;
  t_stillRunning : gmap string bool;
  t_history : gmap JobUsageKey (list JobPeak);
  t_historySizing : string
}.

Definition t_with_budget (t : tick) (budget' : Z) (atCeiling' : bool) : tick :=
  {| t_creates := t_creates t; t_now := t_now t; t_policy := t_policy t; t_hosts := t_hosts t;
     t_budget := budget'; t_atCeiling := atCeiling'; t_activeByRepository := t_activeByRepository t;
     t_jitter := t_jitter t; t_lastProvisioned := t_lastProvisioned t; t_held := t_held t;
     t_stillRunning := t_stillRunning t; t_history := t_history t;
     t_historySizing := t_historySizing t |}.

Definition t_with_hosts (t : tick) (hosts' : hostSet) : tick :=
  {| t_creates := t_creates t; t_now := t_now t; t_policy := t_policy t; t_hosts := hosts';
     t_budget := t_budget t; t_atCeiling := t_atCeiling t;
     t_activeByRepository := t_activeByRepository t; t_jitter := t_jitter t;
     t_lastProvisioned := t_lastProvisioned t; t_held := t_held t;
     t_stillRunning := t_stillRunning t; t_history := t_history t;
     t_historySizing := t_historySizing t |}.

Definition t_with_create (t : tick) (creates' : list Action) (hosts' : hostSet) (budget' : Z) : tick :=
  {| t_creates := creates'; t_now := t_now t; t_policy := t_policy t; t_hosts := hosts';
     t_budget := budget'; t_atCeiling := t_atCeiling t;
     t_activeByRepository := t_activeByRepository t; t_jitter := t_jitter t;
     t_lastProvisioned := t_lastProvisioned t; t_held := t_held t;
     t_stillRunning := t_stillRunning t; t_history := t_history t;
     t_historySizing := t_historySizing t |}.

(** ** Deterministic orders *)
Definition runner_cmp : Runner -> Runner -> comparison :=
  cmp_lex (cmp_on r_CreatedAt Z.compare) (cmp_on r_ID strings_Compare).
Definition job_cmp : Job -> Job -> comparison :=
  cmp_lex (cmp_on j_ProvisionNow cmp_flag)
          (cmp_lex (cmp_on j_QueuedAt Z.compare) (cmp_on j_ID strings_Compare)).

Definition compact {A} (l : list (option A)) : list A := omap id l.

Definition sortedPools (l : list (option Pool)) : list Pool := SortStableFunc pool_cmp (compact l).
Definition sortedRunners (l : list (option Runner)) : list Runner := SortStableFunc runner_cmp (compact l).
Definition sortedJobs (l : list (option Job)) : list Job := SortStableFunc job_cmp (compact l).

Definition targetsOf (insts : list (option Installation)) : gmap string string :=
  foldl (fun m i => <[i_ID i := i_Target i]> m) ∅ (compact insts).

(** [runnersWithAJob]: the snapshot's set and the runner of every job in progress.
    It reads through every job, so a nil one panics. *)
Definition runnersWithAJob (s : Snapshot) : option (gmap string bool) :=
  match derefs (s_Jobs s) with
  | None => None
  | Some jobs => Some (foldl (fun m j =>
      if bool_decide (j_State j = JobInProgress) && nonempty (j_RunnerID j)
      then <[j_RunnerID j := true]> m else m) (s_RunnersWithAJob s) jobs)
  end.
