(* ===== verification/Assign.v ===== *)
(** * Which pool claims each queued job (scheduler.go: assign)

    [assign] keeps the answer for every kind of job it has met, under the bytes
    [appendClaimKey] writes.  The theorems show that the cache cannot be seen: the
    key is injective on what [bestOf] reads, so [assign] gives what asking [bestOf]
    for every job would. *)
From Stdlib Require Import ZArith Lia Ascii String.
From stdpp Require Import base strings list gmap.
From S2P Require Import Prelude GoString Store Labels Plan.
Local Open Scope string_scope.
Local Open Scope list_scope.
Local Open Scope Z_scope.

(** [binary.AppendUvarint]: seven bits a byte, least significant first, the top
    bit set on every byte but the last.  Each step drops seven bits, so the number
    of bits is fuel enough. *)
Fixpoint uvarint_go (fuel : nat) (x : Z) : list Z :=
  match fuel with
  | O => []
  | S fuel => if 128 <=? x then (Z.lor (Z.land x 127) 128) :: uvarint_go fuel (Z.shiftr x 7) else [x]
  end.
Definition uvarint (x : Z) : list Z := uvarint_go (S (Z.to_nat (Z.log2 x))) x.
Definition AppendUvarint (key : list Z) (x : Z) : list Z := key ++ uvarint x.

Definition appendKeyPart (key : list Z) (s : string) : list Z :=
  AppendUvarint key (strlen s) ++ bytes s.

Definition appendClaimKey (key : list Z) (names : list string) (j : Job) : list Z :=
  let key := AppendUvarint key (Z.of_nat (length names)) in
  let key := foldl appendKeyPart key names in
  let key := appendKeyPart key (j_InstallationID j) in
  let key := appendKeyPart key (j_RoutedClass j) in
  if str_eqb (j_InstallationID j) "" then appendKeyPart key (j_Repo j) else key.

Record claim := { cl_pool : option Pool; cl_reason : string }.

Record assignState := {
  as_demand : gmap string (list Job);
  as_unmatched : list UnmatchedJob;
  as_answers : gmap (list Z) claim
}.

(** A job [assign] looks at: queued, and not being provisioned by hand. *)
Definition waiting (j : Job) : bool :=
  bool_decide (j_State j = JobQueued) && str_eqb (j_Provisioning j) "".

(** A job joins the demand of the pool that claims it, or is unmatched. *)
Definition settle (st : assignState) (j : Job) (c : claim) : assignState :=
  match cl_pool c with
  | None => {| as_demand := as_demand st;
               as_unmatched := as_unmatched st ++ [{| um_Job := j; um_Reason := cl_reason c |}];
               as_answers := as_answers st |}
  | Some p => {| as_demand := <[p_ID p := (map_get (as_demand st) (p_ID p) [] ++ [j])%list]> (as_demand st);
                 as_unmatched := as_unmatched st;
                 as_answers := as_answers st |}
  end.

Definition assign_step (pools : list Pool) (targets : gmap string string) (st : assignState) (j : Job) : assignState :=
  if negb (waiting j) then st else
  let names := NormalizeLabels (j_Labels j) in
  let key := appendClaimKey [] names j in
  match as_answers st !! key with
  | Some c => settle st j c
  | None =>
      let '(p, reason) := bestOf (Some <$> pools) (Some (preparedLabels (Some <$> pools))) j (labelsOf names) targets in
      let c := {| cl_pool := p; cl_reason := reason |} in
      settle {| as_demand := as_demand st; as_unmatched := as_unmatched st;
                as_answers := <[key := c]> (as_answers st) |} j c
  end.

Definition assign (pools : list Pool) (jobs : list (option Job)) (targets : gmap string string)
  : gmap string (list Job) * list UnmatchedJob :=
  let st := foldl (assign_step pools targets)
              {| as_demand := ∅; as_unmatched := []; as_answers := ∅ |} (sortedJobs jobs) in
  (as_demand st, as_unmatched st).

Example uvarint_300 : uvarint 300 = [172; 2].
Proof. reflexivity. Qed.

(** ** The key is injective *)
Lemma low_bits x : Z.lor (Z.land x 127) 128 = x mod 128 + 128.
Proof.
  change 127 with (Z.ones 7). rewrite Z.land_ones by lia. change (2 ^ 7) with 128.
  pose proof (Z.mod_pos_bound x 128 ltac:(lia)) as Hb. set (a := x mod 128) in *. clearbody a.
  assert (Z.land a 128 = 0) as Hl.
  { change 128 with (2 ^ 7). apply Z.bits_inj'. intros k Hk. rewrite Z.land_spec, Z.pow2_bits_eqb, Z.bits_0 by lia.
    destruct (Z.eqb_spec 7 k) as [<-|]; [|by rewrite andb_false_r]. rewrite andb_true_r.
    destruct (decide (a = 0)) as [->|]; [by rewrite Z.bits_0|].
    apply Z.bits_above_log2; [lia|]. apply Z.log2_lt_pow2; lia. }
  pose proof (Z.add_lor_land a 128). lia.
Qed.

Lemma uvarint_go_S n x :
  uvarint_go (S n) x = if 128 <=? x then (x mod 128 + 128) :: uvarint_go n (x / 128) else [x].
Proof. cbn [uvarint_go]. rewrite low_bits, Z.shiftr_div_pow2 by lia. done. Qed.

(** The encoding is a prefix code: what follows it is recovered with it. *)
Lemma uvarint_go_prefix n m x y r s :
  0 <= x < 2 ^ (7 * Z.of_nat (S n)) -> 0 <= y < 2 ^ (7 * Z.of_nat (S m)) ->
  uvarint_go (S n) x ++ r = uvarint_go (S m) y ++ s -> x = y /\ r = s.
Proof.
  assert (Hpow : forall k, 2 ^ (7 * Z.of_nat (S k)) = 128 * 2 ^ (7 * Z.of_nat k)).
  { intros k. replace (7 * Z.of_nat (S k)) with (7 + 7 * Z.of_nat k) by lia. by rewrite Z.pow_add_r by lia. }
  assert (Hdiv : forall z k, 0 <= z < 2 ^ (7 * Z.of_nat (S k)) -> 0 <= z / 128 < 2 ^ (7 * Z.of_nat k)).
  { intros z k Hz. rewrite Hpow in Hz. split; [apply Z.div_pos; lia|]. apply Z.div_lt_upper_bound; lia. }
  revert m x y. induction n as [|n IH]; intros m x y Hx Hy E;
    rewrite (uvarint_go_S _ x), (uvarint_go_S _ y) in E;
    destruct (Z.leb_spec 128 x), (Z.leb_spec 128 y); cbn [app] in E; try (simpl in Hx; lia).
  - pose proof (Z.mod_pos_bound y 128 ltac:(lia)). injection E as E1 _. lia.
  - by injection E as -> ->.
  - injection E as E1 E2. destruct m as [|m]; [simpl in Hy; lia|].
    apply IH in E2 as [E2 ->]; auto. split; [|done].
    rewrite (Z.div_mod x 128), (Z.div_mod y 128) by lia. lia.
  - pose proof (Z.mod_pos_bound x 128 ltac:(lia)). injection E as E1 _. lia.
  - pose proof (Z.mod_pos_bound y 128 ltac:(lia)). injection E as E1 _. lia.
  - by injection E as -> ->.
Qed.

Lemma uvarint_prefix x y r s : 0 <= x -> 0 <= y -> uvarint x ++ r = uvarint y ++ s -> x = y /\ r = s.
Proof.
  intros Hx Hy. unfold uvarint. apply uvarint_go_prefix.
  all: split; [done|].
  all: match goal with |- ?z < _ => destruct (decide (z = 0)) as [->|]; [simpl; lia|] end.
  all: apply Z.log2_lt_pow2; [lia|].
  all: match goal with |- Z.log2 ?z < _ => pose proof (Z.log2_nonneg z); lia end.
Qed.

Lemma bytes_inj s t : bytes s = bytes t -> s = t.
Proof.
  unfold bytes. intros E. rewrite <- (string_of_list_ascii_of_string s), <- (string_of_list_ascii_of_string t).
  f_equal. refine (list_fmap_eq_inj byte_of _ _ _ E). intros a b H. unfold byte_of in H.
  rewrite <- (ascii_N_embedding a), <- (ascii_N_embedding b). f_equal. lia.
Qed.

Lemma bytes_length s : length (bytes s) = String.length s.
Proof. unfold bytes. rewrite length_fmap. induction s; simpl; auto. Qed.

Definition keyPart (s : string) : list Z := uvarint (strlen s) ++ bytes s.

Lemma keyPart_prefix s t (r u : list Z) : keyPart s ++ r = keyPart t ++ u -> s = t /\ r = u.
Proof.
  unfold keyPart. rewrite <- !app_assoc. intros E.
  apply uvarint_prefix in E as [El E]; [|unfold strlen; lia|unfold strlen; lia].
  apply app_inj_1 in E as [Eb ->]; [split; [by apply bytes_inj|done]|].
  rewrite !bytes_length. unfold strlen in El. lia.
Qed.

Lemma keyParts_prefix names names' (r u : list Z) :
  length names = length names' ->
  concat (keyPart <$> names) ++ r = concat (keyPart <$> names') ++ u -> names = names' /\ r = u.
Proof.
  revert names'. induction names as [|s names IH]; intros [|t names'] Hl E; try done.
  csimpl in *. rewrite <- !app_assoc in E. apply keyPart_prefix in E as [-> E].
  apply IH in E as [-> ->]; [done|lia].
Qed.

(** The key without its accumulator. *)
Lemma appendKeyPart_app key s : appendKeyPart key s = key ++ keyPart s.
Proof. unfold appendKeyPart, AppendUvarint, keyPart. by rewrite app_assoc. Qed.

Lemma appendKeyParts_app key names : foldl appendKeyPart key names = key ++ concat (keyPart <$> names).
Proof.
  revert key. induction names as [|s names IH]; intros key; csimpl; [by rewrite app_nil_r|].
  rewrite IH, appendKeyPart_app. by rewrite app_assoc.
Qed.

Lemma appendClaimKey_app names j :
  appendClaimKey [] names j =
  uvarint (Z.of_nat (length names)) ++ concat (keyPart <$> names) ++ keyPart (j_InstallationID j) ++
  keyPart (j_RoutedClass j) ++ (if str_eqb (j_InstallationID j) "" then keyPart (j_Repo j) else []).
Proof.
  unfold appendClaimKey. rewrite !appendKeyPart_app, appendKeyParts_app. unfold AppendUvarint. simpl.
  case_match; by rewrite ?appendKeyPart_app, ?app_nil_r, <- !app_assoc.
Qed.

(** Two jobs ask the same question of [bestOf]. *)
Definition same_question (names names' : list string) (j j' : Job) : Prop :=
  names = names' /\ j_InstallationID j = j_InstallationID j' /\ j_RoutedClass j = j_RoutedClass j' /\
  (j_InstallationID j = "" -> j_Repo j = j_Repo j').

Lemma claimKey_question names names' j j' :
  appendClaimKey [] names j = appendClaimKey [] names' j' <-> same_question names names' j j'.
Proof.
  rewrite !appendClaimKey_app. unfold same_question, str_eqb. split.
  - intros E. apply uvarint_prefix in E as [El E]; [|lia|lia].
    apply keyParts_prefix in E as [-> E]; [|lia].
    apply keyPart_prefix in E as [Ei E]. apply keyPart_prefix in E as [Er E].
    repeat split; auto. intros E0. rewrite <- Ei, E0, !bool_decide_true in E by done.
    rewrite <- (app_nil_r (keyPart (j_Repo j))), <- (app_nil_r (keyPart (j_Repo j'))) in E.
    by apply keyPart_prefix in E as [? _].
  - intros (-> & -> & -> & Hr). case_bool_decide; [by rewrite Hr|done].
Qed.

(** ** The cache cannot be seen *)
Lemma bestOf_question pools prepared names j j' targets :
  same_question names names j j' ->
  bestOf pools prepared j (labelsOf names) targets = bestOf pools prepared j' (labelsOf names) targets.
Proof.
  intros (_ & Hi & Hc & Hr). unfold bestOf.
  assert (Hs : forall job labels p s, bestOf_step j job labels p s = bestOf_step j' job labels p s).
  { intros. unfold bestOf_step, refusalBeforeLabels, lessPoolFor. by rewrite Hi, Hc. }
  assert (bestOf_loop pools prepared j (labelsOf names) = bestOf_loop pools prepared j' (labelsOf names)) as ->.
  { apply foldl_ext_in. intros s [i [p|]] _; [apply Hs|done]. }
  unfold str_eqb. rewrite <- Hi. case_match; [done|]. case_match; [|done].
  case_bool_decide as E; [by rewrite Hr|done].
Qed.

(** What asking [bestPool] of every job gives. *)
Definition asked (pools : list Pool) (targets : gmap string string) (j : Job) : option Pool * string :=
  bestPool (Some <$> pools) j targets.
Definition claimed_by (pools : list Pool) (targets : gmap string string) (id : string) (j : Job) : bool :=
  waiting j && match fst (asked pools targets j) with Some p => str_eqb (p_ID p) id | None => false end.
Definition unclaimed (pools : list Pool) (targets : gmap string string) (j : Job) : bool :=
  waiting j && negb (isSome (fst (asked pools targets j))).

(** The state of the loop after the jobs [l]. *)
Definition assigned (pools : list Pool) (targets : gmap string string) (l : list Job) (st : assignState) : Prop :=
  (forall id, map_get (as_demand st) id [] = List.filter (claimed_by pools targets id) l) /\
  as_unmatched st = (fun j => {| um_Job := j; um_Reason := snd (asked pools targets j) |})
                      <$> List.filter (unclaimed pools targets) l /\
  (forall k c, as_answers st !! k = Some c -> exists j,
     k = appendClaimKey [] (NormalizeLabels (j_Labels j)) j /\
     asked pools targets j = (cl_pool c, cl_reason c)).

Lemma settle_assigned pools targets l j st c :
  waiting j = true -> asked pools targets j = (cl_pool c, cl_reason c) ->
  assigned pools targets l st -> assigned pools targets (l ++ [j]) (settle st j c).
Proof.
  intros Hw Ha (Hd & Hu & Hk). unfold settle.
  assert (Hf : forall id, List.filter (claimed_by pools targets id) (l ++ [j]) =
    List.filter (claimed_by pools targets id) l ++
      match cl_pool c with Some p => if str_eqb (p_ID p) id then [j] else [] | None => [] end).
  { intros id. rewrite List.filter_app. f_equal. simpl. unfold claimed_by. rewrite Hw, Ha. simpl.
    by destruct (cl_pool c). }
  assert (Hg : List.filter (unclaimed pools targets) (l ++ [j]) =
    List.filter (unclaimed pools targets) l ++ match cl_pool c with Some _ => [] | None => [j] end).
  { rewrite List.filter_app. f_equal. simpl. unfold unclaimed. rewrite Hw, Ha. simpl. by destruct (cl_pool c). }
  destruct (cl_pool c) as [p|] eqn:Ec; split_and!; simpl; intros; rewrite ?Hf, ?Hg, ?fmap_app, ?app_nil_r, ?Hu; auto.
  - unfold str_eqb. case_bool_decide as E; [subst id; by rewrite map_get_insert, Hd|].
    by rewrite map_get_insert_ne, app_nil_r.
  - f_equal. csimpl. by rewrite Ha.
Qed.

Lemma assign_step_assigned pools targets l j st :
  assigned pools targets l st -> assigned pools targets (l ++ [j]) (assign_step pools targets st j).
Proof.
  intros (Hd & Hu & Hk). unfold assign_step. destruct (waiting j) eqn:Hw; simpl.
  2: { split_and!; intros; rewrite ?List.filter_app; simpl; unfold claimed_by, unclaimed; rewrite ?Hw;
         rewrite ?app_nil_r; auto. }
  rewrite bestOf_prepared.
  destruct (as_answers st !! _) as [c|] eqn:Ec.
  - apply settle_assigned; [done| |by split_and!].
    apply Hk in Ec as (j' & E & Ha). rewrite <- Ha. apply claimKey_question in E.
    unfold asked, bestPool. destruct E as (En & E). rewrite <- En. apply bestOf_question. by split.
  - destruct (bestOf _ _ _ _ _) as [p reason] eqn:Eb.
    apply settle_assigned; [done|done|]. split_and!; [done|done|]. simpl.
    intros k c. rewrite lookup_insert. case_decide; [|apply Hk].
    intros [= <-]. exists j. by split.
Qed.

(** What [assign] answers. *)
Lemma assign_spec (pools : list Pool) (jobs : list (option Job)) (targets : gmap string string) :
  (forall id, map_get (fst (assign pools jobs targets)) id [] =
              List.filter (claimed_by pools targets id) (sortedJobs jobs)) /\
  snd (assign pools jobs targets) =
    (fun j => {| um_Job := j; um_Reason := snd (asked pools targets j) |})
      <$> List.filter (unclaimed pools targets) (sortedJobs jobs).
Proof.
  unfold assign. simpl.
  enough (H : assigned pools targets (sortedJobs jobs)
    (foldl (assign_step pools targets) {| as_demand := ∅; as_unmatched := []; as_answers := ∅ |} (sortedJobs jobs))).
  { by destruct H as (? & ? & _). }
  induction (sortedJobs jobs) as [|j l IH] using rev_ind; [by split_and!|].
  rewrite foldl_app. by apply assign_step_assigned.
Qed.

(** C9: Keeping the answer for each kind of job changes nothing.  The
    queue of a pool is the waiting jobs [bestPool] gives it, in order, and the
    unmatched jobs are those it gives no pool, each with its own explanation; so
    every waiting job is in exactly one of them. *)
Theorem assign_is_bestPool (pools : list Pool) (jobs : list (option Job)) (targets : gmap string string) :
  (forall id, map_get (fst (assign pools jobs targets)) id [] =
              List.filter (claimed_by pools targets id) (sortedJobs jobs)) /\
  snd (assign pools jobs targets) =
    (fun j => {| um_Job := j; um_Reason := snd (asked pools targets j) |})
      <$> List.filter (unclaimed pools targets) (sortedJobs jobs).
Proof. apply assign_spec. Qed.

(** Two jobs are given one cache entry exactly when they ask the same
    question: the same normalised labels, installation and routed class, and the same
    repository where no installation covers it. No choice of label bytes confuses
    two of them. *)
Theorem appendClaimKey_injective (names names' : list string) (j j' : Job) :
  appendClaimKey [] names j = appendClaimKey [] names' j' <-> same_question names names' j j'.
Proof. apply claimKey_question. Qed.
