(* ===== verification/Routing.v ===== *)
(** * Sending a queued job to another class (routing.go: Fallbacks)

    After a pass, [Fallbacks] looks at the queued jobs their class has no pool or no
    room for and says which of them go to another class.  Its two loops share the list
    of moves and the count of jobs sent to each pool; both are threaded through as
    state.  The theorems say that it never reads through a nil pool, which jobs it may
    move and where to, and that it sends no pool more jobs than it can start. *)
From Stdlib Require Import ZArith Lia Ascii String.
From stdpp Require Import base strings list gmap.
From S2P Require Import Prelude GoString Store Phrases Resources Labels SizeClass Classify Placement Plan Assign.
Local Open Scope string_scope.
Local Open Scope list_scope.
Local Open Scope Z_scope.

Record Reroute := { rr_Job : Job; rr_From : string; rr_To : string; rr_Note : string }.

(** [Hosts] and [Plan] are rows the controller read and the plan it made, so no host is
    nil; [Size] is nil or a hook. *)
Record RoutingInput := {
  ri_Now : Time;
  ri_Pools : list (option Pool);
  ri_Hosts : list Host;
  ri_Jobs : list (option Job);
  ri_Plan : Plan;
  ri_Config : SizeConfig;
  ri_Size : option (Pool -> Pool)
}.

(** ** Helpers *)
Definition classOrder (c : string) : list string :=
  [c] ++ List.filter (fun k => Rank c <? Rank k) SizeClasses
      ++ List.filter (fun k => Rank k <? Rank c) (rev SizeClasses).

Definition servesClass (p : option Pool) (class : string) : bool :=
  match p with
  | None => false
  | Some p =>
      if negb (p_Enabled p) then false
      else if FromHosts p then
        match ParseAutoKey (p_AutoKey p) with Some (_, k) => str_eqb k class | None => false end
      else existsb (fun l => match ClassOfLabel l with Some k => str_eqb k class | None => false end) (p_Labels p)
  end.
Definition servesAnyClass (p : option Pool) : bool := existsb (servesClass p) SizeClasses.

Definition waitingSince (j : Job) : Time := default (j_QueuedAt j) (j_EligibleAt j).

Definition needPhrase (floorMB : Z) : string :=
  if floorMB <=? 0 then "" else " (about " +:+ formatMB floorMB +:+ ")".

Definition noPoolNote (from to : string) (j : Job) (below : bool) : string :=
  if below then
    "there is no " +:+ from +:+ " pool and nothing larger, so it was sent to " +:+ to +:+
    ", which is smaller than it is known to need" +:+ needPhrase (j_SizeFloorMB j) +:+ "; add a " +:+ j_SizeClass j +:+ " host"
  else if Rank to <? Rank (j_SizeClass j) then
    "there is no " +:+ from +:+ " pool, so it was sent to " +:+ to +:+ ": the memory it needs" +:+
    needPhrase (j_SizeFloorMB j) +:+ " fits there"
  else "there is no " +:+ from +:+ " pool (no " +:+ from +:+ " host is enrolled), so it was sent to " +:+ to +:+ ", the next size up".

Definition noRoomNote (j : Job) (to : string) (waited : Duration) : string :=
  "no " +:+ j_RoutedClass j +:+ " host had room for it for " +:+ formatDuration (Duration_Round waited Second) +:+ ", so it " +:+
  (if str_eqb to (j_SizeClass j) then "went back to " +:+ to +:+ ", its own class, which has room"
   else if Rank to <? Rank (j_SizeClass j) then
     "was allowed on " +:+ to +:+ ", which still holds the " +:+ formatMB (j_SizeFloorMB j) +:+ " it needs"
   else "was allowed on " +:+ to).

Definition j_with_routed (j : Job) (class : string) : Job :=
  {| j_Provisioning := j_Provisioning j; j_ProvisionNow := j_ProvisionNow j; j_ID := j_ID j; j_Repo := j_Repo j;
     j_Workflow := j_Workflow j; j_JobName := j_JobName j; j_Labels := j_Labels j; j_State := j_State j;
     j_InstallationID := j_InstallationID j; j_RunnerID := j_RunnerID j; j_QueuedAt := j_QueuedAt j;
     j_EligibleAt := j_EligibleAt j; j_SizeClass := j_SizeClass j; j_SizeBasis := j_SizeBasis j;
     j_SizeFloorMB := j_SizeFloorMB j; j_RoutedClass := class |}.

(** A slice expression: out of range is a panic. *)
Definition slice {A} (l : list A) (lo hi : Z) : option (list A) :=
  if (0 <=? lo) && (lo <=? hi) && (hi <=? Z.of_nat (length l))
  then Some (take (Z.to_nat (hi - lo)) (drop (Z.to_nat lo) l)) else None.

(** ** The closures of [Fallbacks] *)
Section Fallbacks.
  Variable inp : RoutingInput.

Definition rpools : list Pool := sortedPools (ri_Pools inp).
Definition rsize (p : Pool) : Pool := match ri_Size inp with Some f => f p | None => p end.
Definition rdemand : gmap string (list Job) := fst (assign rpools (ri_Jobs inp) ∅).

(** The plan of each pool; of two with one ID, the later. *)
Definition rplans : gmap string PoolPlan :=
  foldl (fun m pp => <[pp_PoolID pp := pp]> m) ∅ (plan_Pools (ri_Plan inp)).

(** [spare]: a pool with no plan, or one that is blocked, has nothing to spare whatever
    was sent to it. *)
Definition spare (moved : gmap string Z) (p : Pool) : Z :=
  match rplans !! p_ID p with
  | None => 0
  | Some pp =>
      if nonempty (pp_Blocked pp) || pp_BlockedNoEligibleHost pp || nonempty (pp_Failing pp) || nonempty (pp_Held pp) then 0
      else Z.max 0 (p_MaxRunners p - (pp_Current pp + creates (pp_Actions pp))) - pp_Unserved pp - map_get moved (p_ID p) 0
  end.

Definition poolsFor (class : string) (j : Job) : list Pool :=
  List.filter (fun p => servesClass (Some p) class && fst (Eligible (Some p) (Some j))) rpools.

Definition landsIn (class : string) (j : Job) : option Pool :=
  BestPool (Some <$> poolsFor class j) (j_with_routed j class).

Definition holds (class : string) (j : Job) (mb : Z) : bool :=
  match landsIn class j with
  | None => false
  | Some p =>
      existsb (fun h => str_eqb (fst (EffectiveSizeClass h)) class && HostAvailable h (ri_Now inp) && HostOffers h p &&
                        (mb <=? sz_MemoryMB (slotSize (rsize p) h))) (ri_Hosts inp)
  end.

(** The variables the two loops share: the moves so far, and how many jobs were sent to
    each pool. *)
Record routeState := { ro_out : list Reroute; ro_moved : gmap string Z }.

Definition send (st : routeState) (j : Job) (to note : string) (p : Pool) : routeState :=
  {| ro_out := ro_out st ++ [{| rr_Job := j; rr_From := j_RoutedClass j; rr_To := to; rr_Note := note |}];
     ro_moved := <[p_ID p := map_get (ro_moved st) (p_ID p) 0 + 1]> (ro_moved st) |}.

(** A class smaller than the job's is used where it holds what the job needs. *)
Definition tooSmall (k : string) (j : Job) : bool :=
  (Rank k <? Rank (j_SizeClass j)) && negb ((0 <? j_SizeFloorMB j) && holds k j (j_SizeFloorMB j)).

Definition has_pool (k : string) (j : Job) : bool := negb (Nat.eqb (length (poolsFor k j)) 0).

(** The class a job with no pool is sent to, and whether it may be too small. *)
Definition pickNoPool (j : Job) : option (string * bool) :=
  let order := classOrder (j_SizeClass j) in
  match List.find (fun k => negb (str_eqb k (j_RoutedClass j) || negb (has_pool k j)) && negb (tooSmall k j)) order with
  | Some k => Some (k, false)
  | None =>
      match List.find (fun k => (Rank k <? Rank (j_SizeClass j)) && has_pool k j) order with
      | Some k => Some (k, true)
      | None => None
      end
  end.

(** The first loop.  [None] is the panic of reading the ID of no pool. *)
Definition noPool_step (st : routeState) (j : Job) : option routeState :=
  if negb (bool_decide (j_State j = JobQueued)) || nonempty (j_Provisioning j) || negb (SizeClass_Valid (j_SizeClass j)) ||
     str_eqb (j_SizeBasis j) SizeBasisExplicit || negb (SizeClass_Valid (j_RoutedClass j)) || has_pool (j_RoutedClass j) j
  then Some st
  else match pickNoPool j with
       | None => Some st
       | Some (pick, below) =>
           match landsIn pick j with
           | None => None
           | Some p => Some (send st j pick (noPoolNote (j_RoutedClass j) pick j below) p)
           end
       end.

(** Whether a class takes a job its own has no room for. *)
Definition takes (moved : gmap string Z) (j : Job) (k : string) : bool :=
  negb (str_eqb k (j_RoutedClass j) || tooSmall k j) &&
  match landsIn k j with Some p => 0 <? spare moved p | None => false end.

Definition noRoom_step (st : routeState) (j : Job) : routeState :=
  if negb (SizeClass_Valid (j_SizeClass j)) || negb (SizeClass_Valid (j_RoutedClass j)) ||
     str_eqb (j_SizeBasis j) SizeBasisExplicit || existsb (fun r => str_eqb (j_ID (rr_Job r)) (j_ID j)) (ro_out st)
  then st else
  let waited := Time_Sub (ri_Now inp) (waitingSince j) in
  if waited <? sc_FallbackWait (ri_Config inp) then st else
  match List.find (takes (ro_moved st) j) (classOrder (j_SizeClass j)) with
  | None => st
  | Some k => match landsIn k j with
              | Some p => send st j k (noRoomNote j k waited) p
              | None => st
              end
  end.

(** The jobs of a pool's demand that no runner is coming for. *)
Definition leftOver (p : Pool) : option (list Job) :=
  match rplans !! p_ID p with
  | None => Some []
  | Some pp =>
      if negb (servesAnyClass (Some p)) || (pp_Unserved pp <=? 0) then Some [] else
      let queued := map_get rdemand (p_ID p) [] in
      let n := Z.of_nat (length queued) in
      let served := Z.max 0 (pp_eligible pp - pp_Unserved pp) in
      if n <=? served then Some [] else slice queued served (Z.min (pp_eligible pp) n)
  end.

Definition noRoom_pool (st : routeState) (p : Pool) : option routeState :=
  match leftOver p with
  | None => None
  | Some jobs => Some (foldl noRoom_step st jobs)
  end.

(** A loop whose body can panic. *)
Definition loop {A} (f : routeState -> A -> option routeState) (l : list A) (st : routeState) : option routeState :=
  foldl (fun st x => match st with Some st => f st x | None => None end) (Some st) l.

Definition noPools : option routeState := loop noPool_step (sortedJobs (ri_Jobs inp)) {| ro_out := []; ro_moved := ∅ |}.

Definition Fallbacks : option (list Reroute) :=
  match noPools with
  | None => None
  | Some st => ro_out <$> loop noRoom_pool rpools st
  end.
End Fallbacks.

(** ** Loops and picks *)
Lemma loop_cons {A} (f : routeState -> A -> option routeState) x l st :
  loop f (x :: l) st = match f st x with Some st' => loop f l st' | None => None end.
Proof.
  unfold loop. simpl. destruct (f st x); [done|]. by induction l.
Qed.

(** An invariant of the body, which may speak of the elements already visited. *)
Lemma loop_ind {A} (f : routeState -> A -> option routeState) (P : list A -> routeState -> Prop) l seen st st' :
  (forall seen st x st', x ∈ l -> P seen st -> f st x = Some st' -> P (seen ++ [x]) st') ->
  P seen st -> loop f l st = Some st' -> P (seen ++ l) st'.
Proof.
  revert seen st. induction l as [|x l IH]; intros seen st Hf Hp.
  - rewrite app_nil_r. by intros [= <-].
  - rewrite loop_cons. destruct (f st x) as [st1|] eqn:E; [|done]. intros Hl.
    replace (seen ++ x :: l) with ((seen ++ [x]) ++ l) by by rewrite <- app_assoc.
    apply (IH _ st1); [|eapply Hf; [left|done|done]|done]. intros. eapply Hf; [by right|done|done].
Qed.

Lemma loop_total {A} (f : routeState -> A -> option routeState) l st :
  (forall st x, x ∈ l -> is_Some (f st x)) -> is_Some (loop f l st).
Proof.
  revert st. induction l as [|x l IH]; intros st Hf; [by eexists|].
  rewrite loop_cons. destruct (Hf st x) as [st1 ->]; [left|]. apply IH. intros. apply Hf. by right.
Qed.

Lemma classOrder_elem c k : c ∈ SizeClasses -> k ∈ classOrder c -> k ∈ SizeClasses.
Proof.
  unfold classOrder. rewrite !elem_of_app, !elem_of_bfilter, list_elem_of_singleton.
  intros Hc [->|[[? _]|[H _]]]; [done|done|]. by apply list_elem_of_In, in_rev, list_elem_of_In in H.
Qed.

Lemma classOrder_all c k : c ∈ SizeClasses -> k ∈ SizeClasses -> k ∈ classOrder c.
Proof.
  intros Hc Hk. unfold classOrder. rewrite !elem_of_app, !elem_of_bfilter, list_elem_of_singleton.
  destruct (Z.lt_total (Rank c) (Rank k)) as [H|[H|H]].
  - right; left. split; [done|]. by apply Z.ltb_lt.
  - left. symmetry. by apply Rank_inj.
  - right; right. split; [by apply list_elem_of_In, in_rev; rewrite rev_involutive; apply list_elem_of_In|]. by apply Z.ltb_lt.
Qed.

(** ** Where a job lands *)
Section Proofs.
  Context (inp : RoutingInput).

Lemma has_pool_false k j : has_pool inp k j = false <-> poolsFor inp k j = [].
Proof. unfold has_pool. destruct (poolsFor inp k j); simpl; done. Qed.

Lemma Eligible_true p j : fst (Eligible (Some p) (Some j)) = true -> Eligible (Some p) (Some j) = (true, "").
Proof. simpl. repeat case_match; done. Qed.

(** A job lands in a pool of the class that could run it, exactly when there is one. *)
Lemma landsIn_spec k j :
  match landsIn inp k j with
  | Some p => p ∈ poolsFor inp k j
  | None => poolsFor inp k j = []
  end.
Proof.
  unfold landsIn, BestPool. pose proof (bestPool_spec (Some <$> poolsFor inp k j) (j_with_routed j k) ∅) as H.
  destruct (fst _) as [b|].
  - destruct H as [H _]. by apply list_elem_of_fmap in H as (? & [= ->] & ?).
  - destruct (poolsFor inp k j) as [|p l] eqn:E; [done|]. destruct (H p); [csimpl; left|].
    assert (Hp : p ∈ poolsFor inp k j) by (rewrite E; left).
    unfold poolsFor in Hp. apply elem_of_bfilter in Hp as [_ [_ Hel]%andb_prop]. by apply Eligible_true in Hel.
Qed.

Lemma landsIn_pool k j p : landsIn inp k j = Some p -> p ∈ poolsFor inp k j /\ p ∈ rpools inp.
Proof.
  intros E. pose proof (landsIn_spec k j) as H. rewrite E in H. split; [done|]. unfold poolsFor in H. by apply elem_of_bfilter in H as [? _].
Qed.

(** What [pickNoPool] picks. *)
Lemma pickNoPool_spec j k below :
  j_SizeClass j ∈ SizeClasses -> poolsFor inp (j_RoutedClass j) j = [] -> pickNoPool inp j = Some (k, below) ->
  k ∈ SizeClasses /\ k <> j_RoutedClass j /\ poolsFor inp k j <> [] /\
  (Rank k < Rank (j_SizeClass j) ->
   (0 < j_SizeFloorMB j /\ holds inp k j (j_SizeFloorMB j) = true) \/
   (forall k', k' ∈ SizeClasses -> Rank (j_SizeClass j) <= Rank k' -> poolsFor inp k' j = [])).
Proof.
  intros Hc Hr. unfold pickNoPool.
  assert (Hne : forall x, poolsFor inp x j <> [] -> x <> j_RoutedClass j) by (intros x Hx ->; done).
  destruct (List.find _ _) as [k1|] eqn:E1.
  - intros [= <- <-]. apply find_some in E1 as [Hin%list_elem_of_In [E2 E3]%andb_prop].
    apply negb_true_iff, orb_false_elim in E2 as [_ E2%negb_false_iff]. apply negb_true_iff in E3.
    assert (poolsFor inp k1 j <> []) by (intros Hn%has_pool_false; congruence).
    split_and!; [by eapply classOrder_elem|by apply Hne|done|]. intros Hlt%Z.ltb_lt. left.
    unfold tooSmall in E3. rewrite Hlt in E3. simpl in E3. apply negb_false_iff, andb_prop in E3 as [?%Z.ltb_lt ?]. done.
  - destruct (List.find _ _) as [k2|] eqn:E2 in |- *; [|done]. intros [= <- <-].
    apply find_some in E2 as [Hin%list_elem_of_In [_ E2]%andb_prop].
    assert (poolsFor inp k2 j <> []) by (intros Hn%has_pool_false; congruence).
    split_and!; [by eapply classOrder_elem|by apply Hne|done|]. intros _. right. intros k' Hk' Hle.
    pose proof (find_none _ _ E1 k') as Hn. rewrite <- list_elem_of_In in Hn.
    specialize (Hn (classOrder_all _ _ Hc Hk')). apply has_pool_false.
    destruct (has_pool inp k' j) eqn:Eh; [|done]. unfold tooSmall in Hn.
    rewrite (proj2 (Z.ltb_ge _ _) Hle) in Hn. simpl in Hn. rewrite andb_true_r, orb_false_r in Hn.
    apply negb_false_iff, bool_decide_eq_true in Hn. subst k'. apply has_pool_false in Hr. congruence.
Qed.
End Proofs.

(** ** What a move may be *)
Section Moves.
  Context (inp : RoutingInput).

(** A job that may be moved: queued for anyone, in a class it did not name, and routed. *)
Definition may_move (j : Job) : Prop :=
  Some j ∈ ri_Jobs inp /\ j_State j = JobQueued /\ j_Provisioning j = "" /\
  j_SizeClass j ∈ SizeClasses /\ j_RoutedClass j ∈ SizeClasses /\ j_SizeBasis j <> SizeBasisExplicit.

(** A move that is allowed, for the reason the source gives. *)
Definition good_move (r : Reroute) : Prop :=
  let j := rr_Job r in
  may_move j /\ rr_From r = j_RoutedClass j /\ rr_To r ∈ SizeClasses /\ rr_To r <> rr_From r /\
  poolsFor inp (rr_To r) j <> [] /\
  (poolsFor inp (rr_From r) j = [] \/ sc_FallbackWait (ri_Config inp) <= Time_Sub (ri_Now inp) (waitingSince j)) /\
  (Rank (rr_To r) < Rank (j_SizeClass j) ->
   (0 < j_SizeFloorMB j /\ holds inp (rr_To r) j (j_SizeFloorMB j) = true) \/
   (forall k, k ∈ SizeClasses -> Rank (j_SizeClass j) <= Rank k -> poolsFor inp k j = [])).

(** What one step of the first loop does. *)
Lemma noPool_step_cases st j st' :
  Some j ∈ ri_Jobs inp -> noPool_step inp st j = Some st' ->
  st' = st \/
  exists k note p, st' = send st j k note p /\ landsIn inp k j = Some p /\
    good_move {| rr_Job := j; rr_From := j_RoutedClass j; rr_To := k; rr_Note := note |} /\
    has_pool inp (j_RoutedClass j) j = false.
Proof.
  intros Hj. unfold noPool_step. destruct (_ || _) eqn:E; [intros [= <-]; by left|].
  repeat (apply orb_false_elim in E as [E ?]). apply negb_false_iff, bool_decide_eq_true in E. unfold str_eqb in *.
  bool_to_prop. destruct (pickNoPool inp j) as [[k below]|] eqn:Ep; [|intros [= <-]; by left].
  destruct (landsIn inp k j) as [p|] eqn:El; [|done]. intros [= <-]. right. do 3 eexists.
  split; [done|]. split; [done|]. split; [|done]. unfold nonempty, str_eqb in *. bool_to_prop.
  assert (j_SizeClass j ∈ SizeClasses) by by apply valid_class.
  assert (poolsFor inp (j_RoutedClass j) j = []) by by apply has_pool_false.
  destruct (pickNoPool_spec inp j k below) as (? & ? & ? & ?); [done|done|done|].
  assert (j_RoutedClass j ∈ SizeClasses) by by apply valid_class.
  unfold good_move, may_move. simpl. split_and!; try done. by left.
Qed.

(** What one step of the second loop does. *)
Lemma noRoom_step_cases st j :
  Some j ∈ ri_Jobs inp -> waiting j = true ->
  noRoom_step inp st j = st \/
  exists k note p, noRoom_step inp st j = send st j k note p /\ landsIn inp k j = Some p /\
    good_move {| rr_Job := j; rr_From := j_RoutedClass j; rr_To := k; rr_Note := note |} /\
    0 < spare inp (ro_moved st) p /\ (forall r, r ∈ ro_out st -> j_ID (rr_Job r) <> j_ID j).
Proof.
  intros Hj Hw. unfold noRoom_step. destruct (_ || _) eqn:E; [by left|].
  repeat (apply orb_false_elim in E as [E ?]). unfold str_eqb in *. bool_to_prop.
  destruct (Z.ltb_spec (Time_Sub (ri_Now inp) (waitingSince j)) (sc_FallbackWait (ri_Config inp))); [by left|].
  destruct (List.find _ _) as [k|] eqn:Ef; [|by left].
  apply find_some in Ef as [Hk%list_elem_of_In [Ek Er]%andb_prop].
  destruct (landsIn inp k j) as [p|] eqn:El; [|done]. right. do 3 eexists. split; [done|]. split; [done|].
  apply negb_true_iff, orb_false_elim in Ek as [Ek Es]. apply bool_decide_eq_false in Ek.
  assert (j_SizeClass j ∈ SizeClasses) by by apply valid_class.
  assert (j_RoutedClass j ∈ SizeClasses) by by apply valid_class.
  apply andb_prop in Hw as [?%bool_decide_eq_true ?%bool_decide_eq_true].
  split; [|split; [by apply Z.ltb_lt|]].
  - unfold good_move, may_move. simpl. split_and!; try done; [by apply (classOrder_elem (j_SizeClass j))| |by right|].
    + intros Hn. pose proof (landsIn_pool _ _ _ _ El) as [Hp _]. rewrite Hn in Hp. by apply elem_of_nil in Hp.
    + intros Hlt%Z.ltb_lt. left. unfold tooSmall in Es. rewrite Hlt in Es. simpl in Es.
      apply negb_false_iff, andb_prop in Es as [?%Z.ltb_lt ?]. done.
  - intros r Hr Hid. assert (Hx : existsb (fun r => bool_decide (j_ID (rr_Job r) = j_ID j)) (ro_out st) = true); [|congruence].
    apply existsb_elem_of. exists r. split; [done|]. by apply bool_decide_eq_true.
Qed.

(** The jobs the second loop looks at are waiting jobs. *)
Lemma leftOver_elem p jobs j : leftOver inp p = Some jobs -> j ∈ jobs -> Some j ∈ ri_Jobs inp /\ waiting j = true.
Proof.
  intros E Hj. assert (Hd : j ∈ map_get (rdemand inp) (p_ID p) []).
  { revert E. unfold leftOver.
    destruct (_ !! p_ID p) as [pp|]; [|intros [= <-]; by apply elem_of_nil in Hj].
    case_match; [intros [= <-]; by apply elem_of_nil in Hj|]. case_match; [intros [= <-]; by apply elem_of_nil in Hj|].
    unfold slice. case_match; [|done]. intros [= <-]. apply elem_of_take in Hj as (i & Hi & _).
    rewrite lookup_drop in Hi. by apply list_elem_of_lookup_2 in Hi. }
  unfold rdemand in Hd. rewrite (proj1 (assign_spec _ _ _)) in Hd. apply elem_of_bfilter in Hd as [Hs [Hw _]%andb_prop].
  split; [|done]. unfold sortedJobs in Hs. rewrite sort_elem_of in Hs. by apply elem_of_omap_id in Hs.
Qed.
End Moves.

(** ** The two loops *)
Section Loops.
  Context (inp : RoutingInput).

(** A move that lands in the pool of this ID. *)
Definition lands_at (id : string) (r : Reroute) : bool :=
  match landsIn inp (rr_To r) (rr_Job r) with Some p => str_eqb (p_ID p) id | None => false end.

(** What both loops keep: the moves are allowed and each is counted where it lands. *)
Definition moves_kept (st : routeState) : Prop :=
  Forall (good_move inp) (ro_out st) /\
  forall id, map_get (ro_moved st) id 0 = countb (lands_at id) (ro_out st).

Definition moved_ids (st : routeState) : list string := (fun r => j_ID (rr_Job r)) <$> ro_out st.

(** A pool a job was sent to for want of room has the room. *)
Definition room_kept (st : routeState) : Prop :=
  forall r p, r ∈ ro_out st -> has_pool inp (rr_From r) (rr_Job r) = true -> landsIn inp (rr_To r) (rr_Job r) = Some p ->
    map_get (ro_moved st) (p_ID p) 0 <= spare inp ∅ p.

Lemma send_kept st j k note p :
  landsIn inp k j = Some p -> good_move inp {| rr_Job := j; rr_From := j_RoutedClass j; rr_To := k; rr_Note := note |} ->
  moves_kept st -> moves_kept (send st j k note p).
Proof.
  intros El Hg [Hf Hm]. split; simpl.
  - apply Forall_app. split; [done|]. by apply Forall_singleton.
  - intros id. rewrite countb_app, countb_cons, countb_nil. unfold lands_at at 2. simpl. rewrite El.
    unfold str_eqb. case_bool_decide as E; [subst id; rewrite map_get_insert|rewrite map_get_insert_ne by done]; rewrite Hm; lia.
Qed.

(** The first loop moves each job at most once, and only jobs whose class has no pool. *)
Definition first_inv (seen : list Job) (st : routeState) : Prop :=
  moves_kept st /\ moved_ids st `sublist_of` (j_ID <$> seen) /\
  forall r, r ∈ ro_out st -> has_pool inp (rr_From r) (rr_Job r) = false.

Lemma noPools_inv st : noPools inp = Some st -> first_inv (sortedJobs (ri_Jobs inp)) st.
Proof.
  unfold noPools. intros E.
  apply (loop_ind _ first_inv _ [] _ _) in E; [done| |].
  - clear. intros seen st j st' Hj (Hk & Hs & Hn) E.
    unfold sortedJobs in Hj. rewrite sort_elem_of in Hj. apply elem_of_omap_id in Hj.
    unfold first_inv. rewrite fmap_app.
    destruct (noPool_step_cases inp st j st' Hj E) as [->|(k & note & p & -> & El & Hg & Hp)].
    + split; [done|]. split; [by apply sublist_inserts_r|done].
    + split_and!; [by apply send_kept| |].
      * unfold moved_ids. simpl. rewrite fmap_app. by apply sublist_app.
      * simpl. intros r [?| ->%list_elem_of_singleton]%elem_of_app; auto.
  - split; [|split; [apply sublist_nil_l|by intros ? ?%elem_of_nil]].
    split; [apply Forall_nil_2|]. intros id. apply map_get_empty.
Qed.

Definition second_inv (st : routeState) : Prop := moves_kept st /\ NoDup (moved_ids st) /\ room_kept st.

Lemma spare_moved moved p : 0 < spare inp moved p -> map_get moved (p_ID p) 0 + 1 <= spare inp ∅ p.
Proof. unfold spare. repeat case_match; try lia. rewrite map_get_empty. lia. Qed.

Lemma noRoom_step_inv st j :
  NoDup (p_ID <$> rpools inp) -> Some j ∈ ri_Jobs inp -> waiting j = true ->
  second_inv st -> second_inv (noRoom_step inp st j).
Proof.
  intros Hnd Hj Hw (Hk & Hi & Hr). destruct (noRoom_step_cases inp st j Hj Hw) as [->|(k & note & p & -> & El & Hg & Hs & Hnew)]; [done|].
  split_and!; [by apply send_kept| |].
  - unfold moved_ids. simpl. rewrite fmap_app. apply NoDup_app. split_and!; [done| |apply NoDup_singleton].
    intros id (r & -> & Hin)%list_elem_of_fmap Hx%list_elem_of_singleton. by destruct (Hnew r).
  - intros r q Hin Hp Eq. simpl in *. apply elem_of_app in Hin.
    destruct (decide (p_ID q = p_ID p)) as [E|E].
    + assert (q = p) as ->. { eapply (NoDup_key p_ID (rpools inp)); [done|by eapply landsIn_pool|by eapply landsIn_pool|done]. }
      rewrite map_get_insert. by apply spare_moved.
    + rewrite map_get_insert_ne by done. destruct Hin as [Hin| ->%list_elem_of_singleton]; [by apply (Hr r)|].
      simpl in Eq. congruence.
Qed.

Lemma Fallbacks_inv out :
  NoDup (p_ID <$> rpools inp) -> NoDup (j_ID <$> sortedJobs (ri_Jobs inp)) ->
  Fallbacks inp = Some out -> exists st, ro_out st = out /\ second_inv st.
Proof.
  intros Hnp Hnj. unfold Fallbacks. destruct (noPools inp) as [st0|] eqn:E0; [|done].
  destruct (loop _ _ st0) as [st|] eqn:E; [|done]. intros [= <-]. exists st. split; [done|].
  apply noPools_inv in E0 as (Hk & Hs & Hn).
  apply (loop_ind _ (fun _ => second_inv) _ [] _ _) in E; [done| |].
  - clear -Hnp. intros _ st p st' _ Hi E. unfold noRoom_pool in E. destruct (leftOver inp p) as [jobs|] eqn:El; [|done].
    injection E as <-. assert (Hall : forall j, j ∈ jobs -> Some j ∈ ri_Jobs inp /\ waiting j = true).
    { intros j Hj. by eapply leftOver_elem. }
    clear El. revert st Hi. induction jobs as [|j jobs IH]; intros st Hi; [done|]. simpl.
    destruct (Hall j) as [? ?]; [left|]. apply IH; [intros; apply Hall; by right|]. by apply noRoom_step_inv.
  - split_and!; [done|by eapply sublist_NoDup|]. intros r p Hr Hp. by rewrite (Hn r Hr) in Hp.
Qed.
End Loops.

(** A job that its class has no pool for, and that some pool of a class in its order
    would run, lands in one. *)
Lemma noPool_step_total inp st j : Some j ∈ ri_Jobs inp -> is_Some (noPool_step inp st j).
Proof.
  intros Hj. unfold noPool_step. destruct (_ || _) eqn:E; [by eexists|].
  repeat (apply orb_false_elim in E as [E ?]). bool_to_prop.
  destruct (pickNoPool inp j) as [[k below]|] eqn:Ep; [|by eexists].
  destruct (pickNoPool_spec inp j k below) as (_ & _ & Hne & _); [by apply valid_class|by apply has_pool_false|done|].
  pose proof (landsIn_spec inp k j) as Hl. destruct (landsIn inp k j); [by eexists|done].
Qed.

Lemma leftOver_total inp p :
  Forall (fun pp => 0 <= pp_eligible pp) (plan_Pools (ri_Plan inp)) -> is_Some (leftOver inp p).
Proof.
  intros Hpp. assert (He : forall id pp, rplans inp !! id = Some pp -> 0 <= pp_eligible pp).
  { unfold rplans. revert Hpp. induction (plan_Pools (ri_Plan inp)) as [|pp l IH] using rev_ind; intros Hall id x; [done|].
    apply Forall_app in Hall as [Hl [Hx _]%Forall_cons]. rewrite foldl_app. simpl. rewrite lookup_insert.
    case_decide; [by intros [= <-]|by apply IH]. }
  unfold leftOver. destruct (rplans inp !! p_ID p) as [pp|] eqn:E; [|by eexists]. specialize (He _ _ E).
  destruct (_ || _) eqn:Eu; [by eexists|]. apply orb_false_elim in Eu as [_ Eu%Z.leb_gt].
  destruct (Z.leb_spec (Z.of_nat (length (map_get (rdemand inp) (p_ID p) []))) (Z.max 0 (pp_eligible pp - pp_Unserved pp))); [by eexists|].
  unfold slice. rewrite (proj2 (Z.leb_le _ _)), (proj2 (Z.leb_le _ _)), (proj2 (Z.leb_le _ _)) by lia. by eexists.
Qed.

(** On a plan whose counts of eligible jobs are counts, [Fallbacks]
    returns: the pool it reads the ID of always exists, and the slice of the jobs left
    over is in range. *)
Theorem Fallbacks_total (inp : RoutingInput) :
  Forall (fun pp => 0 <= pp_eligible pp) (plan_Pools (ri_Plan inp)) -> is_Some (Fallbacks inp).
Proof.
  intros Hpp. unfold Fallbacks.
  assert (is_Some (noPools inp)) as [st ->].
  { apply loop_total. intros st j Hj. apply noPool_step_total. unfold sortedJobs in Hj. rewrite sort_elem_of in Hj.
    by apply elem_of_omap_id in Hj. }
  apply fmap_is_Some. apply loop_total. intros st' p _. unfold noRoom_pool.
  destruct (leftOver_total inp p Hpp) as [jobs ->]. by eexists.
Qed.

(** Every move is of a queued job that did not name its class, each job is
    moved at most once, and it goes to a class other than the one it was routed to that
    has a pool which could run it.  Its own class has no pool, or it has waited as long
    as the configured time; and a class smaller than the job's is used only where the
    pool it lands in has a host with a runner that holds what it is known to need, or
    where no class as large as its own has a pool. *)
Theorem Fallbacks_sound (inp : RoutingInput) (out : list Reroute) :
  NoDup (p_ID <$> rpools inp) -> NoDup (j_ID <$> sortedJobs (ri_Jobs inp)) -> Fallbacks inp = Some out ->
  NoDup ((fun r => j_ID (rr_Job r)) <$> out) /\ forall r, r ∈ out -> good_move inp r.
Proof.
  intros Hp Hj E. destruct (Fallbacks_inv inp out Hp Hj E) as (st & <- & [Hf _] & Hn & _).
  split; [done|]. by apply Forall_forall.
Qed.

(** A pool that is sent a job because another class had no room is sent, in
    all, no more jobs than the runners it can still start after its own. *)
Theorem Fallbacks_within_room (inp : RoutingInput) (out : list Reroute) (r : Reroute) (p : Pool) :
  NoDup (p_ID <$> rpools inp) -> NoDup (j_ID <$> sortedJobs (ri_Jobs inp)) -> Fallbacks inp = Some out ->
  r ∈ out -> poolsFor inp (rr_From r) (rr_Job r) <> [] -> landsIn inp (rr_To r) (rr_Job r) = Some p ->
  countb (lands_at inp (p_ID p)) out <= spare inp ∅ p.
Proof.
  intros Hp Hj E Hr Hne El. destruct (Fallbacks_inv inp out Hp Hj E) as (st & <- & [_ Hm] & _ & Hroom).
  rewrite <- Hm. apply (Hroom r); [done| |done].
  destruct (has_pool inp (rr_From r) (rr_Job r)) eqn:Eh; [done|]. by apply has_pool_false in Eh.
Qed.
