(* ===== verification/AutoPools.v ===== *)
(** * Pools the controller keeps (scheduler/autopools.go)

    [PlanAutoPools] works out, from the hosts that exist, which pools the controller
    should keep for each architecture and size class, and what to change to make them
    so.  Its loop threads the plan it builds and the reasons hosts were left out.  A nil
    host would make [leftParts] panic; that is the [None] of the plan. *)
From Stdlib Require Import ZArith Lia Ascii String.
From stdpp Require Import base strings list gmap.
From S2P Require Import Prelude GoFloat GoString Naming Names Store StoreNames Phrases Resources Labels SizeClass Placement Plan.
Local Open Scope string_scope.
Local Open Scope list_scope.
Local Open Scope Z_scope.

Definition SkipCordoned : string := "cordoned".
Definition SkipIncompatible : string := "incompatible".
Definition SkipSilent : string := "silent".
Definition SkipNoClass : string := "unclassified".
Definition SkipBadSize : string := "bad_size_label".
Definition SkipArch : string := "unknown_architecture".
Definition SkipBackend : string := "no_backend".

Inductive AutoPoolChangeKind := AutoPoolCreate | AutoPoolResize | AutoPoolEnable | AutoPoolDisable | AutoPoolReshape.

(** An absent [DockerMode] is the empty setting; a pool key absent from [Previous] is a
    pool that was not looked at before. *)
Record AutoPoolInput := {
  ai_Now : Time;
  ai_Hosts : list (option Host);
  ai_Pools : list (option Pool);
  ai_InstallationID : string;
  ai_RunnerGroup : string;
  ai_Since : Time;
  ai_Grace : Duration;
  ai_DockerMode : option DockerMode;
  ai_Size : option (Pool -> Pool);
  ai_Previous : gmap string (list string)
}.

Record AutoPoolChange := {
  ac_Kind : AutoPoolChangeKind;
  ac_Key : string;
  ac_Before : option Pool;
  ac_After : Pool;
  ac_Hosts : list string;
  ac_Slots : Z;
  ac_Reshaped : bool;
  ac_Cause : string
}.

Record AutoPoolFinding := { af_Code : string; af_Subject : string; af_Message : string; af_Fix : string }.
Definition FindingNameTaken : string := "auto_pool.name_taken".
Definition FindingLabelTaken : string := "auto_pool.label_taken".
Definition FindingHostSkipped : string := "auto_pool.host_skipped".

Record HostSkip := { hk_Host : Host; hk_Reason : string }.

Record AutoPoolPlan := {
  ap_Changes : list AutoPoolChange;
  ap_Findings : list AutoPoolFinding;
  ap_Skipped : list HostSkip;
  ap_Members : gmap string (list string);
  ap_Slots : gmap string Z
}.

Definition AutoPoolKey (arch class : string) : string := AutoKeyFor arch class.
Definition AutoPoolName (arch class : string) : string :=
  Spec_String {| sp_CPUs := f64_zero; sp_MemoryGB := 0; sp_OS := ""; sp_Version := ""; sp_Arch := arch; sp_Suffix := class |}.
Definition AutoPoolLabels (arch class : string) : list string := BrandLabels [SizeClass_Label class; "linux"; ArchLabel arch].

Definition NewAutoPool (inp : AutoPoolInput) (arch class backend : string) : Pool :=
  let burst := str_eqb backend BackendDocker || str_eqb backend BackendPodman in
  {| p_ID := ""; p_Name := AutoPoolName arch class; p_InstallationID := ai_InstallationID inp;
     p_Labels := AutoPoolLabels arch class; p_NoDefaultLabels := false; p_RunnerGroup := ai_RunnerGroup inp;
     p_Backend := backend; p_Platform := {| pl_OS := ""; pl_OSVersion := ""; pl_Arch := arch |}; p_Image := "";
     p_PullPolicy := "if-not-present"; p_MinRunners := 0; p_MaxRunners := 0; p_RepositoryScaleUpLimit := 0; p_Priority := 0;
     p_IdleTimeout := 5 * Minute; p_Ephemeral := true; p_DockerMode := default DockerNone (ai_DockerMode inp);
     p_Resources := zero_Resources; p_CPUBurstMode := if burst then "observe" else "";
     p_MemoryBurstMode := if burst then "observe" else ""; p_CacheScope := "pool"; p_CPUBurstMaxCPUs := f64_zero;
     p_MemoryBurstMaxMemoryMB := 0; p_SizeFromProfile := true; p_AutoKey := AutoPoolKey arch class; p_AutoMin := 0;
     p_AutoCap := 0; p_AutoPaused := false; p_FleetStandard := zero_RunnerSize; p_FleetMinimum := zero_RunnerSize;
     p_RunnerSettings := {| rst_ProvisionTimeout := None; rst_DrainTimeout := None; rst_MaxRunnerLifetime := None;
                            rst_ScaleUpDelay := None; rst_DockerWait := None |};
     p_HostSelector := {[ LabelSize := class ]}; p_Enabled := true |}.

(** The limits and the switch, which are the controller's output. *)
Definition p_with_limits (p : Pool) (minRunners maxRunners : Z) (enabled : bool) : Pool :=
  {| p_ID := p_ID p; p_Name := p_Name p; p_InstallationID := p_InstallationID p; p_Labels := p_Labels p;
     p_NoDefaultLabels := p_NoDefaultLabels p; p_RunnerGroup := p_RunnerGroup p; p_Backend := p_Backend p;
     p_Platform := p_Platform p; p_Image := p_Image p; p_PullPolicy := p_PullPolicy p; p_MinRunners := minRunners;
     p_MaxRunners := maxRunners; p_RepositoryScaleUpLimit := p_RepositoryScaleUpLimit p; p_Priority := p_Priority p;
     p_IdleTimeout := p_IdleTimeout p; p_Ephemeral := p_Ephemeral p; p_DockerMode := p_DockerMode p;
     p_Resources := p_Resources p; p_CPUBurstMode := p_CPUBurstMode p; p_MemoryBurstMode := p_MemoryBurstMode p;
     p_CacheScope := p_CacheScope p; p_CPUBurstMaxCPUs := p_CPUBurstMaxCPUs p;
     p_MemoryBurstMaxMemoryMB := p_MemoryBurstMaxMemoryMB p; p_SizeFromProfile := p_SizeFromProfile p;
     p_AutoKey := p_AutoKey p; p_AutoMin := p_AutoMin p; p_AutoCap := p_AutoCap p; p_AutoPaused := p_AutoPaused p;
     p_FleetStandard := p_FleetStandard p; p_FleetMinimum := p_FleetMinimum p; p_RunnerSettings := p_RunnerSettings p;
     p_HostSelector := p_HostSelector p; p_Enabled := enabled |}.

(** The fields [reshape] may lay over a pool. *)
Definition p_with_shape (p : Pool) (labels : list string) (platform : Platform) (selector : gmap string string)
    (fromProfile : bool) (mode : DockerMode) (ephemeral : bool) (resources : Resources) : Pool :=
  {| p_ID := p_ID p; p_Name := p_Name p; p_InstallationID := p_InstallationID p; p_Labels := labels;
     p_NoDefaultLabels := p_NoDefaultLabels p; p_RunnerGroup := p_RunnerGroup p; p_Backend := p_Backend p;
     p_Platform := platform; p_Image := p_Image p; p_PullPolicy := p_PullPolicy p; p_MinRunners := p_MinRunners p;
     p_MaxRunners := p_MaxRunners p; p_RepositoryScaleUpLimit := p_RepositoryScaleUpLimit p; p_Priority := p_Priority p;
     p_IdleTimeout := p_IdleTimeout p; p_Ephemeral := ephemeral; p_DockerMode := mode; p_Resources := resources;
     p_CPUBurstMode := p_CPUBurstMode p; p_MemoryBurstMode := p_MemoryBurstMode p; p_CacheScope := p_CacheScope p;
     p_CPUBurstMaxCPUs := p_CPUBurstMaxCPUs p; p_MemoryBurstMaxMemoryMB := p_MemoryBurstMaxMemoryMB p;
     p_SizeFromProfile := fromProfile; p_AutoKey := p_AutoKey p; p_AutoMin := p_AutoMin p; p_AutoCap := p_AutoCap p;
     p_AutoPaused := p_AutoPaused p; p_FleetStandard := p_FleetStandard p; p_FleetMinimum := p_FleetMinimum p;
     p_RunnerSettings := p_RunnerSettings p; p_HostSelector := selector; p_Enabled := p_Enabled p |}.

(** ** Which hosts count *)
Definition laterOf (a b : Time) : Time := if Time_After b a then b else a.

(** The architecture and class, or the reason there is none. *)
Definition autoClassOf (h : Host) (inp : AutoPoolInput) : (string * string) + string :=
  if h_Cordoned h then inr SkipCordoned
  else if h_Incompatible h then inr SkipIncompatible
  else if ai_Grace inp <? Time_Sub (ai_Now inp) (laterOf (h_LastHeartbeat h) (ai_Since inp)) then inr SkipSilent
  else
    let arch := NormalizeArch (h_Arch h) in
    if str_eqb arch "" then inr SkipArch
    else let '(class, operator) := EffectiveSizeClass h in
         if SizeClass_Valid class then inl (arch, class)
         else if (operator : bool) then inr SkipBadSize else inr SkipNoClass.

Record autoGroup := { ag_arch : string; ag_class : string; ag_hosts : list Host }.

(** The state of the first loop: the groups, the reasons by host, the hosts skipped. *)
Record groupState := { gs_groups : gmap string autoGroup; gs_reasons : gmap string string; gs_skipped : list HostSkip }.

Definition group_step (inp : AutoPoolInput) (st : groupState) (h : Host) : groupState :=
  match autoClassOf h inp with
  | inr reason =>
      {| gs_groups := gs_groups st; gs_reasons := <[h_ID h := reason]> (gs_reasons st);
         gs_skipped := gs_skipped st ++ [{| hk_Host := h; hk_Reason := reason |}] |}
  | inl (arch, class) =>
      let key := AutoPoolKey arch class in
      let g := default {| ag_arch := arch; ag_class := class; ag_hosts := [] |} (gs_groups st !! key) in
      {| gs_groups := <[key := {| ag_arch := ag_arch g; ag_class := ag_class g; ag_hosts := ag_hosts g ++ [h] |}]> (gs_groups st);
         gs_reasons := gs_reasons st; gs_skipped := gs_skipped st |}
  end.
Definition groupHosts (inp : AutoPoolInput) : groupState :=
  foldl (group_step inp) {| gs_groups := ∅; gs_reasons := ∅; gs_skipped := [] |} (sortedHosts (ai_Hosts inp)).

(** The pools kept already: by key in this installation, and those of another. *)
Definition oursOf (inp : AutoPoolInput) : gmap string Pool :=
  foldl (fun m p => if FromHosts p && str_eqb (p_InstallationID p) (ai_InstallationID inp) then <[p_AutoKey p := p]> m else m)
    ∅ (sortedPools (ai_Pools inp)).
Definition elsewhereOf (inp : AutoPoolInput) : list Pool :=
  List.filter (fun p => FromHosts p && negb (str_eqb (p_InstallationID p) (ai_InstallationID inp))) (sortedPools (ai_Pools inp)).

(** Keys in the order of their class and architecture.  Keys that are not keys compare
    equal and are passed over, so their order does not matter. *)
Definition key_arch (key : string) : string := match ParseAutoKey key with Some (a, _) => a | None => "" end.
Definition key_rank (key : string) : Z := Rank (match ParseAutoKey key with Some (_, c) => c | None => "" end).
Definition key_cmp : string -> string -> comparison :=
  cmp_lex (cmp_on key_rank Z.compare) (cmp_on key_arch strings_Compare).
Definition orderedKeys (groups : gmap string autoGroup) (ours : gmap string Pool) : list string :=
  SortStableFunc key_cmp (elements (dom groups ∪ dom ours : gset string)).

Definition autoBackend (hosts : list Host) : string :=
  default "" (List.find (fun b => existsb (fun h => str_in b (h_Backends h)) hosts) [BackendDocker; BackendPodman]).

(** ** Sizes *)
Definition withoutLiveDisk (h : Host) : Host := h_with_size h (h_CPUs h) (h_MemoryMB h) 0 0.

Definition autoSlots (p : Pool) (hosts : list Host) (size : Pool -> Pool) : Z :=
  let sized := size p in
  foldl (fun total h => total +% hr_Room (HostRoomFor (withoutLiveDisk h) sized)) 0 hosts.

Definition capped (slots cap : Z) : Z := if 0 <? cap then Z.min slots cap else slots.

Definition hostNames (hosts : list Host) : list string := h_Name <$> hosts.

(** ** Sentences *)
Definition archPhrase (arch : string) : string := if str_eqb arch ArchAMD64 then "x64" else arch.
Definition hostPhrase (hosts : list Host) : string :=
  match hosts with
  | [] => "no host"
  | [h] => "host " +:+ ForSentence (h_Name h)
  | _ => plural (Z.of_nat (length hosts)) "host"
  end.
Definition joinedWithHosts (hosts : list Host) (slots : Z) : string :=
  strings_Join (ForSentence <$> hostNames hosts) ", " +:+ " (" +:+ plural slots "slot" +:+ ")".

Definition skipPhrase (reason : string) : string :=
  if str_eqb reason SkipCordoned then "was cordoned"
  else if str_eqb reason SkipIncompatible then "runs an agent this controller cannot place work on"
  else if str_eqb reason SkipSilent then "has not been heard from for too long"
  else if str_eqb reason SkipBackend then "offers no backend this pool can use"
  else if str_eqb reason SkipBadSize then "has a size label that is not a class"
  else if str_eqb reason SkipArch then "reports an architecture no pool is kept for"
  else if str_eqb reason SkipNoClass then "has no class yet"
  else "no longer counts".

(** [leftParts]; a nil host panics. *)
Definition leftParts (previous now : list string) (all : list (option Host)) (reasons : gmap string string) : option (list string) :=
  match mapM id all with
  | None => None
  | Some hosts =>
      let byName := foldl (fun m h => <[h_Name h := h]> m) (∅ : gmap string Host) hosts in
      Some ((fun n => match byName !! n with
                      | Some h => "host " +:+ ForSentence n +:+ " " +:+ skipPhrase (map_get reasons (h_ID h) "")
                      | None => "host " +:+ ForSentence n +:+ " was removed"
                      end) <$> List.filter (fun n => negb (str_in n now)) previous)
  end.

Definition resizeCause (before after : Pool) (previous : option (list string)) (members : list Host)
    (all : list (option Host)) (reasons : gmap string string) (slots : Z) : option string :=
  let head :=
    if p_MaxRunners before =? p_MaxRunners after
    then "warm runners " +:+ itoa (p_MinRunners before) +:+ " → " +:+ itoa (p_MinRunners after)
    else "maximum runners " +:+ itoa (p_MaxRunners before) +:+ " → " +:+ itoa (p_MaxRunners after) in
  match previous with
  | None => Some (head +:+ ": recomputed from " +:+ hostPhrase members +:+ ", " +:+ plural slots "slot")
  | Some previous =>
      let now := hostNames members in
      match leftParts previous now all reasons with
      | None => None
      | Some gone =>
          let parts := ((fun n => "host " +:+ ForSentence n +:+ " joined") <$> List.filter (fun n => negb (str_in n previous)) now) ++ gone in
          let parts := match parts with
                       | [] => [if p_MaxRunners before =? p_MaxRunners after
                                then "an operator asked for " +:+ plural (p_AutoMin after) "runner" +:+ " kept warm"
                                else if (0 <? p_AutoCap after) && (p_AutoCap after <? slots)
                                then "an operator capped the pool at " +:+ plural (p_AutoCap after) "runner"
                                else "the slots of " +:+ hostPhrase members +:+ " changed"]
                       | _ => parts
                       end in
          Some (head +:+ ": " +:+ strings_Join parts "; ")
      end
  end.

(** ** Names and labels that are taken *)
Definition autoCollision (inp : AutoPoolInput) (arch class : string) : option AutoPoolFinding :=
  let name := AutoPoolName arch class in
  let intro := "the pool for " +:+ class +:+ " " +:+ archPhrase arch +:+ " hosts would be called " +:+ name in
  head (omap (fun p =>
    if FromHosts p && negb (str_eqb (p_InstallationID p) (ai_InstallationID inp)) &&
       str_eqb (NormalizeLabel (p_Name p)) (NormalizeLabel name) then
      Some {| af_Code := FindingNameTaken; af_Subject := name;
              af_Message := intro +:+ ", which is the name of the pool the controller kept for another GitHub App installation before automatic pools were moved to this one";
              af_Fix := "delete pool " +:+ p_Name p +:+ ", which is out of use and holds the name, and the automatic pool for this installation will be made on the next pass." |}
    else if FromHosts p then None
    else if str_eqb (NormalizeLabel (p_Name p)) (NormalizeLabel name) then
      Some {| af_Code := FindingNameTaken; af_Subject := name;
              af_Message := intro +:+ ", which is the name of a pool you made";
              af_Fix := "rename pool " +:+ p_Name p +:+ ", or move its hosts into the automatic pool by removing its host selector and letting this one take them." |}
    else if str_eqb (p_InstallationID p) (ai_InstallationID inp) && str_in (SizeClass_Label class) (NormalizeLabels (p_Labels p)) then
      Some {| af_Code := FindingLabelTaken; af_Subject := name;
              af_Message := "pool " +:+ p_Name p +:+ " already answers to " +:+ SizeClass_Label class +:+ ", the label the pool for " +:+ class +:+
                            " hosts would use, so jobs that ask for it would be split between the two";
              af_Fix := "take " +:+ SizeClass_Label class +:+ " off pool " +:+ p_Name p +:+ ", or rename it, and the automatic pool will be made on the next pass." |}
    else None) (sortedPools (ai_Pools inp))).

Definition labelClash (inp : AutoPoolInput) (kept : Pool) (class : string) : option AutoPoolFinding :=
  head (omap (fun p =>
    if FromHosts p || negb (str_eqb (p_InstallationID p) (p_InstallationID kept)) || negb (p_Enabled p) ||
       negb (str_in (SizeClass_Label class) (NormalizeLabels (p_Labels p)))
    then None
    else Some {| af_Code := FindingLabelTaken; af_Subject := p_Name kept;
                 af_Message := "pool " +:+ p_Name p +:+ " answers to " +:+ SizeClass_Label class +:+ " as well as the pool " +:+ p_Name kept +:+
                               " the controller keeps for " +:+ class +:+ " hosts, so jobs that ask for it are split between the two";
                 af_Fix := "take " +:+ SizeClass_Label class +:+ " off pool " +:+ p_Name p +:+ ", or rename it and give it a label of its own." |})
    (sortedPools (ai_Pools inp))).

(** ** The fixed fields *)

(** Every entry of the first is what the second reads for its key. *)
Definition sameSelector (a b : gmap string string) : bool :=
  Nat.eqb (size a) (size b) && forallb (fun '(k, v) => str_eqb (map_get b k "") v) (map_to_list a).

Definition Platform_eqb (a b : Platform) : bool :=
  str_eqb (pl_OS a) (pl_OS b) && str_eqb (pl_OSVersion a) (pl_OSVersion b) && str_eqb (pl_Arch a) (pl_Arch b).
Definition Resources_eqb (a b : Resources) : bool :=
  (rs_CPUs a =? rs_CPUs b)%f64 && (rs_MemoryMB a =? rs_MemoryMB b) && (rs_DiskGB a =? rs_DiskGB b) &&
  (rs_PidsLimit a =? rs_PidsLimit b) && (rs_MinCPUs a =? rs_MinCPUs b)%f64 && (rs_MinMemoryMB a =? rs_MinMemoryMB b) &&
  (rs_DaemonSharePercent a =? rs_DaemonSharePercent b) && (rs_DaemonCPUSharePercent a =? rs_DaemonCPUSharePercent b) &&
  (rs_DaemonMemorySharePercent a =? rs_DaemonMemorySharePercent b).
Definition DockerMode_eqb (a b : DockerMode) : bool :=
  match a, b with DockerNone, DockerNone | DockerDinD, DockerDinD | DockerHostSocket, DockerHostSocket => true | _, _ => false end.
Definition labels_eqb (a b : list string) : bool := bool_decide (NormalizeLabels a = NormalizeLabels b).

Definition reshape (inp : AutoPoolInput) (p : Pool) (arch class : string) : Pool * bool :=
  let want := NewAutoPool inp arch class (p_Backend p) in
  let labels := labels_eqb (p_Labels p) (p_Labels want) in
  let platform := Platform_eqb (p_Platform p) (p_Platform want) in
  let selector := sameSelector (p_HostSelector p) (p_HostSelector want) in
  let mode := DockerMode_eqb (p_DockerMode p) (p_DockerMode want) in
  let resources := Resources_eqb (p_Resources p) zero_Resources in
  (p_with_shape p (if labels then p_Labels p else p_Labels want) (if platform then p_Platform p else p_Platform want)
     (if selector then p_HostSelector p else p_HostSelector want) true
     (if mode then p_DockerMode p else p_DockerMode want) true (if resources then p_Resources p else zero_Resources),
   negb (labels && platform && selector && p_SizeFromProfile p && mode && p_Ephemeral p && resources)).

(** ** The pass *)
Definition aisize (inp : AutoPoolInput) : Pool -> Pool := match ai_Size inp with Some f => f | None => id end.

(** Which of a group's hosts the backend is found on. *)
Definition keyBackend (existing : option Pool) (g : option autoGroup) : string :=
  let backend := match existing with Some p => p_Backend p | None => "" end in
  match g with Some g => if str_eqb backend "" then autoBackend (ag_hosts g) else backend | None => backend end.
Definition counts (backend : string) (h : Host) : bool := nonempty backend && str_in backend (h_Backends h).
Definition membersOf (existing : option Pool) (g : option autoGroup) : list Host :=
  match g with Some g => List.filter (counts (keyBackend existing (Some g))) (ag_hosts g) | None => [] end.
Definition strangersOf (existing : option Pool) (g : option autoGroup) : list Host :=
  match g with Some g => List.filter (fun h => negb (counts (keyBackend existing (Some g)) h)) (ag_hosts g) | None => [] end.

(** A pool with the limits its hosts give it. *)
Definition limited (inp : AutoPoolInput) (p : Pool) (members : list Host) : Pool * Z :=
  let slots := autoSlots p members (aisize inp) in
  let maxRunners := capped slots (p_AutoCap p) in
  (p_with_limits p (Z.min (p_AutoMin p) maxRunners) maxRunners (p_Enabled p), slots).

Definition desiredPool (inp : AutoPoolInput) (existing : Pool) (arch class : string) (members : list Host) : Pool * bool * Z :=
  let '(shaped, reshaped) := reshape inp existing arch class in
  let '(d, slots) := limited inp shaped members in
  let some := negb (Nat.eqb (length members) 0) in
  (p_with_limits d (if some then p_MinRunners d else 0) (if some then p_MaxRunners d else 0) (some && negb (p_AutoPaused d)),
   reshaped, slots).

(** The state of the loop over the keys. *)
Record planState := { ps_plan : AutoPoolPlan; ps_reasons : gmap string string }.

(** What to do to an existing pool: nothing, or a kind of change with its cause.  The
    outer [None] is a panic. *)
Definition changeOf (inp : AutoPoolInput) (key arch class : string) (existing desired : Pool) (reshaped : bool)
    (members : list Host) (slots : Z) (reasons : gmap string string) : option (option (AutoPoolChangeKind * string)) :=
  let derived := negb (p_MinRunners existing =? p_MinRunners desired) || negb (p_MaxRunners existing =? p_MaxRunners desired) ||
                 negb (Bool.eqb (p_Enabled existing) (p_Enabled desired)) in
  let none_ := Nat.eqb (length members) 0 in
  let also cause := if (reshaped : bool)
    then cause +:+ "; its fixed settings were also brought back in line with the automatic pool settings" else cause in
  if negb derived && negb reshaped then Some None
  else if p_AutoPaused desired && p_Enabled existing then
    Some (Some (AutoPoolDisable, also "an operator paused the pool, so it takes no new work whatever its hosts do"))
  else if none_ && p_Enabled existing then
    match leftParts (default [] (ai_Previous inp !! key)) [] (ai_Hosts inp) reasons with
    | None => None
    | Some gone =>
        let cause := "no " +:+ class +:+ " " +:+ archPhrase arch +:+ " host is left to take work" in
        Some (Some (AutoPoolDisable, also (match gone with [] => cause | _ => cause +:+ ": " +:+ strings_Join gone "; " end)))
    end
  else if negb none_ && negb (p_Enabled existing) && negb (p_AutoPaused existing) then
    let room := plural (p_MaxRunners desired) "runner" in
    Some (Some (AutoPoolEnable, also (match default [] (ai_Previous inp !! key) with
                                      | [] => hostPhrase members +:+ " is back, so the pool is in use again with room for " +:+ room
                                      | _ => "an operator resumed the pool, so it is in use again with room for " +:+ room
                                      end)))
  else if derived then
    match resizeCause existing desired (ai_Previous inp !! key) members (ai_Hosts inp) reasons slots with
    | None => None
    | Some cause => Some (Some (AutoPoolResize, also cause))
    end
  else Some (Some (AutoPoolReshape, "its fixed settings were brought back in line with the automatic pool settings")).

Definition add_finding (clash : option AutoPoolFinding) (p : AutoPoolPlan) : AutoPoolPlan :=
  {| ap_Changes := ap_Changes p; ap_Findings := ap_Findings p ++ option_list clash; ap_Skipped := ap_Skipped p;
     ap_Members := ap_Members p; ap_Slots := ap_Slots p |}.
Definition add_change (c : AutoPoolChange) (p : AutoPoolPlan) : AutoPoolPlan :=
  {| ap_Changes := ap_Changes p ++ [c]; ap_Findings := ap_Findings p; ap_Skipped := ap_Skipped p;
     ap_Members := ap_Members p; ap_Slots := ap_Slots p |}.
Definition add_members (key : string) (names : list string) (slots : Z) (p : AutoPoolPlan) : AutoPoolPlan :=
  {| ap_Changes := ap_Changes p; ap_Findings := ap_Findings p; ap_Skipped := ap_Skipped p;
     ap_Members := <[key := names]> (ap_Members p); ap_Slots := <[key := slots]> (ap_Slots p) |}.
Definition add_skipped (hosts : list Host) (p : AutoPoolPlan) : AutoPoolPlan :=
  {| ap_Changes := ap_Changes p; ap_Findings := ap_Findings p;
     ap_Skipped := ap_Skipped p ++ ((fun h => {| hk_Host := h; hk_Reason := SkipBackend |}) <$> hosts);
     ap_Members := ap_Members p; ap_Slots := ap_Slots p |}.

Definition createChange (inp : AutoPoolInput) (key arch class backend : string) (members : list Host) : AutoPoolChange :=
  let '(desired, slots) := limited inp (NewAutoPool inp arch class backend) members in
  {| ac_Kind := AutoPoolCreate; ac_Key := key; ac_Before := None; ac_After := desired; ac_Hosts := hostNames members;
     ac_Slots := slots; ac_Reshaped := false;
     ac_Cause := "no pool existed for " +:+ class +:+ " " +:+ archPhrase arch +:+ " hosts, and " +:+ hostPhrase members +:+
                 " has joined: " +:+ joinedWithHosts members slots |}.

Definition planKey (inp : AutoPoolInput) (groups : gmap string autoGroup) (ours : gmap string Pool) (st : planState) (key : string)
  : option planState :=
  match ParseAutoKey key with
  | None => Some st
  | Some (arch, class) =>
      let existing := ours !! key in
      let g := groups !! key in
      let members := membersOf existing g in
      let strangers := strangersOf existing g in
      let reasons := foldl (fun m h => <[h_ID h := SkipBackend]> m) (ps_reasons st) strangers in
      let plan := add_skipped strangers (ps_plan st) in
      match existing with
      | None =>
          if Nat.eqb (length members) 0 then Some {| ps_plan := plan; ps_reasons := reasons |}
          else match autoCollision inp arch class with
               | Some clash => Some {| ps_plan := add_finding (Some clash) plan; ps_reasons := reasons |}
               | None =>
                   let c := createChange inp key arch class (keyBackend existing g) members in
                   Some {| ps_plan := add_change c (add_members key (hostNames members) (ac_Slots c) plan); ps_reasons := reasons |}
               end
      | Some existing =>
          let '(desired, reshaped, slots) := desiredPool inp existing arch class members in
          let plan := add_members key (hostNames members) slots plan in
          match changeOf inp key arch class existing desired reshaped members slots reasons with
          | None => None
          | Some None => Some {| ps_plan := add_finding (labelClash inp existing class) plan; ps_reasons := reasons |}
          | Some (Some (kind, cause)) =>
              let c := {| ac_Kind := kind; ac_Key := key; ac_Before := Some existing; ac_After := desired;
                          ac_Hosts := hostNames members; ac_Slots := slots; ac_Reshaped := reshaped; ac_Cause := cause |} in
              Some {| ps_plan := add_finding (labelClash inp existing class) (add_change c plan); ps_reasons := reasons |}
          end
      end
  end.

(** A pool of another installation is put out of use. *)
Definition elsewhereChanges (inp : AutoPoolInput) : list AutoPoolChange :=
  (fun p => {| ac_Kind := AutoPoolDisable; ac_Key := p_AutoKey p; ac_Before := Some p; ac_After := p_with_limits p 0 0 false;
               ac_Hosts := []; ac_Slots := 0; ac_Reshaped := false;
               ac_Cause := "automatic pools now use another GitHub App installation, so this one is put out of use" |})
  <$> List.filter (fun p => negb (negb (p_Enabled p) && (p_MaxRunners p =? 0))) (elsewhereOf inp).

Section Plan.
(** [fmt]'s [%q], which the sentence on an unknown architecture is written with. *)
Variable quote : string -> string.

Definition skippedFinding (s : HostSkip) : option AutoPoolFinding :=
  let label := ForSentence (h_Name (hk_Host s)) in
  let found fix_ := Some {| af_Code := FindingHostSkipped; af_Subject := h_Name (hk_Host s);
                            af_Message := "host " +:+ label +:+ " is in no automatic pool: it " +:+ skipPhrase (hk_Reason s);
                            af_Fix := fix_ |} in
  if str_eqb (hk_Reason s) SkipBadSize then
    found ("set the size tag on host " +:+ label +:+ " to small, medium or large exactly as written here, or remove it to let the controller work it out.")
  else if str_eqb (hk_Reason s) SkipArch then
    found ("host " +:+ label +:+ " reports " +:+ quote (ForSentence (h_Arch (hk_Host s))) +:+ "; automatic pools are kept for amd64 and arm64 hosts only.")
  else if str_eqb (hk_Reason s) SkipBackend then
    found ("host " +:+ label +:+ " offers no backend the pool for its class uses; enable Docker or Podman on it.")
  else None.
Definition skippedFindings (skipped : list HostSkip) : list AutoPoolFinding := omap skippedFinding skipped.

Definition PlanAutoPools (inp : AutoPoolInput) : option AutoPoolPlan :=
  let gs := groupHosts inp in
  let ours := oursOf inp in
  let start := {| ps_plan := {| ap_Changes := []; ap_Findings := []; ap_Skipped := gs_skipped gs; ap_Members := ∅; ap_Slots := ∅ |};
                  ps_reasons := gs_reasons gs |} in
  match foldl (fun st key => st ≫= fun st => planKey inp (gs_groups gs) ours st key) (Some start) (orderedKeys (gs_groups gs) ours) with
  | None => None
  | Some st =>
      let p := ps_plan st in
      Some {| ap_Changes := ap_Changes p ++ elsewhereChanges inp;
              ap_Findings := ap_Findings p ++ skippedFindings (ap_Skipped p);
              ap_Skipped := ap_Skipped p; ap_Members := ap_Members p; ap_Slots := ap_Slots p |}
  end.
End Plan.
