(* ===== verification/Reconcile.v ===== *)
(** * One pass of the pool reconciler (controller/autopools.go, controller/minimum.go)

    The controller reads the pools, asks [PlanAutoPools] what to change, and makes each
    change as one guarded write ([CreatePool] and [ApplyAutoPool] of the store).  The
    table of pools is the list of its rows.  The last section says which fields of a pool
    its size on a host depends on. *)
From Stdlib Require Import ZArith Lia Ascii String.
From stdpp Require Import base strings list gmap.
From S2P Require Import Prelude GoFloat GoString Naming Names Store StoreNames Phrases Resources Labels SizeClass Placement Plan AutoPools.
Local Open Scope string_scope.
Local Open Scope list_scope.
Local Open Scope Z_scope.

(** ** Sizes from the fleet's settings (minimum.go, config.go) *)
Record Runners := {
  cr_DefaultCPUs : float64;
  cr_DefaultMemoryMB : Z;
  cr_MinimumCPUs : float64;
  cr_MinimumMemoryMB : Z;
  cr_SmallCPUs : float64;
  cr_SmallMemoryMB : Z;
  cr_MediumCPUs : float64;
  cr_MediumMemoryMB : Z;
  cr_LargeCPUs : float64;
  cr_LargeMemoryMB : Z
}.

Definition DefaultRunnerCPUs : float64 := Eval vm_compute in f64_of_Z 2.
Definition DefaultRunnerMemoryMB : Z := 4096.

Definition ClassRunnerSize (r : Runners) (class : string) : float64 * Z :=
  if str_eqb class "small" then (cr_SmallCPUs r, cr_SmallMemoryMB r)
  else if str_eqb class "medium" then (cr_MediumCPUs r, cr_MediumMemoryMB r)
  else if str_eqb class "large" then (cr_LargeCPUs r, cr_LargeMemoryMB r)
  else (f64_zero, 0).

Definition DefaultRunnerSize (r : Runners) : float64 * Z :=
  (if (cr_DefaultCPUs r <=? f64_zero)%f64 then DefaultRunnerCPUs else cr_DefaultCPUs r,
   if cr_DefaultMemoryMB r <=? 0 then DefaultRunnerMemoryMB else cr_DefaultMemoryMB r).

Definition EffectiveMinimum (r : Resources) (fleet : Runners) : float64 * Z :=
  (if (rs_MinCPUs r <=? f64_zero)%f64 && fpos (cr_MinimumCPUs fleet) &&
      ((rs_CPUs r <=? f64_zero)%f64 || (cr_MinimumCPUs fleet <? rs_CPUs r)%f64)
   then cr_MinimumCPUs fleet else rs_MinCPUs r,
   if (rs_MinMemoryMB r <=? 0) && (0 <? cr_MinimumMemoryMB fleet) &&
      ((rs_MemoryMB r <=? 0) || (cr_MinimumMemoryMB fleet <? rs_MemoryMB r))
   then cr_MinimumMemoryMB fleet else rs_MinMemoryMB r).

Definition fleetStandard (p : Pool) (fleet : Runners) : float64 * Z :=
  let standard := DefaultRunnerSize fleet in
  match ParseAutoKey (p_AutoKey p) with
  | Some (_, class) => let '(c, m) := ClassRunnerSize fleet class in if fpos c || (0 <? m) then (c, m) else standard
  | None => standard
  end.

Definition RunnerSize_eqb (a b : RunnerSize) : bool := (sz_CPUs a =? sz_CPUs b)%f64 && (sz_MemoryMB a =? sz_MemoryMB b).

(** A pool with the fleet's figures laid beside its own. *)
Definition p_with_fleet (p : Pool) (minCPUs : float64) (minMemoryMB : Z) (standard minimum : RunnerSize) : Pool :=
  let q := p_with_resources p (rs_with_min (p_Resources p) minCPUs minMemoryMB) in
  {| p_ID := p_ID q; p_Name := p_Name q; p_InstallationID := p_InstallationID q; p_Labels := p_Labels q;
     p_NoDefaultLabels := p_NoDefaultLabels q; p_RunnerGroup := p_RunnerGroup q; p_Backend := p_Backend q;
     p_Platform := p_Platform q; p_Image := p_Image q; p_PullPolicy := p_PullPolicy q; p_MinRunners := p_MinRunners q;
     p_MaxRunners := p_MaxRunners q; p_RepositoryScaleUpLimit := p_RepositoryScaleUpLimit q; p_Priority := p_Priority q;
     p_IdleTimeout := p_IdleTimeout q; p_Ephemeral := p_Ephemeral q; p_DockerMode := p_DockerMode q;
     p_Resources := p_Resources q; p_CPUBurstMode := p_CPUBurstMode q; p_MemoryBurstMode := p_MemoryBurstMode q;
     p_CacheScope := p_CacheScope q; p_CPUBurstMaxCPUs := p_CPUBurstMaxCPUs q;
     p_MemoryBurstMaxMemoryMB := p_MemoryBurstMaxMemoryMB q; p_SizeFromProfile := p_SizeFromProfile q;
     p_AutoKey := p_AutoKey q; p_AutoMin := p_AutoMin q; p_AutoCap := p_AutoCap q; p_AutoPaused := p_AutoPaused q;
     p_FleetStandard := standard; p_FleetMinimum := minimum; p_RunnerSettings := p_RunnerSettings q;
     p_HostSelector := p_HostSelector q; p_Enabled := p_Enabled q |}.

Definition sizingPool (fleet : Runners) (p : Pool) : Pool :=
  let r := p_Resources p in
  let '(cpus, memoryMB) := EffectiveMinimum r fleet in
  let standard := if p_SizeFromProfile p then let '(c, m) := fleetStandard p fleet in {| sz_CPUs := c; sz_MemoryMB := m |}
                  else zero_RunnerSize in
  let inherited := {| sz_CPUs := if (rs_MinCPUs r <=? f64_zero)%f64 && fpos cpus then cpus else f64_zero;
                      sz_MemoryMB := if (rs_MinMemoryMB r <=? 0) && (0 <? memoryMB) then memoryMB else 0 |} in
  if (cpus =? rs_MinCPUs r)%f64 && (memoryMB =? rs_MinMemoryMB r) && RunnerSize_eqb standard (p_FleetStandard p) &&
     RunnerSize_eqb inherited (p_FleetMinimum p)
  then p else p_with_fleet p cpus memoryMB standard inherited.

(** ** The table of pools (queries_fleet.go, queries_size_routing.go) *)

(** The row a new pool is stored as: named for the brand, with its labels and platform
    normalised, times in whole milliseconds, and none of the figures that are not
    stored. *)
Definition poolRow (id : string) (p : Pool) : Pool :=
  {| p_ID := if str_eqb (p_ID p) "" then id else p_ID p; p_Name := BrandedName (p_Name p);
     p_InstallationID := p_InstallationID p; p_Labels := NormalizeLabels (p_Labels p);
     p_NoDefaultLabels := p_NoDefaultLabels p; p_RunnerGroup := p_RunnerGroup p; p_Backend := p_Backend p;
     p_Platform := Normalized (p_Platform p); p_Image := p_Image p;
     p_PullPolicy := if str_eqb (p_PullPolicy p) "" then "if-not-present" else p_PullPolicy p;
     p_MinRunners := p_MinRunners p; p_MaxRunners := p_MaxRunners p;
     p_RepositoryScaleUpLimit := p_RepositoryScaleUpLimit p; p_Priority := p_Priority p;
     p_IdleTimeout := Z.quot (p_IdleTimeout p) Millisecond * Millisecond; p_Ephemeral := p_Ephemeral p;
     p_DockerMode := p_DockerMode p; p_Resources := p_Resources p; p_CPUBurstMode := p_CPUBurstMode p;
     p_MemoryBurstMode := p_MemoryBurstMode p; p_CacheScope := p_CacheScope p;
     p_CPUBurstMaxCPUs := p_CPUBurstMaxCPUs p; p_MemoryBurstMaxMemoryMB := p_MemoryBurstMaxMemoryMB p;
     p_SizeFromProfile := p_SizeFromProfile p; p_AutoKey := p_AutoKey p; p_AutoMin := p_AutoMin p;
     p_AutoCap := p_AutoCap p; p_AutoPaused := p_AutoPaused p; p_FleetStandard := zero_RunnerSize;
     p_FleetMinimum := zero_RunnerSize; p_RunnerSettings := p_RunnerSettings p; p_HostSelector := p_HostSelector p;
     p_Enabled := p_Enabled p |}.

(** The unique indexes of the table: the ID, the name, and the key in an installation. *)
Definition pool_conflicts (row p : Pool) : bool :=
  str_eqb (p_ID p) (p_ID row) || str_eqb (p_Name p) (p_Name row) ||
  (nonempty (p_AutoKey row) && str_eqb (p_AutoKey p) (p_AutoKey row) && str_eqb (p_InstallationID p) (p_InstallationID row)).

(** [CreatePool], with the ID it draws; [None] is [ErrConflict]. *)
Definition CreatePool (table : list Pool) (id : string) (p : Pool) : option (list Pool) :=
  let row := poolRow id p in
  if existsb (pool_conflicts row) table then None else Some (table ++ [row]).

(** The columns [ApplyAutoPool] writes. *)
Definition applied (to p : Pool) : Pool :=
  p_with_limits
    (p_with_shape p (NormalizeLabels (p_Labels to)) (Normalized (p_Platform to)) (p_HostSelector to) (p_SizeFromProfile to)
       (p_DockerMode to) (p_Ephemeral to) (p_Resources to))
    (p_MinRunners to) (p_MaxRunners to) (p_Enabled to).

#[export] Instance Platform_eq_dec : EqDecision Platform.
Proof. solve_decision. Defined.
#[export] Instance DockerMode_eq_dec : EqDecision DockerMode.
Proof. solve_decision. Defined.
#[export] Instance spec_float_eq_dec : EqDecision SpecFloat.spec_float.
Proof. solve_decision. Defined.
#[export] Instance Resources_eq_dec : EqDecision Resources.
Proof. solve_decision. Defined.

(** Some column of the row differs from what would be written. *)
Definition differs (to p : Pool) : bool :=
  negb (bool_decide (p_MinRunners p = p_MinRunners to) && bool_decide (p_MaxRunners p = p_MaxRunners to) &&
        bool_decide (p_Enabled p = p_Enabled to) && bool_decide (p_Labels p = NormalizeLabels (p_Labels to)) &&
        bool_decide (p_Platform p = Normalized (p_Platform to)) && bool_decide (p_SizeFromProfile p = p_SizeFromProfile to) &&
        bool_decide (p_DockerMode p = p_DockerMode to) && bool_decide (p_Ephemeral p = p_Ephemeral to) &&
        bool_decide (p_Resources p = p_Resources to) && bool_decide (p_HostSelector p = p_HostSelector to)).

(** The guard of the write: the row is the one the pass read, an operator has not
    changed what the figures were worked out from, and there is something to write. *)
Definition guarded (from to p : Pool) : bool :=
  str_eqb (p_ID p) (p_ID from) && nonempty (p_AutoKey p) && (p_AutoMin p =? p_AutoMin from) && (p_AutoCap p =? p_AutoCap from) &&
  Bool.eqb (p_AutoPaused p) (p_AutoPaused from) && differs to p.

Definition ApplyAutoPool (table : list Pool) (from to : Pool) : list Pool * bool :=
  ((fun p => if guarded from to p then applied to p else p) <$> table, existsb (guarded from to) table).

(** ** The controller *)

(** [applyAutoPoolChange]: whether the change was made.  A change that is no create has
    a pool before it. *)
Definition applyAutoPoolChange (table : list Pool) (id : string) (ch : AutoPoolChange) : list Pool * bool :=
  match ac_Kind ch, ac_Before ch with
  | AutoPoolCreate, _ | _, None =>
      match CreatePool table id (ac_After ch) with Some table' => (table', true) | None => (table, false) end
  | _, Some before => ApplyAutoPool table before (ac_After ch)
  end.

(** The loop over the changes of a plan, each with the ID a new pool would draw: the
    table it leaves, and whether every change was made.  A pass that is cancelled part way
    is one that made fewer of its changes. *)
Fixpoint applyChanges (table : list Pool) (changes : list (string * AutoPoolChange)) : list Pool * bool :=
  match changes with
  | [] => (table, true)
  | (id, ch) :: rest =>
      let '(table, made) := applyAutoPoolChange table id ch in
      let '(table, settled) := applyChanges table rest in
      (table, made && settled)
  end.

(** The input of a pass over a table. *)
Definition passInput (inp : AutoPoolInput) (fleet : Runners) (table : list Pool) (previous : gmap string (list string)) : AutoPoolInput :=
  {| ai_Now := ai_Now inp; ai_Hosts := ai_Hosts inp; ai_Pools := Some <$> table; ai_InstallationID := ai_InstallationID inp;
     ai_RunnerGroup := ai_RunnerGroup inp; ai_Since := ai_Since inp; ai_Grace := ai_Grace inp;
     ai_DockerMode := ai_DockerMode inp; ai_Size := Some (sizingPool fleet); ai_Previous := previous |}.

(** ** What sizes depend on *)

(** A pool without the fields no size is worked out from. *)
Definition bare (p : Pool) : Pool :=
  {| p_ID := ""; p_Name := ""; p_InstallationID := ""; p_Labels := []; p_NoDefaultLabels := false; p_RunnerGroup := "";
     p_Backend := ""; p_Platform := {| pl_OS := ""; pl_OSVersion := ""; pl_Arch := "" |}; p_Image := ""; p_PullPolicy := ""; p_MinRunners := 0;
     p_MaxRunners := 0; p_RepositoryScaleUpLimit := 0; p_Priority := 0; p_IdleTimeout := 0; p_Ephemeral := false;
     p_DockerMode := p_DockerMode p; p_Resources := p_Resources p; p_CPUBurstMode := ""; p_MemoryBurstMode := "";
     p_CacheScope := ""; p_CPUBurstMaxCPUs := f64_zero; p_MemoryBurstMaxMemoryMB := 0;
     p_SizeFromProfile := p_SizeFromProfile p; p_AutoKey := p_AutoKey p; p_AutoMin := 0; p_AutoCap := 0; p_AutoPaused := false;
     p_FleetStandard := p_FleetStandard p; p_FleetMinimum := p_FleetMinimum p;
     p_RunnerSettings := {| rst_ProvisionTimeout := None; rst_DrainTimeout := None; rst_MaxRunnerLifetime := None;
                            rst_ScaleUpDelay := None; rst_DockerWait := None |};
     p_HostSelector := ∅; p_Enabled := false |}.

Lemma sizedOn_bare p h : sizedOn (bare p) h = bare (sizedOn p h).
Proof. unfold sizedOn. simpl. by destruct (_ && _). Qed.

Lemma Reserve_bare p h : Reserve (bare p) h = Reserve p h.
Proof. unfold Reserve. rewrite sizedOn_bare. by generalize (sizedOn p h). Qed.

Lemma MinimumReserve_bare p h : MinimumReserve (bare p) h = MinimumReserve p h.
Proof. unfold MinimumReserve. rewrite sizedOn_bare, Reserve_bare. by generalize (sizedOn p h). Qed.

Lemma ReducedSize_bare p h left known : ReducedSize (bare p) h left known = ReducedSize p h left known.
Proof. unfold ReducedSize. rewrite sizedOn_bare, MinimumReserve_bare, Reserve_bare. by generalize (sizedOn p h). Qed.

Lemma ShareTooSmall_bare h p : ShareTooSmall h (bare p) = ShareTooSmall h p.
Proof. unfold ShareTooSmall. rewrite sizedOn_bare. by generalize (sizedOn p h). Qed.

Lemma ExcludedBySize_bare h p : ExcludedBySize h (bare p) = ExcludedBySize h p.
Proof. reflexivity. Qed.

Lemma HostRoomFor_bare h p : HostRoomFor h (bare p) = HostRoomFor h p.
Proof.
  unfold HostRoomFor. cbv zeta. rewrite ExcludedBySize_bare, sizedOn_bare.
  destruct (isSome _); [done|]. generalize (sizedOn p h). intros q. rewrite ShareTooSmall_bare, Reserve_bare, MinimumReserve_bare.
  destruct (nonempty _); [done|]. destruct (_ && _); [done|].
  match goal with |- (let (_, _) := ?a in _) = _ => destruct a as [fit limit] end. by rewrite ReducedSize_bare.
Qed.

Lemma sizingPool_bare fleet p : sizingPool fleet (bare p) = bare (sizingPool fleet p).
Proof.
  unfold sizingPool. cbv zeta. change (p_Resources (bare p)) with (p_Resources p). change (p_SizeFromProfile (bare p)) with (p_SizeFromProfile p).
  change (fleetStandard (bare p) fleet) with (fleetStandard p fleet). change (p_FleetStandard (bare p)) with (p_FleetStandard p).
  change (p_FleetMinimum (bare p)) with (p_FleetMinimum p). destruct (EffectiveMinimum _ _) as [c m].
  destruct (_ && _ && _ && _); reflexivity.
Qed.

Lemma autoSlots_bare fleet p q hosts : bare p = bare q -> autoSlots p hosts (sizingPool fleet) = autoSlots q hosts (sizingPool fleet).
Proof.
  intros E. unfold autoSlots. cbv zeta. generalize 0. induction hosts as [|h hosts IH]; intros t; [done|]. simpl.
  rewrite <- (HostRoomFor_bare _ (sizingPool fleet p)), <- (HostRoomFor_bare _ (sizingPool fleet q)), <- !sizingPool_bare, E. apply IH.
Qed.
