(* ===== verification/Settle.v ===== *)
(** * A pass of the pool reconciler settles

    The proof that a pass whose every change was made leaves nothing for the next pass to
    do.  What a pass wants of one row depends on the row and the hosts alone ([target]);
    the plan asks for exactly the targets and the missing pools ([fold_changes]); a row
    written to its target has no target ([target_applied]), and neither has a new row
    ([target_created]). *)
From Stdlib Require Import ZArith Lia Ascii String.
From stdpp Require Import base strings list gmap.
From S2P Require Import Prelude GoFloat GoString Naming Names Store StoreNames Phrases Resources Labels SizeClass Placement Plan AutoPools Reconcile.
Local Open Scope string_scope.
Local Open Scope list_scope.
Local Open Scope Z_scope.


(** ** Keys *)
Definition archs : list string := [ArchAMD64; ArchARM64].

Lemma NormalizeArch_cases s : NormalizeArch s = "" \/ NormalizeArch s ∈ archs.
Proof. unfold NormalizeArch, archs. destruct (str_in _ _); [right; set_solver|]. destruct (str_in _ _); [right; set_solver|by left]. Qed.

Lemma SizeClass_Valid_cases c : SizeClass_Valid c = true -> c ∈ SizeClasses.
Proof.
  unfold SizeClass_Valid, Rank, SizeClasses. destruct (str_eqb c SizeSmall) eqn:E1; [apply str_eqb_eq in E1; set_solver|].
  destruct (str_eqb c SizeMedium) eqn:E2; [apply str_eqb_eq in E2; set_solver|].
  destruct (str_eqb c SizeLarge) eqn:E3; [apply str_eqb_eq in E3; set_solver|done].
Qed.

Lemma ParseAutoKey_cases key arch class : ParseAutoKey key = Some (arch, class) -> arch ∈ archs /\ class ∈ SizeClasses.
Proof.
  unfold ParseAutoKey, ParseSizeClass. destruct (strings_Cut key "/") as [[a c] found]. cbv zeta. case_match eqn:E; [done|]. intros [= <- <-].
  rewrite !orb_false_iff, !negb_false_iff, str_eqb_eq in E. destruct E as (((_ & Ha) & Hne) & Hv). split; [|by apply SizeClass_Valid_cases].
  destruct (NormalizeArch_cases a) as [E|E]; rewrite Ha in E; [by subst|done].
Qed.

(** A fact of the six keys there are. *)
Ltac each_key Ha Hc :=
  unfold archs, SizeClasses in Ha, Hc;
  repeat match goal with
  | H : _ ∈ [] |- _ => by apply elem_of_nil in H
  | H : _ ∈ _ :: _ |- _ => apply elem_of_cons in H as [-> | H]
  end; vm_compute; try done.

Lemma ParseAutoKey_key arch class : arch ∈ archs -> class ∈ SizeClasses -> ParseAutoKey (AutoPoolKey arch class) = Some (arch, class).
Proof. intros Ha Hc. each_key Ha Hc. Qed.

Lemma AutoPoolLabels_twice arch class : arch ∈ archs -> class ∈ SizeClasses ->
  NormalizeLabels (NormalizeLabels (AutoPoolLabels arch class)) = NormalizeLabels (AutoPoolLabels arch class).
Proof. intros Ha Hc. each_key Ha Hc. Qed.

Lemma Normalized_arch arch : arch ∈ archs ->
  Normalized {| pl_OS := ""; pl_OSVersion := ""; pl_Arch := arch |} = {| pl_OS := ""; pl_OSVersion := ""; pl_Arch := arch |}.
Proof. intros Ha. assert (Hc : "small" ∈ SizeClasses) by (unfold SizeClasses; set_solver). each_key Ha Hc. Qed.

(** The keys of the groups are keys. *)
Definition key_of (key : string) (g : autoGroup) : Prop :=
  key = AutoPoolKey (ag_arch g) (ag_class g) /\ ag_arch g ∈ archs /\ ag_class g ∈ SizeClasses.

Lemma autoClassOf_cases h inp arch class : autoClassOf h inp = inl (arch, class) -> arch ∈ archs /\ class ∈ SizeClasses.
Proof.
  unfold autoClassOf. repeat (case_match; try done). intros [= <- <-]. split; [|by apply SizeClass_Valid_cases].
  destruct (NormalizeArch_cases (h_Arch h)) as [E|E]; [|done]. rewrite E in *. done.
Qed.

Lemma groupHosts_keys inp : map_Forall key_of (gs_groups (groupHosts inp)).
Proof.
  unfold groupHosts. generalize (sortedHosts (ai_Hosts inp)). intros l.
  match goal with |- context [foldl _ ?s l] => assert (H0 : map_Forall key_of (gs_groups s)) by apply map_Forall_empty; revert H0; generalize s end.
  induction l as [|h l IH]; intros s Hs; [done|]. simpl. apply IH. unfold group_step. destruct (autoClassOf h inp) as [[a c]|r] eqn:E; [|done].
  destruct (autoClassOf_cases _ _ _ _ E) as [Ha Hc]. cbn [gs_groups]. apply map_Forall_insert_2; [|done].
  destruct (gs_groups s !! AutoPoolKey a c) as [g|] eqn:Eg; cbn [from_option default]; [by apply Hs in Eg|by split].
Qed.

(** ** What a pass wants of a row *)
Section Settle.
Context (inp : AutoPoolInput) (fleet : Runners).

Let base : AutoPoolInput := passInput inp fleet [] ∅.
Let groups : gmap string autoGroup := gs_groups (groupHosts inp).

(** The limits or the switch would change. *)
Definition derived (p d : Pool) : bool :=
  negb (p_MinRunners p =? p_MinRunners d) || negb (p_MaxRunners p =? p_MaxRunners d) || negb (Bool.eqb (p_Enabled p) (p_Enabled d)).

(** The pool a row is to become, when it is to change. *)
Definition target (p : Pool) : option Pool :=
  if negb (FromHosts p) then None
  else if str_eqb (p_InstallationID p) (ai_InstallationID inp) then
    match ParseAutoKey (p_AutoKey p) with
    | None => None
    | Some (arch, class) =>
        let '(d, reshaped, _) := desiredPool base p arch class (membersOf (Some p) (groups !! p_AutoKey p)) in
        if negb (derived p d) && negb reshaped then None else Some d
    end
  else if negb (negb (p_Enabled p) && (p_MaxRunners p =? 0)) then Some (p_with_limits p 0 0 false) else None.

(** *** A reshaped pool is in shape *)
Definition in_shape (p : Pool) (arch class : string) : Prop := snd (reshape base p arch class) = false.

Lemma Platform_eqb_eq a b : Platform_eqb a b = true <-> a = b.
Proof.
  unfold Platform_eqb. rewrite !andb_true_iff, !str_eqb_eq. destruct a, b; simpl. split; [by intros ((-> & ->) & ->)|by intros [= -> -> ->]].
Qed.
Lemma DockerMode_eqb_eq a b : DockerMode_eqb a b = true <-> a = b.
Proof. by destruct a, b. Qed.
Lemma Resources_eqb_zero : Resources_eqb zero_Resources zero_Resources = true.
Proof. vm_compute. reflexivity. Qed.
Lemma sameSelector_refl class : sameSelector {[ LabelSize := class ]} {[ LabelSize := class ]} = true.
Proof.
  unfold sameSelector. rewrite map_size_singleton, map_to_list_singleton. simpl. unfold map_get.
  rewrite lookup_singleton_eq. simpl. by rewrite str_eqb_refl.
Qed.

(** The row [ApplyAutoPool] leaves has every fixed field of the reshaped pool. *)
Lemma reshape_applied p arch class min max on : arch ∈ archs -> class ∈ SizeClasses ->
  let s := fst (reshape base p arch class) in
  let q := applied (p_with_limits s min max on) p in
  in_shape q arch class /\ bare (fst (reshape base q arch class)) = bare s.
Proof.
  intros Ha Hc s q. set (want := NewAutoPool base arch class (p_Backend p)).
  assert (Hl : NormalizeLabels (p_Labels s) = NormalizeLabels (p_Labels want)).
  { change (p_Labels s) with (if labels_eqb (p_Labels p) (p_Labels want) then p_Labels p else p_Labels want).
    unfold labels_eqb. by case_bool_decide. }
  assert (Hp : p_Platform s = p_Platform want).
  { change (p_Platform s) with (if Platform_eqb (p_Platform p) (p_Platform want) then p_Platform p else p_Platform want).
    destruct (Platform_eqb _ _) eqn:E; [by apply Platform_eqb_eq in E|done]. }
  assert (Hs : sameSelector (p_HostSelector s) (p_HostSelector want) = true).
  { change (p_HostSelector s) with (if sameSelector (p_HostSelector p) (p_HostSelector want) then p_HostSelector p else p_HostSelector want).
    destruct (sameSelector (p_HostSelector p) _) eqn:E; [done|]. apply sameSelector_refl. }
  assert (Hm : p_DockerMode s = p_DockerMode want).
  { change (p_DockerMode s) with (if DockerMode_eqb (p_DockerMode p) (p_DockerMode want) then p_DockerMode p else p_DockerMode want).
    destruct (DockerMode_eqb _ _) eqn:E; [by apply DockerMode_eqb_eq in E|done]. }
  assert (Hr : Resources_eqb (p_Resources s) zero_Resources = true).
  { change (p_Resources s) with (if Resources_eqb (p_Resources p) zero_Resources then p_Resources p else zero_Resources).
    destruct (Resources_eqb (p_Resources p) _) eqn:E; [done|apply Resources_eqb_zero]. }
  assert (El : labels_eqb (p_Labels q) (p_Labels want) = true).
  { unfold labels_eqb. apply bool_decide_eq_true. change (p_Labels q) with (NormalizeLabels (p_Labels s)). rewrite Hl.
    by apply AutoPoolLabels_twice. }
  assert (Ep : Platform_eqb (p_Platform q) (p_Platform want) = true).
  { apply Platform_eqb_eq. change (p_Platform q) with (Normalized (p_Platform s)). rewrite Hp. by apply Normalized_arch. }
  assert (Em : DockerMode_eqb (p_DockerMode q) (p_DockerMode want) = true) by (by apply DockerMode_eqb_eq).
  assert (Es : sameSelector (p_HostSelector q) (p_HostSelector want) = true) by done.
  assert (Er : Resources_eqb (p_Resources q) zero_Resources = true) by done.
  unfold in_shape, reshape at 1 2. change (p_Backend q) with (p_Backend p). fold want. cbv zeta.
  rewrite El, Ep, Em, Es, Er. split; reflexivity.
Qed.

(** The limits and the switch, from the operator's settings and the hosts. *)
Definition limits (p : Pool) (slots : Z) (members : list Host) : Z * Z * bool :=
  let some := negb (Nat.eqb (length members) 0) in
  let mx := capped slots (p_AutoCap p) in
  (if some then Z.min (p_AutoMin p) mx else 0, if some then mx else 0, some && negb (p_AutoPaused p)).

Definition with_limits (p : Pool) (l : Z * Z * bool) : Pool := p_with_limits p (fst (fst l)) (snd (fst l)) (snd l).

Lemma desiredPool_eq p arch class members :
  desiredPool base p arch class members =
  let s := fst (reshape base p arch class) in
  let slots := autoSlots s members (sizingPool fleet) in
  (with_limits s (limits p slots members), snd (reshape base p arch class), slots).
Proof. reflexivity. Qed.

(** A row in shape that has its limits is left alone. *)
Lemma target_quiet p arch class :
  FromHosts p = true -> p_InstallationID p = ai_InstallationID inp -> ParseAutoKey (p_AutoKey p) = Some (arch, class) ->
  in_shape p arch class ->
  let members := membersOf (Some p) (groups !! p_AutoKey p) in
  (p_MinRunners p, p_MaxRunners p, p_Enabled p) =
    limits p (autoSlots (fst (reshape base p arch class)) members (sizingPool fleet)) members ->
  target p = None.
Proof.
  intros Hf Hi Hk Hs members Hl. unfold target. rewrite Hf, Hi, str_eqb_refl, Hk. cbn [negb]. fold members. rewrite desiredPool_eq. cbv zeta.
  rewrite <- Hl, Hs. unfold derived, with_limits. cbn [fst snd p_MinRunners p_MaxRunners p_Enabled p_with_limits].
  by rewrite !Z.eqb_refl, Bool.eqb_reflx.
Qed.

Lemma target_applied p a : target p = Some a -> target (applied a p) = None.
Proof.
  intros H. unfold target in H. destruct (FromHosts p) eqn:Hf; [|done]. cbn [negb] in H.
  destruct (str_eqb (p_InstallationID p) _) eqn:Hi.
  - apply str_eqb_eq in Hi. destruct (ParseAutoKey (p_AutoKey p)) as [[arch class]|] eqn:Hk; [|done].
    destruct (ParseAutoKey_cases _ _ _ Hk) as [Ha Hc]. rewrite desiredPool_eq in H. cbv beta iota zeta in H.
    destruct (_ && _) in H; [done|]. apply (inj Some) in H as <-.
    set (members := membersOf _ _). set (s := fst (reshape base p arch class)). set (l := limits _ _ _).
    destruct (reshape_applied p arch class (fst (fst l)) (snd (fst l)) (snd l) Ha Hc) as [Hs Hb]. fold s in Hs, Hb.
    refine (target_quiet (applied (with_limits s l) p) arch class Hf Hi Hk Hs _).
    rewrite (autoSlots_bare fleet _ _ _ Hb). change (membersOf (Some _) _) with members. reflexivity.
  - destruct (negb _) in H; [|done]. apply (inj Some) in H as <-. unfold target. change (FromHosts (applied _ p)) with (FromHosts p). rewrite Hf.
    change (p_InstallationID (applied _ p)) with (p_InstallationID p). by rewrite Hi.
Qed.

(** *** New pools *)

(** The pool a pass makes for a key no pool is kept for. *)
Definition missing (key : string) (new : Pool) : Prop :=
  exists arch class g,
    ParseAutoKey key = Some (arch, class) /\ groups !! key = Some g /\ membersOf None (Some g) <> [] /\
    new = fst (limited base (NewAutoPool base arch class (keyBackend None (Some g))) (membersOf None (Some g))).

(** A row is the one stored for a pool a pass made. *)
Definition created (key : string) (row : Pool) : Prop := exists id new, missing key new /\ row = poolRow id new.

Lemma group_key key g arch class :
  groups !! key = Some g -> ParseAutoKey key = Some (arch, class) -> key = AutoPoolKey arch class /\ arch ∈ archs /\ class ∈ SizeClasses.
Proof.
  intros Hg Hk. destruct (groupHosts_keys inp key g Hg) as (-> & Ha & Hc). rewrite ParseAutoKey_key in Hk by done. by injection Hk as <- <-.
Qed.
Lemma members_backend existing g : membersOf existing (Some g) <> [] -> nonempty (keyBackend existing (Some g)) = true.
Proof.
  intros H. destruct (nonempty _) eqn:E; [done|]. destruct H. unfold membersOf, counts. rewrite E. by induction (ag_hosts g).
Qed.

Lemma created_row key row : created key row ->
  FromHosts row = true /\ p_InstallationID row = ai_InstallationID inp /\ p_AutoKey row = key.
Proof.
  intros (id & new & (arch & class & g & Hk & Hg & Hm & ->) & ->). destruct (group_key _ _ _ _ Hg Hk) as (-> & Ha & Hc).
  split; [|done]. unfold FromHosts. cbn [p_AutoKey poolRow limited fst p_with_limits NewAutoPool]. each_key Ha Hc.
Qed.

Lemma reshape_created arch class id backend mn mx on : arch ∈ archs -> class ∈ SizeClasses ->
  let new := NewAutoPool base arch class backend in
  let row := poolRow id (p_with_limits new mn mx on) in
  in_shape row arch class /\ bare (fst (reshape base row arch class)) = bare new.
Proof.
  intros Ha Hc new row.
  assert (El : labels_eqb (p_Labels row) (p_Labels new) = true)
    by (apply bool_decide_eq_true; by apply AutoPoolLabels_twice).
  assert (Ep : Platform_eqb (p_Platform row) (p_Platform new) = true) by (apply Platform_eqb_eq; by apply Normalized_arch).
  assert (Em : DockerMode_eqb (p_DockerMode row) (p_DockerMode new) = true) by (by apply DockerMode_eqb_eq).
  assert (Es : sameSelector (p_HostSelector row) (p_HostSelector new) = true) by apply sameSelector_refl.
  assert (Er : Resources_eqb (p_Resources row) zero_Resources = true) by apply Resources_eqb_zero.
  unfold in_shape, reshape at 1 2. change (p_Backend row) with backend. fold new. cbv zeta. rewrite El, Ep, Em, Es, Er. split; reflexivity.
Qed.

Lemma target_created key row : created key row -> target row = None.
Proof.
  intros Hcr. destruct (created_row _ _ Hcr) as (Hf & Hi & Hkey). destruct Hcr as (id & ? & (arch & class & g & Hk & Hg & Hm & ->) & Erow).
  destruct (group_key _ _ _ _ Hg Hk) as (_ & Ha & Hc). set (backend := keyBackend None (Some g)) in *.
  assert (Emem : membersOf (Some row) (groups !! p_AutoKey row) = membersOf None (Some g)).
  { rewrite Hkey, Hg. unfold membersOf. f_equal. f_equal. subst row. change (keyBackend None (Some g)) with (autoBackend (ag_hosts g)) in backend.
    change (keyBackend (Some _) (Some g)) with (if str_eqb backend "" then backend else backend). by destruct (str_eqb backend ""). }
  assert (Hsome : negb (Nat.eqb (length (membersOf None (Some g))) 0) = true) by (by destruct (membersOf None (Some g))).
  set (new := NewAutoPool base arch class backend) in *. set (slots := autoSlots new (membersOf None (Some g)) (sizingPool fleet)).
  destruct (reshape_created arch class id backend (Z.min (p_AutoMin new) (capped slots 0)) (capped slots 0) (p_Enabled new) Ha Hc) as [Hs Hb].
  fold new in Hs, Hb. change (poolRow id (p_with_limits new _ _ _)) with (poolRow id (fst (limited base new (membersOf None (Some g))))) in Hs, Hb.
  rewrite <- Erow in Hs, Hb. apply (target_quiet row arch class Hf Hi); [by rewrite Hkey|done|]. cbv zeta.
  rewrite Emem, (autoSlots_bare fleet _ _ _ Hb). unfold limits. rewrite Hsome. fold slots. subst row. reflexivity.
Qed.

(** *** The rows a pass finds *)
Let pass (table : list Pool) (previous : gmap string (list string)) : AutoPoolInput := passInput inp fleet table previous.
Definition ours (p : Pool) : bool := FromHosts p && str_eqb (p_InstallationID p) (ai_InstallationID inp).

Lemma sortedPools_elem table p : p ∈ sortedPools (Some <$> table) <-> p ∈ table.
Proof.
  unfold sortedPools. rewrite sort_elem_of. replace (compact (Some <$> table)) with table; [done|].
  unfold compact. induction table as [|q l IH]; [done|]. cbn. by f_equal.
Qed.

Lemma index_lookup (l : list Pool) (m : gmap string Pool) key p :
  foldl (fun m p => if ours p then <[p_AutoKey p := p]> m else m) m l !! key = Some p ->
  m !! key = Some p \/ (p ∈ l /\ ours p = true /\ p_AutoKey p = key).
Proof.
  revert m. induction l as [|q l IH]; intros m; [by left|]. simpl. intros H. apply IH in H as [H|(Hl & Ho & Hk)].
  - destruct (ours q) eqn:Eq; [|by left]. destruct (decide (p_AutoKey q = key)) as [E|E].
    + rewrite E, lookup_insert_eq in H. injection H as <-. right. split; [by left|done].
    + rewrite lookup_insert_ne in H by done. by left.
  - right. split; [by right|done].
Qed.

Lemma index_is_Some (l : list Pool) (m : gmap string Pool) p :
  (p ∈ l /\ ours p = true) \/ is_Some (m !! p_AutoKey p) ->
  is_Some (foldl (fun m p => if ours p then <[p_AutoKey p := p]> m else m) m l !! p_AutoKey p).
Proof.
  revert m. induction l as [|q l IH]; intros m.
  - intros [[H _]|H]; [by apply elem_of_nil in H|done].
  - intros H. simpl. apply IH.
    assert (Hk : is_Some (m !! p_AutoKey p) -> is_Some ((if ours q then <[p_AutoKey q := q]> m else m) !! p_AutoKey p)).
    { intros Hm. destruct (ours q); [|done]. destruct (decide (p_AutoKey q = p_AutoKey p)) as [->|n];
        [by rewrite lookup_insert_eq|by rewrite lookup_insert_ne]. }
    destruct H as [[Hl Ho]|H]; [|by right; apply Hk]. apply elem_of_cons in Hl as [->|Hl]; [|by left].
    right. rewrite Ho. by rewrite lookup_insert_eq.
Qed.

Lemma oursOf_lookup table previous key p :
  oursOf (pass table previous) !! key = Some p -> p ∈ table /\ ours p = true /\ p_AutoKey p = key.
Proof.
  intros H. change (oursOf _) with (foldl (fun m p => if ours p then <[p_AutoKey p := p]> m else m) (∅ : gmap string Pool) (sortedPools (Some <$> table))) in H.
  apply index_lookup in H as [H|(Hl & Ho & Hk)]; [done|]. by rewrite sortedPools_elem in Hl.
Qed.

Lemma oursOf_is_Some table previous p : p ∈ table -> ours p = true -> is_Some (oursOf (pass table previous) !! p_AutoKey p).
Proof. intros Hl Ho. apply index_is_Some. left. split; [|done]. by apply sortedPools_elem. Qed.

(** No two pools of an installation are kept for the same key. *)
Definition unique_keys (table : list Pool) : Prop :=
  forall p q, p ∈ table -> q ∈ table -> FromHosts p = true -> p_AutoKey p = p_AutoKey q -> p_InstallationID p = p_InstallationID q -> p = q.

Lemma oursOf_unique table previous p :
  unique_keys table -> p ∈ table -> ours p = true -> oursOf (pass table previous) !! p_AutoKey p = Some p.
Proof.
  intros Hu Hl Ho. destruct (oursOf_is_Some table previous p Hl Ho) as [q Hq]. rewrite Hq. f_equal.
  apply oursOf_lookup in Hq as (Hl' & Ho' & Hk). unfold ours in *. rewrite andb_true_iff, str_eqb_eq in *. apply Hu; try done; [by destruct Ho'|].
  destruct Ho, Ho'. congruence.
Qed.

(** *** The changes of a plan *)
Definition update_of (p a : Pool) (ch : AutoPoolChange) : Prop :=
  ac_Kind ch <> AutoPoolCreate /\ ac_Before ch = Some p /\ ac_After ch = a.

Definition create_of (key : string) (ch : AutoPoolChange) : Prop := ac_Kind ch = AutoPoolCreate /\ missing key (ac_After ch).

Definition good (table : list Pool) (ch : AutoPoolChange) : Prop :=
  (exists p a, p ∈ table /\ target p = Some a /\ update_of p a ch) \/ (exists key, create_of key ch).

Lemma changeOf_quiet i key arch class p d reshaped members slots reasons :
  changeOf i key arch class p d reshaped members slots reasons = Some None <-> negb (derived p d) && negb reshaped = true.
Proof.
  unfold changeOf. fold (derived p d). cbv zeta. destruct (negb (derived p d) && negb reshaped); [done|]. split; [|done].
  intros H. by repeat (case_match; try done).
Qed.
Lemma changeOf_kind i key arch class p d reshaped members slots reasons kind cause :
  changeOf i key arch class p d reshaped members slots reasons = Some (Some (kind, cause)) -> kind <> AutoPoolCreate.
Proof. unfold changeOf. cbv zeta. intros H. repeat (case_match; try done); by injection H as <- <-. Qed.

Lemma target_ours p arch class :
  ours p = true -> ParseAutoKey (p_AutoKey p) = Some (arch, class) ->
  target p = let '(d, reshaped, _) := desiredPool base p arch class (membersOf (Some p) (groups !! p_AutoKey p)) in
             if negb (derived p d) && negb reshaped then None else Some d.
Proof. unfold ours, target. rewrite andb_true_iff. intros [-> ->] ->. reflexivity. Qed.

(** What one key of the loop adds to the changes. *)
Lemma planKey_changes table previous st key st' :
  planKey (pass table previous) groups (oursOf (pass table previous)) st key = Some st' ->
  exists l, ap_Changes (ps_plan st') = ap_Changes (ps_plan st) ++ l /\ Forall (good table) l /\
    (forall p a, oursOf (pass table previous) !! key = Some p -> target p = Some a -> Exists (update_of p a) l) /\
    (forall arch class new, oursOf (pass table previous) !! key = None -> ParseAutoKey key = Some (arch, class) -> missing key new ->
       autoCollision (pass table previous) arch class = None -> Exists (create_of key) l).
Proof.
  unfold planKey. intros H. destruct (ParseAutoKey key) as [[arch class]|] eqn:Hk.
  2:{ injection H as <-. exists []. rewrite app_nil_r. split_and!; [done|done| |done]. intros p a Hp Ht. exfalso.
      apply oursOf_lookup in Hp as (_ & Ho & <-). unfold target in Ht. unfold ours in Ho. rewrite andb_true_iff in Ho. destruct Ho as [Hf Hi].
      by rewrite Hf, Hi, Hk in Ht. }
  destruct (oursOf (pass table previous) !! key) as [p|] eqn:Ho.
  - apply oursOf_lookup in Ho as (Hin & Ho & <-). pose proof (target_ours p arch class Ho Hk) as Ht.
    change (desiredPool (pass table previous)) with (desiredPool base) in H. destruct (desiredPool base p _ _ _) as [[d reshaped] slots].
    destruct (changeOf _ _ _ _ _ _ _ _ _ _) as [[[kind cause]|]|] eqn:Ec; [| |done]; injection H as <-.
    + assert (Hd : target p = Some d).
      { rewrite Ht. destruct (negb (derived p d) && negb reshaped) eqn:Eq; [|done]. apply <- changeOf_quiet in Eq. by rewrite Eq in Ec. }
      apply changeOf_kind in Ec. eexists [_]. split_and!; [done|..|done].
      * constructor; [|done]. left. exists p, d. by split_and!.
      * intros p' a [= <-] Ha. left. split_and!; [done|done|]. simpl. congruence.
    + apply changeOf_quiet in Ec. rewrite Ec in Ht. exists []. rewrite app_nil_r. split_and!; [done|done| |done]. intros p' a [= <-] Ha. congruence.
  - destruct (Nat.eqb _ 0) eqn:Em.
    + injection H as <-. exists []. rewrite app_nil_r. split_and!; [done|done|done|]. intros a' c' new _ [= <- <-] (? & ? & g & _ & Hg & Hm & _) _.
      change (gs_groups (groupHosts inp)) with groups in Em. rewrite Hg in Em. by destruct (membersOf None (Some g)).
    + destruct (groups !! key) as [g|] eqn:Hg; [|done].
      assert (Hm : membersOf None (Some g) <> []) by (by destruct (membersOf None (Some g))).
      destruct (autoCollision _ arch class) as [clash|] eqn:Eclash; injection H as <-.
      * exists []. rewrite app_nil_r. split_and!; [done|done|done|]. intros a' c' new _ [= <- <-] _ Hn. congruence.
      * assert (Hc : create_of key (createChange (pass table previous) key arch class (keyBackend None (Some g)) (membersOf None (Some g)))).
        { split; [done|]. by exists arch, class, g. }
        eexists [_]. split_and!; [done|..|done|].
        -- constructor; [|done]. right. by exists key.
        -- intros. by left.
Qed.

Lemma orderedKeys_elem key (o : gmap string Pool) : key ∈ orderedKeys groups o <-> is_Some (groups !! key) \/ is_Some (o !! key).
Proof. unfold orderedKeys. by rewrite sort_elem_of, elem_of_elements, elem_of_union, !elem_of_dom. Qed.

Lemma fold_changes table previous keys st st' :
  foldl (fun st key => st ≫= fun st => planKey (pass table previous) groups (oursOf (pass table previous)) st key) (Some st) keys = Some st' ->
  exists l, ap_Changes (ps_plan st') = ap_Changes (ps_plan st) ++ l /\ Forall (good table) l /\
    forall key, key ∈ keys ->
      (forall p a, oursOf (pass table previous) !! key = Some p -> target p = Some a -> Exists (update_of p a) l) /\
      (forall arch class new, oursOf (pass table previous) !! key = None -> ParseAutoKey key = Some (arch, class) -> missing key new ->
         autoCollision (pass table previous) arch class = None -> Exists (create_of key) l).
Proof.
  revert st. induction keys as [|key keys IH]; intros st; simpl.
  - intros [= <-]. exists []. rewrite app_nil_r. split_and!; [done|done|]. intros key H. by apply elem_of_nil in H.
  - destruct (planKey _ _ _ st key) as [st1|] eqn:E; simpl.
    2:{ intros H. exfalso. clear -H. by induction keys. }
    intros H. destruct (planKey_changes _ _ _ _ _ E) as (l1 & E1 & G1 & U1 & C1). destruct (IH _ H) as (l2 & E2 & G2 & K2).
    exists (l1 ++ l2). split_and!; [by rewrite E2, E1, app_assoc|by apply Forall_app|].
    intros k Hk. setoid_rewrite Exists_app. apply elem_of_cons in Hk as [->|Hk].
    + split; intros; left; eauto.
    + destruct (K2 k Hk) as [U2 C2]. split; intros; right; eauto.
Qed.

Lemma target_elsewhere p :
  FromHosts p = true -> str_eqb (p_InstallationID p) (ai_InstallationID inp) = false ->
  target p = if negb (negb (p_Enabled p) && (p_MaxRunners p =? 0)) then Some (p_with_limits p 0 0 false) else None.
Proof. unfold target. by intros -> ->. Qed.

Lemma elsewhereOf_elem table previous p :
  p ∈ elsewhereOf (pass table previous) <->
  p ∈ table /\ FromHosts p = true /\ str_eqb (p_InstallationID p) (ai_InstallationID inp) = false.
Proof.
  unfold elsewhereOf. change (ai_Pools (pass table previous)) with (Some <$> table).
  rewrite elem_of_bfilter, sortedPools_elem, andb_true_iff, negb_true_iff. tauto.
Qed.

Lemma elsewhereChanges_spec table previous :
  Forall (good table) (elsewhereChanges (pass table previous)) /\
  forall p a, p ∈ table -> ours p = false -> target p = Some a -> Exists (update_of p a) (elsewhereChanges (pass table previous)).
Proof.
  unfold elsewhereChanges. split.
  - apply Forall_fmap, Forall_forall. intros p Hp. rewrite elem_of_bfilter, elsewhereOf_elem in Hp.
    destruct Hp as ((Hl & Hf & Hi) & Hc). left. exists p, (p_with_limits p 0 0 false). rewrite target_elsewhere, Hc by done. by split_and!.
  - intros p a Hl Ho Ht. unfold ours in Ho. assert (Hf : FromHosts p = true) by (unfold target in Ht; by destruct (FromHosts p)).
    rewrite Hf in Ho. rewrite target_elsewhere in Ht by done. destruct (negb _) eqn:Hc in Ht; [|done]. apply (inj Some) in Ht as <-.
    apply Exists_fmap, Exists_exists. exists p. split; [|by split_and!].
    rewrite elem_of_bfilter, elsewhereOf_elem. done.
Qed.

Variable quote : string -> string.

Lemma plan_changes table previous plan :
  unique_keys table -> PlanAutoPools quote (pass table previous) = Some plan ->
  Forall (good table) (ap_Changes plan) /\
  (forall p a, p ∈ table -> target p = Some a -> Exists (update_of p a) (ap_Changes plan)) /\
  (forall key arch class new, oursOf (pass table previous) !! key = None -> ParseAutoKey key = Some (arch, class) -> missing key new ->
     autoCollision (pass table previous) arch class = None -> Exists (create_of key) (ap_Changes plan)).
Proof.
  intros Hu H. unfold PlanAutoPools in H. change (gs_groups (groupHosts (pass table previous))) with groups in H.
  destruct (foldl _ _ _) as [st|] eqn:E; [|done]. injection H as <-. cbn [ap_Changes].
  destruct (fold_changes _ _ _ _ _ E) as (l & -> & G & K). destruct (elsewhereChanges_spec table previous) as [Ge Ue]. cbn [ap_Changes ps_plan app].
  split; [by apply Forall_app|]. setoid_rewrite Exists_app. split.
  - intros p a Hl Ht. destruct (ours p) eqn:Ho; [left|right; by apply Ue].
    apply (K (p_AutoKey p)); [|by apply oursOf_unique|done]. apply orderedKeys_elem. right. by apply oursOf_is_Some.
  - intros key arch class new Hn Hk Hm Hc. left. apply (K key) with arch class new; try done. apply orderedKeys_elem. left.
    destruct Hm as (? & ? & g & _ & Hg & _). by exists g.
Qed.

(** *** Making the changes *)

(** A row as far as the changes still to be made: as the pass read it, with its change
    to come, or written to its target. *)
Definition row_so_far (chs : list AutoPoolChange) (p q : Pool) : Prop :=
  (q = p /\ forall a, target p = Some a -> Exists (update_of p a) chs) \/ (exists a, target p = Some a /\ q = applied a p).

Definition new_row (table : list Pool) (c : Pool) : Prop := (exists key, created key c) /\ p_ID c ∉ p_ID <$> table.

(** The table as far as the changes still to be made: the rows it had and the new ones,
    with a row made or to come for each key of [wanted]. *)
Definition so_far (table : list Pool) (wanted : string -> Prop) (chs : list AutoPoolChange) (cur : list Pool) : Prop :=
  exists pre new, cur = pre ++ new /\ Forall2 (row_so_far chs) table pre /\ Forall (new_row table) new /\
    forall key, wanted key -> Exists (create_of key) chs \/ Exists (created key) new.

Lemma differs_applied a p : differs a (applied a p) = false.
Proof. unfold differs. by rewrite !bool_decide_true. Qed.

Lemma row_ID chs p q : row_so_far chs p q -> p_ID q = p_ID p.
Proof. by intros [[-> _]|(a & _ & ->)]. Qed.

Lemma guarded_ID from to p : guarded from to p = true -> p_ID p = p_ID from.
Proof. unfold guarded. rewrite !andb_true_iff, str_eqb_eq. tauto. Qed.

Section Rows.
Variable table : list Pool.
Hypothesis Hids : NoDup (p_ID <$> table).

Lemma same_ID p q : p ∈ table -> q ∈ table -> p_ID p = p_ID q -> p = q.
Proof. by apply NoDup_key. Qed.

(** One guarded write. *)
Lemma row_update ch chs p a q p' :
  p ∈ table -> target p = Some a -> update_of p a ch -> guarded p a p = true -> p' ∈ table -> row_so_far (ch :: chs) p' q ->
  row_so_far chs p' (if guarded p a q then applied a q else q).
Proof.
  intros Hp Ht Hu Hg Hp' Hr. assert (Hsame : guarded p a q = true -> p' = p).
  { intros E%guarded_ID. rewrite (row_ID _ _ _ Hr) in E. by apply same_ID. }
  destruct Hr as [[-> Hr]|(a' & Ht' & ->)].
  - destruct (guarded p a p') eqn:E; [right; rewrite (Hsame eq_refl); by exists a|]. left. split; [done|]. intros a' Ha'.
    specialize (Hr a' Ha'). apply Exists_cons in Hr as [(_ & Hb & Haft)|]; [|done]. destruct Hu as (_ & Hb' & Haft'). congruence.
  - right. exists a'. split; [done|]. destruct (guarded p a (applied a' p')) eqn:E; [|done]. rewrite (Hsame eq_refl) in *.
    rewrite Ht in Ht'. by injection Ht' as <-.
Qed.

Lemma update_step wanted ch chs p a cur cur' :
  p ∈ table -> target p = Some a -> update_of p a ch -> so_far table wanted (ch :: chs) cur -> ApplyAutoPool cur p a = (cur', true) ->
  so_far table wanted chs cur'.
Proof.
  intros Hp Ht Hu (pre & new & -> & Hpre & Hnew & Hw). unfold ApplyAutoPool. intros [= <- Hmade].
  assert (Hout : Forall (fun c => guarded p a c = false) new).
  { eapply Forall_impl; [exact Hnew|]. intros c [_ Hc]. destruct (guarded p a c) eqn:E; [|done]. destruct Hc. rewrite (guarded_ID _ _ _ E).
    by apply list_elem_of_fmap_2. }
  assert (Hg : guarded p a p = true).
  { apply existsb_exists in Hmade as (q & Hq%list_elem_of_In & Eq). apply elem_of_app in Hq as [Hq|Hq].
    - apply list_elem_of_lookup in Hq as [i Hi]. destruct (Forall2_lookup_r _ _ _ _ _ Hpre Hi) as (p' & Hp' & Hr).
      assert (p' = p) as -> by (apply same_ID; [by eapply list_elem_of_lookup_2|done|]; rewrite <- (row_ID _ _ _ Hr); by eapply guarded_ID).
      destruct Hr as [[-> _]|(a' & Ha' & ->)]; [done|]. rewrite Ht in Ha'. injection Ha' as <-.
      unfold guarded in Eq. by rewrite differs_applied, andb_false_r in Eq.
    - by rewrite Forall_forall in Hout; rewrite (Hout q Hq) in Eq. }
  exists ((fun q => if guarded p a q then applied a q else q) <$> pre), new. split_and!; [|..|done|].
  - rewrite fmap_app. f_equal. clear -Hout. induction Hout as [|c l Hc _ IH]; [done|]. rewrite fmap_cons, Hc. by f_equal.
  - apply Forall2_fmap_r. apply Forall2_same_length_lookup in Hpre as [Hlen Hpre]. apply Forall2_same_length_lookup. split; [done|].
    intros i p' q Hi Hq. apply (row_update ch); try done; [by eapply list_elem_of_lookup_2|by eapply Hpre].
  - intros key Hk. destruct (Hw key Hk) as [E|E]; [left|by right]. apply Exists_cons in E as [[Hkind _]|]; [|done]. by destruct Hu.
Qed.
End Rows.

(** One new row. *)
Lemma create_step table wanted ch chs key id cur cur' :
  create_of key ch -> so_far table wanted (ch :: chs) cur -> CreatePool cur id (ac_After ch) = Some cur' -> so_far table wanted chs cur'.
Proof.
  intros [Hkind Hm] (pre & new & -> & Hpre & Hnew & Hw). unfold CreatePool. destruct (existsb _ _) eqn:Hc; [done|]. intros [= <-].
  set (row := poolRow id (ac_After ch)) in *.
  exists pre, (new ++ [row]). split_and!; [by rewrite app_assoc|..].
  - eapply Forall2_impl; [exact Hpre|]. intros p q [[-> Hr]|Hr]; [left|by right]. split; [done|]. intros a Ha. specialize (Hr a Ha).
    apply Exists_cons in Hr as [[Hk _]|]; done.
  - apply Forall_app. split; [done|]. constructor; [|done]. split; [exists key, id, (ac_After ch); by split|].
    intros Hin. apply list_elem_of_fmap in Hin as (p & E & Hp). apply list_elem_of_lookup in Hp as [i Hi].
    destruct (Forall2_lookup_l _ _ _ _ _ Hpre Hi) as (q & Hq & Hr). apply row_ID in Hr.
    assert (Ht : existsb (pool_conflicts row) (pre ++ new) = true); [|congruence].
    apply existsb_exists. exists q. split; [apply list_elem_of_In, elem_of_app; left; by eapply list_elem_of_lookup_2|].
    unfold pool_conflicts. by rewrite Hr, <- E, str_eqb_refl.
  - intros k Hk. destruct (Hw k Hk) as [E|E]; [|right; apply Exists_app; by left]. apply Exists_cons in E as [[_ Hk']|E]; [|by left].
    right. apply Exists_app. right. left. exists id, (ac_After ch). by split.
Qed.

Lemma changes_step table wanted changes cur cur' :
  NoDup (p_ID <$> table) -> Forall (good table) (snd <$> changes) -> so_far table wanted (snd <$> changes) cur ->
  applyChanges cur changes = (cur', true) -> so_far table wanted [] cur'.
Proof.
  intros Hids. revert cur. induction changes as [|[id ch] changes IH]; intros cur Hg Hs; simpl; [by intros [= <-]|].
  destruct (applyAutoPoolChange cur id ch) as [cur1 made] eqn:E. destruct (applyChanges cur1 changes) as [cur2 settled] eqn:E2.
  intros [= <- [-> ->]%andb_true_iff]. inversion Hg as [|? ? Hch Hg']; subst. apply (IH cur1); [done| |done]. unfold applyAutoPoolChange in E.
  destruct Hch as [(p & a & Hp & Ht & Hu)|(key & Hc)].
  - destruct Hu as (Hk & Hb & Haft). rewrite Hb, Haft in E. apply (update_step table Hids wanted ch _ p a cur); try done.
    by destruct (ac_Kind ch).
  - destruct Hc as [Hk Hm]. rewrite Hk in E. destruct (CreatePool cur id (ac_After ch)) as [t|] eqn:Ec; [|done]. injection E as <-.
    by apply (create_step table wanted ch _ key id cur).
Qed.

(** *** The next pass *)
Lemma so_far_settled table wanted cur : so_far table wanted [] cur -> Forall (fun q => target q = None) cur.
Proof.
  intros (pre & new & -> & Hpre & Hnew & _). apply Forall_app. split.
  - apply Forall2_same_length_lookup in Hpre as [Hlen Hpre]. apply Forall_lookup. intros i q Hq.
    destruct (lookup_lt_is_Some_2 table i) as [p Hp]; [rewrite Hlen; by eapply lookup_lt_Some|].
    destruct (Hpre i p q Hp Hq) as [[-> Hr]|(a & Ha & ->)]; [|by apply target_applied].
    destruct (target p) as [a|] eqn:Ha; [|done]. specialize (Hr a eq_refl). by apply Exists_nil in Hr.
  - eapply Forall_impl; [exact Hnew|]. intros c [[key Hc] _]. by eapply target_created.
Qed.

(** A row that was there still is, for the same key. *)
Lemma so_far_ours table wanted cur p :
  so_far table wanted [] cur -> p ∈ table -> ours p = true -> exists q, q ∈ cur /\ ours q = true /\ p_AutoKey q = p_AutoKey p.
Proof.
  intros (pre & new & -> & Hpre & _) Hp Ho. apply list_elem_of_lookup in Hp as [i Hi].
  destruct (Forall2_lookup_l _ _ _ _ _ Hpre Hi) as (q & Hq & Hr). exists q. split; [apply elem_of_app; left; by eapply list_elem_of_lookup_2|].
  destruct Hr as [[-> _]|(a & _ & ->)]; done.
Qed.

(** A row takes the name or the label of the pool for a key. *)
Definition collides (arch class : string) (p : Pool) : bool :=
  let named := str_eqb (NormalizeLabel (p_Name p)) (NormalizeLabel (AutoPoolName arch class)) in
  let here := str_eqb (p_InstallationID p) (ai_InstallationID inp) in
  if FromHosts p then negb here && named else named || (here && str_in (SizeClass_Label class) (NormalizeLabels (p_Labels p))).

Lemma head_omap_None {X Y} (l : list X) (f : X -> option Y) : head (omap f l) = None <-> Forall (fun x => f x = None) l.
Proof.
  induction l as [|x l IH]; [done|]. cbn. rewrite Forall_cons. destruct (f x) as [y|]; cbn; [|tauto]. by split; [|intros []].
Qed.

Lemma autoCollision_None table previous arch class :
  autoCollision (pass table previous) arch class = None <-> Forall (fun p => collides arch class p = false) table.
Proof.
  unfold autoCollision. cbv zeta. rewrite head_omap_None, !Forall_forall. change (ai_Pools (pass table previous)) with (Some <$> table).
  setoid_rewrite sortedPools_elem. apply forall_proper. intros p. apply forall_proper. intros _. unfold collides.
  change (ai_InstallationID (pass table previous)) with (ai_InstallationID inp).
  destruct (FromHosts p), (str_eqb (p_InstallationID p) _), (str_eqb (NormalizeLabel (p_Name p)) (NormalizeLabel (AutoPoolName arch class))),
    (str_in (SizeClass_Label class) (NormalizeLabels (p_Labels p))); by split.
Qed.

Lemma collides_so_far arch class table wanted cur :
  so_far table wanted [] cur -> Forall (fun p => collides arch class p = false) cur -> Forall (fun p => collides arch class p = false) table.
Proof.
  intros (pre & new & -> & Hpre & _) H. apply Forall_app in H as [H _]. rewrite Forall_lookup in H |- *. intros i p Hi.
  destruct (Forall2_lookup_l _ _ _ _ _ Hpre Hi) as (q & Hq & Hr). specialize (H i q Hq).
  destruct Hr as [[-> _]|(a & Ha & ->)]; [done|]. unfold target in Ha. unfold collides in *.
  change (FromHosts (applied a p)) with (FromHosts p) in H. destruct (FromHosts p); done.
Qed.

(** A key with nothing to do. *)
Lemma planKey_quiet table previous key st :
  Forall (fun q => target q = None) table ->
  (forall arch class new, oursOf (pass table previous) !! key = None -> ParseAutoKey key = Some (arch, class) -> missing key new ->
     autoCollision (pass table previous) arch class = None -> False) ->
  exists st', planKey (pass table previous) groups (oursOf (pass table previous)) st key = Some st' /\ ap_Changes (ps_plan st') = ap_Changes (ps_plan st).
Proof.
  intros Hq Hc. rewrite Forall_forall in Hq. unfold planKey. destruct (ParseAutoKey key) as [[arch class]|] eqn:Hk; [|by eauto].
  destruct (oursOf (pass table previous) !! key) as [p|] eqn:Ho.
  - apply oursOf_lookup in Ho as (Hin & Ho & <-). pose proof (target_ours p arch class Ho Hk) as Ht. rewrite (Hq p Hin) in Ht.
    change (desiredPool (pass table previous)) with (desiredPool base). destruct (desiredPool base p _ _ _) as [[d reshaped] slots].
    destruct (negb (derived p d) && negb reshaped) eqn:E; [|done]. eapply changeOf_quiet in E. rewrite E. by eauto.
  - destruct (Nat.eqb _ 0) eqn:Em; [by eauto|]. destruct (groups !! key) as [g|] eqn:Hg; [|done].
    destruct (autoCollision _ arch class) as [clash|] eqn:Eclash; [by eauto|]. exfalso.
    eapply (Hc arch class); [done|done| |done]. exists arch, class, g. split_and!; [done..| |done]. by destruct (membersOf None (Some g)).
Qed.

Lemma fold_quiet table previous keys st :
  (forall key st, exists st', planKey (pass table previous) groups (oursOf (pass table previous)) st key = Some st' /\
     ap_Changes (ps_plan st') = ap_Changes (ps_plan st)) ->
  exists st', foldl (fun st key => st ≫= fun st => planKey (pass table previous) groups (oursOf (pass table previous)) st key) (Some st) keys = Some st' /\
    ap_Changes (ps_plan st') = ap_Changes (ps_plan st).
Proof.
  intros H. revert st. induction keys as [|key keys IH]; intros st; [by exists st|]. simpl.
  destruct (H key st) as (st1 & -> & E1). simpl. destruct (IH st1) as (st2 & -> & E2). exists st2. by rewrite E2.
Qed.

Lemma elsewhere_quiet table previous : Forall (fun q => target q = None) table -> elsewhereChanges (pass table previous) = [].
Proof.
  intros H. destruct (elsewhereChanges (pass table previous)) as [|ch l] eqn:E; [done|]. exfalso.
  assert (Hch : ch ∈ elsewhereChanges (pass table previous)) by (rewrite E; by left). unfold elsewhereChanges in Hch.
  apply list_elem_of_fmap in Hch as (p & _ & Hp). rewrite elem_of_bfilter, elsewhereOf_elem in Hp. destruct Hp as ((Hl & Hf & Hi) & Hc).
  rewrite Forall_forall in H. specialize (H p Hl). by rewrite target_elsewhere, Hc in H.
Qed.
End Settle.

(** C29: A pass settles.  When every change of a plan has been made, over a
    table whose rows have IDs of their own and no two of which are kept for one key of an
    installation, the next pass over the table it leaves returns, and it changes
    nothing, whatever members it was told the pools had before. *)
Theorem reconcile_settles (quote : string -> string) (inp : AutoPoolInput) (fleet : Runners) (table table' : list Pool)
    (previous previous' : gmap string (list string)) (plan : AutoPoolPlan) (changes : list (string * AutoPoolChange)) :
  NoDup (p_ID <$> table) -> unique_keys table ->
  PlanAutoPools quote (passInput inp fleet table previous) = Some plan ->
  snd <$> changes = ap_Changes plan ->
  applyChanges table changes = (table', true) ->
  exists plan', PlanAutoPools quote (passInput inp fleet table' previous') = Some plan' /\ ap_Changes plan' = [].
Proof.
  intros Hids Hu Hplan Hch Happ. destruct (plan_changes inp fleet quote _ _ _ Hu Hplan) as (Hg & Hup & Hcr). rewrite <- Hch in Hg, Hup, Hcr.
  set (wanted := fun key => Exists (create_of inp fleet key) (snd <$> changes)).
  assert (Hs : so_far inp fleet table wanted [] table').
  { apply (changes_step inp fleet table wanted changes table); [done|done| |done]. exists table, []. rewrite app_nil_r.
    split_and!; [done| |done|by left]. apply Forall2_same_length_lookup. split; [done|]. intros i p q Hp Hq.
    left. rewrite Hp in Hq. injection Hq as <-. split; [done|]. intros a. apply Hup. by eapply list_elem_of_lookup_2. }
  pose proof (so_far_settled _ _ _ _ _ Hs) as Hq. unfold PlanAutoPools.
  rewrite (elsewhere_quiet inp fleet table' previous' Hq). cbv zeta. change (groupHosts (passInput inp fleet table' previous')) with (groupHosts inp).
  match goal with |- context [foldl _ (Some ?s) ?keys] =>
    destruct (fold_quiet inp fleet table' previous' keys s) as (st & E & Ec); [|rewrite E] end.
  - intros key st. apply planKey_quiet; [done|]. intros arch class new Hn Hk Hm Hc.
    assert (Hno : ~ exists q, q ∈ table' /\ ours inp q = true /\ p_AutoKey q = key).
    { intros (q & Hl & Ho & <-). destruct (oursOf_is_Some inp fleet table' previous' q Hl Ho) as [? E]. congruence. }
    destruct (oursOf (passInput inp fleet table previous) !! key) as [p|] eqn:Ho.
    + apply oursOf_lookup in Ho as (Hl & Ho & <-). destruct Hno. by eapply so_far_ours.
    + apply autoCollision_None, (collides_so_far _ _ _ _ _ _ _ Hs) in Hc. rewrite <- (autoCollision_None inp fleet table previous) in Hc.
      pose proof (Hcr key arch class new Ho Hk Hm Hc) as Hw. destruct Hs as (pre & rows & -> & _ & _ & Hmade).
      destruct (Hmade key Hw) as [E|E]; [by apply Exists_nil in E|]. apply Exists_exists in E as (row & Hrow & Hrc). destruct Hno.
      destruct (created_row _ _ _ _ Hrc) as (Hf & Hi & Hkey). exists row. split; [apply elem_of_app; by right|]. split; [|done].
      unfold ours. by rewrite Hf, Hi, str_eqb_refl.
  - eexists. split; [reflexivity|]. cbn [ap_Changes]. rewrite Ec, app_nil_r. reflexivity.
Qed.
