(* ===== verification/Pools.v ===== *)
(** * One pool's decision (scheduler.go: decidePool)

    [reap] takes out the runners the pool can no longer count on, [disable] and
    [scaleDown] drain what is not wanted, and [decidePool] works out the size the
    pool is aiming at.  Nothing here stops a runner with a job on it
    ([Decide.no_action_stops_a_running_job]). *)
From Stdlib Require Import ZArith Lia Ascii String.
From stdpp Require Import base strings list gmap.
From S2P Require Import Prelude GoFloat GoString Store Phrases Resources History Plan.
Local Open Scope string_scope.
Local Open Scope list_scope.
Local Open Scope Z_scope.

Definition failedRetention : Duration := 10 * Minute.
Definition startBackoff : Duration := 10 * Second.
Definition maxStartBackoff : Duration := 5 * Minute.
Definition startBackoffJitter : float64 := Eval vm_compute in f64_lit 2 10.

Definition failedAt (r : Runner) : Time := default (r_CreatedAt r) (r_FinishedAt r).
Definition idleSince (r : Runner) : Time := default (r_CreatedAt r) (r_LastIdleAt r).
Definition drainingFor (r : Runner) (now : Time) : Duration :=
  match r_DrainingSince r with Some s => Time_Sub now s | None => Runner_Age r now end.
Definition staleImage (p : Pool) (r : Runner) : bool :=
  nonempty (p_Image p) && nonempty (r_Image r) && negb (str_eqb (r_Image r) (p_Image p)).

(** ** Start failures *)
Definition startFailed (now : Time) (r : Runner) : bool :=
  is_state (r_State r) RunnerFailed && negb (isSome (r_RegisteredAt r)) &&
  (Time_Sub now (failedAt r) <? failedRetention).

Definition startFailures (runners : list Runner) (now : Time) : list Runner :=
  SortStableFunc (cmp_rev (cmp_on failedAt Z.compare)) (List.filter (startFailed now) runners).

Definition recentBusyHosts (runners : list Runner) (now : Time) : gset string :=
  list_to_set (r_HostID <$> List.filter (fun r =>
    str_eqb (r_FaultKind r) FaultBackendBusy && nonempty (r_HostID r)) (startFailures runners now)).

Definition jittered (d : Duration) (f : float64) : Duration :=
  if (f <=? f64_zero)%f64 then d else
  let f := if (f >? f64_of_Z 1)%f64 then f64_of_Z 1 else f in
  d +% f64_to_int (f64_of_Z d * startBackoffJitter * f)%f64.

(** The wait after [n] failures: it doubles with each of them, up to the ceiling. *)
Definition backoffWait (n : Z) : Duration :=
  let shift := n - 1 in
  if (shift <? 8) && (Z.shiftl startBackoff shift <? maxStartBackoff) then Z.shiftl startBackoff shift
  else maxStartBackoff.

Definition holdAfterStartFailures (t : tick) (p : Pool) (runners : list Runner) : string * string :=
  match startFailures runners (t_now t) with
  | [] => ("", "")
  | last :: more =>
      let n := Z.of_nat (length (last :: more)) in
      let wait := jittered (backoffWait n) (map_get (t_jitter t) (p_ID p) f64_zero) in
      let since := Time_Sub (t_now t) (failedAt last) in
      if wait <=? since then ("", "") else
      let which := if 1 <? n then "the last " +:+ plural n "runner" else "the last runner" in
      (which +:+ " failed to start, most recently " +:+ formatDuration (Duration_Truncate since Second) +:+
       " ago (" +:+ summarise (r_Message last) +:+ "); trying again in " +:+
       formatDuration (Duration_Round (wait -% since) Second), r_FaultKind last)
  end.

Definition holdWhileRateLimited (t : tick) (p : Pool) : string :=
  match t_held t !! p_InstallationID p with
  | Some until =>
      if negb (Time_Before (t_now t) until) then ""
      else "GitHub is rate-limiting this pool's installation; not asking it to register runners for " +:+
           formatDuration (Duration_Round (Time_Sub until (t_now t)) Second)
  | None => ""
  end.

(** ** The reap *)
Definition running (t : tick) (r : Runner) : bool := map_get (t_stillRunning t) (r_ID r) false.

(** The arm of [reap]'s switch a runner falls in. *)
Inductive reaped := RGone | RKeptFailed | RRemove (a : Action) | RFail (a : Action) | RRetire (a : Action) | RRemains.

Definition reapOne (t : tick) (p : Pool) (r : Runner) : reaped :=
  let pol := Policy_For (t_policy t) p in
  let now := t_now t in
  let age := Runner_Age r now in
  let untouchable := is_state (r_State r) RunnerBusy || is_state (r_State r) RunnerDraining || running t r in
  if is_state (r_State r) RunnerRemoved then RGone
  else if is_state (r_State r) RunnerFailed then
    if (failedRetention <=? Time_Sub now (failedAt r)) && negb (running t r) then
      RRemove (action ActionRemove p r
        ("runner failed " +:+ formatDuration (Duration_Truncate (Time_Sub now (failedAt r)) Minute) +:+
         " ago; its failure has been on the Runners page long enough"))
    else RKeptFailed
  else if starting r && (0 <? pol_ProvisionTimeout pol) && (pol_ProvisionTimeout pol <? age) then
    RFail (action ActionFail p r
      ("stuck in " +:+ RunnerState_string (r_State r) +:+ " for " +:+ formatDuration age +:+ ", past the " +:+
       formatDuration (pol_ProvisionTimeout pol) +:+ " provision timeout; check the host's agent log"))
  else if is_state (r_State r) RunnerDraining && str_eqb (r_CurrentJobID r) "" &&
          (0 <? pol_DrainTimeout pol) && (pol_DrainTimeout pol <? drainingFor r now) then
    RFail (action ActionFail p r
      ("draining with no job for " +:+ formatDuration (drainingFor r now) +:+ ", past the " +:+
       formatDuration (pol_DrainTimeout pol) +:+
       " drain timeout; its stop was never carried out, so the slot is being taken back"))
  else if (0 <? pol_MaxRunnerLifetime pol) && (pol_MaxRunnerLifetime pol <? age) && negb untouchable then
    RRetire (action ActionDrain p r
      ("runner reached the " +:+ formatDuration (pol_MaxRunnerLifetime pol) +:+ " maximum lifetime"))
  else if staleImage p r && negb untouchable then
    RRetire (action ActionDrain p r
      ("pool image is now " +:+ p_Image p +:+ "; this runner was made from " +:+ r_Image r))
  else RRemains.

Definition reap_removes (x : reaped) : option Action := match x with RRemove a => Some a | _ => None end.
Definition reap_fails (x : reaped) : option Action := match x with RFail a => Some a | _ => None end.
Definition reap_retires (x : reaped) : option Action := match x with RRetire a => Some a | _ => None end.
Definition reap_remains (x : reaped) : bool := match x with RRemains => true | _ => false end.

Definition reap (t : tick) (p : Pool) (runners : list Runner) : list Action * list Runner :=
  let out := reapOne t p <$> runners in
  ((omap reap_removes out ++ omap reap_fails out ++ omap reap_retires out)%list,
   List.filter (fun r => reap_remains (reapOne t p r)) runners).

(** ** Draining *)
(** [disable]: the runners it drains; a busy one is left alone. *)
Definition disabled (t : tick) (r : Runner) : bool :=
  negb (is_state (r_State r) RunnerBusy || is_state (r_State r) RunnerDraining || running t r).

Definition starting_cmp : Runner -> Runner -> comparison :=
  cmp_lex (cmp_on (fun r => is_state (r_State r) RunnerProvisioning) cmp_flag)
          (cmp_lex (cmp_rev (cmp_on r_CreatedAt Z.compare)) (cmp_on r_ID strings_Compare)).

Definition unneededStarting (t : tick) (runners : list Runner) : list Runner :=
  SortStableFunc starting_cmp (List.filter (fun r => starting r && negb (running t r)) runners).

Definition drainable (t : tick) (p : Pool) (runners : list Runner) : list Runner :=
  SortStableFunc (cmp_on idleSince Z.compare)
    (List.filter (fun r => is_state (r_State r) RunnerIdle && (p_IdleTimeout p <=? IdleFor r (t_now t)) &&
                           negb (running t r)) runners).

(** [scaleDown]: the actions, and the sentence where anything was stopped. *)
Definition scaleDown (t : tick) (p : Pool) (desired : Z) (remaining : list Runner) (live : Z)
  : list Action * string :=
  let surplus := live - Z.max desired (p_MinRunners p) in
  if surplus <=? 0 then ([], "") else
  let start := unneededStarting t remaining in
  let stopStarting := Z.min surplus (Z.of_nat (length start)) in
  let drops := (fun r => action ActionDrain p r "queued demand disappeared before this runner finished starting")
                 <$> take (Z.to_nat stopStarting) start in
  let surplus := surplus - stopStarting in
  let idle := drainable t p remaining in
  let stopIdle := Z.min surplus (Z.of_nat (length idle)) in
  let timeout := p_IdleTimeout p in
  let drains := (fun r => action ActionDrain p r
      (if 0 <? timeout then "idle for " +:+ formatDuration (IdleFor r (t_now t)) +:+ ", over the " +:+
                            formatDuration timeout +:+ " idle timeout"
       else "surplus idle runner")) <$> take (Z.to_nat stopIdle) idle in
  let stopped := stopStarting + stopIdle in
  let reasons := ((if 0 <? stopStarting
                   then [plural stopStarting "runner" +:+ " still starting after demand disappeared"] else []) ++
                  (if 0 <? stopIdle
                   then [plural stopIdle "runner" +:+ " idle" +:+
                         (if 0 <? timeout then " > " +:+ formatDuration timeout else "")] else []))%list in
  ((drops ++ drains)%list,
   if stopped =? 0 then "" else scaled (p_Name p) live (live - stopped) (strings_Join reasons " and ")).

(** ** Demand *)
Record demandState := { ds_eligible : Z; ds_deferred : Z; ds_repos : gset string; ds_admitted : gmap string Z }.

Definition repoKey (poolID repo : string) : string := poolID +:+ String Ascii.zero repo.

(** The job is still inside the scale-up delay. *)
Definition delayed (t : tick) (p : Pool) (j : Job) : bool :=
  negb (j_ProvisionNow j) && (Time_Sub (t_now t) (j_QueuedAt j) <? pol_ScaleUpDelay (Policy_For (t_policy t) p)).

Definition count_demand (t : tick) (p : Pool) (s : demandState) (j : Job) : demandState :=
  if delayed t p j then s
  else if (0 <? p_RepositoryScaleUpLimit p) &&
          (p_RepositoryScaleUpLimit p <=?
             map_get (t_activeByRepository t) (repoKey (p_ID p) (j_Repo j)) 0 +% map_get (ds_admitted s) (j_Repo j) 0)
  then {| ds_eligible := ds_eligible s; ds_deferred := ds_deferred s + 1;
          ds_repos := {[ j_Repo j ]} ∪ ds_repos s; ds_admitted := ds_admitted s |}
  else {| ds_eligible := ds_eligible s + 1; ds_deferred := ds_deferred s; ds_repos := ds_repos s;
          ds_admitted := <[j_Repo j := map_get (ds_admitted s) (j_Repo j) 0 + 1]> (ds_admitted s) |}.

Definition demandOf (t : tick) (p : Pool) (queued : list Job) : demandState :=
  foldl (count_demand t p) {| ds_eligible := 0; ds_deferred := 0; ds_repos := ∅; ds_admitted := ∅ |} queued.

(** ** The decision

    An enabled pool's slice is read through without asking for nil (the start
    failures), so a nil entry there panics: [None]. *)
Definition decidePool (t : tick) (p : Pool) (runners : list (option Runner)) (queued : list Job) : option PoolPlan :=
  let '(actions, remaining) := reap t p (sortedRunners runners) in
  let live := countb (fun r => Live (r_State r)) remaining in
  let busy := countb (fun r => is_state (r_State r) RunnerBusy) remaining in
  let draining := countb (fun r => is_state (r_State r) RunnerDraining) remaining in
  let base desired eligible deferred repos failing fault held acts reason :=
    {| pp_PoolID := p_ID p; pp_PoolName := p_Name p; pp_Current := live; pp_Desired := desired;
       pp_QueuedMatched := Z.of_nat (length queued); pp_QuotaDeferredJobs := deferred;
       pp_QuotaDeferredRepositories := repos; pp_eligible := eligible; pp_supply := live - busy - draining;
       pp_Unserved := 0; pp_Reason := reason; pp_Blocked := ""; pp_BlockedFix := ""; pp_BlockedAtCapacity := false;
       pp_BlockedNoEligibleHost := false; pp_BlockedAlternatives := []; pp_Failing := failing;
       pp_FailingFault := fault; pp_Held := held; pp_History := ""; pp_HistoryUnfit := ""; pp_Actions := acts |} in
  if negb (p_Enabled p) then
    let drained := List.filter (disabled t) remaining in
    let n := Z.of_nat (length drained) in
    Some (base 0 0 0 [] "" "" ""
            (actions ++ ((fun r => action ActionDrain p r "pool is disabled") <$> drained))%list
            (if 0 <? n then scaled (p_Name p) live (live - n) "pool is disabled" else ""))
  else
    match derefs runners with
    | None => None
    | Some all =>
        let d := demandOf t p queued in
        let desired := clamp (Z.max (p_MinRunners p) (busy + draining + ds_eligible d)) (p_MinRunners p) (p_MaxRunners p) in
        let '(failing, fault) := holdAfterStartFailures t p all in
        let '(downs, reason) := if desired <? live then scaleDown t p desired remaining live else ([], "") in
        Some (base desired (ds_eligible d) (ds_deferred d)
                (SortStableFunc strings_Compare (elements (ds_repos d)))
                failing fault (holdWhileRateLimited t p) (actions ++ downs)%list reason)
    end.

(** ** Every action is safe *)

(** What an action may do to a runner: a drain or a removal never reaches a busy
    runner or one a job is known to be running on, and a failure only one that never
    came up or that is draining with no job. *)
Definition safe (t : tick) (r : Runner) (k : ActionKind) : Prop :=
  match k with
  | ActionCreate => False
  | ActionDrain => r_State r <> RunnerBusy /\ r_State r <> RunnerDraining /\ Live (r_State r) = true /\ running t r = false
  | ActionRemove => r_State r = RunnerFailed /\ running t r = false
  | ActionFail => starting r = true \/ (r_State r = RunnerDraining /\ r_CurrentJobID r = "")
  end.

(** An action of a pool on one of its runners. *)
Definition acts_on (t : tick) (p : Pool) (runners : list Runner) (a : Action) : Prop :=
  exists r, r ∈ runners /\ a_RunnerID a = r_ID r /\ a_PoolID a = p_ID p /\ safe t r (a_Kind a).

Lemma is_state_true s u : is_state s u = true <-> s = u.
Proof. apply bool_decide_eq_true. Qed.
Lemma is_state_false s u : is_state s u = false <-> s <> u.
Proof. apply bool_decide_eq_false. Qed.

Ltac states_to_prop :=
  bool_to_prop;
  repeat match goal with
  | H : is_state _ _ = true |- _ => apply is_state_true in H
  | H : is_state _ _ = false |- _ => apply is_state_false in H
  | H : str_eqb _ _ = true |- _ => apply bool_decide_eq_true in H
  | H : str_eqb _ _ = false |- _ => apply bool_decide_eq_false in H
  end.

Lemma live_iff s : s <> RunnerRemoved -> s <> RunnerFailed -> Live s = true.
Proof. by destruct s. Qed.

Lemma reapOne_safe t p r :
  match reapOne t p r with
  | RRemove a => a = action ActionRemove p r (a_Reason a) /\ safe t r ActionRemove
  | RFail a => a = action ActionFail p r (a_Reason a) /\ safe t r ActionFail
  | RRetire a => a = action ActionDrain p r (a_Reason a) /\ safe t r ActionDrain
  | RRemains => Live (r_State r) = true
  | RGone => r_State r = RunnerRemoved
  | RKeptFailed => r_State r = RunnerFailed
  end.
Proof.
  unfold reapOne.
  destruct (is_state (r_State r) RunnerRemoved) eqn:E1; [by states_to_prop|].
  destruct (is_state (r_State r) RunnerFailed) eqn:E2.
  { destruct (_ && negb (running t r)) eqn:E3; simpl; states_to_prop; [by split_and!|done]. }
  apply is_state_false in E1, E2. pose proof (live_iff _ E1 E2) as Hl.
  repeat match goal with |- match (if ?b then _ else _) with RRemains => _ | _ => _ end => destruct b eqn:? end;
    simpl; states_to_prop; repeat split; auto.
Qed.

Lemma reap_acts t p runners a : a ∈ fst (reap t p runners) -> acts_on t p runners a.
Proof.
  unfold reap. simpl. rewrite !elem_of_app, !list_elem_of_omap. setoid_rewrite list_elem_of_fmap.
  intros [H|[H|H]]; destruct H as (x & (r & -> & Hr) & E); pose proof (reapOne_safe t p r) as Hs;
    destruct (reapOne t p r) as [| |b|b|b|]; try done; injection E as ->; destruct Hs as [Ea Hs];
    exists r; rewrite Ea; done.
Qed.

Lemma reap_remaining t p runners r :
  r ∈ snd (reap t p runners) -> r ∈ runners /\ Live (r_State r) = true.
Proof.
  unfold reap. simpl. rewrite elem_of_bfilter. intros [Hr E]. split; [done|].
  pose proof (reapOne_safe t p r). by destruct (reapOne t p r).
Qed.

Lemma disabled_safe t r : Live (r_State r) = true -> disabled t r = true -> safe t r ActionDrain.
Proof. unfold disabled. intros. simpl. by states_to_prop. Qed.

Lemma elem_of_take_subset {A} n (l : list A) x : x ∈ take n l -> x ∈ l.
Proof. intros H. rewrite <- (take_drop n l). apply elem_of_app. by left. Qed.

Lemma scaleDown_acts t p desired remaining live a :
  a ∈ fst (scaleDown t p desired remaining live) -> acts_on t p remaining a.
Proof.
  unfold scaleDown. case_match; [by intros ?%elem_of_nil|]. simpl.
  rewrite elem_of_app, !list_elem_of_fmap. intros [Ha|Ha]; destruct Ha as (r & -> & Hr);
    apply elem_of_take_subset in Hr; unfold unneededStarting, drainable in Hr;
    rewrite sort_elem_of, elem_of_bfilter in Hr; destruct Hr as [Hr Hs]; exists r; split_and!; try done; simpl.
  - unfold starting in Hs. bool_to_prop.
    apply orb_true_iff in H0 as [E|E]; apply is_state_true in E; rewrite E; done.
  - states_to_prop. by rewrite H0.
Qed.

(** ** What a decision says *)

(** A pool's plan before the creates are shared out. *)
Lemma decidePool_spec t p runners queued pp :
  decidePool t p runners queued = Some pp ->
  pp_PoolID pp = p_ID p /\ pp_PoolName pp = p_Name p /\
  pp_Blocked pp = "" /\
  0 <= pp_Current pp <= Z.of_nat (length (compact runners)) /\
  (p_Enabled p = false -> pp_Desired pp = 0) /\
  (p_Enabled p = true -> pp_Desired pp <= p_MaxRunners p /\
     (p_MinRunners p <= p_MaxRunners p -> p_MinRunners p <= pp_Desired pp)) /\
  (forall a, a ∈ pp_Actions pp -> acts_on t p (compact runners) a).
Proof.
  unfold decidePool. destruct (reap t p (sortedRunners runners)) as [actions remaining] eqn:Er.
  assert (Hacts : forall a, a ∈ actions -> acts_on t p (compact runners) a).
  { intros a Ha. pose proof (reap_acts t p (sortedRunners runners) a) as H. rewrite Er in H.
    destruct (H Ha) as (r & Hr & ?). exists r. split; [|done]. unfold sortedRunners in Hr. by rewrite sort_elem_of in Hr. }
  assert (Hrem : forall r, r ∈ remaining -> r ∈ compact runners /\ Live (r_State r) = true).
  { intros r Hr. pose proof (reap_remaining t p (sortedRunners runners) r) as H. rewrite Er in H.
    destruct (H Hr) as [H1 H2]. unfold sortedRunners in H1. by rewrite sort_elem_of in H1. }
  assert (Hcount : 0 <= countb (fun r => Live (r_State r)) remaining <= Z.of_nat (length (compact runners))).
  { split; [apply countb_nonneg|]. etrans; [apply countb_le_length|].
    assert (remaining = snd (reap t p (sortedRunners runners))) as -> by by rewrite Er.
    unfold reap. simpl. pose proof (List.filter_length_le (fun r => reap_remains (reapOne t p r)) (sortedRunners runners)) as Hf.
    unfold sortedRunners in *. rewrite sort_length in Hf. lia. }
  destruct (p_Enabled p) eqn:Ee; simpl.
  - destruct (derefs runners) as [all|]; [|done].
    destruct (holdAfterStartFailures t p all) as [failing fault].
    set (desired := clamp _ _ _).
    destruct (if desired <? _ then _ else _) as [downs reason] eqn:Ed. intros [= <-]. simpl.
    split_and!; try done; try lia.
    + intros _. subst desired. unfold clamp. destruct (Z.ltb_spec (p_MaxRunners p) (p_MinRunners p)); lia.
    + intros a. rewrite elem_of_app. intros [Ha|Ha]; [auto|].
      destruct (desired <? _); [|injection Ed as <- _; by apply elem_of_nil in Ha].
      pose proof (scaleDown_acts t p desired remaining (countb (fun r => Live (r_State r)) remaining) a) as H.
      rewrite Ed in H.
      destruct (H Ha) as (r & Hr & ?). exists r. split; [by apply Hrem|done].
  - intros [= <-]. simpl. split_and!; try done; try lia.
    intros a. rewrite elem_of_app, list_elem_of_fmap. intros [Ha|(r & -> & Hr)]; [auto|].
    apply elem_of_bfilter in Hr as [Hr Hd]. destruct (Hrem r Hr). exists r. split_and!; try done.
    by apply disabled_safe.
Qed.

Lemma decidePool_None t p runners queued :
  decidePool t p runners queued = None <-> p_Enabled p = true /\ None ∈ runners.
Proof.
  unfold decidePool. destruct (reap t p (sortedRunners runners)) as [actions remaining].
  destruct (p_Enabled p); simpl; [|naive_solver].
  rewrite <- derefs_None. destruct (derefs runners) as [all|]; [|naive_solver].
  destruct (holdAfterStartFailures t p all) as [failing fault].
  destruct (if _ <? _ then _ else _). naive_solver.
Qed.

(** ** The reap loses nobody *)
Definition reap_settled (x : reaped) : bool := match x with RGone | RKeptFailed => true | _ => false end.

(** The reap accounts for every runner once: each is removed, failed,
    retired, left to the pool, or was already gone or kept as a failure to read. *)
Theorem reap_partition (t : tick) (p : Pool) (runners : list Runner) :
  Permutation
    ((a_RunnerID <$> fst (reap t p runners)) ++ (r_ID <$> snd (reap t p runners)) ++
     (r_ID <$> List.filter (fun r => reap_settled (reapOne t p r)) runners))
    (r_ID <$> runners).
Proof.
  unfold reap. simpl. rewrite !fmap_app.
  induction runners as [|r l IH]; [done|]. csimpl. pose proof (reapOne_safe t p r) as Hs.
  rewrite <- IH. clear IH.
  destruct (reapOne t p r) as [| |a|a|a|]; simpl; try (destruct Hs as [Ea _]; rewrite Ea); csimpl;
    solve_Permutation.
Qed.

(** The wait after a failed start doubles with each failure still on
    the page, from ten seconds up to five minutes. *)
Theorem backoffWait_doubles (n : Z) :
  1 <= n -> backoffWait n = Z.min (startBackoff * 2 ^ (n - 1)) maxStartBackoff.
Proof.
  intros Hn. unfold backoffWait. rewrite Z.shiftl_mul_pow2 by lia.
  unfold startBackoff, maxStartBackoff, Minute, Second, Millisecond, Microsecond.
  destruct (Z.ltb_spec (n - 1) 8); simpl.
  - case_match; bool_to_prop; lia.
  - assert (2 ^ 8 <= 2 ^ (n - 1)) by (apply Z.pow_le_mono_r; lia). lia.
Qed.

(** ** Draining stops at what is wanted *)
Lemma length_take_Z {A} n (l : list A) : 0 <= n -> Z.of_nat (length (take (Z.to_nat n) l)) = Z.min n (Z.of_nat (length l)).
Proof. intros. rewrite length_take. lia. Qed.

Lemma take_nodup {A} n (l : list A) : NoDup l -> NoDup (take n l).
Proof. intros H. rewrite <- (take_drop n l) in H. by apply NoDup_app in H as (? & _). Qed.

Lemma starting_not_idle r : starting r = true -> is_state (r_State r) RunnerIdle = true -> False.
Proof.
  unfold starting. intros [H|H]%orb_true_iff I; apply is_state_true in H; apply is_state_true in I; congruence.
Qed.

(** Scaling down stops no more runners than the pool has past both
    what it wants and its minimum, drains every one of them, and names each once. *)
Theorem scaleDown_keeps_minimum (t : tick) (p : Pool) (desired : Z) (remaining : list Runner) (live : Z) :
  NoDup (r_ID <$> remaining) ->
  let stopped := fst (scaleDown t p desired remaining live) in
  Z.of_nat (length stopped) <= Z.max 0 (live - Z.max desired (p_MinRunners p)) /\
  Forall (fun a => a_Kind a = ActionDrain) stopped /\ NoDup (a_RunnerID <$> stopped).
Proof.
  intros Hnd. cbv zeta. unfold scaleDown.
  destruct (Z.leb_spec (live - Z.max desired (p_MinRunners p)) 0) as [|Hs]; simpl;
    [split_and!; [lia|constructor|constructor]|].
  set (surplus := live - Z.max desired (p_MinRunners p)) in *.
  set (start := unneededStarting t remaining). set (idle := drainable t p remaining).
  set (n1 := Z.min surplus (Z.of_nat (length start))). set (n2 := Z.min (surplus - n1) (Z.of_nat (length idle))).
  assert (H1 : 0 <= n1) by lia. assert (H2 : 0 <= n2) by lia.
  split_and!.
  - rewrite length_app, !length_fmap, Nat2Z.inj_add, !length_take_Z by done. lia.
  - apply Forall_app. split; apply Forall_fmap, Forall_true; done.
  - rewrite fmap_app, <- !list_fmap_compose. change (a_RunnerID ∘ _) with r_ID.
    apply NoDup_app. rewrite !fmap_take. split_and!.
    + apply take_nodup. unfold start, unneededStarting. rewrite sort_perm. by apply NoDup_key_filter.
    + intros x Hx1 Hx2. apply elem_of_take_subset in Hx1. apply elem_of_take_subset in Hx2.
      apply list_elem_of_fmap in Hx1 as (r & -> & Hr). apply list_elem_of_fmap in Hx2 as (r' & E & Hr').
      unfold start, unneededStarting, idle, drainable in *. rewrite sort_elem_of, elem_of_bfilter in Hr, Hr'.
      destruct Hr as [Hr Hst], Hr' as [Hr' Hid]. rewrite (NoDup_key r_ID _ _ _ Hnd Hr Hr' E) in Hst.
      bool_to_prop. by eapply starting_not_idle.
    + apply take_nodup. unfold idle, drainable. rewrite sort_perm. by apply NoDup_key_filter.
Qed.

(** ** The repository limit *)
(** Under a repository limit, the jobs of one repository that raise the
    size of a pool, with the runners already working for it, stay within the limit;
    and every queued job past the delay is counted, as demand or as deferred. *)
Theorem demand_within_quota (t : tick) (p : Pool) (queued : list Job) :
  0 < p_RepositoryScaleUpLimit p < 2 ^ 62 ->
  (forall repo, 0 <= map_get (t_activeByRepository t) (repoKey (p_ID p) repo) 0 <= 2 ^ 62) ->
  let d := demandOf t p queued in
  (forall repo, map_get (ds_admitted d) repo 0 <=
     Z.max 0 (p_RepositoryScaleUpLimit p - map_get (t_activeByRepository t) (repoKey (p_ID p) repo) 0)) /\
  ds_eligible d + ds_deferred d = countb (fun j => negb (delayed t p j)) queued.
Proof.
  intros Hl Ha. cbv zeta. unfold demandOf.
  assert (Hinv : let d := foldl (count_demand t p)
      {| ds_eligible := 0; ds_deferred := 0; ds_repos := ∅; ds_admitted := ∅ |} queued in
    (forall repo, 0 <= map_get (ds_admitted d) repo 0 <=
       Z.max 0 (p_RepositoryScaleUpLimit p - map_get (t_activeByRepository t) (repoKey (p_ID p) repo) 0)) /\
    ds_eligible d + ds_deferred d = countb (fun j => negb (delayed t p j)) queued).
  2:{ destruct Hinv as [H1 H2]. split; [|done]. intros repo. apply H1. }
  induction queued as [|j l IH] using rev_ind; [split; [|done]; intros repo; unfold map_get; simpl; rewrite lookup_empty; simpl; lia|].
  rewrite foldl_app, countb_app, countb_cons, countb_nil. destruct IH as [IH1 IH2].
  set (d := foldl _ _ l) in *. cbn [foldl]. unfold count_demand. destruct (delayed t p j); simpl; [split; [done|lia]|].
  destruct (Z.ltb_spec 0 (p_RepositoryScaleUpLimit p)) as [_|]; [|lia]. simpl.
  pose proof (IH1 (j_Repo j)) as Hj. pose proof (Ha (j_Repo j)) as Haj.
  rewrite wrap64_id by (unfold in_int64, int_min, int_max; lia).
  destruct (Z.leb_spec (p_RepositoryScaleUpLimit p)
    (map_get (t_activeByRepository t) (repoKey (p_ID p) (j_Repo j)) 0 + map_get (ds_admitted d) (j_Repo j) 0)); simpl;
    (split; [|lia]); [done|].
  intros repo. destruct (decide (j_Repo j = repo)) as [<- |Hne]; [rewrite map_get_insert; lia|].
  by rewrite map_get_insert_ne.
Qed.
