(* ===== verification/Allocate.v ===== *)
(** * Sharing out the creates (scheduler.go: allocate, shareAcrossTiers, grant)

    After every pool's size has been decided, creates are handed out one at a time:
    first one to each lower tier that has waited an interval, then tier by tier in
    order of priority, a round at a time within a tier. *)
From Stdlib Require Import ZArith Lia Ascii String.
From stdpp Require Import base strings list gmap.
From S2P Require Import Prelude GoFloat GoString Store Phrases Resources History Placement Plan Pools.
Local Open Scope string_scope.
Local Open Scope list_scope.
Local Open Scope Z_scope.

Definition upReason (p : Pool) (busy eligible : Z) (delay : Duration) : string :=
  if (eligible =? 0) || (busy + eligible <? p_MinRunners p) then
    "pool minimum is " +:+ plural (p_MinRunners p) "runner"
  else if delay <=? 0 then plural eligible "job" +:+ " queued"
  else plural eligible "job" +:+ " queued > " +:+ formatDuration delay.

Definition hs_with_need (hs : hostSet) (need : option Requirement) : hostSet :=
  {| hs_readiness := hs_readiness hs; hs_preferReadiness := hs_preferReadiness hs; hs_hosts := hs_hosts hs;
     hs_free := hs_free hs; hs_observedCPU := hs_observedCPU hs; hs_warming := hs_warming hs;
     hs_warmingDinD := hs_warmingDinD hs; hs_left := hs_left hs; hs_alloc := hs_alloc hs;
     hs_promisedMemory := hs_promisedMemory hs; hs_ours := hs_ours hs; hs_now := hs_now hs;
     hs_order := hs_order hs; hs_need := need |}.

(** What the queue is known to need, the note about what nothing can hold, and the
    hosts that would be held off for it. *)
Definition needOf (t : tick) (p : Pool) (plan : PoolPlan) (queued : list Job)
  : Requirement * PoolPlan * gmap string string :=
  if str_eqb (t_historySizing t) HistoryOn || str_eqb (t_historySizing t) HistoryShadow then
    let '(need, unfit) := poolNeed (t_hosts t) (t_history t) p queued in
    (need, pp_with_unfit plan unfit, if Known need then heldOff (t_hosts t) p need else ∅)
  else (zero_Requirement, plan, ∅).

(** The sentence a create carries. *)
Definition createReason (t : tick) (p : Pool) (plan : PoolPlan) (runners : list Runner) (queued : list Job)
    (pl : placement) : string :=
  let busy := countb (fun r => is_state (r_State r) RunnerBusy) runners in
  let expedited := existsb j_ProvisionNow queued in
  let delay := if expedited then 0 else pol_ScaleUpDelay (Policy_For (t_policy t) p) in
  upReason p busy (pp_eligible plan) delay +:+
  (if expedited then " (includes Run now demand)" else "") +:+
  (if 0 <? pp_QuotaDeferredJobs plan
   then " (" +:+ plural (pp_QuotaDeferredJobs plan) "job" +:+ " deferred by the repository limit for " +:+
        strings_Join (pp_QuotaDeferredRepositories plan) ", " +:+ ")" else "") +:+
  match pl_size pl with
  | None => ""
  | Some size =>
      let given := sizePhrase (rs_CPUs size) (rs_MemoryMB size) in
      if pl_raised pl then " (sized to " +:+ given +:+ ")"
      else if Automatic p
      then " (reduced to " +:+ given +:+ ": no host with a free slot had a whole share of it left)"
      else " (reduced to " +:+ given +:+ ": no host had room for the standard " +:+
           sizePhrase (rs_CPUs (p_Resources p)) (rs_MemoryMB (p_Resources p)) +:+ ")"
  end.

(** [grant]: one create, or the reason there is none.  [runners] is the pool's
    slice, which [decidePool] has read through already. *)
Definition grant (t : tick) (p : Pool) (plan : PoolPlan) (runners : list Runner) (queued : list Job)
  : tick * PoolPlan * bool :=
  let '(need, plan, off) := needOf t p plan queued in
  let enforce := str_eqb (t_historySizing t) HistoryOn && Known need in
  let hs := if enforce then hs_with_need (t_hosts t) (Some need) else t_hosts t in
  let '(hs, placed) := placeAvoiding hs p 1 (recentBusyHosts runners (t_now t)) in
  let hs := hs_with_need hs None in
  match placed with
  | [] =>
      let t := t_with_hosts t hs in
      let from := pp_Current plan + creates (pp_Actions plan) in
      if enforce && negb (bool_decide (off = ∅)) then
        let held := sortedPhrases hs off in
        (t, pp_with_blocked (pp_with_history plan held)
              (cannotScale (p_Name p) from (pp_Desired plan) held) held
              "wait for work on a larger host to finish, or add a host with that much room; the requirement is the jobs' own recent peaks, and scheduler.history_sizing=shadow places them as before"
              true (pp_BlockedNoEligibleHost plan) (pp_BlockedAlternatives plan), false)
      else
        let b := why hs p in
        (t, pp_with_blocked plan (cannotScale (p_Name p) from (pp_Desired plan) (sentence (bl_what b) (bl_fix b)))
              (bl_what b) (bl_fix b) (bl_atCapacity b) (bl_noEligibleHost b) (bl_alternatives b), false)
  | pl :: _ =>
      let reason := createReason t p plan runners queued pl in
      let '(plan, reason) :=
        if enforce then
          let held := sortedPhrases hs off in
          let note := "placed for the jobs waiting, which need " +:+ Requirement_String need +:+
                      (if nonempty held then "; " +:+ held else "") in
          (pp_with_history plan note, reason +:+ " (" +:+ note +:+ ")")
        else if Known need then
          match off !! pl_hostID pl with
          | Some held => (pp_with_history plan ("shadow: history sizing would have " +:+ held), reason)
          | None => (plan, reason)
          end
        else (plan, reason) in
      let a := {| a_Kind := ActionCreate; a_PoolID := p_ID p; a_PoolName := p_Name p; a_RunnerID := "";
                  a_HostID := pl_hostID pl; a_Reason := reason; a_Size := pl_size pl;
                  a_SizedFromHistory := pl_raised pl |} in
      let plan := pp_with_actions plan (pp_Actions plan ++ [a])%list in
      let plan := pp_with_reason plan
        (scaled (p_Name p) (pp_Current plan) (pp_Current plan + creates (pp_Actions plan)) reason) in
      (t_with_create t (t_creates t ++ [a])%list hs (t_budget t - 1), plan, true)
  end.

(** ** Tiers *)
Section Tiers.
Variable runners : gmap string (list (option Runner)).
Variable demand : gmap string (list Job).

Definition queue_of (p : Pool) : list Job := map_get demand (p_ID p) [].
Definition runners_of (p : Pool) : list Runner := compact (map_get runners (p_ID p) []).

(** When a runner of the pool was last made. *)
Definition latest (lastProvisioned : gmap string Time) (p : Pool) : Time :=
  foldl (fun last r => if Time_After (r_CreatedAt r) last then r_CreatedAt r else last)
        (map_get lastProvisioned (p_ID p) 0) (runners_of p).

Definition runNow (p : Pool) : bool := match queue_of p with j :: _ => j_ProvisionNow j | [] => false end.
Definition oldest (p : Pool) : option Time := j_QueuedAt <$> head (queue_of p).

(** The order of [allocate]: priority, explicit demand, least recently served,
    demand at all, the longest wait, and the ID. *)
Definition tier_cmp (lastProvisioned : gmap string Time) : Pool -> Pool -> comparison :=
  cmp_lex (cmp_rev (cmp_on p_Priority Z.compare))
  (cmp_lex (cmp_on runNow cmp_flag)
  (cmp_lex (cmp_on (latest lastProvisioned) Z.compare)
  (cmp_lex (cmp_on oldest (cmp_option Z.compare))
           (cmp_on p_ID strings_Compare)))).

(** The plans in the order of the pools, and [byID] into them: the last of an ID. *)
Definition byID (plans : list PoolPlan) : gmap string nat :=
  foldl (fun m '(i, pp) => <[pp_PoolID pp := i]> m) ∅ (imap pair plans).

Record allocState := { al_tick : tick; al_plans : list PoolPlan }.

Definition plan_at (index : gmap string nat) (plans : list PoolPlan) (p : Pool) : option (nat * PoolPlan) :=
  match index !! p_ID p with
  | Some i => (fun pp => (i, pp)) <$> plans !! i
  | None => None
  end.

(** The pool is aiming higher than what it has and has been given. *)
Definition wanting (pp : PoolPlan) : bool := pp_Current pp + creates (pp_Actions pp) <? pp_Desired pp.

Definition waitedAnInterval (t : tick) (queued : list Job) : bool :=
  existsb (fun j => negb (Time_IsZero (j_QueuedAt j)) &&
                    (pol_Interval (t_policy t) <=? Time_Sub (t_now t) (j_QueuedAt j))) queued.

Definition do_grant (st : allocState) (i : nat) (pp : PoolPlan) (p : Pool) : allocState * bool :=
  let '(t, pp, ok) := grant (al_tick st) p pp (runners_of p) (queue_of p) in
  ({| al_tick := t; al_plans := <[i := pp]> (al_plans st) |}, ok).

Variable index : gmap string nat.

Definition wants (st : allocState) (p : Pool) : bool :=
  match plan_at index (al_plans st) p with
  | Some (_, pp) => p_Enabled p && wanting pp && str_eqb (pp_Failing pp) "" && str_eqb (pp_Held pp) ""
  | None => false
  end.

Fixpoint share_loop (top : Z) (tiers : list Pool) (st : allocState) (granted floor : Z)
  : allocState * Z * Z :=
  match tiers with
  | [] => (st, granted, floor)
  | p :: tiers =>
      if t_budget (al_tick st) =? 0 then (st, granted, floor)
      else if (top <=? p_Priority p) || negb (wants st p) || negb (waitedAnInterval (al_tick st) (queue_of p))
      then share_loop top tiers st granted floor
      else match plan_at index (al_plans st) p with
           | Some (i, pp) =>
               let '(st, ok) := do_grant st i pp p in
               if ok then share_loop top tiers st (granted + 1) (p_Priority p)
               else share_loop top tiers st granted floor
           | None => share_loop top tiers st granted floor
           end
  end.

Definition shareAcrossTiers (tiers : list Pool) (st : allocState) : allocState * Z * Z :=
  let pol := t_policy (al_tick st) in
  if (pol_Interval pol <=? 0) || (pol_MaxCreatesPerTick pol <=? 0) then (st, 0, 0)
  else match List.find (wants st) tiers with
       | None => (st, 0, 0)
       | Some p => share_loop (p_Priority p) tiers st 0 0
       end.

(** One round over the pools of a tier, and those still wanting after it. *)
Fixpoint serve_round (active : list Pool) (st : allocState) : allocState * list Pool :=
  match active with
  | [] => (st, [])
  | p :: active =>
      match plan_at index (al_plans st) p with
      | None => serve_round active st
      | Some (i, pp) =>
          if negb (p_Enabled p) || negb (wanting pp) then serve_round active st
          else
            let why := firstNonEmpty (pp_Failing pp) (pp_Held pp) in
            if nonempty why then
              serve_round active
                {| al_tick := al_tick st;
                   al_plans := <[i := pp_with_reason pp
                                        (cannotScale (p_Name p) (pp_Current pp) (pp_Desired pp) why)]> (al_plans st) |}
            else
              let '(st, ok) := do_grant st i pp p in
              if negb ok then serve_round active st
              else
                let keep := match al_plans st !! i with Some pp => wanting pp | None => false end in
                if t_budget (al_tick st) =? 0 then (st, if keep then [p] else [])
                else let '(st, next) := serve_round active st in (st, if keep then p :: next else next)
      end
  end.

(** Rounds until nothing is left to serve.  A pool stays active only after a create,
    so a tier that wants [n] runners takes at most [n + 1] rounds ([serve_tier_done]). *)
Fixpoint serve_tier (fuel : nat) (active : list Pool) (st : allocState) : allocState * list Pool :=
  match fuel with
  | O => (st, active)
  | S fuel =>
      match active with
      | [] => (st, [])
      | _ =>
          if t_budget (al_tick st) <=? 0 then (st, active)
          else let '(st, next) := serve_round active st in serve_tier fuel next st
      end
  end.

Definition deficit (pp : PoolPlan) : nat :=
  Z.to_nat (pp_Desired pp - (pp_Current pp + creates (pp_Actions pp))).
Definition deficits (plans : list PoolPlan) : nat := sum_list (deficit <$> plans).

(** The runs of pools of one priority. *)
Fixpoint tiersOf (l : list Pool) : list (list Pool) :=
  match l with
  | [] => []
  | p :: l =>
      match tiersOf l with
      | (q :: g) :: gs => if p_Priority p =? p_Priority q then (p :: q :: g) :: gs else [p] :: (q :: g) :: gs
      | gs => [p] :: gs
      end
  end.

Fixpoint serve_tiers (tiers : list (list Pool)) (st : allocState) : allocState :=
  match tiers with
  | [] => st
  | tier :: tiers =>
      let '(st, _) := serve_tier (S (S (deficits (al_plans st)))) tier st in
      if t_budget (al_tick st) =? 0 then st else serve_tiers tiers st
  end.

(** The last loop: the reason a pool was left short. *)
Definition leftShort (shared floor : Z) (st : allocState) (p : Pool) : allocState :=
  match plan_at index (al_plans st) p with
  | None => st
  | Some (i, pp) =>
      let t := al_tick st in
      let pol := t_policy t in
      let got := creates (pp_Actions pp) in
      if negb (p_Enabled p) || negb (wanting pp) || nonempty (pp_Blocked pp) || nonempty (pp_Failing pp) ||
         nonempty (pp_Held pp) then st
      else
        let why :=
          if t_atCeiling t then
            "the fleet holds the " +:+ plural (pol_MaxRunners pol) "live runner" +:+
            " limits.runners allows; a runner ending makes room, or raise limits.runners"
          else if (0 <? shared) && (floor <? p_Priority p) then
            "deferred for fairness across priorities: " +:+ plural shared "create" +:+
            " of this tick's global limit of " +:+ plural (pol_MaxCreatesPerTick pol) "new runner" +:+
            " went to lower-priority pools whose jobs had waited a full scheduling interval; the next pass will continue"
          else
            "this tick's global limit of " +:+ plural (pol_MaxCreatesPerTick pol) "new runner" +:+
            " is exhausted; the next pass will continue" in
        {| al_tick := t;
           al_plans := <[i := pp_with_reason pp
                                (cannotScale (p_Name p) (pp_Current pp + got) (pp_Desired pp) why)]> (al_plans st) |}
  end.
End Tiers.

Definition allocate (t : tick) (pools : list Pool) (plans : list PoolPlan)
    (runners : gmap string (list (option Runner))) (demand : gmap string (list Job)) : allocState :=
  let tiers := SortStableFunc (tier_cmp runners demand (t_lastProvisioned t)) pools in
  let index := byID plans in
  let '(st, shared, floor) :=
    shareAcrossTiers runners demand index tiers {| al_tick := t; al_plans := plans |} in
  let st := serve_tiers runners demand index (tiersOf tiers) st in
  foldl (leftShort index shared floor) st pools.

(** ** What a grant does *)

(** The parts of a plan no grant touches. *)
Definition same_pool (pp pp' : PoolPlan) : Prop :=
  pp_PoolID pp' = pp_PoolID pp /\ pp_Current pp' = pp_Current pp /\ pp_Desired pp' = pp_Desired pp /\
  pp_Failing pp' = pp_Failing pp /\ pp_Held pp' = pp_Held pp /\
  pp_eligible pp' = pp_eligible pp /\ pp_supply pp' = pp_supply pp.

(** The parts of a tick no grant touches. *)
Definition same_tick (t t' : tick) : Prop :=
  t_now t' = t_now t /\ t_policy t' = t_policy t /\ t_atCeiling t' = t_atCeiling t /\
  t_stillRunning t' = t_stillRunning t /\ t_history t' = t_history t /\ t_historySizing t' = t_historySizing t.

Lemma needOf_same t p plan queued need plan' off :
  needOf t p plan queued = (need, plan', off) ->
  same_pool plan plan' /\ pp_Actions plan' = pp_Actions plan /\ pp_Blocked plan' = pp_Blocked plan.
Proof.
  unfold needOf. case_match; [destruct (poolNeed _ _ _ _)|]; intros [= _ <- _]; repeat split.
Qed.

(** The held-off hosts come with their sentences. *)
Lemma heldOff_phrases hs p need :
  heldOff hs p need <> ∅ -> sortedPhrases hs (heldOff hs p need) <> "".
Proof.
  intros Hne. unfold heldOff in *.
  set (step m h := if negb (eligibleAsSized hs h p) then m
                   else let s := shortOf hs h p need in if nonempty s then <[h_ID h := s]> m else m) in *.
  assert (Hinv : forall k s, foldl step ∅ (hs_hosts hs) !! k = Some s ->
    s <> "" /\ exists h, h ∈ hs_hosts hs /\ h_ID h = k).
  { apply (foldl_invariant (fun m : gmap string string => forall k s, m !! k = Some s ->
      s <> "" /\ exists h, h ∈ hs_hosts hs /\ h_ID h = k)); [done|].
    intros m h IH Hh k s. unfold step. case_match; [apply IH|]. cbv zeta. case_match eqn:En; [|apply IH].
    rewrite lookup_insert. case_decide; [|apply IH]. intros [= <-].
    split; [|by exists h]. intros E. rewrite E in En. done. }
  destruct (map_choose _ Hne) as (k & s & Hk). destruct (Hinv k s Hk) as (Hs & h & Hh & Hid).
  unfold sortedPhrases.
  assert (Hom : s ∈ omap (fun h => foldl step ∅ (hs_hosts hs) !! h_ID h) (hs_hosts hs)).
  { apply list_elem_of_omap. exists h. split; [done|]. by rewrite Hid. }
  destruct (omap _ _) as [|x l] eqn:El; [by apply elem_of_nil in Hom|].
  assert (Hx : x <> "").
  { assert (x ∈ omap (fun h => foldl step ∅ (hs_hosts hs) !! h_ID h) (hs_hosts hs)) as Hx by (rewrite El; left).
    apply list_elem_of_omap in Hx as (h' & _ & Hx). by apply Hinv in Hx as [? _]. }
  unfold strings_Join. destruct x as [|c x]; [done|]. by destruct l.
Qed.

Lemma why_what_nonempty hs p : bl_what (why hs p) <> "".
Proof.
  unfold why. destruct (hs_hosts hs); [done|]. destruct (whyFix _ _ _). cbn [bl_what].
  destruct (nonempty (default _ _)); done.
Qed.

(** When the requirement binds, the hosts named are those held off for it. *)
Lemma needOf_enforced t p plan queued need plan' off :
  needOf t p plan queued = (need, plan', off) ->
  str_eqb (t_historySizing t) HistoryOn && Known need = true -> off = heldOff (t_hosts t) p need.
Proof.
  unfold needOf. intros H [Ho Hk]%andb_true_iff. rewrite Ho in H. cbn [orb] in H.
  destruct (poolNeed _ _ _ _) as [need0 unfit]. injection H as <- _ <-. by rewrite Hk.
Qed.

(** The requirement a create of the pool has to meet: none, unless sizing by history is
    on and what the jobs waiting need is known. *)
Definition enforcedNeed (sizing : string) (history : gmap JobUsageKey (list JobPeak)) (hs : hostSet)
    (p : Pool) (queued : list Job) : option Requirement :=
  if str_eqb sizing HistoryOn && Known (fst (poolNeed hs history p queued))
  then Some (fst (poolNeed hs history p queued)) else None.

Lemma needOf_need t p plan queued need plan' off :
  needOf t p plan queued = (need, plan', off) ->
  (if str_eqb (t_historySizing t) HistoryOn && Known need then Some need else None) =
    enforcedNeed (t_historySizing t) (t_history t) (t_hosts t) p queued.
Proof.
  unfold needOf, enforcedNeed. destruct (str_eqb (t_historySizing t) HistoryOn) eqn:E; simpl.
  - destruct (poolNeed _ _ _ _) as [need0 unfit]. by intros [= <- _ _].
  - done.
Qed.

(** A grant either makes one create, on a host [choose] gave it, or says why it made
    none. *)
Inductive granted (rs : list Runner) (queued : list Job) (t : tick) (p : Pool) (plan : PoolPlan) : tick -> PoolPlan -> bool -> Prop :=
  | granted_one t' plan' need avoid h res size raised a :
      same_tick t t' -> same_pool plan plan' ->
      need = enforcedNeed (t_historySizing t) (t_history t) (t_hosts t) p queued ->
      avoid = recentBusyHosts rs (t_now t) ->
      choose (hs_with_need (t_hosts t) need) p avoid = Some (h, res, size, raised) ->
      t_hosts t' = hs_with_need (takeSlot (hs_with_need (t_hosts t) need) h p res) None ->
      a_Kind a = ActionCreate -> a_PoolID a = p_ID p -> a_HostID a = h_ID h -> a_Size a = size ->
      t_creates t' = t_creates t ++ [a] -> t_budget t' = t_budget t - 1 ->
      pp_Actions plan' = pp_Actions plan ++ [a] -> pp_Blocked plan' = pp_Blocked plan ->
      granted rs queued t p plan t' plan' true
  | granted_none t' plan' :
      same_tick t t' -> same_pool plan plan' ->
      t_hosts t' = hs_with_need (t_hosts t) None ->
      t_creates t' = t_creates t -> t_budget t' = t_budget t ->
      pp_Actions plan' = pp_Actions plan -> pp_Blocked plan' <> "" ->
      granted rs queued t p plan t' plan' false.

Lemma hs_with_need_id hs : hs_with_need hs (hs_need hs) = hs.
Proof. by destruct hs. Qed.

Lemma grant_granted t p plan runners queued t' plan' ok :
  hs_need (t_hosts t) = None ->
  grant t p plan runners queued = (t', plan', ok) -> granted runners queued t p plan t' plan' ok.
Proof.
  intros Hnone. unfold grant. destruct (needOf t p plan queued) as [[need plan0] off] eqn:En.
  destruct (needOf_same _ _ _ _ _ _ _ En) as (Hs & Ha & Hb).
  set (enforce := str_eqb (t_historySizing t) HistoryOn && Known need).
  set (nd := if enforce then Some need else None).
  assert ((if enforce then hs_with_need (t_hosts t) (Some need) else t_hosts t) = hs_with_need (t_hosts t) nd) as ->.
  { subst nd. destruct enforce; [done|]. rewrite <- Hnone. by rewrite hs_with_need_id. }
  set (avoid := recentBusyHosts runners (t_now t)). cbn [placeAvoiding].
  destruct (choose (hs_with_need (t_hosts t) nd) p avoid) as [[[[h res] size] raised]|] eqn:Ec; simpl.
  - set (pl := {| pl_hostID := h_ID h; pl_size := size; pl_raised := raised |}).
    match goal with |- (let '(_, _) := ?x in _) = _ -> _ => destruct x as [plan1 reason] eqn:Er end. intros [= <- <- <-].
    assert (H1 : same_pool plan0 plan1 /\ pp_Actions plan1 = pp_Actions plan0 /\ pp_Blocked plan1 = pp_Blocked plan0).
    { destruct enforce; [injection Er as <- _; repeat split|].
      destruct (Known need); [|injection Er as <- _; repeat split].
      destruct (off !! _); injection Er as <- _; repeat split. }
    destruct H1 as (Hs1 & Ha1 & Hb1).
    eapply (granted_one _ _ _ _ _ _ _ nd avoid h res size raised); try done.
    all: try done.
    + unfold same_pool in *. simpl. intuition congruence.
    + by eapply needOf_need.
    + simpl. by rewrite Ha1, Ha.
    + simpl. by rewrite Hb1, Hb.
  - assert (Hfin : hs_with_need (hs_with_need (t_hosts t) nd) None = hs_with_need (t_hosts t) None) by done.
    rewrite Hfin. case_match eqn:Eo; intros [= <- <- <-]; apply granted_none; try done; simpl.
    + apply andb_true_iff in Eo as [Ee Eo]. apply negb_true_iff, bool_decide_eq_false in Eo.
      rewrite (needOf_enforced _ _ _ _ _ _ _ En Ee) in *. by apply (heldOff_phrases (t_hosts t)).
    + apply why_what_nonempty.
Qed.

Lemma firstNonEmpty_empty a b : firstNonEmpty a b = "" -> a = "" /\ b = "".
Proof. unfold firstNonEmpty, str_eqb. case_bool_decide; [by subst|done]. Qed.

(** ** The creates as steps

    A pass over the pools is a sequence of grants, each to an enabled pool that is
    still short, is not failing or held, while there is budget; and of notes, which
    change a sentence.  What holds of every step holds of the whole allocation
    ([allocate_invariant]). *)
Section Steps.
Variable runners : gmap string (list (option Runner)).
Variable demand : gmap string (list Job).
Variable index : gmap string nat.
Variable pools : list Pool.

Inductive astep : allocState -> allocState -> Prop :=
  | step_grant st i pp p t' pp' ok :
      p ∈ pools -> plan_at index (al_plans st) p = Some (i, pp) ->
      p_Enabled p = true -> wanting pp = true -> pp_Failing pp = "" -> pp_Held pp = "" ->
      0 < t_budget (al_tick st) -> granted (runners_of runners p) (queue_of demand p) (al_tick st) p pp t' pp' ok ->
      astep st {| al_tick := t'; al_plans := <[i := pp']> (al_plans st) |}
  | step_note st i pp reason :
      al_plans st !! i = Some pp ->
      astep st {| al_tick := al_tick st; al_plans := <[i := pp_with_reason pp reason]> (al_plans st) |}.

(** What the loops rely on between two grants. *)
Definition ready (st : allocState) : Prop :=
  hs_need (t_hosts (al_tick st)) = None /\ 0 <= t_budget (al_tick st).

Lemma astep_ready st st' : astep st st' -> ready st -> ready st'.
Proof.
  unfold ready. intros H [Hn Hb]. destruct H as [st i pp p t' pp' ok Hp Hi He Hw Hf Hh Hpos Hg|]; [|done]. simpl.
  destruct Hg; repeat match goal with E : t_hosts _ = _ |- _ => rewrite E; clear E | E : t_budget _ = _ |- _ => rewrite E; clear E end;
    split; (done || lia).
Qed.

Lemma rtc_ready st st' : rtc astep st st' -> ready st -> ready st'.
Proof. induction 1; eauto using astep_ready. Qed.

Lemma plan_at_lookup plans p i pp : plan_at index plans p = Some (i, pp) -> plans !! i = Some pp.
Proof.
  unfold plan_at. destruct (index !! p_ID p) as [j|]; [|done]. destruct (plans !! j) eqn:E; [|done].
  by intros [= <- <-].
Qed.

Lemma do_grant_step st i pp p st' ok :
  ready st -> p ∈ pools -> plan_at index (al_plans st) p = Some (i, pp) ->
  p_Enabled p = true -> wanting pp = true -> pp_Failing pp = "" -> pp_Held pp = "" ->
  0 < t_budget (al_tick st) ->
  do_grant runners demand st i pp p = (st', ok) -> astep st st'.
Proof.
  intros [Hn _] Hp Hi He Hw Hf Hh Hb. unfold do_grant.
  destruct (grant _ _ _ _ _) as [[t' pp'] ok'] eqn:Eg. intros [= <- _].
  eapply step_grant; eauto using grant_granted.
Qed.

Lemma share_loop_steps top tiers st g f :
  ready st -> (forall p, p ∈ tiers -> p ∈ pools) ->
  rtc astep st (fst (fst (share_loop runners demand index top tiers st g f))).
Proof.
  revert st g f. induction tiers as [|p tiers IH]; intros st g f Hr Hin; [done|]. simpl.
  assert (IH' : forall st' g f, rtc astep st st' ->
    rtc astep st (fst (fst (share_loop runners demand index top tiers st' g f)))).
  { intros st' g' f' Hst. etrans; [exact Hst|]. apply IH; [by eapply rtc_ready|].
    intros q Hq. apply Hin. by right. }
  destruct (Z.eqb_spec (t_budget (al_tick st)) 0) as [|Hb]; [done|].
  destruct (_ || _) eqn:Ew; [by apply IH'|].
  apply orb_false_iff in Ew as [Ew _]. apply orb_false_iff in Ew as [_ Ew]. apply negb_false_iff in Ew.
  unfold wants in Ew. destruct (plan_at index (al_plans st) p) as [[i pp]|] eqn:Ei; [|done].
  apply andb_true_iff in Ew as [Ew Eh]. apply andb_true_iff in Ew as [Ew Ef]. apply andb_true_iff in Ew as [Ee Ew].
  apply bool_decide_eq_true in Eh, Ef.
  destruct (do_grant runners demand st i pp p) as [st' ok] eqn:Eg.
  assert (Hs : rtc astep st st').
  { apply rtc_once. eapply do_grant_step; eauto; [apply Hin; left|destruct Hr; lia]. }
  by destruct ok; apply IH'.
Qed.

Lemma shareAcrossTiers_steps tiers st :
  ready st -> (forall p, p ∈ tiers -> p ∈ pools) ->
  rtc astep st (fst (fst (shareAcrossTiers runners demand index tiers st))).
Proof.
  intros Hr Hin. unfold shareAcrossTiers. destruct (_ || _); [done|].
  destruct (List.find _ tiers); [by apply share_loop_steps|done].
Qed.

Lemma serve_round_steps active st :
  ready st -> 0 < t_budget (al_tick st) -> (forall p, p ∈ active -> p ∈ pools) ->
  rtc astep st (fst (serve_round runners demand index active st)) /\
  (forall p, p ∈ snd (serve_round runners demand index active st) -> p ∈ active).
Proof.
  revert st. induction active as [|p active IH]; intros st Hr Hb Hin; [done|]. simpl.
  assert (IH' : forall st', rtc astep st st' -> 0 < t_budget (al_tick st') ->
    rtc astep st (fst (serve_round runners demand index active st')) /\
    (forall q, q ∈ snd (serve_round runners demand index active st') -> q ∈ p :: active)).
  { intros st' Hst Hb'. destruct (IH st') as [H1 H2]; [by eapply rtc_ready|done|intros; apply Hin; by right|].
    split; [by etrans|]. intros q Hq. right. auto. }
  destruct (plan_at index (al_plans st) p) as [[i pp]|] eqn:Ei; [|by apply IH'].
  destruct (negb (p_Enabled p) || negb (wanting pp)) eqn:Ew; [by apply IH'|].
  apply orb_false_iff in Ew as [Ee Ew]. apply negb_false_iff in Ee, Ew.
  destruct (nonempty (firstNonEmpty (pp_Failing pp) (pp_Held pp))) eqn:En.
  { apply IH'; [|done]. apply rtc_once, step_note. by eapply plan_at_lookup. }
  apply nonempty_false, firstNonEmpty_empty in En as [Ef Eh].
  destruct (do_grant runners demand st i pp p) as [st' ok] eqn:Eg.
  assert (Hs : astep st st') by (eapply do_grant_step; eauto; apply Hin; left).
  assert (Hr' : ready st') by by eapply astep_ready.
  destruct ok; simpl.
  - destruct (Z.eqb_spec (t_budget (al_tick st')) 0) as [|Hb']; simpl.
    + split; [by apply rtc_once|]. intros q.
      destruct (match al_plans st' !! i with Some pp0 => wanting pp0 | None => false end);
        [intros ->%list_elem_of_singleton; left|by intros ?%elem_of_nil].
    + destruct (IH' st') as [H1 H2]; [by apply rtc_once|destruct Hr'; lia|].
      destruct (serve_round _ _ _ active st') as [st'' next]. split; [done|]. simpl in *. intros q.
      destruct (match al_plans st' !! i with Some pp0 => wanting pp0 | None => false end); [|auto].
      intros [-> |?]%elem_of_cons; [left|auto].
  - apply IH'; [by apply rtc_once|].
    unfold do_grant in Eg. destruct (grant _ _ _ _ _) as [[t' pp'] ok'] eqn:Egr. injection Eg as <- ->.
    apply grant_granted in Egr; [|apply Hr]. inversion Egr; subst. simpl. lia.
Qed.

Lemma serve_tier_steps fuel active st :
  ready st -> (forall p, p ∈ active -> p ∈ pools) ->
  rtc astep st (fst (serve_tier runners demand index fuel active st)).
Proof.
  revert active st. induction fuel as [|fuel IH]; intros active st Hr Hin; [done|]. simpl.
  destruct active as [|p active]; [done|]. set (l := p :: active) in *.
  destruct (Z.leb_spec (t_budget (al_tick st)) 0); [done|].
  destruct (serve_round_steps l st Hr) as [H1 H2]; [lia|done|].
  destruct (serve_round runners demand index l st) as [st' next]. simpl in *.
  etrans; [done|]. apply IH; [by eapply rtc_ready|auto].
Qed.

Lemma serve_tiers_steps tiers st :
  ready st -> (forall tier p, tier ∈ tiers -> p ∈ tier -> p ∈ pools) ->
  rtc astep st (serve_tiers runners demand index tiers st).
Proof.
  revert st. induction tiers as [|tier tiers IH]; intros st Hr Hin; [done|]. cbn [serve_tiers].
  pose proof (serve_tier_steps (S (S (deficits (al_plans st)))) tier st Hr) as H.
  destruct (serve_tier _ _ _ _ tier st) as [st' next]. simpl in H.
  assert (Hs : rtc astep st st') by (apply H; intros; eapply Hin; [left|done]).
  destruct (_ =? 0); [done|]. etrans; [done|]. apply IH; [by eapply rtc_ready|].
  intros tier' q Ht Hq. eapply Hin; [by right|done].
Qed.

Lemma leftShort_steps shared floor l st : rtc astep st (foldl (leftShort index shared floor) st l).
Proof.
  apply (foldl_invariant (fun st' => rtc astep st st')); [done|]. intros st' p Hs _. etrans; [done|].
  unfold leftShort. destruct (plan_at index (al_plans st') p) as [[i pp]|] eqn:Ei; [|done].
  destruct (_ || _); [done|]. apply rtc_once, step_note. by eapply plan_at_lookup.
Qed.
End Steps.

Lemma tiersOf_elem l tier p : tier ∈ tiersOf l -> p ∈ tier -> p ∈ l.
Proof.
  revert tier. induction l as [|x l IH]; simpl; intros tier Ht Hp; [by apply elem_of_nil in Ht|].
  destruct (tiersOf l) as [|[|q g] gs] eqn:El.
  - apply list_elem_of_singleton in Ht as ->. apply list_elem_of_singleton in Hp as ->. left.
  - apply elem_of_cons in Ht as [-> |Ht]; [apply list_elem_of_singleton in Hp as ->; left|right; eauto].
  - destruct (_ =? _).
    + apply elem_of_cons in Ht as [-> |Ht]; [|right; eapply IH; [by right|done]].
      apply elem_of_cons in Hp as [-> |Hp]; [left|right]. eapply IH; [left|done].
    + apply elem_of_cons in Ht as [-> |Ht]; [apply list_elem_of_singleton in Hp as ->; left|right; eauto].
Qed.

Lemma allocate_steps t pools plans runners demand :
  ready {| al_tick := t; al_plans := plans |} ->
  rtc (astep runners demand (byID plans) pools) {| al_tick := t; al_plans := plans |} (allocate t pools plans runners demand).
Proof.
  intros Hr. unfold allocate. set (tiers := SortStableFunc _ pools).
  assert (Hin : forall p, p ∈ tiers -> p ∈ pools) by (intros p; subst tiers; by rewrite sort_elem_of).
  pose proof (shareAcrossTiers_steps runners demand (byID plans) pools tiers _ Hr Hin) as Hs.
  destruct (shareAcrossTiers _ _ _ tiers _) as [[st shared] floor]. simpl in Hs.
  etrans; [exact Hs|]. etrans; [|apply leftShort_steps].
  apply serve_tiers_steps; [by eapply rtc_ready|]. intros tier p Ht Hp. apply Hin. by eapply tiersOf_elem.
Qed.

Lemma rtc_preserves {A} (R : relation A) (P : A -> Prop) x y :
  (forall x y, R x y -> P x -> P y) -> rtc R x y -> P x -> P y.
Proof. induction 2; eauto. Qed.

(** What every step keeps, the allocation keeps. *)
Lemma allocate_invariant (P : allocState -> Prop) t pools plans runners demand :
  ready {| al_tick := t; al_plans := plans |} ->
  (forall st st', astep runners demand (byID plans) pools st st' -> P st -> P st') ->
  P {| al_tick := t; al_plans := plans |} -> P (allocate t pools plans runners demand).
Proof. intros Hr Hp. by apply (rtc_preserves (astep runners demand (byID plans) pools)), allocate_steps. Qed.

(** ** What a step does

    Either nothing but the words, or one create for an enabled pool that was short. *)
Section Effects.
Variable runners : gmap string (list (option Runner)).
Variable demand : gmap string (list Job).
Variable index : gmap string nat.
Variable pools : list Pool.

Inductive effect (st st' : allocState) : Prop :=
  | quiet i pp pp' :
      al_plans st !! i = Some pp -> al_plans st' = <[i := pp']> (al_plans st) ->
      same_pool pp pp' -> pp_Actions pp' = pp_Actions pp ->
      same_tick (al_tick st) (al_tick st') -> t_creates (al_tick st') = t_creates (al_tick st) ->
      t_budget (al_tick st') = t_budget (al_tick st) -> t_hosts (al_tick st') = t_hosts (al_tick st) ->
      effect st st'
  | made i pp pp' p need avoid h res size raised a :
      al_plans st !! i = Some pp -> al_plans st' = <[i := pp']> (al_plans st) -> same_pool pp pp' ->
      index !! p_ID p = Some i ->
      p ∈ pools -> p_Enabled p = true -> wanting pp = true -> pp_Failing pp = "" -> pp_Held pp = "" ->
      pp_Actions pp' = pp_Actions pp ++ [a] ->
      a_Kind a = ActionCreate -> a_PoolID a = p_ID p -> a_HostID a = h_ID h -> a_Size a = size ->
      same_tick (al_tick st) (al_tick st') -> t_creates (al_tick st') = t_creates (al_tick st) ++ [a] ->
      0 < t_budget (al_tick st) -> t_budget (al_tick st') = t_budget (al_tick st) - 1 ->
      need = enforcedNeed (t_historySizing (al_tick st)) (t_history (al_tick st)) (t_hosts (al_tick st)) p
               (queue_of demand p) ->
      avoid = recentBusyHosts (runners_of runners p) (t_now (al_tick st)) ->
      choose (hs_with_need (t_hosts (al_tick st)) need) p avoid = Some (h, res, size, raised) ->
      t_hosts (al_tick st') = hs_with_need (takeSlot (hs_with_need (t_hosts (al_tick st)) need) h p res) None ->
      effect st st'.

Lemma same_pool_refl pp : same_pool pp pp. Proof. by repeat split. Qed.
Lemma same_tick_refl t : same_tick t t. Proof. by repeat split. Qed.

Lemma plan_at_index plans p i pp : plan_at index plans p = Some (i, pp) -> index !! p_ID p = Some i.
Proof. unfold plan_at. destruct (index !! p_ID p) as [j|]; [|done]. destruct (plans !! j); [|done]. by intros [= <- _]. Qed.

Lemma astep_effect st st' : ready st -> astep runners demand index pools st st' -> effect st st'.
Proof.
  intros [Hn _] H. destruct H as [st i pp p t' pp' ok Hp Hi He Hw Hf Hh Hpos Hg|st i pp reason Hi].
  - pose proof (plan_at_lookup _ _ _ _ _ Hi). pose proof (plan_at_index _ _ _ _ Hi). destruct Hg.
    + eapply made; simpl; eauto.
    + eapply quiet; simpl; eauto. rewrite <- Hn, hs_with_need_id in *. done.
  - eapply quiet; simpl; eauto using same_pool_refl, same_tick_refl. by repeat split.
Qed.
End Effects.

(** An invariant of the effects is one of the allocation. *)
Lemma allocate_effects (P : allocState -> Prop) t pools plans runners demand :
  ready {| al_tick := t; al_plans := plans |} ->
  (forall st st', effect runners demand (byID plans) pools st st' -> P st -> P st') ->
  P {| al_tick := t; al_plans := plans |} -> P (allocate t pools plans runners demand).
Proof.
  intros Hr Hp H0. apply (allocate_invariant (fun st => ready st /\ P st)); [done| |done].
  intros st st' Hs [Hrd HP]. split; [by eapply astep_ready|]. eapply Hp; [by apply astep_effect|done].
Qed.

(** ** What the allocation keeps *)

(** A plan after some creates: the same pool, the earlier actions and creates after
    them, and never past the size the pool is aiming at. *)
Definition grown (pp0 pp : PoolPlan) : Prop :=
  same_pool pp0 pp /\
  (exists cs, pp_Actions pp = pp_Actions pp0 ++ cs /\ Forall (fun a => a_Kind a = ActionCreate) cs) /\
  pp_Current pp + creates (pp_Actions pp) <= Z.max (pp_Current pp0 + creates (pp_Actions pp0)) (pp_Desired pp0).

Definition on_host (h : Host) (a : Action) : bool := str_eqb (a_HostID a) (h_ID h).
Definition plan_creates (plans : list PoolPlan) : list Action :=
  concat ((fun pp => List.filter is_create (pp_Actions pp)) <$> plans).

(** A create that may be made: by an enabled pool that is not failing or held, on a
    host that can run it now. *)
Definition placed_well (pools : list Pool) (plans0 : list PoolPlan) (hs0 : hostSet) (a : Action) : Prop :=
  a_Kind a = ActionCreate /\
  exists p h i pp, p ∈ pools /\ h ∈ hs_hosts hs0 /\ byID plans0 !! p_ID p = Some i /\ plans0 !! i = Some pp /\
    a_PoolID a = p_ID p /\ a_HostID a = h_ID h /\ p_Enabled p = true /\
    pp_Failing pp = "" /\ pp_Held pp = "" /\ HostCanRun h p (hs_now hs0) = true.

Lemma creates_snoc l a : a_Kind a = ActionCreate -> creates (l ++ [a]) = creates l + 1.
Proof. intros E. unfold creates. rewrite countb_app, countb_cons, countb_nil. unfold is_create. by rewrite E. Qed.

Lemma grown_refl pp : grown pp pp.
Proof. split_and!; [by repeat split| |lia]. exists []. by rewrite app_nil_r. Qed.

Lemma same_tick_trans a b c : same_tick a b -> same_tick b c -> same_tick a c.
Proof. unfold same_tick. intuition congruence. Qed.

Lemma same_pool_trans a b c : same_pool a b -> same_pool b c -> same_pool a c.
Proof. unfold same_pool. intuition congruence. Qed.

Lemma Forall2_insert_r {A B} (R : A -> B -> Prop) l k i x y :
  Forall2 R l k -> k !! i = Some x -> (forall a, R a x -> R a y) -> Forall2 R l (<[i := y]> k).
Proof.
  intros HR Hi Hxy. destruct (Forall2_lookup_r _ _ _ _ _ HR Hi) as (a & Ha & Hax).
  rewrite <- (list_insert_id l i a) by done. apply Forall2_insert; auto.
Qed.

Section Kept.
Context (runners : gmap string (list (option Runner))) (demand : gmap string (list Job)).
Context (t0 : tick) (pools : list Pool) (plans0 : list PoolPlan).
Let hs0 := t_hosts t0.
Notation eff := (effect runners demand (byID plans0) pools).

(** The budget is what is left of it after one per create. *)
Definition budget_kept (st : allocState) : Prop :=
  0 <= t_budget (al_tick st) /\
  t_budget (al_tick st) + Z.of_nat (length (t_creates (al_tick st))) =
    t_budget t0 + Z.of_nat (length (t_creates t0)) /\
  same_tick t0 (al_tick st).

Lemma budget_step st st' : eff st st' -> budget_kept st -> budget_kept st'.
Proof.
  unfold budget_kept, same_tick. intros Heff (Hb & Hl & Ht); destruct Heff;
    repeat match goal with E : t_creates _ = _ |- _ => rewrite E; clear E | E : t_budget _ = _ |- _ => rewrite E; clear E end;
    rewrite ?length_app; simpl; unfold same_tick in *; split_and!; try lia; intuition congruence.
Qed.

Definition plans_kept (st : allocState) : Prop := Forall2 grown plans0 (al_plans st).

Lemma plans_step st st' : eff st st' -> plans_kept st -> plans_kept st'.
Proof.
  unfold plans_kept. intros Heff HF.
  destruct Heff as [i pp pp' Hi Epl Hs Ea|i pp pp' p need avoid h res size raised a Hi Epl Hs Hx Hp He Hw Hf Hh Ea Ek];
    rewrite Epl; (eapply Forall2_insert_r; [done|done|]); intros pp0 (Hs0 & (cs & Ecs & Hcs) & Hle);
    (split_and!; [by eapply same_pool_trans| |]); destruct Hs as (_ & EC & ED & _), Hs0 as (_ & EC0 & ED0 & _); rewrite Ea, ?EC.
  - by exists cs.
  - done.
  - exists (cs ++ [a]). rewrite Ecs, app_assoc. split; [done|]. apply Forall_app. by repeat constructor.
  - rewrite creates_snoc by done. unfold wanting in Hw. apply Z.ltb_lt in Hw. lia.
Qed.

Definition creates_kept (st : allocState) : Prop := Permutation (plan_creates (al_plans st)) (t_creates (al_tick st)).

Lemma plan_creates_insert plans i pp pp' cs :
  plans !! i = Some pp -> pp_Actions pp' = pp_Actions pp ++ cs -> Forall (fun a => a_Kind a = ActionCreate) cs ->
  Permutation (plan_creates (<[i := pp']> plans)) (plan_creates plans ++ cs).
Proof.
  intros Hi Ea Hcs. assert (Hf : List.filter is_create cs = cs).
  { clear Ea. induction Hcs as [|a cs E Hcs IH]; [done|]. simpl. unfold is_create at 1. rewrite E. simpl. by rewrite IH. }
  rewrite insert_take_drop by by eapply lookup_lt_Some.
  rewrite <- (take_drop_middle plans i pp) at 3 by done. unfold plan_creates.
  rewrite !fmap_app, !concat_app. csimpl. rewrite Ea, List.filter_app, Hf. solve_Permutation.
Qed.

Lemma creates_step st st' : eff st st' -> creates_kept st -> creates_kept st'.
Proof.
  unfold creates_kept. intros Heff HP.
  destruct Heff as [i pp pp' Hi Epl Hs Ea _ Ec|i pp pp' p need avoid h res size raised a Hi Epl Hs Hx Hp He Hw Hf Hh Ea Ek _ _ _ _ Ec];
    rewrite Epl, Ec.
  - rewrite (plan_creates_insert _ _ pp pp' []), app_nil_r; [done|done|by rewrite app_nil_r|done].
  - rewrite (plan_creates_insert _ _ pp pp' [a]); [by rewrite HP|done|done|by repeat constructor].
Qed.

(** The hosts, the clock and what each host has to give do not change. *)
Definition frame_kept (st : allocState) : Prop :=
  let hs := t_hosts (al_tick st) in
  hs_hosts hs = hs_hosts hs0 /\ hs_now hs = hs_now hs0 /\ hs_alloc hs = hs_alloc hs0.

Lemma frame_step st st' : eff st st' -> frame_kept st -> frame_kept st'.
Proof.
  unfold frame_kept. intros Heff.
  destruct Heff as [i pp pp' Hi Epl Hs Ea _ _ _ Eh|i pp pp' p need avoid h res size raised a Hi Epl Hs Hx Hp He Hw Hf Hh Ea Ek _ _ _ _ _ _ _ _ _ _ Eh];
    rewrite Eh; done.
Qed.

(** A host's slots: each create took one, and there was one to take. *)
Definition slots_kept (h : Host) (st : allocState) : Prop :=
  free_of (t_hosts (al_tick st)) h + countb (on_host h) (t_creates (al_tick st)) =
    free_of hs0 h + countb (on_host h) (t_creates t0) /\
  0 <= free_of (t_hosts (al_tick st)) h <= int_max.

Lemma slots_step h' st st' : eff st st' -> slots_kept h' st -> slots_kept h' st'.
Proof.
  unfold slots_kept. intros Heff HS.
  destruct Heff as [i pp pp' Hi Epl Hs Ea _ Ec _ Eh|i pp pp' p need avoid h res size raised a Hi Epl Hs Hx Hp He Hw Hf Hh Ea Ek _ Ehost _ _ Ec _ _ _ _ Ech Eh];
    rewrite Eh, Ec; [apply HS|].
  apply choose_spec in Ech as [(_ & Hfree & _) _]. change (0 < free_of (t_hosts (al_tick st)) h) in Hfree.
  rewrite countb_app, countb_cons, countb_nil. unfold on_host at 2. rewrite Ehost. unfold str_eqb.
  destruct HS as [H1 H2].
  set (hs := hs_with_need (t_hosts (al_tick st)) need) in *.
  change (free_of (hs_with_need (takeSlot hs h p res) None) h') with (free_of (takeSlot hs h p res) h').
  change (free_of (t_hosts (al_tick st)) h') with (free_of hs h') in *.
  case_bool_decide as Eid; [|destruct (takeSlot_other hs h h' p res Eid) as (-> & _); lia].
  assert (Efree : forall hs, free_of hs h = free_of hs h') by (intros; unfold free_of; by rewrite Eid).
  destruct (takeSlot_same hs h p res) as (Ef & _). rewrite !Efree in Ef. rewrite Efree in Hfree.
  change (free_of (t_hosts (al_tick st)) h') with (free_of hs h') in Hfree.
  rewrite Ef, wrap64_id by (unfold in_int64, int_min; lia). lia.
Qed.

Definition well_kept (st : allocState) : Prop :=
  frame_kept st /\ plans_kept st /\
  forall a, a ∈ t_creates (al_tick st) -> a ∈ t_creates t0 \/ placed_well pools plans0 hs0 a.

Lemma well_step st st' : eff st st' -> well_kept st -> well_kept st'.
Proof.
  intros Heff (HF & HP & HW). split; [by eapply frame_step|]. split; [by eapply plans_step|].
  destruct HF as (Eho & Enow & _).
  destruct Heff as [i pp pp' Hi Epl Hs Ea _ Ec _ Eh|i pp pp' p need avoid h res size raised a Hi Epl Hs Hx Hp He Hw Hf Hh Ea Ek Epid Ehost _ _ Ec _ _ _ _ Ech Eh];
    rewrite Ec; [done|].
  intros b [Hb|Hb]%elem_of_app; [auto|]. apply list_elem_of_singleton in Hb as ->. right. split; [done|].
  apply choose_spec in Ech as [(Hin & _ & Hcan & _) _]. simpl in Hin, Hcan. rewrite Eho in Hin. rewrite Enow in Hcan.
  destruct (Forall2_lookup_r _ _ _ _ _ HP Hi) as (pp0 & Hi0 & (_ & _ & _ & E1 & E2 & _) & _).
  exists p, h, i, pp0. rewrite E1 in Hf. rewrite E2 in Hh. by split_and!.
Qed.

(** The ledger of the creates: [book] makes one create again, with the requirement the
    queue sets, the hosts to avoid and the hosts as the creates before it left them, and
    enters the host [choose] gives it, what it is charged there and the size it names. *)
Record entry := { en_host : Host; en_charge : Reservation; en_size : option Resources }.

Definition book (acc : option (hostSet * list entry)) (a : Action) : option (hostSet * list entry) :=
  match acc, List.find (fun p => str_eqb (p_ID p) (a_PoolID a)) pools with
  | Some (hs, l), Some p =>
      match choose (hs_with_need hs (enforcedNeed (t_historySizing t0) (t_history t0) hs p (queue_of demand p))) p
                   (recentBusyHosts (runners_of runners p) (t_now t0)) with
      | Some (h, res, size, _) =>
          Some (takeSlot hs h p res, l ++ [{| en_host := h; en_charge := res; en_size := size |}])
      | None => None
      end
  | _, _ => None
  end.
Definition bookOf (cs : list Action) : option (hostSet * list entry) := foldl book (Some (hs0, [])) cs.

(** An entry is the create's: its host, its size, and a charge that is the standard of
    the pool where no size is named, and otherwise covers the size and the pool's minimum. *)
Definition entered (a : Action) (e : entry) : Prop :=
  a_HostID a = h_ID (en_host e) /\ a_Size a = en_size e /\
  exists p, p ∈ pools /\ a_PoolID a = p_ID p /\
    charge_covers p (en_host e) (en_charge e) (en_size e).

(** The memory charged to a host. *)
Definition billed (h : Host) (l : list entry) : Z :=
  foldr (fun e n => (if str_eqb (h_ID (en_host e)) (h_ID h) then res_MemoryMB (en_charge e) else 0) + n) 0 l.

Lemma charged_snoc h l e :
  billed h (l ++ [e]) =
  billed h l + (if str_eqb (h_ID (en_host e)) (h_ID h) then res_MemoryMB (en_charge e) else 0).
Proof. unfold billed. rewrite foldr_app. simpl. induction l as [|x l IH]; simpl; lia. Qed.

Lemma find_pool p : NoDup (p_ID <$> pools) -> p ∈ pools -> List.find (fun q => str_eqb (p_ID q) (p_ID p)) pools = Some p.
Proof.
  induction pools as [|q l IH]; intros Hnd Hp; [by apply elem_of_nil in Hp|]. simpl.
  rewrite fmap_cons in Hnd. apply NoDup_cons in Hnd as [Hq Hnd]. unfold str_eqb. case_bool_decide as E.
  - apply elem_of_cons in Hp as [-> |Hp]; [done|]. destruct Hq. rewrite E. by apply list_elem_of_fmap_2.
  - apply elem_of_cons in Hp as [-> |Hp]; [done|]. auto.
Qed.

(** The ledger keeps up with the hosts, the books of every measured host stay in order,
    what its creates were charged has come off its unpromised memory, and that is not
    below zero once a create has drawn on it. *)
Definition memory_kept (st : allocState) : Prop :=
  frame_kept st /\ same_tick t0 (al_tick st) /\ hs_need (t_hosts (al_tick st)) = None /\
  exists cs l, t_creates (al_tick st) = t_creates t0 ++ cs /\
    bookOf cs = Some (t_hosts (al_tick st), l) /\ Forall2 entered cs l /\
  forall h, h ∈ hs_hosts hs0 ->
    books (t_hosts (al_tick st)) h /\
    (al_MemoryKnown (alloc_of hs0 h) = true ->
     promised_of (t_hosts (al_tick st)) h + billed h l = promised_of hs0 h /\
     (0 <= promised_of hs0 h \/ (exists a, a ∈ cs /\ a_HostID a = h_ID h) ->
      0 <= promised_of (t_hosts (al_tick st)) h)).

Lemma takeSlot_need hs need h p res :
  hs_need hs = None -> hs_with_need (takeSlot (hs_with_need hs need) h p res) None = takeSlot hs h p res.
Proof. intros E. unfold takeSlot, hs_with_need. simpl. by rewrite E. Qed.

Lemma memory_step st st' :
  NoDup (p_ID <$> pools) -> distinct_ids (hs_hosts hs0) ->
  (forall p h, p ∈ pools -> h ∈ hs_hosts hs0 -> chargeable p h) ->
  eff st st' -> memory_kept st -> memory_kept st'.
Proof.
  intros Hnd Hd Hc Heff (HF & HT & HN & cs & l & Ecs & Hl & Hen & HM).
  assert (HF' : frame_kept st') by by eapply frame_step. split; [done|]. destruct HF as (Eho & _ & Eal).
  destruct Heff as [i pp pp' Hi Epl Hs Ea Et Ec _ Eh|i pp pp' p need avoid h res size raised a Hi Epl Hs Hx Hp He Hw Hf Hh Ea Ek Epid Ehost Esize Et Ec _ _ En Eav Ech Eh];
    (split; [by eapply same_tick_trans|]); rewrite Ec, Eh; [by split; [|exists cs, l]|].
  rewrite takeSlot_need by done. split; [done|]. destruct HT as (Enow & _ & _ & _ & Ehist & Esz).
  set (hs := t_hosts (al_tick st)) in *.
  pose proof (choose_spec _ _ _ _ _ _ _ Ech) as [(Hin & _) Hcov]. change (hs_hosts (hs_with_need hs need)) with (hs_hosts hs) in Hin.
  assert (Hch : chargeable p h) by (apply Hc; [done|by rewrite <- Eho]). destruct (Hcov Hch) as [Hcv H0].
  exists (cs ++ [a]), (l ++ [{| en_host := h; en_charge := res; en_size := size |}]).
  split; [by rewrite Ecs, app_assoc|]. split.
  { unfold bookOf in *. rewrite foldl_app, Hl. simpl. rewrite Epid, find_pool by done.
    by rewrite <- Enow, <- Ehist, <- Esz, <- En, <- Eav, Ech. }
  split.
  { apply Forall2_app; [done|]. constructor; [|done]. split; [done|]. split; [done|]. exists p. split; [done|].
    split; [done|]. by apply (choose_charge _ _ _ _ _ _ _ Ech). }
  intros h' Hh'. destruct (HM h' Hh') as [Hb Hpr].
  destruct (takeSlot_books hs h p res h') as [Hb' Hp']; [done|by rewrite Eho|by rewrite Eho|exact Hcv|done|exact Hb|].
  split; [exact Hb'|]. intros Hk. destruct (Hpr Hk) as [Hdr Hge].
  destruct (Hp' ltac:(unfold alloc_of; rewrite Eal; exact Hk)) as [Eq Hpos]. split.
  - rewrite charged_snoc. simpl. unfold str_eqb.
    case_bool_decide as Eid; [rewrite decide_True in Eq by done|rewrite decide_False in Eq by done]; lia.
  - intros Hor. apply Hpos. destruct (decide (h_ID h = h_ID h')) as [Eid|Nid].
    { left. apply Hd; [by rewrite <- Eho|done|done]. }
    right. apply Hge. destruct Hor as [?|(b & Hb1 & Hb3)]; [by left|right].
    exists b. split; [|done]. apply elem_of_app in Hb1 as [?|Hb1]; [done|].
    apply list_elem_of_singleton in Hb1 as ->. congruence.
Qed.
End Kept.

(** ** The rounds finish, and leave nothing undone *)

(** A plan is settled when nothing more can be asked for it in this pass. *)
Definition settled (pp : PoolPlan) : Prop :=
  wanting pp = false \/ pp_Blocked pp <> "" \/ pp_Failing pp <> "" \/ pp_Held pp <> "".

Lemma sum_list_insert l i x y : l !! i = Some x -> (sum_list (<[i := y]> l) + x = sum_list l + y)%nat.
Proof. revert i. induction l as [|z l IH]; intros [|i] H; simplify_eq/=; [lia|]. specialize (IH i H). lia. Qed.

Lemma deficits_insert plans i pp pp' :
  plans !! i = Some pp -> (deficits (<[i := pp']> plans) + deficit pp = deficits plans + deficit pp')%nat.
Proof. intros H. unfold deficits. rewrite list_fmap_insert. apply sum_list_insert. by rewrite list_lookup_fmap, H. Qed.

(** What is still wanted falls by one with each create. *)
Definition outstanding (st : allocState) : nat := deficits (al_plans st) + length (t_creates (al_tick st)).

Lemma effect_outstanding runners demand index pools st st' : effect runners demand index pools st st' -> outstanding st' = outstanding st.
Proof.
  unfold outstanding. intros Heff.
  destruct Heff as [i pp pp' Hi Epl Hs Ea _ Ec|i pp pp' p need avoid h res size raised a Hi Epl Hs Hx Hp He Hw Hf Hh Ea Ek _ _ _ _ Ec];
    rewrite Epl, Ec; pose proof (deficits_insert (al_plans st) i pp pp' Hi) as Hdef;
    destruct Hs as (_ & EC & ED & _); unfold deficit in Hdef; rewrite Ea, EC, ED in Hdef; [lia|].
  rewrite creates_snoc in Hdef by done. rewrite length_app. simpl. unfold wanting in Hw. apply Z.ltb_lt in Hw. lia.
Qed.

Section Settling.
Variable runners : gmap string (list (option Runner)).
Variable demand : gmap string (list Job).
Variable index : gmap string nat.
Variable pools : list Pool.

Lemma rtc_outstanding st st' : ready st -> rtc (astep runners demand index pools) st st' -> outstanding st' = outstanding st.
Proof.
  intros Hr Hs. induction Hs as [|st st1 st2 H1 H2 IH]; [done|].
  rewrite IH by by eapply astep_ready. eapply effect_outstanding. by apply astep_effect.
Qed.

Lemma same_pool_settled pp pp' :
  same_pool pp pp' -> pp_Actions pp' = pp_Actions pp -> (pp_Blocked pp <> "" -> pp_Blocked pp' <> "") ->
  settled pp -> settled pp'.
Proof.
  unfold settled, wanting. intros (_ & -> & -> & -> & -> & _) -> Hb. naive_solver.
Qed.

Lemma astep_settled st st' i pp :
  astep runners demand index pools st st' -> al_plans st !! i = Some pp -> settled pp ->
  exists pp', al_plans st' !! i = Some pp' /\ settled pp'.
Proof.
  intros H Hi Hset. destruct H as [st j pq p t' pq' ok Hp Hj He Hw Hf Hh Hpos Hg|st j pq reason Hj]; simpl.
  - apply plan_at_lookup in Hj. destruct (decide (i = j)) as [-> |Hne]; [|rewrite list_lookup_insert_ne by done; eauto].
    rewrite list_lookup_insert_eq by by eapply lookup_lt_Some. simplify_eq. eexists; split; [done|].
    destruct Hg as [t' pq' need avoid h res size raised a _ (_ & _ & _ & E1 & E2 & _) _ _ _ _ _ _ _ _ _ _ _ Eb|t' pq' _ _ _ _ _ _ Hb].
    + unfold settled in *. rewrite Eb. destruct Hset as [?|[?|[?|?]]]; [congruence|auto|congruence|congruence].
    + unfold settled. auto.
  - destruct (decide (i = j)) as [-> |Hne]; [|rewrite list_lookup_insert_ne by done; eauto].
    rewrite list_lookup_insert_eq by by eapply lookup_lt_Some. simplify_eq. eexists; split; [done|].
    by eapply same_pool_settled.
Qed.

Lemma rtc_settled st st' i pp :
  rtc (astep runners demand index pools) st st' -> al_plans st !! i = Some pp -> settled pp ->
  exists pp', al_plans st' !! i = Some pp' /\ settled pp'.
Proof.
  intros Hs. revert pp. induction Hs as [|st st1 st2 H1 H2 IH]; intros pp Hi Hset; [eauto|].
  destruct (astep_settled _ _ _ _ H1 Hi Hset) as (pp1 & H & Hset1). eauto.
Qed.

(** Nothing more can be asked for the pool. *)
Definition pool_settled (st : allocState) (p : Pool) : Prop :=
  p_Enabled p = false \/ forall i pp, plan_at index (al_plans st) p = Some (i, pp) -> settled pp.

Lemma plans_domain st st' i : rtc (astep runners demand index pools) st st' -> is_Some (al_plans st' !! i) -> is_Some (al_plans st !! i).
Proof.
  induction 1 as [|st st1 st2 H1 H2 IH]; [done|]. intros H. specialize (IH H).
  destruct H1; simpl in *; rewrite lookup_lt_is_Some, length_insert in *; done.
Qed.

Lemma rtc_pool_settled st st' p :
  rtc (astep runners demand index pools) st st' -> pool_settled st p -> pool_settled st' p.
Proof.
  intros Hs [?|H]; [by left|right]. intros i pp Hi.
  pose proof (plan_at_lookup _ _ _ _ _ Hi) as Hl. pose proof (plan_at_index _ _ _ _ _ Hi) as Hx.
  destruct (plans_domain _ _ i Hs) as [pp0 H0]; [by eauto|].
  destruct (rtc_settled _ _ _ _ Hs H0) as (pp' & Hl' & ?); [|congruence].
  eapply H. unfold plan_at. by rewrite Hx, H0.
Qed.

Lemma creates_grow st st' :
  ready st -> rtc (astep runners demand index pools) st st' ->
  (length (t_creates (al_tick st)) <= length (t_creates (al_tick st')))%nat.
Proof.
  intros Hr Hs. induction Hs as [|st st1 st2 H1 H2 IH]; [done|].
  specialize (IH (astep_ready _ _ _ _ _ _ H1 Hr)). destruct (astep_effect _ _ _ _ _ _ Hr H1) as
    [i pp pp' _ _ _ _ _ Ec|i pp pp' p need avoid h res size raised a _ _ _ _ _ _ _ _ _ _ _ _ _ _ _ Ec];
    rewrite Ec, ?length_app in *; simpl in *; lia.
Qed.

Lemma budget_zero_stays st st' :
  ready st -> rtc (astep runners demand index pools) st st' -> t_budget (al_tick st) = 0 -> t_budget (al_tick st') = 0.
Proof.
  intros Hr Hs. induction Hs as [|st st1 st2 H1 H2 IH]; [done|]. intros H0.
  apply IH; [by eapply astep_ready|]. destruct (astep_effect _ _ _ _ _ _ Hr H1); [congruence|lia].
Qed.

(** A round: budget has run out, or every pool of it is settled or still wanting after
    the create it was given. *)
Lemma serve_round_settles active st :
  ready st -> 0 < t_budget (al_tick st) -> (forall p, p ∈ active -> p ∈ pools) ->
  let '(st', next) := serve_round runners demand index active st in
  (t_budget (al_tick st') = 0 \/ forall p, p ∈ active -> p ∈ next \/ pool_settled st' p) /\
  (next <> [] -> (length (t_creates (al_tick st)) < length (t_creates (al_tick st')))%nat).
Proof.
  revert st. induction active as [|p active IH]; intros st Hr Hb Hin.
  { split; [right; intros p Hp; by apply elem_of_nil in Hp|done]. }
  assert (Hskip : forall st', rtc (astep runners demand index pools) st st' -> 0 < t_budget (al_tick st') -> pool_settled st' p ->
    let '(st'', next) := serve_round runners demand index active st' in
    (t_budget (al_tick st'') = 0 \/ forall q, q ∈ p :: active -> q ∈ next \/ pool_settled st'' q) /\
    (next <> [] -> (length (t_creates (al_tick st)) < length (t_creates (al_tick st'')))%nat)).
  { intros st' Hs Hb' Hset. assert (Hr' : ready st') by by eapply rtc_ready.
    assert (Hin' : forall q, q ∈ active -> q ∈ pools) by (intros; apply Hin; by right).
    pose proof (IH st' Hr' Hb' Hin') as IH'.
    pose proof (serve_round_steps runners demand index pools active st' Hr' Hb' Hin') as [Hs' _].
    destruct (serve_round _ _ _ active st') as [st'' next]. simpl in Hs'. destruct IH' as [[?|H1] H2];
      (split; [|intros Hne; specialize (H2 Hne); pose proof (creates_grow _ _ Hr Hs); lia]); [by left|right].
    intros q [-> |?]%elem_of_cons; [right; by eapply rtc_pool_settled|auto]. }
  cbn [serve_round].
  destruct (plan_at index (al_plans st) p) as [[i pp]|] eqn:Ei.
  2:{ apply Hskip; [done|done|]. right. intros ?? E. by rewrite Ei in E. }
  destruct (negb (p_Enabled p) || negb (wanting pp)) eqn:Ew.
  { apply Hskip; [done|done|]. apply orb_true_iff in Ew as [E|E]; apply negb_true_iff in E; [by left|right].
    intros ?? E'. rewrite Ei in E'. simplify_eq. by left. }
  apply orb_false_iff in Ew as [Ee Ew]. apply negb_false_iff in Ee, Ew.
  pose proof (plan_at_lookup _ _ _ _ _ Ei) as Hl. pose proof (plan_at_index _ _ _ _ _ Ei) as Hx.
  assert (Hput : forall pp', plan_at index (<[i := pp']> (al_plans st)) p = Some (i, pp')).
  { intros pp'. unfold plan_at. rewrite Hx, list_lookup_insert_eq by by eapply lookup_lt_Some. done. }
  destruct (nonempty (firstNonEmpty (pp_Failing pp) (pp_Held pp))) eqn:En.
  { apply Hskip; [by apply rtc_once, step_note|done|]. right. simpl. intros ?? E'.
    rewrite Hput in E'. simplify_eq. unfold settled. simpl. right. right.
    destruct (decide (pp_Failing pp = "")) as [E1|]; [|by left]. right. intros E2. by rewrite E1, E2 in En. }
  apply nonempty_false, firstNonEmpty_empty in En as [Ef Eh].
  destruct (do_grant runners demand st i pp p) as [st' ok] eqn:Eg.
  assert (Hs : astep runners demand index pools st st') by (eapply do_grant_step; eauto; apply Hin; left).
  unfold do_grant in Eg. destruct (grant _ _ _ _ _) as [[t' pp'] ok'] eqn:Egr. injection Eg as <- ->.
  apply grant_granted in Egr; [|apply Hr].
  destruct Egr as [t' pp' need avoid h res size raised a _ _ _ _ _ _ _ _ _ _ Ec Ebud _ _|t' pp' _ _ _ Ec Ebud _ Hbl]; simpl.
  - rewrite list_lookup_insert_eq by by eapply lookup_lt_Some.
    destruct (Z.eqb_spec (t_budget t') 0) as [|Hb']; simpl; [split; [by left|]; rewrite Ec, length_app; simpl; lia|].
    destruct (wanting pp') eqn:Ew'.
    + assert (Hr' : ready {| al_tick := t'; al_plans := <[i:=pp']> (al_plans st) |}) by by eapply astep_ready.
      assert (Hin' : forall q, q ∈ active -> q ∈ pools) by (intros; apply Hin; by right).
      assert (Hb'' : 0 < t_budget t') by (destruct Hr'; simpl in *; lia).
      pose proof (IH _ Hr' Hb'' Hin') as IH'.
      pose proof (serve_round_steps runners demand index pools active _ Hr' Hb'' Hin') as [Hs' _].
      destruct (serve_round _ _ _ active _) as [st'' next]. destruct IH' as [H1 _]. split.
      * destruct H1 as [?|H1]; [by left|right]. intros q [-> |Hq]%elem_of_cons; [left; left|].
        destruct (H1 q Hq); [left; by right|by right].
      * intros _. pose proof (creates_grow _ _ Hr' Hs') as Hg. simpl in Hg. rewrite Ec, length_app in Hg. simpl in Hg. lia.
    + pose proof (Hskip {| al_tick := t'; al_plans := <[i:=pp']> (al_plans st) |}) as H.
      destruct (serve_round _ _ _ active _) as [st'' next]. apply H; [by apply rtc_once|simpl; lia|].
      right. simpl. intros ?? E'. rewrite Hput in E'. simplify_eq. by left.
  - apply Hskip; [by apply rtc_once|simpl; lia|]. right. simpl. intros ?? E'. rewrite Hput in E'.
    simplify_eq. right. by left.
Qed.

(** The rounds of a tier end before the fuel does. *)
Lemma serve_tier_done fuel active st :
  ready st -> (forall p, p ∈ active -> p ∈ pools) -> (deficits (al_plans st) < fuel)%nat ->
  let '(st', next) := serve_tier runners demand index fuel active st in
  t_budget (al_tick st') = 0 \/ forall p, p ∈ active -> pool_settled st' p.
Proof.
  revert active st. induction fuel as [|fuel IH]; intros active st Hr Hin Hd; [lia|].
  cbn [serve_tier]. destruct active as [|p active]; [right; intros q Hq; by apply elem_of_nil in Hq|].
  set (l := p :: active) in *.
  destruct (Z.leb_spec (t_budget (al_tick st)) 0) as [|Hb]; [left; destruct Hr; lia|].
  pose proof (serve_round_settles l st Hr Hb Hin) as HR.
  pose proof (serve_round_steps runners demand index pools l st Hr Hb Hin) as [Hs Hn].
  destruct (serve_round _ _ _ l st) as [st1 next]. simpl in Hs, Hn. destruct HR as [H1 H2].
  assert (Hr1 : ready st1) by by eapply rtc_ready.
  destruct (decide (next = [])) as [-> |Hne].
  { destruct fuel; simpl; (destruct H1 as [?|H1]; [by left|right]); intros q Hq;
      destruct (H1 q Hq) as [Hq'|]; [by apply elem_of_nil in Hq'|done|by apply elem_of_nil in Hq'|done]. }
  specialize (H2 Hne). pose proof (rtc_outstanding _ _ Hr Hs) as Ho. unfold outstanding in Ho.
  specialize (IH next st1 Hr1 (fun q Hq => Hin q (Hn q Hq)) ltac:(lia)).
  pose proof (serve_tier_steps runners demand index pools fuel next st1 Hr1 (fun q Hq => Hin q (Hn q Hq))) as Hs2.
  destruct (serve_tier _ _ _ fuel next st1) as [st2 next2]. simpl in Hs2.
  destruct H1 as [H1|H1]; [left; eapply budget_zero_stays; eauto|].
  destruct IH as [?|IH]; [by left|right]. intros q Hq. destruct (H1 q Hq); [by apply IH|by eapply rtc_pool_settled].
Qed.

Lemma serve_tiers_done tiers st :
  ready st -> (forall tier p, tier ∈ tiers -> p ∈ tier -> p ∈ pools) ->
  let st' := serve_tiers runners demand index tiers st in
  t_budget (al_tick st') = 0 \/ forall tier p, tier ∈ tiers -> p ∈ tier -> pool_settled st' p.
Proof.
  cbv zeta. revert st. induction tiers as [|tier tiers IH]; intros st Hr Hin.
  { right. intros ?? H. by apply elem_of_nil in H. }
  cbn [serve_tiers].
  assert (Ht : forall p, p ∈ tier -> p ∈ pools) by (intros; eapply Hin; [left|done]).
  pose proof (serve_tier_steps runners demand index pools (S (S (deficits (al_plans st)))) tier st Hr Ht) as Hs.
  pose proof (serve_tier_done (S (S (deficits (al_plans st)))) tier st Hr Ht ltac:(lia)) as Hd.
  destruct (serve_tier _ _ _ _ tier st) as [st1 next]. simpl in Hs.
  destruct (Z.eqb_spec (t_budget (al_tick st1)) 0) as [|Hnz]; [by left|]. destruct Hd as [?|Hd]; [done|].
  assert (Hr1 : ready st1) by by eapply rtc_ready.
  assert (Hin' : forall tier' p, tier' ∈ tiers -> p ∈ tier' -> p ∈ pools) by (intros; eapply Hin; [by right|done]).
  destruct (IH st1 Hr1 Hin') as [?|IH']; [by left|right].
  intros tier' q [-> |Ht']%elem_of_cons Hq; [|by eapply IH'].
  eapply rtc_pool_settled; [by apply serve_tiers_steps|auto].
Qed.
End Settling.

Lemma tiersOf_cover l p : p ∈ l -> exists tier, tier ∈ tiersOf l /\ p ∈ tier.
Proof.
  assert (Hc : concat (tiersOf l) = l).
  { clear p. induction l as [|x l IH]; [done|]. simpl. destruct (tiersOf l) as [|[|q g] gs]; simpl in *; [by subst|by rewrite IH|].
    destruct (_ =? _); simpl; by rewrite IH. }
  intros Hp. rewrite <- Hc in Hp. apply list_elem_of_In, List.in_concat in Hp as (tier & ?%list_elem_of_In & ?%list_elem_of_In). eauto.
Qed.

Lemma allocate_settles t pools plans runners demand :
  ready {| al_tick := t; al_plans := plans |} ->
  let st := allocate t pools plans runners demand in
  t_budget (al_tick st) = 0 \/ forall p, p ∈ pools -> pool_settled (byID plans) st p.
Proof.
  intros Hr. cbv zeta. unfold allocate. set (tiers := SortStableFunc _ pools).
  assert (Hin : forall p, p ∈ tiers <-> p ∈ pools) by (intros p; subst tiers; by rewrite sort_elem_of).
  pose proof (shareAcrossTiers_steps runners demand (byID plans) pools tiers _ Hr (fun p => proj1 (Hin p))) as Hs.
  destruct (shareAcrossTiers _ _ _ tiers _) as [[st shared] floor]. simpl in Hs.
  assert (Hr1 : ready st) by by eapply rtc_ready.
  pose proof (serve_tiers_done runners demand (byID plans) pools (tiersOf tiers) st Hr1
    (fun tier p Ht Hp => proj1 (Hin p) (tiersOf_elem _ _ _ Ht Hp))) as Hd. cbv zeta in Hd.
  set (st1 := serve_tiers _ _ _ _ st) in *.
  pose proof (leftShort_steps runners demand (byID plans) pools shared floor pools st1) as Hl.
  assert (Hr2 : ready st1).
  { eapply (rtc_ready runners demand (byID plans) pools); [|exact Hr1]. apply serve_tiers_steps; [done|].
    intros tier p Ht Hp. apply Hin. by eapply tiersOf_elem. }
  destruct Hd as [Hd|Hd]; [left; eapply budget_zero_stays; [exact Hr2|exact Hl|done]|right].
  intros p Hp. eapply rtc_pool_settled; [exact Hl|].
  apply Hin in Hp. destruct (tiersOf_cover _ _ Hp) as (tier & ? & ?). eauto.
Qed.
