(* ===== verification/Decide.v ===== *)
(** * Decide (scheduler.go)

    One pass: jobs to pools, every pool's size, the creates, and the plan in
    execution order.  [None] is a panic: a nil job, or a nil runner of an enabled
    pool. *)
From Stdlib Require Import ZArith Lia Ascii String.
From stdpp Require Import base strings list gmap.
From S2P Require Import Prelude GoFloat GoString Store Phrases Resources Labels History Placement Plan Assign Pools Allocate.
Local Open Scope string_scope.
Local Open Scope list_scope.
Local Open Scope Z_scope.

Definition hs_with_snapshot (hs : hostSet) (s : Snapshot) : hostSet :=
  {| hs_readiness := s_Readiness s; hs_preferReadiness := s_PreferReadiness s; hs_hosts := hs_hosts hs;
     hs_free := hs_free hs; hs_observedCPU := hs_observedCPU hs; hs_warming := hs_warming hs;
     hs_warmingDinD := hs_warmingDinD hs; hs_left := hs_left hs; hs_alloc := hs_alloc hs;
     hs_promisedMemory := hs_promisedMemory hs; hs_ours := hs_ours hs; hs_now := hs_now hs;
     hs_order := s_HostOrder s; hs_need := hs_need hs |}.

Definition newTick (s : Snapshot) (pools : list Pool) (stillRunning : gmap string bool) : tick :=
  {| t_creates := []; t_now := s_Now s; t_policy := s_Policy s;
     t_hosts := hs_with_snapshot (newHostSet (s_Hosts s) pools (s_Runners s) (s_Now s)) s;
     t_budget := if pol_MaxCreatesPerTick (s_Policy s) <=? 0 then int_max else pol_MaxCreatesPerTick (s_Policy s);
     t_atCeiling := false; t_activeByRepository := s_ActiveByRepository s; t_jitter := s_Jitter s;
     t_lastProvisioned := s_LastProvisioned s; t_held := s_HeldInstallations s; t_stillRunning := stillRunning;
     t_history := s_JobHistory s; t_historySizing := s_HistorySizing s |}.

(** The fleet's ceiling on live runners cuts the budget. *)
Definition applyCeiling (t : tick) (plans : list PoolPlan) : tick :=
  let limit := pol_MaxRunners (t_policy t) in
  if 0 <? limit then
    let live := foldl (fun n pp => n + pp_Current pp) 0 plans in
    let room := Z.max (limit - live) 0 in
    if room <? t_budget t then t_with_budget t room true else t
  else t.

Definition decidePools (t : tick) (s : Snapshot) (demand : gmap string (list Job)) (pools : list Pool)
  : option (list PoolPlan) :=
  mapM (fun p => decidePool t p (map_get (s_Runners s) (p_ID p) []) (map_get demand (p_ID p) [])) pools.

Definition setUnserved (pp : PoolPlan) : PoolPlan :=
  pp_with_unserved pp (Z.max 0 (pp_eligible pp - pp_supply pp - creates (pp_Actions pp))).

Definition Decide (s : Snapshot) : option Plan :=
  let pools := sortedPools (s_Pools s) in
  let '(demand, unmatched) := assign pools (s_Jobs s) (targetsOf (s_Installations s)) in
  match runnersWithAJob s with
  | None => None
  | Some stillRunning =>
      let t := newTick s pools stillRunning in
      match decidePools t s demand pools with
      | None => None
      | Some plans =>
          let st := allocate (applyCeiling t plans) pools plans (s_Runners s) demand in
          let plans := setUnserved <$> al_plans st in
          let cleanup := concat ((fun pp => List.filter (fun a => negb (is_create a)) (pp_Actions pp)) <$> plans) in
          Some {| plan_Pools := plans;
                  plan_Actions := (cleanup ++ t_creates (al_tick st))%list;
                  plan_Unmatched := unmatched |}
      end
  end.

(** ** A pass taken apart *)
Definition poolsOf (s : Snapshot) : list Pool := sortedPools (s_Pools s).
Definition demandOf_pass (s : Snapshot) : gmap string (list Job) :=
  fst (assign (poolsOf s) (s_Jobs s) (targetsOf (s_Installations s))).

(** What [Decide] has worked out when it returns. *)
Record pass (s : Snapshot) (plan : Plan) (t : tick) (plans : list PoolPlan) (st : allocState) : Prop := {
  pass_running : runnersWithAJob s = Some (t_stillRunning t);
  pass_tick : t = newTick s (poolsOf s) (t_stillRunning t);
  pass_plans : decidePools t s (demandOf_pass s) (poolsOf s) = Some plans;
  pass_alloc : st = allocate (applyCeiling t plans) (poolsOf s) plans (s_Runners s) (demandOf_pass s);
  pass_pools : plan_Pools plan = setUnserved <$> al_plans st;
  pass_actions : plan_Actions plan =
    concat ((fun pp => List.filter (fun a => negb (is_create a)) (pp_Actions pp)) <$> al_plans st) ++
    t_creates (al_tick st);
  pass_unmatched : plan_Unmatched plan = snd (assign (poolsOf s) (s_Jobs s) (targetsOf (s_Installations s)))
}.

Lemma Decide_pass s plan : Decide s = Some plan -> exists t plans st, pass s plan t plans st.
Proof.
  unfold Decide. change (sortedPools (s_Pools s)) with (poolsOf s).
  destruct (assign (poolsOf s) _ _) as [demand unmatched] eqn:Ea.
  destruct (runnersWithAJob s) as [still|] eqn:Er; [|done].
  destruct (decidePools (newTick s (poolsOf s) still) s demand (poolsOf s)) as [plans|] eqn:Ep; [|done].
  intros [= <-].
  exists (newTick s (poolsOf s) still), plans,
    (allocate (applyCeiling (newTick s (poolsOf s) still) plans) (poolsOf s) plans (s_Runners s) demand).
  assert (Ed : demandOf_pass s = demand) by (unfold demandOf_pass; by rewrite Ea).
  split; rewrite ?Ed, ?Ea; simpl; try done. rewrite <- list_fmap_compose. done.
Qed.

(** ** The budget of a pass *)
Definition tickBudget (s : Snapshot) : Z :=
  if pol_MaxCreatesPerTick (s_Policy s) <=? 0 then int_max else pol_MaxCreatesPerTick (s_Policy s).
Definition liveOf (plans : list PoolPlan) : Z := foldl (fun n pp => n + pp_Current pp) 0 plans.

Lemma applyCeiling_spec t plans :
  0 <= t_budget t ->
  let t' := applyCeiling t plans in
  0 <= t_budget t' <= t_budget t /\ t_creates t' = t_creates t /\ t_hosts t' = t_hosts t /\ t_policy t' = t_policy t /\
  t_now t' = t_now t /\ t_stillRunning t' = t_stillRunning t /\
  (0 < pol_MaxRunners (t_policy t) -> liveOf plans + t_budget t' <= Z.max (liveOf plans) (pol_MaxRunners (t_policy t))) /\
  (t_budget t' <> t_budget t -> pol_MaxRunners (t_policy t) <= liveOf plans + t_budget t').
Proof.
  intros Hb. unfold applyCeiling. fold (liveOf plans). destruct (Z.ltb_spec 0 (pol_MaxRunners (t_policy t))); simpl.
  - destruct (Z.ltb_spec (Z.max (pol_MaxRunners (t_policy t) - liveOf plans) 0) (t_budget t)); simpl; split_and!; try done; lia.
  - split_and!; try done; lia.
Qed.

Section Pass.
Context {s : Snapshot} {plan : Plan} {t : tick} {plans : list PoolPlan} {st : allocState}.
Context (H : pass s plan t plans st).

Lemma pass_budget : t_budget t = tickBudget s /\ 0 < t_budget t.
Proof.
  rewrite (pass_tick _ _ _ _ _ H). unfold tickBudget. simpl. split; [done|].
  destruct (Z.leb_spec (pol_MaxCreatesPerTick (s_Policy s)) 0); [done|lia].
Qed.

Lemma pass_hosts : hs_hosts (t_hosts t) = sortedHosts (s_Hosts s) /\ hs_now (t_hosts t) = s_Now s /\
  hs_need (t_hosts t) = None /\ t_creates t = [] /\ t_policy t = s_Policy s.
Proof.
  rewrite (pass_tick _ _ _ _ _ H). simpl.
  destruct (newHostSet_frame (s_Hosts s) (poolsOf s) (s_Runners s) (s_Now s)) as (-> & -> & ->). done.
Qed.

Lemma pass_ready : ready {| al_tick := applyCeiling t plans; al_plans := plans |}.
Proof.
  destruct pass_budget as [_ Hb]. destruct (applyCeiling_spec t plans) as (? & _ & Eh & _); [lia|].
  destruct pass_hosts as (_ & _ & Hn & _). split; simpl; [by rewrite Eh|lia].
Qed.

(** The invariants of the allocation, at the end of the pass. *)
Lemma pass_kept (P : allocState -> Prop) :
  (forall st st', effect (s_Runners s) (demandOf_pass s) (byID plans) (poolsOf s) st st' -> P st -> P st') ->
  P {| al_tick := applyCeiling t plans; al_plans := plans |} -> P st.
Proof. rewrite (pass_alloc _ _ _ _ _ H). intros. by apply allocate_effects; [apply pass_ready|..]. Qed.

Lemma pass_plan_at i pp :
  plans !! i = Some pp -> exists p, poolsOf s !! i = Some p /\
    decidePool t p (map_get (s_Runners s) (p_ID p) []) (map_get (demandOf_pass s) (p_ID p) []) = Some pp.
Proof.
  intros Hi. pose proof (pass_plans _ _ _ _ _ H) as Hp. unfold decidePools in Hp. apply mapM_Some in Hp.
  destruct (Forall2_lookup_r _ _ _ _ _ Hp Hi) as (p & ? & ?). eauto.
Qed.

Lemma acts_not_create p rs a : acts_on t p rs a -> is_create a = false.
Proof. intros (r & _ & _ & _ & Hs). unfold is_create. apply bool_decide_eq_false. intros E. by rewrite E in Hs. Qed.

Lemma pass_no_creates pp : pp ∈ plans -> List.filter is_create (pp_Actions pp) = [].
Proof.
  intros Hin. apply list_elem_of_lookup in Hin as [i Hi]. destruct (pass_plan_at _ _ Hi) as (p & _ & Hd).
  apply decidePool_spec in Hd as (_ & _ & _ & _ & _ & _ & Ha).
  induction (pp_Actions pp) as [|a l IH]; [done|]. simpl.
  rewrite (acts_not_create p (compact (map_get (s_Runners s) (p_ID p) [])) a) by (apply Ha; left).
  apply IH. intros b Hb. apply Ha. by right.
Qed.

Lemma pass_kept_budget : budget_kept (applyCeiling t plans) st.
Proof.
  apply pass_kept; [by intros; eapply budget_step|]. destruct pass_ready. simpl in *. split_and!; try done; simpl; lia.
Qed.
Lemma pass_kept_plans : plans_kept plans st.
Proof. apply pass_kept; [by intros; eapply plans_step|]. apply Forall_Forall2_diag, Forall_true. intros; apply grown_refl. Qed.
Lemma pass_creates0 : t_creates (applyCeiling t plans) = [].
Proof.
  destruct pass_budget. destruct (applyCeiling_spec t plans) as (_ & -> & _); [lia|]. apply pass_hosts.
Qed.
Lemma pass_kept_creates : creates_kept st.
Proof.
  apply pass_kept; [by intros; eapply creates_step|]. unfold creates_kept. simpl. rewrite pass_creates0.
  unfold plan_creates. pose proof pass_no_creates as Hn. clear H. induction plans as [|pp l IH]; [done|]. csimpl.
  rewrite Hn by left. apply IH. intros. apply Hn. by right.
Qed.
Lemma pass_hosts0 : t_hosts (applyCeiling t plans) = t_hosts t.
Proof. destruct pass_budget. by destruct (applyCeiling_spec t plans) as (_ & _ & -> & _); [lia|]. Qed.
Lemma pass_kept_well a :
  a ∈ t_creates (al_tick st) -> placed_well (poolsOf s) plans (t_hosts t) a.
Proof.
  assert (Hw : well_kept (applyCeiling t plans) (poolsOf s) plans st).
  { apply pass_kept; [by intros; eapply well_step|]. split_and!; [done| |by left].
    apply Forall_Forall2_diag, Forall_true. intros; apply grown_refl. }
  intros Ha. destruct Hw as (_ & _ & Hw). destruct (Hw a Ha) as [Hn|Hp].
  - rewrite pass_creates0 in Hn. by apply elem_of_nil in Hn.
  - by rewrite pass_hosts0 in Hp.
Qed.
End Pass.

(** ** The plan's actions *)
Lemma filter_none {A} (f : A -> bool) l : (forall x, x ∈ l -> f x = false) -> List.filter f l = [].
Proof.
  induction l as [|x l IH]; intros Hf; [done|]. simpl. rewrite Hf by left. apply IH. intros. apply Hf. by right.
Qed.

Lemma split_perm {A} (f : A -> bool) l : Permutation (List.filter (fun x => negb (f x)) l ++ List.filter f l) l.
Proof.
  induction l as [|a l IH]; [done|]. simpl. destruct (f a); simpl; [|by f_equiv].
  by rewrite <- Permutation_middle, IH.
Qed.

Section Actions.
Context {s : Snapshot} {plan : Plan} {t : tick} {plans : list PoolPlan} {st : allocState}.
Context (H : pass s plan t plans st).

Definition cleanupOf (pps : list PoolPlan) : list Action :=
  concat ((fun pp => List.filter (fun a => negb (is_create a)) (pp_Actions pp)) <$> pps).

Lemma cleanupOf_elem pps a : a ∈ cleanupOf pps <-> is_create a = false /\ exists pp, pp ∈ pps /\ a ∈ pp_Actions pp.
Proof.
  unfold cleanupOf. rewrite list_elem_of_In, in_concat. setoid_rewrite <- list_elem_of_In.
  setoid_rewrite list_elem_of_fmap. split.
  - intros (l & (pp & -> & Hpp) & Ha). apply elem_of_bfilter in Ha as [Ha Hn]. apply negb_true_iff in Hn. eauto.
  - intros (Hc & pp & Hpp & Ha). eexists; split; [by exists pp|]. apply elem_of_bfilter. by rewrite Hc.
Qed.

Lemma pass_create a : a ∈ t_creates (al_tick st) -> is_create a = true.
Proof. intros Ha. destruct (pass_kept_well H a Ha) as [E _]. unfold is_create. by rewrite E. Qed.

(** The creates of the plan are those handed out. *)
Lemma pass_filter_creates : List.filter is_create (plan_Actions plan) = t_creates (al_tick st).
Proof.
  rewrite (pass_actions _ _ _ _ _ H), List.filter_app.
  rewrite (filter_none is_create (concat _)); [|intros a Ha; by apply (cleanupOf_elem (al_plans st)) in Ha as [? _]].
  simpl. apply forallb_filter_id. apply forallb_forall. intros a Ha%list_elem_of_In. by apply pass_create.
Qed.

Lemma pass_creates : creates (plan_Actions plan) = Z.of_nat (length (t_creates (al_tick st))).
Proof. unfold creates, countb. by rewrite pass_filter_creates. Qed.

Lemma liveOf_map pps pps' : Forall2 (fun a b => pp_Current b = pp_Current a) pps pps' -> liveOf pps' = liveOf pps.
Proof.
  unfold liveOf. generalize 0. intros z Hf. revert z. induction Hf as [|a b l l' E Hf IH]; intros z; simpl; [done|].
  by rewrite E, IH.
Qed.

Lemma pass_live : liveOf (plan_Pools plan) = liveOf plans.
Proof.
  rewrite (pass_pools _ _ _ _ _ H). apply liveOf_map. apply Forall2_fmap_r.
  eapply Forall2_impl; [apply (pass_kept_plans H)|]. intros a b ((_ & E & _) & _). done.
Qed.

(** The plan of a pool, from its decision. *)
Lemma pass_plan_of i pp :
  plan_Pools plan !! i = Some pp ->
  exists p pp0 pp1, poolsOf s !! i = Some p /\ plans !! i = Some pp0 /\ al_plans st !! i = Some pp1 /\
    pp = setUnserved pp1 /\ grown pp0 pp1 /\
    decidePool t p (map_get (s_Runners s) (p_ID p) []) (map_get (demandOf_pass s) (p_ID p) []) = Some pp0.
Proof.
  rewrite (pass_pools _ _ _ _ _ H), list_lookup_fmap. intros Hi.
  destruct (al_plans st !! i) as [pp1|] eqn:E; [|done]. injection Hi as <-.
  destruct (Forall2_lookup_r _ _ _ _ _ (pass_kept_plans H) E) as (pp0 & H0 & Hg).
  destruct (pass_plan_at H _ _ H0) as (p & Hp & Hd). eauto 10.
Qed.
End Actions.

Lemma byID_lookup plans id i : byID plans !! id = Some i -> exists pp, plans !! i = Some pp /\ pp_PoolID pp = id.
Proof.
  unfold byID. apply (foldl_invariant (fun m : gmap string nat => m !! id = Some i ->
    exists pp, plans !! i = Some pp /\ pp_PoolID pp = id)); [done|].
  intros m [j pp] IH Hin. apply elem_of_imap_pair in Hin. rewrite lookup_insert. case_decide; [|done].
  intros [= ->]. eauto.
Qed.


(** The plan's actions are the pools' own actions, each once, and every
    action that frees room comes before every create. *)
Theorem Decide_frees_before_creating (s : Snapshot) (plan : Plan) :
  Decide s = Some plan ->
  Permutation (plan_Actions plan) (concat (pp_Actions <$> plan_Pools plan)) /\
  exists cleanup cs, plan_Actions plan = cleanup ++ cs /\
    Forall (fun a => is_create a = false) cleanup /\ Forall (fun a => is_create a = true) cs.
Proof.
  intros (t & plans & st & H)%Decide_pass. split.
  - pose proof (pass_kept_creates H) as Hc. unfold creates_kept in Hc.
    rewrite (pass_actions _ _ _ _ _ H), (pass_pools _ _ _ _ _ H), <- Hc.
    unfold plan_creates. rewrite <- list_fmap_compose. generalize (al_plans st). clear.
    induction l as [|pp l IH]; [done|]. csimpl. rewrite <- IH.
    transitivity ((List.filter (fun a => negb (is_create a)) (pp_Actions pp) ++ List.filter is_create (pp_Actions pp)) ++
      concat ((fun pp => List.filter (fun a => negb (is_create a)) (pp_Actions pp)) <$> l) ++
      concat ((fun pp => List.filter is_create (pp_Actions pp)) <$> l)); [solve_Permutation|].
    f_equiv. apply split_perm.
  - eexists _, _. split; [exact (pass_actions _ _ _ _ _ H)|]. split; apply Forall_forall.
    + intros a Ha. by apply (cleanupOf_elem (al_plans st)) in Ha as [? _].
    + intros a Ha. by eapply pass_create.
Qed.


(** C3: Every create is for an enabled pool that is neither backing off after
    failed starts nor held by a rate limit, and names a registered host that can run
    the pool at that moment: up, in service, admitting, offering the backend, on the
    platform, matching the selector and large enough. *)
Theorem Decide_creates_placed (s : Snapshot) (plan : Plan) (a : Action) :
  Decide s = Some plan -> a ∈ plan_Actions plan -> a_Kind a = ActionCreate ->
  exists p h pp, Some p ∈ s_Pools s /\ Some h ∈ s_Hosts s /\ pp ∈ plan_Pools plan /\
    a_PoolID a = p_ID p /\ a_HostID a = h_ID h /\ pp_PoolID pp = p_ID p /\
    p_Enabled p = true /\ pp_Failing pp = "" /\ pp_Held pp = "" /\ HostCanRun h p (s_Now s) = true.
Proof.
  intros (t & plans & st & H)%Decide_pass Ha Ek.
  assert (Hc : a ∈ t_creates (al_tick st)).
  { rewrite <- (pass_filter_creates H). apply elem_of_bfilter. split; [done|]. unfold is_create. by rewrite Ek. }
  destruct (pass_kept_well H a Hc) as (_ & p & h & i & pp & Hp & Hh & Hx & Hi & E1 & E2 & Hen & Hf & Hhe & Hr).
  destruct (pass_hosts H) as (Eh & En & _). rewrite Eh in Hh. rewrite En in Hr.
  unfold sortedHosts in Hh. unfold poolsOf, sortedPools, compact in Hp.
  rewrite sort_elem_of, elem_of_omap_id in Hh. rewrite sort_elem_of, elem_of_omap_id in Hp.
  destruct (byID_lookup _ _ _ Hx) as (pp0 & Hi0 & Eid). assert (pp0 = pp) as -> by congruence.
  destruct (Forall2_lookup_l _ _ _ _ _ (pass_kept_plans H) Hi) as (pp1 & Hi1 & ((G1 & _ & _ & G4 & G5 & _) & _)).
  exists p, h, (setUnserved pp1). split_and!; try done; simpl; [|congruence..].
  rewrite (pass_pools _ _ _ _ _ H). apply list_elem_of_fmap. exists pp1. split; [done|by eapply list_elem_of_lookup_2].
Qed.

Lemma Host_Free_range h : 0 <= Host_Free h <= int_max.
Proof.
  unfold Host_Free. destruct (h_Retired h); [by split|].
  pose proof (wrap64_range (EffectiveCapacity h - h_ActiveRunners h)). unfold in_int64, int_min, int_max in *. cbv zeta.
  case_match; bool_to_prop; lia.
Qed.

Definition create_on (h : Host) (a : Action) : bool := is_create a && on_host h a.

Lemma countb_filter {A} (f g : A -> bool) l : countb (fun x => f x && g x) l = countb g (List.filter f l).
Proof.
  induction l as [|x l IH]; [done|]. rewrite countb_cons, IH. simpl. destruct (f x); simpl; [by rewrite countb_cons|lia].
Qed.

Lemma pass_slots {s plan t plans st} (H : pass s plan t plans st) h :
  unique_hosts (omap id (s_Hosts s)) -> h ∈ sortedHosts (s_Hosts s) ->
  free_of (t_hosts (al_tick st)) h + countb (on_host h) (t_creates (al_tick st)) = Host_Free h /\
  0 <= free_of (t_hosts (al_tick st)) h.
Proof.
  intros Hu Hh.
  assert (Hfree : free_of (t_hosts t) h = Host_Free h).
  { rewrite (pass_tick _ _ _ _ _ H).
    by destruct (newHostSet_host (s_Hosts s) (poolsOf s) (s_Runners s) (s_Now s) h Hu Hh) as (<- & _). }
  assert (HK : slots_kept (applyCeiling t plans) h st).
  { apply (pass_kept H); [intros; by eapply slots_step|]. pose proof (Host_Free_range h).
    split; [done|]. simpl. by rewrite (pass_hosts0 H), Hfree. }
  unfold slots_kept in HK. rewrite (pass_creates0 H), (pass_hosts0 H), Hfree, countb_nil in HK. lia.
Qed.

(** With one ID per host, a pass puts no more new runners on a host than the
    slots it has free: its effective capacity, which a throttle lowers, less the
    runners already on it, and none on a retired host. *)
Theorem Decide_host_slots (s : Snapshot) (plan : Plan) (h : Host) :
  Decide s = Some plan -> unique_hosts (omap id (s_Hosts s)) -> Some h ∈ s_Hosts s ->
  countb (create_on h) (plan_Actions plan) <= Host_Free h.
Proof.
  intros (t & plans & st & H)%Decide_pass Hu Hh.
  unfold create_on. rewrite (countb_filter is_create (on_host h)), (pass_filter_creates H).
  destruct (pass_slots H h Hu); [|lia]. unfold sortedHosts. by rewrite sort_elem_of, elem_of_omap_id.
Qed.

(** ** Nothing with a job on it is stopped *)
Lemma runnersWithAJob_spec s m :
  runnersWithAJob s = Some m ->
  forall id, map_get m id false = true <->
    map_get (s_RunnersWithAJob s) id false = true \/
    exists j, Some j ∈ s_Jobs s /\ j_State j = JobInProgress /\ j_RunnerID j = id /\ id <> "".
Proof.
  unfold runnersWithAJob. destruct (derefs (s_Jobs s)) as [jobs|] eqn:Ej; [|done]. intros [= <-] id.
  assert (Hin : forall j, Some j ∈ s_Jobs s <-> j ∈ jobs).
  { apply derefs_omap in Ej as ->. intros j. by rewrite elem_of_omap_id. }
  setoid_rewrite Hin. clear Ej Hin. generalize (s_RunnersWithAJob s).
  induction jobs as [|j jobs IH] using rev_ind; intros m.
  { simpl. split; [auto|]. intros [?|(j & Hj & _)]; [done|by apply elem_of_nil in Hj]. }
  rewrite foldl_app. simpl. setoid_rewrite elem_of_app. setoid_rewrite list_elem_of_singleton.
  destruct (bool_decide (j_State j = JobInProgress) && nonempty (j_RunnerID j)) eqn:E.
  - apply andb_true_iff in E as [E1%bool_decide_eq_true E2]. destruct (decide (j_RunnerID j = id)) as [<- |Hne].
    + rewrite map_get_insert. split; [|done]. intros _. right. exists j. split_and!; auto.
      intros E0. by rewrite E0 in E2.
    + rewrite map_get_insert_ne by done. rewrite IH. split; [intros [?|(x & ? & ?)]; eauto 8|].
      intros [?|(x & [?| ->] & ? & ? & ?)]; [by left|eauto 8|done].
  - rewrite IH. split; [intros [?|(x & ? & ?)]; eauto 8|].
    intros [?|(x & [?| ->] & Hs & Hx & Hne)]; [by left|eauto 8|]. rewrite Hs in E.
    destruct (nonempty (j_RunnerID j)) eqn:En; [done|]. apply nonempty_false in En. congruence.
Qed.

(** C2: No action takes a runner from under a job.  A drain or a removal names
    a runner of the pool that is neither busy nor draining, or a failure past its
    retention, on which no job of the snapshot is in progress and which the store does
    not list as running one; a failure names a runner still starting, or one draining
    with no job of its own. *)
Theorem no_action_stops_a_running_job (s : Snapshot) (plan : Plan) (a : Action) :
  Decide s = Some plan -> a ∈ plan_Actions plan -> a_Kind a <> ActionCreate ->
  exists r, Some r ∈ map_get (s_Runners s) (a_PoolID a) [] /\ r_ID r = a_RunnerID a /\ r_State r <> RunnerBusy /\
    match a_Kind a with
    | ActionFail => starting r = true \/ (r_State r = RunnerDraining /\ r_CurrentJobID r = "")
    | _ => r_State r <> RunnerDraining /\ map_get (s_RunnersWithAJob s) (r_ID r) false = false /\
           (forall j, Some j ∈ s_Jobs s -> j_State j = JobInProgress -> r_ID r <> "" -> j_RunnerID j <> r_ID r)
    end.
Proof.
  intros (t & plans & st & H)%Decide_pass Ha Hk.
  rewrite (pass_actions _ _ _ _ _ H) in Ha. apply elem_of_app in Ha as [Ha|Ha].
  2:{ destruct (pass_kept_well H a Ha) as [? _]. done. }
  apply (cleanupOf_elem (al_plans st)) in Ha as (_ & pp & Hpp & Ha).
  apply list_elem_of_lookup in Hpp as [i Hi].
  destruct (Forall2_lookup_r _ _ _ _ _ (pass_kept_plans H) Hi) as (pp0 & Hi0 & _ & (cs & Ecs & Hcs) & _).
  rewrite Ecs in Ha. apply elem_of_app in Ha as [Ha|Ha]; [|by rewrite Forall_forall in Hcs; apply Hcs in Ha].
  destruct (pass_plan_at H _ _ Hi0) as (p & _ & Hd). apply decidePool_spec in Hd as (_ & _ & _ & _ & _ & _ & Hacts).
  destruct (Hacts a Ha) as (r & Hr & E1 & E2 & Hs). exists r.
  pose proof (runnersWithAJob_spec s _ (pass_running _ _ _ _ _ H) (r_ID r)) as Hrun.
  assert (Hsafe : running t r = false -> map_get (s_RunnersWithAJob s) (r_ID r) false = false /\
    (forall j, Some j ∈ s_Jobs s -> j_State j = JobInProgress -> r_ID r <> "" -> j_RunnerID j <> r_ID r)).
  { unfold running. intros Hf. rewrite Hf in Hrun. split.
    - destruct (map_get (s_RunnersWithAJob s) (r_ID r) false) eqn:E; [|done]. discriminate (proj2 Hrun (or_introl eq_refl)).
    - intros j Hj Hjs Hne Ej. destruct Hrun as [_ Hrun]. discriminate Hrun. right. eauto 10. }
  rewrite E2. split; [by apply elem_of_omap_id|]. split; [done|].
  destruct (a_Kind a); [done|destruct Hs as (? & ? & ? & ?)|destruct Hs as (Es & ?)|].
  - do 2 (split; [done|]). by apply Hsafe.
  - rewrite Es. do 2 (split; [done|]). by apply Hsafe.
  - split; [|done]. simpl in Hs. unfold starting in Hs. destruct Hs as [Hs|[-> _]]; [|done].
    apply orb_true_iff in Hs as [Hs|Hs]; apply is_state_true in Hs; by rewrite Hs.
Qed.

(** C8: [Decide] panics exactly when the snapshot holds a nil job, or a nil runner
    under the ID of an enabled pool; nil pools, hosts and installations are skipped. *)
Theorem Decide_panics_iff (s : Snapshot) :
  Decide s = None <->
  None ∈ s_Jobs s \/
  exists p, Some p ∈ s_Pools s /\ p_Enabled p = true /\ None ∈ map_get (s_Runners s) (p_ID p) [].
Proof.
  unfold Decide. set (pools := sortedPools (s_Pools s)).
  assert (Hpools : forall p, p ∈ pools <-> Some p ∈ s_Pools s).
  { intros p. unfold pools, sortedPools, compact. by rewrite sort_elem_of, elem_of_omap_id. }
  destruct (assign _ _ _) as [demand unmatched].
  assert (Hj : runnersWithAJob s = None <-> None ∈ s_Jobs s).
  { unfold runnersWithAJob. rewrite <- derefs_None. by destruct (derefs (s_Jobs s)). }
  destruct (runnersWithAJob s) as [still|]; [|naive_solver].
  assert (Hnj : None ∉ s_Jobs s) by naive_solver. clear Hj.
  set (t := newTick s pools still).
  assert (Hp : decidePools t s demand pools = None <->
    exists p, p ∈ pools /\ p_Enabled p = true /\ None ∈ map_get (s_Runners s) (p_ID p) []).
  { unfold decidePools. rewrite mapM_None, Exists_exists. setoid_rewrite decidePool_None. naive_solver. }
  destruct (decidePools t s demand pools) as [plans|].
  - split; [done|]. intros [?|(p & ?%Hpools & ?)]; [done|]. destruct Hp as [_ Hp]. discriminate Hp. eauto.
  - split; [|done]. intros _. right. destruct Hp as [Hp _]. destruct (Hp eq_refl) as (p & ?%Hpools & ?). eauto.
Qed.

(** ** Memory *)

(** A measured host's memory that is allocatable and not promised to a runner. *)
Definition unpromised (s : Snapshot) (h : Host) : Z :=
  al_MemoryMB (Allocatable h) -% res_MemoryMB (Reserved h (Some <$> poolsOf s) (s_Runners s)).

(** A snapshot of real machines: one ID per host and per pool, sizes a float holds
    exactly, minimum charges that are not negative, and totals within 2^62 MB. *)
Record plausible (s : Snapshot) : Prop := {
  pl_hosts : unique_hosts (omap id (s_Hosts s));
  pl_pools : NoDup (p_ID <$> omap id (s_Pools s));
  pl_charges : forall p h, Some p ∈ s_Pools s -> Some h ∈ s_Hosts s -> chargeable p h;
  pl_range : forall h, Some h ∈ s_Hosts s -> - 2 ^ 62 <= unpromised s h <= 2 ^ 62
}.

(** The ledger of a plan: its creates made again one after the other from the snapshot's
    hosts, each with what [choose] charges it. *)
Definition planBook (s : Snapshot) (plan : Plan) : option (hostSet * list entry) :=
  bookOf (s_Runners s) (demandOf_pass s) (newTick s (poolsOf s) ∅) (poolsOf s)
           (List.filter is_create (plan_Actions plan)).

Lemma bookOf_tick runners demand t t' pools cs :
  t_hosts t = t_hosts t' -> t_now t = t_now t' -> t_history t = t_history t' -> t_historySizing t = t_historySizing t' ->
  bookOf runners demand t pools cs = bookOf runners demand t' pools cs.
Proof. intros E1 E2 E3 E4. unfold bookOf, book. by rewrite E1, E2, E3, E4. Qed.

Section Memory.
Context {s : Snapshot} {plan : Plan} {t : tick} {plans : list PoolPlan} {st : allocState}.
Context (H : pass s plan t plans st) (Hs : plausible s).

Lemma hosts_sorted h : h ∈ sortedHosts (s_Hosts s) <-> Some h ∈ s_Hosts s.
Proof. unfold sortedHosts. by rewrite sort_elem_of, elem_of_omap_id. Qed.

Lemma hosts_start h : h ∈ sortedHosts (s_Hosts s) ->
  alloc_of (t_hosts t) h = Allocatable h /\ promised_of (t_hosts t) h = unpromised s h /\ books (t_hosts t) h.
Proof.
  intros Hx. rewrite (pass_tick _ _ _ _ _ H). destruct Hs as [Hu _ _ Hrange].
  destruct (newHostSet_host (s_Hosts s) (poolsOf s) (s_Runners s) (s_Now s) h Hu Hx) as (_ & Ea & Ep & _).
  split; [exact Ea|]. split; [exact Ep|]. apply hosts_sorted in Hx as Hx'.
  pose proof (newHostSet_books (s_Hosts s) (poolsOf s) (s_Runners s) (s_Now s) h Hu Hx) as Hb.
  rewrite Ep in Hb. exact (Hb (Hrange h Hx')).
Qed.

Lemma pass_memory : memory_kept (s_Runners s) (demandOf_pass s) (applyCeiling t plans) (poolsOf s) st.
Proof.
  destruct Hs as [Hu Hnd Hch _]. destruct (pass_hosts H) as (Ehosts & _ & Hneed & _). pose proof (pass_hosts0 H) as E0.
  assert (Hsp : forall p, p ∈ poolsOf s <-> Some p ∈ s_Pools s)
    by (intros; unfold poolsOf, sortedPools, compact; by rewrite sort_elem_of, elem_of_omap_id).
  apply (pass_kept H).
  - intros st1 st2 He. apply memory_step with (plans0 := plans); [..|done]; rewrite ?E0, ?Ehosts.
    + unfold poolsOf, sortedPools. by rewrite sort_perm.
    + by apply unique_hosts_distinct, sortedHosts_unique.
    + intros p x ?%Hsp ?%hosts_sorted. auto.
  - split; [done|]. split; [done|]. simpl. split; [by rewrite E0|]. exists [], []. rewrite app_nil_r.
    split; [done|]. split; [done|]. split; [done|]. rewrite E0, Ehosts. intros x Hx.
    destruct (hosts_start x Hx) as (_ & _ & Hb). split; [done|]. intros _. split; [simpl; lia|].
    intros [?|(b & Hb1 & _)]; [done|by apply elem_of_nil in Hb1].
Qed.
End Memory.

(** C4: Over a pass from a [plausible] snapshot, the creates on a host with measured memory
    are charged no more than what was unpromised on it.  What a create is charged is read
    from the ledger: the plan's creates made again in their order, each on the hosts as those
    before it left them and with the requirement the queue sets, are given the hosts and the
    sizes the plan gives them; the charge of an entry is what [choose] works out there -- the
    pool's standard for a create that names no size, at least the size for one that does,
    raised to the requirement where sizing by history raises it. *)
Theorem Decide_memory_not_overcommitted (s : Snapshot) (plan : Plan) :
  Decide s = Some plan -> plausible s ->
  exists hs l, planBook s plan = Some (hs, l) /\
    Forall2 (entered (sortedPools (s_Pools s))) (List.filter is_create (plan_Actions plan)) l /\
    forall h, Some h ∈ s_Hosts s -> al_MemoryKnown (Allocatable h) = true ->
      (exists a, a ∈ plan_Actions plan /\ create_on h a = true) ->
      billed h l <= unpromised s h.
Proof.
  intros (t & plans & st & H)%Decide_pass Hs.
  destruct (pass_memory H Hs) as (_ & _ & _ & cs & l & Ecs & Hl & Hen & HM). rewrite (pass_creates0 H) in Ecs. simpl in Ecs.
  rewrite <- Ecs, <- (pass_filter_creates H) in Hen.
  exists (t_hosts (al_tick st)), l. split; [|split; [exact Hen|]].
  { unfold planBook. rewrite (pass_filter_creates H), Ecs, <- Hl.
    destruct (pass_budget H) as [_ Hb]. destruct (applyCeiling_spec t plans) as (_ & _ & Eh & _ & Ent & _); [lia|].
    apply bookOf_tick; rewrite ?Eh, ?Ent, (pass_tick _ _ _ _ _ H); try done; unfold applyCeiling; by repeat case_match. }
  intros h Hh Hk (a & Ha & Hon). rewrite (pass_hosts0 H) in HM. destruct (pass_hosts H) as (Ehosts & _).
  rewrite Ehosts in HM. apply hosts_sorted in Hh. destruct (HM h Hh) as [_ Hm].
  destruct (hosts_start H Hs h Hh) as (Ea & Ep & _). rewrite Ea in Hm. destruct (Hm Hk) as [Hd Hpos]. rewrite Ep in Hd.
  unfold create_on in Hon. apply andb_true_iff in Hon as [Hc Hon]. apply bool_decide_eq_true in Hon.
  assert (0 <= promised_of (t_hosts (al_tick st)) h); [|lia]. apply Hpos. right. exists a. split; [|done].
  rewrite <- Ecs, <- (pass_filter_creates H). by apply elem_of_bfilter.
Qed.

(** ** Nothing that could be served is left waiting *)
Lemma byID_fold l m i pp :
  NoDup ((pp_PoolID ∘ snd) <$> l) -> (i, pp) ∈ l ->
  foldl (fun (m : gmap string nat) '(i, pp) => <[pp_PoolID pp := i]> m) m l !! pp_PoolID pp = Some i.
Proof.
  revert m. induction l as [|[j q] l IH] using rev_ind; intros m Hnd Hin; [by apply elem_of_nil in Hin|].
  rewrite foldl_app. simpl. rewrite fmap_app, NoDup_app in Hnd. destruct Hnd as (Hl & Hdis & _).
  apply elem_of_app in Hin as [Hin|Hin%list_elem_of_singleton].
  - rewrite lookup_insert_ne; [by apply IH|]. intros E. apply (Hdis (pp_PoolID q)); [|left].
    rewrite E. apply list_elem_of_fmap. by exists (i, pp).
  - injection Hin as -> ->. by rewrite lookup_insert_eq.
Qed.

Lemma byID_unique plans i pp :
  NoDup (pp_PoolID <$> plans) -> plans !! i = Some pp -> byID plans !! pp_PoolID pp = Some i.
Proof.
  intros Hnd Hi. unfold byID. apply byID_fold; [|by apply elem_of_imap_pair].
  assert ((pp_PoolID ∘ snd) <$> imap pair plans = pp_PoolID <$> plans) as ->; [|done].
  rewrite list_fmap_compose. f_equal. rewrite fmap_imap. apply list_eq. intros j. rewrite list_lookup_imap.
  by destruct (plans !! j).
Qed.

(** C5: With one ID per pool, a pass that stops short of what an enabled pool
    is aiming at says why: the pool is blocked, failing or held, or the pass has made
    every create its limit allows, or the fleet is at its ceiling. *)
Theorem Decide_work_conserving (s : Snapshot) (plan : Plan) (i : nat) (p : Pool) (pp : PoolPlan) :
  Decide s = Some plan -> NoDup (p_ID <$> omap id (s_Pools s)) ->
  sortedPools (s_Pools s) !! i = Some p -> plan_Pools plan !! i = Some pp -> p_Enabled p = true ->
  let n := creates (plan_Actions plan) in
  pp_Desired pp <= pp_Current pp + creates (pp_Actions pp) \/
  pp_Blocked pp <> "" \/ pp_Failing pp <> "" \/ pp_Held pp <> "" \/
  (0 < pol_MaxCreatesPerTick (s_Policy s) /\ n = pol_MaxCreatesPerTick (s_Policy s)) \/ n = int_max \/
  (0 < pol_MaxRunners (s_Policy s) /\ pol_MaxRunners (s_Policy s) <= liveOf (plan_Pools plan) + n).
Proof.
  intros (t & plans & st & H)%Decide_pass Hnd Hp Hpp Hen. cbv zeta.
  destruct (pass_plan_of H _ _ Hpp) as (p' & pp0 & pp1 & Hp' & H0 & H1 & -> & Hg & Hd).
  assert (p' = p) as -> by (unfold poolsOf in Hp'; congruence).
  destruct (allocate_settles _ (poolsOf s) _ (s_Runners s) (demandOf_pass s) (pass_ready H)) as [Hb|Hs];
    rewrite <- (pass_alloc _ _ _ _ _ H) in *.
  - rewrite (pass_creates H), (pass_live H). destruct (pass_kept_budget H) as (_ & E & _).
    rewrite (pass_creates0 H), Hb in E. simpl in E.
    replace (Z.of_nat (length (t_creates (al_tick st)))) with (t_budget (applyCeiling t plans)) by lia. clear E.
    destruct (pass_budget H) as [Hb1 Hb0]. destruct (pass_hosts H) as (_ & _ & _ & _ & Epol).
    destruct (applyCeiling_spec t plans) as (Hr & _ & _ & _ & _ & _ & _ & Hcut); [lia|]. rewrite Epol in Hcut.
    do 4 right. destruct (decide (t_budget (applyCeiling t plans) = t_budget t)) as [E|E].
    + rewrite E, Hb1. unfold tickBudget. destruct (Z.leb_spec (pol_MaxCreatesPerTick (s_Policy s)) 0); auto.
    + right. right. split; [|auto]. unfold applyCeiling in E. rewrite Epol in E.
      destruct (Z.ltb_spec 0 (pol_MaxRunners (s_Policy s))); [done|by destruct E].
  - destruct (Hs p) as [?|Hset]; [unfold poolsOf; by eapply list_elem_of_lookup_2|congruence|].
    apply decidePool_spec in Hd as (Eid & _).
    assert (Hids : pp_PoolID <$> plans = p_ID <$> poolsOf s).
    { apply list_eq. intros j. rewrite !list_lookup_fmap. destruct (plans !! j) as [q|] eqn:Ej.
      - destruct (pass_plan_at H _ _ Ej) as (pj & -> & Hj). apply decidePool_spec in Hj as (E & _). simpl. by rewrite E.
      - pose proof (pass_plans _ _ _ _ _ H) as Hm. unfold decidePools in Hm. apply length_mapM in Hm.
        apply lookup_ge_None in Ej. rewrite (proj2 (lookup_ge_None (poolsOf s) j)); [done|]. lia. }
    assert (Hx : byID plans !! p_ID p = Some i).
    { rewrite <- Eid. apply byID_unique; [|done]. rewrite Hids. unfold poolsOf, sortedPools. by rewrite sort_perm. }
    specialize (Hset i pp1). unfold plan_at in Hset. rewrite Hx, H1 in Hset. specialize (Hset eq_refl).
    simpl. destruct Hset as [Hw|[?|[?|?]]]; [|auto..]. left. unfold wanting in Hw. apply Z.ltb_ge in Hw. done.
Qed.

(** ** The order things are listed in does not matter *)
Definition s_relisted (s : Snapshot) (pools : list (option Pool)) (hosts : list (option Host))
    (jobs : list (option Job)) : Snapshot :=
  {| s_Readiness := s_Readiness s; s_PreferReadiness := s_PreferReadiness s; s_Now := s_Now s;
     s_LastProvisioned := s_LastProvisioned s; s_Pools := pools; s_Runners := s_Runners s; s_Jobs := jobs;
     s_RunnersWithAJob := s_RunnersWithAJob s; s_ActiveByRepository := s_ActiveByRepository s; s_Hosts := hosts;
     s_Installations := s_Installations s; s_Policy := s_Policy s; s_Jitter := s_Jitter s;
     s_HeldInstallations := s_HeldInstallations s; s_JobHistory := s_JobHistory s;
     s_HistorySizing := s_HistorySizing s; s_HostOrder := s_HostOrder s |}.

Lemma foldl_perm {A B} (f : A -> B -> A) l l' s :
  (forall s x y, f (f s x) y = f (f s y) x) -> Permutation l l' -> foldl f s l = foldl f s l'.
Proof.
  intros Hc HP. revert s. induction HP as [|x l l' _ IH|x y l|l1 l2 l3 _ IH1 _ IH2]; intros s; simpl;
    [done|apply IH|by rewrite Hc|by rewrite IH1].
Qed.

(** Elements with distinct keys sort one way, when the last thing compared is the key. *)
Lemma cmp_on_ID {A} (f : A -> string) x y : cmp_on f strings_Compare x y = Eq -> f x = f y.
Proof. unfold cmp_on. apply cmp_eq. Qed.

Lemma runnersWithAJob_perm s pools hosts jobs :
  Permutation (s_Jobs s) jobs -> runnersWithAJob (s_relisted s pools hosts jobs) = runnersWithAJob s.
Proof.
  intros HP. unfold runnersWithAJob. cbn [s_relisted s_Jobs s_RunnersWithAJob].
  destruct (derefs (s_Jobs s)) as [l|] eqn:E, (derefs jobs) as [l'|] eqn:E'.
  - f_equal. apply foldl_perm.
    + intros m x y. repeat match goal with |- context [if ?b then _ else _] => destruct b end; try done.
      destruct (decide (j_RunnerID x = j_RunnerID y)) as [-> |]; [done|]. by apply insert_insert_ne.
    + apply derefs_omap in E as ->, E' as ->. by rewrite HP.
  - apply derefs_None in E'. rewrite <- HP, <- derefs_None in E'. congruence.
  - apply derefs_None in E. rewrite HP, <- derefs_None in E. congruence.
  - done.
Qed.

(** C7: With one ID per pool, host and job, the plan does not depend on the
    order the snapshot lists them in. *)
Theorem Decide_order_independent (s : Snapshot) pools hosts jobs :
  NoDup (p_ID <$> omap id (s_Pools s)) -> NoDup (h_ID <$> omap id (s_Hosts s)) ->
  NoDup (j_ID <$> omap id (s_Jobs s)) ->
  Permutation (s_Pools s) pools -> Permutation (s_Hosts s) hosts -> Permutation (s_Jobs s) jobs ->
  Decide (s_relisted s pools hosts jobs) = Decide s.
Proof.
  intros Np Nh Nj HPp HPh HPj. unfold Decide.
  rewrite (runnersWithAJob_perm s pools hosts jobs HPj). cbn [s_relisted s_Pools s_Jobs s_Installations s_Runners].
  assert (sortedPools pools = sortedPools (s_Pools s)) as ->.
  { symmetry. apply (sort_keyed _ p_ID); [|done|by apply omap_perm].
    intros x y [_ E]%cmp_lex_eq. by apply cmp_on_ID. }
  assert (Ej : sortedJobs jobs = sortedJobs (s_Jobs s)).
  { symmetry. apply (sort_keyed _ j_ID); [|done|by apply omap_perm].
    intros x y [_ [_ E]%cmp_lex_eq]%cmp_lex_eq. by apply cmp_on_ID. }
  assert (Eh : sortedHosts hosts = sortedHosts (s_Hosts s)).
  { symmetry. unfold sortedHosts. apply (sort_keyed (cmp_on h_ID strings_Compare) h_ID); [|done|by apply omap_perm]. intros x y. by apply cmp_on_ID. }
  unfold assign. rewrite Ej. unfold newTick, newHostSet. cbn [s_relisted s_Hosts s_Now s_Runners s_Policy
    s_ActiveByRepository s_Jitter s_LastProvisioned s_HeldInstallations s_JobHistory s_HistorySizing]. by rewrite Eh.
Qed.
