(* ===== verification/Fleet.v ===== *)
(** * A small fleet

    One host, two pools and a handful of runners and jobs, and a pass over them: the
    theorems of the other files that have hypotheses are applied here at inputs where
    those hold. *)
From Stdlib Require Import ZArith Lia Ascii String.
From stdpp Require Import base strings list gmap.
From S2P Require Import Prelude GoFloat GoString Naming Store Lifecycle Phrases Resources Throttle Labels History Placement Plan Assign Pools Allocate Decide.
Local Open Scope string_scope.
Local Open Scope list_scope.
Local Open Scope Z_scope.

Definition now0 : Time := 1000 * Hour.

Definition resources0 : Resources :=
  {| rs_CPUs := f64_of_Z 2; rs_MemoryMB := 4096; rs_DiskGB := 10; rs_PidsLimit := 0; rs_MinCPUs := f64_of_Z 1;
     rs_MinMemoryMB := 2048; rs_DaemonSharePercent := 0; rs_DaemonCPUSharePercent := 0;
     rs_DaemonMemorySharePercent := 0 |}.

Definition pool_named (id name : string) (enabled : bool) (limit : Z) : Pool :=
  {| p_ID := id; p_Name := name; p_InstallationID := "i1"; p_Labels := ["linux"]; p_NoDefaultLabels := false;
     p_RunnerGroup := ""; p_PullPolicy := "if-not-present"; p_Ephemeral := true; p_CPUBurstMode := ""; p_MemoryBurstMode := "";
     p_CacheScope := "pool"; p_Backend := "docker"; p_Platform := {| pl_OS := ""; pl_OSVersion := ""; pl_Arch := "" |}; p_Image := "";
     p_MinRunners := 0; p_MaxRunners := 4; p_RepositoryScaleUpLimit := limit; p_Priority := 0;
     p_IdleTimeout := 5 * Minute; p_DockerMode := DockerNone; p_Resources := resources0;
     p_CPUBurstMaxCPUs := f64_zero; p_MemoryBurstMaxMemoryMB := 0; p_SizeFromProfile := false; p_AutoKey := "";
     p_AutoMin := 0; p_AutoCap := 0; p_AutoPaused := false; p_FleetStandard := zero_RunnerSize;
     p_FleetMinimum := zero_RunnerSize;
     p_RunnerSettings := {| rst_ProvisionTimeout := None; rst_DrainTimeout := None; rst_MaxRunnerLifetime := None;
                            rst_ScaleUpDelay := None; rst_DockerWait := None |};
     p_HostSelector := ∅; p_Enabled := enabled |}.

Definition pool0 : Pool := pool_named "p1" "linux" true 0.
Definition pool1 : Pool := pool_named "p2" "old" false 0.

Definition h_with_usage (u : HostUsage) : Host :=
  {| h_Retired := false; h_ID := "h1"; h_Name := "metal-1"; h_Embedded := false; h_Capacity := 4;
     h_Backends := ["docker"]; h_BackendInfo := []; h_Labels := ∅; h_OS := "linux"; h_Distro := "ubuntu";
     h_OSVersion := "24.04"; h_Arch := "amd64"; h_CPUs := 8; h_MemoryMB := 16384; h_CPUMHz := 3000;
     h_MemoryMTs := 3200; h_DiskKind := "nvme"; h_Usage := u; h_Throttle := zero_HostThrottle;
     h_DiskTotalMB := 500000; h_DiskFreeMB := 400000; h_ReserveCPUs := 0; h_ReserveMemoryMB := 0;
     h_ReserveDiskMB := 0; h_RunnerProfile := zero_RunnerProfile; h_PriorityOverride := None;
     h_SizeClass := {| hsc_Class := ""; hsc_Pending := ""; hsc_PendingSince := None; hsc_ChangedAt := None |};
     h_Cordoned := false; h_Incompatible := false; h_LastHeartbeat := now0; h_ActiveRunners := 2;
     h_UnlimitedRunners := 0 |}.
Definition host0 : Host := h_with_usage zero_HostUsage.

Definition runner_in (id poolID : string) (state : RunnerState) (job : string) : Runner :=
  {| r_ID := id; r_PoolID := poolID; r_HostID := "h1"; r_Name := ""; r_Ephemeral := true; r_State := state; r_Image := ""; r_CurrentJobID := job;
     r_CreatedAt := now0 - Hour; r_ContainerStartedAt := None; r_RegisteredAt := Some (now0 - Hour);
     r_DrainingSince := None; r_StartedAt := Some (now0 - Hour); r_LastIdleAt := Some (now0 - 10 * Minute);
     r_FinishedAt := None; r_Message := ""; r_JobsHandled := 0; r_AllocatedCPUs := f64_of_Z 2;
     r_AllocatedMemoryMB := 4096; r_AllocationSource := ""; r_LentMemoryMB := 0; r_FaultKind := "" |}.

Definition job_in (id : string) (state : JobState) (runner : string) : Job :=
  {| j_Provisioning := ""; j_ProvisionNow := false; j_ID := id; j_Repo := "acme/app"; j_Workflow := "ci";
     j_JobName := "build"; j_Labels := ["self-hosted"; "linux"]; j_State := state; j_InstallationID := "i1";
     j_RunnerID := runner; j_QueuedAt := now0 - 5 * Minute; j_EligibleAt := None; j_SizeClass := "";
     j_SizeBasis := ""; j_SizeFloorMB := 0; j_RoutedClass := "" |}.

Definition snapshot0 : Snapshot :=
  {| s_Readiness := ∅; s_PreferReadiness := false; s_Now := now0; s_LastProvisioned := ∅;
     s_Pools := [Some pool0; Some pool1];
     s_Runners := {[ "p1" := [Some (runner_in "r1" "p1" RunnerBusy "j1")];
                     "p2" := [Some (runner_in "r2" "p2" RunnerIdle "")] ]};
     s_Jobs := [Some (job_in "j1" JobInProgress "r1"); Some (job_in "j2" JobQueued ""); Some (job_in "j3" JobQueued "")];
     s_RunnersWithAJob := ∅; s_ActiveByRepository := ∅; s_Hosts := [Some host0];
     s_Installations := [];
     s_Policy := {| pol_ScaleUpDelay := 0; pol_MaxRunnerLifetime := 0; pol_ProvisionTimeout := 10 * Minute;
                    pol_DrainTimeout := Hour; pol_MaxCreatesPerTick := 5; pol_MaxRunners := 0;
                    pol_Interval := 30 * Second |};
     s_Jitter := ∅; s_HeldInstallations := ∅; s_JobHistory := ∅; s_HistorySizing := ""; s_HostOrder := "" |}.

(** The plan of the pass: one drain, and two creates of which the second is smaller. *)
Definition plan0 : Plan :=
  Eval vm_compute in default {| plan_Pools := []; plan_Actions := []; plan_Unmatched := [] |} (Decide snapshot0).

Lemma decided0 : Decide snapshot0 = Some plan0.
Proof. vm_compute. reflexivity. Qed.

Definition no_action : Action := action ActionFail pool0 (runner_in "" "" RunnerFailed "") "".
Definition drain0 : Action := Eval vm_compute in nth 0 (plan_Actions plan0) no_action.
Definition create0 : Action := Eval vm_compute in nth 1 (plan_Actions plan0) no_action.

Lemma plausible0 : plausible snapshot0.
Proof.
  split.
  - apply (bool_decide_unpack _). vm_compute. exact I.
  - apply (bool_decide_unpack _). vm_compute. exact I.
  - intros p h Hp Hh. apply list_elem_of_singleton in Hh. injection Hh as ->.
    apply elem_of_cons in Hp as [E|E]; [|apply list_elem_of_singleton in E]; injection E as ->;
      (split; [by repeat split|by vm_compute]).
  - intros h Hh. apply list_elem_of_singleton in Hh. injection Hh as ->. by vm_compute.
Qed.


Lemma Decide_creates_placed_witness :
  exists p h pp, Some p ∈ s_Pools snapshot0 /\ Some h ∈ s_Hosts snapshot0 /\ pp ∈ plan_Pools plan0 /\
    "p1" = p_ID p /\ "h1" = h_ID h /\ pp_PoolID pp = p_ID p /\
    p_Enabled p = true /\ pp_Failing pp = "" /\ pp_Held pp = "" /\ HostCanRun h p now0 = true.
Proof.
  apply (Decide_creates_placed snapshot0 plan0 create0 decided0); [|reflexivity].
  apply elem_of_cons. right. apply elem_of_cons. left. reflexivity.
Defined.

Lemma no_action_stops_a_running_job_witness :
  exists r, Some r ∈ map_get (s_Runners snapshot0) "p2" [] /\ r_ID r = "r2" /\ r_State r <> RunnerBusy /\
    (r_State r <> RunnerDraining /\ map_get (s_RunnersWithAJob snapshot0) (r_ID r) false = false /\
     (forall j, Some j ∈ s_Jobs snapshot0 -> j_State j = JobInProgress -> r_ID r <> "" -> j_RunnerID j <> r_ID r)).
Proof.
  apply (no_action_stops_a_running_job snapshot0 plan0 drain0 decided0); [|discriminate].
  apply elem_of_cons. left. reflexivity.
Defined.

Lemma Decide_host_slots_witness : countb (create_on host0) (plan_Actions plan0) <= 2.
Proof.
  apply (Decide_host_slots snapshot0 plan0 host0 decided0); [apply plausible0|].
  apply elem_of_cons. left. reflexivity.
Defined.

Lemma Decide_memory_not_overcommitted_witness :
  exists hs l, planBook snapshot0 plan0 = Some (hs, l) /\ length l = 2%nat /\
    0 < billed host0 l <= unpromised snapshot0 host0.
Proof.
  destruct (Decide_memory_not_overcommitted snapshot0 plan0 decided0 plausible0) as (hs & l & Hl & _ & Hh).
  exists hs, l. split; [exact Hl|].
  assert (Hc : billed host0 l <= unpromised snapshot0 host0).
  { apply Hh.
    - apply elem_of_cons. left. reflexivity.
    - reflexivity.
    - exists create0. split; [apply elem_of_cons; right; apply elem_of_cons; left; reflexivity|reflexivity]. }
  vm_compute in Hl. injection Hl as _ <-. split; [reflexivity|]. split; [reflexivity|exact Hc].
Defined.

Lemma Decide_work_conserving_witness :
  exists pp, plan_Pools plan0 !! 0%nat = Some pp /\
  (pp_Desired pp <= pp_Current pp + creates (pp_Actions pp) \/
   pp_Blocked pp <> "" \/ pp_Failing pp <> "" \/ pp_Held pp <> "" \/
   (0 < 5 /\ creates (plan_Actions plan0) = 5) \/ creates (plan_Actions plan0) = int_max \/
   (0 < 0 /\ 0 <= liveOf (plan_Pools plan0) + creates (plan_Actions plan0))).
Proof.
  eexists. split; [reflexivity|].
  apply (Decide_work_conserving snapshot0 plan0 0 pool0); [exact decided0|apply plausible0|reflexivity..].
Defined.


Lemma Decide_frees_before_creating_witness :
  Permutation (plan_Actions plan0) (concat (pp_Actions <$> plan_Pools plan0)).
Proof. apply (Decide_frees_before_creating snapshot0 plan0 decided0). Defined.

Lemma Decide_order_independent_witness :
  Decide (s_relisted snapshot0 (rev (s_Pools snapshot0)) (rev (s_Hosts snapshot0)) (rev (s_Jobs snapshot0))) =
  Decide snapshot0.
Proof.
  apply (Decide_order_independent snapshot0); try apply Permutation_rev;
    apply (bool_decide_unpack _); vm_compute; exact I.
Defined.

(** ** Sizes *)
(** Room for three quarters of a runner. *)
Definition left0 : Reservation := {| res_CPUs := f64_of_Z 8; res_MemoryMB := 3000; res_DiskMB := 100000 |}.

Lemma ReducedSize_bounds_witness :
  exists charge grant, ReducedSize pool0 host0 left0 (Allocatable host0) = Some (charge, grant) /\
    res_MemoryMB charge <= 3000.
Proof.
  assert (Hm : measurable pool0 host0) by by repeat split.
  assert (Hl : 0 <= res_MemoryMB left0 <= int_max) by by split.
  destruct (ReducedSize pool0 host0 left0 (Allocatable host0)) as [[charge grant]|] eqn:E; [|by vm_compute in E].
  exists charge, grant. split; [reflexivity|].
  apply (ReducedSize_bounds pool0 host0 left0 (Allocatable host0) charge grant Hm Hl E). reflexivity.
Defined.

Lemma smallestFitting_least_witness : smallestFitting 0 100 (fun v => 37 <=? v) = 37.
Proof.
  destruct (smallestFitting_least 0 100 (fun v => 37 <=? v)) as (H1 & H2 & H3);
    [lia|unfold int_max; lia|intros v w; lia|reflexivity].
Defined.

(** A pool too large for the host, and the machine that would do. *)
Definition large0 : Pool := p_with_resources pool0 (rs_with_min (rs_with_size resources0 (f64_of_Z 16) 65536) f64_zero 0).

Lemma MachineFor_fits_witness :
  exists m cpus memoryMB total free, MachineFor host0 large0 = Some m /\
    HostFits (h_with_size host0 cpus memoryMB total free) large0 = true.
Proof.
  destruct (MachineFor host0 large0) as [m|] eqn:E; [|by vm_compute in E].
  destruct (MachineFor_fits host0 large0 m E) as (cpus & memoryMB & total & free & Hf & _).
  exists m, cpus, memoryMB, total, free. split; [reflexivity|exact Hf].
Defined.

Lemma ReservedByHost_is_Reserved_witness :
  ReservedByHost [Some host0] (s_Pools snapshot0) (s_Runners snapshot0) !! "h1" =
  Some (Reserved host0 (s_Pools snapshot0) (s_Runners snapshot0)).
Proof.
  apply (ReservedByHost_is_Reserved [Some host0] (s_Pools snapshot0) (s_Runners snapshot0) host0).
  - intros [|i] [|j] h h' Hi Hj _; [reflexivity|discriminate..].
  - apply elem_of_cons. left. reflexivity.
Defined.

(** ** The ladder *)
Definition usage_at (percent : Z) (at_ : Time) : HostUsage :=
  {| u_CPUPercent := Some (f64_of_Z percent); u_MemoryAvailableMB := Some 8000; u_LoadAverage1 := Some (f64_of_Z 1);
     u_SampledAt := at_; u_CPUHighSince := None; u_CPUHeld := false; u_LentCPUPercent := f64_zero;
     u_IOWaitPercent := None; u_StealPercent := None; u_IOWaitHighSince := None |}.
Definition rung1 : HostThrottle :=
  {| th_Level := 1; th_Since := Some now0; th_ChangedAt := Some now0; th_CalmSince := None; th_Reason := "load" |}.
Definition calm_at (at_ : Time) : Throttle.pass := (h_with_usage (usage_at 10 at_), at_).

Lemma throttle_climbs_slowly_witness : th_Level (throttle_run rung1 [calm_at (now0 + Minute)]) <= 2.
Proof.
  apply (throttle_climbs_slowly rung1 [calm_at (now0 + Minute)] now0).
  - right. split; [by split|split; eexists; reflexivity].
  - intros x Hx. apply list_elem_of_singleton in Hx. subst. vm_compute. split; [discriminate|reflexivity].
Defined.

Lemma throttle_recovers_witness :
  throttle_run rung1 [calm_at (now0 + Minute); calm_at (now0 + Hour)] = zero_HostThrottle.
Proof.
  apply (throttle_recovers rung1 (calm_at (now0 + Minute)) [calm_at (now0 + Hour)]).
  - right. split; [by split|split; eexists; reflexivity].
  - split; [reflexivity|split; reflexivity].
  - repeat constructor.
  - split; [vm_compute; discriminate|exact I].
  - intros c Hc. discriminate Hc.
  - vm_compute. discriminate.
Defined.

(** Two samples at full load, forty seconds apart. *)
Definition sample (at_ : Time) (us : list HostUsage) : list HostUsage :=
  ObserveHostUsage (default zero_HostUsage (head us)) (usage_at 100 at_) f64_zero 16384 at_ :: us.

Lemma cpu_hold_hysteresis_witness :
  let us := sample (now0 + 40 * Second) (sample now0 []) in
  exists k j uk uj, (k <= j)%nat /\ us !! k = Some uk /\ us !! j = Some uj /\
    CPUHoldWindow <= u_SampledAt uk - u_SampledAt uj.
Proof.
  intros us.
  assert (Ho : observed us) by (repeat constructor).
  assert (Hh : u_CPUHeld (nth 0 us zero_HostUsage) = true) by reflexivity.
  destruct (cpu_hold_hysteresis (nth 0 us zero_HostUsage) (tl us) Ho Hh) as (k & j & uk & uj & H1 & H2 & H3 & H4 & _).
  exists k, j, uk, uj. split; [exact H1|]. split; [exact H2|]. split; [exact H3|exact H4].
Defined.

(** ** One pool *)
Definition tick0 : tick := newTick snapshot0 (sortedPools (s_Pools snapshot0)) ∅.

Lemma scaleDown_keeps_minimum_witness :
  Z.of_nat (length (fst (scaleDown tick0 pool0 0 [runner_in "r2" "p1" RunnerIdle ""; runner_in "r3" "p1" RunnerIdle ""] 2))) <= 2.
Proof.
  apply (scaleDown_keeps_minimum tick0 pool0 0 [runner_in "r2" "p1" RunnerIdle ""; runner_in "r3" "p1" RunnerIdle ""] 2).
  apply (bool_decide_unpack _). vm_compute. exact I.
Defined.

(** The pool with a limit of one job per repository. *)
Definition limited0 : Pool := pool_named "p1" "linux" true 1.

Lemma demand_within_quota_witness :
  map_get (ds_admitted (demandOf tick0 limited0 [job_in "j2" JobQueued ""; job_in "j3" JobQueued ""])) "acme/app" 0 <= 1 /\
  ds_eligible (demandOf tick0 limited0 [job_in "j2" JobQueued ""; job_in "j3" JobQueued ""]) +
  ds_deferred (demandOf tick0 limited0 [job_in "j2" JobQueued ""; job_in "j3" JobQueued ""]) = 2.
Proof.
  destruct (demand_within_quota tick0 limited0 [job_in "j2" JobQueued ""; job_in "j3" JobQueued ""]) as [H1 H2].
  - by split.
  - intros repo. unfold tick0, map_get. simpl. rewrite lookup_empty. simpl. lia.
  - split; [exact (H1 "acme/app")|]. rewrite H2. reflexivity.
Defined.

(** ** Lifecycles *)
Definition new_row : Runner :=
  {| r_ID := "r9"; r_PoolID := "p1"; r_HostID := "h1"; r_Name := ""; r_Ephemeral := true; r_State := RunnerProvisioning; r_Image := "";
     r_CurrentJobID := ""; r_CreatedAt := now0; r_ContainerStartedAt := None; r_RegisteredAt := None;
     r_DrainingSince := None; r_StartedAt := None; r_LastIdleAt := None; r_FinishedAt := None; r_Message := "";
     r_JobsHandled := 0; r_AllocatedCPUs := f64_zero; r_AllocatedMemoryMB := 0; r_AllocationSource := "";
     r_LentMemoryMB := 0; r_FaultKind := "" |}.
Definition table0 : gmap string Runner := {[ "r9" := new_row ]}.
(** The table after a transition that is allowed. *)
Definition moved (tbl : gmap string Runner) (to : RunnerState) : gmap string Runner :=
  match TransitionRunner tbl "r9" to "" now0 with inr (_, tbl') => tbl' | inl _ => tbl end.

Lemma lifecycle_invariant_witness : reachable table0 /\ table_wf table0.
Proof.
  assert (H : reachable table0) by (apply rtc_once, (tstep_create ∅ "r9" new_row); [reflexivity|by repeat split]).
  split; [exact H|apply (lifecycle_invariant table0 H)].
Defined.

Lemma terminal_is_absorbing_witness :
  exists r' : Runner, moved (moved table0 RunnerFailed) RunnerRemoved !! "r9" = Some r' /\
    Terminal (r_State r') = true /\ (RunnerFailed = RunnerRemoved -> r_State r' = RunnerRemoved).
Proof.
  apply (terminal_is_absorbing (moved table0 RunnerFailed) (moved (moved table0 RunnerFailed) RunnerRemoved) "r9"
    (stamp new_row RunnerFailed "" "" now0)).
  - apply rtc_once. eapply (tstep_transition _ "r9" RunnerRemoved "" "" false now0). reflexivity.
  - reflexivity.
  - reflexivity.
Defined.

