(* ===== verification/FleetSizes.v ===== *)
(** * Classes, loans and pictures

    Concrete inputs for the theorems on size classes, routing, elastic limits and QR
    codes that have hypotheses: two pools of different classes with a job that waited
    too long, a job with a history, a loan nobody used, and a short text. *)
From Stdlib Require Import ZArith Lia Ascii String.
From stdpp Require Import base strings list gmap sorting.
From S2P Require Import Prelude GoFloat GoString Qr QrField QrScan Store Resources Elastic Labels History SizeClass Classify Placement Plan Assign Routing Fleet.
Local Open Scope string_scope.
Local Open Scope list_scope.
Local Open Scope Z_scope.

(** ** Hosts *)

(** A host that measured medium, and then large for eleven minutes. *)
Definition looks0 : list (string * Time) := [(SizeMedium, now0); (SizeLarge, now0 + Minute)].

Lemma host_class_moves_after_hold_witness :
  exists since, named_since looks0 SizeLarge since /\ 10 * Minute <= now0 + 12 * Minute - since.
Proof.
  apply (host_class_moves_after_hold (10 * Minute) looks0 SizeLarge (now0 + 12 * Minute));
    [reflexivity|vm_compute; discriminate..].
Defined.

(** ** Jobs *)
Definition run_of (peak : Z) (killed : bool) (at_ : Time) : JobRun :=
  {| run_CompletedAt := at_; run_Duration := 10 * Minute; run_PeakCPUs := f64_of_Z 1; run_PeakMemoryMB := peak;
     run_GrantedCPUs := f64_of_Z 2; run_GrantedMemoryMB := 4096; run_OOMKilled := killed; run_CPUPeriods := 1000;
     run_CPUThrottledPeriods := 10 |}.
Definition kept_in (class : string) : JobClass :=
  {| jc_Repo := "acme/app"; jc_Workflow := "ci"; jc_JobName := "build"; jc_Class := class; jc_Reason := "";
     jc_Basis := SizeBasisHistory; jc_FloorMB := 0; jc_Runs := 10; jc_ComputedAt := now0 - 400 * Hour;
     jc_MovedAt := now0 - 400 * Hour |}.
Definition classify_of (runs : list JobRun) : ClassifyInput :=
  {| ci_Labels := ["self-hosted"]; ci_Pin := None; ci_Runs := runs; ci_Current := Some (kept_in SizeLarge); ci_Now := now0 |}.

(** Ten light runs, a day apart. *)
Definition light0 : list JobRun := (fun i => run_of 500 false (now0 - 24 * Hour * Z.of_nat i)) <$> seq 0 10.

Lemma Classify_holds_the_need_witness :
  holds_mb DefaultSizeConfig (cn_Class (Classify DefaultSizeConfig (classify_of light0)))
    (cn_FloorMB (Classify DefaultSizeConfig (classify_of light0))).
Proof. apply (Classify_holds_the_need DefaultSizeConfig (classify_of light0)). by split. Defined.

Lemma Classify_moves_down_slowly_witness :
  Smaller SizeLarge = Some SizeMedium /\
  fit_below DefaultSizeConfig (runsSince light0 (now0 - 400 * Hour)) SizeMedium.
Proof.
  assert (E : cn_Class (Classify DefaultSizeConfig (classify_of light0)) = SizeMedium) by (vm_compute; reflexivity).
  rewrite <- E. apply (Classify_moves_down_slowly DefaultSizeConfig (classify_of light0) (kept_in SizeLarge));
    [reflexivity..|rewrite E; reflexivity].
Defined.

Definition key0 : JobKey := ("acme/app", "ci", "build").
Definition classes0 : gmap JobKey JobClass := {[ key0 := kept_in SizeLarge ]}.

Lemma refresh_settles_witness :
  let once := refreshJobClass DefaultSizeConfig key0 light0 now0 classes0 in
  kept_as <$> refreshJobClass DefaultSizeConfig key0 light0 (now0 + Hour) once !! key0 = kept_as <$> once !! key0.
Proof.
  apply (refresh_settles DefaultSizeConfig key0 light0 now0 (now0 + Hour) classes0).
  - intros key row E. unfold classes0 in E. apply lookup_singleton_Some in E as [_ E]. subst row. vm_compute. reflexivity.
  - apply Forall_forall, (bool_decide_unpack (Forall (fun r => run_CompletedAt r <= at_ms now0) light0)). vm_compute. exact I.
Defined.

(** ** Routing *)
Definition classed_pool (id class : string) : Pool :=
  let p := pool_named id class true 0 in
  {| p_ID := p_ID p; p_Name := p_Name p; p_InstallationID := p_InstallationID p; p_Labels := ["linux"];
     p_NoDefaultLabels := false; p_RunnerGroup := ""; p_PullPolicy := p_PullPolicy p; p_Ephemeral := true;
     p_CPUBurstMode := ""; p_MemoryBurstMode := ""; p_CacheScope := p_CacheScope p; p_Backend := p_Backend p; p_Platform := p_Platform p; p_Image := ""; p_MinRunners := 0;
     p_MaxRunners := 4; p_RepositoryScaleUpLimit := 0; p_Priority := 0; p_IdleTimeout := p_IdleTimeout p;
     p_DockerMode := p_DockerMode p; p_Resources := p_Resources p; p_CPUBurstMaxCPUs := f64_zero;
     p_MemoryBurstMaxMemoryMB := 0; p_SizeFromProfile := false; p_AutoKey := AutoKeyFor "amd64" class; p_AutoMin := 0; p_AutoCap := 0;
     p_AutoPaused := false; p_FleetStandard := zero_RunnerSize; p_FleetMinimum := zero_RunnerSize;
     p_RunnerSettings := p_RunnerSettings p; p_HostSelector := ∅; p_Enabled := true |}.

Definition small_job : Job :=
  let j := job_in "j7" JobQueued "" in
  {| j_Provisioning := ""; j_ProvisionNow := false; j_ID := j_ID j; j_Repo := j_Repo j; j_Workflow := j_Workflow j;
     j_JobName := j_JobName j; j_Labels := j_Labels j; j_State := JobQueued; j_InstallationID := j_InstallationID j;
     j_RunnerID := ""; j_QueuedAt := now0 - 5 * Minute; j_EligibleAt := None; j_SizeClass := SizeSmall;
     j_SizeBasis := SizeBasisHistory; j_SizeFloorMB := 500; j_RoutedClass := SizeSmall |}.

(** The small pool cannot start the runner the job waits for; the medium one is idle. *)
Definition plan_of (id : string) (unserved : Z) : PoolPlan :=
  {| pp_PoolID := id; pp_PoolName := id; pp_Current := 0; pp_Desired := 1; pp_QueuedMatched := 1; pp_QuotaDeferredJobs := 0;
     pp_QuotaDeferredRepositories := []; pp_eligible := unserved; pp_supply := 0; pp_Unserved := unserved; pp_Reason := "";
     pp_Blocked := ""; pp_BlockedFix := ""; pp_BlockedAtCapacity := false; pp_BlockedNoEligibleHost := false;
     pp_BlockedAlternatives := []; pp_Failing := ""; pp_FailingFault := ""; pp_Held := ""; pp_History := "";
     pp_HistoryUnfit := ""; pp_Actions := [] |}.
Definition routing0 : RoutingInput :=
  {| ri_Now := now0; ri_Pools := [Some (classed_pool "a" SizeSmall); Some (classed_pool "m" SizeMedium)];
     ri_Hosts := [host0]; ri_Jobs := [Some small_job];
     ri_Plan := {| plan_Pools := [plan_of "a" 1; plan_of "m" 0]; plan_Actions := []; plan_Unmatched := [] |};
     ri_Config := DefaultSizeConfig; ri_Size := None |}.
Definition moves0 : list Reroute := Eval vm_compute in default [] (Fallbacks routing0).
Definition move0 : Reroute :=
  Eval vm_compute in nth 0 moves0 {| rr_Job := small_job; rr_From := ""; rr_To := ""; rr_Note := "" |}.

Lemma routed0 : Fallbacks routing0 = Some moves0 /\ rr_To move0 = SizeMedium /\ length moves0 = 1%nat.
Proof. vm_compute. repeat split. Qed.

Lemma Fallbacks_sound_witness : good_move routing0 move0.
Proof.
  apply (Fallbacks_sound routing0 moves0);
    [apply (bool_decide_unpack _); vm_compute; exact I..|apply routed0|].
  apply elem_of_cons. left. reflexivity.
Defined.

Lemma Fallbacks_within_room_witness : countb (lands_at routing0 "m") moves0 <= 4.
Proof.
  apply (Fallbacks_within_room routing0 moves0 move0 (classed_pool "m" SizeMedium));
    [apply (bool_decide_unpack _); vm_compute; exact I..|apply routed0| |vm_compute; discriminate|vm_compute; reflexivity].
  apply elem_of_cons. left. reflexivity.
Defined.

(** ** Loans *)

(** A runner of two CPUs with a limit of four that uses one. *)
Definition unused_at (at_ : Time) : LoanInput :=
  {| li_Now := at_; li_SampledAt := at_; li_BaseCPUs := f64_of_Z 2; li_LimitCPUs := f64_of_Z 4; li_UsedCPUs := f64_of_Z 1;
     li_HolderBaseCPUs := f64_zero; li_HolderUsedCPUs := f64_zero; li_Saturated := false; li_Demanding := false;
     li_Memory := zero_LoanMemory |}.
Definition unused0 : list LoanInput := [unused_at now0; unused_at (now0 + 10 * Second)].
Definition reclaim0 : LoanInput := unused_at (now0 + 20 * Second).
(** The same runner at its own limit. *)
Definition pressed_at (at_ : Time) : LoanInput :=
  {| li_Now := at_; li_SampledAt := at_; li_BaseCPUs := f64_of_Z 2; li_LimitCPUs := f64_of_Z 2; li_UsedCPUs := f64_of_Z 2;
     li_HolderBaseCPUs := f64_zero; li_HolderUsedCPUs := f64_zero; li_Saturated := true; li_Demanding := true;
     li_Memory := zero_LoanMemory |}.

Lemma loan_reclaimed_after_low_samples_witness :
  exists pre run xs, unused0 ++ [reclaim0] = pre ++ run /\ Forall unused run /\ xs `sublist_of` run /\
    3 <= Z.of_nat (length xs) /\ StronglySorted Z.lt (li_SampledAt <$> xs).
Proof. apply (loan_reclaimed_after_low_samples unused0 reclaim0). vm_compute. reflexivity. Defined.

Lemma loan_backs_off_witness :
  ld_Code (beat (recall (ld_Memory (beat (recall zero_LoanMemory unused0) reclaim0)) []) (pressed_at (now0 + Minute)))
  = LoanBackoffOverride.
Proof.
  apply (loan_backs_off (recall zero_LoanMemory unused0) reclaim0 [] (pressed_at (now0 + Minute))).
  - vm_compute. reflexivity.
  - discriminate.
  - intros y Hy. apply list_elem_of_singleton in Hy. subst. vm_compute. reflexivity.
  - intros before y after E. destruct before; discriminate E.
  - vm_compute. reflexivity.
Defined.

Definition memory0 : MemoryPoolInput :=
  {| mi_TotalMB := 16384; mi_FloorMB := 2048; mi_StartReserveMB := 1024; mi_AvailableMB := Some 6000;
     mi_Workloads := [{| mw_ID := "r1"; mw_GuaranteeMB := 4096; mw_LentMB := 512; mw_Idle := false |};
                      {| mw_ID := "r2"; mw_GuaranteeMB := 2048; mw_LentMB := 0; mw_Idle := true |}] |}.

Lemma sane0 : sane memory0.
Proof.
  split; [split|..]; try (intros a E; injection E as E; subst a; split); apply Z.leb_le; vm_compute; reflexivity.
Qed.

Lemma memory_pool_within_machine_witness : mp_PoolMB (PlanMemoryPool memory0) + Z.max 2048 0 <= 6000.
Proof.
  destruct (memory_pool_within_machine memory0 sane0) as (_ & _ & _ & H & _).
  apply H; [reflexivity|vm_compute; reflexivity].
Defined.

(** ** Pictures *)
Definition text0 : list Z := [104; 105].

Lemma bytes0 : Forall byte text0.
Proof. repeat constructor; vm_compute; discriminate. Qed.

Lemma reedSolomon_syndromes_witness : eval (text0 ++ reedSolomon text0 10) (gfExp 3) = 0.
Proof. apply (reedSolomon_syndromes 1 text0); [by split|exact bytes0|by split]. Defined.

Lemma scan_Encode_witness :
  match Encode text0 with inl c => scan (c_Size c) (c_modules c) = Some text0 | inr _ => False end.
Proof.
  pose proof (scan_Encode text0 bytes0) as H. destruct (Encode text0) as [c|[]]; [apply H|].
  simpl in H. lia.
Defined.

Lemma Encode_chooses_witness :
  exists c, Encode text0 = inl c /\ exists v mask, 1 <= v <= maxVersion /\ 0 <= mask < 8 /\
    c = withMask v (interleave v (dataCodewords v text0)) mask.
Proof.
  destruct (Encode text0) as [c|e] eqn:E; [|vm_compute in E; discriminate E]. exists c. split; [reflexivity|].
  destruct (Encode_chooses text0 c E) as (v & mask & Hv & Hm & _ & _ & Hc & _). exists v, mask. split; [exact Hv|].
  split; [exact Hm|exact Hc].
Defined.

Definition code0 : Code := newCode 1.

Lemma SVG_paints_dark_witness : exists s len, (s, 0, len) ∈ rectangles code0 /\ s <= 3 < s + len.
Proof. apply (SVG_paints_dark code0 3 0); [lia|lia|vm_compute; reflexivity]. Defined.
