(* ===== verification/Jobs.v ===== *)
(** * The jobs table (store/queries_events.go)

    GitHub delivers a job's events at least once and in any order; [ApplyJob] merges each
    into the job's row.  A row here is the columns a delivery writes and those it finds the
    row by or is asked about; what is stamped apart (measured use, size class, who
    acknowledged it) is left out.  A time is stored in whole milliseconds.  The theorems say that a delivery applied twice is applied once, and
    that however deliveries are ordered and repeated the row ends in the furthest state
    any of them named, which exactly one of them is told it moved it to. *)
From Stdlib Require Import ZArith Lia String.
From stdpp Require Import base strings list gmap.
From S2P Require Import Prelude GoFloat GoString Store StoreNames.
Local Open Scope string_scope.
Local Open Scope list_scope.
Local Open Scope Z_scope.

Record JobStep := {
  js_Number : Z;
  js_Name : string;
  js_Status : string;
  js_Conclusion : string;
  js_StartedAt : option Time;
  js_CompletedAt : option Time
}.

Record JobRow := {
  jr_ID : string;
  jr_GitHubJobID : Z;
  jr_GitHubRunID : Z;
  jr_Repo : string;
  jr_Workflow : string;
  jr_JobName : string;
  jr_Labels : list string;
  jr_State : JobState;
  jr_Conclusion : string;
  jr_InstallationID : string;
  jr_PoolID : string;
  jr_RunnerID : string;
  jr_RunnerName : string;
  jr_HTMLURL : string;
  jr_QueuedAt : Time;
  jr_StartedAt : option Time;
  jr_CompletedAt : option Time;
  jr_Matched : bool;
  jr_EligibleAt : option Time;
  jr_HeadBranch : string;
  jr_HeadSHA : string;
  jr_RunAttempt : Z;
  jr_RunNumber : Z;
  jr_Steps : list JobStep;
  jr_RunnerFault : string;
  jr_FaultKind : string;
  jr_Provisioning : string;
  jr_ProvisionNow : bool;
  jr_CancelRequestedAt : option Time;
  jr_ControllerVersion : string;
  jr_ControllerChannel : string;
  jr_AgentVersion : string;
  jr_HostID : string
}.

#[export] Instance JobStep_eq_dec : EqDecision JobStep.
Proof. solve_decision. Defined.
#[export] Instance JobRow_eq_dec : EqDecision JobRow.
Proof. solve_decision. Defined.

(** What a delivery is told it changed. *)
Record JobChange := {
  jc_Created : bool;
  jc_PreviousState : option JobState;
  jc_StateChanged : bool;
  jc_Claimed : bool;
  jc_RunnerLinked : bool
}.

Record JobCondition := { cond_State : JobState; cond_StartedAt : option Time }.

Definition is_job (s t : JobState) : bool := bool_decide (s = t).

Definition jobRank (s : JobState) : Z :=
  match s with JobWaiting => 1 | JobQueued => 2 | JobInProgress => 3 | JobCompleted => 4 end.

(** ** One delivery *)

(** A row with other times: those that must be there, and those that may be. *)
Definition with_times (f : Time -> Time) (g : option Time -> option Time) (j : JobRow) : JobRow :=
  {| jr_ID := jr_ID j; jr_GitHubJobID := jr_GitHubJobID j; jr_GitHubRunID := jr_GitHubRunID j; jr_Repo := jr_Repo j;
     jr_Workflow := jr_Workflow j; jr_JobName := jr_JobName j; jr_Labels := jr_Labels j; jr_State := jr_State j;
     jr_Conclusion := jr_Conclusion j; jr_InstallationID := jr_InstallationID j; jr_PoolID := jr_PoolID j;
     jr_RunnerID := jr_RunnerID j; jr_RunnerName := jr_RunnerName j; jr_HTMLURL := jr_HTMLURL j;
     jr_QueuedAt := f (jr_QueuedAt j); jr_StartedAt := g (jr_StartedAt j); jr_CompletedAt := g (jr_CompletedAt j);
     jr_Matched := jr_Matched j; jr_EligibleAt := g (jr_EligibleAt j); jr_HeadBranch := jr_HeadBranch j;
     jr_HeadSHA := jr_HeadSHA j; jr_RunAttempt := jr_RunAttempt j; jr_RunNumber := jr_RunNumber j; jr_Steps := jr_Steps j;
     jr_RunnerFault := jr_RunnerFault j; jr_FaultKind := jr_FaultKind j; jr_Provisioning := jr_Provisioning j;
     jr_ProvisionNow := jr_ProvisionNow j; jr_CancelRequestedAt := g (jr_CancelRequestedAt j);
     jr_ControllerVersion := jr_ControllerVersion j; jr_ControllerChannel := jr_ControllerChannel j;
     jr_AgentVersion := jr_AgentVersion j; jr_HostID := jr_HostID j |}.

(** [jobUpdateArgs]: the columns a row is written as, times in milliseconds. *)
Definition columns : JobRow -> JobRow := with_times at_ms (fmap at_ms).
(** A row as it reads back: an optional time stored as zero is absent ([atp]). *)
Definition atp (t : option Time) : option Time := match t with Some t => if t =? 0 then None else Some t | None => None end.
Definition stored (j : JobRow) : JobRow := with_times id atp (columns j).

(** The row of a job the table has not seen: [id] is the identifier that would be drawn. *)
Definition inserted (j : JobRow) (id : string) (now : Time) : JobRow :=
  {| jr_ID := if str_eqb (jr_ID j) "" then id else jr_ID j; jr_GitHubJobID := jr_GitHubJobID j;
     jr_GitHubRunID := jr_GitHubRunID j; jr_Repo := jr_Repo j; jr_Workflow := jr_Workflow j; jr_JobName := jr_JobName j;
     jr_Labels := NormalizeLabels (jr_Labels j); jr_State := jr_State j; jr_Conclusion := jr_Conclusion j;
     jr_InstallationID := jr_InstallationID j; jr_PoolID := jr_PoolID j; jr_RunnerID := jr_RunnerID j;
     jr_RunnerName := jr_RunnerName j; jr_HTMLURL := jr_HTMLURL j;
     jr_QueuedAt := if jr_QueuedAt j =? 0 then now else jr_QueuedAt j; jr_StartedAt := jr_StartedAt j;
     jr_CompletedAt := jr_CompletedAt j; jr_Matched := jr_Matched j;
     jr_EligibleAt := if jr_Matched j && negb (is_job (jr_State j) JobWaiting) && negb (isSome (jr_EligibleAt j))
                      then Some now else jr_EligibleAt j;
     jr_HeadBranch := jr_HeadBranch j; jr_HeadSHA := jr_HeadSHA j; jr_RunAttempt := jr_RunAttempt j;
     jr_RunNumber := jr_RunNumber j; jr_Steps := jr_Steps j; jr_RunnerFault := jr_RunnerFault j; jr_FaultKind := jr_FaultKind j;
     jr_Provisioning := jr_Provisioning j; jr_ProvisionNow := jr_ProvisionNow j; jr_CancelRequestedAt := jr_CancelRequestedAt j;
     jr_ControllerVersion := jr_ControllerVersion j; jr_ControllerChannel := jr_ControllerChannel j;
     jr_AgentVersion := jr_AgentVersion j; jr_HostID := jr_HostID j |}.

(** A value set by a current delivery, or filled in by a stale one. *)
Definition text (current : bool) (dst v : string) : string := if nonempty v && (current || str_eqb dst "") then v else dst.
Definition numeral (current : bool) (dst v : Z) : Z := if negb (v =? 0) && (current || (dst =? 0)) then v else dst.

(** A delivery is current when it is at or past the row's state. *)
Definition is_current (existing j : JobRow) : bool := jobRank (jr_State existing) <=? jobRank (jr_State j).

Definition merge (existing j : JobRow) (now : Time) : JobRow :=
  let current := is_current existing j in
  let state := if current then jr_State j else jr_State existing in
  let matched := jr_Matched existing || jr_Matched j in
  {| jr_ID := jr_ID existing; jr_GitHubJobID := jr_GitHubJobID existing;
     jr_GitHubRunID := numeral current (jr_GitHubRunID existing) (jr_GitHubRunID j);
     jr_Repo := text current (jr_Repo existing) (jr_Repo j); jr_Workflow := text current (jr_Workflow existing) (jr_Workflow j);
     jr_JobName := text current (jr_JobName existing) (jr_JobName j);
     jr_Labels := match jr_Labels j with
                  | [] => jr_Labels existing
                  | l => if current || Nat.eqb (length (jr_Labels existing)) 0 then NormalizeLabels l else jr_Labels existing
                  end;
     jr_State := state;
     jr_Conclusion := text current (jr_Conclusion existing) (jr_Conclusion j);
     jr_InstallationID := text current (jr_InstallationID existing) (jr_InstallationID j);
     jr_PoolID := text current (jr_PoolID existing) (jr_PoolID j);
     jr_RunnerID := text current (jr_RunnerID existing) (jr_RunnerID j);
     jr_RunnerName := text current (jr_RunnerName existing) (jr_RunnerName j);
     jr_HTMLURL := text current (jr_HTMLURL existing) (jr_HTMLURL j);
     jr_QueuedAt := if is_job (jr_State existing) JobWaiting && is_job state JobQueued then now else jr_QueuedAt existing;
     jr_StartedAt := match jr_StartedAt existing with None => jr_StartedAt j | t => t end;
     jr_CompletedAt := match jr_CompletedAt j with
                       | Some t => if current || negb (isSome (jr_CompletedAt existing)) then Some t else jr_CompletedAt existing
                       | None => jr_CompletedAt existing
                       end;
     jr_Matched := matched;
     jr_EligibleAt := if matched && negb (is_job state JobWaiting) && negb (isSome (jr_EligibleAt existing))
                      then Some now else jr_EligibleAt existing;
     jr_HeadBranch := text current (jr_HeadBranch existing) (jr_HeadBranch j);
     jr_HeadSHA := text current (jr_HeadSHA existing) (jr_HeadSHA j);
     jr_RunAttempt := numeral current (jr_RunAttempt existing) (jr_RunAttempt j);
     jr_RunNumber := numeral current (jr_RunNumber existing) (jr_RunNumber j);
     jr_Steps := match jr_Steps j with [] => jr_Steps existing | l => if current then l else jr_Steps existing end;
     jr_RunnerFault := text current (jr_RunnerFault existing) (jr_RunnerFault j);
     jr_FaultKind := if nonempty (jr_FaultKind j) && (current || str_eqb (jr_FaultKind existing) "")
                     then FaultKind_Normalise (jr_FaultKind j) else jr_FaultKind existing;
     jr_Provisioning := jr_Provisioning existing; jr_ProvisionNow := jr_ProvisionNow existing;
     jr_CancelRequestedAt := jr_CancelRequestedAt existing; jr_ControllerVersion := jr_ControllerVersion existing;
     jr_ControllerChannel := jr_ControllerChannel existing; jr_AgentVersion := jr_AgentVersion existing;
     jr_HostID := jr_HostID existing |}.

(** A selection the row no longer answers to. *)
Definition obsolete (existing : JobRow) (c : JobCondition) : bool :=
  let sameStart := match jr_StartedAt existing, cond_StartedAt c with
                   | None, None => true
                   | Some a, Some b => a =? b
                   | _, _ => false
                   end in
  negb (is_job (jr_State existing) (cond_State c)) || negb sameStart.

Definition no_change (previous : JobState) : JobChange :=
  {| jc_Created := false; jc_PreviousState := Some previous; jc_StateChanged := false; jc_Claimed := false; jc_RunnerLinked := false |}.

(** What comes of a delivery: the row as the caller is given it, what changed, the table,
    and whether a statement was run. *)
Record applied_job := { aj_out : JobRow; aj_change : JobChange; aj_table : gmap Z JobRow; aj_wrote : bool }.

(** [None] is [ErrConflict]. *)
Definition ApplyJob (table : gmap Z JobRow) (j : JobRow) (conditions : list JobCondition) (id : string) (now : Time) : option applied_job :=
  match table !! jr_GitHubJobID j with
  | None =>
      if negb (Nat.eqb (length conditions) 0) then None
      else
        let row := inserted j id now in
        Some {| aj_out := row;
                aj_change := {| jc_Created := true; jc_PreviousState := None; jc_StateChanged := true; jc_Claimed := jr_Matched j;
                                jc_RunnerLinked := nonempty (jr_RunnerID j) |};
                aj_table := <[jr_GitHubJobID j := stored row]> table; aj_wrote := true |}
  | Some existing =>
      if existsb (obsolete existing) conditions
      then Some {| aj_out := existing; aj_change := no_change (jr_State existing); aj_table := table; aj_wrote := false |}
      else
        let merged := merge existing j now in
        let moved := negb (is_job (jr_State merged) (jr_State existing)) in
        let write := moved || negb (bool_decide (columns merged = columns existing)) in
        Some {| aj_out := merged;
                aj_change := {| jc_Created := false; jc_PreviousState := Some (jr_State existing); jc_StateChanged := moved;
                                jc_Claimed := negb (jr_Matched existing) && jr_Matched merged;
                                jc_RunnerLinked := str_eqb (jr_RunnerID existing) "" && nonempty (jr_RunnerID merged) |};
                aj_table := if write then <[jr_GitHubJobID j := stored merged]> table else table; aj_wrote := write |}
  end.

Definition UpsertJob (table : gmap Z JobRow) (j : JobRow) (id : string) (now : Time) : option (JobRow * gmap Z JobRow) :=
  match ApplyJob table j [] id now with Some a => Some (aj_out a, aj_table a) | None => None end.

(** ** A delivery twice *)

(** A row the table may hold: one that was read back. *)
Definition settled (j : JobRow) : Prop := stored j = j.
Definition table_settled (table : gmap Z JobRow) : Prop := map_Forall (fun _ j => settled j) table.

(** No time falls in the first millisecond of the epoch. *)
Definition dated (t : option Time) : Prop := forall x, t = Some x -> at_ms x <> 0.

(** A job as GitHub's deliveries describe it. *)
Record from_github (j : JobRow) : Prop := {
  fg_fault : jr_FaultKind j = "";
  fg_started : dated (jr_StartedAt j);
  fg_completed : dated (jr_CompletedAt j);
  fg_eligible : dated (jr_EligibleAt j)
}.

Lemma at_ms_twice t : at_ms (at_ms t) = at_ms t.
Proof. unfold at_ms. by rewrite Z.div_mul. Qed.

Lemma atp_ms_twice (t : option Time) : atp (at_ms <$> atp (at_ms <$> t)) = atp (at_ms <$> t).
Proof. destruct t as [t|]; [|done]. cbn. destruct (at_ms t =? 0) eqn:E; [done|]. cbn. by rewrite at_ms_twice, E. Qed.

Lemma stored_settled j : settled (stored j).
Proof. unfold settled, stored, columns, with_times; cbn. unfold id. by rewrite !atp_ms_twice, at_ms_twice. Qed.

Lemma text_twice c dst v : text c (text c dst v) v = text c dst v.
Proof. unfold text. destruct (nonempty v) eqn:E; [|done]. cbn. destruct c; [done|]. cbn. destruct (str_eqb dst "") eqn:Ed; [|by rewrite Ed]. unfold nonempty in E. by destruct (str_eqb v ""). Qed.

Lemma numeral_twice c dst v : numeral c (numeral c dst v) v = numeral c dst v.
Proof. unfold numeral. destruct (v =? 0) eqn:E; [done|]. cbn. destruct c; [done|]. cbn. destruct (dst =? 0) eqn:Ed; [by rewrite E|by rewrite Ed]. Qed.

Lemma is_job_eq s t : is_job s t = true <-> s = t.
Proof. apply bool_decide_eq_true. Qed.
Lemma is_job_refl s : is_job s s = true.
Proof. by apply is_job_eq. Qed.

Lemma jobRank_inj s t : jobRank s = jobRank t -> s = t.
Proof. by destruct s, t. Qed.

(** The merged row is as current to the delivery as the row was. *)
Lemma merge_current e j now : is_current (stored (merge e j now)) j = is_current e j.
Proof.
  unfold is_current. cbn. unfold is_current. destruct (jobRank (jr_State e) <=? jobRank (jr_State j)) eqn:E; cbn; [apply Z.leb_refl|done].
Qed.

Lemma isSome_spec {A} (t : option A) : isSome t = true <-> is_Some t.
Proof. destruct t as [x|]; split; intros H; done. Qed.

Lemma settled_times j : settled j ->
  at_ms (jr_QueuedAt j) = jr_QueuedAt j /\ atp (at_ms <$> jr_StartedAt j) = jr_StartedAt j /\
  atp (at_ms <$> jr_CompletedAt j) = jr_CompletedAt j /\ atp (at_ms <$> jr_EligibleAt j) = jr_EligibleAt j.
Proof.
  unfold settled. intros H. pose proof (f_equal jr_QueuedAt H) as H1. pose proof (f_equal jr_StartedAt H) as H2.
  pose proof (f_equal jr_CompletedAt H) as H3. pose proof (f_equal jr_EligibleAt H) as H4. done.
Qed.

(** A time that is there stays there when it is stored. *)
Lemma dated_kept t : dated t -> isSome (atp (at_ms <$> t)) = isSome t.
Proof. destruct t as [x|]; [|done]. intros H. cbn. by rewrite (proj2 (Z.eqb_neq _ _) (H x eq_refl)). Qed.

Lemma read_dated (t : option Time) : atp (at_ms <$> t) = t -> dated t.
Proof. intros H x ->. cbn in H. destruct (at_ms x =? 0) eqn:E; [done|]. by apply Z.eqb_neq. Qed.

(** The settings of a row that a delivery applied again would set to what they are. *)
Record said (row j : JobRow) (c : bool) : Prop := {
  sd_current : is_current row j = c;
  sd_state : (if c then jr_State j else jr_State row) = jr_State row;
  sd_runid : numeral c (jr_GitHubRunID row) (jr_GitHubRunID j) = jr_GitHubRunID row;
  sd_repo : text c (jr_Repo row) (jr_Repo j) = jr_Repo row;
  sd_workflow : text c (jr_Workflow row) (jr_Workflow j) = jr_Workflow row;
  sd_name : text c (jr_JobName row) (jr_JobName j) = jr_JobName row;
  sd_labels : match jr_Labels j with [] => jr_Labels row | l => if c || Nat.eqb (length (jr_Labels row)) 0 then NormalizeLabels l else jr_Labels row end = jr_Labels row;
  sd_conclusion : text c (jr_Conclusion row) (jr_Conclusion j) = jr_Conclusion row;
  sd_installation : text c (jr_InstallationID row) (jr_InstallationID j) = jr_InstallationID row;
  sd_pool : text c (jr_PoolID row) (jr_PoolID j) = jr_PoolID row;
  sd_runner : text c (jr_RunnerID row) (jr_RunnerID j) = jr_RunnerID row;
  sd_runnername : text c (jr_RunnerName row) (jr_RunnerName j) = jr_RunnerName row;
  sd_url : text c (jr_HTMLURL row) (jr_HTMLURL j) = jr_HTMLURL row;
  sd_started : is_Some (jr_StartedAt j) -> is_Some (jr_StartedAt row);
  sd_completed : forall t, jr_CompletedAt j = Some t -> if c then jr_CompletedAt row = Some (at_ms t) else is_Some (jr_CompletedAt row);
  sd_matched : jr_Matched j = true -> jr_Matched row = true;
  sd_eligible : jr_Matched row = true -> jr_State row <> JobWaiting -> is_Some (jr_EligibleAt row);
  sd_branch : text c (jr_HeadBranch row) (jr_HeadBranch j) = jr_HeadBranch row;
  sd_sha : text c (jr_HeadSHA row) (jr_HeadSHA j) = jr_HeadSHA row;
  sd_attempt : numeral c (jr_RunAttempt row) (jr_RunAttempt j) = jr_RunAttempt row;
  sd_number : numeral c (jr_RunNumber row) (jr_RunNumber j) = jr_RunNumber row;
  sd_steps : match jr_Steps j with [] => jr_Steps row | l => if c then l else jr_Steps row end = jr_Steps row;
  sd_fault : text c (jr_RunnerFault row) (jr_RunnerFault j) = jr_RunnerFault row;
  sd_kind : jr_FaultKind j = ""
}.

(** A delivery the row has heard changes no column. *)
Lemma merge_said row j c now : settled row -> said row j c -> columns (merge row j now) = columns row.
Proof.
  intros Hs [Hc Hst H3 H4 H5 H6 H7 H8 H9 H10 H11 H12 H13 H14 H15 H16 H17 H18 H19 H20 H21 H22 H23 H24].
  destruct (settled_times row Hs) as (T1 & T2 & T3 & T4).
  assert (Hm : jr_Matched row || jr_Matched j = jr_Matched row) by (destruct (jr_Matched j); [by rewrite H16|by rewrite orb_false_r]).
  unfold merge. rewrite Hc, Hst, H3, H4, H5, H6, H7, H8, H9, H10, H11, H12, H13, H18, H19, H20, H21, H22, H23, H24, Hm. cbn [nonempty negb andb].
  change (nonempty "") with false. cbn [andb].
  assert (Hq : is_job (jr_State row) JobWaiting && is_job (jr_State row) JobQueued = false) by (by destruct (jr_State row)). rewrite Hq.
  assert (He : jr_Matched row && negb (is_job (jr_State row) JobWaiting) && negb (isSome (jr_EligibleAt row)) = false).
  { destruct (jr_Matched row) eqn:Em; [|done]. destruct (is_job (jr_State row) JobWaiting) eqn:Ew; [done|]. cbn.
    destruct H17 as [x ->]; [done| |done]. intros E. by rewrite E in Ew. }
  rewrite He. unfold columns, with_times. cbn. f_equal.
  - destruct (jr_StartedAt row) as [x|] eqn:E; [done|]. destruct (jr_StartedAt j); [|done]. destruct H14; [by eexists|done].
  - destruct (jr_CompletedAt j) as [t|]; [|done]. specialize (H15 t eq_refl). destruct c; cbn [orb].
    + rewrite H15. cbn. by rewrite at_ms_twice.
    + destruct H15 as [x ->]. done.
Qed.

Lemma said_merged e j now : settled e -> from_github j -> at_ms now <> 0 -> said (stored (merge e j now)) j (is_current e j).
Proof.
  intros Hs [Hf1 Hf2 Hf3 Hf4] Hn. destruct (settled_times e Hs) as (T1 & T2 & T3 & T4).
  apply read_dated in T2 as D2. apply read_dated in T3 as D3. apply read_dated in T4 as D4. pose proof (merge_current e j now) as Hc.
  split; try done; unfold stored, columns, with_times, merge; cbn -[NormalizeLabels]; try apply text_twice; try apply numeral_twice.
  - by destruct (is_current e j).
  - destruct (jr_Labels j) as [|l ls]; [done|]. destruct (is_current e j); [done|]. cbn [orb].
    destruct (Nat.eqb (length (jr_Labels e)) 0) eqn:E; [|by rewrite E]. by destruct (Nat.eqb (length (NormalizeLabels (l :: ls))) 0).
  - intros [x Ex]. destruct (jr_StartedAt e) as [y|] eqn:E.
    + rewrite <- isSome_spec, dated_kept; [done|]. done.
    + rewrite <- isSome_spec, dated_kept; [by rewrite Ex|done].
  - intros t Et. rewrite Et. destruct (is_current e j); cbn [orb].
    + cbn. by rewrite (proj2 (Z.eqb_neq _ _) (Hf3 t Et)).
    + destruct (isSome (jr_CompletedAt e)) eqn:E; cbn [negb]; rewrite <- isSome_spec, dated_kept; try done. by rewrite <- Et.
  - intros Hm. rewrite Hm. by rewrite orb_true_r.
  - intros Hm Hw. rewrite Hm. set (st := if is_current e j then jr_State j else jr_State e) in *.
    assert (Ew : is_job st JobWaiting = false) by (apply not_true_iff_false; by rewrite is_job_eq). rewrite Ew. cbn [negb andb].
    rewrite <- isSome_spec. destruct (isSome (jr_EligibleAt e)) eqn:E; cbn [negb]; rewrite dated_kept; try done. intros x [= <-]. done.
  - destruct (jr_Steps j); [done|]. by destruct (is_current e j).
Qed.

Lemma said_inserted j id now : from_github j -> at_ms now <> 0 -> said (stored (inserted j id now)) j true.
Proof.
  intros [Hf1 Hf2 Hf3 Hf4] Hn. assert (Hc : is_current (stored (inserted j id now)) j = true) by (unfold is_current; cbn; apply Z.leb_refl).
  assert (Ht : forall v, text true v v = v) by (intros v; unfold text; by destruct (nonempty v)).
  assert (Hnum : forall v, numeral true v v = v) by (intros v; unfold numeral; by destruct (negb (v =? 0))).
  split; try done; unfold stored, columns, with_times, inserted; cbn -[NormalizeLabels]; try apply Ht; try apply Hnum.
  - by destruct (jr_Labels j).
  - intros [x Ex]. rewrite <- isSome_spec, dated_kept; [by rewrite Ex|done].
  - intros t Et. rewrite Et. cbn. by rewrite (proj2 (Z.eqb_neq _ _) (Hf3 t Et)).
  - intros Hm Hw. rewrite Hm. assert (Ew : is_job (jr_State j) JobWaiting = false) by (apply not_true_iff_false; by rewrite is_job_eq).
    rewrite Ew. cbn [negb andb]. rewrite <- isSome_spec. destruct (isSome (jr_EligibleAt j)) eqn:E; cbn [negb]; rewrite dated_kept; try done.
    intros x [= <-]. done.
  - by destruct (jr_Steps j).
Qed.

Lemma ApplyJob_row table j id now a : table_settled table -> from_github j -> at_ms now <> 0 -> ApplyJob table j [] id now = Some a ->
  exists row c, aj_table a !! jr_GitHubJobID j = Some row /\ settled row /\ said row j c /\ jr_State row = jr_State (aj_out a).
Proof.
  unfold ApplyJob. intros Ht Hj Hn. destruct (table !! jr_GitHubJobID j) as [e|] eqn:He; cbn -[columns stored]; intros [= <-]; cbn [aj_out aj_table].
  - pose proof (Ht _ _ He) as Hs. exists (stored (merge e j now)), (is_current e j). split_and!; [|apply stored_settled|by apply said_merged|done].
    destruct (_ || _) eqn:Hw; [by rewrite lookup_insert_eq|].
    apply orb_false_iff in Hw as [_ Hw]. apply negb_false_iff, bool_decide_eq_true in Hw.
    rewrite He. unfold stored. rewrite Hw. symmetry. f_equal. exact Hs.
  - eexists _, true. rewrite lookup_insert_eq. split_and!; [done|apply stored_settled|by apply said_inserted|done].
Qed.

(** A delivery that reached the table is heard again without effect: the second
    time nothing is written, the table is as it was, and the caller is told that nothing
    changed, so that no second line is added to the job's timeline and nothing is counted
    twice. *)
Theorem ApplyJob_twice table j id now a id' now' : table_settled table -> from_github j -> at_ms now <> 0 ->
  ApplyJob table j [] id now = Some a ->
  exists a', ApplyJob (aj_table a) j [] id' now' = Some a' /\
    aj_wrote a' = false /\ aj_table a' = aj_table a /\ aj_change a' = no_change (jr_State (aj_out a)).
Proof.
  intros Ht Hj Hn Ha. destruct (ApplyJob_row _ _ _ _ _ Ht Hj Hn Ha) as (row & c & Hrow & Hs & Hsaid & Hst).
  pose proof (merge_said row j c now' Hs Hsaid) as Hm. unfold ApplyJob at 1. rewrite Hrow. cbn [existsb].
  assert (Hstate : jr_State (merge row j now') = jr_State row) by exact (f_equal jr_State Hm).
  assert (Hmatched : jr_Matched (merge row j now') = jr_Matched row) by exact (f_equal jr_Matched Hm).
  assert (Hrun : jr_RunnerID (merge row j now') = jr_RunnerID row) by exact (f_equal jr_RunnerID Hm).
  rewrite Hm, Hstate, Hmatched, Hrun, bool_decide_eq_true_2, is_job_refl by done. cbn [negb orb].
  eexists. split_and!; [done|done|done|]. cbn [aj_change]. unfold no_change. rewrite Hst. f_equal; [by destruct (jr_Matched row)|].
  unfold nonempty. by destruct (str_eqb (jr_RunnerID row) "").
Qed.

(** What is read back is what the table holds, whatever is delivered. *)
Lemma ApplyJob_settled table j cs id now a : table_settled table -> ApplyJob table j cs id now = Some a -> table_settled (aj_table a).
Proof.
  unfold ApplyJob. intros Ht. assert (Hi : forall row, table_settled (<[jr_GitHubJobID j := stored row]> table)).
  { intros row. apply map_Forall_insert_2; [apply stored_settled|done]. }
  destruct (table !! _) as [e|]; [destruct (existsb _ _)|destruct (negb _)]; intros [= <-]; cbn [aj_table]; try done.
  destruct (_ || _); [apply Hi|done].
Qed.

(** ** Deliveries in any order *)

Record Delivery := { d_job : JobRow; d_id : string; d_now : Time }.

(** Deliveries one after another, and what each was told. *)
Fixpoint deliver (table : gmap Z JobRow) (ds : list Delivery) : list (Delivery * applied_job) * gmap Z JobRow :=
  match ds with
  | [] => ([], table)
  | d :: rest =>
      match ApplyJob table (d_job d) [] (d_id d) (d_now d) with
      | Some a => let '(told, final) := deliver (aj_table a) rest in ((d, a) :: told, final)
      | None => deliver table rest
      end
  end.

(** The states the deliveries of one job name. *)
Definition named (k : Z) (ds : list Delivery) : list JobState :=
  map (fun d => jr_State (d_job d)) (List.filter (fun d => jr_GitHubJobID (d_job d) =? k) ds).

Definition furthest (s : JobState) (l : list JobState) : Prop := s ∈ l /\ Forall (fun t => jobRank t <= jobRank s) l.

(** A delivery of job [k] that is told it moved the job to [s]. *)
Definition told_moved (k : Z) (s : JobState) (t : Delivery * applied_job) : bool :=
  (jr_GitHubJobID (d_job (fst t)) =? k) && jc_StateChanged (aj_change (snd t)) && is_job (jr_State (aj_out (snd t))) s.
Definition times_told (k : Z) (s : JobState) (told : list (Delivery * applied_job)) : nat := length (List.filter (told_moved k s) told).

(** The state after a delivery that names [s]. *)
Definition next_state (old : option JobState) (s : JobState) : JobState :=
  match old with Some e => if jobRank e <=? jobRank s then s else e | None => s end.

Lemma ApplyJob_state table j id now : exists a, ApplyJob table j [] id now = Some a /\ let old := jr_State <$> table !! jr_GitHubJobID j in
  jr_State (aj_out a) = next_state old (jr_State j) /\ jc_StateChanged (aj_change a) = negb (bool_decide (old = Some (next_state old (jr_State j)))) /\
  (forall k, jr_State <$> aj_table a !! k = if jr_GitHubJobID j =? k then Some (next_state old (jr_State j)) else jr_State <$> table !! k).
Proof.
  unfold ApplyJob. destruct (table !! jr_GitHubJobID j) as [e|] eqn:He; cbn -[columns stored merge]; eexists; (split; [done|]); cbn -[columns stored merge].
  - assert (Hn : jr_State (merge e j now) = next_state (Some (jr_State e)) (jr_State j)) by done. cbn [next_state] in Hn.
    split_and!; [done| |].
    + unfold is_job. rewrite <- Hn. f_equal. apply bool_decide_ext. split; [by intros ->|by intros [= ->]].
    + intros k. destruct (Z.eqb_spec (jr_GitHubJobID j) k) as [<-|Hk]; [|by destruct (_ || _); [rewrite lookup_insert_ne|]].
      rewrite <- Hn. destruct (_ || _) eqn:Hw; [by rewrite lookup_insert_eq|]. apply orb_false_iff in Hw as [Hw _].
      apply negb_false_iff, is_job_eq in Hw. by rewrite He, Hw.
  - split_and!; [done|done|]. intros k. destruct (Z.eqb_spec (jr_GitHubJobID j) k) as [<-|Hk]; [by rewrite lookup_insert_eq|by rewrite lookup_insert_ne].
Qed.

Lemma furthest_next old s l t : furthest t (next_state old s :: l) <-> furthest t (option_list old ++ s :: l).
Proof.
  unfold furthest, next_state. destruct old as [e|]; [|done]. change (option_list (Some e) ++ s :: l) with (e :: s :: l). rewrite !Forall_cons, !elem_of_cons. cbn beta.
  destruct (Z.leb_spec (jobRank e) (jobRank s)) as [H|H].
  - split; [intros ([->|?] & ? & ?); split_and!; auto; lia|].
    intros ([->|[->|?]] & ? & ? & ?); split_and!; auto. left. apply jobRank_inj. lia.
  - split; [intros ([->|?] & ? & ?); split_and!; auto; lia|].
    intros ([->|[->|?]] & ? & ? & ?); split_and!; auto. lia.
Qed.

Lemma furthest_single s t : furthest t [s] <-> t = s.
Proof. unfold furthest. rewrite Forall_singleton, elem_of_cons, elem_of_nil. split; [by intros [[|] _]|intros ->; split; [by left|lia]]. Qed.

(** The furthest state a delivery has moved the job to. *)
Definition reached (o : option JobState) : Z := match o with Some s => jobRank s | None => 0 end.

Lemma deliver_known k ds : forall table, let final := snd (deliver table ds) in
  (forall s, jr_State <$> final !! k = Some s <-> furthest s (option_list (jr_State <$> table !! k) ++ named k ds)).
Proof.
  induction ds as [|d ds IH]; intros table; cbn -[ApplyJob].
  - intros s. unfold named. cbn. rewrite app_nil_r. destruct (table !! k) as [e|]; cbn.
    + rewrite furthest_single. split; [by intros [= ->]|by intros ->].
    + split; [done|by intros [?%elem_of_nil _]].
  - destruct (ApplyJob_state table (d_job d) (d_id d) (d_now d)) as (a & -> & Hs & Hc & Hk). specialize (IH (aj_table a)).
    destruct (deliver (aj_table a) ds) as [told final]. cbn [snd] in IH |- *. intros s. rewrite (IH s), (Hk k). unfold named. cbn [List.filter].
    destruct (Z.eqb_spec (jr_GitHubJobID (d_job d)) k) as [<-|Hne]; [|done]. apply furthest_next.
Qed.

Lemma next_reached old s : reached old <= jobRank (next_state old s) /\ jobRank s <= jobRank (next_state old s).
Proof. destruct old as [e|]; cbn; [destruct (Z.leb_spec (jobRank e) (jobRank s)); lia|destruct s; cbn; lia]. Qed.

Lemma reached_inj old s : old <> Some s -> reached old <= jobRank s -> reached old < jobRank s.
Proof. destruct old as [e|]; cbn; [|by destruct s]. intros Hne Hle. destruct (Z.eq_dec (jobRank e) (jobRank s)) as [E%jobRank_inj|]; [by subst|lia]. Qed.

Lemma times_told_cons k s d a told : times_told k s ((d, a) :: told) =
  ((if (jr_GitHubJobID (d_job d) =? k)%Z && jc_StateChanged (aj_change a) && is_job (jr_State (aj_out a)) s then 1 else 0) + times_told k s told)%nat.
Proof. unfold times_told. cbn [List.filter]. unfold told_moved at 1. cbn [fst snd]. by destruct (_ && _). Qed.

Lemma told_once k s ds : forall table, (times_told k s (fst (deliver table ds)) <= if Z.ltb (reached (jr_State <$> table !! k)) (jobRank s) then 1 else 0)%nat.
Proof.
  induction ds as [|d ds IH]; intros table; [cbn; lia|]. cbn -[ApplyJob].
  destruct (ApplyJob_state table (d_job d) (d_id d) (d_now d)) as (a & -> & Hs & Hc & Hk). specialize (IH (aj_table a)).
  destruct (deliver (aj_table a) ds) as [told final]. cbn [fst] in IH |- *. rewrite (Hk k) in IH.
  rewrite times_told_cons, Hc, Hs.
  destruct (Z.eqb_spec (jr_GitHubJobID (d_job d)) k) as [<-|Hne]; [|exact IH]. cbn [andb].
  set (old := jr_State <$> table !! jr_GitHubJobID (d_job d)) in *. destruct (next_reached old (jr_State (d_job d))) as [Hr _].
  cbn [reached] in IH. case_bool_decide as Ho; cbn [negb].
  - rewrite Ho. exact IH.
  - destruct (is_job _ s) eqn:Es.
    + apply is_job_eq in Es. rewrite Es in *. pose proof (reached_inj _ _ Ho Hr) as Hlt. rewrite (proj2 (Z.ltb_lt _ _) Hlt).
      rewrite Z.ltb_irrefl in IH. cbn [negb andb]. lia.
    + revert IH. destruct (Z.ltb_spec (jobRank (next_state old (jr_State (d_job d)))) (jobRank s)); intros IH; [|etrans; [exact IH|apply Nat.le_0_l]].
      rewrite (proj2 (Z.ltb_lt _ _)) by lia. cbn [negb andb]. lia.
Qed.

Lemma next_state_completed old s : next_state old s = JobCompleted <-> old = Some JobCompleted \/ s = JobCompleted.
Proof. destruct old as [[]|], s; cbn; naive_solver. Qed.

Lemma one_if (P Q : Prop) `{Decision P, Decision Q} : (P <-> Q) -> (if bool_decide P then 1 else 0)%nat = (if bool_decide Q then 1 else 0)%nat.
Proof. intros HPQ. by rewrite (bool_decide_ext P Q HPQ). Qed.

Lemma told_complete k ds : forall table, times_told k JobCompleted (fst (deliver table ds)) =
  if bool_decide (jr_State <$> table !! k <> Some JobCompleted /\ JobCompleted ∈ named k ds) then 1%nat else 0%nat.
Proof.
  induction ds as [|d ds IH]; intros table.
  - rewrite bool_decide_eq_false_2; [done|]. by intros [_ ?%elem_of_nil].
  - cbn -[ApplyJob]. destruct (ApplyJob_state table (d_job d) (d_id d) (d_now d)) as (a & -> & Hs & Hc & Hk). specialize (IH (aj_table a)).
    destruct (deliver (aj_table a) ds) as [told final]. cbn [fst] in IH |- *. rewrite (Hk k) in IH.
    rewrite times_told_cons, Hc, Hs. unfold named. cbn [List.filter].
    destruct (Z.eqb_spec (jr_GitHubJobID (d_job d)) k) as [<-|Hne]; [|exact IH]. cbn [andb map].
    set (old := jr_State <$> table !! jr_GitHubJobID (d_job d)) in *. fold (named (jr_GitHubJobID (d_job d)) ds).
    pose proof (next_state_completed old (jr_State (d_job d))) as Hn.
    case_bool_decide as Ho; cbn [negb].
    + rewrite <- Ho in IH. rewrite IH. cbn [negb andb Nat.add]. apply one_if. rewrite elem_of_cons.
      assert (Hd : JobCompleted = jr_State (d_job d) -> old = Some JobCompleted) by (intros E; rewrite Ho; f_equal; by apply Hn; right).
      clear - Hd. split; [intros [? ?]; auto|intros [? [?|?]]; auto; by exfalso; auto].
    + destruct (is_job _ JobCompleted) eqn:Es.
      * apply is_job_eq in Es. rewrite Es in *. rewrite IH, bool_decide_eq_false_2 by (by intros []). rewrite bool_decide_eq_true_2; [done|].
        split; [done|]. rewrite elem_of_cons. destruct (proj1 Hn eq_refl) as [?|?]; [done|by left].
      * rewrite IH. cbn [negb andb Nat.add]. apply one_if. apply not_true_iff_false in Es. rewrite is_job_eq in Es. rewrite elem_of_cons.
        assert (Ho' : old <> Some JobCompleted) by (intros E; apply Es, Hn; by left).
        assert (Hd : JobCompleted <> jr_State (d_job d)) by (intros E; apply Es, Hn; by right).
        split; [intros [_ ?]; auto|intros [_ [?|?]]; [done|split; congruence || done]].
Qed.

(** C33: However the deliveries of a job are ordered and however often each comes,
    among those of other jobs, the job ends in the furthest state that it was in or any of
    them named; each state it was not yet past is told to at most one of them as the one
    that moved it there; and its completion is told to exactly one, if it had not completed
    and one of them says so. *)
Theorem deliveries_any_order k table ds : let '(told, final) := deliver table ds in
  (forall s, jr_State <$> final !! k = Some s <-> furthest s (option_list (jr_State <$> table !! k) ++ named k ds)) /\
  (forall s, (times_told k s told <= 1)%nat) /\
  times_told k JobCompleted told =
    if bool_decide (jr_State <$> table !! k <> Some JobCompleted /\ JobCompleted ∈ named k ds) then 1%nat else 0%nat.
Proof.
  pose proof (deliver_known k ds table) as Hf. pose proof (fun s => told_once k s ds table) as Ht. pose proof (told_complete k ds table) as Hc.
  destruct (deliver table ds) as [told final]. cbn [fst snd] in *. split_and!; [exact Hf| |exact Hc].
  intros s. specialize (Ht s). destruct (Z.ltb _ _) in Ht; lia.
Qed.

(** ** The timeline *)

Inductive JobEventKind :=
| JobEventQueued | JobEventWaiting | JobEventApproved | JobEventClaimed | JobEventUnmatched | JobEventStarted | JobEventCompleted
| JobEventRunnerLost | JobEventRunnerReturned | JobEventCancelRequested | JobEventRunnerStartFailed | JobEventRerunRequested | JobEventOOMKilled
| JobEventSized | JobEventAcknowledged | JobEventReopened.
#[export] Instance JobEventKind_eq_dec : EqDecision JobEventKind.
Proof. solve_decision. Defined.

Definition claimKind (j : JobRow) : JobEventKind := if jr_Matched j then JobEventClaimed else JobEventUnmatched.

(** The lines [recordJobChange] adds to a job's timeline; [sized] is whether the job has a size class. *)
Definition recordJobChange (j : JobRow) (change : JobChange) (sized : bool) : list JobEventKind :=
  (if jc_Created change && is_job (jr_State j) JobWaiting then [JobEventWaiting]
   else if jc_Created change
   then JobEventQueued :: (if is_job (jr_State j) JobQueued then [claimKind j] else []) ++ (if sized then [JobEventSized] else [])
   else if jc_StateChanged change && bool_decide (jc_PreviousState change = Some JobWaiting) && is_job (jr_State j) JobQueued
   then [JobEventApproved; claimKind j]
   else if jc_Claimed change && is_job (jr_State j) JobQueued then [JobEventClaimed] else []) ++
  (if negb (jc_StateChanged change) && negb (jc_Created change) then []
   else (if is_job (jr_State j) JobInProgress ||
            is_job (jr_State j) JobCompleted && isSome (jr_StartedAt j) && (jc_Created change || bool_decide (jc_PreviousState change = Some JobQueued))
         then [JobEventStarted] else []) ++
        (if is_job (jr_State j) JobCompleted then [JobEventCompleted] else [])).

Definition lines (k : Z) (sized : Delivery -> bool) (t : Delivery * applied_job) : list JobEventKind :=
  if jr_GitHubJobID (d_job (fst t)) =? k then recordJobChange (aj_out (snd t)) (aj_change (snd t)) (sized (fst t)) else [].
Definition timeline (k : Z) (sized : Delivery -> bool) (told : list (Delivery * applied_job)) : list JobEventKind := concat (map (lines k sized) told).
Definition occurrences (e : JobEventKind) (l : list JobEventKind) : nat := length (List.filter (fun x => bool_decide (x = e)) l).

(** How many lines of a kind a job in a state has still to come, at most. *)
Definition to_come (e : JobEventKind) (o : option JobState) : nat :=
  match e with
  | JobEventQueued | JobEventWaiting | JobEventSized => if o then 0 else 1
  | JobEventApproved => match o with None | Some JobWaiting => 1 | _ => 0 end
  | JobEventStarted => match o with Some JobInProgress | Some JobCompleted => 0 | _ => 1 end
  | JobEventCompleted => match o with Some JobCompleted => 0 | _ => 1 end
  | _ => 0
  end%nat.

Definition once (e : JobEventKind) : bool := match e with JobEventClaimed | JobEventUnmatched => false | _ => true end.

Lemma occurrences_app e l l' : occurrences e (l ++ l') = (occurrences e l + occurrences e l')%nat.
Proof. unfold occurrences. by rewrite List.filter_app, length_app. Qed.

Lemma ApplyJob_change table j id now a : ApplyJob table j [] id now = Some a ->
  let old := jr_State <$> table !! jr_GitHubJobID j in
  jc_PreviousState (aj_change a) = old /\ jc_Created (aj_change a) = negb (isSome old).
Proof.
  unfold ApplyJob. destruct (table !! _) as [e|]; cbn -[stored columns]; by intros [= <-].
Qed.

(** The lines of one delivery, and those still to come after it. *)
Lemma lines_once e j change sized old : once e = true ->
  jc_PreviousState change = old -> jc_Created change = negb (isSome old) ->
  jc_StateChanged change = negb (bool_decide (old = Some (jr_State j))) ->
  (exists s, jr_State j = next_state old s) ->
  (occurrences e (recordJobChange j change sized) + to_come e (Some (jr_State j)) <= to_come e old)%nat.
Proof.
  intros He Hp Hc Hs [s Hn]. unfold recordJobChange. rewrite Hc, Hs, Hp. clear Hc Hs Hp.
  destruct old as [[]|], s; cbn in Hn; rewrite Hn; unfold claimKind; cbn; destruct (jc_Claimed change), (jr_Matched j), (isSome (jr_StartedAt j)), sized; cbn;
    destruct e; try discriminate He; vm_compute; lia.
Qed.

Lemma lines_completed j change sized :
  (jc_Created change = true -> jc_StateChanged change = true) ->
  occurrences JobEventCompleted (recordJobChange j change sized) = (if jc_StateChanged change && is_job (jr_State j) JobCompleted then 1 else 0)%nat.
Proof.
  intros Hc. unfold recordJobChange, claimKind. destruct (jc_Created change) eqn:E; [rewrite Hc by done|clear Hc]; cbn;
    destruct (jr_State j); cbn; destruct sized; destruct (jr_Matched j); destruct (isSome (jr_StartedAt j)); destruct (jc_Claimed change);
    destruct (bool_decide (jc_PreviousState change = Some JobWaiting)); destruct (bool_decide (jc_PreviousState change = Some JobQueued));
    try destruct (jc_StateChanged change); vm_compute; done.
Qed.

Lemma deliver_timeline k sized e ds : once e = true -> forall table, let told := fst (deliver table ds) in
  (occurrences e (timeline k sized told) <= to_come e (jr_State <$> table !! k))%nat.
Proof.
  intros He. induction ds as [|d ds IH]; intros table; [cbn; lia|]. cbn -[ApplyJob].
  destruct (ApplyJob_state table (d_job d) (d_id d) (d_now d)) as (a & E & Hs & Hc & Hk). rewrite E. specialize (IH (aj_table a)).
  destruct (ApplyJob_change _ _ _ _ _ E) as [Hp Hcr]. destruct (deliver (aj_table a) ds) as [told final]. cbn [fst] in IH |- *. rewrite (Hk k) in IH.
  unfold timeline in *. cbn [map concat]. rewrite occurrences_app. unfold lines at 1. cbn [fst snd].
  destruct (Z.eqb_spec (jr_GitHubJobID (d_job d)) k) as [<-|Hne]; [|exact IH]. rewrite <- Hs in IH, Hc.
  pose proof (lines_once e (aj_out a) (aj_change a) (sized d) _ He Hp Hcr Hc ltac:(by exists (jr_State (d_job d)))). lia.
Qed.

Lemma timeline_completed k sized ds : forall table, let told := fst (deliver table ds) in
  occurrences JobEventCompleted (timeline k sized told) = times_told k JobCompleted told.
Proof.
  induction ds as [|d ds IH]; intros table; [done|]. cbn -[ApplyJob].
  destruct (ApplyJob_state table (d_job d) (d_id d) (d_now d)) as (a & E & Hs & Hc & Hk). rewrite E. specialize (IH (aj_table a)).
  destruct (ApplyJob_change _ _ _ _ _ E) as [Hp Hcr]. destruct (deliver (aj_table a) ds) as [told final]. cbn [fst] in IH |- *.
  unfold timeline in *. cbn [map concat]. rewrite times_told_cons, occurrences_app, IH. f_equal. unfold lines. cbn [fst snd].
  destruct (Z.eqb_spec (jr_GitHubJobID (d_job d)) k) as [<-|Hne]; [|done]. cbn [andb]. apply lines_completed. rewrite Hc, Hcr.
  destruct (jr_State <$> table !! jr_GitHubJobID (d_job d)); [done|by rewrite bool_decide_eq_false_2].
Qed.

(** A job's timeline has each of its lines once, whatever is delivered in whatever
    order: it is announced once, approved, given a class and started at most once, and
    completed exactly once if it had not completed and a delivery says so. *)
Theorem timeline_tells_each_once k sized table ds : let told := fst (deliver table ds) in
  (forall e, once e = true -> (occurrences e (timeline k sized told) <= to_come e (jr_State <$> table !! k) <= 1)%nat) /\
  occurrences JobEventCompleted (timeline k sized told) =
    if bool_decide (jr_State <$> table !! k <> Some JobCompleted /\ JobCompleted ∈ named k ds) then 1%nat else 0%nat.
Proof.
  cbn zeta. split.
  - intros e He. split; [by apply deliver_timeline|]. destruct e, (jr_State <$> table !! k) as [[]|]; cbn; lia.
  - rewrite timeline_completed. apply told_complete.
Qed.
