(* ===== verification/RateLimit.v ===== *)
(** * The sliding-window limiter (auth/ratelimit.go)

    Sign-ins, pairing and unverifiable webhook deliveries are bounded by key.  The limiter
    keeps only the attempts still inside the window, and forgets keys with none; the
    theorems say that it answers as one that remembered every accepted attempt would, so
    that no stretch of a window's length holds more than the limit, and that what
    [RetryAfter] says is exact. *)
From Stdlib Require Import ZArith Lia String Sorting.Sorted.
From stdpp Require Import base strings list gmap sorting.
From S2P Require Import Prelude GoFloat.
Local Open Scope string_scope.
Local Open Scope list_scope.
Local Open Scope Z_scope.

Record RateLimiter := {
  rl_limit : Z;
  rl_window : Duration;
  rl_hits : gmap string (list Time);
  rl_swept : Time
}.

Definition NewRateLimiter (limit : Z) (window : Duration) : RateLimiter :=
  {| rl_limit := limit; rl_window := if window <=? 0 then Minute else window; rl_hits := ∅; rl_swept := 0 |}.

Fixpoint within (hits : list Time) (cut : Time) : list Time :=
  match hits with
  | [] => []
  | h :: rest => if Time_After h cut then hits else within rest cut
  end.

Definition hits_of (l : RateLimiter) (key : string) : list Time := default [] (rl_hits l !! key).
Definition with_hits (l : RateLimiter) (hits : gmap string (list Time)) (swept : Time) : RateLimiter :=
  {| rl_limit := rl_limit l; rl_window := rl_window l; rl_hits := hits; rl_swept := swept |}.

Definition sweep (l : RateLimiter) (now : Time) : RateLimiter :=
  if Time_Sub now (rl_swept l) <? rl_window l then l
  else let cut := now - rl_window l in
       with_hits l (omap (fun hits => match within hits cut with [] => None | remaining => Some remaining end) (rl_hits l)) now.

Definition AllowAt (l : RateLimiter) (key : string) (now : Time) : bool * RateLimiter :=
  if rl_limit l <=? 0 then (true, l)
  else
    let l := sweep l now in
    let hits := within (hits_of l key) (now - rl_window l) in
    if rl_limit l <=? Z.of_nat (length hits) then (false, with_hits l (<[key := hits]> (rl_hits l)) (rl_swept l))
    else (true, with_hits l (<[key := hits ++ [now]]> (rl_hits l)) (rl_swept l)).

Definition RetryAfter (l : RateLimiter) (key : string) (now : Time) : Duration * RateLimiter :=
  if rl_limit l <=? 0 then (0, l)
  else
    let hits := within (hits_of l key) (now - rl_window l) in
    let l' := with_hits l (<[key := hits]> (rl_hits l)) (rl_swept l) in
    if Z.of_nat (length hits) <? rl_limit l then (0, l')
    else match hits with
         | oldest :: _ => let d := Time_Sub (oldest + rl_window l) now in (if 0 <? d then d else 0, l')
         | [] => (0, l')
         end.

Definition Reset (l : RateLimiter) (key : string) : RateLimiter := with_hits l (delete key (rl_hits l)) (rl_swept l).
Definition Keys (l : RateLimiter) : Z := Z.of_nat (size (rl_hits l)).

(** Attempts one after another, and their answers. *)
Fixpoint attempts (l : RateLimiter) (asked : list (string * Time)) : list bool * RateLimiter :=
  match asked with
  | [] => ([], l)
  | (key, now) :: rest =>
      let '(ok, l') := AllowAt l key now in
      let '(oks, l2) := attempts l' rest in (ok :: oks, l2)
  end.

(** ** A limiter that forgets nothing *)

Definition accepted_in (past : list Time) (window : Duration) (now : Time) : list Time := List.filter (fun h => Time_After h (now - window)) past.

Fixpoint remembered (limit : Z) (window : Duration) (past : string -> list Time) (asked : list (string * Time)) : list bool * (string -> list Time) :=
  match asked with
  | [] => ([], past)
  | (key, now) :: rest =>
      let ok := Z.of_nat (length (accepted_in (past key) window now)) <? limit in
      let past' := if ok then fun k => if bool_decide (k = key) then past k ++ [now] else past k else past in
      let '(oks, final) := remembered limit window past' rest in (ok :: oks, final)
  end.

(** Attempts in the order of their times. *)
Definition in_order (now : Time) (asked : list (string * Time)) : Prop := StronglySorted Z.le (now :: map snd asked).

(** ** The window *)

Definition live (cut : Time) (l : list Time) : list Time := List.filter (fun h => Time_After h cut) l.

Lemma live_all cut l : Forall (fun h => cut < h) l -> live cut l = l.
Proof. induction 1 as [|h l Hh _ IH]; [done|]. unfold live, Time_After in *. cbn. by rewrite (proj2 (Z.ltb_lt _ _) Hh), IH. Qed.

Lemma within_live hits cut : StronglySorted Z.le hits -> within hits cut = live cut hits.
Proof.
  induction 1 as [|h rest Hs IH Hh]; [done|]. unfold live in *. cbn [within List.filter]. destruct (Time_After h cut) eqn:E; [|done].
  f_equal. symmetry. apply live_all. unfold Time_After in E. apply Z.ltb_lt in E. eapply Forall_impl; [exact Hh|]. cbn. intros. lia.
Qed.

Lemma live_live cut cut' l : cut <= cut' -> live cut' (live cut l) = live cut' l.
Proof.
  intros H. unfold live, Time_After. induction l as [|h l IH]; [done|]. cbn [List.filter].
  destruct (Z.ltb_spec cut h); cbn [List.filter]; destruct (Z.ltb_spec cut' h); rewrite ?IH; try done; lia.
Qed.

Lemma live_app cut l l' : live cut (l ++ l') = live cut l ++ live cut l'.
Proof. apply List.filter_app. Qed.

Lemma live_sub cut l (P : Time -> Prop) : Forall P l -> Forall P (live cut l).
Proof. rewrite !Forall_forall. intros H x Hx. apply list_elem_of_In, filter_In in Hx as [Hx _]. by apply H, list_elem_of_In. Qed.

Lemma live_sorted cut l : StronglySorted Z.le l -> StronglySorted Z.le (live cut l).
Proof.
  induction 1 as [|h l Hs IH Hh]; [constructor|]. unfold live in *. cbn. destruct (Time_After h cut); [|done].
  constructor; [done|]. by apply (live_sub cut).
Qed.

Lemma snoc_sorted l now : StronglySorted Z.le l -> Forall (fun h => h <= now) l -> StronglySorted Z.le (l ++ [now]).
Proof. intros Hs Hl. apply StronglySorted_app. split_and!; [|done|by repeat constructor]. intros x y Hx Hy%list_elem_of_singleton. subst. by apply (proj1 (Forall_forall _ _) Hl). Qed.

(** What the limiter keeps of a key's history: all that is in a window now or later. *)
Record tracks (l : RateLimiter) (now : Time) (past : string -> list Time) : Prop := {
  tr_sorted : forall k, StronglySorted Z.le (hits_of l k);
  tr_past_sorted : forall k, StronglySorted Z.le (past k);
  tr_past : forall k, Forall (fun h => h <= now) (past k);
  tr_live : forall k cut, now - rl_window l <= cut -> live cut (hits_of l k) = live cut (past k)
}.

Lemma hits_insert l key hits swept k : hits_of (with_hits l (<[key := hits]> (rl_hits l)) swept) k = if bool_decide (k = key) then hits else hits_of l k.
Proof. unfold hits_of; cbn. case_bool_decide as E; [subst; by rewrite lookup_insert_eq|by rewrite lookup_insert_ne]. Qed.

Lemma hits_sweep l now k : (forall k, StronglySorted Z.le (hits_of l k)) ->
  exists cut, cut <= now - rl_window l /\ hits_of (sweep l now) k = live cut (hits_of l k) \/ hits_of (sweep l now) k = hits_of l k.
Proof.
  intros Hs. unfold sweep. destruct (_ <? _); [exists 0; by right|]. exists (now - rl_window l). left. split; [lia|].
  rewrite <- within_live by done. unfold hits_of; cbn. rewrite lookup_omap. destruct (rl_hits l !! k) as [h|]; cbn; [|done].
  by destruct (within h _).
Qed.

Lemma sweep_settings l now : rl_limit (sweep l now) = rl_limit l /\ rl_window (sweep l now) = rl_window l.
Proof. unfold sweep. by destruct (_ <? _). Qed.

Lemma sweep_tracks l t now past : t <= now -> tracks l t past -> tracks (sweep l now) now past.
Proof.
  intros Ht [H1 H2 H3 H4]. destruct (sweep_settings l now) as [_ Hw]. split; [|done| |].
  - intros k. destruct (hits_sweep l now k H1) as (cut & [[_ ->]| ->]); [by apply live_sorted|done].
  - intros k. eapply Forall_impl; [apply H3|]. cbn. intros. lia.
  - intros k cut Hc. rewrite Hw in Hc. rewrite <- (H4 k) by lia.
    destruct (hits_sweep l now k H1) as (cut' & [[Hcut ->]| ->]); [|done]. apply live_live. lia.
Qed.

Lemma AllowAt_tracks l t key now past : 0 < rl_limit l -> t <= now -> tracks l t past ->
  let ok := Z.of_nat (length (accepted_in (past key) (rl_window l) now)) <? rl_limit l in
  fst (AllowAt l key now) = ok /\ rl_limit (snd (AllowAt l key now)) = rl_limit l /\ rl_window (snd (AllowAt l key now)) = rl_window l /\
  tracks (snd (AllowAt l key now)) now (if ok then fun k => if bool_decide (k = key) then past k ++ [now] else past k else past).
Proof.
  intros Hlim Ht Htr. unfold AllowAt. rewrite (proj2 (Z.leb_gt _ _) Hlim). destruct (sweep_settings l now) as [El Ew].
  pose proof (sweep_tracks l t now past Ht Htr) as [H1 H2 H3 H4]. set (l1 := sweep l now) in *. clearbody l1. rewrite <- El, <- Ew.
  rewrite within_live by done. change (accepted_in (past key) (rl_window l1) now) with (live (now - rl_window l1) (past key)).
  rewrite (H4 key) by lia. rewrite Z.leb_antisym. set (kept := live (now - rl_window l1) (past key)).
  assert (Hk : forall cut, now - rl_window l1 <= cut -> live cut kept = live cut (past key)) by (intros cut Hc; by apply live_live).
  assert (Hks : StronglySorted Z.le kept) by by apply live_sorted.
  destruct (Z.ltb_spec (Z.of_nat (length kept)) (rl_limit l1)); cbn [negb fst snd]; split_and!; try done; split; cbn [rl_window with_hits].
  - intros k. rewrite hits_insert. case_bool_decide; [|done]. apply snoc_sorted; [done|]. by apply live_sub.
  - intros k. case_bool_decide; [subst|done]. by apply snoc_sorted.
  - intros k. case_bool_decide; [|done]. apply Forall_app; split; [done|]. repeat constructor; lia.
  - intros k cut Hc. rewrite hits_insert. case_bool_decide; [subst|by apply H4]. by rewrite !live_app, Hk.
  - intros k. rewrite hits_insert. by case_bool_decide.
  - done.
  - done.
  - intros k cut Hc. rewrite hits_insert. case_bool_decide; [subst|by apply H4]. by apply Hk.
Qed.

Lemma attempts_tracks asked : forall l t past, 0 < rl_limit l -> in_order t asked -> tracks l t past ->
  fst (attempts l asked) = fst (remembered (rl_limit l) (rl_window l) past asked).
Proof.
  induction asked as [|[key now] rest IH]; intros l t past Hl Ho Htr; [done|]. unfold in_order in Ho. cbn [map snd] in Ho.
  inversion Ho as [|? ? Ho' Ht]; subst. inversion Ht as [|? ? Ht1 _]; subst.
  destruct (AllowAt_tracks l t key now past Hl Ht1 Htr) as (Hok & El & Ew & Htr').
  cbn [attempts remembered]. destruct (AllowAt l key now) as [ok l']. cbn [fst snd] in *. rewrite <- Hok in *. rewrite <- El, <- Ew in *.
  specialize (IH l' now _ Hl Ho' Htr'). destruct (attempts l' rest). destruct (remembered _ _ _ rest). cbn [fst] in *. by rewrite IH.
Qed.

Lemma fresh_tracks limit window now : tracks (NewRateLimiter limit window) now (fun _ => []).
Proof. split; intros; unfold hits_of; cbn; rewrite ?lookup_empty; cbn; try constructor; done. Qed.

(** ** The answers *)

(** The accepted attempts of a key, from the attempts and their answers. *)
Fixpoint accepted (key : string) (asked : list (string * Time)) (oks : list bool) : list Time :=
  match asked, oks with
  | (k, now) :: asked', ok :: oks' => if bool_decide (k = key) && (ok : bool) then now :: accepted key asked' oks' else accepted key asked' oks'
  | _, _ => []
  end.

(** The times in a stretch of the window's length that ends at [upto]. *)
Definition in_stretch (window : Duration) (upto : Time) (l : list Time) : list Time :=
  List.filter (fun h => Time_After h (upto - window) && (h <=? upto)) l.

Definition bounded (limit : Z) (window : Duration) (past : string -> list Time) : Prop :=
  forall k upto, Z.of_nat (length (in_stretch window upto (past k))) <= limit.

Lemma stretch_live window upto now l : now <= upto -> (length (in_stretch window upto l) <= length (live (now - window) l))%nat.
Proof.
  intros H. induction l as [|h l IH]; [done|]. unfold in_stretch, live, Time_After in *. cbn [List.filter].
  destruct (Z.ltb_spec (upto - window) h); cbn [andb].
  - rewrite (proj2 (Z.ltb_lt (now - window) h)) by lia. destruct (h <=? upto); cbn [length]; lia.
  - destruct (now - window <? h); cbn [length]; lia.
Qed.

Lemma stretch_app window upto l l' : in_stretch window upto (l ++ l') = in_stretch window upto l ++ in_stretch window upto l'.
Proof. apply List.filter_app. Qed.

Lemma bounded_snoc limit window past key now : bounded limit window past ->
  Z.of_nat (length (accepted_in (past key) window now)) <? limit = true ->
  bounded limit window (fun k => if bool_decide (k = key) then past k ++ [now] else past k).
Proof.
  intros Hb Hok%Z.ltb_lt k upto. case_bool_decide; [subst k|apply Hb]. rewrite stretch_app, length_app.
  change (accepted_in (past key) window now) with (live (now - window) (past key)) in Hok. unfold in_stretch at 2, Time_After. cbn [List.filter].
  destruct (Z.leb_spec now upto) as [Hu|Hu]; [|rewrite andb_false_r; cbn; specialize (Hb key upto); lia].
  pose proof (stretch_live window upto now (past key) Hu). destruct (_ && _); cbn [length]; lia.
Qed.

Lemma remembered_step limit window past key now : let ok := Z.of_nat (length (accepted_in (past key) window now)) <? limit in
  bounded limit window past ->
  bounded limit window (if ok then fun k => if bool_decide (k = key) then past k ++ [now] else past k else past).
Proof. cbn. destruct (_ <? limit) eqn:E; [|done]. intros Hb. by apply bounded_snoc. Qed.

Lemma remembered_bounded limit window k upto asked : forall past, bounded limit window past ->
  Z.of_nat (length (in_stretch window upto (past k ++ accepted k asked (fst (remembered limit window past asked))))) <= limit.
Proof.
  induction asked as [|[key now] rest IH]; intros past Hb; [cbn; rewrite app_nil_r; apply Hb|]. cbn [remembered].
  specialize (IH _ (remembered_step limit window past key now Hb)). revert IH.
  destruct (Z.of_nat (length (accepted_in (past key) window now)) <? limit); destruct (remembered limit window _ rest) as [oks final]; cbn [fst accepted].
  - rewrite andb_true_r, (bool_decide_ext (k = key) (key = k)) by (by split). case_bool_decide; [|done]. by rewrite <- app_assoc.
  - by rewrite andb_false_r.
Qed.

Lemma nothing_bounded limit window : 0 <= limit -> bounded limit window (fun _ => []).
Proof. intros H k upto. cbn. lia. Qed.

(** A limiter answers each attempt as one that remembered every accepted attempt
    would, though it keeps only those inside the window and forgets the keys with none;
    so no stretch of a window's length, wherever it ends, holds more accepted attempts of
    a key than the limit. *)
Theorem limiter_forgets_nothing limit window start asked : 0 < limit -> 0 < window -> in_order start asked ->
  let oks := fst (attempts (NewRateLimiter limit window) asked) in
  oks = fst (remembered limit window (fun _ => []) asked) /\
  forall key upto, Z.of_nat (length (in_stretch window upto (accepted key asked oks))) <= limit.
Proof.
  intros Hl Hw Ho. cbn zeta. assert (Ew : rl_window (NewRateLimiter limit window) = window) by (cbn; by rewrite (proj2 (Z.leb_gt _ _) Hw)).
  rewrite (attempts_tracks asked (NewRateLimiter limit window) start (fun _ => [])), Ew by (done || apply fresh_tracks).
  split; [done|]. intros key upto. apply (remembered_bounded limit window key upto asked (fun _ => [])). apply nothing_bounded. lia.
Qed.

(** ** How long to wait *)

Lemma attempts_state key now asked : forall l t past, 0 < rl_limit l -> in_order t (asked ++ [(key, now)]) -> tracks l t past ->
  bounded (rl_limit l) (rl_window l) past ->
  let l' := snd (attempts l asked) in
  rl_limit l' = rl_limit l /\ rl_window l' = rl_window l /\
  exists t' past', t' <= now /\ tracks l' t' past' /\ bounded (rl_limit l) (rl_window l) past'.
Proof.
  induction asked as [|[k now'] rest IH]; intros l t past Hl Ho Htr Hb; cbn [attempts snd]; unfold in_order in Ho; cbn [app map snd] in Ho;
    inversion Ho as [|? ? Ho' Ht]; subst; inversion Ht as [|? ? Ht1 _]; subst; [by eauto 8|].
  destruct (AllowAt_tracks l t k now' past Hl Ht1 Htr) as (_ & El & Ew & Htr'). pose proof (remembered_step _ (rl_window l) past k now' Hb) as Hb'.
  destruct (AllowAt l k now') as [ok l']. cbn [fst snd] in *. rewrite <- El, <- Ew in *.
  specialize (IH l' now' _ Hl Ho' Htr' Hb'). by destruct (attempts l' rest).
Qed.

Lemma kept_tracks l now past key : tracks l now past -> forall hits, hits = live (now - rl_window l) (past key) ->
  tracks (with_hits l (<[key := hits]> (rl_hits l)) (rl_swept l)) now past.
Proof.
  intros [H1 H2 H3 H4] hits ->. split; [|done|done|].
  - intros k. rewrite hits_insert. case_bool_decide; [by apply live_sorted|done].
  - intros k cut Hc. rewrite hits_insert. case_bool_decide; [subst; by apply live_live|by apply H4].
Qed.

Lemma tracks_later l t now past : t <= now -> tracks l t past -> tracks l now past.
Proof.
  intros Ht [H1 H2 H3 H4]. split; [done|done| |].
  - intros k. eapply Forall_impl; [apply H3|]. cbn. intros. lia.
  - intros k cut Hc. apply H4. lia.
Qed.

Lemma live_stretch window now l : Forall (fun h => h <= now) l -> in_stretch window now l = live (now - window) l.
Proof.
  induction 1 as [|h l Hh _ IH]; [done|]. unfold in_stretch, live in *. cbn [List.filter]. rewrite (proj2 (Z.leb_le _ _) Hh), andb_true_r. by rewrite IH.
Qed.

(** What is left of the kept attempts later: all while the oldest is inside the window, fewer once it is out. *)
Lemma live_before cut l : StronglySorted Z.le l -> match l with [] => True | h :: _ => cut < h end -> live cut l = l.
Proof.
  intros Hs Hh. destruct Hs as [|h l Hs Hl]; [done|]. apply live_all. constructor; [done|].
  eapply Forall_impl; [exact Hl|]. cbn. intros. lia.
Qed.
Lemma live_after cut h l : h <= cut -> (length (live cut (h :: l)) <= length l)%nat.
Proof.
  intros H. unfold live, Time_After. cbn [List.filter]. rewrite (proj2 (Z.ltb_ge _ _) H).
  induction l as [|x l IH]; [done|]. cbn [List.filter]. destruct (cut <? x); cbn [length]; lia.
Qed.

Lemma next_answer l now past key e : 0 < rl_limit l -> 0 <= e -> tracks l now past ->
  fst (AllowAt l key (now + e)) = (Z.of_nat (length (live (now + e - rl_window l) (live (now - rl_window l) (past key)))) <? rl_limit l).
Proof.
  intros Hl He Htr. destruct (AllowAt_tracks l now key (now + e) past Hl ltac:(lia) Htr) as [-> _]. f_equal. f_equal. f_equal.
  rewrite live_live by lia. done.
Qed.

(** What a refused caller is told to wait is exact: an attempt made any time
    sooner is refused, and one made then is accepted; a caller told not to wait is
    accepted at once. *)
Theorem RetryAfter_exact limit window start asked key now : 0 < limit -> 0 < window -> in_int64 window ->
  in_order start (asked ++ [(key, now)]) ->
  let '(d, l) := RetryAfter (snd (attempts (NewRateLimiter limit window) asked)) key now in
  0 <= d /\ fst (AllowAt l key (now + d)) = true /\ forall e, 0 <= e < d -> fst (AllowAt l key (now + e)) = false.
Proof.
  intros Hl Hw Hi Ho. assert (Ew : rl_window (NewRateLimiter limit window) = window) by (cbn; by rewrite (proj2 (Z.leb_gt _ _) Hw)).
  destruct (attempts_state key now asked (NewRateLimiter limit window) start _ Hl Ho (fresh_tracks limit window start) (nothing_bounded limit _ ltac:(lia)))
    as (El & Ew' & t & past & Ht & Htr & Hb). rewrite Ew in Ew', Hb. cbn [rl_limit NewRateLimiter] in El, Hb.
  set (l := snd _) in *. clearbody l. apply (tracks_later l t now) in Htr; [|done]. pose proof Htr as [H1 H2 H3 H4].
  unfold RetryAfter. rewrite El, (proj2 (Z.leb_gt _ _) Hl). rewrite within_live, (H4 key), Ew' by (done || lia).
  set (hits := live (now - window) (past key)). set (l' := with_hits l _ _).
  assert (Htr' : tracks l' now past) by (apply kept_tracks; [done|by rewrite Ew']).
  assert (Hn : forall e, 0 <= e -> fst (AllowAt l' key (now + e)) = (Z.of_nat (length (live (now + e - window) hits)) <? limit)).
  { intros e He. unfold hits. rewrite <- Ew', <- El. apply (next_answer l'); [cbn; lia|done|done]. }
  assert (Hbound : Z.of_nat (length hits) <= limit) by (unfold hits; rewrite <- live_stretch by done; apply Hb).
  assert (Hnow : live (now + 0 - window) hits = hits) by (unfold hits; rewrite Z.add_0_r; apply live_live; lia).
  assert (Hhs : StronglySorted Z.le hits) by by apply live_sorted.
  destruct (Z.ltb_spec (Z.of_nat (length hits)) limit) as [Hlt|Hge].
  { split_and!; [done| |intros; lia]. rewrite Hn, Hnow by done. by apply Z.ltb_lt. }
  destruct hits as [|oldest more] eqn:Eh; [cbn in Hge; lia|].
  assert (Hold : now - window < oldest <= now).
  { assert (Hin : oldest ∈ live (now - window) (past key)) by (fold hits; rewrite Eh; left).
    apply list_elem_of_In, filter_In in Hin as [Hin Ha]. unfold Time_After in Ha. apply Z.ltb_lt in Ha. split; [done|].
    apply (proj1 (Forall_forall _ _) (H3 key)). by apply list_elem_of_In. }
  assert (Hsub : Time_Sub (oldest + window) now = oldest + window - now) by (unfold Time_Sub, in_int64, int_min, int_max in *; lia).
  rewrite Hsub, (proj2 (Z.ltb_lt _ _)) by lia. split_and!; [lia| |].
  - rewrite Hn by lia. apply Z.ltb_lt. pose proof (live_after (now + (oldest + window - now) - window) oldest more ltac:(lia)). cbn [length] in *. lia.
  - intros e He. rewrite Hn, live_before by (done || lia). apply Z.ltb_ge. lia.
Qed.
