(* ===== verification/Rbac.v ===== *)
(** * Who may do what (auth/rbac.go, auth/visitor.go, minting in auth/auth.go)

    Every route asks [Allowed] for one action.  The table [actionRoles] gives an action its
    least role; an identity may also carry scopes, which narrow it below its role.  A token
    is how an identity hands its authority on: [MintWithin] is the check the API makes,
    [CreateAPIToken] what is stored, and [authenticateToken] the identity the token
    presents.  The theorems say that authority is handed on and never made up, for every
    mint that asks for a scope: a list of blank scopes passes the check as a list and is
    stored as none, which [blank_scope_sheds_the_limit] proves of the code.  The hash of a
    token, the ids and the store's answers are arguments. *)
From Stdlib Require Import ZArith Lia String Ascii.
From stdpp Require Import base strings list gmap.
From S2P Require Import Prelude GoString.
Local Open Scope string_scope.
Local Open Scope list_scope.
Local Open Scope Z_scope.

(** ** Roles *)
Notation Role := string (only parsing).
Definition RoleViewer : Role := "viewer".
Definition RoleOperator : Role := "operator".
Definition RoleAdmin : Role := "admin".
Definition RolePlatform : Role := "platform".

Definition Roles : list Role := [RoleViewer; RoleOperator; RoleAdmin; RolePlatform].
Definition RoleList : string := strings_Join (removelast Roles) ", " +:+ " or " +:+ List.last Roles "".
Definition Role_Valid (r : Role) : bool := str_in r Roles.
Definition rank (r : Role) : Z :=
  if str_eqb r RoleViewer then 1 else if str_eqb r RoleOperator then 2
  else if str_eqb r RoleAdmin then 3 else if str_eqb r RolePlatform then 4 else 0.
Definition AtLeast (r want : Role) : bool := (rank want <=? rank r) && (0 <? rank r).

(** ** Actions, by the string each constant of the source is *)
Notation Action := string (only parsing).
Definition actionRows : list (Action * Role) :=
  [("kennel.guidance_preview", RoleAdmin); ("kennel.guidance_pr", RoleAdmin); ("kennel.read", RoleViewer);
   ("kennel.recheck", RoleOperator); ("kennel.waive", RoleOperator); ("kennel.waive_error", RoleAdmin);
   ("kennel.track", RoleOperator); ("kennel.untrack", RoleAdmin); ("context.read", RoleViewer);
   ("context.configure", RoleAdmin); ("context.manage", RoleViewer); ("context.publish", RoleViewer);
   ("pools.read", RoleViewer); ("pools.write", RoleOperator); ("pools.delete", RoleOperator);
   ("runners.read", RoleViewer); ("runners.drain", RoleOperator); ("runners.delete", RoleOperator);
   ("provisioning.write", RoleOperator); ("jobs.read", RoleViewer); ("jobs.cancel", RoleOperator);
   ("jobs.rerun", RoleOperator); ("jobs.acknowledge", RoleOperator); ("comparisons.write", RoleOperator);
   ("optimisations.read", RoleOperator); ("optimisations.write", RoleOperator);
   ("optimisations.publish", RoleOperator); ("usage.read", RoleViewer); ("problems.apply", RoleOperator);
   ("hosts.read", RoleViewer); ("hosts.write", RoleOperator); ("hosts.cordon", RoleOperator);
   ("hosts.delete", RoleAdmin); ("hosts.accept", RoleOperator); ("hosts.check", RoleOperator);
   ("hosts.update", RoleAdmin); ("installations.read", RoleViewer); ("installations.write", RoleAdmin);
   ("installations.delete", RoleAdmin); ("installations.verify", RoleOperator);
   ("installations.export", RoleAdmin); ("webhooks.read", RoleViewer); ("webhooks.test", RoleOperator);
   ("assistant.own", RoleViewer); ("assistant.read", RoleAdmin); ("assistant.write", RoleAdmin);
   ("assistant.chat", RoleAdmin); ("providers.read", RoleViewer); ("providers.write", RoleAdmin);
   ("providers.delete", RoleAdmin); ("providers.pause", RoleOperator); ("providers.test", RoleOperator);
   ("machines.read", RoleViewer); ("machines.drain", RoleOperator); ("machines.delete", RoleAdmin);
   ("audit.read", RoleViewer); ("updates.read", RoleViewer); ("updates.check", RoleAdmin);
   ("updates.apply", RolePlatform); ("updates.rollout", RoleAdmin); ("migrations.read", RoleOperator);
   ("migrations.write", RoleOperator); ("users.read", RoleAdmin); ("users.write", RoleAdmin);
   ("tokens.read", RoleAdmin); ("tokens.write", RoleAdmin); ("tokens.own", RoleViewer);
   ("joins.read", RoleAdmin); ("joins.write", RoleAdmin); ("mcp_clients.read", RoleAdmin);
   ("mcp_clients.write", RoleAdmin); ("settings.read", RoleAdmin); ("settings.write", RoleAdmin);
   ("metrics.read", RoleViewer); ("events.read", RoleViewer); ("logs.read", RoleViewer);
   ("stats.read", RoleViewer); ("diagnostics.read", RoleAdmin); ("recovery.write", RolePlatform);
   ("backups.read", RolePlatform); ("backups.write", RolePlatform); ("backups.restore", RolePlatform);
   ("controller.read", RolePlatform)].
Definition actionRoles : gmap Action Role := list_to_map actionRows.

Definition AllActions : list Action := SortStableFunc strings_Compare (map_to_list actionRoles).*1.
Definition Action_Known (a : Action) : bool := bool_decide (is_Some (actionRoles !! a)).
Definition Resource (a : Action) : string := (strings_Cut a ".").1.1.
Definition Verb (a : Action) : string := (strings_Cut a ".").1.2.
Definition Scope (a : Action) : string := Resource a +:+ ":" +:+ Verb a.
Definition MinRole (a : Action) : Role := default RoleAdmin (actionRoles !! a).

(** ** Identities *)
Record Identity := {
  id_Kind : string;
  id_ID : string;
  id_Name : string;
  id_Role : Role;
  id_Scopes : list string;
  id_TokenID : string;
  id_UserID : string;
  id_IP : string
}.

Definition KindUser : string := "user".
Definition KindToken : string := "token".
Definition KindConnection : string := "connection".
Definition KindAgent : string := "agent".
Definition KindSystem : string := "system".
Definition KindPublic : string := "public".

Definition subject (id : Identity) : string :=
  if str_eqb (id_Kind id) KindToken then "token"
  else if str_eqb (id_Kind id) KindConnection then "MCP connection"
  else if str_eqb (id_Kind id) KindAgent then "agent"
  else if str_eqb (id_Kind id) KindSystem then "system identity"
  else if str_eqb (id_Kind id) KindPublic then "public view"
  else "account".

(** ** The two gates *)

(** What every reader of a scope does to it first. *)
Definition fold_scope (s : string) : string := strings_ToLower (strings_TrimSpace s).

(** One turn of the loop: whether the scope, folded, covers the action. *)
Definition scopeCovers (s : string) (a : Action) : bool :=
  if str_in s [""; "-"] then false
  else if str_in s ["*"; "*:*"] then true
  else if str_eqb s (Scope a) then true
  else let '(res, verb, ok) := strings_Cut s ":" in
       if negb ok || negb (str_eqb res (Resource a)) then false
       else str_eqb verb "*" || str_eqb (Verb a) "read".

Definition scopesAllow (scopes : list string) (a : Action) : bool :=
  existsb (fun s => scopeCovers (fold_scope s) a) scopes.

Definition impliedBy (a : Action) : list Action :=
  if str_eqb a "tokens.own" then ["tokens.read"; "tokens.write"]
  else if str_eqb a "kennel.waive" then ["kennel.waive_error"]
  else if str_eqb a "kennel.track" then ["kennel.untrack"]
  else [].

Definition Allowed (id : option Identity) (a : Action) : bool :=
  match id with
  | None => false
  | Some id =>
      match actionRoles !! a with
      | None => false
      | Some want =>
          if negb (AtLeast (id_Role id) want) then false
          else match id_Scopes id with
               | [] => true
               | scopes => scopesAllow scopes a || existsb (scopesAllow scopes) (impliedBy a)
               end
      end
  end.

(** ** Handing authority on *)
Definition ManageWithin (by_ : option Identity) (roles : list Role) : option string :=
  match by_ with
  | None => Some "an account can only be changed by an authenticated caller"
  | Some by_ =>
      match List.find (fun role => negb (AtLeast (id_Role by_) role)) roles with
      | Some role =>
          Some ("the " +:+ id_Role by_ +:+ " role cannot grant or change a " +:+ role +:+
                " account; ask somebody with the " +:+ role +:+ " role")
      | None => None
      end
  end.

Definition beyond (scopes held : list string) : list string :=
  Scope <$> List.filter (fun a => scopesAllow scopes a && negb (scopesAllow held a)) AllActions.

Definition MintWithin (by_ : option Identity) (role : Role) (scopes : list string) : option string :=
  match by_ with
  | None => Some "a token can only be minted by an authenticated caller"
  | Some by_ =>
      if negb (AtLeast (id_Role by_) role)
      then Some ("a " +:+ id_Role by_ +:+ " cannot mint a " +:+ role +:+
                 " token; a token carries no more than the caller that made it")
      else match id_Scopes by_, scopes with
           | [], _ => None
           | held, [] =>
               Some ("this token is limited to " +:+ strings_Join held ", " +:+
                     ", so the tokens it mints need scopes within that; an unscoped token would carry the whole role")
           | held, _ =>
               match beyond scopes held with
               | [] => None
               | over => Some ("this token is limited to " +:+ strings_Join held ", " +:+
                               " and cannot mint one that reaches " +:+ strings_Join over ", ")
               end
           end
  end.

Definition validScopes : gset string :=
  list_to_set (["*"; "*:*"] ++ (Scope <$> AllActions) ++ ((fun a => Resource a +:+ ":*") <$> AllActions)).

#[local] Opaque validScopes.
Definition badScopes (scopes : list string) : list string :=
  List.filter (fun s => negb (str_eqb s "") && negb (bool_decide (s ∈ validScopes))) (fold_scope <$> scopes).

Definition ValidateScopes (scopes : list string) : option string :=
  match badScopes scopes with
  | [] => None
  | bad => Some ("unknown scope " +:+ strings_Join bad ", " +:+ ": valid scopes are " +:+
                 strings_Join (Scope <$> AllActions) ", " +:+ ", or <resource>:* , or *")
  end.

(** The loop's [seen] holds what [out] does. *)
Definition normalizeScopes (scopes : list string) : list string :=
  foldl (fun out s => let s := fold_scope s in if str_eqb s "" || str_in s out then out else out ++ [s]) [] scopes.

(** ** Tokens *)
Record APIToken := {
  at_ID : string;
  at_Name : string;
  at_Role : Role;
  at_OwnerRole : Role;
  at_UserID : string;
  at_Scopes : list string;
  at_TokenHash : string;
  at_Prefix : string;
  at_ExpiresAt : option Time;
  at_Revoked : bool
}.

Definition Expired (t : APIToken) (now : Time) : bool :=
  match at_ExpiresAt t with Some e => Time_After now e | None => false end.

Record NewToken := {
  nt_Name : string;
  nt_Role : Role;
  nt_UserID : string;
  nt_Scopes : list string;
  nt_ExpiresAt : option Time;
  nt_OwnerRole : Role
}.

(** What becomes of a request: refused with a sentence, or the token stored. *)
Definition Answer := (string + APIToken)%type.

(** The names [crypto/rand] and the hash gave this token. *)
Record Minted := { mi_ID : string; mi_TokenHash : string; mi_Prefix : string }.

Section Tokens.
(** [fmt]'s [%q]. *)
Variable quote : string -> string.

Definition CreateAPIToken (new : NewToken) (m : Minted) (now : Time) : Answer :=
  let name := strings_TrimSpace (nt_Name new) in
  if str_eqb name "" then inl "a token needs a name; it is how you will recognise it later"
  else
    let role := if str_eqb (nt_Role new) "" then RoleViewer else nt_Role new in
    if negb (Role_Valid role) then inl (quote role +:+ " is not a role; use " +:+ RoleList)
    else match ValidateScopes (nt_Scopes new) with
         | Some err => inl err
         | None =>
             if (match nt_ExpiresAt new with Some e => negb (Time_After e now) | None => false end)
             then inl "the expiry date is in the past; leave it empty for a token that never expires"
             else inr {| at_ID := mi_ID m; at_Name := name; at_Role := role; at_OwnerRole := nt_OwnerRole new;
                         at_UserID := nt_UserID new; at_Scopes := normalizeScopes (nt_Scopes new);
                         at_TokenHash := mi_TokenHash m; at_Prefix := mi_Prefix m;
                         at_ExpiresAt := nt_ExpiresAt new; at_Revoked := false |}
         end.

(** A request to mint, its expiry already an instant. *)
Record createTokenRequest := {
  ct_Name : string;
  ct_Role : string;
  ct_Scopes : list string;
  ct_ExpiresAt : option Time
}.

Definition requestRole (req : createTokenRequest) : Role :=
  let role := fold_scope (ct_Role req) in if str_eqb role "" then RoleViewer else role.

Definition handleCreateToken (id : option Identity) (req : createTokenRequest) (m : Minted) (now : Time) : Answer :=
  let role := requestRole req in
  if str_eqb (strings_TrimSpace (ct_Name req)) "" || negb (Role_Valid role) || negb (bool_decide (ValidateScopes (ct_Scopes req) = None))
  then inl "this token could not be created"
  else match id with
       | None => inl "this token has no owner, so it cannot mint tokens; sign in as a user, or use a token created by one"
       | Some by_ =>
           if str_eqb (id_UserID by_) ""
           then inl "this token has no owner, so it cannot mint tokens; sign in as a user, or use a token created by one"
           else match MintWithin id role (ct_Scopes req) with
                | Some err => inl err
                | None =>
                    CreateAPIToken
                      {| nt_Name := strings_TrimSpace (ct_Name req); nt_Role := role; nt_UserID := id_UserID by_;
                         nt_Scopes := ct_Scopes req; nt_ExpiresAt := ct_ExpiresAt req; nt_OwnerRole := id_Role by_ |} m now
                end
       end.

Definition visitorRefusal (a : Action) : string :=
  if str_eqb (Verb a) "read" then "the public view does not show this; sign in to see it"
  else "this is a read-only public view; sign in to do this".

Definition IsVisitor (id : option Identity) : bool :=
  match id with Some id => str_eqb (id_Kind id) KindPublic | None => false end.

Definition Explain (id : option Identity) (a : Action) : string :=
  match id with
  | None => "this action needs you to be signed in"
  | Some i =>
      if IsVisitor id && negb (Allowed id a) then visitorRefusal a
      else match actionRoles !! a with
           | None => quote a +:+ " is not an action this server knows about"
           | Some want =>
               if negb (AtLeast (id_Role i) want)
               then "this action needs the " +:+ want +:+ " role; your " +:+ subject i +:+ " has " +:+ id_Role i
               else match id_Scopes i with
                    | [] => ""
                    | scopes =>
                        if negb (scopesAllow scopes a)
                        then "this action needs the " +:+ quote (Scope a) +:+ " scope; your " +:+ subject i +:+
                             " is limited to " +:+ strings_Join scopes ", "
                        else ""
                    end
           end
  end.
End Tokens.

(** ** Presenting a token *)

(** The columns of an account a token's authority depends on. *)
Record User := { us_ID : string; us_Username : string; us_Role : Role; us_Disabled : bool }.

Inductive Fetched (A : Type) :=
| found (a : A)
| notFound
| failed.
Arguments found {A} a. Arguments notFound {A}. Arguments failed {A}.

Inductive AuthError := ErrInvalidCredentials | ErrTokenRevoked | ErrTokenExpired | ErrTokenOrphaned | ErrTokenOwnerDisabled | ErrAuthBackend.

(** From the row [GetAPITokenByHash] found, the prefixes of other credentials refused. *)
Definition authenticateToken (row : Fetched APIToken) (GetUser : string -> Fetched User) (now : Time) (ip : string) : AuthError + Identity :=
  match row with
  | notFound => inl ErrInvalidCredentials
  | failed => inl ErrAuthBackend
  | found t =>
      if at_Revoked t then inl ErrTokenRevoked
      else if Expired t now then inl ErrTokenExpired
      else
        let present role :=
          inr {| id_Kind := KindToken; id_ID := at_ID t; id_Name := at_Name t; id_Role := role; id_Scopes := at_Scopes t;
                 id_TokenID := at_ID t; id_UserID := at_UserID t; id_IP := ip |} in
        if str_eqb (at_UserID t) "" then present (at_Role t)
        else match GetUser (at_UserID t) with
             | notFound => inl ErrTokenOrphaned
             | failed => inl ErrAuthBackend
             | found u =>
                 if us_Disabled u then inl ErrTokenOwnerDisabled
                 else present (if negb (AtLeast (us_Role u) (at_Role t)) then us_Role u else at_Role t)
             end
  end.

(** The identity of a live session of the account. *)
Definition sessionIdentity (u : User) (ip : string) : Identity :=
  {| id_Kind := KindUser; id_ID := us_ID u; id_Name := us_Username u; id_Role := us_Role u; id_Scopes := [];
     id_TokenID := ""; id_UserID := us_ID u; id_IP := ip |}.

(** ** The public view *)
Definition visitorActions : list Action :=
  ["pools.read"; "runners.read"; "jobs.read"; "usage.read"; "hosts.read"; "providers.read"; "machines.read";
   "installations.read"; "webhooks.read"; "updates.read"; "kennel.read"; "events.read"; "logs.read"; "stats.read"].
Definition VisitorScopes : list string := Scope <$> visitorActions.
Definition PublicIdentity (ip : string) : Identity :=
  {| id_Kind := KindPublic; id_ID := "public"; id_Name := "public visitor"; id_Role := RoleViewer;
     id_Scopes := VisitorScopes; id_TokenID := ""; id_UserID := ""; id_IP := ip |}.

(** ** What the tables say *)
Definition implied_known : bool := forallb (fun a => forallb Action_Known (impliedBy a)) AllActions.
Lemma implied_known_true : implied_known = true.
Proof. vm_compute. reflexivity. Qed.

Definition scopes_folded : bool := forallb (fun s => str_eqb (fold_scope s) s) (elements validScopes).
Lemma scopes_folded_true : scopes_folded = true.
Proof. vm_compute. reflexivity. Qed.

#[local] Opaque actionRoles fold_scope.

Lemma AtLeast_trans r s t : AtLeast r s = true -> AtLeast s t = true -> AtLeast r t = true.
Proof. unfold AtLeast. rewrite !andb_true_iff, !Z.leb_le, !Z.ltb_lt. lia. Qed.

Lemma elem_of_AllActions a : a ∈ AllActions <-> is_Some (actionRoles !! a).
Proof.
  unfold AllActions. rewrite sort_elem_of, list_elem_of_fmap. split.
  - intros ([b r] & -> & H). apply elem_of_map_to_list in H. by exists r.
  - intros [r H]. exists (a, r). split; [done|]. by apply elem_of_map_to_list.
Qed.

#[local] Opaque AllActions.

(** A question about every action is answered by going through them. *)
Lemma every_action (f : Action -> bool) a : forallb f AllActions = true -> a ∈ AllActions -> f a = true.
Proof. rewrite forallb_forall. intros H Ha. apply H. by apply list_elem_of_In. Qed.

Lemma impliedBy_known a w : a ∈ AllActions -> w ∈ impliedBy a -> w ∈ AllActions.
Proof.
  intros Ha Hw. pose proof (every_action _ a implied_known_true Ha) as H. simpl in H. rewrite forallb_forall in H.
  apply elem_of_AllActions, (bool_decide_eq_true_1 _), H. by apply list_elem_of_In.
Qed.

Lemma Allowed_iff id a :
  Allowed (Some id) a = true <->
  exists want, actionRoles !! a = Some want /\ AtLeast (id_Role id) want = true /\
    (id_Scopes id = [] \/ exists w, (w = a \/ w ∈ impliedBy a) /\ scopesAllow (id_Scopes id) w = true).
Proof.
  unfold Allowed. destruct (actionRoles !! a) as [want|]; [|naive_solver].
  destruct (AtLeast (id_Role id) want) eqn:Hr; simpl; [|naive_solver].
  destruct (id_Scopes id) as [|s ss] eqn:Hs; [naive_solver|]. rewrite orb_true_iff, existsb_exists. split.
  - intros [H|(w & Hw & H)]; exists want; (split_and!; [done|done|right]); [exists a; auto|].
    exists w. split; [right; by apply list_elem_of_In|done].
  - intros (? & ? & ? & [|(w & [->|Hw] & H)]); [done|by left|]. right. exists w. split; [by apply list_elem_of_In|done].
Qed.

(** ** Scopes *)
Lemma scopesAllow_iff ss a : scopesAllow ss a = true <-> exists s, s ∈ ss /\ scopeCovers (fold_scope s) a = true.
Proof. unfold scopesAllow. rewrite existsb_exists. setoid_rewrite <- list_elem_of_In. done. Qed.

Lemma elem_of_collected (f : string -> string) ss x : forall out,
  x ∈ foldl (fun out s => let s := f s in if str_eqb s "" || str_in s out then out else out ++ [s]) out ss <->
  x ∈ out \/ x <> "" /\ exists s, s ∈ ss /\ x = f s.
Proof.
  induction ss as [|s ss IH]; intros out; simpl; [set_solver|]. rewrite IH. clear IH. unfold str_eqb, str_in.
  destruct (decide (f s = "")) as [E|E]; [rewrite (bool_decide_eq_true_2 _ E)|rewrite (bool_decide_eq_false_2 _ E)]; simpl.
  - set_solver.
  - case_bool_decide; set_solver.
Qed.

Lemma elem_of_normalizeScopes ss x :
  x ∈ normalizeScopes ss <-> x <> "" /\ exists s, s ∈ ss /\ x = fold_scope s.
Proof. unfold normalizeScopes. rewrite elem_of_collected, elem_of_nil. tauto. Qed.

Lemma normalizeScopes_nil ss : normalizeScopes ss = [] <-> Forall (fun s => fold_scope s = "") ss.
Proof.
  rewrite Forall_forall. split.
  - intros H s Hs. destruct (decide (fold_scope s = "")) as [|E]; [done|].
    assert (fold_scope s ∈ normalizeScopes ss) as Hin by (apply elem_of_normalizeScopes; eauto). by rewrite H, elem_of_nil in Hin.
  - intros H. apply elem_of_nil_inv. intros x Hx. apply elem_of_normalizeScopes in Hx as (Hx & s & Hs & ->). by apply Hx, H.
Qed.

#[local] Opaque normalizeScopes scopesAllow.

Lemma ValidateScopes_None ss : ValidateScopes ss = None <-> Forall (fun s => fold_scope s = "" \/ fold_scope s ∈ validScopes) ss.
Proof.
  unfold ValidateScopes. rewrite Forall_forall. split.
  - intros H s Hs. destruct (badScopes ss) eqn:E; [|done]. destruct (decide (fold_scope s = "")); [by left|right].
    destruct (decide (fold_scope s ∈ validScopes)); [done|]. exfalso.
    assert (fold_scope s ∈ badScopes ss) as Hb; [|revert Hb; rewrite E; apply not_elem_of_nil].
    unfold badScopes. apply elem_of_bfilter. split; [by apply list_elem_of_fmap_2|].
    unfold str_eqb. by rewrite !bool_decide_eq_false_2.
  - intros H. destruct (badScopes ss) as [|b l] eqn:E; [done|]. exfalso.
    assert (b ∈ badScopes ss) as Hb by (rewrite E; left). unfold badScopes in Hb. apply elem_of_bfilter in Hb as [Hin Hb].
    apply list_elem_of_fmap in Hin as (s & -> & Hs). apply andb_true_iff in Hb as [H1 H2]. apply negb_true_iff in H1. apply negb_true_iff in H2.
    unfold str_eqb in H1. apply bool_decide_eq_false in H1, H2. destruct (H s Hs) as [H3|H3]; [exact (H1 H3)|exact (H2 H3)].
Qed.

(** A valid scope reads the same once stored as it did in the request. *)
Lemma valid_scope_folds s : s ∈ validScopes -> fold_scope s = s.
Proof.
  intros Hs. apply elem_of_elements, list_elem_of_In in Hs. pose proof scopes_folded_true as H.
  unfold scopes_folded in H. rewrite forallb_forall in H. specialize (H s Hs). unfold str_eqb in H. by apply bool_decide_eq_true in H.
Qed.

Lemma normalizeScopes_narrows ss a :
  ValidateScopes ss = None -> scopesAllow (normalizeScopes ss) a = true -> scopesAllow ss a = true.
Proof.
  rewrite ValidateScopes_None, Forall_forall, !scopesAllow_iff. intros Hv (x & Hx & Hc).
  apply elem_of_normalizeScopes in Hx as (Hne & s & Hs & ->). exists s. split; [done|].
  destruct (Hv s Hs) as [|Hin]; [done|]. by rewrite valid_scope_folds in Hc.
Qed.

Lemma elem_of_beyond ss held x :
  x ∈ beyond ss held <-> exists a, x = Scope a /\ a ∈ AllActions /\ scopesAllow ss a = true /\ scopesAllow held a = false.
Proof.
  unfold beyond. rewrite list_elem_of_fmap. setoid_rewrite elem_of_bfilter. setoid_rewrite andb_true_iff.
  setoid_rewrite negb_true_iff. naive_solver.
Qed.

Lemma beyond_nil ss held :
  beyond ss held = [] <-> forall a, a ∈ AllActions -> scopesAllow ss a = true -> scopesAllow held a = true.
Proof.
  split.
  - intros E a Ha Hs. destruct (scopesAllow held a) eqn:Hb; [done|].
    assert (Scope a ∈ beyond ss held) as Hin by (apply elem_of_beyond; eauto). exfalso. revert Hin. rewrite E. apply not_elem_of_nil.
  - intros H. apply elem_of_nil_inv. intros x (a & _ & Ha & Hs & Hb)%elem_of_beyond. by rewrite (H a Ha Hs) in Hb.
Qed.

#[local] Opaque beyond.

Lemma MintWithin_None by_ role ss :
  MintWithin (Some by_) role ss = None <->
  AtLeast (id_Role by_) role = true /\
  (id_Scopes by_ = [] \/
   ss <> [] /\ forall a, a ∈ AllActions -> scopesAllow ss a = true -> scopesAllow (id_Scopes by_) a = true).
Proof.
  rewrite <- beyond_nil. unfold MintWithin.
  destruct (AtLeast (id_Role by_) role); cbn [negb]; [|split; [intros H; discriminate H|intros [H _]; discriminate H]].
  destruct (id_Scopes by_) as [|h hs]; [split; auto|].
  destruct ss as [|s ss]; [split; [intros H; discriminate H|intros [_ [H|[H _]]]; [discriminate H|destruct (H eq_refl)]]|].
  destruct (beyond (s :: ss) (h :: hs)).
  - split; [intros _; split; [reflexivity|right; split; [discriminate|reflexivity]]|reflexivity].
  - split; [intros H; discriminate H|intros [_ [H|[_ H]]]; discriminate H].
Qed.

(** ** From a mint to the identity its token presents *)
Lemma handleCreateToken_inr quote id req m now t :
  handleCreateToken quote id req m now = inr t ->
  exists by_, id = Some by_ /\ MintWithin id (requestRole req) (ct_Scopes req) = None /\
    ValidateScopes (ct_Scopes req) = None /\ at_Role t = requestRole req /\
    at_Scopes t = normalizeScopes (ct_Scopes req) /\ at_UserID t = id_UserID by_.
Proof.
  unfold handleCreateToken, CreateAPIToken. intros H. destruct (_ || _ || _) eqn:Hf in H; [done|].
  rewrite !orb_false_iff, !negb_false_iff in Hf. destruct Hf as [[_ Hr] Hv]. apply bool_decide_eq_true in Hv.
  destruct id as [by_|]; [|done]. exists by_. destruct (str_eqb (id_UserID by_) ""); [done|].
  destruct (MintWithin (Some by_) _ _) eqn:Hm; [done|]. cbn [nt_Name nt_Role nt_Scopes nt_ExpiresAt nt_UserID nt_OwnerRole] in H.
  destruct (str_eqb _ "") in H; [done|]. rewrite Hv in H.
  assert (str_eqb (requestRole req) "" = false) as Hne.
  { unfold str_eqb. apply bool_decide_eq_false. intros E. rewrite E in Hr. discriminate. }
  rewrite Hne, Hr in H. simpl in H. destruct (match ct_ExpiresAt req with Some _ => _ | None => _ end) in H; [done|].
  by injection H as <-.
Qed.

Lemma authenticateToken_inr t users now ip i :
  authenticateToken (found t) users now ip = inr i ->
  id_Scopes i = at_Scopes t /\ (forall want, AtLeast (id_Role i) want = true -> AtLeast (at_Role t) want = true).
Proof.
  unfold authenticateToken. destruct (at_Revoked t); [done|]. destruct (Expired t now); [done|].
  destruct (str_eqb (at_UserID t) ""); [by injection 1 as <-|].
  destruct (users (at_UserID t)) as [u| |]; [|done|done]. destruct (us_Disabled u); [done|]. injection 1 as <-.
  cbn [id_Scopes id_Role]. split; [done|]. intros want. destruct (AtLeast (us_Role u) (at_Role t)) eqn:E; [done|].
  simpl. revert E. unfold AtLeast. rewrite !andb_true_iff, andb_false_iff, !Z.leb_le, !Z.leb_gt, !Z.ltb_lt, !Z.ltb_ge. lia.
Qed.

(** What the minter's token presents reaches nothing the minter does not, when some scope is asked for. *)
Lemma minted_within quote by_ req m now t users now' ip i a :
  handleCreateToken quote (Some by_) req m now = inr t ->
  id_Scopes by_ = [] \/ normalizeScopes (ct_Scopes req) <> [] ->
  authenticateToken (found t) users now' ip = inr i ->
  Allowed (Some i) a = true -> Allowed (Some by_) a = true.
Proof.
  intros (b & [= <-] & Hm & Hv & Hr & Hs & _)%handleCreateToken_inr Hask (His & Hir)%authenticateToken_inr.
  apply MintWithin_None in Hm as [Hrole Hm].
  rewrite !Allowed_iff. intros (want & Hw & Hl & Hsc). exists want. split; [done|]. split.
  { eapply AtLeast_trans; [exact Hrole|]. rewrite <- Hr. by apply Hir. }
  destruct Hm as [|[_ Hm]]; [by left|]. destruct Hask as [|Hask]; [by left|]. right.
  rewrite His, Hs in Hsc. destruct Hsc as [Hsc|(w & Hwa & Hc)]; [destruct (Hask Hsc)|]. exists w. split; [done|].
  assert (a ∈ AllActions) as Ha by (apply elem_of_AllActions; eauto).
  apply Hm; [|by apply normalizeScopes_narrows]. destruct Hwa as [->|]; [done|by eapply impliedBy_known].
Qed.

(** The identities authority has reached: the one it began with, and every identity a token
    presents that was minted, with some scope asked for, by one it had reached. *)
Inductive handed_on (quote : string -> string) (root : Identity) : Identity -> Prop :=
| held_first : handed_on quote root root
| held_minted by_ req m now t users now' ip i :
    handed_on quote root by_ ->
    handleCreateToken quote (Some by_) req m now = inr t ->
    normalizeScopes (ct_Scopes req) <> [] ->
    authenticateToken (found t) users now' ip = inr i ->
    handed_on quote root i.

(** C32: Authority is handed on and never made up: whatever an identity may do that
    holds a token minted from a token minted from another, however long the chain, by
    requests that each asked for at least one scope, the identity at the start of the
    chain could do itself, whatever has become of the owners' roles in the meantime. *)
Theorem authority_is_handed_on quote root i a :
  handed_on quote root i -> Allowed (Some i) a = true -> Allowed (Some root) a = true.
Proof.
  induction 1 as [|by_ req m now t users now' ip i _ IH Hmint Hask Hauth]; [done|]. intros Ha.
  apply IH. by eapply minted_within; [exact Hmint|right|exact Hauth|].
Qed.

Lemma fold_scope_role r : Role_Valid r = true -> fold_scope r = r.
Proof.
  unfold Role_Valid, str_in. rewrite bool_decide_eq_true. unfold Roles. rewrite !elem_of_cons.
  intros [->|[->|[->|[->|[]%not_elem_of_nil]]]]; vm_compute; reflexivity.
Qed.

Lemma AtLeast_refl r : Role_Valid r = true -> AtLeast r r = true.
Proof.
  unfold Role_Valid, str_in. rewrite bool_decide_eq_true. unfold Roles. rewrite !elem_of_cons.
  intros [->|[->|[->|[->|[]%not_elem_of_nil]]]]; vm_compute; reflexivity.
Qed.

(** The request that asks for one blank scope. *)
Definition blank_request (role : Role) : createTokenRequest :=
  {| ct_Name := "ci"; ct_Role := role; ct_Scopes := [""]; ct_ExpiresAt := None |}.

Lemma scopesAllow_blank a : scopesAllow [""] a = false.
Proof. apply not_true_is_false. rewrite scopesAllow_iff. intros (s & ->%list_elem_of_singleton & H). vm_compute in H. discriminate. Qed.

Lemma blank_scopes_valid : ValidateScopes [""] = None.
Proof. vm_compute. reflexivity. Qed.
Lemma blank_scopes_none : normalizeScopes [""] = [].
Proof. vm_compute. reflexivity. Qed.

(** The limit of a token is shed by asking for a blank scope.  Whoever may call the
    route, however narrow the scopes it carries, is given for the scopes [""] a token that
    is stored with none, and the token does everything its role does.  [MintWithin] refuses
    an empty list for this very reason; it is the request's list it looks at, and
    [CreateAPIToken] stores it without its blanks. *)
Theorem blank_scope_sheds_the_limit quote by_ m now users u ip :
  Role_Valid (id_Role by_) = true -> id_UserID by_ <> "" ->
  users (id_UserID by_) = found u -> us_Disabled u = false -> us_Role u = id_Role by_ ->
  exists t i, handleCreateToken quote (Some by_) (blank_request (id_Role by_)) m now = inr t /\
    at_Scopes t = [] /\ authenticateToken (found t) users now ip = inr i /\
    forall a want, actionRoles !! a = Some want -> AtLeast (id_Role by_) want = true -> Allowed (Some i) a = true.
Proof.
  intros Hr Hu Hfound Hd Hrole.
  assert (requestRole (blank_request (id_Role by_)) = id_Role by_) as Hq.
  { unfold requestRole. cbn [ct_Role blank_request]. rewrite fold_scope_role by done. unfold str_eqb.
    case_bool_decide as E; [|done]. rewrite E in Hr. discriminate. }
  assert (MintWithin (Some by_) (id_Role by_) [""] = None) as Hm.
  { apply MintWithin_None. split; [by apply AtLeast_refl|]. right. split; [done|]. intros a _ H. by rewrite scopesAllow_blank in H. }
  assert (str_eqb (id_Role by_) "" = false) as Hne.
  { unfold str_eqb. case_bool_decide as E; [|done]. rewrite E in Hr. discriminate. }
  assert (str_eqb (id_UserID by_) "" = false) as Hue by (unfold str_eqb; by apply bool_decide_eq_false).
  unfold handleCreateToken, CreateAPIToken. rewrite Hq. cbn [ct_Name ct_Scopes ct_ExpiresAt blank_request nt_Name nt_Role nt_Scopes nt_ExpiresAt nt_UserID nt_OwnerRole].
  rewrite blank_scopes_valid, Hr, Hue, Hm, Hne, Hr, blank_scopes_none.
  change (str_eqb (strings_TrimSpace "ci") "") with false. change (str_eqb (strings_TrimSpace (strings_TrimSpace "ci")) "") with false.
  rewrite bool_decide_eq_true_2 by done. cbn [orb negb]. eexists _, _. split; [reflexivity|]. split; [done|].
  unfold authenticateToken, Expired. cbn [at_Revoked at_ExpiresAt at_UserID at_Role at_Scopes at_ID at_Name].
  rewrite Hue, Hfound, Hd, Hrole, AtLeast_refl by done. cbn [negb]. split; [reflexivity|].
  intros a want Ha Hw. apply Allowed_iff. exists want. cbn [id_Role id_Scopes]. auto.
Qed.

(** A token never acts above its owner: what it may do, a session of the account it
    belongs to may do as that account stands now, so that demoting or disabling somebody
    reaches every token issued to them. *)
Theorem token_within_its_owner t users u now ip i a :
  at_UserID t <> "" -> users (at_UserID t) = found u ->
  authenticateToken (found t) users now ip = inr i -> Allowed (Some i) a = true ->
  us_Disabled u = false /\ Allowed (Some (sessionIdentity u ip)) a = true.
Proof.
  intros Hid Hu. unfold authenticateToken. destruct (at_Revoked t); [intros [=]|]. destruct (Expired t now); [intros [=]|].
  unfold str_eqb. rewrite bool_decide_eq_false_2, Hu by done. destruct (us_Disabled u); [intros [=]|]. intros [= <-].
  rewrite !Allowed_iff. intros (want & Hw & Hl & _). split; [done|]. exists want. split; [done|]. cbn [id_Role id_Scopes sessionIdentity] in *.
  split; [|by left]. destruct (AtLeast (us_Role u) (at_Role t)) eqn:E; [|done]. by eapply AtLeast_trans.
Qed.

Definition visitor_table : bool :=
  forallb (fun a => Bool.eqb (Allowed (Some (PublicIdentity "")) a) (str_in a visitorActions)) AllActions &&
  forallb (fun a => Action_Known a && str_eqb (Verb a) "read") visitorActions.
Lemma visitor_table_true : visitor_table = true.
Proof. vm_compute. reflexivity. Qed.

(** A stranger reading the public view may do exactly what the list says, and all
    of it is reading: of every action there is or will be named, the visitor's role and
    scopes allow the listed ones and no other. *)
Theorem visitor_only_reads ip a :
  Allowed (Some (PublicIdentity ip)) a = str_in a visitorActions /\ (str_in a visitorActions = true -> Verb a = "read").
Proof.
  pose proof visitor_table_true as H. unfold visitor_table in H. apply andb_true_iff in H as [H1 H2].
  rewrite forallb_forall in H2. assert (str_in a visitorActions = true -> Action_Known a && str_eqb (Verb a) "read" = true) as Hlist.
  { unfold str_in. rewrite bool_decide_eq_true. intros Ha%list_elem_of_In. by apply H2. }
  change (Allowed (Some (PublicIdentity ip)) a) with (Allowed (Some (PublicIdentity "")) a). split.
  - destruct (actionRoles !! a) as [r|] eqn:E.
    + apply eqb_prop, (every_action _ a H1), elem_of_AllActions. eauto.
    + unfold Allowed. rewrite E. destruct (str_in a visitorActions); [|done]. specialize (Hlist eq_refl).
      apply andb_true_iff in Hlist as [Hk _]. unfold Action_Known in Hk. rewrite E in Hk. discriminate.
  - intros Ha. apply Hlist, andb_true_iff in Ha as [_ Hv]. unfold str_eqb in Hv. by apply bool_decide_eq_true in Hv.
Qed.
