(* ===== verification/Versions.v ===== *)
(** * Builds and the order they have (version/compare.go)

    A build is a word: a release, a build from main, or something nobody can place.
    [CompareBuilds] orders releases and answers "differs" for the rest.  On the builds it
    can parse it is a total preorder ([build_cmp]), which is what the rest of the updates
    rely on. *)
From Stdlib Require Import ZArith Lia Ascii String.
From stdpp Require Import base strings list.
From S2P Require Import Prelude GoFloat GoString GoText.
Local Open Scope string_scope.
Local Open Scope list_scope.
Local Open Scope Z_scope.

Inductive Skew := SkewNone | SkewBehind | SkewAhead | SkewDiffers.
#[export] Instance Skew_eq_dec : EqDecision Skew.
Proof. solve_decision. Defined.
Definition is_skew (a b : Skew) : bool := bool_decide (a = b).

(** ** Small readers for the package's regular expressions *)
Definition is_digit (a : ascii) : bool := match digit_val a with Some _ => true | None => false end.
Definition is_hex (a : ascii) : bool := is_digit a || (97 <=? byte_of a) && (byte_of a <=? 102).

Fixpoint span_of (f : ascii -> bool) (l : list ascii) : list ascii * list ascii :=
  match l with
  | a :: l' => if f a then let '(x, y) := span_of f l' in (a :: x, y) else ([], l)
  | [] => ([], [])
  end.
Definition nonempty_list {A} (l : list A) : bool := match l with [] => false | _ => true end.

(** What follows a prefix, if the text has it. *)
Fixpoint after_prefix (p l : list ascii) : option (list ascii) :=
  match p, l with
  | [], _ => Some l
  | a :: p', b :: l' => if bool_decide (a = b) then after_prefix p' l' else None
  | _, [] => None
  end.
Definition without_prefix (p l : list ascii) : list ascii := default l (after_prefix p l).

(** [^v?\d+\.\d+] *)
Definition releaseLike (l : list ascii) : bool :=
  let '(major, rest) := span_of is_digit (without_prefix (chars "v") l) in
  match after_prefix (chars ".") rest with
  | Some rest => nonempty_list major && nonempty_list (span_of is_digit rest).1
  | None => false
  end.

(** [-\d+-g[0-9a-f]{7,}(-dirty)?$], from where the text now starts. *)
Definition describe_here (l : list ascii) : bool :=
  match after_prefix (chars "-") l with
  | None => false
  | Some l =>
      let '(ds, l) := span_of is_digit l in
      match after_prefix (chars "-g") l with
      | None => false
      | Some l => let '(hs, l) := span_of is_hex l in
                  nonempty_list ds && (7 <=? length hs)%nat && (bool_decide (l = []) || bool_decide (l = chars "-dirty"))
      end
  end.
Fixpoint describeSuffix (l : list ascii) : bool :=
  describe_here l || match l with [] => false | _ :: l' => describeSuffix l' end.

(** [^main-sha-[0-9a-f]{7,}$] *)
Definition mainBuild (l : list ascii) : bool :=
  match after_prefix (chars "main-sha-") l with
  | Some l => let '(hs, l) := span_of is_hex l in (7 <=? length hs)%nat && bool_decide (l = [])
  | None => false
  end.

(** ** The order *)
Record release := { rel_parts : Z * Z * Z; rel_pre : string }.

(** The first hyphen or plus, and what is after it. *)
Fixpoint cut_pre (acc : list ascii) (l : list ascii) : list ascii * list ascii :=
  match l with
  | a :: l' => if bool_decide (a = "-"%char) || bool_decide (a = "+"%char) then (rev acc, l') else cut_pre (a :: acc) l'
  | [] => (rev acc, [])
  end.

Definition part (f : string) : option Z :=
  match strconv_Atoi f with Some n => if n <? 0 then None else Some n | None => None end.

Definition parseRelease (s : string) : option release :=
  let l := without_prefix (chars "v") (chars (strings_TrimSpace s)) in
  match l with
  | [] => None
  | _ =>
      let '(numbers, pre) := cut_pre [] l in
      match mapM part (strings_Split (text numbers) ".") with
      | Some [a] => Some {| rel_parts := (a, 0, 0); rel_pre := text pre |}
      | Some [a; b] => Some {| rel_parts := (a, b, 0); rel_pre := text pre |}
      | Some [a; b; c] => Some {| rel_parts := (a, b, c); rel_pre := text pre |}
      | _ => None
      end
  end.

(** The numbers, then what follows them: nothing follows the release itself, which is later
    than its pre-releases. *)
Definition pre_last (r : release) : Z := if str_eqb (rel_pre r) "" then 1 else 0.
Definition build_cmp : release -> release -> comparison :=
  cmp_lex (cmp_on (fun r => (rel_parts r).1.1) Z.compare)
    (cmp_lex (cmp_on (fun r => (rel_parts r).1.2) Z.compare)
      (cmp_lex (cmp_on (fun r => (rel_parts r).2) Z.compare)
        (cmp_lex (cmp_on pre_last Z.compare) (cmp_on rel_pre strings_Compare)))).
#[export] Instance build_cmp_order : CmpOrder build_cmp := _.

Definition comparePart (x y : Z) (next : Skew) : Skew :=
  if x <? y then SkewBehind else if y <? x then SkewAhead else next.

Definition CompareBuilds (a b : string) : Skew :=
  let a := strings_TrimSpace a in let b := strings_TrimSpace b in
  if str_eqb a "" || str_eqb b "" || str_eqb a b then SkewNone
  else match parseRelease a, parseRelease b with
       | Some na, Some nb =>
           let '(a1, a2, a3) := rel_parts na in let '(b1, b2, b3) := rel_parts nb in
           comparePart a1 b1 (comparePart a2 b2 (comparePart a3 b3
             (if str_eqb (rel_pre na) (rel_pre nb) then SkewNone
              else if str_eqb (rel_pre na) "" then SkewAhead
              else if str_eqb (rel_pre nb) "" then SkewBehind
              else match strings_Compare (rel_pre na) (rel_pre nb) with Lt => SkewBehind | _ => SkewAhead end)))
       | _, _ => SkewDiffers
       end.

(** ** Where a build comes from *)
Definition IsMainBuild (v : string) : bool := mainBuild (chars (strings_TrimSpace v)).

Definition version_Release (v : string) : option string :=
  let v := strings_TrimSpace v in
  if str_eqb v "" || negb (releaseLike (chars v)) || describeSuffix (chars v) then None
  else Some (text (without_prefix (chars "v") (chars v))).

Definition InstallTag (v : string) : option string :=
  let v := strings_TrimSpace v in
  match version_Release v with
  | Some r => Some ("v" +:+ r)
  | None => if str_eqb v "dev" || mainBuild (chars v) then Some "dev" else None
  end.
Definition Channel (v : string) : string := default "" (InstallTag v).

Example CompareBuilds_1 : CompareBuilds "1.3.5" "v1.3.5" = SkewNone. Proof. reflexivity. Qed.
Example CompareBuilds_2 : CompareBuilds "v1.3.10" "v1.3.9" = SkewAhead. Proof. reflexivity. Qed.
Example CompareBuilds_3 : CompareBuilds "v1.0-rc1" "v1.0" = SkewBehind. Proof. reflexivity. Qed.
Example CompareBuilds_4 : CompareBuilds "main-sha-abc1234" "v1.0" = SkewDiffers. Proof. reflexivity. Qed.
Example Release_1 : version_Release "v0.2-beta-5-gabc1234-dirty" = None. Proof. reflexivity. Qed.
Example Release_2 : version_Release " 0.2-beta" = Some "0.2-beta". Proof. reflexivity. Qed.

(** ** What the order is on the builds it can place *)
Definition skew_of (c : comparison) : Skew := match c with Lt => SkewBehind | Gt => SkewAhead | Eq => SkewNone end.
Definition placed (v : string) : option release := parseRelease (strings_TrimSpace v).

Lemma comparePart_cmp x y (c : comparison) next :
  next = skew_of c -> comparePart x y next = skew_of (cmp_then (x ?= y) c).
Proof. intros ->. unfold comparePart, cmp_then. destruct (Z.compare_spec x y); repeat case_match; simpl; lia || done. Qed.

Lemma strings_Compare_Eq x y : strings_Compare x y = Eq <-> x = y.
Proof. split; [apply String.compare_eq_iff|intros ->; apply (cmp_refl strings_Compare)]. Qed.

Lemma CompareBuilds_placed a b na nb :
  placed a = Some na -> placed b = Some nb -> CompareBuilds a b = skew_of (build_cmp na nb).
Proof.
  unfold placed, CompareBuilds. intros Ha Hb.
  assert (strings_TrimSpace a <> "") as Hane by (intros E; rewrite E in Ha; discriminate).
  assert (strings_TrimSpace b <> "") as Hbne by (intros E; rewrite E in Hb; discriminate).
  unfold str_eqb. rewrite !bool_decide_eq_false_2 by done. cbn [orb]. case_bool_decide as Hab.
  - rewrite Hab, Hb in Ha. injection Ha as <-. by rewrite (cmp_refl build_cmp).
  - rewrite Ha, Hb. unfold build_cmp, cmp_lex, cmp_on, pre_last, str_eqb.
    destruct na as [[[a1 a2] a3] pa], nb as [[[b1 b2] b3] pb]. cbn [rel_parts rel_pre fst snd].
    repeat apply comparePart_cmp. unfold cmp_then. destruct (decide (pa = pb)) as [->|Hne].
    + rewrite bool_decide_eq_true_2 by done. rewrite Z.compare_refl, (cmp_refl strings_Compare). reflexivity.
    + rewrite bool_decide_eq_false_2 by done. repeat case_bool_decide; subst; try done.
      destruct (strings_Compare pa pb) eqn:E; try done. apply strings_Compare_Eq in E. done.
Qed.

Lemma CompareBuilds_unplaced a b :
  CompareBuilds a b = SkewDiffers -> placed a = None \/ placed b = None.
Proof.
  intros H. destruct (placed a) eqn:Ha; [|by left]. destruct (placed b) eqn:Hb; [|by right].
  rewrite (CompareBuilds_placed _ _ _ _ Ha Hb) in H. by destruct (build_cmp r r0).
Qed.

(** One build is behind another exactly when the other is ahead of it, whatever they are. *)
Lemma CompareBuilds_flip a b :
  CompareBuilds b a = match CompareBuilds a b with SkewBehind => SkewAhead | SkewAhead => SkewBehind | s => s end.
Proof.
  destruct (placed a) as [na|] eqn:Ha, (placed b) as [nb|] eqn:Hb.
  { rewrite (CompareBuilds_placed _ _ _ _ Ha Hb), (CompareBuilds_placed _ _ _ _ Hb Ha).
    destruct (build_cmp na nb) eqn:E.
    - by rewrite (cmp_eq_sym build_cmp _ _ E).
    - apply (cmp_lt_gt build_cmp) in E. by rewrite E.
    - apply (cmp_lt_gt build_cmp) in E. by rewrite E. }
  all: unfold placed in *; unfold CompareBuilds; unfold str_eqb; rewrite Ha, ?Hb;
    rewrite (bool_decide_ext (strings_TrimSpace b = strings_TrimSpace a) (strings_TrimSpace a = strings_TrimSpace b)) by done;
    destruct (bool_decide (strings_TrimSpace a = "")), (bool_decide (strings_TrimSpace b = ""));
    destruct (bool_decide (strings_TrimSpace a = strings_TrimSpace b)); done.
Qed.
