(* ===== verification/Releases.v ===== *)
(** * Which release an update would take (updates/release.go, updates/target.go)

    [Newest] is the newest release that can be installed on a system, [Choose] what the
    mode would do about it and when, with the sentence that says so.  What a host is
    compared with is [HostTarget], the build its controller runs. *)
From Stdlib Require Import ZArith Lia Ascii String.
From stdpp Require Import base strings list.
From S2P Require Import Prelude GoFloat GoString GoText Versions.
Local Open Scope string_scope.
Local Open Scope list_scope.
Local Open Scope Z_scope.

(** ** Releases *)
Definition checksumsAsset : string := "checksums.txt".

Record Release := {
  re_Tag : string;
  re_URL : string;
  re_PublishedAt : Time;
  re_Prerelease : bool;
  re_Draft : bool;
  re_Assets : list string
}.
Definition no_release : Release :=
  {| re_Tag := ""; re_URL := ""; re_PublishedAt := 0; re_Prerelease := false; re_Draft := false; re_Assets := [] |}.

(** [^v[0-9]+\.[0-9]+\.[0-9]+$] *)
Definition ValidTag (tag : string) : bool :=
  match after_prefix (chars "v") (chars tag) with
  | None => false
  | Some l =>
      let '(a, l) := span_of is_digit l in
      match after_prefix (chars ".") l with
      | None => false
      | Some l =>
          let '(b, l) := span_of is_digit l in
          match after_prefix (chars ".") l with
          | None => false
          | Some l => let '(c, l) := span_of is_digit l in
                      nonempty_list a && nonempty_list b && nonempty_list c && bool_decide (l = [])
          end
      end
  end.

Definition TargetTag (running : string) : option string :=
  match version_Release running with
  | Some release => let tag := "v" +:+ release in if ValidTag tag then Some tag else None
  | None => None
  end.

Definition DevTag : string := "dev".
Definition ValidWireTag (tag : string) : bool := str_eqb tag DevTag || ValidTag tag.
Definition ValidTarget (target : string) : bool := ValidTag target || IsMainBuild target.
Definition HostTarget (running : string) : option string :=
  match TargetTag running with
  | Some tag => Some tag
  | None => let running := strings_TrimSpace running in if IsMainBuild running then Some running else None
  end.
Definition WireTag (target : string) : string := if IsMainBuild target then DevTag else target.

Definition CompareTargets (a b : string) : Skew :=
  if IsMainBuild a || IsMainBuild b
  then if str_eqb (strings_TrimSpace a) (strings_TrimSpace b) then SkewNone else SkewDiffers
  else CompareBuilds a b.

Definition HostSkew (hostVersion target : string) : Skew :=
  if negb (IsMainBuild target)
  then match TargetTag hostVersion with None => SkewDiffers | Some _ => CompareBuilds hostVersion target end
  else
    let hostVersion := strings_TrimSpace hostVersion in
    if str_eqb hostVersion (strings_TrimSpace target) then SkewNone
    else if IsMainBuild hostVersion then SkewBehind
    else match TargetTag hostVersion with Some _ => SkewBehind | None => SkewDiffers end.

Definition AssetName (goos goarch : string) : string :=
  if str_eqb goos "linux" || str_eqb goos "darwin" then "zoomies_" +:+ goos +:+ "_" +:+ goarch else "".

Definition Complete (r : Release) (goos goarch : string) : bool :=
  let asset := AssetName goos goarch in
  negb (str_eqb asset "") && str_in checksumsAsset (re_Assets r) && str_in asset (re_Assets r).

Definition Release_eligible (r : Release) (goos goarch : string) : bool :=
  ValidTag (re_Tag r) && negb (re_Prerelease r) && negb (re_Draft r) && negb (Time_IsZero (re_PublishedAt r)) &&
  Complete r goos goarch && negb (is_skew (CompareBuilds (re_Tag r) "v0.0.0") SkewDiffers).

Definition supersedes (r other : Release) : bool :=
  match CompareBuilds (re_Tag r) (re_Tag other) with
  | SkewAhead => true
  | SkewNone => Time_After (re_PublishedAt r) (re_PublishedAt other)
  | _ => false
  end.

Definition newer_of (goos goarch : string) (best : option Release) (r : Release) : option Release :=
  if negb (Release_eligible r goos goarch) then best
  else match best with
       | None => Some r
       | Some b => if supersedes r b then Some r else Some b
       end.
Definition Newest (releases : list Release) (goos goarch : string) : option Release :=
  foldl (newer_of goos goarch) None releases.

Definition displaced (releases : list Release) (goos goarch : string) (newest : Release) (running : string) : option Release :=
  Newest (List.filter (fun r => is_skew (CompareBuilds (re_Tag r) (re_Tag newest)) SkewBehind &&
                                is_skew (CompareBuilds running (re_Tag r)) SkewBehind) releases) goos goarch.

(** ** Lengths of time, as the sentences say them *)
Definition span := (Z * string)%type.
Definition spanOf (d : Duration) : span :=
  if Hour <=? d then (d / Hour, "hour") else if Minute <=? d then (d / Minute, "minute") else (0, "").
Definition span_String (s : span) : string :=
  let '(n, unit_) := s in
  if str_eqb unit_ "" then "less than a minute" else if n =? 1 then "1 " +:+ unit_ else itoa n +:+ " " +:+ unit_ +:+ "s".
Definition following (s prev : span) : string :=
  if negb (str_eqb (snd s) "") && str_eqb (snd s) (snd prev) && (1 <? fst s) then itoa (fst s) else span_String s.

(** ** The choice *)
(** [ModeUnknown] is a word the setting does not know. *)
Inductive Mode := ModeOff | ModeManual | ModeAuto | ModeUnknown.
#[export] Instance Mode_eq_dec : EqDecision Mode.
Proof. solve_decision. Defined.

Record ChooseInput := {
  ci_Mode : Mode;
  ci_Soak : Duration;
  ci_Now : Time;
  ci_Running : string;
  ci_Releases : list Release;
  ci_GOOS : string;
  ci_GOARCH : string
}.

Record Target := {
  tg_Release : Release;
  tg_Newer : bool;
  tg_Replaces : bool;
  tg_DueAt : Time;
  tg_Reason : string
}.

Definition DueBy (t : Target) (now : Time) : bool := tg_Newer t && negb (Time_Before now (tg_DueAt t)).

Definition noReleaseReason (goos goarch : string) : string :=
  let asset := AssetName goos goarch in
  if str_eqb asset ""
  then "Updates are available only on linux and darwin, and this is " +:+ goos +:+ "/" +:+ goarch +:+ "."
  else "No complete release is available for " +:+ goos +:+ "/" +:+ goarch +:+
       ". A complete release has a vX.Y.Z tag and a publication date, is not a draft or a prerelease, and carries " +:+
       checksumsAsset +:+ " and " +:+ asset +:+ ".".

Definition autoReason (t : Target) (skipped : string) (soak : Duration) (now : Time) : string :=
  let tag := re_Tag (tg_Release t) in
  let age := Time_Sub now (re_PublishedAt (tg_Release t)) in
  if age <? 0
  then "Waiting: " +:+ tag +:+ " is dated in the future, so it does not count as public yet; it can be taken in " +:+
       span_String (spanOf (Time_Sub (tg_DueAt t) now)) +:+ "."
  else
    let wait := if 0 <? soak then "auto waits for " +:+ following (spanOf soak) (spanOf age) else "auto does not wait" in
    if DueBy t now
    then "Ready: " +:+ tag +:+ " has been public for " +:+ span_String (spanOf age) +:+ " and " +:+ wait +:+ "; it can be taken now."
    else
      let waiting := "Waiting: " +:+ tag +:+ " has been public for " +:+ span_String (spanOf age) +:+ " and " +:+ wait +:+
                     "; it can be taken in " +:+ span_String (spanOf (Time_Sub (tg_DueAt t) now)) +:+ "." in
      if str_eqb skipped "" then waiting
      else waiting +:+ " It replaced " +:+ skipped +:+ ", which is skipped, and a newer release would start the wait again.".

Definition only_reason (r : Release) (reason : string) : Target :=
  {| tg_Release := r; tg_Newer := false; tg_Replaces := false; tg_DueAt := 0; tg_Reason := reason |}.

Definition Choose (i : ChooseInput) : Target :=
  match ci_Mode i with
  | ModeOff | ModeUnknown => only_reason no_release "Updates are off. Set updates.mode to manual or auto to be offered new releases."
  | _ =>
      match Newest (ci_Releases i) (ci_GOOS i) (ci_GOARCH i), version_Release (ci_Running i) with
      | None, _ => only_reason no_release (noReleaseReason (ci_GOOS i) (ci_GOARCH i))
      | Some best, None =>
          {| tg_Release := best; tg_Newer := true; tg_Replaces := true; tg_DueAt := 0;
             tg_Reason := "Available: " +:+ re_Tag best +:+ " can replace this build, " +:+ ci_Running i +:+
               ", which is not from a release. A build from main is usually ahead of the newest release, so this may be a step back; it is taken only when someone asks, in manual and in auto." |}
      | Some best, Some release =>
          let running := "v" +:+ release in
          match CompareBuilds (ci_Running i) (re_Tag best) with
          | SkewNone => only_reason best ("Up to date: " +:+ re_Tag best +:+ " is the newest release that can be installed.")
          | SkewAhead => only_reason best ("Ahead of the newest release that can be installed (" +:+ re_Tag best +:+ "): this build is " +:+
                                           running +:+ ", and updates never go back.")
          | SkewDiffers => only_reason best ("This build, " +:+ running +:+ ", cannot be ordered against " +:+ re_Tag best +:+
                                             ", so updates leave it alone. Run a released build such as " +:+ re_Tag best +:+ " and this clears.")
          | SkewBehind =>
              match ci_Mode i with
              | ModeAuto =>
                  let due := re_PublishedAt best + ci_Soak i in
                  let t := {| tg_Release := best; tg_Newer := true; tg_Replaces := false; tg_DueAt := due; tg_Reason := "" |} in
                  let skipped := default no_release (displaced (ci_Releases i) (ci_GOOS i) (ci_GOARCH i) best (ci_Running i)) in
                  {| tg_Release := best; tg_Newer := true; tg_Replaces := false; tg_DueAt := due;
                     tg_Reason := autoReason t (re_Tag skipped) (ci_Soak i) (ci_Now i) |}
              | _ =>
                  {| tg_Release := best; tg_Newer := true; tg_Replaces := false; tg_DueAt := 0;
                     tg_Reason := "Available: " +:+ re_Tag best +:+ " is newer than the " +:+ running +:+
                                  " running now; manual mode waits for someone to update." |}
              end
          end
      end
  end.

(** ** What the readers of tags accept *)
Lemma span_of_spec f l x y : span_of f l = (x, y) -> l = x ++ y /\ Forall (fun a => f a = true) x.
Proof.
  revert x y. induction l as [|a l IH]; intros x y; cbn.
  - intros [= <- <-]. split; [done|constructor].
  - destruct (f a) eqn:Hf; [|intros [= <- <-]; split; [done|constructor]].
    destruct (span_of f l) as [u v]. intros [= <- <-]. destruct (IH u v eq_refl) as [-> ?]. split; [done|by constructor].
Qed.

Lemma after_prefix_spec p l r : after_prefix p l = Some r -> l = p ++ r.
Proof.
  revert l. induction p as [|a p IH]; intros l; cbn; [by intros [= ->]|].
  destruct l as [|b l]; [done|]. case_bool_decide as E; [|done]. intros H. by rewrite E, (IH l H).
Qed.

Definition tag_char (a : ascii) : bool := is_digit a || bool_decide (a = "."%char) || bool_decide (a = "v"%char).

Lemma ValidTag_chars tag : ValidTag tag = true -> Forall (fun a => tag_char a = true) (chars tag) /\ chars tag <> [].
Proof.
  unfold ValidTag. destruct (after_prefix (chars "v") (chars tag)) as [l|] eqn:E; [|done]. apply after_prefix_spec in E as ->.
  destruct (span_of is_digit l) as [a l1] eqn:E1. apply span_of_spec in E1 as [-> Ha].
  destruct (after_prefix (chars ".") l1) as [l2|] eqn:E; [|done]. apply after_prefix_spec in E as ->.
  destruct (span_of is_digit l2) as [b l3] eqn:E1. apply span_of_spec in E1 as [-> Hb].
  destruct (after_prefix (chars ".") l3) as [l4|] eqn:E; [|done]. apply after_prefix_spec in E as ->.
  destruct (span_of is_digit l4) as [c l5] eqn:E1. apply span_of_spec in E1 as [-> Hc].
  rewrite !andb_true_iff, bool_decide_eq_true. intros [_ ->]. split; [|done].
  assert (Hd : forall x, Forall (fun a => is_digit a = true) x -> Forall (fun a => tag_char a = true) x).
  { intros x Hx. eapply Forall_impl; [exact Hx|]. intros y Hy. unfold tag_char. simpl in Hy. by rewrite Hy. }
  rewrite !Forall_app. repeat split; auto; repeat constructor.
Qed.

Lemma tag_char_plain a : tag_char a = true -> ascii_plain a /\ unicode_IsSpace (byte_of a) = false.
Proof.
  assert (forall a : ascii, tag_char a = true -> (byte_of a <? 128) && negb (unicode_IsSpace (byte_of a)) = true) as H.
  { intros [b0 b1 b2 b3 b4 b5 b6 b7]. destruct b0, b1, b2, b3, b4, b5, b6, b7; vm_compute; try done. }
  intros Ha. apply H in Ha. rewrite andb_true_iff, negb_true_iff, Z.ltb_lt in Ha. exact Ha.
Qed.

Lemma TrimSpace_tag tag : ValidTag tag = true -> strings_TrimSpace tag = tag /\ tag <> "".
Proof.
  intros [Hc Hne]%ValidTag_chars. split; [|by intros ->]. rewrite <- (text_chars tag). apply TrimSpace_plain.
  eapply Forall_impl; [exact Hc|]. intros a. apply tag_char_plain.
Qed.

Lemma eligible_placed r goos goarch : Release_eligible r goos goarch = true -> is_Some (placed (re_Tag r)).
Proof.
  unfold Release_eligible. rewrite !andb_true_iff. intros [[[[[Ht _] _] _] _] Hd]. apply TrimSpace_tag in Ht as [Ht Hne].
  destruct (placed (re_Tag r)) eqn:E; [eauto|]. exfalso. unfold placed in E. revert Hd. unfold CompareBuilds. rewrite Ht in *.
  rewrite E. unfold str_eqb. rewrite (bool_decide_eq_false_2 (re_Tag r = "")) by done.
  change (bool_decide (strings_TrimSpace "v0.0.0" = "")) with false. cbn [orb].
  case_bool_decide as Hz; [|done]. rewrite Hz in E. vm_compute in E. discriminate.
Qed.

(** ** The newest is the newest *)

(** Later versions first, and of one version the one published last. *)
Definition newest_cmp : Release -> Release -> comparison :=
  cmp_lex (cmp_rev (cmp_on (fun r => placed (re_Tag r)) (cmp_option build_cmp))) (cmp_rev (cmp_on re_PublishedAt Z.compare)).
#[export] Instance newest_cmp_order : CmpOrder newest_cmp := _.

Lemma supersedes_cmp r b : is_Some (placed (re_Tag r)) -> is_Some (placed (re_Tag b)) ->
  supersedes r b = match newest_cmp r b with Lt => true | _ => false end.
Proof.
  intros [nr Hr] [nb Hb]. unfold supersedes, newest_cmp, cmp_lex, cmp_rev, cmp_on, cmp_option, Time_After.
  rewrite (CompareBuilds_placed _ _ _ _ Hr Hb), Hr, Hb, (cmp_antisym (cmp:=build_cmp) nr nb).
  destruct (build_cmp nr nb); cbn; [|done..]. unfold Z.ltb. by destruct (Z.compare _ _).
Qed.

Lemma Newest_min releases goos goarch :
  Newest releases goos goarch = min_by newest_cmp (List.filter (fun r => Release_eligible r goos goarch) releases).
Proof.
  unfold Newest. induction releases as [|r l IH] using rev_ind; [done|].
  rewrite foldl_app, List.filter_app. cbn [foldl List.filter]. rewrite IH. clear IH.
  unfold newer_of at 1. destruct (Release_eligible r goos goarch) eqn:He; cbn [negb]; [|by rewrite app_nil_r].
  rewrite min_by_snoc. unfold keep_best. destruct (min_by newest_cmp _) as [b|] eqn:E; [|done].
  rewrite supersedes_cmp; [by destruct (newest_cmp r b)|by eapply eligible_placed|].
  apply min_by_elem in E. apply elem_of_bfilter in E as [_ E]. by eapply eligible_placed.
Qed.

Lemma Newest_spec releases goos goarch b : Newest releases goos goarch = Some b ->
  b ∈ releases /\ Release_eligible b goos goarch = true /\
  forall r, r ∈ releases -> Release_eligible r goos goarch = true ->
    CompareBuilds (re_Tag r) (re_Tag b) = SkewBehind \/
    CompareBuilds (re_Tag r) (re_Tag b) = SkewNone /\ re_PublishedAt r <= re_PublishedAt b.
Proof.
  rewrite Newest_min. intros H. pose proof (min_by_elem newest_cmp _ _ H) as Hb. apply elem_of_bfilter in Hb as [Hin Hb].
  split_and!; [done|done|]. intros r Hr He. pose proof (min_by_le newest_cmp _ b r H) as Hle.
  specialize (Hle (proj2 (elem_of_bfilter _ _ _) (conj Hr He))).
  destruct (eligible_placed _ _ _ Hb) as [nb Hnb], (eligible_placed _ _ _ He) as [nr Hnr].
  rewrite (CompareBuilds_placed _ _ _ _ Hnr Hnb). revert Hle. unfold newest_cmp, cmp_lex, cmp_rev, cmp_on, cmp_option.
  rewrite Hnr, Hnb. destruct (build_cmp nr nb); cbn; [|by left|done]. right. split; [done|]. by apply Z.compare_le_iff.
Qed.

Lemma Newest_None releases goos goarch :
  Newest releases goos goarch = None <-> forall r, r ∈ releases -> Release_eligible r goos goarch = false.
Proof.
  rewrite Newest_min, min_by_None. split.
  - intros H r Hr. apply not_true_is_false. intros He.
    assert (r ∈ List.filter (fun r => Release_eligible r goos goarch) releases) as Hin by (by apply elem_of_bfilter).
    rewrite H in Hin. by apply elem_of_nil in Hin.
  - intros H. apply elem_of_nil_inv. intros r [Hr He]%elem_of_bfilter. by rewrite (H r Hr) in He.
Qed.

Lemma Choose_due i : ci_Mode i = ModeAuto -> DueBy (Choose i) (ci_Now i) = true -> tg_Replaces (Choose i) = false ->
  tg_Release (Choose i) ∈ ci_Releases i /\ Release_eligible (tg_Release (Choose i)) (ci_GOOS i) (ci_GOARCH i) = true /\
  is_Some (version_Release (ci_Running i)) /\ CompareBuilds (ci_Running i) (re_Tag (tg_Release (Choose i))) = SkewBehind /\
  re_PublishedAt (tg_Release (Choose i)) + ci_Soak i <= ci_Now i /\
  forall r, r ∈ ci_Releases i -> Release_eligible r (ci_GOOS i) (ci_GOARCH i) = true ->
    CompareBuilds (re_Tag r) (re_Tag (tg_Release (Choose i))) ∈ [SkewBehind; SkewNone].
Proof.
  intros Hm. unfold Choose. rewrite Hm. destruct (Newest _ _ _) as [b|] eqn:Hn; [|done].
  destruct (version_Release (ci_Running i)) as [v|] eqn:Hv; [|done]. destruct (CompareBuilds (ci_Running i) (re_Tag b)) eqn:Hc; try done.
  apply Newest_spec in Hn as (Hin & He & Hmax). cbn [tg_Release tg_Replaces]. unfold DueBy, Time_Before. cbn [tg_Newer tg_DueAt andb].
  rewrite negb_true_iff, Z.ltb_ge. intros Hd _. split_and!; [done|done|by eexists|done|done|]. intros r Hr Her.
  destruct (Hmax r Hr Her) as [->|[-> _]]; [left|right; left].
Qed.

(** In auto the status says Ready when the release may be taken, and never otherwise: the
    sentence and the decision agree about the instant the soak ends. *)
Theorem Choose_says_when_it_is_due i : ci_Mode i = ModeAuto -> 0 <= ci_Soak i ->
  str_take 6 (tg_Reason (Choose i)) = "Ready:" <-> DueBy (Choose i) (ci_Now i) = true /\ tg_Replaces (Choose i) = false.
Proof.
  intros Hm Hsoak. unfold Choose. rewrite Hm. destruct (Newest _ _ _) as [b|] eqn:Hn.
  2: { split; [|by intros []]. cbn [tg_Reason only_reason]. unfold noReleaseReason. by case_match. }
  destruct (version_Release (ci_Running i)) as [v|]; [|split; [done|by intros []]].
  destruct (CompareBuilds (ci_Running i) (re_Tag b)) eqn:Hc; try (split; [done|by intros []]).
  unfold autoReason, DueBy. cbn [tg_Release tg_Replaces tg_Reason tg_DueAt tg_Newer andb].
  destruct (Z.ltb_spec (Time_Sub (ci_Now i) (re_PublishedAt b)) 0) as [Ha|Ha].
  - split; [done|]. unfold Time_Before. rewrite negb_true_iff, Z.ltb_ge. intros [Hd _]. revert Ha. unfold Time_Sub, int_min, int_max. lia.
  - destruct (Time_Before _ _); cbn [negb]; [|done]. split; [|by intros []]. case_match; done.
Qed.

(** Whether there is anything to take does not depend on when it is asked, nor on the soak. *)
Lemma Newer_any_time mode soak soak' now now' running releases goos goarch :
  tg_Newer (Choose (Build_ChooseInput mode soak' now' running releases goos goarch)) =
  tg_Newer (Choose (Build_ChooseInput mode soak now running releases goos goarch)).
Proof.
  unfold Choose. cbn [ci_Mode ci_Soak ci_Now ci_Running ci_Releases ci_GOOS ci_GOARCH].
  destruct mode; [done| | |done]; (destruct (Newest releases goos goarch) as [b|]; [|done]);
    (destruct (version_Release running); [|done]); by destruct (CompareBuilds running (re_Tag b)).
Qed.

(** ** The tag a controller's build has *)
Lemma CompareBuilds_Behind a b : CompareBuilds a b = SkewBehind -> exists na nb, placed a = Some na /\ placed b = Some nb /\ build_cmp na nb = Lt.
Proof.
  intros H. destruct (placed a) as [na|] eqn:Ha, (placed b) as [nb|] eqn:Hb.
  { exists na, nb. split_and!; [done|done|]. rewrite (CompareBuilds_placed _ _ _ _ Ha Hb) in H. by destruct (build_cmp na nb). }
  all: exfalso; revert H; unfold CompareBuilds; unfold placed in *; rewrite Ha, ?Hb; by destruct (_ || _).
Qed.

Lemma without_v l : without_prefix (chars "v") (chars ("v" +:+ text l)) = l.
Proof. rewrite chars_app, chars_text. reflexivity. Qed.

(** A release the controller can be told by has the place its tag has. *)
Lemma TargetTag_placed running tag : TargetTag running = Some tag -> placed running = placed tag.
Proof.
  unfold TargetTag, version_Release. set (v := strings_TrimSpace running). destruct (_ || _); [done|].
  set (l := without_prefix (chars "v") (chars v)). destruct (ValidTag ("v" +:+ text l)) eqn:Hv; [|done]. intros [= <-].
  pose proof (ValidTag_chars _ Hv) as [Hc _]. destruct (TrimSpace_tag _ Hv) as [Ht _].
  assert (Hplain : Forall (fun a => tag_char a = true) (chars v)).
  { rewrite chars_app, chars_text, Forall_app in Hc. destruct Hc as [Hv1 Hl]. unfold l, without_prefix in Hl.
    destruct (after_prefix (chars "v") (chars v)) as [rest|] eqn:E; cbn [default] in Hl; [|done].
    apply after_prefix_spec in E. rewrite E. by apply Forall_app. }
  assert (Htrim : strings_TrimSpace v = v).
  { rewrite <- (text_chars v). apply TrimSpace_plain. eapply Forall_impl; [exact Hplain|]. intros a. apply tag_char_plain. }
  unfold placed. fold v. rewrite Ht. unfold parseRelease. rewrite Htrim, Ht, without_v. fold l. reflexivity.
Qed.

(** What is behind the tag of a controller's release is behind the controller. *)
Lemma behind_target running tag h : HostTarget running = Some tag -> IsMainBuild tag = false ->
  HostSkew h tag = SkewBehind -> CompareBuilds h running = SkewBehind.
Proof.
  unfold HostTarget. intros Ht Hm. destruct (TargetTag running) as [t|] eqn:E.
  2: { destruct (IsMainBuild (strings_TrimSpace running)) eqn:Hr; [|done]. injection Ht as <-. congruence. }
  injection Ht as ->. apply TargetTag_placed in E. unfold HostSkew. rewrite Hm. cbn [negb]. destruct (TargetTag h); [|done].
  intros (nh & nt & Hh & Hnt & Hlt)%CompareBuilds_Behind. rewrite <- E in Hnt. by rewrite (CompareBuilds_placed _ _ _ _ Hh Hnt), Hlt.
Qed.
