(* ===== verification/Updates.v ===== *)
(** * What automatic updating does next (updates/plan.go)

    [updates_Decide] reads a snapshot of the controller, its releases, the hosts and the
    open attempts, and says which step to take now: time an attempt out, start, halt,
    finish or cancel a rollout, or ask one machine to update itself.  The planner's fields
    are a record threaded through the methods; a method that returns a bool returns it
    beside the planner it leaves. *)
From Stdlib Require Import ZArith Lia Ascii String Sorting.Sorted.
From stdpp Require Import base strings list gmap.
From S2P Require Import Prelude GoFloat GoString GoText Versions Releases.
Local Open Scope string_scope.
Local Open Scope list_scope.
Local Open Scope Z_scope.

Definition AttemptTimeout : Duration := 90 * Minute.
(** The source's [RetryAfter]. *)
Definition RetryAfter_failure : Duration := 30 * Minute.
Definition MaxFailuresPerTag : Z := 2.

Definition scopeController : string := "controller".
Definition scopeHost : string := "host".
Definition attemptOpen : string := "requested".
Definition attemptFailed : string := "failed".
Definition attemptTimedOut : string := "timed_out".
Definition rolloutRunning : string := "running".
Definition rolloutHalted : string := "halted".
Definition rolloutCanceled : string := "cancelled".
Definition triggerManual : string := "manual".

Record Attempt := {
  an_ID : string;
  an_Scope : string;
  an_HostID : string;
  an_To : string;
  an_State : string;
  an_RequestedAt : Time;
  an_FinishedAt : Time
}.

Record Rollout := {
  ro_ID : string;
  ro_Target : string;
  ro_Trigger : string;
  ro_State : string;
  ro_HostIDs : list string;
  ro_Since : Time;
  ro_CancelledBy : string
}.

Record HostFacts := {
  hf_ID : string;
  hf_Name : string;
  hf_Version : string;
  hf_GOOS : string;
  hf_GOARCH : string;
  hf_Embedded : bool;
  hf_Healthy : bool;
  hf_CanSelfUpdate : bool;
  hf_WhyNot : string;
  hf_ActiveRunners : Z;
  hf_Open : option Attempt;
  hf_Ended : list Attempt
}.

(** A word the planner does not know is read as missing. *)
Inductive HelperState := HelperStateReady | HelperStateMissing | HelperStateUnsupported.

Record updates_Snapshot := {
  us_Now : Time;
  us_Mode : Mode;
  us_Soak : Duration;
  us_Running : string;
  us_GOOS : string;
  us_GOARCH : string;
  us_Releases : list Release;
  us_Helper : HelperState;
  us_HelperWhyNot : string;
  us_Fenced : bool;
  us_HostGraceUntil : Time;
  us_Controller : option Attempt;
  us_ControllerEnded : list Attempt;
  us_Rollout : option Rollout;
  us_LastRollout : option Rollout;
  us_Hosts : list HostFacts
}.

Inductive updates_ActionKind :=
| ActionRequestController | ActionStartRollout | ActionUpdateHost | ActionTimeOut | ActionHalt | ActionFinishRollout | ActionCancelRollout.
#[export] Instance updates_ActionKind_eq_dec : EqDecision updates_ActionKind.
Proof. solve_decision. Defined.

Record updates_Action := { ua_Kind : updates_ActionKind; ua_HostID : string; ua_AttemptID : string; ua_Tag : string; ua_Reason : string }.
Record updates_Plan := { up_Actions : list updates_Action; up_Sentence : string }.

Record planner := {
  pl_s : updates_Snapshot;
  pl_hosts : list HostFacts;
  pl_releases : list Release;
  pl_choice : Target;
  pl_target : string;
  pl_rollout : option Rollout;
  pl_timedOut : gmap string string;
  pl_controllerNote : string;
  pl_plan : updates_Plan
}.

(** ** The planner's copies, in an order of their own *)
Definition host_order : HostFacts -> HostFacts -> comparison :=
  cmp_lex (cmp_on hf_ActiveRunners Z.compare) (cmp_lex (cmp_on hf_Name strings_Compare) (cmp_on hf_ID strings_Compare)).
Definition newline : string := String "010" "".
Definition compareBool : bool -> bool -> comparison := cmp_rev cmp_flag.
Definition release_order : Release -> Release -> comparison :=
  cmp_lex (cmp_on re_Tag strings_Compare) (cmp_lex (cmp_on re_PublishedAt Z.compare) (cmp_lex (cmp_on re_URL strings_Compare)
    (cmp_lex (cmp_on re_Prerelease compareBool) (cmp_lex (cmp_on re_Draft compareBool)
      (cmp_on (fun r => strings_Join (re_Assets r) newline) strings_Compare))))).

Definition is_open_rollout (r : Rollout) : bool := str_eqb (ro_State r) rolloutRunning || str_eqb (ro_State r) rolloutHalted.

Definition newPlanner (s : updates_Snapshot) : planner :=
  let releases := SortStableFunc release_order (us_Releases s) in
  {| pl_s := s;
     pl_hosts := SortStableFunc host_order (us_Hosts s);
     pl_releases := releases;
     pl_choice := Choose {| ci_Mode := us_Mode s; ci_Soak := us_Soak s; ci_Now := us_Now s; ci_Running := us_Running s;
                            ci_Releases := releases; ci_GOOS := us_GOOS s; ci_GOARCH := us_GOARCH s |};
     pl_target := default "" (HostTarget (us_Running s));
     pl_rollout := match us_Rollout s with Some r => if is_open_rollout r then Some r else None | None => None end;
     pl_timedOut := ∅; pl_controllerNote := ""; pl_plan := {| up_Actions := []; up_Sentence := "" |} |}.

(** ** Saying and acting *)
Definition with_plan (p : planner) (plan : updates_Plan) : planner :=
  {| pl_s := pl_s p; pl_hosts := pl_hosts p; pl_releases := pl_releases p; pl_choice := pl_choice p; pl_target := pl_target p;
     pl_rollout := pl_rollout p; pl_timedOut := pl_timedOut p; pl_controllerNote := pl_controllerNote p; pl_plan := plan |}.
Definition with_note (p : planner) (note : string) : planner :=
  {| pl_s := pl_s p; pl_hosts := pl_hosts p; pl_releases := pl_releases p; pl_choice := pl_choice p; pl_target := pl_target p;
     pl_rollout := pl_rollout p; pl_timedOut := pl_timedOut p; pl_controllerNote := note; pl_plan := pl_plan p |}.
Definition with_timedOut (p : planner) (id reason : string) : planner :=
  {| pl_s := pl_s p; pl_hosts := pl_hosts p; pl_releases := pl_releases p; pl_choice := pl_choice p; pl_target := pl_target p;
     pl_rollout := pl_rollout p; pl_timedOut := <[id := reason]> (pl_timedOut p); pl_controllerNote := pl_controllerNote p; pl_plan := pl_plan p |}.

Definition p_act (a : updates_Action) (p : planner) : planner :=
  with_plan p {| up_Actions := up_Actions (pl_plan p) ++ [a]; up_Sentence := up_Sentence (pl_plan p) |}.
Definition p_say (sentence : string) (p : planner) : planner :=
  with_plan p {| up_Actions := up_Actions (pl_plan p); up_Sentence := sentence |}.

Definition plain_action (kind : updates_ActionKind) (reason : string) : updates_Action :=
  {| ua_Kind := kind; ua_HostID := ""; ua_AttemptID := ""; ua_Tag := ""; ua_Reason := reason |}.

(** A step of the rollout, and the same reason said. *)
Definition act_say (a : updates_Action) (p : planner) : planner := p_say (ua_Reason a) (p_act a p).

Definition tagOr (tag fallback : string) : string := if ValidTarget tag then tag else fallback.
Definition label (h : HostFacts) : string := if str_eqb (hf_Name h) "" then hf_ID h else hf_Name h.
Definition withNote (sentence note : string) : string := if str_eqb note "" then sentence else sentence +:+ " " +:+ note.

(** ** Attempts *)
Definition controllerAttempt (p : planner) : option Attempt :=
  match us_Controller (pl_s p) with
  | Some a => if str_eqb (an_Scope a) scopeController && str_eqb (an_State a) attemptOpen then Some a else None
  | None => None
  end.
Definition hostAttempt (h : HostFacts) : option Attempt :=
  match hf_Open h with
  | Some a => if str_eqb (an_Scope a) scopeHost && str_eqb (an_HostID a) (hf_ID h) && str_eqb (an_State a) attemptOpen then Some a else None
  | None => None
  end.

Definition expired (p : planner) (a : Attempt) : bool :=
  negb (Time_IsZero (an_RequestedAt a)) && (AttemptTimeout <? Time_Sub (us_Now (pl_s p)) (an_RequestedAt a)).

Definition timeOut (host id reason : string) (p : planner) : planner :=
  p_act {| ua_Kind := ActionTimeOut; ua_HostID := host; ua_AttemptID := id; ua_Tag := ""; ua_Reason := reason |} (with_timedOut p id reason).

Definition timeOutHost (p : planner) (h : HostFacts) : planner :=
  match hostAttempt h with
  | Some a =>
      if expired p a
      then timeOut (hf_ID h) (an_ID a)
             ("The update of " +:+ label h +:+ " to " +:+ tagOr (an_To a) "a new release" +:+ " did not finish within 90 minutes, so it is recorded as timed out.") p
      else p
  | None => p
  end.

Definition timeOuts (p : planner) : planner :=
  let p := match controllerAttempt p with
           | Some a =>
               if expired p a
               then timeOut "" (an_ID a)
                      ("The controller's update to " +:+ tagOr (an_To a) "a new release" +:+ " did not finish within 90 minutes, so it is recorded as timed out.") p
               else p
           | None => p
           end in
  if Time_Before (us_Now (pl_s p)) (us_HostGraceUntil (pl_s p)) then p
  else foldl timeOutHost p (pl_hosts p).

(** The first open attempt there is, and its sentence. *)
Fixpoint hostBlocked (p : planner) (hosts : list HostFacts) : option string :=
  match hosts with
  | [] => None
  | h :: rest =>
      match hostAttempt h with
      | Some a =>
          Some (match pl_timedOut p !! an_ID a with
                | Some reason => reason
                | None => label h +:+ " is being updated to " +:+ tagOr (an_To a) "a new release" +:+ "; nothing else starts until that finishes."
                end)
      | None => hostBlocked p rest
      end
  end.
Definition blocked (p : planner) : option string :=
  match controllerAttempt p with
  | Some a =>
      Some (match pl_timedOut p !! an_ID a with
            | Some reason => reason
            | None => "The controller is being updated to " +:+ tagOr (an_To a) "a new release" +:+ "; nothing else starts until that finishes."
            end)
  | None => hostBlocked p (pl_hosts p)
  end.

(** ** Failures *)
Definition failed (state : string) : bool := str_eqb state attemptFailed || str_eqb state attemptTimedOut.

Definition failures (ended : list Attempt) (tag : string) (keep : Attempt -> bool) : Z * Time :=
  foldl (fun acc a =>
    let '(n, latest) := acc in
    if negb (keep a) || negb (failed (an_State a)) || negb (is_skew (CompareBuilds (an_To a) tag) SkewNone) then (n, latest)
    else (n + 1, if Time_After (an_FinishedAt a) latest then an_FinishedAt a else latest)) (0, 0) ended.

Definition own_controller (a : Attempt) : bool := str_eqb (an_Scope a) scopeController.
Definition own_host (h : HostFacts) (a : Attempt) : bool := str_eqb (an_Scope a) scopeHost && str_eqb (an_HostID a) (hf_ID h).

(** The source's [waiting]. *)
Definition retryWaits (p : planner) (failedAt : Time) : bool :=
  negb (Time_IsZero failedAt) && Time_Before (us_Now (pl_s p)) (failedAt + RetryAfter_failure).
Definition retryIn (p : planner) (failedAt : Time) : span := spanOf (Time_Sub (failedAt + RetryAfter_failure) (us_Now (pl_s p))).

(** ** The rollout there is *)
Definition member (p : planner) (h : HostFacts) : bool :=
  match pl_rollout p with
  | None => true
  | Some r => match ro_HostIDs r with [] => true | ids => str_in (hf_ID h) ids end
  end.

Definition failedIn (r : Rollout) (h : HostFacts) : bool :=
  existsb (fun a => own_host h a && failed (an_State a) && negb (Time_Before (an_FinishedAt a) (ro_Since r)) &&
                    is_skew (CompareBuilds (an_To a) (ro_Target r)) SkewNone) (hf_Ended h).

Definition off (p : planner) : planner :=
  match pl_rollout p with
  | Some r =>
      act_say (plain_action ActionCancelRollout
        ("Updates are off, so the rollout to " +:+ tagOr (ro_Target r) "its release" +:+
         " is cancelled. An update already under way finishes by itself and is recorded.")) p
  | None => match blocked p with Some sentence => p_say sentence p | None => p_say (tg_Reason (pl_choice p)) p end
  end.

Definition stopAuto (r : Rollout) (p : planner) : planner :=
  act_say (plain_action ActionCancelRollout
    ("Updating is manual, so the rollout auto started to " +:+ tagOr (ro_Target r) "its release" +:+
     " is cancelled and nothing moves without a click. An update already under way finishes by itself and is recorded.")) p.

Definition halt (p : planner) : bool * planner :=
  match pl_rollout p with
  | Some r =>
      if negb (str_eqb (ro_State r) rolloutRunning) then (false, p)
      else match List.find (fun h => member p h && failedIn r h) (pl_hosts p) with
           | Some h =>
               let reason := "The update of " +:+ label h +:+ " to " +:+ tagOr (ro_Target r) "its release" +:+
                 " did not succeed, so the rollout is halted. Read why on the host's card, then resume the rollout or cancel it." in
               (true, act_say {| ua_Kind := ActionHalt; ua_HostID := hf_ID h; ua_AttemptID := ""; ua_Tag := ""; ua_Reason := reason |} p)
           | None => (false, p)
           end
  | None => (false, p)
  end.

Definition halted (p : planner) : bool * planner :=
  match pl_rollout p with
  | Some r =>
      if negb (str_eqb (ro_State r) rolloutHalted) then (false, p)
      else (true, p_say ("The rollout to " +:+ tagOr (ro_Target r) "its release" +:+
                         " is halted, so nothing is updated until an administrator resumes or cancels it.") p)
  | None => (false, p)
  end.

(** ** The controller *)
Definition controller (p : planner) : bool * planner :=
  let t := pl_choice p in
  if tg_Replaces t || negb (DueBy t (us_Now (pl_s p))) then (false, p)
  else
    let tag := re_Tag (tg_Release t) in
    match us_Helper (pl_s p) with
    | HelperStateUnsupported =>
        let why := strings_TrimSpace (us_HelperWhyNot (pl_s p)) in
        let why := if str_eqb why "" then "this controller runs where the helper's units cannot" else why in
        (false, with_note p (tag +:+ " can be taken now, but the update helper cannot be installed here: " +:+ why +:+
          ". Auto leaves the controller to a person and takes hosts to the release it runs; update the controller on its host with sudo zoomies upgrade."))
    | helper =>
        match blocked p with
        | Some sentence => (true, p_say sentence p)
        | None =>
            let '(n, lastFailed) := failures (us_ControllerEnded (pl_s p)) tag own_controller in
            (true,
             match helper with
             | HelperStateReady =>
                 if MaxFailuresPerTag <=? n then
                   p_say ("Auto stops trying to update the controller to " +:+ tag +:+ " after " +:+ itoa n +:+
                          " failed attempts, and no host is updated before the controller; an operator must act. " +:+
                          "Read why in Settings → Updates, then press Update there or run sudo zoomies upgrade on the controller's host.") p
                 else if (0 <? n) && Time_IsZero lastFailed then
                   p_say ("The controller's last update to " +:+ tag +:+ " did not succeed and when it ended is not known, so auto does not try it again; an operator must act. " +:+
                          "Press Update in Settings → Updates, or run sudo zoomies upgrade on the controller's host.") p
                 else if retryWaits p lastFailed then
                   p_say ("The controller's last update did not succeed; auto tries " +:+ tag +:+ " again in " +:+ span_String (retryIn p lastFailed) +:+ ".") p
                 else act_say {| ua_Kind := ActionRequestController; ua_HostID := ""; ua_AttemptID := ""; ua_Tag := tag; ua_Reason := tg_Reason t |} p
             | _ =>
                 p_say (tag +:+ " can be taken now, but the update helper is not installed beside the controller, so auto waits, and no host is updated before the controller. " +:+
                        "Run sudo zoomies updates helper install on the controller's host.") p
             end)
        end
    end.

(** ** The hosts *)
Inductive standing := standCurrent | standSkipped | standPending | standReady.
#[export] Instance standing_eq_dec : EqDecision standing.
Proof. solve_decision. Defined.

Definition carries (p : planner) (r : Release) : bool :=
  ValidTag (re_Tag r) && negb (re_Draft r) && negb (re_Prerelease r) && is_skew (CompareBuilds (re_Tag r) (pl_target p)) SkewNone.
Definition carriesBinaryFor (p : planner) (h : HostFacts) : bool :=
  str_eqb (hf_GOOS h) "" || str_eqb (hf_GOARCH h) "" ||
  existsb (fun r => carries p r && Complete r (hf_GOOS h) (hf_GOARCH h)) (pl_releases p) ||
  negb (existsb (carries p) (pl_releases p)).

Definition assess (p : planner) (h : HostFacts) : standing * string :=
  let name := label h in
  let target := pl_target p in
  if str_eqb (strings_TrimSpace (hf_Version h)) "" then (standSkipped, name +:+ " has not said which version it runs, so it is left alone.")
  else if IsMainBuild target && is_skew (HostSkew (hf_Version h) target) SkewDiffers
  then (standSkipped, name +:+ " runs a build that is neither a release nor one from main, so it is left alone.")
  else if negb (IsMainBuild target) && bool_decide (TargetTag (hf_Version h) = None)
  then (standSkipped, name +:+ " does not run a release build, so automatic updating leaves it alone.")
  else match HostSkew (hf_Version h) target with
       | SkewNone => (standCurrent, "")
       | SkewAhead => (standSkipped, name +:+ " runs a later release than the controller's " +:+ target +:+ " and is never taken back.")
       | SkewDiffers => (standSkipped, name +:+ " runs a build that is not a release, so it is left alone.")
       | SkewBehind =>
           if hf_Embedded h then (standSkipped, name +:+ " is the agent inside the controller, so it is updated with the controller.")
           else if negb (hf_CanSelfUpdate h) then
             let why := strings_TrimSpace (hf_WhyNot h) in
             (standSkipped, if str_eqb why "" then name +:+ " cannot be updated from here." else name +:+ " cannot be updated from here. " +:+ why)
           else if negb (carriesBinaryFor p h)
           then (standSkipped, target +:+ " carries no binary for the system " +:+ name +:+ " runs on, so it is left alone.")
           else
             let '(n, lastFailed) := failures (hf_Ended h) target (own_host h) in
             if MaxFailuresPerTag <=? n then
               (standSkipped, itoa n +:+ " attempts to update " +:+ name +:+ " to " +:+ target +:+ " have failed, so Zoomies stops trying; an operator must act. " +:+
                              "Read why on the host's card, then press Update there or run sudo zoomies upgrade on the host.")
             else if negb (hf_Healthy h) then (standPending, name +:+ " is not answering, so it is updated once it is back.")
             else if (0 <? n) && Time_IsZero lastFailed then
               (standPending, name +:+ "'s last update did not succeed and when it ended is not known, so it is not tried again until an operator updates it from its card.")
             else if retryWaits p lastFailed then
               (standPending, name +:+ "'s last update did not succeed; it is tried again in " +:+ span_String (retryIn p lastFailed) +:+ ".")
             else (standReady, "")
       end.

Record survey := { sv_ready : option HostFacts; sv_pending : string; sv_note : string; sv_updatable : Z }.

Definition survey_host (p : planner) (sv : survey) (h : HostFacts) : survey :=
  if negb (member p h) then sv
  else
    let '(stand, note) := assess p h in
    let counted := match stand with standReady | standPending => true | _ => false end in
    {| sv_ready := match stand with standReady => (match sv_ready sv with None => Some h | r => r end) | _ => sv_ready sv end;
       sv_pending := match stand with standPending => (if str_eqb (sv_pending sv) "" then note else sv_pending sv) | _ => sv_pending sv end;
       sv_note := if str_eqb (sv_note sv) "" then note else sv_note sv;
       sv_updatable := if counted then sv_updatable sv + 1 else sv_updatable sv |}.
(** The source's method [survey]. *)
Definition surveyed (p : planner) : survey :=
  foldl (survey_host p) {| sv_ready := None; sv_pending := ""; sv_note := ""; sv_updatable := 0 |} (pl_hosts p).

Definition updateHost (h : HostFacts) (p : planner) : planner :=
  p_say ("Updating " +:+ label h +:+ " to " +:+ pl_target p +:+ ". Hosts are updated one at a time, the one running the fewest jobs first.")
    (p_act {| ua_Kind := ActionUpdateHost; ua_HostID := hf_ID h; ua_AttemptID := ""; ua_Tag := pl_target p;
              ua_Reason := label h +:+ " is behind " +:+ pl_target p +:+ " and runs the fewest jobs (" +:+ itoa (hf_ActiveRunners h) +:+
                           ") of the hosts that can be updated now, so it goes next." |} p).

Definition idle (p : planner) : string :=
  if str_eqb (pl_controllerNote p) "" then tg_Reason (pl_choice p) else pl_controllerNote p.

Definition advance (r : Rollout) (p : planner) : planner :=
  let target := pl_target p in
  if negb (ValidTarget (ro_Target r))
  then p_say "The open rollout's target is not a release tag, so it updates nothing. Cancel it and start another." p
  else if str_eqb target ""
  then act_say (plain_action ActionCancelRollout "The controller no longer runs a release, so there is nothing to take hosts to and the rollout is cancelled.") p
  else
    let skew := CompareTargets (ro_Target r) target in
    if is_skew skew SkewDiffers && (IsMainBuild (ro_Target r) || IsMainBuild target)
    then act_say (plain_action ActionCancelRollout ("The controller now runs " +:+ target +:+ ", not this rollout's " +:+ ro_Target r +:+
                    ", so the rollout is cancelled; hosts follow the controller's build in a new one.")) p
    else match skew with
         | SkewBehind =>
             let next := if bool_decide (us_Mode (pl_s p) = ModeAuto) then "hosts follow " +:+ target +:+ " in a new one."
                         else "start another to bring hosts to " +:+ target +:+ "." in
             act_say (plain_action ActionFinishRollout ("The controller now runs " +:+ target +:+ ", newer than this rollout's " +:+ ro_Target r +:+
                        ", so the rollout is finished; " +:+ next)) p
         | SkewAhead | SkewDiffers =>
             act_say (plain_action ActionCancelRollout ("The controller runs " +:+ target +:+ ", not this rollout's " +:+ ro_Target r +:+
                        ", so the rollout is cancelled: a host is never taken past its controller.")) p
         | SkewNone =>
             match blocked p with
             | Some sentence => p_say sentence p
             | None =>
                 let sv := surveyed p in
                 match sv_ready sv with
                 | Some h => updateHost h p
                 | None =>
                     if negb (str_eqb (sv_pending sv) "")
                     then p_say ("The rollout to " +:+ target +:+ " is waiting. " +:+ sv_pending sv) p
                     else
                       let reason := "Every host that can be updated from here runs " +:+ target +:+ ", so the rollout is finished." in
                       p_say (withNote reason (sv_note sv)) (p_act (plain_action ActionFinishRollout reason) p)
                 end
             end
         end.

(** The last rollout was to this target, and a person cancelled it. *)
Definition cancelledByHand (p : planner) : bool :=
  match us_LastRollout (pl_s p) with
  | Some lr => str_eqb (ro_State lr) rolloutCanceled && negb (str_eqb (ro_CancelledBy lr) "") &&
               is_skew (CompareTargets (ro_Target lr) (pl_target p)) SkewNone
  | None => false
  end.

(** The source's [start]. *)
Definition startRollout (p : planner) : planner :=
  let target := pl_target p in
  match blocked p with
  | Some sentence => p_say sentence p
  | None =>
      if negb (bool_decide (us_Mode (pl_s p) = ModeAuto)) || str_eqb target "" then p_say (idle p) p
      else
        let sv := surveyed p in
        match sv_ready sv with
        | None => p_say (withNote (idle p) (sv_note sv)) p
        | Some _ =>
            if cancelledByHand p
            then p_say ("The rollout to " +:+ target +:+ " was cancelled by hand, so auto will not start another rollout to " +:+ target +:+
                        " until a newer release is out or somebody starts one.") p
            else
              let hosts := if sv_updatable sv =? 1 then "1 host is behind it and is" else itoa (sv_updatable sv) +:+ " hosts are behind it and are" in
              act_say {| ua_Kind := ActionStartRollout; ua_HostID := ""; ua_AttemptID := ""; ua_Tag := target;
                         ua_Reason := "Starting a rollout to " +:+ target +:+ ", the release the controller runs: " +:+ hosts +:+ " updated one at a time." |} p
        end
  end.

(** ** The pass *)
Definition moveHosts (p : planner) : planner :=
  match pl_rollout p with Some r => advance r p | None => startRollout p end.

(** Past a rollout that is left as it is: the failures, the controller, the hosts. *)
Definition carryOn (p : planner) : planner :=
  let '(ended, p) := halt p in
  if ended then p
  else
    let '(ended, p) := halted p in
    if ended then p
    else
      let '(ended, p) := if bool_decide (us_Mode (pl_s p) = ModeAuto) then controller p else (false, p) in
      if ended then p else moveHosts p.

Definition updates_Decide (s : updates_Snapshot) : updates_Plan :=
  if us_Fenced s
  then {| up_Actions := [];
          up_Sentence := "This controller is fenced for recovery or does not hold the database's lease, so automatic updating starts, halts and closes nothing until it may act again." |}
  else
    let p := timeOuts (newPlanner s) in
    pl_plan
      match us_Mode s with
      | ModeManual =>
          match pl_rollout p with
          | Some r => if negb (str_eqb (ro_Trigger r) triggerManual) then stopAuto r p else carryOn p
          | None => carryOn p
          end
      | ModeAuto => carryOn p
      | ModeOff | ModeUnknown => off p
      end.

(** ** One step, and what justifies it *)

(** No update is under way anywhere. *)
Definition nothing_open (p : planner) : Prop := controllerAttempt p = None /\ forall h, h ∈ pl_hosts p -> hostAttempt h = None.

Lemma hostBlocked_None p hosts : hostBlocked p hosts = None <-> forall h, h ∈ hosts -> hostAttempt h = None.
Proof.
  induction hosts as [|h hosts IH]; cbn; [split; [intros _ h Hh; by apply elem_of_nil in Hh|done]|].
  destruct (hostAttempt h) eqn:E.
  - split; [done|]. intros H. rewrite (H h) in E by left. done.
  - rewrite IH. split; intros H h' Hh'; [apply elem_of_cons in Hh' as [->|]; auto|apply H; by right].
Qed.

Lemma blocked_None p : blocked p = None <-> nothing_open p.
Proof. unfold blocked, nothing_open. destruct (controllerAttempt p); [naive_solver|]. rewrite hostBlocked_None. naive_solver. Qed.

(** In auto no host goes before a release of the controller's that is due and that the helper could take. *)
Definition controller_settled (p : planner) : Prop :=
  tg_Replaces (pl_choice p) = true \/ DueBy (pl_choice p) (us_Now (pl_s p)) = false \/ us_Helper (pl_s p) = HelperStateUnsupported.

Definition not_halting (p : planner) (r : Rollout) : Prop :=
  ro_State r = rolloutRunning /\ forall h, h ∈ pl_hosts p -> member p h = true -> failedIn r h = false.

(** The failures there were are few enough and long enough ago for another try. *)
Definition may_retry (p : planner) (f : Z * Time) : Prop :=
  fst f < MaxFailuresPerTag /\ (0 < fst f -> snd f <> 0) /\ (snd f <> 0 -> snd f + RetryAfter_failure <= us_Now (pl_s p)).

Definition justified (p : planner) (a : updates_Action) : Prop :=
  match ua_Kind a with
  | ActionTimeOut => False
  | ActionRequestController =>
      us_Mode (pl_s p) = ModeAuto /\ nothing_open p /\ (forall r, pl_rollout p = Some r -> not_halting p r) /\
      ua_Tag a = re_Tag (tg_Release (pl_choice p)) /\ tg_Replaces (pl_choice p) = false /\ DueBy (pl_choice p) (us_Now (pl_s p)) = true /\
      us_Helper (pl_s p) = HelperStateReady /\ may_retry p (failures (us_ControllerEnded (pl_s p)) (ua_Tag a) own_controller)
  | ActionStartRollout =>
      us_Mode (pl_s p) = ModeAuto /\ nothing_open p /\ pl_rollout p = None /\ controller_settled p /\ ua_Tag a = pl_target p /\
      pl_target p <> "" /\ cancelledByHand p = false /\ is_Some (sv_ready (surveyed p))
  | ActionUpdateHost =>
      exists r h, pl_rollout p = Some r /\ not_halting p r /\ nothing_open p /\
        (us_Mode (pl_s p) = ModeAuto /\ controller_settled p \/ us_Mode (pl_s p) = ModeManual /\ ro_Trigger r = triggerManual) /\
        ValidTarget (ro_Target r) = true /\ CompareTargets (ro_Target r) (pl_target p) = SkewNone /\ pl_target p <> "" /\
        sv_ready (surveyed p) = Some h /\ ua_HostID a = hf_ID h /\ ua_Tag a = pl_target p
  | ActionHalt =>
      exists r h, pl_rollout p = Some r /\ ro_State r = rolloutRunning /\ h ∈ pl_hosts p /\ member p h = true /\ failedIn r h = true /\
        ua_HostID a = hf_ID h
  | ActionFinishRollout =>
      exists r, pl_rollout p = Some r /\ not_halting p r /\
        (CompareTargets (ro_Target r) (pl_target p) = SkewBehind \/
         CompareTargets (ro_Target r) (pl_target p) = SkewNone /\ nothing_open p /\ sv_ready (surveyed p) = None /\ sv_pending (surveyed p) = "")
  | ActionCancelRollout =>
      exists r, pl_rollout p = Some r /\
        (us_Mode (pl_s p) <> ModeAuto /\ (us_Mode (pl_s p) = ModeManual -> ro_Trigger r <> triggerManual) \/
         not_halting p r /\ (pl_target p = "" \/ CompareTargets (ro_Target r) (pl_target p) ∈ [SkewAhead; SkewDiffers]))
  end.

(** What a method has added to the plan: nothing, or one step that is justified. *)
Definition added (p q : planner) : Prop :=
  up_Actions (pl_plan q) = up_Actions (pl_plan p) \/
  exists a, up_Actions (pl_plan q) = up_Actions (pl_plan p) ++ [a] /\ justified p a.

Lemma said p sentence : added p (p_say sentence p).
Proof. by left. Qed.
Lemma acted p a : justified p a -> added p (act_say a p).
Proof. intros H. right. by exists a. Qed.

Lemma str_eqb_ne a b : str_eqb a b = false <-> a <> b.
Proof. apply bool_decide_eq_false. Qed.

Lemma waits_spec p n t : (MaxFailuresPerTag <=? n) = false -> (0 <? n) && Time_IsZero t = false -> retryWaits p t = false -> may_retry p (n, t).
Proof.
  unfold may_retry, retryWaits, Time_IsZero, Time_Before. rewrite Z.leb_gt, !andb_false_iff, negb_false_iff, Z.ltb_ge, Z.eqb_eq, Z.eqb_neq, Z.ltb_ge.
  cbn [fst snd]. lia.
Qed.

Lemma halt_spec p : match halt p with
  | (true, q) => added p q
  | (false, q) => q = p /\ forall r, pl_rollout p = Some r -> ro_State r = rolloutRunning -> not_halting p r
  end.
Proof.
  unfold halt. destruct (pl_rollout p) as [r|] eqn:Hr; [|done]. destruct (str_eqb (ro_State r) rolloutRunning) eqn:Hs; cbn [negb].
  - apply str_eqb_eq in Hs. destruct (List.find _ _) as [h|] eqn:Hf.
    + apply find_some in Hf as [Hin Hf]. apply andb_true_iff in Hf as [Hm Hf]. apply acted. exists r, h.
      split_and!; try done. by apply list_elem_of_In.
    + split; [done|]. intros r' [= <-] _. split; [done|]. intros h Hh Hm. apply list_elem_of_In in Hh.
      pose proof (find_none _ _ Hf h Hh) as H. simpl in H. by rewrite Hm in H.
  - split; [done|]. intros r' [= <-] H. apply str_eqb_ne in Hs. done.
Qed.

Lemma controller_spec p : us_Mode (pl_s p) = ModeAuto -> (forall r, pl_rollout p = Some r -> not_halting p r) ->
  match controller p with
  | (true, q) => added p q
  | (false, q) => (exists note, q = with_note p note) /\ controller_settled p
  end.
Proof.
  intros Hm Hh. unfold controller, controller_settled. destruct (tg_Replaces (pl_choice p)) eqn:Hrep; cbn [orb].
  { split; [by exists (pl_controllerNote p); destruct p|by left]. }
  destruct (DueBy (pl_choice p) (us_Now (pl_s p))) eqn:Hd; cbn [negb].
  2: { split; [by exists (pl_controllerNote p); destruct p|by right; left]. }
  destruct (us_Helper (pl_s p)) eqn:Hu; [| |split; [by eexists|by right; right]].
  all: destruct (blocked p) eqn:Hb; [apply said|]; apply blocked_None in Hb.
  all: destruct (failures _ _ _) as [n t] eqn:Hf.
  2: apply said.
  destruct (MaxFailuresPerTag <=? n) eqn:H1; [apply said|]. destruct ((0 <? n) && Time_IsZero t) eqn:H2; [apply said|].
  destruct (retryWaits p t) eqn:H3; [apply said|]. apply acted. unfold justified. cbn [ua_Kind ua_Tag].
  split_and!; try done. rewrite Hf. by apply waits_spec.
Qed.

Lemma advance_spec p r : pl_rollout p = Some r -> not_halting p r ->
  us_Mode (pl_s p) = ModeAuto /\ controller_settled p \/ us_Mode (pl_s p) = ModeManual /\ ro_Trigger r = triggerManual ->
  added p (advance r p).
Proof.
  intros Hr Hn Hm. unfold advance. destruct (ValidTarget (ro_Target r)) eqn:Hv; cbn [negb]; [|apply said].
  destruct (str_eqb (pl_target p) "") eqn:Ht.
  { apply acted. exists r. split; [done|]. right. split; [done|]. left. by apply str_eqb_eq. }
  apply str_eqb_ne in Ht. destruct (CompareTargets (ro_Target r) (pl_target p)) eqn:Hc; unfold is_skew.
  - rewrite bool_decide_eq_false_2 by done. cbn [andb]. destruct (blocked p) eqn:Hb; [apply said|]. apply blocked_None in Hb.
    destruct (sv_ready (surveyed p)) as [h|] eqn:Hs.
    + right. eexists. split; [reflexivity|]. exists r, h. by split_and!.
    + destruct (str_eqb (sv_pending (surveyed p)) "") eqn:Hp; cbn [negb]; [|apply said]. apply str_eqb_eq in Hp.
      right. eexists. split; [reflexivity|]. exists r. split_and!; try done. by right.
  - rewrite bool_decide_eq_false_2 by done. cbn [andb]. apply acted. exists r. split_and!; try done. by left.
  - rewrite bool_decide_eq_false_2 by done. cbn [andb]. apply acted. exists r. split; [done|]. right. split; [done|]. right. rewrite Hc. left.
  - assert (forall reason, added p (act_say (plain_action ActionCancelRollout reason) p)) as H.
    { intros reason. apply acted. exists r. split; [done|]. right. split; [done|]. right. rewrite Hc. right. left. }
    case_match; apply H.
Qed.

Lemma start_spec p : pl_rollout p = None -> us_Mode (pl_s p) = ModeAuto -> controller_settled p -> added p (startRollout p).
Proof.
  intros Hr Hm Hc. unfold startRollout. destruct (blocked p) eqn:Hb; [apply said|]. apply blocked_None in Hb.
  rewrite Hm, bool_decide_eq_true_2 by done. cbn [negb orb]. destruct (str_eqb (pl_target p) "") eqn:Ht; [apply said|]. apply str_eqb_ne in Ht.
  destruct (sv_ready (surveyed p)) eqn:Hs; [|apply said]. destruct (cancelledByHand p) eqn:Hh; [apply said|].
  apply acted. unfold justified. cbn [ua_Kind ua_Tag]. by split_and!.
Qed.

Lemma start_idle p : us_Mode (pl_s p) <> ModeAuto -> added p (startRollout p).
Proof.
  intros Hm. unfold startRollout. destruct (blocked p); [apply said|]. rewrite bool_decide_eq_false_2 by done. apply said.
Qed.

(** A note changes nothing but what may be said. *)
Lemma added_note p note q : added (with_note p note) q -> added p q.
Proof. intros [H|(a & H & Ha)]; [by left|right]. exists a. split; [exact H|exact Ha]. Qed.

Lemma halted_spec p : (forall r, pl_rollout p = Some r -> is_open_rollout r = true) ->
  (forall r, pl_rollout p = Some r -> ro_State r = rolloutRunning -> not_halting p r) ->
  match halted p with
  | (true, q) => added p q
  | (false, q) => q = p /\ forall r, pl_rollout p = Some r -> not_halting p r
  end.
Proof.
  intros Ho Hn. unfold halted. destruct (pl_rollout p) as [r|] eqn:Hr; [|done].
  destruct (str_eqb (ro_State r) rolloutHalted) eqn:Hs; cbn [negb]; [apply said|]. split; [done|]. intros r' [= <-].
  apply (Hn r eq_refl). specialize (Ho r eq_refl). unfold is_open_rollout in Ho. rewrite Hs, orb_false_r in Ho. by apply str_eqb_eq.
Qed.

Lemma carryOn_spec p : (forall r, pl_rollout p = Some r -> is_open_rollout r = true) ->
  us_Mode (pl_s p) = ModeAuto \/ us_Mode (pl_s p) = ModeManual /\ (forall r, pl_rollout p = Some r -> ro_Trigger r = triggerManual) ->
  added p (carryOn p).
Proof.
  intros Ho Hm. unfold carryOn. pose proof (halt_spec p) as H. destruct (halt p) as [[] q]; [done|]. destruct H as [-> H].
  pose proof (halted_spec p Ho H) as Hh. destruct (halted p) as [[] q]; [done|]. destruct Hh as [-> Hn]. clear H.
  assert (Hmove : forall note, us_Mode (pl_s p) = ModeAuto -> controller_settled p -> added p (moveHosts (with_note p note))).
  { intros note Ha Hc. apply (added_note p note). unfold moveHosts. cbn [pl_rollout with_note]. destruct (pl_rollout p) as [r|] eqn:Hr.
    - apply advance_spec; [done|by apply Hn|by left].
    - by apply start_spec. }
  destruct Hm as [Ha|[Ha Ht]].
  - rewrite Ha, bool_decide_eq_true_2 by done. pose proof (controller_spec p Ha Hn) as Hc.
    destruct (controller p) as [[] q]; [done|]. destruct Hc as [[note ->] Hc]. by apply Hmove.
  - rewrite Ha, bool_decide_eq_false_2 by done. unfold moveHosts. destruct (pl_rollout p) as [r|] eqn:Hr.
    + apply advance_spec; [done|by apply Hn|right; split; [done|by apply Ht]].
    + apply start_idle. by rewrite Ha.
Qed.

(** ** Time-outs *)
Definition timed (p : planner) (m : gmap string string) (acts : list updates_Action) : planner :=
  {| pl_s := pl_s p; pl_hosts := pl_hosts p; pl_releases := pl_releases p; pl_choice := pl_choice p; pl_target := pl_target p;
     pl_rollout := pl_rollout p; pl_timedOut := m; pl_controllerNote := pl_controllerNote p;
     pl_plan := {| up_Actions := acts; up_Sentence := up_Sentence (pl_plan p) |} |}.

(** A time-out names an open attempt that began more than ninety minutes ago. *)
Definition times_out (p : planner) (a : updates_Action) : Prop :=
  ua_Kind a = ActionTimeOut /\ exists at_, an_ID at_ = ua_AttemptID a /\ an_RequestedAt at_ <> 0 /\
    an_RequestedAt at_ + AttemptTimeout < us_Now (pl_s p) /\
    (controllerAttempt p = Some at_ \/
     us_HostGraceUntil (pl_s p) <= us_Now (pl_s p) /\ exists h, h ∈ pl_hosts p /\ hostAttempt h = Some at_ /\ ua_HostID a = hf_ID h).

Lemma expired_spec p a : expired p a = true -> an_RequestedAt a <> 0 /\ an_RequestedAt a + AttemptTimeout < us_Now (pl_s p).
Proof.
  unfold expired, Time_IsZero, AttemptTimeout, Minute, Second, Millisecond, Microsecond. rewrite andb_true_iff, negb_true_iff, Z.eqb_neq, Z.ltb_lt.
  unfold Time_Sub, int_min, int_max. lia.
Qed.

Lemma timeOuts_shape p : exists m acts, timeOuts p = timed p m (up_Actions (pl_plan p) ++ acts) /\ Forall (times_out p) acts.
Proof.
  assert (Hhosts : forall hosts, (forall h, h ∈ hosts -> h ∈ pl_hosts p) -> us_HostGraceUntil (pl_s p) <= us_Now (pl_s p) -> forall m acts, exists m' acts',
    foldl timeOutHost (timed p m acts) hosts = timed p m' (acts ++ acts') /\ Forall (times_out p) acts').
  { intros hosts Hin Hg. induction hosts as [|h hosts IH]; intros m acts; cbn [foldl].
    { exists m, []. by rewrite app_nil_r. }
    assert (exists m' l, timeOutHost (timed p m acts) h = timed p m' (acts ++ l) /\ Forall (times_out p) l) as (m1 & l1 & -> & Hl).
    { unfold timeOutHost. destruct (hostAttempt h) as [a|] eqn:Ha; [|exists m, []; by rewrite app_nil_r].
      destruct (expired (timed p m acts) a) eqn:He; [|exists m, []; by rewrite app_nil_r].
      apply expired_spec in He as [Hz He]. eexists _, [_]. split; [reflexivity|]. constructor; [|done]. split; [done|]. exists a.
      split_and!; try done. right. split; [exact Hg|]. exists h. split_and!; try done. apply Hin. left. }
    destruct (IH ltac:(intros; apply Hin; by right) m1 (acts ++ l1)) as (m2 & l2 & -> & Hl2). exists m2, (l1 ++ l2).
    rewrite app_assoc. split; [done|]. by apply Forall_app. }
  unfold timeOuts. assert (exists m acts, match controllerAttempt p with
     | Some a => if expired p a then timeOut "" (an_ID a) ("The controller's update to " +:+ tagOr (an_To a) "a new release" +:+ " did not finish within 90 minutes, so it is recorded as timed out.") p else p
     | None => p end = timed p m (up_Actions (pl_plan p) ++ acts) /\ Forall (times_out p) acts) as (m1 & l1 & -> & H1).
  { assert (exists m acts, p = timed p m (up_Actions (pl_plan p) ++ acts) /\ Forall (times_out p) acts) as Hsame.
    { exists (pl_timedOut p), []. rewrite app_nil_r. split; [by destruct p as [? ? ? ? ? ? ? ? []]|constructor]. }
    destruct (controllerAttempt p) as [a|] eqn:Ha; [|done]. destruct (expired p a) eqn:He; [|done]. apply expired_spec in He as [Hz He].
    eexists _, [_]. split; [reflexivity|]. constructor; [|done]. split; [done|]. exists a. split_and!; try done. by left. }
  cbn zeta. change (us_Now (pl_s (timed p m1 (up_Actions (pl_plan p) ++ l1)))) with (us_Now (pl_s p)).
  change (us_HostGraceUntil (pl_s (timed p m1 (up_Actions (pl_plan p) ++ l1)))) with (us_HostGraceUntil (pl_s p)).
  unfold Time_Before. destruct (Z.ltb_spec (us_Now (pl_s p)) (us_HostGraceUntil (pl_s p))) as [Hg|Hg]; [by exists m1, l1|].
  destruct (Hhosts (pl_hosts p) ltac:(done) Hg m1 (up_Actions (pl_plan p) ++ l1)) as (m2 & l2 & E & H2).
  exists m2, (l1 ++ l2). cbn [pl_hosts timed]. rewrite E, app_assoc. split; [done|]. by apply Forall_app.
Qed.

(** What is asked of a planner is the same before and after its time-outs. *)
Lemma added_timed p m acts q : added (timed p m acts) q ->
  up_Actions (pl_plan q) = acts \/ exists a, up_Actions (pl_plan q) = acts ++ [a] /\ justified p a.
Proof. intros [H|(a & H & Ha)]; [by left|right]. exists a. split; [exact H|exact Ha]. Qed.

Lemma Decide_actions s : let p := newPlanner s in
  up_Actions (updates_Decide s) = [] \/ us_Fenced s = false /\
  exists acts tail, up_Actions (updates_Decide s) = acts ++ tail /\ Forall (times_out p) acts /\
    (tail = [] \/ exists a, tail = [a] /\ justified p a).
Proof.
  cbn zeta. unfold updates_Decide. destruct (us_Fenced s); [by left|right]. split; [done|].
  destruct (timeOuts_shape (newPlanner s)) as (m & acts & -> & Ht). set (p := newPlanner s) in *.
  change (up_Actions (pl_plan p) ++ acts) with acts. set (q := timed p m acts).
  assert (Ho : forall r, pl_rollout q = Some r -> is_open_rollout r = true).
  { intros r. cbn. destruct (us_Rollout s) as [x|]; [|done]. destruct (is_open_rollout x) eqn:E; [|done]. by intros [= <-]. }
  cut (exists x, pl_plan x = pl_plan match us_Mode s with
      | ModeManual => match pl_rollout q with
                      | Some r => if negb (str_eqb (ro_Trigger r) triggerManual) then stopAuto r q else carryOn q
                      | None => carryOn q end
      | ModeAuto => carryOn q
      | ModeOff | ModeUnknown => off q end /\ added q x).
  { intros (x & <- & Hx). destruct (added_timed _ _ _ _ Hx) as [->|(a & -> & Ha)].
    - exists acts, []. rewrite app_nil_r. auto.
    - exists acts, [a]. split_and!; [done|done|]. right. by exists a. }
  assert (Hoff : us_Mode s = ModeOff \/ us_Mode s = ModeUnknown -> added q (off q)).
  { intros Hm. unfold off. destruct (pl_rollout q) as [r|] eqn:Hr; [|destruct (blocked q); apply said].
    apply acted. exists r. split; [done|]. left. change (pl_s q) with s. destruct Hm as [-> | ->]; split; done. }
  assert (Hcarry : us_Mode s = ModeAuto \/ us_Mode s = ModeManual /\ (forall r, pl_rollout q = Some r -> ro_Trigger r = triggerManual) -> added q (carryOn q))
    by (intros H; by apply carryOn_spec).
  clear Ho. eexists. split; [reflexivity|]. destruct (us_Mode s) eqn:Hm; [apply Hoff; auto| |apply Hcarry; auto|apply Hoff; auto].
  destruct (pl_rollout q) as [r|] eqn:Hr; [|apply Hcarry; right; split; [done|by intros r]].
  destruct (str_eqb (ro_Trigger r) triggerManual) eqn:Ht'; cbn [negb].
  - apply str_eqb_eq in Ht'. apply Hcarry. right. split; [done|]. by intros r' [= <-].
  - apply str_eqb_ne in Ht'. apply acted. exists r. split; [done|]. left. change (pl_s q) with s. by rewrite Hm.
Qed.

(** ** Where the hosts stand *)
Definition is_ready (p : planner) (h : HostFacts) : bool := member p h && bool_decide ((assess p h).1 = standReady).
Definition is_pending (p : planner) (h : HostFacts) : bool := member p h && bool_decide ((assess p h).1 = standPending).

Lemma pending_note p h : (assess p h).1 = standPending -> (assess p h).2 <> "".
Proof.
  unfold assess. destruct (failures _ _ _) as [n t]. repeat case_match; cbn [fst snd]; try discriminate; intros _ E;
    apply (f_equal (fun s => length (chars s))) in E; rewrite !chars_app, !length_app in E; cbn in E; lia.
Qed.

Lemma survey_host_spec p sv h :
  sv_ready (survey_host p sv h) = match sv_ready sv with None => if is_ready p h then Some h else None | r => r end /\
  (sv_pending (survey_host p sv h) = "" <-> sv_pending sv = "" /\ is_pending p h = false).
Proof.
  pose proof (pending_note p h) as Hn. unfold survey_host, is_ready, is_pending. destruct (member p h); cbn [negb andb].
  2: { split; [by destruct (sv_ready sv)|tauto]. }
  destruct (assess p h) as [stand note]. cbn [fst snd] in *. destruct stand; cbn [sv_ready sv_pending].
  all: rewrite ?bool_decide_eq_false_2 by done; rewrite ?bool_decide_eq_true_2 by done.
  all: split; [by destruct (sv_ready sv)|]; try tauto.
  split; [|by intros []]. destruct (str_eqb (sv_pending sv) "") eqn:E; [by intros H; apply Hn in H|].
  apply str_eqb_ne in E. done.
Qed.

Lemma surveyed_fold p hosts sv :
  let out := foldl (survey_host p) sv hosts in
  sv_ready out = match sv_ready sv with None => List.find (is_ready p) hosts | r => r end /\
  (sv_pending out = "" <-> sv_pending sv = "" /\ Forall (fun h => is_pending p h = false) hosts).
Proof.
  revert sv. induction hosts as [|h hosts IH]; intros sv; cbn [foldl List.find]; cbn zeta.
  - split; [by destruct (sv_ready sv)|]. rewrite Forall_nil. tauto.
  - destruct (IH (survey_host p sv h)) as [H1 H2]. cbn zeta in *. rewrite H1, H2, Forall_cons. clear IH H1 H2.
    destruct (survey_host_spec p sv h) as [-> ->]. split; [|tauto]. destruct (sv_ready sv); [done|]. by destruct (is_ready p h).
Qed.

Lemma surveyed_ready p : sv_ready (surveyed p) = List.find (is_ready p) (pl_hosts p).
Proof. unfold surveyed. by rewrite (proj1 (surveyed_fold p _ _)). Qed.
Lemma surveyed_pending p : sv_pending (surveyed p) = "" <-> Forall (fun h => is_pending p h = false) (pl_hosts p).
Proof. unfold surveyed. rewrite (proj2 (surveyed_fold p _ _)). cbn [sv_pending]. tauto. Qed.

Lemma ready_spec p h : is_ready p h = true ->
  member p h = true /\ strings_TrimSpace (hf_Version h) <> "" /\ HostSkew (hf_Version h) (pl_target p) = SkewBehind /\
  hf_Embedded h = false /\ hf_CanSelfUpdate h = true /\ hf_Healthy h = true /\ carriesBinaryFor p h = true /\
  may_retry p (failures (hf_Ended h) (pl_target p) (own_host h)).
Proof.
  unfold is_ready. rewrite andb_true_iff, bool_decide_eq_true. intros [Hm Ha]. split; [done|]. revert Ha. unfold assess.
  destruct (str_eqb (strings_TrimSpace (hf_Version h)) "") eqn:Hv; [done|]. apply str_eqb_ne in Hv.
  destruct (IsMainBuild _ && _); [done|]. destruct (negb _ && _); [done|]. destruct (HostSkew _ _); try done.
  destruct (hf_Embedded h); [done|]. destruct (hf_CanSelfUpdate h); cbn [negb]; [|done]. destruct (carriesBinaryFor p h); cbn [negb]; [|done].
  destruct (failures _ _ _) as [n t]. destruct (MaxFailuresPerTag <=? n) eqn:H1; [done|]. destruct (hf_Healthy h); cbn [negb]; [|done].
  destruct (_ && _) eqn:H2; [done|]. destruct (retryWaits p t) eqn:H3; [done|]. intros _. split_and!; try done. by apply waits_spec.
Qed.

Lemma in_plan s a : a ∈ up_Actions (updates_Decide s) -> us_Fenced s = false /\
  (times_out (newPlanner s) a \/
   justified (newPlanner s) a /\ (nothing_open (newPlanner s) -> up_Actions (updates_Decide s) = [a])).
Proof.
  intros Ha. destruct (Decide_actions s) as [E|(Hf & acts & tail & E & Ht & Htail)]; rewrite E in Ha; [by apply elem_of_nil in Ha|].
  split; [done|]. apply elem_of_app in Ha as [Ha|Ha].
  { left. rewrite Forall_forall in Ht. by apply Ht. }
  destruct Htail as [->|(b & -> & Hb)]; [by apply elem_of_nil in Ha|]. apply list_elem_of_singleton in Ha as ->. right. split; [done|].
  intros [Hc Hh]. rewrite E. destruct acts as [|x acts]; [done|]. exfalso. apply Forall_cons in Ht as [(_ & at_ & _ & _ & _ & Hx) _].
  destruct Hx as [Hx|(_ & h & Hin & Hx & _)]; [congruence|]. rewrite (Hh h Hin) in Hx. discriminate.
Qed.

Lemma newPlanner_hosts s h : h ∈ pl_hosts (newPlanner s) <-> h ∈ us_Hosts s.
Proof. apply sort_elem_of. Qed.
Lemma newPlanner_rollout s r : pl_rollout (newPlanner s) = Some r -> us_Rollout s = Some r /\ is_open_rollout r = true.
Proof. cbn. destruct (us_Rollout s) as [x|]; [|done]. destruct (is_open_rollout x) eqn:E; [|done]. by intros [= <-]. Qed.

(** The steps that set a machine or a rollout in motion. *)
Definition moves (a : updates_Action) : Prop := ua_Kind a ∈ [ActionRequestController; ActionStartRollout; ActionUpdateHost].

(** C38: One machine is updated at a time.  A plan that asks the controller or a host to
    update itself, or starts a rollout, does that alone: it is the plan's only step, the
    controller may act, and no update of the controller or of any host is under way. *)
Theorem one_update_at_a_time s a : a ∈ up_Actions (updates_Decide s) -> moves a ->
  up_Actions (updates_Decide s) = [a] /\ us_Fenced s = false /\
  controllerAttempt (newPlanner s) = None /\ forall h, h ∈ us_Hosts s -> hostAttempt h = None.
Proof.
  intros Ha Hk. destruct (in_plan s a Ha) as [Hf H]. unfold moves in Hk. rewrite !elem_of_cons, elem_of_nil in Hk.
  destruct H as [[Ht _]|[Hj Hone]]; [destruct Hk as [Hk|[Hk|[Hk|[]]]]; congruence|].
  assert (nothing_open (newPlanner s)) as Hq.
  { unfold justified in Hj. destruct Hk as [Hk|[Hk|[Hk|[]]]]; rewrite Hk in Hj; [tauto..|]. destruct Hj as (r & h & Hj). tauto. }
  split_and!; [by apply Hone|done|apply Hq|]. intros h Hh. apply Hq. by apply newPlanner_hosts.
Qed.

(** Nothing moves that nobody asked for.  With updates off, by a word nobody knows or
    by a fence, no step is taken but to close what is open; in manual the controller is never
    asked and no rollout started, and the hosts that move are those of a rollout a person
    started; and a halted rollout moves nothing in any mode. *)
Theorem updates_follow_the_mode s a : a ∈ up_Actions (updates_Decide s) -> moves a ->
  (us_Mode s = ModeAuto \/
   us_Mode s = ModeManual /\ ua_Kind a = ActionUpdateHost /\ exists r, us_Rollout s = Some r /\ ro_Trigger r = triggerManual) /\
  (forall r, us_Rollout s = Some r -> ro_State r <> rolloutHalted).
Proof.
  intros Ha Hk. destruct (in_plan s a Ha) as [Hf H]. unfold moves in Hk. rewrite !elem_of_cons, elem_of_nil in Hk.
  destruct H as [[Ht _]|[Hj _]]; [destruct Hk as [Hk|[Hk|[Hk|[]]]]; congruence|].
  assert (Hn : forall r, us_Rollout s = Some r -> ro_State r = rolloutHalted -> pl_rollout (newPlanner s) = Some r).
  { intros r Hr Hs. cbn. rewrite Hr. unfold is_open_rollout. by rewrite Hs. }
  unfold justified in Hj. destruct Hk as [Hk|[Hk|[Hk|[]]]]; rewrite Hk in Hj.
  - destruct Hj as (Hm & _ & Hh & _). split; [by left|]. intros r Hr Hs. destruct (Hh r (Hn r Hr Hs)) as [E _]. by rewrite Hs in E.
  - destruct Hj as (Hm & _ & Hr0 & _). split; [by left|]. intros r Hr Hs. by rewrite (Hn r Hr Hs) in Hr0.
  - destruct Hj as (r & h & Hr & [Hrun _] & _ & Hm & _). pose proof (newPlanner_rollout s r Hr) as [Hsr _]. split.
    + destruct Hm as [[Hm _]|[Hm Htr]]; [by left|right]. split_and!; [done|done|by exists r].
    + intros r' Hr' Hs. rewrite Hsr in Hr'. injection Hr' as <-. by rewrite Hs in Hrun.
Qed.

Lemma find_first {A} (f : A -> bool) (cmp : A -> A -> comparison) l x :
  StronglySorted (fun a b => cmp a b <> Gt) l -> List.find f l = Some x -> forall y, y ∈ l -> f y = true -> y = x \/ cmp x y <> Gt.
Proof.
  induction 1 as [|z l Hs IH Hz]; cbn; [done|]. destruct (f z) eqn:Hf.
  - intros [= <-] y [->|Hy]%elem_of_cons _; [by left|right]. rewrite Forall_forall in Hz. by apply Hz.
  - intros Hx y [->|Hy]%elem_of_cons Hfy; [congruence|]. by apply IH.
Qed.

(** C39: A host is asked to update itself only when it is due: it is one of the hosts of a
    running rollout to the release the controller runs, it is behind that release and behind
    the controller, healthy, able to update itself and not the controller's own, has not failed at it twice nor in
    the last half hour, and no host of the rollout has failed since it was started or
    resumed; and of the hosts that could go now it runs the fewest jobs. *)
Theorem host_update_is_due s a : a ∈ up_Actions (updates_Decide s) -> ua_Kind a = ActionUpdateHost ->
  exists r h, us_Rollout s = Some r /\ ro_State r = rolloutRunning /\ h ∈ us_Hosts s /\ hf_ID h = ua_HostID a /\
    (ro_HostIDs r = [] \/ hf_ID h ∈ ro_HostIDs r) /\
    HostTarget (us_Running s) = Some (ua_Tag a) /\ CompareTargets (ro_Target r) (ua_Tag a) = SkewNone /\
    HostSkew (hf_Version h) (ua_Tag a) = SkewBehind /\
    (IsMainBuild (ua_Tag a) = false -> CompareBuilds (hf_Version h) (us_Running s) = SkewBehind) /\
    hf_Embedded h = false /\ hf_CanSelfUpdate h = true /\ hf_Healthy h = true /\
    may_retry (newPlanner s) (failures (hf_Ended h) (ua_Tag a) (own_host h)) /\
    (forall h', h' ∈ us_Hosts s -> member (newPlanner s) h' = true -> failedIn r h' = false) /\
    (forall h', h' ∈ us_Hosts s -> is_ready (newPlanner s) h' = true -> hf_ActiveRunners h <= hf_ActiveRunners h').
Proof.
  intros Ha Hk. destruct (in_plan s a Ha) as [_ [[Ht _]|[Hj _]]]; [congruence|]. unfold justified in Hj. rewrite Hk in Hj.
  destruct Hj as (r & h & Hr & [Hrun Hnf] & Hq & Hm & Hv & Hc & Hne & Hs & Hid & Htag). rewrite surveyed_ready in Hs.
  pose proof (find_some _ _ Hs) as [Hin Hrdy]. apply list_elem_of_In in Hin. pose proof (newPlanner_rollout s r Hr) as [Hsr _].
  destruct (ready_spec _ _ Hrdy) as (Hmem & _ & Hskew & He & Hself & Hhealthy & _ & Hretry). rewrite Htag in *.
  assert (HostTarget (us_Running s) = Some (pl_target (newPlanner s))) as Htarget by (cbn in Hne |- *; by destruct (HostTarget (us_Running s))).
  exists r, h. split_and!; try done.
  - by apply newPlanner_hosts.
  - unfold member in Hmem. rewrite Hr in Hmem. destruct (ro_HostIDs r) as [|i l]; [by left|right]. by apply (bool_decide_eq_true_1 _) in Hmem.
  - intros Hmain. by eapply behind_target.
  - intros h' Hh'. apply Hnf. by apply newPlanner_hosts.
  - intros h' Hh' Hr'. apply newPlanner_hosts in Hh'.
    destruct (find_first (is_ready (newPlanner s)) host_order _ h (sort_sorted host_order (us_Hosts s)) Hs h' Hh' Hr') as [->|Hle]; [done|].
    revert Hle. unfold host_order, cmp_lex, cmp_on, cmp_then. destruct (Z.compare_spec (hf_ActiveRunners h) (hf_ActiveRunners h')); try lia. done.
Qed.

(** The controller is asked to update itself only when that is due: in auto, to the
    newest release that can be installed on it, later than the one it runs and public for
    the whole of the soak; by a helper that is ready; and not after two failures to take it,
    nor within half an hour of one. *)
Theorem controller_update_is_due s a : a ∈ up_Actions (updates_Decide s) -> ua_Kind a = ActionRequestController ->
  us_Mode s = ModeAuto /\ us_Helper s = HelperStateReady /\
  may_retry (newPlanner s) (failures (us_ControllerEnded s) (ua_Tag a) own_controller) /\
  exists r, r ∈ us_Releases s /\ re_Tag r = ua_Tag a /\ Release_eligible r (us_GOOS s) (us_GOARCH s) = true /\
    is_Some (version_Release (us_Running s)) /\ CompareBuilds (us_Running s) (ua_Tag a) = SkewBehind /\
    re_PublishedAt r + us_Soak s <= us_Now s /\
    forall r', r' ∈ us_Releases s -> Release_eligible r' (us_GOOS s) (us_GOARCH s) = true ->
      CompareBuilds (re_Tag r') (ua_Tag a) ∈ [SkewBehind; SkewNone].
Proof.
  intros Ha Hk. destruct (in_plan s a Ha) as [_ [[Ht _]|[Hj _]]]; [congruence|]. unfold justified in Hj. rewrite Hk in Hj.
  destruct Hj as (Hm & _ & _ & Htag & Hrep & Hdue & Hhelp & Hretry). split_and!; [exact Hm|exact Hhelp|exact Hretry|].
  set (i := {| ci_Mode := us_Mode s; ci_Soak := us_Soak s; ci_Now := us_Now s; ci_Running := us_Running s;
               ci_Releases := SortStableFunc release_order (us_Releases s); ci_GOOS := us_GOOS s; ci_GOARCH := us_GOARCH s |}).
  change (pl_choice (newPlanner s)) with (Choose i) in *. change (us_Now (pl_s (newPlanner s))) with (ci_Now i) in Hdue.
  destruct (Choose_due i Hm Hdue Hrep) as (Hin & He & Hrun & Hb & Hso & Hmax). exists (tg_Release (Choose i)). rewrite Htag.
  split_and!; try done; [exact (proj1 (sort_elem_of release_order _ _) Hin)|]. intros r' Hr' He'. apply Hmax; [exact (proj2 (sort_elem_of release_order _ _) Hr')|done].
Qed.

(** ** The order the lists arrive in *)
Definition with_lists (s : updates_Snapshot) (hosts : list HostFacts) (releases : list Release) : updates_Snapshot :=
  {| us_Now := us_Now s; us_Mode := us_Mode s; us_Soak := us_Soak s; us_Running := us_Running s; us_GOOS := us_GOOS s; us_GOARCH := us_GOARCH s;
     us_Releases := releases; us_Helper := us_Helper s; us_HelperWhyNot := us_HelperWhyNot s; us_Fenced := us_Fenced s;
     us_HostGraceUntil := us_HostGraceUntil s; us_Controller := us_Controller s; us_ControllerEnded := us_ControllerEnded s;
     us_Rollout := us_Rollout s; us_LastRollout := us_LastRollout s; us_Hosts := hosts |}.

Section AnyOrder.
Context (hosts : list HostFacts) (releases : list Release).

(** A planner over the same copies, of a snapshot whose lists came otherwise. *)
Definition relist (p : planner) : planner :=
  {| pl_s := with_lists (pl_s p) hosts releases; pl_hosts := pl_hosts p; pl_releases := pl_releases p; pl_choice := pl_choice p;
     pl_target := pl_target p; pl_rollout := pl_rollout p; pl_timedOut := pl_timedOut p; pl_controllerNote := pl_controllerNote p; pl_plan := pl_plan p |}.
Definition relist_snd (x : bool * planner) : bool * planner := (fst x, relist (snd x)).

Lemma relist_blocked p : blocked (relist p) = blocked p.
Proof.
  assert (forall l, hostBlocked (relist p) l = hostBlocked p l) as H by (intros l; induction l as [|h l IH]; cbn; [done|by rewrite IH]).
  unfold blocked. rewrite H. reflexivity.
Qed.
Lemma relist_surveyed p : surveyed (relist p) = surveyed p.
Proof. reflexivity. Qed.

Lemma relist_timeOutHost p h : timeOutHost (relist p) h = relist (timeOutHost p h).
Proof.
  unfold timeOutHost. destruct (hostAttempt h) as [a|]; [|done]. change (expired (relist p) a) with (expired p a). by destruct (expired p a).
Qed.
Lemma relist_timeOuts p : timeOuts (relist p) = relist (timeOuts p).
Proof.
  unfold timeOuts. change (controllerAttempt (relist p)) with (controllerAttempt p).
  assert (Hfold : forall l q, foldl timeOutHost (relist q) l = relist (foldl timeOutHost q l)).
  { intros l. induction l as [|h l IH]; intros q; cbn [foldl]; [done|]. by rewrite relist_timeOutHost, IH. }
  destruct (controllerAttempt p) as [a|]; [change (expired (relist p) a) with (expired p a); destruct (expired p a)|]; cbn zeta.
  all: match goal with |- (if ?b then _ else _) = relist (if ?c then _ else _) => change b with c; destruct c; [done|] end.
  all: rewrite <- Hfold; reflexivity.
Qed.

Lemma relist_off p : off (relist p) = relist (off p).
Proof. unfold off. rewrite relist_blocked. cbn [pl_rollout relist]. destruct (pl_rollout p); [done|]. by destruct (blocked p). Qed.

Lemma relist_halt p : halt (relist p) = relist_snd (halt p).
Proof.
  unfold halt. cbn [pl_rollout relist pl_hosts]. destruct (pl_rollout p) as [r|]; [|done]. destruct (negb _); [done|].
  change (fun h => member (relist p) h && failedIn r h) with (fun h => member p h && failedIn r h). by destruct (List.find _ _).
Qed.
Lemma relist_halted p : halted (relist p) = relist_snd (halted p).
Proof. unfold halted. cbn [pl_rollout relist]. destruct (pl_rollout p) as [r|]; [|done]. by destruct (negb _). Qed.

Lemma relist_controller p : controller (relist p) = relist_snd (controller p).
Proof.
  unfold controller. rewrite relist_blocked. cbn [pl_choice relist pl_s with_lists us_Now us_Helper us_HelperWhyNot us_ControllerEnded].
  destruct (_ || _); [done|]. destruct (us_Helper (pl_s p)); [| |done]; (destruct (blocked p); [done|]);
    destruct (failures _ _ _) as [n t]; [|done].
  destruct (_ <=? _); [done|]. destruct (_ && _); [done|]. change (retryWaits (relist p) t) with (retryWaits p t). by destruct (retryWaits p t).
Qed.

Lemma relist_advance r p : advance r (relist p) = relist (advance r p).
Proof.
  unfold advance. rewrite relist_blocked, relist_surveyed. cbn [pl_target relist pl_s with_lists us_Mode].
  destruct (negb _); [done|]. destruct (str_eqb _ _); [done|]. destruct (_ && _); [done|]. destruct (CompareTargets _ _); try done.
  destruct (blocked p); [done|]. destruct (sv_ready _); [done|]. by destruct (negb _).
Qed.
Lemma relist_start p : startRollout (relist p) = relist (startRollout p).
Proof.
  unfold startRollout. rewrite relist_blocked, relist_surveyed. cbn [pl_target relist pl_s with_lists us_Mode].
  destruct (blocked p); [done|]. destruct (_ || _); [done|]. destruct (sv_ready _); [|done].
  change (cancelledByHand (relist p)) with (cancelledByHand p). by destruct (cancelledByHand p).
Qed.

Lemma relist_carryOn p : carryOn (relist p) = relist (carryOn p).
Proof.
  unfold carryOn. rewrite relist_halt. destruct (halt p) as [[] q]; [done|]. cbn [relist_snd fst snd].
  rewrite relist_halted. destruct (halted q) as [[] q1]; [done|]. cbn [relist_snd fst snd].
  assert (Hmove : forall q, moveHosts (relist q) = relist (moveHosts q)).
  { intros q2. unfold moveHosts. cbn [pl_rollout relist]. destruct (pl_rollout q2); [apply relist_advance|apply relist_start]. }
  cbn [pl_s relist with_lists us_Mode]. destruct (bool_decide _); [|apply Hmove].
  rewrite relist_controller. destruct (controller q1) as [[] q2]; [done|]. cbn [relist_snd fst snd]. apply Hmove.
Qed.
End AnyOrder.

(** What is decided, and the sentence said, do not depend on the order the hosts and
    the releases are listed in. *)
Theorem updates_any_order s hosts releases :
  NoDup (hf_ID <$> us_Hosts s) -> NoDup (re_Tag <$> us_Releases s) ->
  Permutation (us_Hosts s) hosts -> Permutation (us_Releases s) releases ->
  updates_Decide (with_lists s hosts releases) = updates_Decide s.
Proof.
  intros Hh Hr HPh HPr. assert (E : newPlanner (with_lists s hosts releases) = relist hosts releases (newPlanner s)).
  { unfold newPlanner, relist. cbn [us_Hosts us_Releases us_Now us_Mode us_Soak us_Running us_GOOS us_GOARCH us_Rollout with_lists
      pl_s pl_hosts pl_releases pl_choice pl_target pl_rollout pl_timedOut pl_controllerNote pl_plan].
    rewrite <- (sort_keyed host_order hf_ID (us_Hosts s) hosts), <- (sort_keyed release_order re_Tag (us_Releases s) releases) ; try done.
    - intros x y [H _]%cmp_lex_eq. by apply strings_Compare_Eq.
    - intros x y [_ [_ H]%cmp_lex_eq]%cmp_lex_eq. by apply strings_Compare_Eq. }
  unfold updates_Decide. rewrite E, relist_timeOuts. cbn [us_Fenced us_Mode with_lists]. destruct (us_Fenced s); [done|].
  set (p := timeOuts (newPlanner s)). destruct (us_Mode s); [by rewrite relist_off| |by rewrite relist_carryOn|by rewrite relist_off].
  cbn [pl_rollout relist]. destruct (pl_rollout p) as [r|]; [|by rewrite relist_carryOn]. destruct (negb _); [done|by rewrite relist_carryOn].
Qed.

(** ** A rollout to its end *)

(** A host has taken its update: it reports a build that is the target's, and the attempt is kept. *)
Definition host_taken (v : string) (done_ : Attempt) (h : HostFacts) : HostFacts :=
  {| hf_ID := hf_ID h; hf_Name := hf_Name h; hf_Version := v; hf_GOOS := hf_GOOS h; hf_GOARCH := hf_GOARCH h; hf_Embedded := hf_Embedded h;
     hf_Healthy := hf_Healthy h; hf_CanSelfUpdate := hf_CanSelfUpdate h; hf_WhyNot := hf_WhyNot h; hf_ActiveRunners := hf_ActiveRunners h;
     hf_Open := None; hf_Ended := done_ :: hf_Ended h |}.
Definition took (id v : string) (done_ : Attempt) (h : HostFacts) : HostFacts := if str_eqb (hf_ID h) id then host_taken v done_ h else h.
Definition at_time (now : Time) (s : updates_Snapshot) : updates_Snapshot :=
  {| us_Now := now; us_Mode := us_Mode s; us_Soak := us_Soak s; us_Running := us_Running s; us_GOOS := us_GOOS s; us_GOARCH := us_GOARCH s;
     us_Releases := us_Releases s; us_Helper := us_Helper s; us_HelperWhyNot := us_HelperWhyNot s; us_Fenced := us_Fenced s;
     us_HostGraceUntil := us_HostGraceUntil s; us_Controller := us_Controller s; us_ControllerEnded := us_ControllerEnded s;
     us_Rollout := us_Rollout s; us_LastRollout := us_LastRollout s; us_Hosts := us_Hosts s |}.
Definition after_update (s : updates_Snapshot) (id v : string) (done_ : Attempt) (now : Time) : updates_Snapshot :=
  at_time now (with_lists s (took id v done_ <$> us_Hosts s) (us_Releases s)).

(** A pass asks a host to update itself, and by a later one it has. *)
Inductive host_succeeds (s : updates_Snapshot) : updates_Snapshot -> Prop :=
| succeeds a v done_ now :
    a ∈ up_Actions (updates_Decide s) -> ua_Kind a = ActionUpdateHost ->
    failed (an_State done_) = false -> strings_TrimSpace v <> "" -> HostSkew v (ua_Tag a) = SkewNone -> us_Now s <= now ->
    host_succeeds s (after_update s (ua_HostID a) v done_ now).

(** The hosts still to be updated. *)
Definition to_go (s : updates_Snapshot) : nat := length (List.filter (is_ready (newPlanner s)) (pl_hosts (newPlanner s))).

(** A rollout to the controller's release is running, nothing is under way or has failed, no
    host must be waited for, and the controller has no release of its own to take first. *)
Record rolling (s : updates_Snapshot) (r : Rollout) : Prop := {
  ri_free : us_Fenced s = false;
  ri_rollout : us_Rollout s = Some r;
  ri_running : ro_State r = rolloutRunning;
  ri_valid : ValidTarget (ro_Target r) = true;
  ri_nonempty : default "" (HostTarget (us_Running s)) <> "";
  ri_same : CompareTargets (ro_Target r) (default "" (HostTarget (us_Running s))) = SkewNone;
  ri_mode : us_Mode s = ModeManual /\ ro_Trigger r = triggerManual \/ us_Mode s = ModeAuto /\ tg_Newer (pl_choice (newPlanner s)) = false;
  ri_ids : NoDup (hf_ID <$> us_Hosts s);
  ri_open : nothing_open (newPlanner s);
  ri_whole : forall h, h ∈ us_Hosts s -> member (newPlanner s) h = true -> failedIn r h = false;
  ri_pending : forall h, h ∈ us_Hosts s -> is_pending (newPlanner s) h = false
}.

Lemma rolling_rollout s r : rolling s r -> pl_rollout (newPlanner s) = Some r.
Proof. intros H. cbn. rewrite (ri_rollout s r H). unfold is_open_rollout. by rewrite (ri_running s r H). Qed.

Lemma timeOuts_none p : nothing_open p -> timeOuts p = p.
Proof.
  intros [Hc Hh]. unfold timeOuts. rewrite Hc. cbn zeta. destruct (Time_Before _ _); [done|].
  assert (forall l, (forall h, h ∈ l -> hostAttempt h = None) -> foldl timeOutHost p l = p) as H; [|by apply H].
  intros l. induction l as [|h l IH]; intros Hl; cbn [foldl]; [done|]. unfold timeOutHost at 2. rewrite (Hl h) by left. apply IH. intros h' Hh'. apply Hl. by right.
Qed.

(** While it rolls, a pass updates the first host that is ready, and finishes the rollout when there is none. *)
Lemma rolling_pass s r : rolling s r ->
  match List.find (is_ready (newPlanner s)) (pl_hosts (newPlanner s)) with
  | Some h => exists a, up_Actions (updates_Decide s) = [a] /\ ua_Kind a = ActionUpdateHost /\ ua_HostID a = hf_ID h /\ ua_Tag a = pl_target (newPlanner s)
  | None => exists a, up_Actions (updates_Decide s) = [a] /\ ua_Kind a = ActionFinishRollout
  end.
Proof.
  intros H. pose proof (rolling_rollout s r H) as Hr. pose proof (ri_open s r H) as Hq. rewrite <- surveyed_ready.
  assert (Hcarry : updates_Decide s = pl_plan (carryOn (newPlanner s))).
  { unfold updates_Decide. rewrite (ri_free s r H), timeOuts_none by done.
    destruct (ri_mode s r H) as [[-> Ht]|[-> _]]; [|done]. rewrite Hr, Ht. unfold str_eqb. by rewrite bool_decide_eq_true_2. }
  rewrite Hcarry. set (p := newPlanner s) in *. unfold carryOn.
  pose proof (halt_spec p) as Hhalt. assert (halt p = (false, p)) as ->.
  { clear Hhalt. unfold halt. rewrite Hr, (ri_running s r H). cbn [negb]. destruct (List.find _ _) as [h|] eqn:E; [|done].
    apply find_some in E as [Hin E]. apply andb_true_iff in E as [Hm Hf]. rewrite (ri_whole s r H h) in Hf; [done| |done].
    apply newPlanner_hosts. by apply list_elem_of_In. }
  assert (halted p = (false, p)) as -> by (unfold halted; by rewrite Hr, (ri_running s r H)).
  assert ((if bool_decide (us_Mode (pl_s p) = ModeAuto) then controller p else (false, p)) = (false, p)) as ->.
  { change (us_Mode (pl_s p)) with (us_Mode s). destruct (ri_mode s r H) as [[-> _]|[-> Hn]]; [done|]. rewrite bool_decide_eq_true_2 by done.
    unfold controller, DueBy. fold p in Hn. by rewrite Hn, orb_true_r. }
  unfold moveHosts. rewrite Hr. unfold advance. change (pl_target p) with (default "" (HostTarget (us_Running s))).
  rewrite (ri_valid s r H), (ri_same s r H), (proj2 (blocked_None p)) by done. cbn [negb].
  destruct (str_eqb _ "") eqn:Hne; [by apply str_eqb_eq, (ri_nonempty s r H) in Hne|]. unfold is_skew. rewrite bool_decide_eq_false_2 by done. cbn [andb].
  destruct (sv_ready (surveyed p)) as [h|]; [by eexists|].
  assert (sv_pending (surveyed p) = "") as ->; [|by eexists]. apply surveyed_pending, Forall_forall. intros h Hh. apply (ri_pending s r H), newPlanner_hosts, Hh.
Qed.

(** *** What an update of one host leaves as it was *)
Lemma sort_map {A} (cmp : A -> A -> comparison) (f : A -> A) l : (forall x y, cmp (f x) (f y) = cmp x y) -> SortStableFunc cmp (f <$> l) = f <$> SortStableFunc cmp l.
Proof.
  intros Hf. unfold SortStableFunc.
  assert (forall x acc, sort_insert cmp (f x) (f <$> acc) = f <$> sort_insert cmp x acc) as Hi.
  { intros x acc. induction acc as [|y acc IH]; cbn; [done|]. rewrite Hf. destruct (cmp x y); cbn; by rewrite ?IH. }
  assert (forall acc, fold_left (fun acc x => sort_insert cmp x acc) (f <$> l) (f <$> acc) = f <$> fold_left (fun acc x => sort_insert cmp x acc) l acc) as H; [|apply (H [])].
  induction l as [|x l IH]; intros acc; cbn; [done|]. by rewrite Hi, IH.
Qed.

Section OneUpdate.
Context (s : updates_Snapshot) (r : Rollout) (h0 : HostFacts) (v : string) (done_ : Attempt) (now : Time).
Context (Hroll : rolling s r) (Hh0 : h0 ∈ us_Hosts s) (Hready : is_ready (newPlanner s) h0 = true).
Context (Hdone : failed (an_State done_) = false) (Hv : strings_TrimSpace v <> "") (Hskew : HostSkew v (pl_target (newPlanner s)) = SkewNone).
Context (Hnow : us_Now s <= now).
Let p := newPlanner s.
Let g := took (hf_ID h0) v done_.
Let s' := after_update s (hf_ID h0) v done_ now.
Let p' := newPlanner s'.

Lemma took_ID h : hf_ID (g h) = hf_ID h.
Proof. unfold g, took. by destruct (str_eqb _ _). Qed.

Lemma hosts_taken : pl_hosts p' = g <$> pl_hosts p.
Proof.
  unfold p', s', p. cbn. apply sort_map. intros x y. unfold host_order, cmp_lex, cmp_on, g, took.
  by destruct (str_eqb (hf_ID x) (hf_ID h0)), (str_eqb (hf_ID y) (hf_ID h0)).
Qed.

Lemma carries_taken h : carriesBinaryFor p' h = carriesBinaryFor p h.
Proof. reflexivity. Qed.

Lemma later_waits t : retryWaits p t = false -> retryWaits p' t = false.
Proof.
  unfold retryWaits, Time_Before. cbn. rewrite !andb_false_iff, !negb_false_iff, !Z.ltb_ge. intros [?|?]; [by left|right]. lia.
Qed.

(** A host that did not have to be waited for stands where it stood. *)
Lemma assess_later h : (assess p h).1 <> standPending -> (assess p' h).1 = (assess p h).1.
Proof.
  unfold assess. change (pl_target p') with (pl_target p). rewrite carries_taken.
  destruct (str_eqb (strings_TrimSpace _) ""); [done|]. destruct (_ && _); [done|]. destruct (_ && _); [done|].
  destruct (HostSkew (hf_Version h) (pl_target p)); [done| |done|done]. destruct (hf_Embedded h); [done|]. destruct (negb (hf_CanSelfUpdate h)); [done|].
  destruct (negb (carriesBinaryFor p h)); [done|]. destruct (failures _ _ _) as [n t]. destruct (_ <=? _); [done|].
  destruct (negb (hf_Healthy h)); [done|]. destruct (_ && _); [done|]. destruct (retryWaits p t) eqn:E; [done|]. by rewrite (later_waits t E).
Qed.

Lemma member_later h : member p' (g h) = member p h.
Proof. unfold member. change (pl_rollout p') with (pl_rollout p). by rewrite took_ID. Qed.

Lemma assess_taken h : hf_ID h = hf_ID h0 -> (assess p' (g h)).1 = standCurrent.
Proof.
  intros E. unfold g, took, str_eqb. rewrite bool_decide_eq_true_2 by done. unfold assess. cbn [hf_Version host_taken].
  change (pl_target p') with (pl_target p). fold p in Hskew. rewrite Hskew. unfold str_eqb. rewrite bool_decide_eq_false_2 by done.
  unfold is_skew. rewrite (bool_decide_eq_false_2 (SkewNone = SkewDiffers)) by done. rewrite andb_false_r.
  destruct (IsMainBuild (pl_target p)) eqn:Hm; cbn [negb andb]; [done|]. case_bool_decide as Ht; [|done].
  unfold HostSkew in Hskew. rewrite Hm, Ht in Hskew. discriminate.
Qed.

Lemma ready_later h : is_pending p h = false -> is_ready p' (g h) = is_ready p h && negb (str_eqb (hf_ID h) (hf_ID h0)).
Proof.
  unfold is_ready, is_pending. rewrite member_later. destruct (member p h); cbn [andb]; [|done]. rewrite bool_decide_eq_false. intros Hp.
  destruct (str_eqb (hf_ID h) (hf_ID h0)) eqn:E; cbn [negb].
  - apply str_eqb_eq in E. by rewrite assess_taken, andb_false_r by done.
  - unfold g, took. rewrite E, andb_true_r. by rewrite assess_later.
Qed.

Lemma pending_later h : is_pending p h = false -> is_pending p' (g h) = false.
Proof.
  unfold is_pending. rewrite member_later. destruct (member p h); cbn [andb]; [|done]. rewrite !bool_decide_eq_false. intros Hp.
  destruct (str_eqb (hf_ID h) (hf_ID h0)) eqn:E.
  - apply str_eqb_eq in E. by rewrite assess_taken.
  - unfold g, took. rewrite E. by rewrite assess_later.
Qed.

Lemma count_one (l : list HostFacts) (f : HostFacts -> bool) : NoDup (hf_ID <$> l) -> h0 ∈ l -> f h0 = true ->
  length (List.filter f l) = S (length (List.filter (fun h => f h && negb (str_eqb (hf_ID h) (hf_ID h0))) l)).
Proof.
  intros Hnd Hin Hf. induction l as [|x l IH]; [by apply elem_of_nil in Hin|]. rewrite fmap_cons, NoDup_cons in Hnd. destruct Hnd as [Hx Hnd].
  cbn [List.filter]. apply elem_of_cons in Hin as [<-|Hin].
  - unfold str_eqb at 1. rewrite Hf, bool_decide_eq_true_2 by done. cbn [andb negb length]. f_equal. f_equal. apply List.filter_ext_in.
    intros y Hy. unfold str_eqb. rewrite bool_decide_eq_false_2; [by rewrite andb_true_r|]. intros E. apply Hx. rewrite <- E.
    apply list_elem_of_fmap_2. by apply list_elem_of_In.
  - unfold str_eqb at 1. rewrite (bool_decide_eq_false_2 (hf_ID x = hf_ID h0)).
    2: { intros E. apply Hx. rewrite E. by apply list_elem_of_fmap_2. }
    rewrite andb_true_r. destruct (f x); cbn [length]; by rewrite IH.
Qed.

Lemma filter_map {A B} (f : A -> B) (q : B -> bool) l : List.filter q (f <$> l) = f <$> List.filter (fun x => q (f x)) l.
Proof. induction l as [|x l IH]; cbn; [done|]. rewrite IH. by destruct (q (f x)). Qed.

Lemma one_fewer : to_go s = S (to_go s').
Proof.
  unfold to_go. fold p p'. rewrite hosts_taken, filter_map, length_fmap.
  rewrite (count_one (pl_hosts p) (is_ready p)); [|change (pl_hosts p) with (SortStableFunc host_order (us_Hosts s)); rewrite (sort_perm host_order (us_Hosts s)); exact (ri_ids s r Hroll)|by apply newPlanner_hosts|done].
  do 2 f_equal. apply List.filter_ext_in. intros h Hh%list_elem_of_In. symmetry. apply ready_later.
  apply (ri_pending s r Hroll). by apply newPlanner_hosts.
Qed.

Lemma failed_later h : failedIn r (g h) = failedIn r h.
Proof.
  unfold failedIn, g, took. destruct (str_eqb _ _); [|done]. cbn [hf_Ended host_taken existsb]. rewrite Hdone, andb_false_r. reflexivity.
Qed.

Lemma newer_at_any_time : tg_Newer (pl_choice p') = tg_Newer (pl_choice p).
Proof. apply Newer_any_time. Qed.

Lemma rolling_later : rolling s' r.
Proof.
  destruct Hroll as [H1 H2 H3 H4 H6 H7 H8 H9 H10 H11 H12].
  assert (Hall : forall (P : HostFacts -> Prop), (forall h, h ∈ us_Hosts s -> P (g h)) -> forall h, h ∈ us_Hosts s' -> P h).
  { intros P HP h Hh. apply list_elem_of_fmap in Hh as (x & -> & Hx). by apply HP. }
  split; try done.
  - destruct H8 as [H8|[Hm Hn]]; [by left|right]. split; [done|]. pose proof newer_at_any_time as E. fold p' p in E, Hn |- *. by rewrite E.
  - unfold s'. cbn. rewrite <- list_fmap_compose. erewrite list_fmap_ext; [exact H9|]. intros i h _. apply took_ID.
  - destruct H10 as [Hc Hq]. split; [exact Hc|]. intros h Hh. apply newPlanner_hosts in Hh. revert h Hh. refine (Hall (fun h => hostAttempt h = None) _). intros h Hh.
    unfold g, took. destruct (str_eqb _ _); [done|]. apply Hq. by apply newPlanner_hosts.
  - refine (Hall (fun h => member p' h = true -> failedIn r h = false) _). intros h Hh. rewrite member_later, failed_later. by apply H11.
  - refine (Hall (fun h => is_pending p' h = false) _). intros h Hh. apply pending_later. by apply H12.
Qed.
End OneUpdate.

(** C40: A rollout reaches every host and ends.  Started with nothing under way, nothing
    failed and no host to wait for, it asks one host after another, and if each takes its
    update, at whatever times, then after as many passes as there were hosts to update, and
    not before, it is finished; no pass of it is idle. *)
Theorem rollout_reaches_every_host s r n s' : rolling s r -> nsteps host_succeeds n s s' ->
  (n + to_go s')%nat = to_go s /\
  exists a, up_Actions (updates_Decide s') = [a] /\
    ua_Kind a = if decide (n = to_go s) then ActionFinishRollout else ActionUpdateHost.
Proof.
  intros Hroll Hn. assert (rolling s' r /\ (n + to_go s')%nat = to_go s) as [Hr' Hgo].
  { revert Hroll. induction Hn as [s|n s s1 s2 H1 _ IH]; intros Hroll; [done|].
    destruct H1 as [a v done_ now Ha Hk Hd Hv Hskew Hnow]. pose proof (rolling_pass s r Hroll) as Hpass.
    destruct (List.find _ _) as [h|] eqn:Hf.
    - destruct Hpass as (b & E & Hkb & Hid & Htag). rewrite E in Ha. apply list_elem_of_singleton in Ha as ->. rewrite Hid, Htag in *.
      apply find_some in Hf as [Hin Hrdy]. assert (h ∈ us_Hosts s) as Hh by (apply newPlanner_hosts; by apply list_elem_of_In).
      destruct IH as [Hr2 Hgo]; [by apply (rolling_later s r h)|]. split; [done|].
      rewrite (one_fewer s r h v done_ now) by done. cbn [Nat.add]. by f_equal.
    - destruct Hpass as (b & E & Hkb). rewrite E in Ha. apply list_elem_of_singleton in Ha as ->. congruence. }
  split; [done|]. pose proof (rolling_pass s' r Hr') as Hpass. destruct (List.find _ _) as [h|] eqn:Hf.
  - destruct Hpass as (a & E & Hk & _). exists a. split; [done|]. rewrite Hk. destruct (decide _) as [En|]; [|done]. exfalso.
    apply find_some in Hf as [Hin Hrdy]. assert (to_go s' = 0%nat) as E0 by lia. unfold to_go in E0. apply length_zero_iff_nil in E0.
    assert (h ∈ List.filter (is_ready (newPlanner s')) (pl_hosts (newPlanner s'))) as Hin2 by (apply elem_of_bfilter; split; [by apply list_elem_of_In|done]).
    rewrite E0 in Hin2. by apply elem_of_nil in Hin2.
  - destruct Hpass as (a & E & Hk). exists a. split; [done|]. rewrite Hk. destruct (decide _) as [|En]; [done|]. exfalso. apply En.
    assert (to_go s' = 0%nat) as E0; [|lia]. unfold to_go. rewrite length_zero_iff_nil. apply elem_of_nil_inv. intros h [Hin Hrdy]%elem_of_bfilter.
    apply list_elem_of_In in Hin. pose proof (find_none _ _ Hf h Hin). congruence.
Qed.
