(* ===== verification/Json.v ===== *)
(** * Reading JSON (Go's encoding/json, as the webhook handler uses it)

    [document] is the syntax [json.Unmarshal] accepts, read into a tree; [field] and the
    [as_…] readers are how it fills a struct: a member is matched to a field by name, any
    case, each in turn; [null] leaves a field as it is; a value of another kind fails the
    whole call.  [time_Parse_RFC3339] is how a timestamp is read. *)
From Stdlib Require Import ZArith Lia String Ascii.
From stdpp Require Import base strings list.
From S2P Require Import Prelude GoFloat GoString GoText.
Local Open Scope string_scope.
Local Open Scope list_scope.
Local Open Scope Z_scope.

(** A number is kept as an integer where its text is one. *)
Inductive json :=
  | JNull
  | JBool (b : bool)
  | JInt (n : Z)
  | JReal (literal : string)
  | JStr (s : string)
  | JArr (l : list json)
  | JObj (members : list (string * json)).

(** ** Syntax *)

Definition is_blank (a : ascii) : bool := let b := byte_of a in (b =? 32) || (b =? 9) || (b =? 10) || (b =? 13).
Definition is_dig (a : ascii) : bool := match digit_val a with Some _ => true | None => false end.

Fixpoint skip_blank (l : list ascii) : list ascii :=
  match l with a :: l' => if is_blank a then skip_blank l' else l | [] => [] end.

(** What follows a literal word. *)
Fixpoint after (w l : list ascii) : option (list ascii) :=
  match w, l with
  | [], _ => Some l
  | a :: w', b :: l' => if bool_decide (a = b) then after w' l' else None
  | _, _ => None
  end.

Fixpoint take_digits (l : list ascii) : list ascii * list ascii :=
  match l with
  | a :: l' => if is_dig a then let '(ds, rest) := take_digits l' in (a :: ds, rest) else ([], l)
  | [] => ([], [])
  end.

(** A number: a sign, an integer with no leading zero, a fraction and an exponent. *)
Definition minus_sign (l : list ascii) : list ascii * list ascii :=
  match l with a :: l' => if bool_decide (a = "-"%char) then ([a], l') else ([], l) | [] => ([], []) end.
Definition fraction (l : list ascii) : option (list ascii * list ascii) :=
  match l with
  | a :: l' => if bool_decide (a = "."%char)
               then let '(ds, rest) := take_digits l' in match ds with [] => None | _ => Some (a :: ds, rest) end
               else Some ([], l)
  | [] => Some ([], [])
  end.
Definition exponent (l : list ascii) : option (list ascii * list ascii) :=
  match l with
  | a :: l' =>
      if bool_decide (a = "e"%char) || bool_decide (a = "E"%char)
      then let '(sign, l1) := match l' with
                              | b :: l2 => if bool_decide (b = "+"%char) || bool_decide (b = "-"%char) then ([b], l2) else ([], l')
                              | [] => ([], [])
                              end in
           let '(ds, rest) := take_digits l1 in
           match ds with [] => None | _ => Some (a :: sign ++ ds, rest) end
      else Some ([], l)
  | [] => Some ([], [])
  end.
Definition number (l : list ascii) : option (json * list ascii) :=
  let '(sign, l1) := minus_sign l in
  let '(ds, l2) := take_digits l1 in
  match ds with
  | [] => None
  | d :: more =>
      if bool_decide (d = "0"%char) && negb (Nat.eqb (length more) 0) then None
      else match fraction l2 with
           | None => None
           | Some (f, l3) =>
               match exponent l3 with
               | None => None
               | Some (e, rest) =>
                   match f ++ e, digits_val 0 ds with
                   | [], Some n => Some (JInt (match sign with [] => n | _ => - n end), rest)
                   | _, _ => Some (JReal (string_of_list_ascii (sign ++ ds ++ f ++ e)), rest)
                   end
               end
           end
  end.

Definition hex_val (a : ascii) : option Z :=
  let b := byte_of a in
  if (48 <=? b) && (b <=? 57) then Some (b - 48)
  else if (97 <=? b) && (b <=? 102) then Some (b - 87)
  else if (65 <=? b) && (b <=? 70) then Some (b - 55) else None.
Definition hex4 (l : list ascii) : option (Z * list ascii) :=
  match l with
  | a :: b :: c :: d :: rest =>
      match hex_val a, hex_val b, hex_val c, hex_val d with
      | Some x, Some y, Some z, Some t => Some (((x * 16 + y) * 16 + z) * 16 + t, rest)
      | _, _, _, _ => None
      end
  | _ => None
  end.

(** The rune a [\u] escape stands for: half of a surrogate pair takes the other half with
    it, and without it is U+FFFD. *)
Definition unicode_escape (l : list ascii) : option (list Z * list ascii) :=
  match hex4 l with
  | None => None
  | Some (u, rest) =>
      if negb ((55296 <=? u) && (u <=? 57343)) then Some (utf8_encode1 u, rest)
      else match rest with
           | a :: b :: rest' =>
               if bool_decide (a = "092"%char) && bool_decide (b = "u"%char)
               then match hex4 rest' with
                    | Some (v, rest2) =>
                        if (u <=? 56319) && (56320 <=? v) && (v <=? 57343)
                        then Some (utf8_encode1 (65536 + (u - 55296) * 1024 + (v - 56320)), rest2)
                        else Some (utf8_encode1 rune_error, rest)
                    | None => Some (utf8_encode1 rune_error, rest)
                    end
               else Some (utf8_encode1 rune_error, rest)
           | _ => Some (utf8_encode1 rune_error, rest)
           end
  end.
Definition simple_escape (a : ascii) : option Z :=
  if bool_decide (a ∈ ["034"; "092"; "/"]%char) then Some (byte_of a)
  else if bool_decide (a = "b"%char) then Some 8 else if bool_decide (a = "f"%char) then Some 12
  else if bool_decide (a = "n"%char) then Some 10 else if bool_decide (a = "r"%char) then Some 13
  else if bool_decide (a = "t"%char) then Some 9 else None.

(** The bytes of a string, after its opening quote. *)
Fixpoint string_body (fuel : nat) (l : list ascii) : option (list Z * list ascii) :=
  match fuel, l with
  | S fuel', a :: l' =>
      if bool_decide (a = "034"%char) then Some ([], l')
      else if bool_decide (a = "092"%char)
      then match l' with
           | b :: l2 =>
               match (if bool_decide (b = "u"%char) then unicode_escape l2
                      else match simple_escape b with Some c => Some ([c], l2) | None => None end) with
               | Some (bs, rest) => match string_body fuel' rest with Some (more, end_) => Some (bs ++ more, end_) | None => None end
               | None => None
               end
           | [] => None
           end
      else if byte_of a <? 32 then None
      else match string_body fuel' l' with Some (more, end_) => Some (byte_of a :: more, end_) | None => None end
  | _, _ => None
  end.
(** Bytes that are not UTF-8 are read as U+FFFD. *)
Definition quoted (l : list ascii) : option (string * list ascii) :=
  match l with
  | a :: l' => if bool_decide (a = "034"%char)
               then match string_body (length l) l' with
                    | Some (bs, rest) => Some (strings_Map id (of_bytes bs), rest)
                    | None => None
                    end
               else None
  | [] => None
  end.

(** [maxNestingDepth]. *)
Definition max_depth : nat := 10000.

Fixpoint value (fuel depth : nat) (l : list ascii) : option (json * list ascii) :=
  match fuel with
  | O => None
  | S fuel' =>
      match skip_blank l with
      | [] => None
      | a :: l' =>
          if bool_decide (a = "034"%char) then match quoted (a :: l') with Some (s, rest) => Some (JStr s, rest) | None => None end
          else if bool_decide (a = "{"%char) then
            match depth with
            | O => None
            | S depth' =>
                match skip_blank l' with
                | b :: rest => if bool_decide (b = "}"%char) then Some (JObj [], rest)
                               else match members fuel' depth' l' with Some (ms, rest) => Some (JObj ms, rest) | None => None end
                | [] => None
                end
            end
          else if bool_decide (a = "["%char) then
            match depth with
            | O => None
            | S depth' =>
                match skip_blank l' with
                | b :: rest => if bool_decide (b = "]"%char) then Some (JArr [], rest)
                               else match elements fuel' depth' l' with Some (vs, rest) => Some (JArr vs, rest) | None => None end
                | [] => None
                end
            end
          else match after (chars "null") (a :: l'), after (chars "true") (a :: l'), after (chars "false") (a :: l') with
               | Some rest, _, _ => Some (JNull, rest)
               | _, Some rest, _ => Some (JBool true, rest)
               | _, _, Some rest => Some (JBool false, rest)
               | _, _, _ => number (a :: l')
               end
      end
  end
with elements (fuel depth : nat) (l : list ascii) : option (list json * list ascii) :=
  match fuel with
  | O => None
  | S fuel' =>
      match value fuel' depth l with
      | None => None
      | Some (v, l1) =>
          match skip_blank l1 with
          | a :: l2 =>
              if bool_decide (a = ","%char)
              then match elements fuel' depth l2 with Some (vs, rest) => Some (v :: vs, rest) | None => None end
              else if bool_decide (a = "]"%char) then Some ([v], l2) else None
          | [] => None
          end
      end
  end
with members (fuel depth : nat) (l : list ascii) : option (list (string * json) * list ascii) :=
  match fuel with
  | O => None
  | S fuel' =>
      match quoted (skip_blank l) with
      | None => None
      | Some (k, l0) =>
          match skip_blank l0 with
          | c :: l1 =>
              if bool_decide (c = ":"%char) then
                match value fuel' depth l1 with
                | None => None
                | Some (v, l2) =>
                    match skip_blank l2 with
                    | a :: l3 =>
                        if bool_decide (a = ","%char)
                        then match members fuel' depth l3 with Some (ms, rest) => Some ((k, v) :: ms, rest) | None => None end
                        else if bool_decide (a = "}"%char) then Some ([(k, v)], l3) else None
                    | [] => None
                    end
                end
              else None
          | [] => None
          end
      end
  end.

(** A text that is one value and nothing else.  Two steps are spent for each byte at most. *)
Definition document (s : string) : option json :=
  let l := chars s in
  match value (2 * length l + 2) max_depth l with
  | Some (v, rest) => match skip_blank rest with [] => Some v | _ => None end
  | None => None
  end.

(** ** Filling a struct *)

(** A name as it is matched: case folded, with the long s and the Kelvin sign. *)
Definition fold_name (s : string) : string := strings_Map (fun r => if r =? 383 then 115 else unicode_ToLower r) s.
Definition same_name (a b : string) : bool := str_eqb (fold_name a) (fold_name b).

(** A struct's field, from the members of an object in their order. *)
Definition field {A} (ms : list (string * json)) (name : string) (read : json -> A -> option A) (old : A) : option A :=
  fold_left (fun acc m => match acc with
                          | Some x => if same_name (fst m) name then read (snd m) x else Some x
                          | None => None
                          end) ms (Some old).

Definition as_string (v : json) (old : string) : option string :=
  match v with JStr s => Some s | JNull => Some old | _ => None end.
Definition as_int64 (v : json) (old : Z) : option Z :=
  match v with JInt n => if (int_min <=? n) && (n <=? int_max) then Some n else None | JNull => Some old | _ => None end.
Definition as_struct {A} (read : list (string * json) -> A -> option A) (v : json) (old : A) : option A :=
  match v with JObj ms => read ms old | JNull => Some old | _ => None end.
(** A repeated array starts afresh. *)
Definition as_slice {A} (read : json -> A -> option A) (zero : A) (v : json) (old : list A) : option (list A) :=
  match v with JArr l => mapM (fun v => read v zero) l | JNull => Some [] | _ => None end.

(** ** Timestamps *)

(** The number at the front of a text, of one to [most] digits. *)
Definition getnum (least most : nat) (l : list ascii) : option (Z * list ascii) :=
  let ds := fst (take_digits (take most l)) in
  if Nat.ltb (length ds) least then None
  else match digits_val 0 ds with Some n => Some (n, drop (length ds) l) | None => None end.
Definition literally (c : ascii) (l : list ascii) : option (list ascii) := after [c] l.

Definition isLeap (y : Z) : bool := (y mod 4 =? 0) && (negb (y mod 100 =? 0) || (y mod 400 =? 0)).
Definition daysIn (y m : Z) : Z :=
  if m =? 2 then if isLeap y then 29 else 28 else if bool_decide (m ∈ [4; 6; 9; 11]) then 30 else 31.
(** Days from 1 January 1970 to a date of the Gregorian calendar. *)
Definition days_before_year (y : Z) : Z := 365 * y + (y - 1) / 4 - (y - 1) / 100 + (y - 1) / 400 - 719527.
Definition days_of (y m d : Z) : Z :=
  days_before_year y + fold_left (fun acc i => if i <? m then acc + daysIn y i else acc) (seqZ 1 11) 0 + d - 1.

(** Nanoseconds of a fraction: its first nine digits. *)
Definition nanos (ds : list ascii) : option Z :=
  match digits_val 0 (take 9 (ds ++ repeat "0"%char 9)) with Some n => Some n | None => None end.
Definition parse_fraction (l : list ascii) : option (Z * list ascii) :=
  match l with
  | c :: d :: _ =>
      if (bool_decide (c = "."%char) || bool_decide (c = ","%char)) && is_dig d
      then let '(ds, rest) := take_digits (drop 1 l) in match nanos ds with Some n => Some (n, rest) | None => None end
      else Some (0, l)
  | _ => Some (0, l)
  end.
(** Seconds east of UTC. *)
Definition parse_zone (l : list ascii) : option Z :=
  match l with
  | [] => None
  | z :: l' =>
      if bool_decide (z = "Z"%char) then if Nat.eqb (length l') 0 then Some 0 else None
      else if bool_decide (z = "+"%char) || bool_decide (z = "-"%char) then
        match getnum 2 2 l' with
        | Some (h, l1) =>
            match literally ":" l1 with
            | Some l2 => match getnum 2 2 l2 with
                         | Some (m, []) => if (h <=? 24) && (m <=? 60)
                                           then Some ((if bool_decide (z = "-"%char) then -1 else 1) * (h * 3600 + m * 60)) else None
                         | _ => None
                         end
            | None => None
            end
        | None => None
        end
      else None
  end.

(** The instant a text names, in nanoseconds from 1970; the zero time is 0. *)
Definition zero_time_seconds : Z := -62135596800.
Definition time_Parse_RFC3339 (s : string) : option Time :=
  '(year, l) ← getnum 4 4 (chars s); l ← literally "-" l;
  '(month, l) ← getnum 2 2 l; l ← literally "-" l;
  '(day, l) ← getnum 2 2 l; l ← literally "T" l;
  '(hour, l) ← getnum 1 2 l; l ← literally ":" l;
  '(minute, l) ← getnum 2 2 l; l ← literally ":" l;
  '(second, l) ← getnum 2 2 l;
  '(ns, l) ← parse_fraction l;
  zone ← parse_zone l;
  if (1 <=? month) && (month <=? 12) && (1 <=? day) && (day <=? daysIn year month) &&
     (hour <? 24) && (minute <? 60) && (second <? 60)
  then let seconds := days_of year month day * 86400 + hour * 3600 + minute * 60 + second - zone in
       Some (if (seconds =? zero_time_seconds) && (ns =? 0) then 0 else seconds * 1000000000 + ns)
  else None.

(** A field that is a pointer to a time. *)
Definition as_time (v : json) (old : option Time) : option (option Time) :=
  match v with JStr s => Some <$> time_Parse_RFC3339 s | JNull => Some None | _ => None end.
