(* ===== verification/Webhook.v ===== *)
(** * Webhook deliveries (github/webhook.go, controller/webhooks.go)

    GitHub posts a delivery; [HandleWebhook] finds the secret it should have been signed
    with, checks the signature, and only then acts on the body.  [ParseWorkflowJob],
    [State] and [ToJob] read a workflow_job delivery into the row the jobs table keeps.
    The HMAC of the go-github library and the sealed box the secrets are kept in are what
    the class [Secrets] states of them; what is done with a delivery that verified is
    what [Handlers] says the rest of the controller answers. *)
From Stdlib Require Import ZArith Lia String Ascii.
From stdpp Require Import base strings list.
From S2P Require Import Prelude GoFloat GoString GoText Store Jobs RateLimit Json.
Local Open Scope string_scope.
Local Open Scope list_scope.
Local Open Scope Z_scope.

(** ** The event *)

Record WorkflowJobEvent := {
  ev_Action : string;
  ev_InstallationID : Z;
  ev_JobID : Z;
  ev_RunID : Z;
  ev_Repo : string;
  ev_WorkflowName : string;
  ev_JobName : string;
  ev_Labels : list string;
  ev_RunnerID : Z;
  ev_RunnerName : string;
  ev_Status : string;
  ev_Conclusion : string;
  ev_QueuedAt : Time;
  ev_StartedAt : Time;
  ev_CompletedAt : Time;
  ev_HTMLURL : string;
  ev_HeadBranch : string;
  ev_HeadSHA : string;
  ev_RunAttempt : Z;
  ev_Steps : list JobStep
}.

Record workflowJob := {
  wj_ID : Z;
  wj_RunID : Z;
  wj_WorkflowName : string;
  wj_Name : string;
  wj_Labels : list string;
  wj_RunnerID : Z;
  wj_RunnerName : string;
  wj_Status : string;
  wj_Conclusion : string;
  wj_CreatedAt : option Time;
  wj_StartedAt : option Time;
  wj_CompletedAt : option Time;
  wj_HTMLURL : string;
  wj_HeadBranch : string;
  wj_HeadSHA : string;
  wj_RunAttempt : Z;
  wj_Steps : list JobStep
}.
Definition no_workflowJob : workflowJob := Build_workflowJob 0 0 "" "" [] 0 "" "" "" None None None "" "" "" 0 [].
Definition no_step : JobStep := Build_JobStep 0 "" "" "" None None.

Record workflowJobPayload := { pl_Action : string; pl_WorkflowJob : workflowJob; pl_FullName : string; pl_InstallationID : Z }.

(** The struct tags: each field by the name it is sent under. *)
Definition read_step (ms : list (string * json)) (o : JobStep) : option JobStep :=
  number ← field ms "number" as_int64 (js_Number o); name ← field ms "name" as_string (js_Name o);
  status ← field ms "status" as_string (js_Status o); conclusion ← field ms "conclusion" as_string (js_Conclusion o);
  started ← field ms "started_at" as_time (js_StartedAt o); completed ← field ms "completed_at" as_time (js_CompletedAt o);
  Some (Build_JobStep number name status conclusion started completed).
Definition read_workflowJob (ms : list (string * json)) (o : workflowJob) : option workflowJob :=
  id ← field ms "id" as_int64 (wj_ID o); run ← field ms "run_id" as_int64 (wj_RunID o);
  workflow ← field ms "workflow_name" as_string (wj_WorkflowName o); name ← field ms "name" as_string (wj_Name o);
  labels ← field ms "labels" (as_slice as_string "") (wj_Labels o);
  runner ← field ms "runner_id" as_int64 (wj_RunnerID o); runnerName ← field ms "runner_name" as_string (wj_RunnerName o);
  status ← field ms "status" as_string (wj_Status o); conclusion ← field ms "conclusion" as_string (wj_Conclusion o);
  created ← field ms "created_at" as_time (wj_CreatedAt o); started ← field ms "started_at" as_time (wj_StartedAt o);
  completed ← field ms "completed_at" as_time (wj_CompletedAt o); url ← field ms "html_url" as_string (wj_HTMLURL o);
  branch ← field ms "head_branch" as_string (wj_HeadBranch o); sha ← field ms "head_sha" as_string (wj_HeadSHA o);
  attempt ← field ms "run_attempt" as_int64 (wj_RunAttempt o);
  steps ← field ms "steps" (as_slice (as_struct read_step) no_step) (wj_Steps o);
  Some (Build_workflowJob id run workflow name labels runner runnerName status conclusion created started completed url branch sha attempt steps).
Definition read_named {A} (name : string) (read : json -> A -> option A) (ms : list (string * json)) (o : A) : option A := field ms name read o.
Definition read_payload (ms : list (string * json)) (o : workflowJobPayload) : option workflowJobPayload :=
  action ← field ms "action" as_string (pl_Action o);
  job ← field ms "workflow_job" (as_struct read_workflowJob) (pl_WorkflowJob o);
  repo ← field ms "repository" (as_struct (read_named "full_name" as_string)) (pl_FullName o);
  inst ← field ms "installation" (as_struct (read_named "id" as_int64)) (pl_InstallationID o);
  Some (Build_workflowJobPayload action job repo inst).

Definition json_Unmarshal {A} (read : list (string * json) -> A -> option A) (zero : A) (body : string) : option A :=
  match document body with Some v => as_struct read v zero | None => None end.

Definition lower_trim (s : string) : string := strings_ToLower (strings_TrimSpace s).
Definition time_or_zero (t : option Time) : Time := match t with Some t => t | None => 0 end.

Definition ParseWorkflowJob (payload : string) : option WorkflowJobEvent :=
  match json_Unmarshal read_payload (Build_workflowJobPayload "" no_workflowJob "" 0) payload with
  | None => None
  | Some p =>
      let w := pl_WorkflowJob p in
      if wj_ID w =? 0 then None
      else Some {| ev_Action := lower_trim (pl_Action p); ev_InstallationID := pl_InstallationID p; ev_JobID := wj_ID w;
                   ev_RunID := wj_RunID w; ev_Repo := pl_FullName p; ev_WorkflowName := wj_WorkflowName w; ev_JobName := wj_Name w;
                   ev_Labels := wj_Labels w; ev_RunnerID := wj_RunnerID w; ev_RunnerName := wj_RunnerName w;
                   ev_Status := lower_trim (wj_Status w); ev_Conclusion := lower_trim (wj_Conclusion w);
                   ev_QueuedAt := time_or_zero (wj_CreatedAt w); ev_StartedAt := time_or_zero (wj_StartedAt w);
                   ev_CompletedAt := time_or_zero (wj_CompletedAt w); ev_HTMLURL := wj_HTMLURL w;
                   ev_HeadBranch := wj_HeadBranch w; ev_HeadSHA := wj_HeadSHA w; ev_RunAttempt := wj_RunAttempt w;
                   ev_Steps := map (fun st => Build_JobStep (js_Number st) (js_Name st) (lower_trim (js_Status st)) (lower_trim (js_Conclusion st))
                                                            (js_StartedAt st) (js_CompletedAt st)) (wj_Steps w) |}
  end.

Definition JobState_of (s : string) : option JobState :=
  if str_eqb s "waiting" then Some JobWaiting else if str_eqb s "queued" then Some JobQueued
  else if str_eqb s "in_progress" then Some JobInProgress else if str_eqb s "completed" then Some JobCompleted else None.

(** The action, else the status, else queued. *)
Definition State (e : WorkflowJobEvent) : JobState :=
  match JobState_of (ev_Action e), JobState_of (ev_Status e) with Some s, _ => s | None, Some s => s | None, None => JobQueued end.

Definition ToJob (e : WorkflowJobEvent) (now : Time) : JobRow :=
  let state := State e in
  {| jr_ID := ""; jr_GitHubJobID := ev_JobID e; jr_GitHubRunID := ev_RunID e; jr_Repo := ev_Repo e; jr_Workflow := ev_WorkflowName e;
     jr_JobName := ev_JobName e; jr_Labels := NormalizeLabels (ev_Labels e); jr_State := state;
     jr_Conclusion := if is_job state JobCompleted then ev_Conclusion e else "";
     jr_InstallationID := ""; jr_PoolID := ""; jr_RunnerID := ""; jr_RunnerName := ev_RunnerName e; jr_HTMLURL := ev_HTMLURL e;
     jr_QueuedAt := if ev_QueuedAt e =? 0 then now else ev_QueuedAt e;
     jr_StartedAt := if negb (is_job state JobQueued) && negb (is_job state JobWaiting) && negb (ev_StartedAt e =? 0)
                     then Some (ev_StartedAt e) else None;
     jr_CompletedAt := if is_job state JobCompleted then Some (if ev_CompletedAt e =? 0 then now else ev_CompletedAt e) else None;
     jr_Matched := false; jr_EligibleAt := None; jr_HeadBranch := ev_HeadBranch e; jr_HeadSHA := ev_HeadSHA e;
     jr_RunAttempt := ev_RunAttempt e; jr_RunNumber := 0; jr_Steps := ev_Steps e; jr_RunnerFault := ""; jr_FaultKind := "";
     jr_Provisioning := ""; jr_ProvisionNow := false; jr_CancelRequestedAt := None; jr_ControllerVersion := "";
     jr_ControllerChannel := ""; jr_AgentVersion := ""; jr_HostID := "" |}.

(** ** Installations *)

Inductive TargetType := TargetOrg | TargetRepo.
Record Installation := {
  in_ID : string;
  in_Target : string;
  in_TargetType : TargetType;
  in_WebhookSecretEnc : string;
  in_CreatedAt : Time
}.
#[export] Instance TargetType_eq_dec : EqDecision TargetType.
Proof. solve_decision. Defined.
#[export] Instance Installation_eq_dec : EqDecision Installation.
Proof. solve_decision. Defined.

(** SQLite's LOWER, of ASCII letters only. *)
Definition sql_lower (s : string) : string :=
  of_bytes (map (fun b => if (65 <=? b) && (b <=? 90) then b + 32 else b) (bytes s)).
(** The part of a repository's name before its slash, where something is. *)
Definition owner_part (repo : string) : string :=
  match strings_Cut repo "/" with (before, _, true) => if str_eqb before "" then repo else before | _ => repo end.
Definition covers (repo : string) (i : Installation) : bool :=
  match in_TargetType i with
  | TargetRepo => str_eqb (sql_lower (in_Target i)) (strings_ToLower repo)
  | TargetOrg => str_eqb (sql_lower (in_Target i)) (strings_ToLower (owner_part repo))
  end.
Definition type_rank (t : TargetType) : Z := match t with TargetRepo => 0 | TargetOrg => 1 end.
Definition preferred : Installation -> Installation -> comparison :=
  cmp_lex (cmp_on (fun i => type_rank (in_TargetType i)) Z.compare) (cmp_lex (cmp_on in_CreatedAt Z.compare) (cmp_on in_ID strings_Compare)).

Definition FindInstallationByTarget (table : list Installation) (repo : string) : option Installation :=
  head (SortStableFunc preferred (List.filter (covers repo) table)).
Definition ListInstallations (table : list Installation) : list Installation := SortStableFunc (cmp_on in_CreatedAt Z.compare) table.

(** What a lookup answers: an installation, that none covers the repository, or an error of the store. *)
Inductive Lookup := Covers (i : Installation) | NotCovered | LookupFailed.

Record deliveryOwner := { do_repo : string; do_inst : option Installation; do_settled : bool }.
Definition newDeliveryOwner : deliveryOwner := {| do_repo := ""; do_inst := None; do_settled := false |}.
Definition owner_of (ask : string -> Lookup) (o : deliveryOwner) (repo : string) : Lookup * deliveryOwner :=
  if do_settled o && str_eqb (do_repo o) repo
  then (match do_inst o with Some i => Covers i | None => NotCovered end, o)
  else match ask repo with
       | Covers i => (Covers i, {| do_repo := repo; do_inst := Some i; do_settled := true |})
       | NotCovered => (NotCovered, {| do_repo := repo; do_inst := None; do_settled := true |})
       | LookupFailed => (LookupFailed, o)
       end.

(** ** Signatures *)

(** The library that checks an HMAC: header, body, secret; and the box a secret is kept in. *)
Class Secrets := {
  gh_ValidateSignature : string -> string -> string -> bool;
  OpenString : string -> option string
}.

Inductive SignatureError := ErrNoSecret | ErrInvalidSignature.
Definition ValidateSignature `{Secrets} (payload header secret : string) : option SignatureError :=
  if str_eqb secret "" then Some ErrNoSecret
  else if str_eqb (strings_TrimSpace header) "" then Some ErrInvalidSignature
  else if gh_ValidateSignature header payload secret then None else Some ErrInvalidSignature.

Definition ParseEventType (header : string) : string := lower_trim header.
Definition IsPing (event : string) : bool := str_eqb (ParseEventType event) "ping".

Definition unsealString `{Secrets} (sealed : string) : option string := if str_eqb sealed "" then Some "" else OpenString sealed.

Inductive VerifyError :=
  | NotUnsealed (i : Installation)
  | BadSignature (e : SignatureError)
  | NotTheOwners (i : Installation) (repo : string)
  | NotListed
  | NoInstallation
  | NoneVerified (repo : string) (tried : Z).
(** The note that comes with a delivery another installation's secret verified. *)
Inductive VerifyNote := NoNote | OtherSecret (repo : string) (i : Installation).

(** The first installation whose secret verifies, and how many had one. *)
Fixpoint any_secret `{Secrets} (insts : list Installation) (body signature : string) (tried : Z) : Z + Installation :=
  match insts with
  | [] => inl tried
  | i :: rest =>
      match unsealString (in_WebhookSecretEnc i) with
      | None => any_secret rest body signature tried
      | Some secret =>
          if str_eqb secret "" then any_secret rest body signature tried
          else match ValidateSignature body signature secret with
               | None => inr i
               | Some _ => any_secret rest body signature (tried + 1)
               end
      end
  end.

(** The owner's secret, and what was wrong with it. *)
Definition owner_secret `{Secrets} (i : Installation) (body signature : string) : option VerifyError :=
  match unsealString (in_WebhookSecretEnc i) with
  | None => Some (NotUnsealed i)
  | Some secret => match ValidateSignature body signature secret with Some e => Some (BadSignature e) | None => None end
  end.

(** [listed] is what [ListInstallations] answers. *)
Definition verifyDelivery `{Secrets} (ask : string -> Lookup) (listed : option (list Installation)) (body signature repo : string)
    (o : deliveryOwner) : (VerifyError + Installation * VerifyNote) * deliveryOwner :=
  let '(found, o') := if str_eqb repo "" then (NotCovered, o) else owner_of ask o repo in
  match found with
  | Covers i => (match owner_secret i body signature with Some e => inl e | None => inr (i, NoNote) end, o')
  | NotCovered | LookupFailed =>
      (match listed with
       | None => inl NotListed
       | Some insts =>
           match any_secret insts body signature 0 with
           | inr i => inr (i, OtherSecret repo i)
           | inl tried => if Nat.eqb (length insts) 0 then inl NoInstallation else inl (NoneVerified repo tried)
           end
       end, o')
  end.

(** ** The endpoint *)

Definition maxWebhookBody : Z := 1048576.
Definition maxDeliveryRepo : Z := 256.
Definition maxDeliveryAction : Z := 64.
Definition maxDeliveryID : Z := 64.
Definition maxDeliveryEvent : Z := 64.
Definition clampField (s : string) (max : Z) : string :=
  if strlen s <=? max then s else str_take max s +:+ "... (" +:+ itoa (strlen s) +:+ " bytes, truncated)".

Record envelope := { env_Repo : string; env_Action : string; env_InstallationID : Z }.
Record envelopePayload := { ep_Action : string; ep_FullName : string; ep_Login : string; ep_ID : Z }.
Definition read_envelope (ms : list (string * json)) (o : envelopePayload) : option envelopePayload :=
  action ← field ms "action" as_string (ep_Action o);
  repo ← field ms "repository" (as_struct (read_named "full_name" as_string)) (ep_FullName o);
  login ← field ms "organization" (as_struct (read_named "login" as_string)) (ep_Login o);
  inst ← field ms "installation" (as_struct (read_named "id" as_int64)) (ep_ID o);
  Some (Build_envelopePayload action repo login inst).
Definition parseEnvelope (body : string) : envelope :=
  match json_Unmarshal read_envelope (Build_envelopePayload "" "" "" 0) body with
  | None => {| env_Repo := ""; env_Action := ""; env_InstallationID := 0 |}
  | Some p =>
      {| env_Repo := clampField (if str_eqb (ep_FullName p) "" then ep_Login p else ep_FullName p) maxDeliveryRepo;
         env_Action := clampField (lower_trim (ep_Action p)) maxDeliveryAction; env_InstallationID := ep_ID p |}
  end.

Record Request := {
  rq_Method : string;
  rq_Event : string;
  rq_DeliveryID : string;
  rq_Signature : string;
  rq_Body : option string;  (** what reading it gives *)
  rq_From : string
}.

Record WebhookDelivery := {
  wd_DeliveryID : string;
  wd_Event : string;
  wd_Action : string;
  wd_Repo : string;
  wd_InstallationID : string;
  wd_Status : string
}.

Inductive HandlerError := MalformedDelivery | OtherError.
(** What the rest of the controller does with a delivery that verified. *)
Class Handlers := {
  applyWorkflowJob : WorkflowJobEvent -> deliveryOwner -> option HandlerError;
  enqueueRepairWebhook : Installation -> string -> string -> option HandlerError;
  admitWatchFromPullRequestWebhook : Installation -> string -> option HandlerError
}.
Inductive Act :=
  | ActJob (e : WorkflowJobEvent) (o : deliveryOwner)
  | ActRepair (i : Installation) (event body : string)
  | ActWatch (i : Installation) (body : string).

(** The status answered, the row of the delivery log, what was done, the limiter, and
    whether webhooks are now known to arrive. *)
Record Outcome := {
  oc_status : Z;
  oc_recorded : option WebhookDelivery;
  oc_acts : list Act;
  oc_probes : RateLimiter;
  oc_webhooks : bool
}.

Section Endpoint.
Context `{Secrets, Handlers}.
Variable ask : string -> Lookup.
Variable listed : option (list Installation).

Definition recorded (r : Request) (event action repo inst status : string) : WebhookDelivery :=
  {| wd_DeliveryID := clampField (rq_DeliveryID r) maxDeliveryID; wd_Event := event; wd_Action := action; wd_Repo := repo;
     wd_InstallationID := inst; wd_Status := status |}.

Definition rejectDelivery (r : Request) (probes : RateLimiter) (now : Time) (event action repo : string) : Outcome :=
  let '(ok, probes) := AllowAt probes (rq_From r) now in
  {| oc_status := 401; oc_recorded := if (ok : bool) then Some (recorded r event action repo "" "rejected") else None;
     oc_acts := []; oc_probes := probes; oc_webhooks := false |}.

Definition handleWorkflowJob (body : string) (o : deliveryOwner) : option HandlerError * list Act :=
  match ParseWorkflowJob body with
  | None => (Some MalformedDelivery, [])
  | Some e => (applyWorkflowJob e o, [ActJob e o])
  end.

(** The body, within its limit. *)
Definition readable (r : Request) : option string :=
  match rq_Body r with Some body => if maxWebhookBody <? strlen body then None else Some body | None => None end.

Definition HandleWebhook (r : Request) (probes : RateLimiter) (now : Time) : Outcome :=
  let none status := {| oc_status := status; oc_recorded := None; oc_acts := []; oc_probes := probes; oc_webhooks := false |} in
  if negb (str_eqb (rq_Method r) "POST") then none 405
  else
    let event := clampField (ParseEventType (rq_Event r)) maxDeliveryEvent in
    if str_eqb (strings_TrimSpace (rq_Signature r)) "" then rejectDelivery r probes now event "" ""
    else match readable r with
    | None => {| oc_status := 413; oc_recorded := Some (recorded r event "" "" "" "error"); oc_acts := []; oc_probes := probes; oc_webhooks := false |}
    | Some body =>
      let env := parseEnvelope body in
      match verifyDelivery ask listed body (rq_Signature r) (env_Repo env) newDeliveryOwner with
      | (inl _, _) => rejectDelivery r probes now event (env_Action env) (env_Repo env)
      | (inr (inst, _), owners) =>
          let answer status how acts :=
            {| oc_status := status; oc_recorded := Some (recorded r event (env_Action env) (env_Repo env) (in_ID inst) how);
               oc_acts := acts; oc_probes := probes; oc_webhooks := true |} in
          let repair := ActRepair inst event body in
          if IsPing event then answer 200 "accepted" []
          else if str_eqb event "workflow_job" then
            match handleWorkflowJob body owners with
            | (Some MalformedDelivery, acts) => answer 400 "rejected" acts
            | (Some OtherError, acts) => answer 500 "error" acts
            | (None, acts) =>
                match enqueueRepairWebhook inst event body with
                | Some _ => answer 500 "error" (acts ++ [repair])
                | None => answer 202 "accepted" (acts ++ [repair])
                end
            end
          else if str_eqb event "issue_comment" then
            match enqueueRepairWebhook inst event body with
            | Some _ => answer 500 "error" [repair]
            | None => answer 202 "accepted" [repair]
            end
          else if str_eqb event "pull_request" then
            match admitWatchFromPullRequestWebhook inst body with
            | Some MalformedDelivery => answer 400 "rejected" [ActWatch inst body]
            | Some OtherError => answer 500 "error" [ActWatch inst body]
            | None => answer 202 "accepted" [ActWatch inst body]
            end
          else answer 200 "accepted" []
      end
    end.

End Endpoint.

(** ** What verifies *)

(** The secret of an installation verifies a delivery. *)
Definition signed_by `{Secrets} (i : Installation) (body signature : string) : Prop :=
  exists secret, unsealString (in_WebhookSecretEnc i) = Some secret /\ secret <> "" /\ strings_TrimSpace signature <> "" /\
    gh_ValidateSignature signature body secret = true.

Lemma ValidateSignature_ok `{Secrets} body signature secret : ValidateSignature body signature secret = None <->
  secret <> "" /\ strings_TrimSpace signature <> "" /\ gh_ValidateSignature signature body secret = true.
Proof.
  unfold ValidateSignature, str_eqb. case_bool_decide; [naive_solver|]. case_bool_decide; [naive_solver|].
  destruct (gh_ValidateSignature _ _ _); naive_solver.
Qed.

Lemma owner_secret_ok `{Secrets} i body signature : owner_secret i body signature = None <-> signed_by i body signature.
Proof.
  unfold owner_secret, signed_by. destruct (unsealString _) as [secret|]; [|naive_solver].
  destruct (ValidateSignature body signature secret) eqn:E; [|apply ValidateSignature_ok in E; naive_solver].
  split; [done|]. intros (s' & [= <-] & Hs). apply ValidateSignature_ok in Hs. congruence.
Qed.

Lemma any_secret_ok `{Secrets} insts body signature tried i : any_secret insts body signature tried = inr i -> i ∈ insts /\ signed_by i body signature.
Proof.
  revert tried. induction insts as [|j rest IH]; intros tried; cbn; [done|].
  destruct (unsealString (in_WebhookSecretEnc j)) as [secret|] eqn:Eu; [|intros [? ?]%IH; split; [by right|done]].
  destruct (str_eqb secret ""); [intros [? ?]%IH; split; [by right|done]|].
  destruct (ValidateSignature body signature secret) eqn:E; [intros [? ?]%IH; split; [by right|done]|].
  intros [= <-]. split; [left|]. apply ValidateSignature_ok in E. by exists secret.
Qed.

(** What is asked about a delivery that names no repository is not looked up. *)
Definition looked_up (ask : string -> Lookup) (repo : string) : Lookup := if str_eqb repo "" then NotCovered else ask repo.

Lemma verify_ok `{Secrets} ask listed body signature repo i note owners :
  verifyDelivery ask listed body signature repo newDeliveryOwner = (inr (i, note), owners) ->
  signed_by i body signature /\
  match looked_up ask repo with
  | Covers j => i = j /\ owners = {| do_repo := repo; do_inst := Some i; do_settled := true |}
  | NotCovered => (exists insts, listed = Some insts /\ i ∈ insts) /\
                  owners = if str_eqb repo "" then newDeliveryOwner else {| do_repo := repo; do_inst := None; do_settled := true |}
  | LookupFailed => (exists insts, listed = Some insts /\ i ∈ insts) /\ owners = newDeliveryOwner
  end.
Proof.
  unfold verifyDelivery, looked_up, owner_of. cbn [do_settled newDeliveryOwner andb].
  assert (Hlist : forall o, match listed with
       | None => inl NotListed
       | Some insts => match any_secret insts body signature 0 with
                       | inr i => inr (i, OtherSecret repo i)
                       | inl tried => if Nat.eqb (length insts) 0 then inl NoInstallation else inl (NoneVerified repo tried)
                       end
       end = inr (i, note) -> o = owners -> signed_by i body signature /\ (exists insts, listed = Some insts /\ i ∈ insts) /\ owners = o).
  { intros o. destruct listed as [insts|]; [|done]. destruct (any_secret _ _ _ _) as [t|j] eqn:E; [by destruct (Nat.eqb _ _)|].
    intros [= -> _] ->. apply any_secret_ok in E as [? ?]. eauto. }
  destruct (str_eqb repo "").
  - intros [= E1 E2]. by apply Hlist.
  - destruct (ask repo) as [j| |].
    + destruct (owner_secret j body signature) eqn:E; intros [= <- <- <-]. split; [by apply owner_secret_ok|done].
    + intros [= E1 E2]. by apply Hlist.
    + intros [= E1 E2]. by apply Hlist.
Qed.

(** What is done with a delivery, once one verified. *)
Lemma handled `{Secrets, Handlers} ask listed r probes now :
  let out := HandleWebhook ask listed r probes now in
  (oc_acts out = [] /\ oc_webhooks out = false /\ oc_status out ∈ [401; 405; 413]) \/
  exists body i note owners, rq_Body r = Some body /\
    verifyDelivery ask listed body (rq_Signature r) (env_Repo (parseEnvelope body)) newDeliveryOwner = (inr (i, note), owners) /\
    Forall (fun a => match a with
                     | ActJob e o => ParseWorkflowJob body = Some e /\ o = owners
                     | ActRepair j _ b | ActWatch j b => j = i /\ b = body
                     end) (oc_acts out).
Proof.
  cbn zeta. unfold HandleWebhook, rejectDelivery.
  assert (Hrej : forall event action repo, let out := (let '(ok, probes) := AllowAt probes (rq_From r) now in
     {| oc_status := 401; oc_recorded := if (ok : bool) then Some (recorded r event action repo "" "rejected") else None;
        oc_acts := []; oc_probes := probes; oc_webhooks := false |}) in
     oc_acts out = [] /\ oc_webhooks out = false /\ oc_status out ∈ [401; 405; 413]).
  { intros. subst out. destruct (AllowAt probes (rq_From r) now). cbn. split_and!; [done|done|]. left. }
  destruct (negb _); [left; split_and!; [done|done|]; right; left|].
  destruct (str_eqb (strings_TrimSpace _) ""); [left; apply Hrej|].
  unfold readable. destruct (rq_Body r) as [body|]; [|left; split_and!; [done|done|]; right; right; left].
  destruct (maxWebhookBody <? strlen body); [left; split_and!; [done|done|]; right; right; left|].
  destruct (verifyDelivery _ _ _ _ _ _) as [[e|[i note]] owners] eqn:E; [left; apply Hrej|].
  right. exists body, i, note, owners. split_and!; [done|done|].
  destruct (IsPing _); [constructor|]. destruct (str_eqb _ "workflow_job").
  { unfold handleWorkflowJob. destruct (ParseWorkflowJob body) as [ev|] eqn:Ep; [|constructor].
    destruct (applyWorkflowJob ev owners) as [[]|]; [| |destruct (enqueueRepairWebhook _ _ _)]; by repeat constructor. }
  destruct (str_eqb _ "issue_comment"); [destruct (enqueueRepairWebhook _ _ _); by repeat constructor|].
  destruct (str_eqb _ "pull_request"); [destruct (admitWatchFromPullRequestWebhook _ _) as [[]|]; by repeat constructor|constructor].
Qed.

(** C30: A delivery is refused, and nothing at all is done with it, or its body
    was signed with a configured secret: that of the installation covering the repository
    its envelope names, where the store says one does, and otherwise that of one of the
    installations there are.  An empty secret or a blank signature never counts. *)
Theorem only_signed_deliveries_act `{Secrets, Handlers} ask listed r probes now :
  let out := HandleWebhook ask listed r probes now in
  (oc_acts out = [] /\ oc_webhooks out = false /\ oc_status out ∈ [401; 405; 413]) \/
  exists body i, rq_Body r = Some body /\ signed_by i body (rq_Signature r) /\
    match looked_up ask (env_Repo (parseEnvelope body)) with
    | Covers j => i = j
    | NotCovered | LookupFailed => exists insts, listed = Some insts /\ i ∈ insts
    end.
Proof.
  destruct (handled ask listed r probes now) as [Hr|(body & i & note & owners & Hb & Hv & _)]; [by left|right].
  apply verify_ok in Hv as [Hs Hl]. exists body, i. split_and!; [done|done|]. destruct (looked_up _ _); naive_solver.
Qed.

(** ** Whose job it is *)

(** The envelope of a body, where it can be read, names the repository its job names. *)
Lemma envelope_repository body p e : json_Unmarshal read_envelope (Build_envelopePayload "" "" "" 0) body = Some p ->
  ParseWorkflowJob body = Some e -> ep_FullName p = ev_Repo e.
Proof.
  unfold ParseWorkflowJob, json_Unmarshal. destruct (document body) as [v|]; [|done]. unfold as_struct.
  destruct v as [| | | | | |ms]; try done. unfold read_envelope, read_payload. cbn [ep_FullName pl_FullName ep_Action pl_Action].
  destruct (field ms "action" _ _) as [a|]; [|done]. cbn.
  destruct (field ms "repository" _ _) as [repo|]; cbn; [|done].
  destruct (field ms "organization" _ _) as [login|]; cbn; [|done]. destruct (field ms "installation" _ _) as [inst|]; cbn; [|done].
  intros [= <-]. destruct (field ms "workflow_job" _ _) as [w|]; cbn; [|done]. by destruct (wj_ID w =? 0); [|intros [= <-]].
Qed.

(** C31: A workflow_job delivery is attributed to its signer or to none.  When its handler
    asks which installation its repository belongs to, the answer is the one that covered
    the repository when the delivery came, whose secret signed it, whatever the store would
    say by then; or it is none, where none covered it then: such a delivery is acted on
    too, signed with the secret of any one of the installations there are, and is none's.
    This is where the envelope could be read, the repository's name is not cut, and the
    lookup that chose the secret did not fail. *)
Theorem job_belongs_to_its_signer `{Secrets, Handlers} ask later listed r probes now body e o p :
  rq_Body r = Some body -> ActJob e o ∈ oc_acts (HandleWebhook ask listed r probes now) ->
  json_Unmarshal read_envelope (Build_envelopePayload "" "" "" 0) body = Some p ->
  ev_Repo e <> "" -> strlen (ev_Repo e) <= maxDeliveryRepo -> ask (ev_Repo e) <> LookupFailed ->
  match fst (owner_of later o (ev_Repo e)) with
  | Covers i => ask (ev_Repo e) = Covers i /\ signed_by i body (rq_Signature r)
  | NotCovered => ask (ev_Repo e) = NotCovered /\
                  exists insts i, listed = Some insts /\ i ∈ insts /\ signed_by i body (rq_Signature r)
  | LookupFailed => False
  end.
Proof.
  intros Hb Hin Henv Hne Hlen Hask. destruct (handled ask listed r probes now) as [(Hr & _)|(body' & i & note & owners & Hb' & Hv & Hacts)].
  { rewrite Hr in Hin. by apply elem_of_nil in Hin. }
  rewrite Hb in Hb'. injection Hb' as <-. rewrite Forall_forall in Hacts. specialize (Hacts _ Hin) as [Hp ->].
  assert (Hrepo : env_Repo (parseEnvelope body) = ev_Repo e).
  { unfold parseEnvelope. rewrite Henv. cbn [env_Repo]. rewrite (envelope_repository body p e Henv Hp). unfold str_eqb.
    rewrite bool_decide_eq_false_2 by done. unfold clampField. by rewrite (proj2 (Z.leb_le _ _) Hlen). }
  apply verify_ok in Hv as [Hs Hl]. rewrite Hrepo in Hl. unfold looked_up, str_eqb in Hl. rewrite !bool_decide_eq_false_2 in Hl by done.
  unfold owner_of. destruct (ask (ev_Repo e)) as [j| |]; [| |done].
  - destruct Hl as [-> ->]. cbn [do_settled do_repo do_inst andb]. unfold str_eqb. by rewrite bool_decide_eq_true_2.
  - destruct Hl as [(insts & Hi & Hin') ->]. cbn [do_settled do_repo do_inst andb]. unfold str_eqb.
    rewrite bool_decide_eq_true_2 by done. cbn. eauto 8.
Qed.
