(* ===== verification/Deliveries.v ===== *)
(** * Deliveries and the fleet (controller/webhooks.go [applyWorkflowJob])

    A workflow_job delivery moves two rows: the job's, by [ApplyJob], and the runner's that
    GitHub says has it, by [StartRunnerJob] or [CompleteRunnerJob].  Each is a transaction of
    its own, and the runner's name is looked up before both, so a handler is four steps and
    deliveries handled at once interleave.  [run] is a handler's next step;
    [applyWorkflowJob] is one run through with nothing in between.

    The theorems: handled one at a time, deliveries keep every runner's job a job in progress
    that names the runner, so that no completed job holds one; handled in any interleaving,
    a runner's job may have completed behind it, and the next completed delivery of that job
    releases it.  The columns of a job's size, versions and run number, its timeline and
    what is published are not part of the rows here. *)
From Stdlib Require Import ZArith Lia String.
From stdpp Require Import base strings list gmap relations.
From S2P Require Import Prelude GoFloat GoString Store Lifecycle Jobs Json Webhook.
Local Open Scope string_scope.
Local Open Scope list_scope.
Local Open Scope Z_scope.

Record Fleet := { fl_jobs : gmap Z JobRow; fl_runners : gmap string Runner }.

(** A delivery, with what its handler is answered on the way: the installation covering the
    repository (empty for none), the pool that claims the job, the identifier that would be
    drawn for a new job, whether the job is given a size class (which only one that is
    waiting or queued is), and the time. *)
Record Arrival := {
  ar_event : WorkflowJobEvent;
  ar_installation : string;
  ar_pool : option string;
  ar_id : string;
  ar_classed : bool;
  ar_now : Time
}.

(** The row of a delivery as [ApplyJob] is handed it. *)
Definition claimed (j : JobRow) (installation : string) (pool runner : option string) : JobRow :=
  {| jr_ID := jr_ID j; jr_GitHubJobID := jr_GitHubJobID j; jr_GitHubRunID := jr_GitHubRunID j; jr_Repo := jr_Repo j;
     jr_Workflow := jr_Workflow j; jr_JobName := jr_JobName j; jr_Labels := jr_Labels j; jr_State := jr_State j;
     jr_Conclusion := jr_Conclusion j; jr_InstallationID := if str_eqb installation "" then jr_InstallationID j else installation;
     jr_PoolID := match pool with Some p => p | None => jr_PoolID j end;
     jr_RunnerID := match runner with Some r => r | None => jr_RunnerID j end; jr_RunnerName := jr_RunnerName j;
     jr_HTMLURL := jr_HTMLURL j; jr_QueuedAt := jr_QueuedAt j; jr_StartedAt := jr_StartedAt j; jr_CompletedAt := jr_CompletedAt j;
     jr_Matched := match pool with Some _ => true | None => jr_Matched j end; jr_EligibleAt := jr_EligibleAt j;
     jr_HeadBranch := jr_HeadBranch j; jr_HeadSHA := jr_HeadSHA j; jr_RunAttempt := jr_RunAttempt j; jr_RunNumber := jr_RunNumber j;
     jr_Steps := jr_Steps j; jr_RunnerFault := jr_RunnerFault j; jr_FaultKind := jr_FaultKind j; jr_Provisioning := jr_Provisioning j;
     jr_ProvisionNow := jr_ProvisionNow j; jr_CancelRequestedAt := jr_CancelRequestedAt j;
     jr_ControllerVersion := jr_ControllerVersion j; jr_ControllerChannel := jr_ControllerChannel j;
     jr_AgentVersion := jr_AgentVersion j; jr_HostID := jr_HostID j |}.

Definition GetRunnerByName (runners : gmap string Runner) (name : string) : option string :=
  fst <$> head (List.filter (fun p => str_eqb (r_Name (snd p)) name) (map_to_list runners)).
Definition GetRunner (runners : gmap string Runner) (id : string) : option string := (fun _ => id) <$> runners !! id.

Definition GetJob (jobs : gmap Z JobRow) (id : string) : option JobRow :=
  snd <$> head (List.filter (fun p => str_eqb (jr_ID (snd p)) id) (map_to_list jobs)).

(** ** The handler *)

Inductive Handler :=
  | Asked (a : Arrival)
  | Found (a : Arrival) (runner : option string)
  | Applied (a : Arrival) (saved : JobRow) (runner : option string)
  | Saved (a : Arrival) (saved : JobRow) (runner : option string).

(** The job is a completed one of the runner, as the jobs table has it. *)
Definition linked (jobs : gmap Z JobRow) (jobID runnerID : string) : bool :=
  existsb (fun p => str_eqb (jr_ID (snd p)) jobID && str_eqb (jr_RunnerID (snd p)) runnerID && is_job (jr_State (snd p)) JobCompleted)
          (map_to_list jobs).

Definition act (fl : Fleet) (saved : JobRow) (runner : string) (now : Time) : Fleet :=
  match jr_State saved with
  | JobInProgress =>
      match StartRunnerJob (fl_runners fl) runner (jr_ID saved) ("running " +:+ jr_Workflow saved +:+ " / " +:+ jr_JobName saved) now with
      | inr (_, runners, _) => {| fl_jobs := fl_jobs fl; fl_runners := runners |}
      | inl _ => fl
      end
  | JobCompleted =>
      match CompleteRunnerJob (fl_runners fl) runner (jr_ID saved) ("finished " +:+ jr_JobName saved) (linked (fl_jobs fl) (jr_ID saved) runner) now with
      | inr (_, runners, _) => {| fl_jobs := fl_jobs fl; fl_runners := runners |}
      | inl _ => fl
      end
  | JobWaiting | JobQueued => fl
  end.

(** The runner the event names, if the fleet has it. *)
Definition named_runner (fl : Fleet) (a : Arrival) : option string :=
  let name := ev_RunnerName (ar_event a) in if str_eqb name "" then None else GetRunnerByName (fl_runners fl) name.
(** The job's row as it is once it has been given its class. *)
Definition saved_again (fl : Fleet) (a : Arrival) (saved : JobRow) : JobRow :=
  if ar_classed a then default saved (GetJob (fl_jobs fl) (jr_ID saved)) else saved.
(** The runner to move: the one named, else the one the row is linked to. *)
Definition runner_for (fl : Fleet) (saved : JobRow) (runner : option string) : option string :=
  match runner with
  | Some r => Some r
  | None => if str_eqb (jr_RunnerID saved) "" then None else GetRunner (fl_runners fl) (jr_RunnerID saved)
  end.

Definition run (fl : Fleet) (h : Handler) : Fleet * option Handler :=
  match h with
  | Asked a => (fl, Some (Found a (named_runner fl a)))
  | Found a runner =>
      let job := claimed (ToJob (ar_event a) (ar_now a)) (ar_installation a) (ar_pool a) runner in
      match ApplyJob (fl_jobs fl) job [] (ar_id a) (ar_now a) with
      | None => (fl, None)
      | Some applied => ({| fl_jobs := aj_table applied; fl_runners := fl_runners fl |}, Some (Applied a (aj_out applied) runner))
      end
  | Applied a saved runner =>
      let saved := saved_again fl a saved in (fl, Some (Saved a saved (runner_for fl saved runner)))
  | Saved a saved runner => (match runner with Some r => act fl saved r (ar_now a) | None => fl end, None)
  end.

(** A handler's steps, one after another. *)
Fixpoint run_through (fuel : nat) (fl : Fleet) (h : Handler) : Fleet :=
  match fuel with
  | O => fl
  | S fuel' => match run fl h with (fl', Some h') => run_through fuel' fl' h' | (fl', None) => fl' end
  end.
Definition applyWorkflowJob (fl : Fleet) (a : Arrival) : Fleet := run_through 4 fl (Asked a).

(** ** Looking a row up *)

Lemma head_filter_Some {A} (f : A -> bool) (l : list A) x : head (List.filter f l) = Some x -> x ∈ l /\ f x = true.
Proof. intros H. assert (Hin : x ∈ List.filter f l) by (destruct (List.filter f l); [done|injection H as ->; left]). by apply list_elem_of_In, filter_In in Hin as [?%list_elem_of_In ?]. Qed.

Lemma head_filter_None {A} (f : A -> bool) (l : list A) : head (List.filter f l) = None -> forall x, x ∈ l -> f x = false.
Proof. intros H x Hx. destruct (f x) eqn:E; [|done]. assert (Hin : x ∈ List.filter f l) by (by apply list_elem_of_In, filter_In; split; [apply list_elem_of_In|]).
  destruct (List.filter f l); [by apply elem_of_nil in Hin|done]. Qed.

Lemma GetRunnerByName_Some runners name id : GetRunnerByName runners name = Some id -> exists r : Runner, runners !! id = Some r /\ r_Name r = name.
Proof.
  unfold GetRunnerByName. destruct (head _) as [[i r]|] eqn:E; [|done]. intros [= <-]. apply head_filter_Some in E as [Hin Hn].
  exists r. split; [by apply elem_of_map_to_list|by apply str_eqb_eq].
Qed.

Lemma GetJob_Some jobs id row : GetJob jobs id = Some row -> exists k, jobs !! k = Some row /\ jr_ID row = id.
Proof.
  unfold GetJob. destruct (head _) as [[k r]|] eqn:E; [|done]. intros [= <-]. apply head_filter_Some in E as [Hin Hn].
  exists k. split; [by apply elem_of_map_to_list|by apply str_eqb_eq].
Qed.

Lemma GetJob_known jobs k row : jobs !! k = Some row -> is_Some (GetJob jobs (jr_ID row)).
Proof.
  intros Hk. unfold GetJob. destruct (head _) eqn:E; [by eexists|]. exfalso. apply elem_of_map_to_list in Hk.
  pose proof (head_filter_None _ _ E _ Hk) as H. cbn in H. unfold str_eqb in H. by rewrite bool_decide_eq_true_2 in H.
Qed.

(** ** What a delivery makes of its job's row *)

Lemma text_Some c dst v : v <> "" -> (dst = "" \/ dst = v) -> Jobs.text c dst v = v.
Proof. intros Hv Hd. unfold Jobs.text, nonempty, str_eqb. rewrite bool_decide_eq_false_2 by done. destruct c; [done|]. cbn. case_bool_decide; [done|]. by destruct Hd. Qed.

Lemma text_empty c dst : Jobs.text c dst "" = dst.
Proof. done. Qed.

Lemma ApplyJob_link jobs j id now a : ApplyJob jobs j [] id now = Some a -> let k := jr_GitHubJobID j in
  exists row, aj_table a !! k = Some row /\ (forall k', k' <> k -> aj_table a !! k' = jobs !! k') /\
    jr_ID row = jr_ID (aj_out a) /\ jr_State row = jr_State (aj_out a) /\ jr_RunnerID row = jr_RunnerID (aj_out a) /\
    match jobs !! k with
    | None => jr_ID (aj_out a) = (if str_eqb (jr_ID j) "" then id else jr_ID j) /\ jr_State (aj_out a) = jr_State j /\ jr_RunnerID (aj_out a) = jr_RunnerID j
    | Some e => jr_ID (aj_out a) = jr_ID e /\ jr_State (aj_out a) = next_state (Some (jr_State e)) (jr_State j) /\
                exists c, jr_RunnerID (aj_out a) = Jobs.text c (jr_RunnerID e) (jr_RunnerID j)
    end.
Proof.
  unfold ApplyJob. cbn zeta. destruct (jobs !! jr_GitHubJobID j) as [e|] eqn:He; cbn -[columns stored]; intros [= <-]; cbn -[columns stored merge].
  - destruct (_ || _) eqn:Hw.
    + eexists. rewrite lookup_insert_eq. split_and!; [done|by intros; rewrite lookup_insert_ne|done..|by eexists].
    + apply orb_false_iff in Hw as [_ Hw]. apply negb_false_iff, bool_decide_eq_true in Hw. exists e.
      assert (Hst : jr_State e = jr_State (merge e j now)) by (symmetry; exact (f_equal jr_State Hw)).
      assert (Hr : jr_RunnerID e = jr_RunnerID (merge e j now)) by (symmetry; exact (f_equal jr_RunnerID Hw)).
      split_and!; [done|done|done|done|done|done|done|by eexists].
  - eexists. rewrite lookup_insert_eq. split_and!; [done|by intros; rewrite lookup_insert_ne|done..].
Qed.

(** ** The invariant *)

Section Invariant.
(** The name of the runner GitHub gives each job to. *)
Variable home : Z -> string.

(** A job a runner has is under way, or has completed since. *)
Definition underway (s : JobState) : Prop := s = JobInProgress \/ s = JobCompleted.

Record consistent (fl : Fleet) : Prop := {
  co_runners : table_wf (fl_runners fl);
  co_named : fl_runners fl !! "" = None;
  co_names : forall i j (r r' : Runner), fl_runners fl !! i = Some r -> fl_runners fl !! j = Some r' -> r_Name r = r_Name r' -> i = j;
  co_ids : forall k k' row row', fl_jobs fl !! k = Some row -> fl_jobs fl !! k' = Some row' -> jr_ID row = jr_ID row' -> k = k';
  co_id : forall k row, fl_jobs fl !! k = Some row -> jr_ID row <> "";
  co_link : forall k row, fl_jobs fl !! k = Some row -> jr_RunnerID row <> "" ->
              exists r : Runner, fl_runners fl !! jr_RunnerID row = Some r /\ r_Name r = home k;
  co_held : forall i (r : Runner), fl_runners fl !! i = Some r -> r_CurrentJobID r <> "" ->
              exists k row, fl_jobs fl !! k = Some row /\ jr_ID row = r_CurrentJobID r /\ jr_RunnerID row = i /\ underway (jr_State row)
}.

(** GitHub names a job's one runner or none. *)
Definition well_named (a : Arrival) : Prop := ev_RunnerName (ar_event a) = "" \/ ev_RunnerName (ar_event a) = home (ev_JobID (ar_event a)).
(** The identifier that would be drawn is no job's. *)
Definition fresh_id (fl : Fleet) (a : Arrival) : Prop := ar_id a <> "" /\ forall k row, fl_jobs fl !! k = Some row -> jr_ID row <> ar_id a.

Definition is_home (fl : Fleet) (k : Z) (runner : string) : Prop := exists r : Runner, fl_runners fl !! runner = Some r /\ r_Name r = home k.

(** A copy of a job's row that a handler works from, and the runner it works on. *)
Definition copy_of (fl : Fleet) (k : Z) (saved : JobRow) : Prop :=
  exists row, fl_jobs fl !! k = Some row /\ jr_ID row = jr_ID saved /\ jobRank (jr_State saved) <= jobRank (jr_State row) /\
    (jr_RunnerID saved <> "" -> jr_RunnerID row = jr_RunnerID saved).
Definition works_on (fl : Fleet) (k : Z) (runner : option string) : Prop :=
  forall i, runner = Some i -> exists row, fl_jobs fl !! k = Some row /\ jr_RunnerID row = i /\ i <> "".

(** What holds of a handler between its steps. *)
Definition good (fl : Fleet) (h : Handler) : Prop :=
  match h with
  | Asked a => well_named a
  | Found a runner => well_named a /\ forall i, runner = Some i -> is_home fl (ev_JobID (ar_event a)) i
  | Applied a saved runner | Saved a saved runner =>
      copy_of fl (ev_JobID (ar_event a)) saved /\ works_on fl (ev_JobID (ar_event a)) runner
  end.

Lemma is_home_nonempty fl k i : consistent fl -> is_home fl k i -> i <> "".
Proof. intros Hc (r & Hr & _) ->. by rewrite (co_named fl Hc) in Hr. Qed.

Lemma is_home_unique fl k i j : consistent fl -> is_home fl k i -> is_home fl k j -> i = j.
Proof. intros Hc (r & Hr & En) (r' & Hr' & En'). apply (co_names fl Hc i j r r'); congruence. Qed.

Lemma next_underway s t : underway s -> underway (next_state (Some s) t).
Proof. unfold underway. by destruct s, t; cbn; naive_solver. Qed.

(** The lookup by name. *)
Lemma asked_good fl a : consistent fl -> well_named a ->
  forall i, named_runner fl a = Some i ->
  is_home fl (ev_JobID (ar_event a)) i.
Proof.
  intros Hc Hw i. unfold named_runner. destruct (str_eqb _ "") eqn:E; [done|]. intros (r & Hr & Hn)%GetRunnerByName_Some. exists r. split; [done|].
  destruct Hw as [Hw|Hw]; [|by rewrite Hn]. by rewrite Hw in E.
Qed.

(** What [ApplyJob] does to a consistent fleet. *)
Lemma apply_consistent fl a runner applied :
  let k := ev_JobID (ar_event a) in
  consistent fl -> fresh_id fl a -> (forall i, runner = Some i -> is_home fl k i) ->
  ApplyJob (fl_jobs fl) (claimed (ToJob (ar_event a) (ar_now a)) (ar_installation a) (ar_pool a) runner) [] (ar_id a) (ar_now a) = Some applied ->
  let fl' := {| fl_jobs := aj_table applied; fl_runners := fl_runners fl |} in
  consistent fl' /\ copy_of fl' k (aj_out applied) /\ works_on fl' k runner /\
  (forall k', k' <> k -> fl_jobs fl' !! k' = fl_jobs fl !! k') /\
  (forall k' row, fl_jobs fl !! k' = Some row -> copy_of fl' k' row) /\
  (exists row, fl_jobs fl' !! k = Some row /\ jr_ID row = jr_ID (aj_out applied) /\ jr_State row = jr_State (aj_out applied) /\
     jr_RunnerID row = jr_RunnerID (aj_out applied)).
Proof.
  cbn zeta. intros Hc [Hf1 Hf2] Hrun Ha. apply ApplyJob_link in Ha. cbn zeta in Ha.
  change (jr_GitHubJobID _) with (ev_JobID (ar_event a)) in Ha. set (k := ev_JobID (ar_event a)) in *.
  destruct Ha as (row & Hrow & Hother & Hid & Hst & Hr & Hold).
  assert (Hnew : match runner with Some i => jr_RunnerID row = i
                 | None => match fl_jobs fl !! k with Some e => jr_RunnerID row = jr_RunnerID e | None => jr_RunnerID row = "" end end).
  { rewrite Hr. destruct runner as [i|]; cbn in Hold.
    - specialize (Hrun i eq_refl). pose proof (is_home_nonempty _ _ _ Hc Hrun) as Hi. destruct (fl_jobs fl !! k) as [e|] eqn:He; [|naive_solver].
      destruct Hold as (_ & _ & c & ->). apply text_Some; [done|]. destruct (decide (jr_RunnerID e = "")) as [|Hne]; [by left|right].
      apply (is_home_unique fl k); [done| |done]. exact (co_link fl Hc k e He Hne).
    - destruct (fl_jobs fl !! k) as [e|]; [|naive_solver]. destruct Hold as (_ & _ & c & ->). apply text_empty. }
  assert (Hkeep : forall e, fl_jobs fl !! k = Some e -> jr_ID row = jr_ID e /\ jr_State row = next_state (Some (jr_State e)) (jr_State (ToJob (ar_event a) (ar_now a))) /\
            (jr_RunnerID e <> "" -> jr_RunnerID row = jr_RunnerID e)).
  { intros e He. rewrite He in Hold, Hnew. destruct Hold as (E1 & E2 & _). split_and!; [congruence|by rewrite Hst|].
    intros Hne. destruct runner as [i|]; [|done]. rewrite Hnew. apply (is_home_unique fl k); [done|by apply Hrun|exact (co_link fl Hc k e He Hne)]. }
  assert (Hlook : forall k' row', aj_table applied !! k' = Some row' -> k' = k /\ row' = row \/ k' <> k /\ fl_jobs fl !! k' = Some row').
  { intros k' row' H'. destruct (decide (k' = k)) as [->|Hk]; [left; split; congruence|right]. by rewrite Hother in H'. }
  assert (Hidnew : forall k' row', k' <> k -> fl_jobs fl !! k' = Some row' -> jr_ID row' <> jr_ID row).
  { intros k' row' Hk H' E. destruct (fl_jobs fl !! k) as [e|] eqn:He.
    - destruct (Hkeep e eq_refl) as (E' & _). apply Hk. apply (co_ids fl Hc k' k row' e); congruence.
    - destruct Hold as (E1 & _). rewrite Hid, E1 in E. cbn in E. by apply (Hf2 k' row'). }
  split_and!.
  - split; cbn [fl_jobs fl_runners].
    + apply (co_runners fl Hc). + apply (co_named fl Hc). + apply (co_names fl Hc).
    + intros k1 k2 row1 row2 [[-> ->]|[Hk1 H1]]%Hlook [[-> ->]|[Hk2 H2]]%Hlook E; [done| | |].
      * by destruct (Hidnew k2 row2).
      * by destruct (Hidnew k1 row1).
      * by apply (co_ids fl Hc k1 k2 row1 row2).
    + intros k1 row1 [[-> ->]|[_ H1]]%Hlook; [|by apply (co_id fl Hc k1)]. destruct (fl_jobs fl !! k) as [e|] eqn:He.
      * destruct (Hkeep e eq_refl) as (-> & _). by apply (co_id fl Hc k).
      * destruct Hold as (E1 & _). by rewrite Hid, E1.
    + intros k1 row1 [[-> ->]|[_ H1]]%Hlook; [|by apply (co_link fl Hc k1)]. intros Hne. destruct runner as [i|]; [rewrite Hnew; by apply Hrun|].
      destruct (fl_jobs fl !! k) as [e|] eqn:He; [|done]. rewrite Hnew in *. by apply (co_link fl Hc k).
    + intros i r Hi Hj. destruct (co_held fl Hc i r Hi Hj) as (k1 & row1 & H1 & E1 & E2 & Hu). destruct (decide (k1 = k)) as [->|Hk].
      * exists k, row. destruct (Hkeep row1 H1) as (-> & -> & E3). split_and!; [done|done| |by apply next_underway]. rewrite E3; [done|].
        rewrite E2. intros ->. by rewrite (co_named fl Hc) in Hi.
      * exists k1, row1. split_and!; try done. by rewrite Hother.
  - exists row. split_and!; [done|done|rewrite Hst; lia|done].
  - intros i ->. exists row. split_and!; [done|done|]. by apply (is_home_nonempty fl k i Hc), Hrun.
  - done.
  - intros k' row' H'. destruct (decide (k' = k)) as [->|Hk].
    + destruct (Hkeep row' H') as (E1 & E2 & E3). exists row. split_and!; [done|done| |auto]. rewrite E2. apply (next_reached (Some (jr_State row'))).
    + exists row'. split_and!; [by cbn; rewrite Hother|done|lia|done].
  - by exists row.
Qed.

(** ** The runners' side *)

(** Nothing a handler remembers is undone. *)
Definition grows (fl fl' : Fleet) : Prop :=
  (forall k row, fl_jobs fl !! k = Some row -> copy_of fl' k row) /\
  (forall i (r : Runner), fl_runners fl !! i = Some r -> exists r' : Runner, fl_runners fl' !! i = Some r' /\ r_Name r' = r_Name r).

Lemma copy_of_refl fl k row : fl_jobs fl !! k = Some row -> copy_of fl k row.
Proof. intros H. exists row. split_and!; [done|done|lia|done]. Qed.

Lemma copy_of_grows fl fl' k saved : grows fl fl' -> copy_of fl k saved -> copy_of fl' k saved.
Proof.
  intros [Hj _] (row & Hr & E1 & E2 & E3). destruct (Hj k row Hr) as (row' & Hr' & F1 & F2 & F3). exists row'.
  split_and!; [done|congruence|lia|]. intros Hne. rewrite F3; [auto|]. by rewrite E3.
Qed.

Lemma works_on_grows fl fl' k runner : grows fl fl' -> works_on fl k runner -> works_on fl' k runner.
Proof.
  intros [Hj _] Hw i Hi. destruct (Hw i Hi) as (row & Hr & E & Hne). destruct (Hj k row Hr) as (row' & Hr' & _ & _ & F3). exists row'.
  split_and!; [done| |done]. rewrite F3; [done|by rewrite E].
Qed.

Lemma good_grows fl fl' h : grows fl fl' -> good fl h -> good fl' h.
Proof.
  intros Hg. destruct h as [a|a runner|a saved runner|a saved runner]; cbn; [done| | |].
  - intros [Hw Hr]. split; [done|]. intros i Hi. destruct (Hr i Hi) as (r & Hr' & Hn). destruct (proj2 Hg i r Hr') as (r' & ? & ?).
    exists r'. split; congruence.
  - intros [? ?]. split; [by eapply copy_of_grows|by eapply works_on_grows].
  - intros [? ?]. split; [by eapply copy_of_grows|by eapply works_on_grows].
Qed.

Definition same_names (runners runners' : gmap string Runner) : Prop := forall i, r_Name <$> runners' !! i = r_Name <$> runners !! i.

(** A runner has the job it had, or none. *)
Definition no_new_job (runners runners' : gmap string Runner) : Prop :=
  forall i (r' : Runner), runners' !! i = Some r' -> r_CurrentJobID r' <> "" ->
    exists r : Runner, runners !! i = Some r /\ r_CurrentJobID r = r_CurrentJobID r'.

Lemma same_names_grows fl runners' : same_names (fl_runners fl) runners' -> grows fl {| fl_jobs := fl_jobs fl; fl_runners := runners' |}.
Proof.
  intros Hn. split; [intros k row; apply copy_of_refl|]. intros i r Hr. specialize (Hn i). rewrite Hr in Hn. cbn in *.
  destruct (runners' !! i) as [r'|]; [|done]. exists r'. split; [done|]. by injection Hn.
Qed.

Lemma runners_consistent fl runners' : consistent fl -> table_wf runners' -> same_names (fl_runners fl) runners' ->
  (forall i (r' : Runner), runners' !! i = Some r' -> r_CurrentJobID r' <> "" ->
     (exists r : Runner, fl_runners fl !! i = Some r /\ r_CurrentJobID r = r_CurrentJobID r') \/
     exists k row, fl_jobs fl !! k = Some row /\ jr_ID row = r_CurrentJobID r' /\ jr_RunnerID row = i /\ underway (jr_State row)) ->
  consistent {| fl_jobs := fl_jobs fl; fl_runners := runners' |}.
Proof.
  intros Hc Hw Hn Hh.
  assert (Hback : forall i (r' : Runner), runners' !! i = Some r' -> exists r : Runner, fl_runners fl !! i = Some r /\ r_Name r = r_Name r').
  { intros i r' Hr. specialize (Hn i). rewrite Hr in Hn. destruct (fl_runners fl !! i) as [r|]; [|done]. exists r. split; [done|]. by injection Hn. }
  split; cbn; [done| | |apply (co_ids fl Hc)|apply (co_id fl Hc)| |].
  - destruct (runners' !! "") as [r'|] eqn:E; [|done]. destruct (Hback _ _ E) as (r & Hr & _). by rewrite (co_named fl Hc) in Hr.
  - intros i j r r' (r1 & H1 & E1)%Hback (r2 & H2 & E2)%Hback E. apply (co_names fl Hc i j r1 r2); congruence.
  - intros k row Hr Hne. destruct (co_link fl Hc k row Hr Hne) as (r & Hi & En).
    destruct (proj2 (same_names_grows fl runners' Hn) _ _ Hi) as (r' & Hi' & En'). exists r'. split; [done|congruence].
  - intros i r' Hr Hj. destruct (Hh i r' Hr Hj) as [(r & Hi & E)|]; [|done]. rewrite <- E in *. by apply (co_held fl Hc i r).
Qed.

Lemma stamp_names r to m k now : r_Name (stamp r to m k now) = r_Name r.
Proof. by destruct to. Qed.
Lemma started_names r j m now : r_Name (started r j m now) = r_Name r.
Proof. unfold started. by destruct (r_State r). Qed.

Lemma insert_names (runners : gmap string Runner) i r r' : runners !! i = Some r -> r_Name r' = r_Name r -> same_names runners (<[i:=r']> runners).
Proof. intros Hr Hn j. destruct (decide (j = i)) as [->|]; [by rewrite lookup_insert_eq, Hr; cbn; rewrite Hn|by rewrite lookup_insert_ne]. Qed.

Lemma insert_no_new (runners : gmap string Runner) i r r' : runners !! i = Some r -> r_CurrentJobID r' = "" \/ r_CurrentJobID r' = r_CurrentJobID r ->
  no_new_job runners (<[i:=r']> runners).
Proof.
  intros Hr Hj j r1. destruct (decide (j = i)) as [->|]; [rewrite lookup_insert_eq|rewrite lookup_insert_ne by done; by eauto].
  intros [= <-] Hne. exists r. split; [done|]. destruct Hj; congruence.
Qed.

Lemma insert_wf (runners : gmap string Runner) i r' : table_wf runners -> runner_wf r' -> table_wf (<[i:=r']> runners).
Proof. intros. by apply map_Forall_insert_2. Qed.

(** A runner with a job is busy with it, or draining. *)
Lemma job_state r : runner_wf r -> r_CurrentJobID r <> "" -> r_State r = RunnerBusy \/ r_State r = RunnerDraining.
Proof. unfold runner_wf. intros Hw Hj. destruct (r_State r); naive_solver. Qed.

(** [CompleteRunnerJob] gives no runner a job, and takes the job from the runner that has it. *)
Lemma complete_effect runners i jobID message linked now r' runners' changed : table_wf runners -> jobID <> "" ->
  CompleteRunnerJob runners i jobID message linked now = inr (r', runners', changed) ->
  table_wf runners' /\ same_names runners runners' /\ no_new_job runners runners' /\ (forall r : Runner, runners' !! i = Some r -> r_CurrentJobID r <> jobID).
Proof.
  intros Hw Hj (r & Hr & [(-> & -> & _ & Ha)|(Ha & -> & -> & _)])%complete_inv.
  - split_and!; [done|by intros j|by intros j r1; eauto|]. intros r1 Hr1 E. rewrite Hr in Hr1. injection Hr1 as <-.
    unfold assigned, str_eqb, is_state in Ha. rewrite E, bool_decide_eq_true_2 in Ha by done.
    destruct (job_state r (Hw i r Hr)) as [Es|Es]; [by rewrite E| |]; by rewrite Es in Ha.
  - split_and!; [apply insert_wf; [done|]|by apply insert_names with r|apply insert_no_new with r; [done|by left]|].
    + eapply completed_wf; [done|by apply (Hw i)].
    + intros r1. rewrite lookup_insert_eq. intros [= <-]. cbn. by apply not_eq_sym.
Qed.

(** [StartRunnerJob] gives the runner the job, or leaves all as it was. *)
Lemma start_effect runners i jobID message now r' runners' changed : table_wf runners ->
  StartRunnerJob runners i jobID message now = inr (r', runners', changed) ->
  table_wf runners' /\ same_names runners runners' /\
  (forall j (r1 : Runner), runners' !! j = Some r1 -> r_CurrentJobID r1 <> "" ->
     (exists r : Runner, runners !! j = Some r /\ r_CurrentJobID r = r_CurrentJobID r1) \/ j = i /\ r_CurrentJobID r1 = jobID).
Proof.
  intros Hw (r & Hr & [(-> & _)|(Ht & _ & -> & -> & _)])%start_inv.
  - split_and!; [done|by intros j|]. intros j r1 Hr1 _. left. eauto.
  - split_and!; [apply insert_wf; [done|]; apply started_wf; [done|by apply (Hw i)]|apply insert_names with r; [done|apply started_names]|].
    intros j r1. destruct (decide (j = i)) as [->|]; [rewrite lookup_insert_eq|rewrite lookup_insert_ne by done; eauto].
    intros [= <-] _. right. split; [done|]. unfold started. by destruct (r_State r).
Qed.

Lemma copy_ID fl k saved : consistent fl -> copy_of fl k saved -> jr_ID saved <> "".
Proof. intros Hc (row & Hr & <- & _). by apply (co_id fl Hc k). Qed.

Lemma grows_refl fl : grows fl fl.
Proof. split; [intros k row; apply copy_of_refl|eauto]. Qed.

(** The last step of a handler. *)
Lemma act_consistent fl k saved i now : consistent fl -> copy_of fl k saved -> works_on fl k (Some i) ->
  let fl' := act fl saved i now in
  consistent fl' /\ grows fl fl' /\ fl_jobs fl' = fl_jobs fl /\
  (forall j (r' : Runner), fl_runners fl' !! j = Some r' -> r_CurrentJobID r' <> "" ->
     (exists r : Runner, fl_runners fl !! j = Some r /\ r_CurrentJobID r = r_CurrentJobID r') \/
     jr_State saved = JobInProgress /\ r_CurrentJobID r' = jr_ID saved) /\
  (jr_State saved = JobCompleted -> forall r' : Runner, fl_runners fl' !! i = Some r' -> r_CurrentJobID r' <> jr_ID saved).
Proof.
  intros Hc Hcopy Hw. cbn zeta. pose proof (copy_ID fl k saved Hc Hcopy) as Hid. pose proof (co_runners fl Hc) as Hwf.
  assert (Hsame : consistent fl /\ grows fl fl /\ fl_jobs fl = fl_jobs fl /\
    (forall j (r' : Runner), fl_runners fl !! j = Some r' -> r_CurrentJobID r' <> "" ->
       (exists r : Runner, fl_runners fl !! j = Some r /\ r_CurrentJobID r = r_CurrentJobID r') \/
       jr_State saved = JobInProgress /\ r_CurrentJobID r' = jr_ID saved)).
  { split_and!; [done|apply grows_refl|done|]. intros j r' Hr _. left. eauto. }
  unfold act. destruct (jr_State saved) eqn:Es.
  - destruct Hsame as (? & ? & ? & ?). by split_and!.
  - destruct Hsame as (? & ? & ? & ?). by split_and!.
  - destruct (StartRunnerJob _ _ _ _ _) as [e|[[r' runners'] changed]] eqn:E; [destruct Hsame as (? & ? & ? & ?); by split_and!|].
    apply (start_effect _ _ _ _ _ _ _ _ Hwf) in E as (Hwf' & Hn & Hj). split_and!; [|by apply same_names_grows|done| |done].
    + apply runners_consistent; [done|done|done|]. intros j r1 Hr1 Hne. destruct (Hj j r1 Hr1 Hne) as [|[-> ->]]; [by left|right].
      destruct Hcopy as (row & Hrow & E1 & E2 & E3). destruct (Hw i eq_refl) as (row' & Hrow' & E4 & _). rewrite Hrow in Hrow'. injection Hrow' as <-.
      exists k, row. split_and!; [done|done|done|]. rewrite Es in E2. unfold underway. destruct (jr_State row); cbn in E2; try lia; auto.
    + intros j r1 Hr1 Hne. destruct (Hj j r1 Hr1 Hne) as [|[_ ?]]; [by left|by right].
  - destruct (CompleteRunnerJob _ _ _ _ _ _) as [e|[[r' runners'] changed]] eqn:E.
    + destruct Hsame as (? & ? & ? & ?). split_and!; try done. intros _ r' Hr'. unfold CompleteRunnerJob in E. rewrite Hr' in E.
      by destruct (_ && _) in E.
    + apply (complete_effect _ _ _ _ _ _ _ _ _ Hwf Hid) in E as (Hwf' & Hn & Hj & Hgone). split_and!; [|by apply same_names_grows|done| |done].
      * apply runners_consistent; [done|done|done|]. intros j r1 Hr1 Hne. left. by apply Hj.
      * intros j r1 Hr1 Hne. left. by apply Hj.
Qed.

(** The identifiers of jobs tell rows apart, so a row is found by its own. *)
Lemma GetJob_row fl k row : consistent fl -> fl_jobs fl !! k = Some row -> GetJob (fl_jobs fl) (jr_ID row) = Some row.
Proof.
  intros Hc Hk. destruct (GetJob_known _ _ _ Hk) as [row' E]. rewrite E. apply GetJob_Some in E as (k' & Hk' & E).
  pose proof (co_ids fl Hc k' k row' row Hk' Hk E) as ->. congruence.
Qed.

Lemma saved_again_copy fl k a saved : consistent fl -> copy_of fl k saved -> copy_of fl k (saved_again fl a saved) /\ jr_ID (saved_again fl a saved) = jr_ID saved.
Proof.
  intros Hc Hcopy. unfold saved_again. destruct (ar_classed a); [|done]. destruct Hcopy as (row & Hrow & E & ? & ?). rewrite <- E.
  rewrite (GetJob_row fl k row Hc Hrow). cbn. split; [by apply copy_of_refl|done].
Qed.

Lemma fallback_works fl k saved runner : consistent fl -> copy_of fl k saved -> works_on fl k runner ->
  works_on fl k (runner_for fl saved runner).
Proof.
  intros Hc (row & Hrow & _ & _ & E) Hw. unfold runner_for. destruct runner as [r|]; [done|]. intros i. destruct (str_eqb _ "") eqn:En; [done|].
  unfold str_eqb in En. apply bool_decide_eq_false in En. unfold GetRunner. destruct (fl_runners fl !! jr_RunnerID saved); [|done].
  intros [= <-]. exists row. auto.
Qed.

(** A handler's step keeps the fleet consistent and the handlers good. *)
Lemma run_good fl h : consistent fl -> good fl h -> (forall a runner, h = Found a runner -> fresh_id fl a) ->
  let '(fl', h') := run fl h in
  consistent fl' /\ grows fl fl' /\ match h' with Some h' => good fl' h' | None => True end.
Proof.
  intros Hc Hg Hf. destruct h as [a|a runner|a saved runner|a saved runner]; cbn -[ApplyJob saved_again runner_for named_runner].
  - split_and!; [done|apply grows_refl|done|]. by apply asked_good.
  - destruct Hg as [Hwn Hr]. specialize (Hf a runner eq_refl).
    destruct (ApplyJob _ _ _ _ _) as [applied|] eqn:E; [|split_and!; [done|apply grows_refl|done]].
    destruct (apply_consistent fl a runner applied Hc Hf Hr E) as (Hc' & Hcopy & Hw & _ & Hall & _).
    split_and!; [done| |by split]. split; [done|cbn; eauto].
  - destruct Hg as [Hcopy Hw].
    destruct (saved_again_copy fl _ a saved Hc Hcopy) as [Hcopy' _]. split_and!; [done|apply grows_refl|done|by apply fallback_works].
  - destruct Hg as [Hcopy Hw]. destruct runner as [i|]; [|split_and!; [done|apply grows_refl|done]].
    destruct (act_consistent fl _ saved i (ar_now a) Hc Hcopy Hw) as (? & ? & _). by split_and!.
Qed.

(** ** One at a time *)

Lemma applyWorkflowJob_steps fl a : exists applied,
  ApplyJob (fl_jobs fl) (claimed (ToJob (ar_event a) (ar_now a)) (ar_installation a) (ar_pool a) (named_runner fl a)) [] (ar_id a) (ar_now a) = Some applied /\
  applyWorkflowJob fl a =
    let fl1 := {| fl_jobs := aj_table applied; fl_runners := fl_runners fl |} in
    let saved := saved_again fl1 a (aj_out applied) in
    match runner_for fl1 saved (named_runner fl a) with Some i => act fl1 saved i (ar_now a) | None => fl1 end.
Proof.
  destruct (ApplyJob_state (fl_jobs fl) (claimed (ToJob (ar_event a) (ar_now a)) (ar_installation a) (ar_pool a) (named_runner fl a)) (ar_id a) (ar_now a))
    as (applied & E & _). exists applied. split; [done|]. unfold applyWorkflowJob. cbn -[ApplyJob act saved_again runner_for named_runner].
  rewrite E. cbn -[act saved_again runner_for named_runner]. by destruct (runner_for _ _ _).
Qed.

(** What one delivery, handled with nothing in between, does to the fleet. *)
Lemma delivery_alone fl a : consistent fl -> well_named a -> fresh_id fl a ->
  let fl' := applyWorkflowJob fl a in let k := ev_JobID (ar_event a) in
  consistent fl' /\ (forall k', k' <> k -> fl_jobs fl' !! k' = fl_jobs fl !! k') /\
  exists row, fl_jobs fl' !! k = Some row /\
    (forall j (r' : Runner), fl_runners fl' !! j = Some r' -> r_CurrentJobID r' <> "" ->
       (exists r : Runner, fl_runners fl !! j = Some r /\ r_CurrentJobID r = r_CurrentJobID r') \/
       jr_State row = JobInProgress /\ r_CurrentJobID r' = jr_ID row) /\
    (jr_State row = JobCompleted -> forall j (r' : Runner), fl_runners fl' !! j = Some r' -> r_CurrentJobID r' <> jr_ID row).
Proof.
  intros Hc Hwn Hf. cbn zeta. destruct (applyWorkflowJob_steps fl a) as (applied & Ea & ->). cbn zeta. set (k := ev_JobID (ar_event a)).
  destruct (apply_consistent fl a (named_runner fl a) applied Hc Hf (asked_good fl a Hc Hwn) Ea) as (Hc1 & Hcopy & Hw & Hother & _ & row & Hrow & Eid & Est & Er).
  fold k in Hcopy, Hw, Hother, Hrow. set (fl1 := {| fl_jobs := aj_table applied; fl_runners := fl_runners fl |}) in *.
  set (saved := saved_again fl1 a (aj_out applied)).
  assert (Hsaved : copy_of fl1 k saved /\ jr_ID saved = jr_ID row /\ jr_State saved = jr_State row /\ jr_RunnerID saved = jr_RunnerID row).
  { unfold saved, saved_again. destruct (ar_classed a); [|split_and!; done]. rewrite <- Eid, (GetJob_row fl1 k row Hc1 Hrow). cbn.
    split; [by apply copy_of_refl|done]. }
  destruct Hsaved as (Hcopy' & Sid & Sst & Sr). pose proof (fallback_works fl1 k saved _ Hc1 Hcopy' Hw) as Hw'.
  assert (Hhas : forall j (r : Runner), fl_runners fl1 !! j = Some r -> r_CurrentJobID r = jr_ID row -> runner_for fl1 saved (named_runner fl a) = Some j).
  { intros j r Hj E. destruct (co_held fl1 Hc1 j r Hj) as (k2 & row2 & H2 & E2 & E3 & _); [rewrite E; by apply (co_id fl1 Hc1 k)|].
    rewrite E in E2. pose proof (co_ids fl1 Hc1 k2 k row2 row H2 Hrow E2) as ->. rewrite Hrow in H2. injection H2 as <-.
    destruct (runner_for fl1 saved (named_runner fl a)) as [i|] eqn:Ei.
    - destruct (Hw' i eq_refl) as (row' & Hrow' & E' & _). rewrite Hrow in Hrow'. injection Hrow' as <-. congruence.
    - exfalso. unfold runner_for in Ei. destruct (named_runner fl a); [done|]. rewrite Sr, E3 in Ei. unfold str_eqb in Ei.
      rewrite bool_decide_eq_false_2 in Ei by (intros ->; by rewrite (co_named fl1 Hc1) in Hj). unfold GetRunner in Ei. by rewrite Hj in Ei. }
  destruct (runner_for fl1 saved (named_runner fl a)) as [i|] eqn:Ei.
  - destruct (act_consistent fl1 k saved i (ar_now a) Hc1 Hcopy' Hw') as (Hc2 & _ & Ej & Hnew & Hgone). rewrite Sid, Sst in *.
    split_and!; [done|by rewrite Ej|]. exists row. split_and!; [by rewrite Ej|exact Hnew|]. intros Hcompl j r' Hj E.
    destruct (Hnew j r' Hj) as [(r & Hr & Er')|[? _]]; [rewrite E; by apply (co_id fl1 Hc1 k)| |congruence].
    assert (Eij : Some i = Some j) by (apply (Hhas j r); [done|congruence]). injection Eij as ->. by apply (Hgone Hcompl r').
  - split_and!; [done|done|]. exists row. split_and!; [done|intros j r' Hj _; left; by exists r'|].
    intros _ j r' Hj E. by specialize (Hhas j r' Hj E).
Qed.

(** What else moves a runner's row: a transition, a job let go, a new row with a name of its own. *)
Inductive other (runners : gmap string Runner) : gmap string Runner -> Prop :=
  | other_transition id to message kind ub now r' runners' :
      transitionRunner runners id to message kind ub now = inr (r', runners') -> other runners runners'
  | other_release id jobID message is_linked now r' runners' changed :
      jobID <> "" -> CompleteRunnerJob runners id jobID message is_linked now = inr (r', runners', changed) -> other runners runners'
  | other_create id r :
      id <> "" -> runners !! id = None -> fresh_row r -> (forall j (r' : Runner), runners !! j = Some r' -> r_Name r' <> r_Name r) ->
      other runners (<[id:=r]> runners).

Lemma other_consistent fl runners' : consistent fl -> other (fl_runners fl) runners' ->
  let fl' := {| fl_jobs := fl_jobs fl; fl_runners := runners' |} in
  consistent fl' /\ grows fl fl' /\ no_new_job (fl_runners fl) runners'.
Proof.
  intros Hc Ho. cbn zeta. pose proof (co_runners fl Hc) as Hwf.
  assert (Hkeep : table_wf runners' -> same_names (fl_runners fl) runners' -> no_new_job (fl_runners fl) runners' ->
    consistent {| fl_jobs := fl_jobs fl; fl_runners := runners' |} /\ grows fl {| fl_jobs := fl_jobs fl; fl_runners := runners' |} /\
    no_new_job (fl_runners fl) runners').
  { intros Hw Hn Hj. split_and!; [|by apply same_names_grows|done]. apply runners_consistent; [done..|]. intros i r' Hi Hne. left. by apply Hj. }
  destruct Ho as [id to m kd ub now r' runners' H|id j m l now r' runners' ch Hj H|id r Hid Hn Hfresh Hname].
  - apply transition_inv in H as (r & Hr & Ht & _ & -> & ->). apply Hkeep.
    + apply insert_wf; [done|]. apply stamp_wf; [done|by apply (Hwf id)].
    + apply insert_names with r; [done|apply stamp_names].
    + apply insert_no_new with r; [done|]. destruct to; cbn; auto.
  - apply (complete_effect _ _ _ _ _ _ _ _ _ Hwf Hj) in H as (? & ? & ? & _). by apply Hkeep.
  - assert (Hlook : forall i (r' : Runner), <[id:=r]> (fl_runners fl) !! i = Some r' -> i = id /\ r' = r \/ i <> id /\ fl_runners fl !! i = Some r').
    { intros i r'. destruct (decide (i = id)) as [->|]; [rewrite lookup_insert_eq; intros [= <-]; by left|rewrite lookup_insert_ne by done; by right]. }
    assert (Hjob : r_CurrentJobID r = "") by (by destruct Hfresh as (_ & ? & _)).
    split_and!.
    + split; cbn; [by apply insert_wf; [|apply fresh_wf]|by rewrite lookup_insert_ne; [apply (co_named fl Hc)|]| |apply (co_ids fl Hc)|apply (co_id fl Hc)| |].
      * intros i j r1 r2 [[-> ->]|[Hi H1]]%Hlook [[-> ->]|[Hj H2]]%Hlook E; [done| | |by apply (co_names fl Hc i j r1 r2)].
        -- by destruct (Hname j r2 H2).
        -- by destruct (Hname i r1 H1).
      * intros k row Hrow Hne. destruct (co_link fl Hc k row Hrow Hne) as (r1 & Hr1 & En). exists r1. split; [|done].
        rewrite lookup_insert_ne; [done|]. intros E. congruence.
      * intros i r1 [[-> ->]|[Hi H1]]%Hlook Hne; [done|by apply (co_held fl Hc i r1)].
    + split; [intros k row; apply copy_of_refl|]. intros i r1 Hr1. exists r1. split; [|done]. cbn. rewrite lookup_insert_ne; [done|]. intros <-. congruence.
    + intros i r1 [[-> ->]|[Hi H1]]%Hlook Hne; [done|by exists r1].
Qed.

(** Deliveries handled one at a time, among all else that moves a runner. *)
Inductive alone (fl : Fleet) : Fleet -> Prop :=
  | alone_delivery a : well_named a -> fresh_id fl a -> alone fl (applyWorkflowJob fl a)
  | alone_other runners' : other (fl_runners fl) runners' -> alone fl {| fl_jobs := fl_jobs fl; fl_runners := runners' |}.

(** Every job a runner has is in progress. *)
Definition working (fl : Fleet) : Prop :=
  forall i (r : Runner) k row, fl_runners fl !! i = Some r -> r_CurrentJobID r <> "" -> fl_jobs fl !! k = Some row -> jr_ID row = r_CurrentJobID r ->
    jr_State row = JobInProgress.

Lemma alone_working fl fl' : alone fl fl' -> consistent fl -> working fl -> consistent fl' /\ working fl'.
Proof.
  intros [a Hwn Hf|runners' Ho] Hc Hw.
  - destruct (delivery_alone fl a Hc Hwn Hf) as (Hc' & Hother & row & Hrow & Hnew & Hgone). split; [done|].
    intros i r' k2 row2 Hi Hne H2 E. destruct (decide (k2 = ev_JobID (ar_event a))) as [->|Hk].
    + rewrite Hrow in H2. injection H2 as <-. destruct (co_held _ Hc' i r' Hi Hne) as (k3 & row3 & H3 & E3 & _ & Hu).
      pose proof (co_ids _ Hc' k3 _ row3 row H3 Hrow ltac:(congruence)) as ->. rewrite Hrow in H3. injection H3 as <-.
      destruct Hu as [|Hu]; [done|]. by destruct (Hgone Hu i r' Hi).
    + destruct (Hnew i r' Hi Hne) as [(r & Hr & Er)|[Hs Er]].
      * rewrite Hother in H2 by done. apply (Hw i r k2 row2 Hr); [by rewrite Er|done|by rewrite Er].
      * exfalso. apply Hk. apply (co_ids _ Hc' k2 _ row2 row); congruence.
  - destruct (other_consistent fl runners' Hc Ho) as (Hc' & _ & Hn). split; [done|]. intros i r' k row Hi Hne Hk E.
    destruct (Hn i r' Hi Hne) as (r & Hr & Er). apply (Hw i r k row Hr); [by rewrite Er|done|by rewrite Er].
Qed.

Definition empty_fleet : Fleet := {| fl_jobs := ∅; fl_runners := ∅ |}.
Lemma empty_consistent : consistent empty_fleet.
Proof. split; cbn; intros *; rewrite ?lookup_empty; done. Qed.

(** C34: Where deliveries are handled one at a time, in any order and however often
    each comes, and runners are created, drained, failed and removed between them, every
    job a runner has is a job in progress that names that runner: no completed job holds
    one, and no job holds two. *)
Theorem runners_have_jobs_in_progress fl : rtc alone empty_fleet fl ->
  forall i (r : Runner), fl_runners fl !! i = Some r -> r_CurrentJobID r <> "" ->
    exists k row, fl_jobs fl !! k = Some row /\ jr_ID row = r_CurrentJobID r /\ jr_RunnerID row = i /\ jr_State row = JobInProgress.
Proof.
  intros Hs. assert (H : consistent fl /\ working fl).
  { assert (H0 : consistent empty_fleet /\ working empty_fleet) by (split; [apply empty_consistent|by intros i r k row; cbn; rewrite lookup_empty]).
    revert H0. induction Hs as [|x y z Hst _ IH]; [done|]. intros [Hc Hw]. apply IH. by eapply alone_working. }
  destruct H as [Hc Hw]. intros i r Hi Hne. destruct (co_held fl Hc i r Hi Hne) as (k & row & Hk & E1 & E2 & _).
  exists k, row. split_and!; [done|done|done|]. by apply (Hw i r k row).
Qed.

(** ** All at once *)

Record World := { w_fleet : Fleet; w_handlers : list Handler }.

(** Handlers run at once, each stopping where it is if it is told to. *)
Inductive together (w : World) : World -> Prop :=
  | together_arrives a : well_named a -> together w {| w_fleet := w_fleet w; w_handlers := w_handlers w ++ [Asked a] |}
  | together_runs before h rest fl' h' :
      w_handlers w = before ++ h :: rest -> (forall a runner, h = Found a runner -> fresh_id (w_fleet w) a) ->
      run (w_fleet w) h = (fl', h') ->
      together w {| w_fleet := fl'; w_handlers := before ++ match h' with Some h' => h' :: rest | None => rest end |}
  | together_stops before h rest : w_handlers w = before ++ h :: rest -> together w {| w_fleet := w_fleet w; w_handlers := before ++ rest |}
  | together_other runners' : other (fl_runners (w_fleet w)) runners' ->
      together w {| w_fleet := {| fl_jobs := fl_jobs (w_fleet w); fl_runners := runners' |}; w_handlers := w_handlers w |}.

Lemma together_good w w' : together w w' -> consistent (w_fleet w) /\ Forall (good (w_fleet w)) (w_handlers w) ->
  consistent (w_fleet w') /\ Forall (good (w_fleet w')) (w_handlers w').
Proof.
  intros Hst [Hc Hg]. destruct Hst as [a Ha|before h rest fl' h' Hh Hf Hr|before h rest Hh|runners' Ho]; cbn.
  - split; [done|]. apply Forall_app. split; [done|]. by apply Forall_singleton.
  - rewrite Hh in Hg. apply Forall_app in Hg as [Hb Hg]. inversion Hg as [|? ? Hgh Hgr]; subst. pose proof (run_good _ h Hc Hgh Hf) as Hrun. rewrite Hr in Hrun.
    destruct Hrun as (Hc' & Hgrow & Hh'). split; [done|].
    assert (Hall : forall l, Forall (good (w_fleet w)) l -> Forall (good fl') l) by (intros l Hl; eapply Forall_impl; [exact Hl|]; intros ?; by apply good_grows).
    apply Forall_app. split; [by apply Hall|]. destruct h'; [constructor; [done|]|]; by apply Hall.
  - split; [done|]. rewrite Hh in Hg. apply Forall_app in Hg as [Hb Hg]. inversion Hg; subst. by apply Forall_app.
  - destruct (other_consistent _ _ Hc Ho) as (Hc' & Hgrow & _). split; [done|]. eapply Forall_impl; [exact Hg|]. intros ?. by apply good_grows.
Qed.


End Invariant.

(** Four steps are all a handler has. *)
Lemma run_through_enough n fl a : run_through (4 + n) fl (Asked a) = applyWorkflowJob fl a.
Proof.
  destruct (applyWorkflowJob_steps fl a) as (applied & E & _). unfold applyWorkflowJob. cbn -[ApplyJob act saved_again runner_for named_runner].
  by rewrite E.
Qed.
