(* ===== verification/Bus.v ===== *)
(** * The event bus (events/bus.go)

    The bus numbers every event, keeps the recent ones in a ring, and sends each to the
    subscribers it matches over a bounded channel; a subscriber whose channel is full is
    cut off, and comes back with the last number it saw.  Every operation holds the bus's
    lock, so a run of the program is a sequence of them.  Channels live in a store beside
    the bus, because a subscriber that has been cut off still drains its own; a send on a
    closed channel, and closing one twice, are the panics they are in Go ([None]).  Beside
    the program's state a run keeps what was published and what each client took, which
    is what the theorems are about: no operation panics, a feed is never thinned, and a
    client that comes back misses nothing and sees nothing twice. *)
From Stdlib Require Import ZArith Lia Ascii String Sorted.
From stdpp Require Import base strings list gmap relations sorting.
From S2P Require Import Prelude GoString GoText.
Local Open Scope string_scope.
Local Open Scope list_scope.
Local Open Scope Z_scope.

(** ** Data *)
Record Event := { ev_ID : Z; ev_Kind : string; ev_Topic : string; ev_Data : string; ev_At : Time }.

Record SubscribeOptions := {
  so_Kinds : list string;
  so_TopicPrefix : string;
  so_Replay : Z;
  so_Incomplete : bool;
  so_Class : string;
  so_ClassLimit : Z
}.

Definition Matches (o : SubscribeOptions) (e : Event) : bool :=
  if negb (Nat.eqb (length (so_Kinds o)) 0) && negb (bool_decide (ev_Kind e ∈ so_Kinds o)) then false
  else if negb (str_eqb (so_TopicPrefix o) "") && negb (String.prefix (so_TopicPrefix o) (ev_Topic e)) then false
  else true.

(** A channel with room for [ch_cap] events. *)
Record chan := { ch_buf : list Event; ch_cap : Z; ch_closed : bool }.

Inductive send_result := Sent (c : chan) | Full | SendPanic.

(** A send that does not wait. *)
Definition chan_send (c : chan) (e : Event) : send_result :=
  if ch_closed c then SendPanic
  else if Z.of_nat (length (ch_buf c)) <? ch_cap c
  then Sent {| ch_buf := ch_buf c ++ [e]; ch_cap := ch_cap c; ch_closed := false |} else Full.

Definition chan_close (c : chan) : option chan :=
  if ch_closed c then None else Some {| ch_buf := ch_buf c; ch_cap := ch_cap c; ch_closed := true |}.

(** The filter of a subscriber is the [Matches] of the options it was made with. *)
Record subscriber := { sub_id : Z; sub_ch : Z; sub_filter : SubscribeOptions; sub_class : string; sub_kinds : list string }.

Record Bus := {
  bus_subs : gmap Z subscriber;
  bus_nextID : Z;
  bus_seq : Z;
  bus_buffer : Z;
  bus_ring : list Event;
  bus_ringCap : Z
}.

(** The bus and the channels it shares with its subscribers. *)
Record state := { st_bus : Bus; st_chans : gmap Z chan }.

Definition New : state :=
  {| st_bus := {| bus_subs := ∅; bus_nextID := 0; bus_seq := 0; bus_buffer := 512; bus_ring := []; bus_ringCap := 256 |};
     st_chans := ∅ |}.

(** ** Publishing *)
Definition number (e : Event) (id : Z) : Event :=
  {| ev_ID := id; ev_Kind := ev_Kind e; ev_Topic := ev_Topic e; ev_Data := ev_Data e; ev_At := ev_At e |}.

(** A uint64 one more. *)
Definition next_seq (n : Z) : Z := (n + 1) mod 2 ^ 64.

Definition keep_last (cap : Z) (l : list Event) : list Event :=
  if cap <? Z.of_nat (length l) then drop (length l - Z.to_nat cap) l else l.

(** The loop over the subscribers: one subscriber of the map.  The order does not
    matter, each has a channel of its own. *)
Definition offer (e : Event) (acc : option (gmap Z subscriber * gmap Z chan)) (s : subscriber) :=
  match acc with
  | None => None
  | Some (subs, chans) =>
      if negb (Matches (sub_filter s) e) then Some (subs, chans)
      else match chans !! sub_ch s with
           | None => None
           | Some c =>
               match chan_send c e with
               | SendPanic => None
               | Sent c' => Some (subs, <[sub_ch s := c']> chans)
               | Full => match chan_close c with
                         | None => None
                         | Some c' => Some (delete (sub_id s) subs, <[sub_ch s := c']> chans)
                         end
               end
           end
  end.

Definition publish (st : state) (e : Event) (keep : bool) : option state :=
  let b := st_bus st in
  let seq := next_seq (bus_seq b) in
  let e := number e seq in
  let ring := if keep && (0 <? bus_ringCap b) then keep_last (bus_ringCap b) (bus_ring b ++ [e]) else bus_ring b in
  match foldl (offer e) (Some (bus_subs b, st_chans st)) ((map_to_list (bus_subs b)).*2) with
  | None => None
  | Some (subs, chans) =>
      Some {| st_bus := {| bus_subs := subs; bus_nextID := bus_nextID b; bus_seq := seq; bus_buffer := bus_buffer b;
                           bus_ring := ring; bus_ringCap := bus_ringCap b |};
              st_chans := chans |}
  end.

(** Both are handed the event [frame] rendered; a payload it could not render publishes nothing. *)
Definition Publish (st : state) (e : option Event) : option state := match e with Some e => publish st e true | None => Some st end.
Definition PublishTransient (st : state) (e : option Event) : option state := match e with Some e => publish st e false | None => Some st end.

(** ** Subscribing *)
Definition replayLocked (b : Bus) (since : Z) (filter : Event -> bool) : list Event * bool :=
  let complete :=
    if 0 <? since then
      let last := bus_seq b in
      if last <? since then false
      else if since =? last then true
      else match bus_ring b with
           | [] => false
           | e :: _ => negb ((since + 1) mod 2 ^ 64 <? ev_ID e)
           end
    else true in
  (List.filter (fun e => (since <? ev_ID e) && filter e) (bus_ring b), complete).

Definition Recent (b : Bus) (since : Z) (opts : SubscribeOptions) (limit : Z) : list Event * bool * bool :=
  let '(items, complete) := replayLocked b since (Matches opts) in
  if (0 <? limit) && (limit <? Z.of_nat (length items)) then (take (Z.to_nat limit) items, complete, true)
  else (items, complete, false).

Definition countLocked (b : Bus) (class : string) : Z :=
  Z.of_nat (length (List.filter (fun s => str_eqb (sub_class s) class) ((map_to_list (bus_subs b)).*2))).

(** The replay into the new channel: an event it has no room for makes the replay
    incomplete. *)
Definition replay_into (acc : option (chan * bool)) (e : Event) : option (chan * bool) :=
  match acc with
  | None => None
  | Some (c, complete) =>
      match chan_send c e with
      | SendPanic => None
      | Sent c' => Some (c', complete)
      | Full => Some (c, false)
      end
  end.

(** A [Subscription]; [Closed] is whether its [once] has run. *)
Record Subscription := { sn_id : Z; sn_Complete : bool; sn_Closed : bool }.

(** [SubscribeWithin]: [Some (st, None)] is the refusal at the ceiling. *)
Definition SubscribeWithin (st : state) (opts : SubscribeOptions) (limit : Z) : option (state * option Subscription) :=
  let b := st_bus st in
  let ceiling := if str_eqb (so_Class opts) "" then limit else so_ClassLimit opts in
  if (0 <? ceiling) && (ceiling <=? countLocked b (so_Class opts)) then Some (st, None)
  else
    let id := bus_nextID b + 1 in
    let sub := {| sub_id := id; sub_ch := id; sub_filter := opts; sub_class := so_Class opts; sub_kinds := so_Kinds opts |} in
    let '(replay, complete) := if 0 <? so_Replay opts then replayLocked b (so_Replay opts) (Matches opts) else ([], true) in
    match foldl replay_into (Some ({| ch_buf := []; ch_cap := bus_buffer b; ch_closed := false |}, complete)) replay with
    | None => None
    | Some (c, complete) =>
        let complete := if so_Incomplete opts then false else complete in
        Some ({| st_bus := {| bus_subs := <[id := sub]> (bus_subs b); bus_nextID := id; bus_seq := bus_seq b;
                              bus_buffer := bus_buffer b; bus_ring := bus_ring b; bus_ringCap := bus_ringCap b |};
                 st_chans := <[id := c]> (st_chans st) |},
              Some {| sn_id := id; sn_Complete := complete; sn_Closed := false |})
    end.

Definition Subscribe (st : state) (opts : SubscribeOptions) : option (state * option Subscription) := SubscribeWithin st opts 0.

(** [Close]: the subscription after it, and the bus. *)
Definition Close (st : state) (sn : Subscription) : option (state * Subscription) :=
  if sn_Closed sn then Some (st, sn)
  else
    let b := st_bus st in
    let sn' := {| sn_id := sn_id sn; sn_Complete := sn_Complete sn; sn_Closed := true |} in
    match bus_subs b !! sn_id sn with
    | None => Some (st, sn')
    | Some sub =>
        match st_chans st !! sub_ch sub with
        | None => None
        | Some c =>
            match chan_close c with
            | None => None
            | Some c' =>
                Some ({| st_bus := {| bus_subs := delete (sn_id sn) (bus_subs b); bus_nextID := bus_nextID b; bus_seq := bus_seq b;
                                      bus_buffer := bus_buffer b; bus_ring := bus_ring b; bus_ringCap := bus_ringCap b |};
                         st_chans := <[sub_ch sub := c']> (st_chans st) |}, sn')
            end
        end
    end.

(** The client takes the next event of its channel, when there is one. *)
Definition receive (st : state) (id : Z) : option (Event * state) :=
  match st_chans st !! id with
  | Some c =>
      match ch_buf c with
      | [] => None
      | e :: rest =>
          Some (e, {| st_bus := st_bus st;
                      st_chans := <[id := {| ch_buf := rest; ch_cap := ch_cap c; ch_closed := ch_closed c |}]> (st_chans st) |})
      end
  | None => None
  end.

Definition Subscribers (b : Bus) : Z := Z.of_nat (size (bus_subs b)).
Definition ClassSubscribers (b : Bus) (class : string) : Z := countLocked b class.
Definition LastID (b : Bus) : Z := bus_seq b.
Definition Wants (b : Bus) (kind : string) : bool :=
  existsb (fun s => Nat.eqb (length (sub_kinds s)) 0 || bool_decide (kind ∈ sub_kinds s)) ((map_to_list (bus_subs b)).*2).

(** ** A run of the bus *)

(** What one client asked for, and what it has taken from its channel. *)
Record feed := { fd_opts : SubscribeOptions; fd_sn : Subscription; fd_from : nat; fd_got : list Event }.

(** The state with everything published so far, each with whether it is kept, and the
    feeds there have been; [fd_from] is how much had been published when one began. *)
Record world := { w_st : state; w_log : list (Event * bool); w_feeds : gmap Z feed }.

Definition start : world := {| w_st := New; w_log := []; w_feeds := ∅ |}.

Inductive step (w : world) : world -> Prop :=
  | step_publish e keep st' :
      publish (w_st w) e keep = Some st' ->
      step w {| w_st := st'; w_log := w_log w ++ [(number e (bus_seq (st_bus st')), keep)]; w_feeds := w_feeds w |}
  | step_subscribe opts limit st' sn :
      SubscribeWithin (w_st w) opts limit = Some (st', Some sn) ->
      step w {| w_st := st'; w_log := w_log w;
                w_feeds := <[sn_id sn := {| fd_opts := opts; fd_sn := sn; fd_from := length (w_log w); fd_got := [] |}]> (w_feeds w) |}
  | step_close id fd st' sn' :
      w_feeds w !! id = Some fd -> Close (w_st w) (fd_sn fd) = Some (st', sn') ->
      step w {| w_st := st'; w_log := w_log w;
                w_feeds := <[id := {| fd_opts := fd_opts fd; fd_sn := sn'; fd_from := fd_from fd; fd_got := fd_got fd |}]> (w_feeds w) |}
  | step_receive id fd e st' :
      w_feeds w !! id = Some fd -> receive (w_st w) id = Some (e, st') ->
      step w {| w_st := st'; w_log := w_log w;
                w_feeds := <[id := {| fd_opts := fd_opts fd; fd_sn := fd_sn fd; fd_from := fd_from fd; fd_got := fd_got fd ++ [e] |}]> (w_feeds w) |}.

Definition reachable (w : world) : Prop := rtc step start w.

(** The numbers have not run out. *)
Definition short (w : world) : Prop := Z.of_nat (length (w_log w)) < 2 ^ 64.

(** *** What a feed is owed *)
Definition kept (log : list (Event * bool)) : list Event := fst <$> List.filter snd log.
Definition replayed (log : list (Event * bool)) (fd : feed) : list Event :=
  if 0 <? so_Replay (fd_opts fd)
  then List.filter (fun e => (so_Replay (fd_opts fd) <? ev_ID e) && Matches (fd_opts fd) e)
         (keep_last 256 (kept (take (fd_from fd) log)))
  else [].
Definition owed (log : list (Event * bool)) (fd : feed) : list Event :=
  replayed log fd ++ List.filter (Matches (fd_opts fd)) (fst <$> drop (fd_from fd) log).

(** What the client has taken and what is waiting for it. *)
Definition sent (w : world) (id : Z) (fd : feed) : list Event :=
  fd_got fd ++ match st_chans (w_st w) !! id with Some c => ch_buf c | None => [] end.

(** *** The sends of one event *)
Definition pushed (c : chan) (e : Event) : chan := {| ch_buf := ch_buf c ++ [e]; ch_cap := ch_cap c; ch_closed := false |}.
Definition shut (c : chan) : chan := {| ch_buf := ch_buf c; ch_cap := ch_cap c; ch_closed := true |}.
Definition has_room (c : chan) : bool := Z.of_nat (length (ch_buf c)) <? ch_cap c.

(** What becomes of a subscriber and its channel. *)
Definition offered (e : Event) (o : SubscribeOptions) (s : option subscriber) (c : chan) : option subscriber * chan :=
  if Matches o e then if has_room c then (s, pushed c e) else (None, shut c) else (s, c).

Lemma offer_spec e subs chans s c :
  chans !! sub_ch s = Some c -> ch_closed c = false -> sub_ch s = sub_id s ->
  exists subs' chans', offer e (Some (subs, chans)) s = Some (subs', chans') /\
    (forall i, i <> sub_id s -> subs' !! i = subs !! i /\ chans' !! i = chans !! i) /\
    (subs' !! sub_id s, chans' !! sub_id s) =
      ((offered e (sub_filter s) (subs !! sub_id s) c).1, Some (offered e (sub_filter s) (subs !! sub_id s) c).2).
Proof.
  intros Hc Ho Hs. unfold offer, offered. destruct (Matches (sub_filter s) e); cbn [negb].
  - rewrite Hc. unfold chan_send, chan_close. rewrite Ho. fold (has_room c). rewrite Hs in *. destruct (has_room c); eexists _, _; (split; [done|]).
    + split; [|by rewrite lookup_insert_eq]. intros i Hi. by rewrite lookup_insert_ne.
    + split; [|by rewrite lookup_insert_eq, lookup_delete_eq]. intros i Hi. by rewrite lookup_insert_ne, lookup_delete_ne.
  - eexists _, _. split; [done|]. split; [done|]. rewrite Hs in Hc. by rewrite Hc.
Qed.

Lemma offers_spec e l subs chans :
  NoDup (sub_id <$> l) ->
  (forall s, s ∈ l -> sub_ch s = sub_id s /\ exists c, chans !! sub_id s = Some c /\ ch_closed c = false) ->
  exists subs' chans', foldl (offer e) (Some (subs, chans)) l = Some (subs', chans') /\
    (forall i, i ∉ sub_id <$> l -> subs' !! i = subs !! i /\ chans' !! i = chans !! i) /\
    (forall s c, s ∈ l -> chans !! sub_id s = Some c ->
       (subs' !! sub_id s, chans' !! sub_id s) =
         ((offered e (sub_filter s) (subs !! sub_id s) c).1, Some (offered e (sub_filter s) (subs !! sub_id s) c).2)).
Proof.
  revert subs chans. induction l as [|s l IH]; intros subs chans Hnd Hl.
  { exists subs, chans. split_and!; [done|done|]. intros s c H. by apply elem_of_nil in H. }
  rewrite fmap_cons in Hnd. apply NoDup_cons in Hnd as [Hs Hnd]. destruct (Hl s) as (Hch & c & Hc & Ho); [by left|].
  destruct (offer_spec e subs chans s c) as (subs1 & chans1 & E1 & Hout & Hin); [by rewrite Hch|done|done|].
  destruct (IH subs1 chans1) as (subs2 & chans2 & E2 & Hout2 & Hin2); [done| |].
  { intros s' Hs'. destruct (Hl s') as (Hch' & c' & Hc' & Ho'); [by right|]. split; [done|]. exists c'. split; [|done].
    rewrite (proj2 (Hout (sub_id s') ltac:(intros E; apply Hs; rewrite <- E; by apply list_elem_of_fmap_2))). done. }
  exists subs2, chans2. split_and!.
  - change (foldl (offer e) (Some (subs, chans)) (s :: l)) with (foldl (offer e) (offer e (Some (subs, chans)) s) l). by rewrite E1.
  - intros i Hi. rewrite fmap_cons, not_elem_of_cons in Hi. destruct Hi as [Hi1 Hi2]. destruct (Hout2 i Hi2) as [-> ->]. by apply Hout.
  - intros s' c' Hs' Hc'. apply elem_of_cons in Hs' as [->|Hs'].
    + destruct (Hout2 (sub_id s) Hs) as [-> ->]. rewrite Hc in Hc'. by injection Hc' as <-.
    + assert (Hne : sub_id s' <> sub_id s) by (intros E; apply Hs; rewrite <- E; by apply list_elem_of_fmap_2).
      destruct (Hout _ Hne) as [Es Ec]. rewrite (Hin2 s' c' Hs') by (by rewrite Ec). by rewrite Es.
Qed.

(** *** The ring *)
Definition before (a b : Event) : Prop := ev_ID a < ev_ID b.

Lemma keep_last_drop cap l : 0 <= cap -> keep_last cap l = drop (length l - Z.to_nat cap) l.
Proof. intros H. unfold keep_last. destruct (Z.ltb_spec cap (Z.of_nat (length l))); [done|]. by replace (length l - Z.to_nat cap)%nat with 0%nat by lia. Qed.

Lemma keep_last_snoc cap l e : 0 < cap -> keep_last cap (keep_last cap l ++ [e]) = keep_last cap (l ++ [e]).
Proof.
  intros H. rewrite !keep_last_drop, !length_app, length_drop by lia. simpl. set (c := Z.to_nat cap). assert (0 < c)%nat by lia.
  destruct (decide (length l <= c)%nat) as [Hl|Hl].
  - replace (length l - c)%nat with 0%nat by lia. by rewrite drop_0, Nat.sub_0_r.
  - replace (length l - (length l - c) + 1 - c)%nat with 1%nat by lia. replace (length l + 1 - c)%nat with (S (length l - c)) by lia.
    rewrite !drop_app_le by (rewrite ?length_drop; lia). rewrite drop_drop. do 2 f_equal. lia.
Qed.

Lemma length_keep_last l : (length (keep_last 256 l) <= 256)%nat.
Proof. rewrite keep_last_drop, length_drop by lia. lia. Qed.

Lemma kept_app l l' : kept (l ++ l') = kept l ++ kept l'.
Proof. unfold kept. by rewrite List.filter_app, fmap_app. Qed.

Lemma sorted_bfilter {A} (R : A -> A -> Prop) (f : A -> bool) l : StronglySorted R l -> StronglySorted R (List.filter f l).
Proof.
  induction 1 as [|x l Hs IH Hf]; simpl; [constructor|]. destruct (f x); [|done]. constructor; [done|].
  rewrite Forall_forall in Hf |- *. intros y Hy. apply elem_of_bfilter in Hy as [Hy _]. by apply Hf.
Qed.

Lemma bfilter_none {A} (f : A -> bool) l : Forall (fun x => f x = false) l -> List.filter f l = [].
Proof. induction 1 as [|x l Hx _ IH]; [done|]. simpl. by rewrite Hx. Qed.

(** When the ring still reaches back to the event after [since], it has every kept event
    after it. *)
Lemma ring_covers (f : Event -> bool) since l e ring :
  StronglySorted before l -> keep_last 256 l = e :: ring -> ev_ID e <= since + 1 ->
  List.filter (fun x => (since <? ev_ID x) && f x) (keep_last 256 l) = List.filter (fun x => (since <? ev_ID x) && f x) l.
Proof.
  rewrite keep_last_drop by lia. set (k := (length l - Z.to_nat 256)%nat). intros Hs E He.
  rewrite <- (take_drop k l) at 2. rewrite List.filter_app. rewrite <- (take_drop k l) in Hs. apply StronglySorted_app in Hs as (Hlt & _ & _).
  rewrite (bfilter_none _ (take k l)); [done|]. apply Forall_forall. intros x Hx.
  assert (ev_ID x < ev_ID e) by (apply (Hlt x e); [done|rewrite E; by left]). by rewrite (proj2 (Z.ltb_ge _ _)) by lia.
Qed.

(** *** The invariant *)
Record feed_ok (w : world) (i : Z) (fd : feed) : Prop := {
  fo_id : sn_id (fd_sn fd) = i;
  fo_next : i <= bus_nextID (st_bus (w_st w));
  fo_from : (fd_from fd <= length (w_log w))%nat;
  fo_chan : exists c, st_chans (w_st w) !! i = Some c /\ ch_cap c = 512 /\
              (ch_closed c = false <-> is_Some (bus_subs (st_bus (w_st w)) !! i));
  fo_sent : sent w i fd `prefix_of` owed (w_log w) fd;
  fo_open : is_Some (bus_subs (st_bus (w_st w)) !! i) -> sent w i fd = owed (w_log w) fd;
  fo_complete : sn_Complete (fd_sn fd) = true -> 0 < so_Replay (fd_opts fd) ->
    so_Replay (fd_opts fd) <= Z.of_nat (fd_from fd) /\
    replayed (w_log w) fd = List.filter (fun e => (so_Replay (fd_opts fd) <? ev_ID e) && Matches (fd_opts fd) e) (kept (take (fd_from fd) (w_log w)))
}.

Record inv (w : world) : Prop := {
  in_seq : bus_seq (st_bus (w_st w)) = Z.of_nat (length (w_log w));
  in_ids : forall k x, w_log w !! k = Some x -> ev_ID x.1 = Z.of_nat k + 1;
  in_ring : bus_ring (st_bus (w_st w)) = keep_last 256 (kept (w_log w));
  in_cap : bus_ringCap (st_bus (w_st w)) = 256;
  in_buffer : bus_buffer (st_bus (w_st w)) = 512;
  in_subs : forall i s, bus_subs (st_bus (w_st w)) !! i = Some s ->
    sub_id s = i /\ sub_ch s = i /\ exists fd, w_feeds w !! i = Some fd /\ sub_filter s = fd_opts fd;
  in_feeds : map_Forall (feed_ok w) (w_feeds w)
}.

Lemma log_sorted (log : list (Event * bool)) :
  (forall k x, log !! k = Some x -> ev_ID x.1 = Z.of_nat k + 1) -> StronglySorted before (fst <$> log).
Proof.
  induction log as [|x log IH] using rev_ind; intros H; [constructor|]. rewrite fmap_app. apply (StronglySorted_app_2 before).
  - intros a b Ha Hb. apply list_elem_of_fmap in Ha as (y & -> & Hy). apply list_elem_of_singleton in Hb as ->.
    apply list_elem_of_lookup in Hy as [k Hk]. assert (k < length log)%nat by (by eapply lookup_lt_Some). unfold before.
    rewrite (H k y), (H (length log) x); [lia|by apply list_lookup_middle|]. by rewrite lookup_app_l.
  - apply IH. intros k y Hk. apply H. rewrite lookup_app_l; [done|]. by eapply lookup_lt_Some.
  - repeat constructor.
Qed.

Lemma kept_sorted log : StronglySorted before (fst <$> log) -> StronglySorted before (kept log).
Proof.
  induction log as [|[e k] log IH]; simpl; intros H; [constructor|]. inversion H as [|? ? Hs Hf]; subst. unfold kept. simpl.
  destruct k; [|by apply IH]. rewrite fmap_cons. constructor; [by apply IH|]. rewrite Forall_forall in Hf |- *. intros x Hx.
  apply Hf. apply list_elem_of_fmap in Hx as (y & -> & Hy). apply elem_of_bfilter in Hy as [Hy _]. by apply list_elem_of_fmap_2.
Qed.

Lemma kept_le log n e : (forall k x, log !! k = Some x -> ev_ID x.1 = Z.of_nat k + 1) -> e ∈ kept (take n log) -> ev_ID e <= Z.of_nat n.
Proof.
  intros H He. apply list_elem_of_fmap in He as (x & -> & Hx). apply elem_of_bfilter in Hx as [Hx _].
  apply list_elem_of_lookup in Hx as [k Hk]. apply lookup_take_Some in Hk as [Hk Hn]. rewrite (H k x Hk). lia.
Qed.

Lemma subs_ids w : inv w -> sub_id <$> (map_to_list (bus_subs (st_bus (w_st w)))).*2 = (map_to_list (bus_subs (st_bus (w_st w)))).*1.
Proof.
  intros Hi. rewrite <- list_fmap_compose. apply list_fmap_ext. intros k [i s] Hk. simpl.
  apply list_elem_of_lookup_2, elem_of_map_to_list in Hk. by destruct (in_subs w Hi i s Hk).
Qed.

Lemma subs_elem (subs : gmap Z subscriber) s : s ∈ (map_to_list subs).*2 <-> exists i, subs !! i = Some s.
Proof.
  rewrite list_elem_of_fmap. split.
  - intros ([i s'] & -> & H). exists i. by apply elem_of_map_to_list.
  - intros [i H]. exists (i, s). split; [done|]. by apply elem_of_map_to_list.
Qed.

(** Every subscriber is offered the event once, and nothing panics. *)
Lemma offers_all w e : inv w ->
  exists subs' chans', foldl (offer e) (Some (bus_subs (st_bus (w_st w)), st_chans (w_st w))) ((map_to_list (bus_subs (st_bus (w_st w)))).*2) = Some (subs', chans') /\
    (forall i, bus_subs (st_bus (w_st w)) !! i = None -> subs' !! i = None /\ chans' !! i = st_chans (w_st w) !! i) /\
    (forall i s c, bus_subs (st_bus (w_st w)) !! i = Some s -> st_chans (w_st w) !! i = Some c ->
       (subs' !! i, chans' !! i) = ((offered e (sub_filter s) (Some s) c).1, Some (offered e (sub_filter s) (Some s) c).2)).
Proof.
  intros Hi. destruct (offers_spec e ((map_to_list (bus_subs (st_bus (w_st w)))).*2) (bus_subs (st_bus (w_st w))) (st_chans (w_st w)))
    as (subs' & chans' & E & Hout & Hin).
  - rewrite subs_ids by done. apply NoDup_fst_map_to_list.
  - intros s Hs. apply subs_elem in Hs as [i Hs]. destruct (in_subs w Hi i s Hs) as (-> & -> & fd & Hfd & _). split; [done|].
    destruct (fo_chan w i fd (in_feeds w Hi i fd Hfd)) as (c & Hc & _ & Ho). exists c. split; [done|]. apply Ho. by exists s.
  - exists subs', chans'. split_and!; [done| |].
    + intros i Hn. rewrite <- Hn. apply Hout. rewrite subs_ids by done. intros Hk. apply list_elem_of_fmap in Hk as ([j s] & -> & Hk).
      apply elem_of_map_to_list in Hk. simpl in Hn. congruence.
    + intros i s c Hs Hc. destruct (in_subs w Hi i s Hs) as (<- & _ & _). assert (Hel : s ∈ (map_to_list (bus_subs (st_bus (w_st w)))).*2) by (apply subs_elem; by exists (sub_id s)).
      by rewrite (Hin s c Hel Hc), Hs.
Qed.

Lemma publish_total w e keep : inv w -> is_Some (publish (w_st w) e keep).
Proof. intros Hi. unfold publish. destruct (offers_all w (number e (next_seq (bus_seq (st_bus (w_st w))))) Hi) as (? & ? & -> & _). by eexists. Qed.

(** What one more event adds to what a feed is owed. *)
Lemma owed_snoc log fd e k : (fd_from fd <= length log)%nat ->
  owed (log ++ [(e, k)]) fd = owed log fd ++ (if Matches (fd_opts fd) e then [e] else []).
Proof.
  intros H. unfold owed, replayed. rewrite take_app_le, drop_app_le by done. rewrite fmap_app, List.filter_app, app_assoc. reflexivity.
Qed.

Lemma publish_feed w e keep st' i fd : inv w -> publish (w_st w) e keep = Some st' -> w_feeds w !! i = Some fd ->
  feed_ok {| w_st := st'; w_log := w_log w ++ [(number e (bus_seq (st_bus st')), keep)]; w_feeds := w_feeds w |} i fd.
Proof.
  intros Hi Hp Hfd. pose proof (in_feeds w Hi i fd Hfd) as Hok. unfold publish in Hp. set (e' := number e _) in Hp.
  destruct (offers_all w e' Hi) as (subs' & chans' & E & Hout & Hin). rewrite E in Hp. injection Hp as <-.
  destruct (fo_chan w i fd Hok) as (c & Hc & Hcap & Hopen). pose proof (fo_from w i fd Hok) as Hfrom.
  assert (Hsent : sent w i fd = fd_got fd ++ ch_buf c) by (unfold sent; by rewrite Hc).
  set (w' := {| w_st := _; w_log := _; w_feeds := _ |}). pose proof (fo_sent w i fd Hok) as Hpre. rewrite Hsent in Hpre.
  assert (Howed : owed (w_log w') fd = owed (w_log w) fd ++ (if Matches (fd_opts fd) e' then [e'] else [])) by (by apply owed_snoc).
  assert (Hgrow : fd_got fd ++ ch_buf c `prefix_of` owed (w_log w') fd) by (rewrite Howed; by apply prefix_app_r).
  assert (Hcomp : sn_Complete (fd_sn fd) = true -> 0 < so_Replay (fd_opts fd) ->
    so_Replay (fd_opts fd) <= Z.of_nat (fd_from fd) /\ replayed (w_log w') fd =
      List.filter (fun e => (so_Replay (fd_opts fd) <? ev_ID e) && Matches (fd_opts fd) e) (kept (take (fd_from fd) (w_log w')))).
  { intros H1 H2. destruct (fo_complete w i fd Hok H1 H2) as [H3 H4]. split; [done|]. unfold replayed in *. cbn [w_log w'].
    by rewrite take_app_le by done. }
  assert (Hlen : (fd_from fd <= length (w_log w'))%nat) by (cbn [w_log w']; rewrite length_app; lia).
  destruct (bus_subs (st_bus (w_st w)) !! i) as [s|] eqn:Hs.
  - destruct (in_subs w Hi i s Hs) as (_ & _ & fd' & Hfd' & Hf). rewrite Hfd in Hfd'. injection Hfd' as <-.
    pose proof (fo_open w i fd Hok ltac:(by rewrite Hs)) as Hall. rewrite Hsent in Hall.
    specialize (Hin i s c Hs Hc). unfold offered in Hin. rewrite Hf in Hin.
    assert (Hclosed : ch_closed c = false) by (apply Hopen; by eexists).
    destruct (Matches (fd_opts fd) e') eqn:Em; [destruct (has_room c)|]; injection Hin as Hs' Hc'; rewrite ?app_nil_r in Howed.
    + assert (Hsent' : sent w' i fd = owed (w_log w') fd) by (unfold sent; cbn [w' w_st st_chans]; rewrite Hc', Howed, <- Hall; cbn [pushed ch_buf]; by rewrite app_assoc).
      split; [exact (fo_id w i fd Hok)|exact (fo_next w i fd Hok)|done| |by rewrite Hsent'|done|done].
      exists (pushed c e'). split_and!; [done|done|]. cbn [w' w_st st_bus bus_subs]. by rewrite Hs'.
    + assert (Hsent' : sent w' i fd = fd_got fd ++ ch_buf c) by (unfold sent; cbn [w' w_st st_chans]; by rewrite Hc').
      split; [exact (fo_id w i fd Hok)|exact (fo_next w i fd Hok)|done| |by rewrite Hsent'| |done].
      * exists (shut c). split_and!; [done|done|]. cbn [w' w_st st_bus bus_subs]. rewrite Hs'. by split; [|intros []].
      * cbn [w' w_st st_bus bus_subs]. rewrite Hs'. by intros [].
    + assert (Hsent' : sent w' i fd = owed (w_log w') fd) by (unfold sent; cbn [w' w_st st_chans]; by rewrite Hc', Howed).
      split; [exact (fo_id w i fd Hok)|exact (fo_next w i fd Hok)|done| |by rewrite Hsent'|done|done].
      exists c. split_and!; [done|done|]. cbn [w' w_st st_bus bus_subs]. by rewrite Hs'.
  - destruct (Hout i Hs) as [Hs' Hc']. rewrite Hc in Hc'.
    assert (Hsent' : sent w' i fd = fd_got fd ++ ch_buf c) by (unfold sent; cbn [w' w_st st_chans]; by rewrite Hc').
    split; [exact (fo_id w i fd Hok)|exact (fo_next w i fd Hok)|done| |by rewrite Hsent'| |done].
    + exists c. split_and!; [done|done|]. cbn [w' w_st st_bus bus_subs]. by rewrite Hs'.
    + cbn [w' w_st st_bus bus_subs]. rewrite Hs'. by intros [].
Qed.

Lemma inv_publish w e keep st' : inv w -> publish (w_st w) e keep = Some st' ->
  let w' := {| w_st := st'; w_log := w_log w ++ [(number e (bus_seq (st_bus st')), keep)]; w_feeds := w_feeds w |} in
  short w' -> inv w'.
Proof.
  intros Hi Hp w' Hs. assert (Hfeeds : map_Forall (feed_ok w') (w_feeds w)) by (intros i fd Hfd; by eapply publish_feed).
  unfold short, w' in Hs. cbn [w_log] in Hs. rewrite length_app in Hs. simpl in Hs.
  assert (Hseq : bus_seq (st_bus st') = Z.of_nat (length (w_log w)) + 1 /\
                 bus_ring (st_bus st') = (if keep then keep_last 256 (bus_ring (st_bus (w_st w)) ++ [number e (bus_seq (st_bus st'))]) else bus_ring (st_bus (w_st w))) /\
                 bus_ringCap (st_bus st') = 256 /\ bus_buffer (st_bus st') = 512 /\
                 forall i s, bus_subs (st_bus st') !! i = Some s -> bus_subs (st_bus (w_st w)) !! i = Some s).
  { unfold publish in Hp. set (e' := number e _) in Hp. destruct (offers_all w e' Hi) as (subs' & chans' & E & Hout & Hin).
    rewrite E in Hp. injection Hp as <-. cbn [st_bus bus_seq bus_ring bus_ringCap bus_buffer bus_subs]. rewrite (in_cap w Hi), (in_buffer w Hi).
    split_and!; [unfold next_seq; rewrite (in_seq w Hi), Z.mod_small; lia|by destruct keep|done|done|].
    intros i s Hs'. destruct (bus_subs (st_bus (w_st w)) !! i) as [s0|] eqn:E0; [|by destruct (Hout i E0) as [E1 _]; rewrite E1 in Hs'].
    destruct (in_subs w Hi i s0 E0) as (_ & _ & fd & Hfd & _). destruct (fo_chan w i fd (in_feeds w Hi i fd Hfd)) as (c & Hc & _).
    specialize (Hin i s0 c E0 Hc). injection Hin as E1 _. rewrite E1 in Hs'. unfold offered in Hs'. by repeat case_match. }
  destruct Hseq as (Hseq & Hring & Hcap & Hbuf & Hsubs). split; unfold w'; cbn [w_st w_log w_feeds].
  - rewrite Hseq, length_app. simpl. lia.
  - intros k x Hk. apply lookup_app_Some in Hk as [Hk|[Hk Hx]]; [by apply (in_ids w Hi)|]. apply list_lookup_singleton_Some in Hx as [Hx <-].
    simpl. rewrite Hseq. lia.
  - rewrite Hring, kept_app, (in_ring w Hi). destruct keep; unfold kept at 3; cbn; [by rewrite keep_last_snoc|by rewrite app_nil_r].
  - done.
  - done.
  - intros i s Hs'. by apply (in_subs w Hi), Hsubs.
  - done.
Qed.

(** *** Subscribing *)
Lemma replay_into_all l c complete : ch_closed c = false -> Z.of_nat (length (ch_buf c)) + Z.of_nat (length l) <= ch_cap c ->
  foldl replay_into (Some (c, complete)) l = Some ({| ch_buf := ch_buf c ++ l; ch_cap := ch_cap c; ch_closed := false |}, complete).
Proof.
  revert c. induction l as [|e l IH]; intros c Ho Hl.
  - rewrite app_nil_r. destruct c; simpl in *. by subst.
  - cbn [foldl replay_into]. unfold chan_send. rewrite Ho. cbn [length] in Hl. rewrite (proj2 (Z.ltb_lt _ _)) by lia.
    rewrite IH; cbn [ch_buf ch_cap ch_closed]; [by rewrite <- app_assoc|done|]. rewrite length_app. simpl. lia.
Qed.

Lemma replayLocked_length b since f : (length (replayLocked b since f).1 <= length (bus_ring b))%nat.
Proof. unfold replayLocked. cbn [fst]. apply List.filter_length_le. Qed.

(** A replay is complete only when it has every kept event after [since]. *)
Lemma replayLocked_complete w since o : inv w -> short w -> 0 < since ->
  (replayLocked (st_bus (w_st w)) since (Matches o)).2 = true ->
  since <= Z.of_nat (length (w_log w)) /\
  (replayLocked (st_bus (w_st w)) since (Matches o)).1 = List.filter (fun e => (since <? ev_ID e) && Matches o e) (kept (w_log w)).
Proof.
  intros Hi Hs H0. unfold replayLocked. cbn [fst snd]. rewrite (proj2 (Z.ltb_lt _ _)) by done. rewrite (in_seq w Hi), (in_ring w Hi).
  destruct (Z.ltb_spec (Z.of_nat (length (w_log w))) since) as [|Hle]; [done|]. intros Hc. split; [done|].
  assert (Hids := in_ids w Hi). pose proof (kept_sorted _ (log_sorted _ Hids)) as Hsort.
  destruct (Z.eqb_spec since (Z.of_nat (length (w_log w)))) as [->|Hne].
  - assert (Hall : forall e, e ∈ kept (w_log w) -> ev_ID e <= Z.of_nat (length (w_log w))).
    { intros e He. apply (kept_le (w_log w)); [done|]. by rewrite firstn_all. }
    rewrite !bfilter_none; [done|apply Forall_forall..]; intros e He;
      (rewrite (proj2 (Z.ltb_ge _ _)); [done|apply Hall]; [try done]). rewrite keep_last_drop in He by lia. by eapply subseteq_drop.
  - destruct (keep_last 256 (kept (w_log w))) as [|e ring] eqn:E; [done|]. rewrite <- E. apply (ring_covers (Matches o) since _ e ring Hsort E).
    unfold short in Hs. rewrite Z.mod_small in Hc by lia. by apply negb_true_iff, Z.ltb_ge in Hc.
Qed.

Lemma feed_id w i fd : inv w -> w_feeds w !! i = Some fd -> i <= bus_nextID (st_bus (w_st w)).
Proof. intros Hi Hfd. by apply (fo_next w i fd), in_feeds. Qed.

(** A new feed disturbs no other. *)
Lemma subscribe_shape w opts limit st' sn : inv w -> SubscribeWithin (w_st w) opts limit = Some (st', Some sn) ->
  let b := st_bus (w_st w) in
  let id := bus_nextID b + 1 in
  let r := if 0 <? so_Replay opts then replayLocked b (so_Replay opts) (Matches opts) else ([], true) in
  sn = {| sn_id := id; sn_Complete := if so_Incomplete opts then false else r.2; sn_Closed := false |} /\
  st' = {| st_bus := {| bus_subs := <[id := {| sub_id := id; sub_ch := id; sub_filter := opts; sub_class := so_Class opts; sub_kinds := so_Kinds opts |}]> (bus_subs b);
                        bus_nextID := id; bus_seq := bus_seq b; bus_buffer := bus_buffer b; bus_ring := bus_ring b; bus_ringCap := bus_ringCap b |};
           st_chans := <[id := {| ch_buf := r.1; ch_cap := 512; ch_closed := false |}]> (st_chans (w_st w)) |}.
Proof.
  intros Hi H b id r. unfold SubscribeWithin in H. fold b id in H. destruct (_ && _) in H; [done|]. fold r in H.
  assert (Hlen : (length r.1 <= 256)%nat).
  { subst r. destruct (0 <? so_Replay opts); simpl; [|lia]. etrans; [apply replayLocked_length|]. unfold b. rewrite (in_ring w Hi).
    apply length_keep_last. }
  destruct r as [replay complete]. cbn [fst snd] in *. assert (Hb : bus_buffer b = 512) by apply (in_buffer w Hi). rewrite Hb in *.
  rewrite replay_into_all in H; [|done|cbn; lia]. cbn [app ch_buf ch_cap] in H. by injection H as <- <-.
Qed.

Lemma inv_subscribe w opts limit st' sn : inv w -> short w -> SubscribeWithin (w_st w) opts limit = Some (st', Some sn) ->
  inv {| w_st := st'; w_log := w_log w;
         w_feeds := <[sn_id sn := {| fd_opts := opts; fd_sn := sn; fd_from := length (w_log w); fd_got := [] |}]> (w_feeds w) |}.
Proof.
  intros Hi Hs H. destruct (subscribe_shape w opts limit st' sn Hi H) as [Esn ->]. set (b := st_bus (w_st w)) in *. set (id := bus_nextID b + 1) in *.
  set (r := if 0 <? so_Replay opts then _ else _) in *. assert (Eid : sn_id sn = id) by (by rewrite Esn). rewrite Eid. set (fd := {| fd_opts := opts |}).
  set (w' := {| w_log := _ |}). assert (Hr : r.1 = replayed (w_log w) fd).
  { subst r. unfold replayed. cbn [fd_opts fd_from fd]. destruct (0 <? so_Replay opts); [|done]. unfold replayLocked, b. cbn [fst].
    by rewrite (in_ring w Hi), firstn_all. }
  assert (Howed : owed (w_log w) fd = r.1) by (unfold owed; cbn [fd_from fd]; by rewrite <- Hr, drop_all, app_nil_r).
  split; cbn [w' w_st w_log w_feeds st_bus bus_seq bus_ring bus_ringCap bus_buffer bus_subs];
    [apply (in_seq w Hi)|apply (in_ids w Hi)|apply (in_ring w Hi)|apply (in_cap w Hi)|apply (in_buffer w Hi)| |].
  - intros i s Hs'. destruct (decide (i = id)) as [->|Hne].
    + rewrite lookup_insert_eq in Hs'. injection Hs' as <-. split_and!; [done|done|]. exists fd. by rewrite lookup_insert_eq.
    + rewrite lookup_insert_ne in Hs' by done. destruct (in_subs w Hi i s Hs') as (H1 & H2 & fd' & H3 & H4). split_and!; [done|done|].
      exists fd'. by rewrite lookup_insert_ne.
  - apply map_Forall_insert_2.
    + assert (Hsent : sent w' id fd = owed (w_log w') fd).
      { unfold sent. cbn [w' w_st st_chans w_log]. by rewrite lookup_insert_eq, Howed. }
      split; cbn [w' w_st st_bus st_chans bus_nextID bus_subs w_log]; [done|lia|done| |by rewrite Hsent|done|].
      * eexists. rewrite lookup_insert_eq. split_and!; [done|done|]. rewrite lookup_insert_eq. by split; [eexists|].
      * intros Hc H0. change (fd_sn fd) with sn in Hc. rewrite Esn in Hc. cbn [sn_Complete] in Hc. change (so_Replay (fd_opts fd)) with (so_Replay opts) in *.
        destruct (so_Incomplete opts); [done|]. unfold r in Hr, Hc. rewrite (proj2 (Z.ltb_lt _ _)) in Hr, Hc by done.
        destruct (replayLocked_complete w _ opts Hi Hs H0 Hc) as [H1 H2]. split; [done|]. rewrite <- Hr. cbn [fd_from fd]. by rewrite firstn_all.
    + intros i fd' Hfd'. pose proof (feed_id w i fd' Hi Hfd') as Hlt. assert (Hne : i <> id) by (unfold id, b; lia).
      destruct (in_feeds w Hi i fd' Hfd') as [H1 H2 H3 H4 H5 H6 H7].
      assert (Hsent : sent w' i fd' = sent w i fd') by (unfold sent; cbn [w' w_st st_chans]; by rewrite lookup_insert_ne).
      split; cbn [w' w_st st_bus st_chans bus_nextID bus_subs w_log]; rewrite ?Hsent, ?lookup_insert_ne by done; try done. unfold id, b. lia.
Qed.

(** *** Leaving *)
Lemma Close_total w id fd : inv w -> w_feeds w !! id = Some fd -> is_Some (Close (w_st w) (fd_sn fd)).
Proof.
  intros Hi Hfd. pose proof (in_feeds w Hi id fd Hfd) as Hok. unfold Close. rewrite (fo_id w id fd Hok). destruct (sn_Closed _); [by eexists|].
  destruct (bus_subs (st_bus (w_st w)) !! id) as [s|] eqn:Hs; [|by eexists]. destruct (in_subs w Hi id s Hs) as (_ & -> & _).
  destruct (fo_chan w id fd Hok) as (c & -> & _ & Ho). unfold chan_close. rewrite (proj2 Ho); [by eexists|by rewrite Hs].
Qed.

(** A feed whose subscriber has been taken out, and one that is another's. *)
Lemma inv_close w id fd st' sn' : inv w -> w_feeds w !! id = Some fd -> Close (w_st w) (fd_sn fd) = Some (st', sn') ->
  inv {| w_st := st'; w_log := w_log w;
         w_feeds := <[id := {| fd_opts := fd_opts fd; fd_sn := sn'; fd_from := fd_from fd; fd_got := fd_got fd |}]> (w_feeds w) |}.
Proof.
  intros Hi Hfd H. pose proof (in_feeds w Hi id fd Hfd) as Hok. set (fd' := {| fd_opts := fd_opts fd |}). set (w' := {| w_log := _ |}).
  assert (Hsn : sn_id sn' = id /\ sn_Complete sn' = sn_Complete (fd_sn fd) /\
    (st' = w_st w \/ exists c, st_chans (w_st w) !! id = Some c /\
       bus_subs (st_bus st') = delete id (bus_subs (st_bus (w_st w))) /\ st_chans st' = <[id := shut c]> (st_chans (w_st w)) /\
       bus_nextID (st_bus st') = bus_nextID (st_bus (w_st w)) /\ bus_seq (st_bus st') = bus_seq (st_bus (w_st w)) /\
       bus_ring (st_bus st') = bus_ring (st_bus (w_st w)) /\ bus_ringCap (st_bus st') = bus_ringCap (st_bus (w_st w)) /\
       bus_buffer (st_bus st') = bus_buffer (st_bus (w_st w)))).
  { unfold Close in H. pose proof (fo_id w id fd Hok) as Eid. rewrite Eid in H. destruct (sn_Closed _).
    - injection H as <- <-. split_and!; [done|done|by left].
    - destruct (bus_subs (st_bus (w_st w)) !! id) as [s|] eqn:Hs; [|injection H as <- <-; split_and!; [done|done|by left]].
      destruct (in_subs w Hi id s Hs) as (_ & E2 & _). rewrite E2 in H. destruct (fo_chan w id fd Hok) as (c & Hc & _ & Ho). rewrite Hc in H.
      unfold chan_close in H. rewrite (proj2 Ho) in H by (by rewrite Hs). injection H as <- <-. split_and!; [done|done|]. right. by exists c. }
  destruct Hsn as (Eid & Ecomp & Hst).
  assert (Hown : forall s, bus_subs (st_bus st') !! id = Some s -> bus_subs (st_bus (w_st w)) !! id = Some s /\ st' = w_st w).
  { intros s Hs. destruct Hst as [->|(c & _ & E & _)]; [done|]. by rewrite E, lookup_delete_eq in Hs. }
  assert (Hothers : forall i, i <> id -> bus_subs (st_bus st') !! i = bus_subs (st_bus (w_st w)) !! i /\ st_chans st' !! i = st_chans (w_st w) !! i).
  { intros i Hne. destruct Hst as [->|(c & _ & -> & -> & _)]; [done|]. by rewrite lookup_delete_ne, lookup_insert_ne. }
  assert (Hsent : sent w' id fd' = sent w id fd).
  { unfold sent. cbn [w' w_st fd' fd_got]. destruct Hst as [->|(c & Hc & _ & -> & _)]; [done|]. by rewrite lookup_insert_eq, Hc. }
  assert (Hnums : bus_nextID (st_bus st') = bus_nextID (st_bus (w_st w)) /\ bus_seq (st_bus st') = bus_seq (st_bus (w_st w)) /\
       bus_ring (st_bus st') = bus_ring (st_bus (w_st w)) /\ bus_ringCap (st_bus st') = bus_ringCap (st_bus (w_st w)) /\
       bus_buffer (st_bus st') = bus_buffer (st_bus (w_st w))) by (by destruct Hst as [->|(c & _ & _ & _ & H')]).
  destruct Hnums as (En & Eseq & Ering & Ecap & Ebuf). destruct Hok as [H1 H2 H3 H4 H5 H6 H7].
  split; cbn [w' w_st w_log w_feeds]; rewrite ?Eseq, ?Ering, ?Ecap, ?Ebuf;
    [apply (in_seq w Hi)|apply (in_ids w Hi)|apply (in_ring w Hi)|apply (in_cap w Hi)|apply (in_buffer w Hi)| |].
  - intros i s Hs'. destruct (decide (i = id)) as [->|Hne].
    + destruct (in_subs w Hi id s (proj1 (Hown s Hs'))) as (E1 & E2 & fd2 & E3 & E4). split_and!; [done|done|]. exists fd'. rewrite lookup_insert_eq.
      rewrite Hfd in E3. by injection E3 as <-.
    + rewrite (proj1 (Hothers i Hne)) in Hs'. destruct (in_subs w Hi i s Hs') as (E1 & E2 & fd2 & E3 & E4). split_and!; [done|done|].
      exists fd2. by rewrite lookup_insert_ne.
  - intros i fd2 Hfd2. destruct (decide (i = id)) as [->|Hne].
    + rewrite lookup_insert_eq in Hfd2. injection Hfd2 as <-. split; cbn [w' w_st w_log fd' fd_sn]; rewrite ?En, ?Hsent; try done.
      * destruct H4 as (c & Hc & Hcap & Ho). destruct Hst as [->|(c' & Hc' & -> & -> & _)]; [by exists c|]. exists (shut c'). rewrite Hc in Hc'.
        injection Hc' as <-. rewrite lookup_insert_eq, lookup_delete_eq. split_and!; [done|done|]. by split; [|intros []].
      * intros [s Hs]. apply H6. exists s. by apply Hown.
      * rewrite Ecomp. exact H7.
    + rewrite lookup_insert_ne in Hfd2 by done. destruct (Hothers i Hne) as [E1 E2].
      destruct (in_feeds w Hi i fd2 Hfd2) as [G1 G2 G3 G4 G5 G6 G7].
      assert (Hsent2 : sent w' i fd2 = sent w i fd2) by (unfold sent; cbn [w' w_st]; by rewrite E2).
      split; cbn [w' w_st w_log]; rewrite ?En, ?Hsent2, ?E1, ?E2; done.
Qed.

Lemma inv_receive w id fd e st' : inv w -> w_feeds w !! id = Some fd -> receive (w_st w) id = Some (e, st') ->
  inv {| w_st := st'; w_log := w_log w;
         w_feeds := <[id := {| fd_opts := fd_opts fd; fd_sn := fd_sn fd; fd_from := fd_from fd; fd_got := fd_got fd ++ [e] |}]> (w_feeds w) |}.
Proof.
  intros Hi Hfd H. set (fd' := {| fd_opts := fd_opts fd |}). set (w' := {| w_log := _ |}). pose proof (in_feeds w Hi id fd Hfd) as [H1 H2 H3 H4 H5 H6 H7].
  destruct H4 as (c & Hc & Hcap & Ho). unfold receive in H. rewrite Hc in H. destruct (ch_buf c) as [|e' rest] eqn:Eb; [done|]. injection H as <- <-.
  assert (Hsent : sent w' id fd' = sent w id fd).
  { unfold sent. cbn [w' w_st st_chans fd' fd_got]. rewrite lookup_insert_eq, Hc, Eb. cbn [ch_buf]. by rewrite <- app_assoc. }
  split; cbn [w' w_st w_log w_feeds st_bus];
    [apply (in_seq w Hi)|apply (in_ids w Hi)|apply (in_ring w Hi)|apply (in_cap w Hi)|apply (in_buffer w Hi)| |].
  - intros i s Hs. destruct (in_subs w Hi i s Hs) as (E1 & E2 & fd2 & E3 & E4). split_and!; [done|done|].
    destruct (decide (i = id)) as [->|Hne]; [|exists fd2; by rewrite lookup_insert_ne]. exists fd'. rewrite lookup_insert_eq.
    rewrite Hfd in E3. by injection E3 as <-.
  - intros i fd2 Hfd2. destruct (decide (i = id)) as [->|Hne].
    + rewrite lookup_insert_eq in Hfd2. injection Hfd2 as <-. split; cbn [w' w_st w_log st_bus st_chans]; rewrite ?Hsent; try done.
      eexists. rewrite lookup_insert_eq. by split_and!.
    + rewrite lookup_insert_ne in Hfd2 by done. destruct (in_feeds w Hi i fd2 Hfd2) as [G1 G2 G3 G4 G5 G6 G7].
      assert (Hsent2 : sent w' i fd2 = sent w i fd2) by (unfold sent; cbn [w' w_st st_chans]; by rewrite lookup_insert_ne).
      split; cbn [w' w_st w_log st_bus st_chans]; rewrite ?Hsent2, ?lookup_insert_ne by done; done.
Qed.

Lemma inv_start : inv start.
Proof. split; [done|by intros k x Hk|done|done|done|by intros i s Hs|by intros i fd Hfd]. Qed.

Lemma step_short w w' : step w w' -> short w' -> short w.
Proof. unfold short. destruct 1; cbn [w_log]; [rewrite length_app; lia|done..]. Qed.

Lemma step_inv w w' : step w w' -> short w' -> inv w -> inv w'.
Proof.
  intros Hst Hs Hi. pose proof (step_short w w' Hst Hs) as Hs0. destruct Hst.
  - by eapply inv_publish.
  - by eapply inv_subscribe.
  - by eapply inv_close.
  - by eapply inv_receive.
Qed.

Lemma reachable_inv w : reachable w -> short w -> inv w.
Proof.
  unfold reachable. intros Hr. revert w Hr. apply (rtc_ind_r (fun w => short w -> inv w)); [intros _; apply inv_start|]. intros w1 w2 _ Hstep IH Hs.
  eapply step_inv; [done|done|]. apply IH. by eapply step_short.
Qed.

(** ** What the bus promises *)
Lemma subscribe_total w opts limit : inv w -> is_Some (SubscribeWithin (w_st w) opts limit).
Proof.
  intros Hi. unfold SubscribeWithin. destruct (_ && _); [by eexists|].
  set (r := if 0 <? so_Replay opts then _ else _).
  assert (Hlen : (length r.1 <= 256)%nat).
  { subst r. destruct (0 <? so_Replay opts); simpl; [|lia]. etrans; [apply replayLocked_length|]. rewrite (in_ring w Hi). apply length_keep_last. }
  destruct r as [replay complete]. rewrite (in_buffer w Hi), replay_into_all; [by eexists|done|cbn; simpl in Hlen; lia].
Qed.

(** C36: However publishers, tabs and their closings interleave, the bus never
    sends on a closed channel and never closes one twice: every operation returns. *)
Theorem bus_never_panics (w : world) :
  reachable w -> short w ->
  (forall e keep, is_Some (publish (w_st w) e keep)) /\
  (forall opts limit, is_Some (SubscribeWithin (w_st w) opts limit)) /\
  (forall id fd, w_feeds w !! id = Some fd -> is_Some (Close (w_st w) (fd_sn fd))).
Proof.
  intros Hr Hs. pose proof (reachable_inv w Hr Hs) as Hi. split_and!.
  - intros e keep. by apply publish_total.
  - intros opts limit. by apply subscribe_total.
  - intros id fd. by apply Close_total.
Qed.

(** C37: A feed is cut off, not thinned.  What a subscriber has taken and what
    waits for it is the replay it was given and then every event published since that it
    matches, in the order of their numbers: all of them while it is open, and a first
    part of them once it has been cut off or closed. *)
Theorem feed_not_thinned (w : world) (id : Z) (fd : feed) :
  reachable w -> short w -> w_feeds w !! id = Some fd ->
  sent w id fd `prefix_of` owed (w_log w) fd /\
  (is_Some (bus_subs (st_bus (w_st w)) !! id) -> sent w id fd = owed (w_log w) fd).
Proof.
  intros Hr Hs Hfd. pose proof (reachable_inv w Hr Hs) as Hi. destruct (in_feeds w Hi id fd Hfd) as [_ _ _ _ H5 H6 _]. done.
Qed.

(** *** Coming back *)
Lemma fst_take_sorted (log : list (Event * bool)) n : StronglySorted before (fst <$> log) ->
  (forall a b, a ∈ fst <$> take n log -> b ∈ fst <$> drop n log -> before a b) /\
  StronglySorted before (fst <$> take n log) /\ StronglySorted before (fst <$> drop n log).
Proof. rewrite <- (take_drop n log) at 1. rewrite fmap_app. apply StronglySorted_app. Qed.

Lemma kept_sub log e : e ∈ kept log -> e ∈ fst <$> log.
Proof. intros He. apply list_elem_of_fmap in He as (x & -> & Hx). apply elem_of_bfilter in Hx as [Hx _]. by apply list_elem_of_fmap_2. Qed.

Lemma replayed_sub log fd e : e ∈ replayed log fd -> e ∈ kept (take (fd_from fd) log) /\ so_Replay (fd_opts fd) < ev_ID e /\ Matches (fd_opts fd) e = true.
Proof.
  unfold replayed. destruct (0 <? so_Replay (fd_opts fd)); [|intros H; by apply elem_of_nil in H]. intros H. apply elem_of_bfilter in H as [H Hm].
  apply andb_true_iff in Hm as [Hm ->]. apply Z.ltb_lt in Hm. split_and!; [|done|done]. rewrite keep_last_drop in H by lia. by eapply subseteq_drop.
Qed.

Lemma owed_sorted log fd : StronglySorted before (fst <$> log) -> StronglySorted before (owed log fd).
Proof.
  intros Hl. destruct (fst_take_sorted log (fd_from fd) Hl) as (Hlt & Ht & Hd). unfold owed. apply StronglySorted_app_2; [| |by apply sorted_bfilter].
  - intros a b Ha Hb. apply elem_of_bfilter in Hb as [Hb _]. apply replayed_sub in Ha as (Ha & _). by apply Hlt; [apply kept_sub|].
  - unfold replayed. destruct (0 <? so_Replay (fd_opts fd)); [|constructor]. apply sorted_bfilter. rewrite keep_last_drop by lia.
    set (k := (_ - _)%nat). pose proof (kept_sorted _ Ht) as Hk. rewrite <- (take_drop k (kept _)) in Hk. by apply StronglySorted_app in Hk as (_ & _ & Hk).
Qed.

(** Where a feed begins: after the number it asked to be replayed from, or with the next
    event when it asked for no replay. *)
Definition begins (fd : feed) : Z := if 0 <? so_Replay (fd_opts fd) then so_Replay (fd_opts fd) else Z.of_nat (fd_from fd).

(** A feed that is complete is owed every kept event it matches after where it begins. *)
Lemma owed_kept w id fd e : inv w -> w_feeds w !! id = Some fd -> sn_Complete (fd_sn fd) = true ->
  e ∈ kept (w_log w) -> Matches (fd_opts fd) e = true -> begins fd < ev_ID e -> e ∈ owed (w_log w) fd.
Proof.
  intros Hi Hfd Hc He Hm Hb. destruct (in_feeds w Hi id fd Hfd) as [_ _ _ _ _ _ H7]. specialize (H7 Hc). unfold owed. apply elem_of_app.
  rewrite <- (take_drop (fd_from fd) (w_log w)), kept_app in He. apply elem_of_app in He as [He|He].
  - left. pose proof (kept_le _ _ _ (in_ids w Hi) He) as Hle. unfold begins in Hb. destruct (Z.ltb_spec 0 (so_Replay (fd_opts fd))) as [H0|]; [|lia].
    destruct (H7 H0) as [_ ->]. apply elem_of_bfilter. rewrite Hm. rewrite (proj2 (Z.ltb_lt _ _)) by done. done.
  - right. apply elem_of_bfilter. split; [by apply kept_sub|done].
Qed.

(** The number a client comes back with: that of the last event it took, or the one it
    last came with. *)
Definition last_id (fd : feed) : Z := match last (fd_got fd) with Some e => ev_ID e | None => so_Replay (fd_opts fd) end.

(** The second feed is the first client's return: it asks for the same events, from the
    number the client last saw. *)
Definition comes_back (fd1 fd2 : feed) : Prop :=
  (forall e, Matches (fd_opts fd1) e = Matches (fd_opts fd2) e) /\ so_Replay (fd_opts fd2) = last_id fd1 /\ 0 < last_id fd1.

(** What a client has taken ends at the number it comes back with. *)
Lemma got_le w id fd e : inv w -> w_feeds w !! id = Some fd -> e ∈ fd_got fd -> ev_ID e <= last_id fd.
Proof.
  intros Hi Hfd He. destruct (in_feeds w Hi id fd Hfd) as [_ _ _ _ Hpre _ _].
  pose proof (owed_sorted (w_log w) fd (log_sorted _ (in_ids w Hi))) as Hs. destruct Hpre as [more Hpre]. rewrite Hpre in Hs.
  unfold sent in Hs. rewrite <- app_assoc in Hs. apply StronglySorted_app in Hs as (_ & Hs & _). unfold last_id.
  destruct (fd_got fd) as [|x l _] using rev_ind; [by apply elem_of_nil in He|]. rewrite last_snoc. apply StronglySorted_app in Hs as (Hs & _ & _).
  apply elem_of_app in He as [He|He%list_elem_of_singleton]; [|by subst].
  specialize (Hs e x He ltac:(by left)). unfold before in Hs. lia.
Qed.

(** An event the first feed was owed and the client did not take is after the number it
    comes back with. *)
Lemma not_taken w id fd e : inv w -> w_feeds w !! id = Some fd -> e ∈ owed (w_log w) fd -> begins fd < ev_ID e -> 0 < last_id fd ->
  e ∈ fd_got fd \/ last_id fd < ev_ID e.
Proof.
  intros Hi Hfd He Hb H0. destruct (in_feeds w Hi id fd Hfd) as [_ _ _ _ Hpre _ _].
  pose proof (owed_sorted (w_log w) fd (log_sorted _ (in_ids w Hi))) as Hs. destruct Hpre as [more Hpre]. rewrite Hpre in Hs, He.
  unfold sent in Hs, He. rewrite <- app_assoc in Hs, He. apply elem_of_app in He as [He|He]; [by left|right].
  apply StronglySorted_app in Hs as (Hs & _ & _). unfold last_id in *. destruct (last (fd_got fd)) as [x|] eqn:El.
  - apply (Hs x e); [|done]. apply last_Some in El as [l El]. rewrite El. apply elem_of_app. right. by left.
  - unfold begins in Hb. rewrite (proj2 (Z.ltb_lt _ _)) in Hb by done. done.
Qed.

(** Everything a complete replay and the feed after it carry is after the number asked
    from. *)
Lemma owed_after w id fd e : inv w -> w_feeds w !! id = Some fd -> sn_Complete (fd_sn fd) = true -> 0 < so_Replay (fd_opts fd) ->
  e ∈ owed (w_log w) fd -> so_Replay (fd_opts fd) < ev_ID e.
Proof.
  intros Hi Hfd Hc H0 He. destruct (in_feeds w Hi id fd Hfd) as [_ _ _ _ _ _ H7]. destruct (H7 Hc H0) as [Hle _].
  apply elem_of_app in He as [He|He]; [by apply replayed_sub in He as (_ & He & _)|]. apply elem_of_bfilter in He as [He _].
  apply list_elem_of_fmap in He as (x & -> & Hx). apply list_elem_of_lookup in Hx as [k Hk]. rewrite lookup_drop in Hk.
  rewrite (in_ids w Hi _ _ Hk). lia.
Qed.

(** A client that comes back misses nothing and sees nothing twice.
    When a client whose feed ended, or that left, subscribes again from the last number
    it saw and is told its replay is complete, then every event that is kept and that it
    asked for, from where its first feed began, is one it took from the first feed or one
    it has taken or is about to take from the second, up to the present while that is
    open; and the two together are in the order of their numbers, each once. *)
Theorem reconnect_misses_nothing (w : world) (id1 id2 : Z) (fd1 fd2 : feed) :
  reachable w -> short w ->
  w_feeds w !! id1 = Some fd1 -> w_feeds w !! id2 = Some fd2 -> comes_back fd1 fd2 ->
  sn_Complete (fd_sn fd1) = true -> sn_Complete (fd_sn fd2) = true ->
  StronglySorted before (fd_got fd1 ++ sent w id2 fd2) /\
  (is_Some (bus_subs (st_bus (w_st w)) !! id2) ->
   forall e, e ∈ kept (w_log w) -> Matches (fd_opts fd1) e = true -> begins fd1 < ev_ID e -> e ∈ fd_got fd1 ++ sent w id2 fd2).
Proof.
  intros Hr Hsh H1 H2 (Hm & Hre & H0) Hc1 Hc2. pose proof (reachable_inv w Hr Hsh) as Hi.
  pose proof (log_sorted _ (in_ids w Hi)) as Hs. split.
  - pose proof (fo_sent w _ _ (in_feeds w Hi id1 fd1 H1)) as [m1 E1]. pose proof (fo_sent w _ _ (in_feeds w Hi id2 fd2 H2)) as [m2 E2].
    pose proof (owed_sorted _ fd1 Hs) as S1. pose proof (owed_sorted _ fd2 Hs) as S2. rewrite E1 in S1. rewrite E2 in S2.
    unfold sent in S1. rewrite <- app_assoc in S1. apply StronglySorted_app_2.
    + intros a b Ha Hb. pose proof (got_le w id1 fd1 a Hi H1 Ha).
      assert (last_id fd1 < ev_ID b); [|unfold before; lia]. rewrite <- Hre. apply (owed_after w id2 fd2 b Hi H2 Hc2); [by rewrite Hre|].
      rewrite E2. apply elem_of_app. by left.
    + by apply StronglySorted_app in S1 as (_ & S1 & _).
    + by apply StronglySorted_app in S2 as (_ & S2 & _).
  - intros Hopen e He Hme Hb. apply elem_of_app. rewrite (fo_open w _ _ (in_feeds w Hi id2 fd2 H2) Hopen).
    destruct (not_taken w id1 fd1 e Hi H1) as [Ht|Ht]; [by eapply owed_kept|done|done|by left|right].
    apply (owed_kept w id2 fd2 e Hi H2 Hc2 He); [by rewrite <- Hm|]. unfold begins. by rewrite Hre, (proj2 (Z.ltb_lt _ _) H0).
Qed.

(** ** Numbers on the wire *)

(** [strconv.FormatInt] in base 36.  Thirteen digits hold every int64. *)
Definition digit36 (d : Z) : ascii := to_byte (if d <? 10 then 48 + d else 87 + d).
Fixpoint base36 (fuel : nat) (n : Z) (acc : list ascii) : list ascii :=
  match fuel with
  | O => acc
  | S fuel => let acc := digit36 (n mod 36) :: acc in if n <? 36 then acc else base36 fuel (n / 36) acc
  end.
Definition FormatInt36 (n : Z) : string := (if n <? 0 then "-" else "") +:+ text (base36 13 (Z.abs n) []).

(** The epoch of a bus made at a time. *)
Definition Epoch (now : Time) : string := FormatInt36 now.

(** [strconv.ParseUint] in base ten: digits, within a uint64. *)
Definition strconv_ParseUint (s : string) : option Z :=
  match chars s with
  | [] => None
  | l => match digits_val 0 l with Some n => if n <? 2 ^ 64 then Some n else None | None => None end
  end.

Definition WireID (epoch : string) (id : Z) : string := epoch +:+ "." +:+ itoa id.
Definition ParseWireID (epoch raw : string) : Z * bool :=
  let raw := strings_TrimSpace raw in
  let '(e, seq, dotted) := strings_Cut raw "." in
  let '(seq, e) := if (dotted : bool) then (seq, e) else (raw, epoch) in
  match strconv_ParseUint seq with Some n => (n, str_eqb e epoch) | None => (0, false) end.

Example WireID_1 : WireID (Epoch 1700000000000000000) 41 = "cwyvpelgpse8.41".
Proof. vm_compute. reflexivity. Qed.

(** What a number on the wire is made of: no points and no spaces. *)
Definition wire_char (a : ascii) : Prop :=
  ascii_plain a /\ unicode_IsSpace (byte_of a) = false /\ a <> "."%char.

Lemma wire_char_dec (f : Z -> ascii) k : forallb (fun i => bool_decide (byte_of (f i) < 128) && negb (unicode_IsSpace (byte_of (f i))) && negb (bool_decide (f i = "."%char))) (seqZ 0 k) = true ->
  forall d, 0 <= d < k -> wire_char (f d).
Proof.
  rewrite forallb_forall. intros H d Hd. specialize (H d ltac:(apply list_elem_of_In, elem_of_seqZ; lia)).
  rewrite !andb_true_iff, !negb_true_iff in H. destruct H as [[H1 H2] H3]. apply bool_decide_eq_true in H1. apply bool_decide_eq_false in H3. done.
Qed.

Lemma digit36_wire d : 0 <= d < 36 -> wire_char (digit36 d).
Proof. apply wire_char_dec. vm_compute. reflexivity. Qed.

Lemma base36_wire fuel n acc : 0 <= n -> Forall wire_char acc -> Forall wire_char (base36 fuel n acc).
Proof.
  revert n acc. induction fuel as [|fuel IH]; intros n acc Hn Ha; [done|]. cbn [base36].
  assert (Hd : Forall wire_char (digit36 (n mod 36) :: acc)) by (constructor; [apply digit36_wire, Z.mod_pos_bound; lia|done]).
  destruct (n <? 36); [done|]. apply IH; [apply Z.div_pos; lia|done].
Qed.

Lemma Epoch_wire now : Forall wire_char (chars (Epoch now)).
Proof.
  unfold Epoch, FormatInt36. rewrite chars_app, chars_text. apply Forall_app. split; [|by apply base36_wire; [lia|constructor]].
  destruct (now <? 0); [|constructor]. constructor; [|constructor]. by split_and!.
Qed.

Lemma digit_wire a : digit_val a <> None -> wire_char a.
Proof.
  unfold digit_val. cbv zeta. destruct (_ && _) eqn:E; [|done]. intros _. apply andb_true_iff in E as [H1%Z.leb_le H2%Z.leb_le].
  rewrite <- (to_byte_of a). replace (byte_of a) with (48 + (byte_of a - 48)) by lia.
  apply (wire_char_dec (fun i => to_byte (48 + i)) 10); [vm_compute; reflexivity|lia].
Qed.

Lemma itoa_wire n : 0 <= n -> Forall wire_char (chars (itoa n)).
Proof.
  intros Hn. destruct (itoa_digits n Hn) as [Hv _]. eapply Forall_impl; [by eapply digits_val_all|]. intros a. apply digit_wire.
Qed.

Lemma cut_go_at c acc l l' : c ∉ l -> cut_go c acc (l ++ c :: l') = Some (rev acc ++ l, l').
Proof.
  revert acc. induction l as [|a l IH]; intros acc Hc; cbn [app cut_go].
  - by rewrite bool_decide_eq_true_2, app_nil_r.
  - apply not_elem_of_cons in Hc as [Hne Hc]. rewrite bool_decide_eq_false_2 by done. rewrite IH by done. cbn. by rewrite <- app_assoc.
Qed.

(** The number of an event on the wire is read back, as this run's. *)
Theorem ParseWireID_WireID (now : Time) (id : Z) : 0 <= id < 2 ^ 64 -> ParseWireID (Epoch now) (WireID (Epoch now) id) = (id, true).
Proof.
  intros Hid. pose proof (Epoch_wire now) as He. pose proof (itoa_wire id ltac:(lia)) as Hi. set (epoch := Epoch now) in *.
  assert (Hc : chars (WireID epoch id) = chars epoch ++ "."%char :: chars (itoa id)) by (unfold WireID; by rewrite !chars_app).
  assert (Hp : Forall (fun a => ascii_plain a /\ unicode_IsSpace (byte_of a) = false) (chars (WireID epoch id))).
  { rewrite Hc. apply Forall_app. split; [|constructor; [done|]]; (eapply Forall_impl; [eassumption|]); by intros a (? & ? & _). }
  unfold ParseWireID. rewrite <- (text_chars (WireID epoch id)), (TrimSpace_plain _ Hp). unfold strings_Cut.
  change (list_ascii_of_string ?s) with (chars s). rewrite chars_text, Hc, cut_go_at.
  2: { intros Hin. rewrite Forall_forall in He. by destruct (He _ Hin) as (_ & _ & ?). }
  cbn [rev app]. rewrite !text_chars. unfold strconv_ParseUint. destruct (itoa_digits id ltac:(lia)) as (Hv & a & l & El & _).
  rewrite El in *. rewrite Hv, (proj2 (Z.ltb_lt _ _)) by lia. unfold str_eqb. by rewrite bool_decide_eq_true_2.
Qed.
