(* ===== verification/Backend.v ===== *)
(** * What a host's backends promise the agent (backend/backend.go, backend/faults.go)

    A backend runs workloads on one host.  This file holds what passes between a backend
    and the agent -- workloads and their status, what to create, errors with the
    sentinels [errors.Is] finds in them -- and the pure functions on them.  What a daemon
    does when it is called is the agent's environment (Agent.v). *)
From Stdlib Require Import ZArith Lia Ascii String.
From stdpp Require Import base strings list gmap.
From S2P Require Import Prelude GoString GoText Store.
Local Open Scope string_scope.
Local Open Scope list_scope.
Local Open Scope Z_scope.

(** ** Errors

    An error is its text and the sentinels it wraps, which is all that is asked of one. *)
Inductive sentinel :=
  | ErrNotFound | ErrUnavailable | ErrContainerConflict | ErrImageUnavailable | ErrDaemon
  | ErrDaemonBusy | ErrRemovalInProgress | DeadlineExceeded | Canceled | NetTimeout.
#[global] Instance sentinel_eq_dec : EqDecision sentinel.
Proof. solve_decision. Defined.

Record error := { err_text : string; err_kinds : list sentinel }.

Definition errors_Is (e : error) (k : sentinel) : bool := bool_decide (k ∈ err_kinds e).
Definition errors_New (text : string) : error := {| err_text := text; err_kinds := [] |}.
(** [fmt.Errorf] with the error last, as [%w]. *)
Definition wrapf (prefix : string) (e : error) : error :=
  {| err_text := prefix +:+ err_text e; err_kinds := err_kinds e |}.
(** [errors.Join]: nil for no errors. *)
Definition errors_Join (l : list error) : option error :=
  match l with
  | [] => None
  | _ => Some {| err_text := strings_Join (err_text <$> l) (String "010"%char EmptyString); err_kinds := concat (err_kinds <$> l) |}
  end.

(** A category rides beside the daemon's own words. *)
Definition tagged (e : error) (kind : sentinel) : error := {| err_text := err_text e; err_kinds := err_kinds e ++ [kind] |}.
Definition imageErr (e : error) : error := tagged e ErrImageUnavailable.
Definition daemonErr (e : error) : error := tagged e ErrDaemon.
Definition busyErr (e : error) : error := tagged e ErrDaemonBusy.
Definition removingErr (e : error) : error := tagged (busyErr e) ErrRemovalInProgress.

Definition FaultOutOfMemory : FaultKind := "out_of_memory".
Definition FaultOutOfDisk : FaultKind := "out_of_disk".
Definition FaultImage : FaultKind := "image".
Definition FaultRegistration : FaultKind := "registration".
Definition FaultBackend : FaultKind := "backend".
Definition FaultContainerConflict : FaultKind := "container_conflict".
Definition FaultConfig : FaultKind := "config".

Definition noSpace : string := "no space left on device".
Definition strings_Contains (s sub : string) : bool := match String.index 0 sub s with Some _ => true | None => false end.

Definition Fault (err : option error) : FaultKind :=
  match err with
  | None => ""
  | Some e =>
      if strings_Contains (strings_ToLower (err_text e)) noSpace then FaultOutOfDisk
      else if errors_Is e ErrContainerConflict then FaultContainerConflict
      else if errors_Is e ErrImageUnavailable then FaultImage
      else if errors_Is e ErrDaemonBusy then FaultBackendBusy
      else FaultBackend
  end.

(** ** Workloads *)
Definition Handle : Type := string.

Inductive Phase := PhaseStarting | PhaseRunning | PhaseExited | PhaseExitUnknown | PhaseFailed | PhaseGone.
#[global] Instance Phase_eq_dec : EqDecision Phase.
Proof. solve_decision. Defined.

Definition Phase_Live (p : Phase) : bool := match p with PhaseStarting | PhaseRunning => true | _ => false end.

Record Status := {
  s_Phase : Phase;
  s_ExitCode : Z;
  s_Message : string;
  s_StartedAt : Time;
  s_OOMKilled : bool;
  s_OOMReported : bool;
  s_SidecarOOMKilled : bool
}.

Record Workload := {
  w_Handle : Handle;
  w_Name : string;
  w_RunnerID : string;
  w_Status : Status;
  w_Sidecar : bool
}.

(** ** What to create *)
Record Credentials := {
  cr_ExpiresAt : Time;
  cr_JITConfig : string;
  cr_RegistrationToken : string;
  cr_URL : string
}.

(** The fields the agent reads.  A docker mode is text here: it comes from the wire. *)
Record Spec := {
  sp_StartBefore : Time;
  sp_Name : string;
  sp_RunnerID : string;
  sp_PoolID : string;
  sp_Image : string;
  sp_PullPolicy : string;
  sp_Credentials : Credentials;
  sp_Ephemeral : bool;
  sp_DockerMode : string
}.

Definition DockerMode_Valid (d : string) : bool := str_in d ["none"; "dind"; "host-socket"].
Definition PullPinnedOnly : string := "pinned-only".
Definition PullPolicy_Valid (p : string) : bool := str_in p ["if-not-present"; "always"; PullPinnedOnly].

Definition is_hex (a : ascii) : bool :=
  let b := byte_of a in ((48 <=? b) && (b <=? 57)) || ((97 <=? b) && (b <=? 102)) || ((65 <=? b) && (b <=? 70)).
(** [hex.DecodeString] succeeds. *)
Definition hex_ok (s : string) : bool :=
  Z.even (strlen s) && forallb is_hex (list_ascii_of_string s).

(** [strings.LastIndex], -1 for none. *)
Fixpoint LastIndex_go (n : nat) (s sub : string) : Z :=
  if String.prefix sub (str_drop (Z.of_nat n) s) then Z.of_nat n
  else match n with O => -1 | S n' => LastIndex_go n' s sub end.
Definition strings_LastIndex (s sub : string) : Z := LastIndex_go (String.length s) s sub.

Definition isDigestImageReference (ref : string) : bool :=
  let marker := "@sha256:" in
  let i := strings_LastIndex ref marker in
  if (i <=? 0) || negb (strlen (str_drop (i + strlen marker) ref) =? 64) then false
  else hex_ok (str_drop (i + strlen marker) ref).

Definition Spec_Validate (quote : string -> string) (s : Spec) : option error :=
  let c := sp_Credentials s in
  if str_eqb (sp_Name s) "" then Some (errors_New "backend: spec.Name is required")
  else if str_eqb (cr_JITConfig c) "" && str_eqb (cr_RegistrationToken c) ""
  then Some (errors_New "backend: spec needs either a JIT config or a registration token")
  else if negb (str_eqb (cr_RegistrationToken c) "") && str_eqb (cr_URL c) ""
  then Some (errors_New "backend: registration-token runners need a URL to register against")
  else if negb (DockerMode_Valid (sp_DockerMode s))
  then Some (errors_New ("backend: " +:+ quote (sp_DockerMode s) +:+ " is not a docker mode"))
  else if negb (str_eqb (sp_PullPolicy s) "") && negb (PullPolicy_Valid (sp_PullPolicy s))
  then Some (errors_New ("backend: " +:+ quote (sp_PullPolicy s) +:+ " is not a pool pull policy"))
  else if str_eqb (sp_PullPolicy s) PullPinnedOnly && negb (isDigestImageReference (sp_Image s))
  then Some (errors_New "backend: pinned-only requires an image digest")
  else None.

(** ** The registry

    A backend is known by its kind, so a registry is the kinds it was built with. *)
Record Registry := { reg_backends : gmap BackendKind unit }.

Definition NewRegistry (kinds : list BackendKind) : Registry :=
  {| reg_backends := foldl (fun m k => <[k := tt]> m) ∅ kinds |}.

Definition Registry_Get (r : Registry) (k : BackendKind) : BackendKind + error :=
  match reg_backends r !! k with
  | Some _ => inl k
  | None => inr {| err_text := "backend: not available on this host: " +:+ k; err_kinds := [ErrUnavailable] |}
  end.

Definition Registry_Kinds (r : Registry) : list BackendKind := (map_to_list (reg_backends r)).*1.
