(* ===== verification/Claims.v ===== *)
(** * The tasks of a host: claims, the startup queue and the goroutines (agent/daemon.go,
    agent/startup_queue.go)

    The controller sends a host tasks, some twice.  Each that names a runner takes the
    runner's claim ([claimOrQueue]), or waits behind the one that holds it when it takes
    the runner further along; the reconciler takes the same claims for its own work.  A
    task that has its claim is run by a goroutine ([start]), which waits for the startup
    queue's turn when it makes a runner, and then for one of the host's slots.

    The goroutines share the claims, the two queues and the slots; each step of one is a
    section of [start] between two waits ([go_step]), and a run interleaves them with what
    the poll, the reconciler and the heartbeats do meanwhile ([host_step]).  The theorems are
    about every run: one task at a time for a runner, one start at a time in a lane, no
    more at work than there are slots, a task that waits is the next to run, and the
    goroutines always come to an end. *)
From Stdlib Require Import ZArith Lia Ascii String.
From stdpp Require Import base strings list gmap relations sets.
From S2P Require Import Prelude GoString Store Releases Backend.
Local Open Scope string_scope.
Local Open Scope list_scope.
Local Open Scope Z_scope.

(** ** Tasks (agent/protocol.go) *)
Inductive TaskKind :=
  | TaskCreateRunner | TaskStopRunner | TaskRemoveRunner | TaskStreamLogs | TaskCancelLogs | TaskPrewarmImage
  | TaskFillToolCache | TaskCheckHost | TaskUpdateAgent | TaskMergeConflict | TaskOther (kind : string).
#[global] Instance TaskKind_eq_dec : EqDecision TaskKind.
Proof. solve_decision. Defined.

Definition TaskKind_string (k : TaskKind) : string :=
  match k with
  | TaskCreateRunner => "create_runner" | TaskStopRunner => "stop_runner" | TaskRemoveRunner => "remove_runner"
  | TaskStreamLogs => "stream_logs" | TaskCancelLogs => "cancel_logs" | TaskPrewarmImage => "prewarm_image"
  | TaskFillToolCache => "fill_tool_cache" | TaskCheckHost => "check_host" | TaskUpdateAgent => "update_agent"
  | TaskMergeConflict => "merge_conflict" | TaskOther k => k
  end.
Definition is_kind (t u : TaskKind) : bool := bool_decide (t = u).

(** A tool request is not looked into, only counted. *)
Record Task := {
  t_ID : string;
  t_Kind : TaskKind;
  t_RunnerID : string;
  t_Spec : option Spec;
  t_Backend : BackendKind;
  t_PoolID : string;
  t_Image : string;
  t_PullPolicy : string;
  t_StopTimeout : Duration;
  t_IssuedAt : Time;
  t_StreamID : string;
  t_Tools : Z;
  t_Attempt : Z;
  t_UpdateID : string;
  t_UpdateTag : string;
  t_MergeID : string;
  t_MergeImage : string;
  t_MergeAncestor : string;
  t_MergeBase : string;
  t_MergeHead : string
}.

(** [quote] is [%q], and [walk] the order Go walks a map literal in. *)
Section validate.
Variable quote : string -> string.
Variable walk : list (string * string) -> list (string * string).

Definition merge_ids (task : Task) : list (string * string) :=
  walk [("merge ancestor", t_MergeAncestor task); ("merge base", t_MergeBase task); ("merge head", t_MergeHead task)].

Definition ProtocolVersion : string := "1".

Definition validateTask (task : Task) : option error :=
  let empty s := str_eqb s "" in
  let say s := Some (errors_New s) in
  if empty (t_ID task) then say "task has no ID, so its result cannot be matched to it; the controller must set one"
  else match t_Kind task with
  | TaskCreateRunner =>
      if empty (t_RunnerID task) then say "create_runner task has no runner ID"
      else match t_Spec task with
      | None => say ("create_runner task for runner " +:+ t_RunnerID task +:+ " has no spec, so there is nothing to create")
      | Some spec => match Spec_Validate quote spec with
                     | Some e => Some (wrapf ("create_runner task for runner " +:+ t_RunnerID task +:+ " has an unusable spec: ") e)
                     | None => None
                     end
      end
  | TaskStopRunner | TaskRemoveRunner =>
      if empty (t_RunnerID task) then say (TaskKind_string (t_Kind task) +:+ " task has no runner ID") else None
  | TaskStreamLogs =>
      if empty (t_StreamID task) then say "stream_logs task has no stream ID, so there is nowhere to send the output"
      else if empty (t_RunnerID task) then say "stream_logs task has no runner ID" else None
  | TaskCancelLogs => if empty (t_StreamID task) then say "cancel_logs task has no stream ID" else None
  | TaskPrewarmImage =>
      if empty (t_PoolID task) || empty (t_Image task) || negb (PullPolicy_Valid (t_PullPolicy task))
      then say "prewarm_image task needs a pool, image, and valid pull policy" else None
  | TaskFillToolCache =>
      if match t_Spec task with None => true | Some s => empty (sp_PoolID s) || empty (sp_Image s) end
      then say "fill_tool_cache task needs a spec naming the pool and its image"
      else if t_Tools task =? 0 then say "fill_tool_cache task names no toolchains to fill" else None
  | TaskCheckHost => None
  | TaskMergeConflict =>
      if empty (t_MergeID task) then say "merge_conflict task has no attempt ID, so its repository cannot be pulled"
      else if empty (t_MergeImage task) then say "merge_conflict task names no worker image to run"
      else match List.find (fun x => empty x.2) (merge_ids task) with
           | Some (name, _) => say ("merge_conflict task has no " +:+ name +:+ " commit id, so the worker has nothing to merge")
           | None => None
           end
  | TaskUpdateAgent =>
      if empty (t_UpdateID task)
      then say "update_agent task has no update ID, so its outcome cannot be matched to an attempt; the controller must set one"
      else if negb (ValidWireTag (t_UpdateTag task))
      then say ("update_agent task names " +:+ quote (t_UpdateTag task) +:+ ", which is not a release tag or the dev channel; it must look like vMAJOR.MINOR.PATCH, for example v1.3.5, or be dev")
      else None
  | TaskOther k => say ("unknown task kind " +:+ quote k +:+ "; this agent speaks protocol version " +:+ ProtocolVersion +:+ ", so upgrade it to match the controller")
  end.
End validate.

(** ** Claims *)
Definition taskRank (kind : TaskKind) : Z :=
  match kind with TaskCreateRunner => 1 | TaskStopRunner => 2 | TaskRemoveRunner => 3 | _ => 0 end.

(** A key of [inflight] is only ever set to true or deleted, so it is a set. *)
Record claims := { inflight : gset string; running : gmap string TaskKind; waiting : gmap string Task }.

Definition claim (c : claims) (runnerID : string) : bool * claims :=
  if decide (runnerID ∈ inflight c) then (false, c)
  else (true, {| inflight := {[runnerID]} ∪ inflight c; running := running c; waiting := waiting c |}).

(** Taken, or held behind the task that has it, or neither. *)
Definition claimOrQueue (c : claims) (task : Task) : bool * bool * claims :=
  let r := t_RunnerID task in
  if negb (bool_decide (r ∈ inflight c))
  then (true, false, {| inflight := {[r]} ∪ inflight c; running := <[r := t_Kind task]> (running c); waiting := waiting c |})
  else match running c !! r with
       | None => (false, false, c)
       | Some kind =>
           if taskRank (t_Kind task) <=? taskRank kind then (false, false, c)
           else if match waiting c !! r with Some w => taskRank (t_Kind task) <=? taskRank (t_Kind w) | None => false end
           then (false, false, c)
           else (false, true, {| inflight := inflight c; running := running c; waiting := <[r := task]> (waiting c) |})
       end.

(** The task the claim is handed to, if one waits. *)
Definition release (c : claims) (runnerID : string) : option Task * claims :=
  match waiting c !! runnerID with
  | Some next => (Some next, {| inflight := inflight c; running := <[runnerID := t_Kind next]> (running c);
                                waiting := delete runnerID (waiting c) |})
  | None => (None, {| inflight := inflight c ∖ {[runnerID]}; running := delete runnerID (running c); waiting := waiting c |})
  end.

(** ** The startup queue

    A ticket is known by the pointer it is, here a number; [q_ready] are the tickets whose
    channel has been closed. *)
Record ticket := { tk_id : nat; tk_foreground : bool }.
Record startupQueue := { q_active : option ticket; q_pending : list ticket; q_ready : gset nat }.

Definition empty_queue : startupQueue := {| q_active := None; q_pending := []; q_ready := ∅ |}.

(** The index the loop of [advance] ends with: the first foreground ticket, else 0. *)
Definition next_index (l : list ticket) : nat :=
  match list_find (fun t => tk_foreground t) l with Some (n, _) => n | None => O end.

Definition advance (q : startupQueue) : startupQueue :=
  match q_active q, q_pending q !! next_index (q_pending q) with
  | None, Some t => {| q_active := Some t; q_pending := delete (next_index (q_pending q)) (q_pending q);
                       q_ready := {[tk_id t]} ∪ q_ready q |}
  | _, _ => q
  end.

Definition enqueue (q : startupQueue) (t : ticket) : startupQueue :=
  advance {| q_active := q_active q; q_pending := q_pending q ++ [t]; q_ready := q_ready q |}.

Definition same_ticket (t u : ticket) : bool := Nat.eqb (tk_id t) (tk_id u).

(** [startupQueue.done]. *)
Definition startup_done (q : startupQueue) (t : ticket) : startupQueue :=
  advance
    (if match q_active q with Some a => same_ticket a t | None => false end
     then {| q_active := None; q_pending := q_pending q; q_ready := q_ready q |}
     else match list_find (fun w => same_ticket w t) (q_pending q) with
          | Some (i, _) => {| q_active := q_active q; q_pending := delete i (q_pending q); q_ready := q_ready q |}
          | None => q
          end).

(** ** A task's goroutine

    Where the goroutine of [start] is: [PStart] at its first line, [PJitter] a prewarm's
    delay, [PAdmission] waiting for its turn, [PRuntime] for the runtime to recover,
    [PSem] for a slot, [PSlot], [PSuper] and [PRefuse] the checks made with the slot,
    [PRun] its handler ([runTask]), [PGiveUp] about to call [release], and [PExit]
    carrying out what was deferred.  A handler that returns has called [release] or
    leaves it to the deferred call, which is the same from outside. *)
Inductive pc := PStart | PJitter | PAdmission | PRuntime | PSem | PSlot | PSuper | PRefuse | PRun | PGiveUp | PExit.
#[global] Instance pc_eq_dec : EqDecision pc.
Proof. solve_decision. Defined.

(** [p_claimed]: the claim is still this goroutine's to release. *)
Record proc := { p_task : Task; p_pc : pc; p_claimed : bool; p_slot : bool; p_ticket : option ticket }.

(** What the goroutines share.  [sh_refuse] is whether [refuseNewWork] gives a reason,
    [sh_cancelled] the task loop's context, [sh_next] the number of the next ticket. *)
Record shared := {
  sh_claims : claims;
  sh_startup : startupQueue;
  sh_dindStartup : startupQueue;
  sh_sem : nat;
  sh_capacity : nat;
  sh_paused : bool;
  sh_refuse : bool;
  sh_cancelled : bool;
  sh_next : nat
}.

Definition with_claims (sh : shared) (c : claims) : shared :=
  {| sh_claims := c; sh_startup := sh_startup sh; sh_dindStartup := sh_dindStartup sh; sh_sem := sh_sem sh;
     sh_capacity := sh_capacity sh; sh_paused := sh_paused sh; sh_refuse := sh_refuse sh;
     sh_cancelled := sh_cancelled sh; sh_next := sh_next sh |}.
Definition with_sem (sh : shared) (n : nat) : shared :=
  {| sh_claims := sh_claims sh; sh_startup := sh_startup sh; sh_dindStartup := sh_dindStartup sh; sh_sem := n;
     sh_capacity := sh_capacity sh; sh_paused := sh_paused sh; sh_refuse := sh_refuse sh;
     sh_cancelled := sh_cancelled sh; sh_next := sh_next sh |}.
Definition with_flags (sh : shared) (paused refuse cancelled : bool) : shared :=
  {| sh_claims := sh_claims sh; sh_startup := sh_startup sh; sh_dindStartup := sh_dindStartup sh; sh_sem := sh_sem sh;
     sh_capacity := sh_capacity sh; sh_paused := paused; sh_refuse := refuse;
     sh_cancelled := cancelled; sh_next := sh_next sh |}.
(** The queue of a lane, [true] for the one of docker-in-docker runners. *)
Definition lane (sh : shared) (dind : bool) : startupQueue := if dind then sh_dindStartup sh else sh_startup sh.
Definition with_lane (sh : shared) (dind : bool) (q : startupQueue) : shared :=
  {| sh_claims := sh_claims sh; sh_startup := if dind then sh_startup sh else q;
     sh_dindStartup := if dind then q else sh_dindStartup sh; sh_sem := sh_sem sh;
     sh_capacity := sh_capacity sh; sh_paused := sh_paused sh; sh_refuse := sh_refuse sh;
     sh_cancelled := sh_cancelled sh; sh_next := sh_next sh |}.

Definition startupLane (task : Task) : bool :=
  match t_Spec task with Some sp => str_eqb (sp_DockerMode sp) "dind" | None => false end.
(** The variable [lane] of [start]. *)
Definition lane_of (task : Task) : bool := is_kind (t_Kind task) TaskCreateRunner && startupLane task.

Definition at_pc (p : proc) (c : pc) : proc :=
  {| p_task := p_task p; p_pc := c; p_claimed := p_claimed p; p_slot := p_slot p; p_ticket := p_ticket p |}.

(** The goroutine of a task, with the claim of a runner taken, or for a task that names none. *)
Definition spawned (task : Task) : proc :=
  {| p_task := task; p_pc := PStart; p_claimed := negb (str_eqb (t_RunnerID task) ""); p_slot := false; p_ticket := None |}.

(** The goroutine takes a ticket. *)
Definition take_ticket (sh : shared) (p : proc) (foreground : bool) : shared * list proc :=
  let t := {| tk_id := sh_next sh; tk_foreground := foreground |} in
  let d := lane_of (p_task p) in
  let sh' := with_lane sh d (enqueue (lane sh d) t) in
  ({| sh_claims := sh_claims sh'; sh_startup := sh_startup sh'; sh_dindStartup := sh_dindStartup sh'; sh_sem := sh_sem sh';
      sh_capacity := sh_capacity sh'; sh_paused := sh_paused sh'; sh_refuse := sh_refuse sh';
      sh_cancelled := sh_cancelled sh'; sh_next := S (sh_next sh) |},
   [{| p_task := p_task p; p_pc := PAdmission; p_claimed := p_claimed p; p_slot := p_slot p; p_ticket := Some t |}]).

(** [a.start(ctx, task)]: a create takes its ticket before its goroutine runs, so the
    queue has the creates in the order they were dispatched in. *)
Definition start (sh : shared) (task : Task) : shared * list proc :=
  if is_kind (t_Kind task) TaskCreateRunner then take_ticket sh (spawned task) true else (sh, [spawned task]).

(** [a.release]: the claims are [c], and the task handed one is started. *)
Definition hand_over (sh : shared) (c : claims) (next : option Task) : shared * list proc :=
  match next with Some t => start (with_claims sh c) t | None => (with_claims sh c, []) end.

(** [releaseOnce]: the claim is given up once, and the task it is handed to is started. *)
Definition release_once (sh : shared) (p : proc) : shared * list proc :=
  if p_claimed p then
    let '(next, c) := release (sh_claims sh) (t_RunnerID (p_task p)) in
    let '(sh', ps) := hand_over sh c next in
    (sh', {| p_task := p_task p; p_pc := PExit; p_claimed := false; p_slot := p_slot p; p_ticket := p_ticket p |} :: ps)
  else (sh, [at_pc p PExit]).

(** The calls [start] deferred, the last first. *)
Definition exit_step (sh : shared) (p : proc) : shared * list proc :=
  if p_slot p then
    (with_sem sh (pred (sh_sem sh)),
     [{| p_task := p_task p; p_pc := PExit; p_claimed := p_claimed p; p_slot := false; p_ticket := p_ticket p |}])
  else match p_ticket p with
       | Some t => (with_lane sh (lane_of (p_task p)) (startup_done (lane sh (lane_of (p_task p))) t),
                    [{| p_task := p_task p; p_pc := PExit; p_claimed := p_claimed p; p_slot := false; p_ticket := None |}])
       | None => if p_claimed p then release_once sh p else (sh, [])
       end.

(** One step of a goroutine: what is shared afterwards, and what the goroutine has become
    -- itself further on, itself and one it started, or nothing.  [cancel] chooses the
    branch of a [select] on the context that is done. *)
Definition go_step (cancel : bool) (sh : shared) (p : proc) : option (shared * list proc) :=
  let create := is_kind (t_Kind (p_task p)) TaskCreateRunner in
  let cut_short (to : pc) := if sh_cancelled sh then Some (sh, [at_pc p to]) else None in
  match p_pc p with
  | PStart => Some (sh, [at_pc p (if is_kind (t_Kind (p_task p)) TaskPrewarmImage then PJitter else PSem)])
  | PJitter => if cancel then cut_short PExit else Some (take_ticket sh p false)
  | PAdmission =>
      if cancel then cut_short PGiveUp
      else match p_ticket p with
           | Some t => if decide (tk_id t ∈ q_ready (lane sh (lane_of (p_task p)))) then Some (sh, [at_pc p PRuntime]) else None
           | None => None
           end
  | PRuntime => if cancel then cut_short PGiveUp else Some (sh, [at_pc p PSem])
  | PSem =>
      if cancel then cut_short PGiveUp
      else if (sh_sem sh <? sh_capacity sh)%nat
      then Some (with_sem sh (S (sh_sem sh)),
                 [{| p_task := p_task p; p_pc := PSlot; p_claimed := p_claimed p; p_slot := true; p_ticket := p_ticket p |}])
      else None
  | PSlot => Some (sh, [at_pc p (if sh_paused sh || sh_cancelled sh then PGiveUp else if create then PSuper else PRun)])
  | PSuper =>
      Some (sh, [at_pc p (match waiting (sh_claims sh) !! t_RunnerID (p_task p) with Some _ => PGiveUp | None => PRefuse end)])
  | PRefuse => Some (sh, [at_pc p (if sh_refuse sh then PGiveUp else PRun)])
  | PRun => Some (sh, [at_pc p PGiveUp])
  | PGiveUp => Some (release_once sh p)
  | PExit => Some (exit_step sh p)
  end.

(** ** The host's runs

    [y_recon]: the claims the reconciler holds. *)
Record sys := { y_sh : shared; y_procs : list proc; y_recon : list string }.

(** [dispatch], once the heartbeat has answered: the kinds that are not lifecycle work
    have goroutines of their own, which take no claim and no slot. *)
Definition dispatch (quote : string -> string) (walk : list (string * string) -> list (string * string)) (y : sys) (task : Task) : sys :=
  match validateTask quote walk task with
  | Some _ => y
  | None =>
      if is_kind (t_Kind task) TaskCreateRunner && sh_refuse (y_sh y) then y
      else match t_Kind task with
      | TaskCreateRunner | TaskStopRunner | TaskRemoveRunner | TaskPrewarmImage =>
          if str_eqb (t_RunnerID task) ""
          then let '(sh, ps) := start (y_sh y) task in {| y_sh := sh; y_procs := ps ++ y_procs y; y_recon := y_recon y |}
          else let '(claimed, _, c) := claimOrQueue (sh_claims (y_sh y)) task in
               let '(sh, ps) := hand_over (y_sh y) c (if claimed then Some task else None) in
               {| y_sh := sh; y_procs := ps ++ y_procs y; y_recon := y_recon y |}
      | _ => y
      end
  end.

(** One goroutine moves. *)
Inductive gstep : sys -> sys -> Prop :=
  | gstep_intro cancel y p rest sh ps :
      y_procs y ≡ₚ p :: rest -> go_step cancel (y_sh y) p = Some (sh, ps) ->
      gstep y {| y_sh := sh; y_procs := ps ++ rest; y_recon := y_recon y |}.

(** What the rest of the agent does: a task is dispatched, the reconciler takes a claim
    or gives one up, and the heartbeats and the shutdown set the flags. *)
Inductive estep : sys -> sys -> Prop :=
  | estep_dispatch quote walk y task : estep y (dispatch quote walk y task)
  | estep_claim y runnerID c :
      claim (sh_claims (y_sh y)) runnerID = (true, c) -> runnerID <> "" ->
      estep y {| y_sh := with_claims (y_sh y) c; y_procs := y_procs y; y_recon := runnerID :: y_recon y |}
  | estep_release y runnerID rest next c sh ps :
      y_recon y ≡ₚ runnerID :: rest -> release (sh_claims (y_sh y)) runnerID = (next, c) ->
      hand_over (y_sh y) c next = (sh, ps) ->
      estep y {| y_sh := sh; y_procs := ps ++ y_procs y; y_recon := rest |}
  | estep_flags y paused refuse cancelled :
      estep y {| y_sh := with_flags (y_sh y) paused refuse cancelled; y_procs := y_procs y; y_recon := y_recon y |}.

Definition host_step (y y' : sys) : Prop := gstep y y' \/ estep y y'.

Definition booted (capacity : nat) : sys :=
  {| y_sh := {| sh_claims := {| inflight := ∅; running := ∅; waiting := ∅ |}; sh_startup := empty_queue;
                sh_dindStartup := empty_queue; sh_sem := 0; sh_capacity := capacity; sh_paused := false;
                sh_refuse := false; sh_cancelled := false; sh_next := 0 |};
     y_procs := []; y_recon := [] |}.

Definition reachable (capacity : nat) (y : sys) : Prop := rtc host_step (booted capacity) y.

(** ** The claims *)
Section claims.

(** The claims [c], when the goroutines of the tasks [L] hold theirs and the reconciler
    holds those of [R]. *)
Record claims_ok (c : claims) (L : list Task) (R : list string) : Prop := {
  co_once : NoDup ((t_RunnerID <$> L) ++ R);
  co_inflight r : r ∈ inflight c <-> r ∈ (t_RunnerID <$> L) ++ R;
  co_running r k : running c !! r = Some k <-> exists t, t ∈ L /\ t_RunnerID t = r /\ t_Kind t = k;
  co_waiting r t : waiting c !! r = Some t ->
    t_RunnerID t = r /\ r <> "" /\ exists k, running c !! r = Some k /\ taskRank k < taskRank (t_Kind t)
}.

#[global] Instance claims_ok_proper c : Proper ((≡ₚ) ==> (≡ₚ) ==> iff) (claims_ok c).
Proof.
  assert (H : forall L L' R R', L ≡ₚ L' -> R ≡ₚ R' -> claims_ok c L R -> claims_ok c L' R').
  { intros L L' R R' HL HR [H1 H2 H3 H4]. split; [|intros r|intros r k|done].
    - by rewrite <- HL, <- HR.
    - by rewrite H2, HL, HR.
    - rewrite H3. by setoid_rewrite HL. }
  intros L L' HL R R' HR. split; apply H; done.
Qed.

Implicit Types (c : claims) (L : list Task) (R : list string).

Lemma claims_ok_empty : claims_ok {| inflight := ∅; running := ∅; waiting := ∅ |} [] [].
Proof.
  split; cbn; [constructor| | |].
  - intros r. rewrite elem_of_nil. set_solver.
  - intros r k. rewrite lookup_empty. split; [done|]. intros (t & Ht & _). by apply elem_of_nil in Ht.
  - intros r t. by rewrite lookup_empty.
Qed.

Lemma claim_ok c c' L R r : claims_ok c L R -> claim c r = (true, c') -> claims_ok c' L (r :: R).
Proof.
  intros [H1 H2 H3 H4]. unfold claim. case_decide as Hr; [done|]. intros [= <-]. split; cbn; [|intros r'|done|done].
  - rewrite <- Permutation_middle. constructor; [by rewrite <- H2|done].
  - rewrite elem_of_union, elem_of_singleton, H2, <- Permutation_middle, elem_of_cons. tauto.
Qed.

Lemma take_ok c c' L R t h :
  claims_ok c L R -> claimOrQueue c t = (true, h, c') -> claims_ok c' (t :: L) R.
Proof.
  intros [H1 H2 H3 H4]. unfold claimOrQueue. case_bool_decide as Hr; cbn.
  { intros H. exfalso. revert H. repeat case_match; by intros. }
  intros [= <- <-]. assert (Hr' := Hr). rewrite H2 in Hr'. split; cbn.
  - by constructor.
  - intros r. rewrite elem_of_union, elem_of_singleton, H2, elem_of_cons. done.
  - intros r k. rewrite lookup_insert_Some, H3. setoid_rewrite elem_of_cons. split.
    + intros [[<- <-]|(Hne & u & Hu & Hrest)]; [by exists t; split_and!; [left|..]|].
      exists u. split_and!; [right| |]; tauto.
    + intros (u & [->|Hu] & <- & <-); [by left|]. right. split; [|by exists u].
      intros E. apply Hr'. rewrite E. apply elem_of_app. left. by apply list_elem_of_fmap_2.
  - intros r u Hu. destruct (H4 r u Hu) as (E & Hne & k & Hk & Hrank). split_and!; try done.
    exists k. split; [|done]. rewrite lookup_insert_ne; [done|].
    intros <-. apply Hr. rewrite H2. apply H3 in Hk as (v & Hv & E' & _). rewrite <- E'.
    apply elem_of_app. left. by apply list_elem_of_fmap_2.
Qed.

Lemma queue_ok c c' L R t h :
  claims_ok c L R -> t_RunnerID t <> "" -> claimOrQueue c t = (false, h, c') -> claims_ok c' L R.
Proof.
  intros [H1 H2 H3 H4] Hne. unfold claimOrQueue. case_bool_decide as Hr; cbn; [|done].
  destruct (running c !! t_RunnerID t) as [k|] eqn:Hk; [|by intros [= <- <-]].
  destruct (Z.leb_spec (taskRank (t_Kind t)) (taskRank k)) as [|Hlt]; [by intros [= <- <-]|].
  case_match; [by intros [= <- <-]|]. intros [= <- <-]. split; cbn; try done.
  intros r u. rewrite lookup_insert_Some. intros [[<- <-]|[_ Hu]]; [|by apply H4].
  split_and!; [done..|]. by exists k.
Qed.

(** A claim released is handed to the task that waits, or is free. *)
Lemma handover_ok c c' t L R next :
  claims_ok c (t :: L) R -> release c (t_RunnerID t) = (Some next, c') ->
  waiting c !! t_RunnerID t = Some next /\ t_RunnerID next = t_RunnerID t /\ claims_ok c' (next :: L) R.
Proof.
  intros [H1 H2 H3 H4]. unfold release. destruct (waiting c !! t_RunnerID t) as [n|] eqn:Hw; [|done].
  intros [= -> <-]. destruct (H4 _ _ Hw) as (E & Hne & k & Hk & Hrank). split_and!; try done.
  assert (Hfresh : forall u, u ∈ L -> t_RunnerID u <> t_RunnerID t).
  { intros u Hu E'. cbn in H1. apply NoDup_cons in H1 as [H1 _]. apply H1, elem_of_app. left. rewrite <- E'.
    by apply list_elem_of_fmap_2. }
  split; cbn; rewrite ?E.
  - done.
  - done.
  - intros r k'. rewrite lookup_insert_Some, H3. setoid_rewrite elem_of_cons. split.
    + intros [[<- <-]|(Hr & u & [->|Hu] & <- & <-)]; [by exists next; split_and!; [left|..]|done|].
      exists u. split_and!; [by right|done..].
    + intros (u & [->|Hu] & <- & <-); [by left|]. right. split; [by apply not_eq_sym, Hfresh|].
      exists u. split_and!; [by right|done..].
  - intros r u. rewrite lookup_delete_Some. intros [Hr Hu]. rewrite lookup_insert_ne by done. by apply H4.
Qed.

Lemma free_ok c c' t L R :
  claims_ok c (t :: L) R -> release c (t_RunnerID t) = (None, c') -> claims_ok c' L R.
Proof.
  intros [H1 H2 H3 H4]. unfold release. destruct (waiting c !! t_RunnerID t) eqn:Hw; [done|]. intros [= <-].
  cbn in H1. apply NoDup_cons in H1 as [H0 H1]. split; cbn.
  - done.
  - intros r. rewrite elem_of_difference, elem_of_singleton, H2. cbn. rewrite elem_of_cons. split; [tauto|].
    intros Hr. split; [by right|]. intros ->. by apply H0.
  - intros r k. rewrite lookup_delete_Some, H3. setoid_rewrite elem_of_cons. split.
    + intros (Hr & u & [->|Hu] & <- & <-); [done|by exists u].
    + intros (u & Hu & <- & <-). split; [|exists u; split_and!; [by right|done..]].
      intros E. apply H0, elem_of_app. left. rewrite E. by apply list_elem_of_fmap_2.
  - intros r u Hu. destruct (H4 r u Hu) as (E & Hne & k & Hk & Hrank). split_and!; try done. exists k.
    split; [|done]. rewrite lookup_delete_ne; [done|]. intros <-. congruence.
Qed.

(** Nothing waits behind the reconciler. *)
Lemma reconciler_free_ok c c' r L R next :
  claims_ok c L (r :: R) -> release c r = (next, c') -> next = None /\ claims_ok c' L R.
Proof.
  intros [H1 H2 H3 H4]. assert (Hr : r ∉ (t_RunnerID <$> L) ++ R).
  { rewrite <- Permutation_middle in H1. by apply NoDup_cons in H1 as [? _]. }
  assert (Hrun : running c !! r = None).
  { apply eq_None_not_Some. intros [k Hk]. apply H3 in Hk as (t & Ht & <- & _).
    apply Hr, elem_of_app. left. by apply list_elem_of_fmap_2. }
  assert (Hw : waiting c !! r = None).
  { apply eq_None_not_Some. intros [t Ht]. apply H4 in Ht as (_ & _ & k & Hk & _). congruence. }
  unfold release. rewrite Hw. intros [= <- <-]. split; [done|]. split; cbn.
  - rewrite <- Permutation_middle in H1. by apply NoDup_cons in H1 as [_ ?].
  - intros r'. rewrite elem_of_difference, elem_of_singleton, H2, <- Permutation_middle, elem_of_cons. split; [tauto|].
    intros Hr'. split; [by right|]. by intros ->.
  - intros r' k. rewrite lookup_delete_Some, H3. split; [tauto|]. intros Hex. split; [|done].
    intros ->. assert (Hk : running c !! r' = Some k) by by apply H3. congruence.
  - intros r' u Hu. destruct (H4 r' u Hu) as (E & Hne & k & Hk & Hrank). split_and!; try done. exists k.
    split; [|done]. rewrite lookup_delete_ne; [done|]. intros ->. congruence.
Qed.
End claims.

(** ** The startup queue *)
Section lanes.
Implicit Types (q : startupQueue) (T : list ticket).

Definition queue_tickets q : list ticket := option_list (q_active q) ++ q_pending q.

(** [T]: the tickets taken and not yet done; [n]: the next number. *)
Record lane_ok q T (n : nat) : Prop := {
  lo_tickets : T ≡ₚ queue_tickets q;
  lo_once : NoDup (tk_id <$> T);
  lo_below t : t ∈ T -> (tk_id t < n)%nat;
  lo_advanced : q_active q = None -> q_pending q = [];
  lo_ready i : i ∈ q_ready q -> (i < n)%nat;
  lo_active a : q_active q = Some a -> tk_id a ∈ q_ready q;
  lo_waiting t : t ∈ q_pending q -> tk_id t ∉ q_ready q
}.

#[global] Instance lane_ok_proper q : Proper ((≡ₚ) ==> (=) ==> iff) (lane_ok q).
Proof.
  assert (H : forall T T' n, T ≡ₚ T' -> lane_ok q T n -> lane_ok q T' n).
  { intros T T' n HT [H1 H2 H3 H4 H5 H6 H7]. split; try done; [by rewrite <- HT|by rewrite <- HT|].
    intros t. rewrite <- HT. apply H3. }
  intros T T' HT n ? <-. split; by apply H.
Qed.

Lemma lane_ok_empty n : lane_ok empty_queue [] n.
Proof. split; cbn; try done; [constructor|set_solver..]. Qed.

Lemma lane_ok_weaken q T n m : (n <= m)%nat -> lane_ok q T n -> lane_ok q T m.
Proof. intros Hm [H1 H2 H3 H4 H5 H6 H7]. split; try done; [intros t Ht; specialize (H3 t Ht); lia|intros i Hi; specialize (H5 i Hi); lia]. Qed.

Lemma next_index_lt l : l <> [] -> exists t, l !! next_index l = Some t.
Proof.
  intros Hl. unfold next_index. destruct (list_find _ l) as [[i t]|] eqn:E.
  - apply list_find_Some in E as (E & _). by exists t.
  - destruct l as [|t l]; [done|]. by exists t.
Qed.

(** [advance] lets the next ticket in when none is active. *)
Lemma advance_ok q T n :
  T ≡ₚ queue_tickets q -> NoDup (tk_id <$> T) -> (forall t, t ∈ T -> (tk_id t < n)%nat) ->
  (forall i, i ∈ q_ready q -> (i < n)%nat) -> (forall a, q_active q = Some a -> tk_id a ∈ q_ready q) ->
  (forall t, t ∈ q_pending q -> tk_id t ∉ q_ready q) ->
  lane_ok (advance q) T n /\ (forall a, q_active q = Some a -> q_active (advance q) = Some a).
Proof.
  intros HT Hn Hb Hr Ha Hp. unfold advance. destruct (q_active q) as [a|] eqn:Eact.
  { rewrite Eact. split; [|done]. split; rewrite ?Eact; done. }
  destruct (decide (q_pending q = [])) as [Hnil|Hnil].
  { rewrite Hnil. cbn. split; [|done]. split; try done; congruence. }
  destruct (next_index_lt _ Hnil) as [t Ht]. rewrite Ht. split; [|done].
  assert (Hperm : q_pending q ≡ₚ t :: delete (next_index (q_pending q)) (q_pending q)) by by apply delete_Permutation.
  assert (Htk : T ≡ₚ t :: delete (next_index (q_pending q)) (q_pending q)).
  { rewrite HT. unfold queue_tickets. by rewrite Eact. }
  split; cbn; try done.
  - intros i. rewrite elem_of_union, elem_of_singleton. intros [->|Hi]; [|by apply Hr].
    apply Hb. rewrite Htk. by left.
  - intros ? [= <-]. set_solver.
  - intros u Hu. rewrite elem_of_union, elem_of_singleton. intros [E|Hu'].
    + rewrite Htk in Hn. cbn in Hn. apply NoDup_cons in Hn as [Hn _]. apply Hn. rewrite <- E. by apply list_elem_of_fmap_2.
    + revert Hu'. apply Hp. rewrite Hperm. by right.
Qed.

Lemma enqueue_ok q T n fg :
  lane_ok q T n ->
  lane_ok (enqueue q {| tk_id := n; tk_foreground := fg |}) ({| tk_id := n; tk_foreground := fg |} :: T) (S n) /\
  (forall a, q_active q = Some a -> q_active (enqueue q {| tk_id := n; tk_foreground := fg |}) = Some a).
Proof.
  intros [H1 H2 H3 H4 H5 H6 H7]. unfold enqueue.
  apply (advance_ok {| q_active := q_active q; q_pending := q_pending q ++ [_]; q_ready := q_ready q |}); cbn.
  - rewrite H1. unfold queue_tickets. cbn. by rewrite app_assoc, <- Permutation_cons_append.
  - constructor; [|done]. rewrite list_elem_of_fmap. intros (t & Et & Ht). apply H3 in Ht. lia.
  - intros t [->|Ht]%elem_of_cons; cbn; [lia|]. apply H3 in Ht. lia.
  - intros i Hi. apply H5 in Hi. lia.
  - done.
  - intros t. rewrite elem_of_app, list_elem_of_singleton. intros [Ht| ->]; [by apply H7|]. intros Hi%H5. cbn in Hi. lia.
Qed.

Lemma find_ticket T t : t ∈ T -> NoDup (tk_id <$> T) -> exists i, list_find (fun w => same_ticket w t) T = Some (i, t).
Proof.
  intros Ht Hn. destruct (list_find_elem_of (fun w => same_ticket w t) T t Ht) as [[i u] E].
  { unfold same_ticket. by rewrite Nat.eqb_refl. }
  exists i. rewrite E. do 2 f_equal. apply list_find_Some in E as (Hu & E & _).
  unfold same_ticket in E. apply Is_true_true, Nat.eqb_eq in E.
  apply list_elem_of_lookup in Ht as [j Hj].
  assert (i = j); [|by simplify_eq].
  eapply (NoDup_lookup _ _ _ (tk_id t) Hn); rewrite list_lookup_fmap; [by rewrite Hu; cbn; rewrite E|by rewrite Hj].
Qed.

(** A ticket that is done leaves the queue, whether it was its turn or not. *)
Lemma startup_done_ok q T n t :
  lane_ok q (t :: T) n ->
  lane_ok (startup_done q t) T n /\ (forall a, q_active q = Some a -> a <> t -> q_active (startup_done q t) = Some a).
Proof.
  intros [H1 H2 H3 H4 H5 H6 H7]. unfold startup_done. cbn in H2. apply NoDup_cons in H2 as [H0 H2].
  assert (Hin : t ∈ queue_tickets q) by by rewrite <- H1; left.
  assert (Hnt : NoDup (tk_id <$> queue_tickets q)) by by rewrite <- H1; constructor.
  destruct (q_active q) as [a|] eqn:Ha; cbn.
  2:{ exfalso. unfold queue_tickets in Hin. rewrite Ha, H4 in Hin by done. by apply elem_of_nil in Hin. }
  unfold queue_tickets in *. rewrite Ha in *. cbn in *.
  destruct (same_ticket a t) eqn:Est; unfold same_ticket in Est; [apply Nat.eqb_eq in Est as Eid|apply Nat.eqb_neq in Est as Hne].
  - assert (a = t) as ->.
    { apply elem_of_cons in Hin as [->|Hin]; [done|]. exfalso. apply NoDup_cons in Hnt as [Hnt _].
      apply Hnt. rewrite Eid. by apply list_elem_of_fmap_2. }
    apply Permutation_cons_inv in H1.
    destruct (advance_ok {| q_active := None; q_pending := q_pending q; q_ready := q_ready q |} T n) as [Hok _]; cbn; try done.
    { intros u Hu. apply H3. by right. }
    split; [done|]. congruence.
  - assert (Hp : t ∈ q_pending q) by (apply elem_of_cons in Hin as [->|?]; done).
    apply NoDup_cons in Hnt as [_ Hnt]. destruct (find_ticket _ _ Hp Hnt) as [i Ei]. rewrite Ei.
    apply list_find_Some in Ei as (Ei & _).
    assert (Hperm := delete_Permutation _ _ _ Ei).
    destruct (advance_ok {| q_active := Some a; q_pending := delete i (q_pending q); q_ready := q_ready q |} T n) as [Hok Hkeep]; cbn; try done.
    { rewrite Hperm in H1. cbn. rewrite Permutation_swap in H1. by apply Permutation_cons_inv in H1. }
    { intros u Hu. apply H3. by right. }
    { intros u Hu. apply H7. rewrite Hperm. by right. }
Qed.
End lanes.

(** ** The invariant of a host's runs *)
Definition claimed_tasks (ps : list proc) : list Task := omap (fun p => if p_claimed p then Some (p_task p) else None) ps.
Definition lane_tickets (d : bool) (ps : list proc) : list ticket :=
  omap (fun p => if Bool.eqb (lane_of (p_task p)) d then p_ticket p else None) ps.
Definition in_slots (ps : list proc) : list proc := List.filter p_slot ps.

(** The tasks that wait for the startup queue. *)
Definition queued_kind (task : Task) : bool := is_kind (t_Kind task) TaskCreateRunner || is_kind (t_Kind task) TaskPrewarmImage.

(** It is the goroutine's turn, if it needs one. *)
Definition has_turn (sh : shared) (p : proc) : Prop :=
  if queued_kind (p_task p)
  then exists t, p_ticket p = Some t /\ q_active (lane sh (lane_of (p_task p))) = Some t
  else p_ticket p = None.

Definition proc_ok (sh : shared) (p : proc) : Prop :=
  (p_claimed p = true -> t_RunnerID (p_task p) <> "") /\
  match p_pc p with
  | PStart => p_slot p = false /\ p_ticket p = None /\ is_kind (t_Kind (p_task p)) TaskCreateRunner = false
  | PJitter => p_slot p = false /\ p_ticket p = None /\ queued_kind (p_task p) = true
  | PAdmission => p_slot p = false /\ queued_kind (p_task p) = true /\ exists t, p_ticket p = Some t
  | PRuntime | PSem => p_slot p = false /\ has_turn sh p
  | PSlot | PSuper | PRefuse | PRun => p_slot p = true /\ has_turn sh p
  | PGiveUp | PExit => p_slot p = true -> has_turn sh p
  end.

Record sys_ok (sh : shared) (ps : list proc) (recon : list string) : Prop := {
  so_claims : claims_ok (sh_claims sh) (claimed_tasks ps) recon;
  so_sem : sh_sem sh = length (in_slots ps);
  so_capacity : (sh_sem sh <= sh_capacity sh)%nat;
  so_lane d : lane_ok (lane sh d) (lane_tickets d ps) (sh_next sh);
  so_procs p : p ∈ ps -> proc_ok sh p
}.

#[global] Instance sys_ok_proper sh : Proper ((≡ₚ) ==> (≡ₚ) ==> iff) (sys_ok sh).
Proof.
  assert (H : forall ps ps' R R', ps ≡ₚ ps' -> R ≡ₚ R' -> sys_ok sh ps R -> sys_ok sh ps' R').
  { intros ps ps' R R' Hps HR [H1 H2 H3 H4 H5]. split.
    - unfold claimed_tasks in *. by rewrite <- Hps, <- HR.
    - rewrite H2. unfold in_slots. by rewrite Hps.
    - done.
    - intros d. specialize (H4 d). unfold lane_tickets in *. by rewrite <- Hps.
    - intros p. rewrite <- Hps. apply H5. }
  intros ps ps' Hps R R' HR. split; apply H; done.
Qed.

Section invariant.
Implicit Types (sh : shared) (p : proc) (ps rest : list proc) (R : list string).

Lemma sys_ok_booted n : sys_ok (y_sh (booted n)) [] [].
Proof.
  split; cbn; [apply claims_ok_empty|done|lia|intros []; apply lane_ok_empty|].
  intros p Hp. by apply elem_of_nil in Hp.
Qed.

(** A goroutine's turn depends on its own lane only. *)
Lemma proc_ok_lanes sh sh' p :
  (forall t, p_ticket p = Some t -> q_active (lane sh (lane_of (p_task p))) = Some t ->
             q_active (lane sh' (lane_of (p_task p))) = Some t) ->
  proc_ok sh p -> proc_ok sh' p.
Proof.
  intros H [Hc Hp]. split; [done|].
  assert (Ht : has_turn sh p -> has_turn sh' p).
  { unfold has_turn. destruct (queued_kind (p_task p)); [|done]. intros (t & E & Ha). exists t. auto. }
  destruct (p_pc p); naive_solver.
Qed.

Lemma lane_tickets_cons d p ps :
  lane_tickets d (p :: ps) =
  (if Bool.eqb (lane_of (p_task p)) d then option_list (p_ticket p) else []) ++ lane_tickets d ps.
Proof. unfold lane_tickets. cbn. destruct (Bool.eqb _ _); [|done]. by destruct (p_ticket p). Qed.

Lemma claimed_tasks_cons p ps :
  claimed_tasks (p :: ps) = (if p_claimed p then [p_task p] else []) ++ claimed_tasks ps.
Proof. unfold claimed_tasks. cbn. by destruct (p_claimed p). Qed.

Lemma in_slots_cons p ps : length (in_slots (p :: ps)) = ((if p_slot p then 1 else 0) + length (in_slots ps))%nat.
Proof. unfold in_slots. cbn. by destruct (p_slot p). Qed.

(** A step of a goroutine alone: it goes on with what it has. *)
Lemma sys_ok_move sh p p' rest R :
  p_task p' = p_task p -> p_claimed p' = p_claimed p -> p_slot p' = p_slot p -> p_ticket p' = p_ticket p ->
  proc_ok sh p' -> sys_ok sh (p :: rest) R -> sys_ok sh (p' :: rest) R.
Proof.
  intros E1 E2 E3 E4 Hp [H1 H2 H3 H4 H5]. split.
  - by rewrite claimed_tasks_cons, E1, E2, <- claimed_tasks_cons.
  - by rewrite H2, !in_slots_cons, E3.
  - done.
  - intros d. rewrite lane_tickets_cons, E1, E4, <- lane_tickets_cons. apply H4.
  - intros x [->|Hx]%elem_of_cons; [done|]. apply H5. by right.
Qed.

Lemma lane_with_lane sh d d' q : lane (with_lane sh d q) d' = if Bool.eqb d d' then q else lane sh d'.
Proof. by destruct d, d'. Qed.

(** A ticket in a lane belongs to one goroutine. *)
Lemma ticket_of_one sh p p' rest R t t' :
  sys_ok sh (p :: rest) R -> p_ticket p = Some t -> p' ∈ rest -> p_ticket p' = Some t' ->
  lane_of (p_task p') = lane_of (p_task p) -> t' <> t.
Proof.
  intros [_ _ _ H4 _] Et Hp' Et' El ->. specialize (H4 (lane_of (p_task p))). destruct H4 as [_ Hn _ _ _ _ _].
  rewrite lane_tickets_cons, Bool.eqb_reflx, Et in Hn. cbn in Hn. apply NoDup_cons in Hn as [Hn _].
  apply Hn, list_elem_of_fmap_2. unfold lane_tickets. apply list_elem_of_omap. exists p'.
  split; [done|]. by rewrite El, Bool.eqb_reflx.
Qed.

Lemma sys_ok_ticket sh p rest R fg sh' ps :
  queued_kind (p_task p) = true -> p_ticket p = None -> p_slot p = false ->
  take_ticket sh p fg = (sh', ps) -> sys_ok sh (p :: rest) R -> sys_ok sh' (ps ++ rest) R.
Proof.
  intros Hk Et Es [= <- <-] [H1 H2 H3 H4 H5].
  set (d := lane_of (p_task p)). set (t := {| tk_id := sh_next sh; tk_foreground := fg |}).
  assert (Hd := H4 d). rewrite lane_tickets_cons in Hd. unfold d in Hd. rewrite Bool.eqb_reflx, Et in Hd. cbn in Hd.
  destruct (enqueue_ok _ _ _ fg Hd) as [Hok Hkeep].
  assert (Hlane : forall x, lane {| sh_claims := sh_claims sh; sh_startup := if d then sh_startup sh else enqueue (lane sh d) t;
      sh_dindStartup := if d then enqueue (lane sh d) t else sh_dindStartup sh; sh_sem := sh_sem sh;
      sh_capacity := sh_capacity sh; sh_paused := sh_paused sh; sh_refuse := sh_refuse sh;
      sh_cancelled := sh_cancelled sh; sh_next := S (sh_next sh) |} x = if Bool.eqb d x then enqueue (lane sh d) t else lane sh x)
    by by destruct d, x.
  split.
  - done.
  - cbn. by rewrite H2, !in_slots_cons, Es.
  - done.
  - intros x. rewrite Hlane. cbn [sh_next app]. rewrite lane_tickets_cons. cbn [p_task p_ticket]. fold d.
    destruct (Bool.eqb_spec d x) as [<-|Hne]; [done|].
    specialize (H4 x). rewrite lane_tickets_cons in H4. fold d in H4.
    destruct (Bool.eqb_spec d x); [done|]. cbn in *. by eapply lane_ok_weaken, H4; lia.
  - intros x [->|Hx]%elem_of_cons.
    + destruct (H5 p ltac:(by left)) as [Hc _]. split; [done|]. cbn. eauto.
    + assert (Hx' : proc_ok sh x) by (apply H5; by right). revert Hx'. apply proc_ok_lanes.
      intros u _ Hu. rewrite Hlane. destruct (Bool.eqb_spec d (lane_of (p_task x))) as [E|]; [|done].
      rewrite <- E in Hu. by apply Hkeep.
Qed.

(** The slot is one of the host's. *)
Lemma sys_ok_slot sh p rest R :
  has_turn sh p -> p_slot p = false -> (sh_sem sh < sh_capacity sh)%nat -> sys_ok sh (p :: rest) R ->
  sys_ok (with_sem sh (S (sh_sem sh)))
    ({| p_task := p_task p; p_pc := PSlot; p_claimed := p_claimed p; p_slot := true; p_ticket := p_ticket p |} :: rest) R.
Proof.
  intros Ht Es Hlt [H1 H2 H3 H4 H5]. rewrite in_slots_cons, Es in H2. split.
  - cbn [sh_claims with_sem]. by rewrite claimed_tasks_cons in *.
  - rewrite in_slots_cons. cbn. lia.
  - cbn. lia.
  - intros d. specialize (H4 d). rewrite lane_tickets_cons in *. by destruct d.
  - intros x [->|Hx]%elem_of_cons.
    + destruct (H5 p ltac:(by left)) as [Hc _]. split; [done|]. split; [done|].
      unfold has_turn in *. cbn. by destruct (lane_of (p_task p)).
    + eapply proc_ok_lanes, H5; [|by right]. by destruct (lane_of (p_task x)).
Qed.

(** A goroutine as it is when [start] has made it and it has no ticket yet. *)
Definition unticketed (u : Task) : proc :=
  at_pc (spawned u) (if is_kind (t_Kind u) TaskCreateRunner then PJitter else PStart).

(** What a claim's release does to the claims and the goroutines. *)
Lemma claims_ok_release c t L R next c' :
  claims_ok c (t :: L) R -> release c (t_RunnerID t) = (next, c') ->
  claims_ok c' (claimed_tasks (unticketed <$> option_list next) ++ L) R /\ (forall u, next = Some u -> t_RunnerID u <> "").
Proof.
  intros H Hr. destruct next as [u|].
  - destruct (handover_ok _ _ _ _ _ _ H Hr) as (Hw & E & Hok). destruct H as [_ _ _ H4].
    destruct (H4 _ _ Hw) as (_ & Hne & _). split; [|intros ? [= <-]; congruence].
    unfold claimed_tasks, unticketed, spawned. cbn. unfold str_eqb. rewrite bool_decide_eq_false_2; [done|congruence].
  - split; [|done]. by apply free_ok with (t := t) (c := c).
Qed.

Lemma unticketed_ok sh u : proc_ok sh (unticketed u).
Proof.
  unfold proc_ok, unticketed, queued_kind. cbn. split.
  - unfold str_eqb. case_bool_decide; by cbn.
  - destruct (is_kind (t_Kind u) TaskCreateRunner) eqn:E; cbn; by rewrite ?E.
Qed.

Lemma lane_tickets_unticketed d u ps : lane_tickets d (unticketed u :: ps) = lane_tickets d ps.
Proof. rewrite lane_tickets_cons. cbn. by destruct (Bool.eqb _ _). Qed.

(** A goroutine that has neither slot nor ticket is added. *)
Lemma sys_ok_spawn sh c ps R u :
  claims_ok c (claimed_tasks (unticketed u :: ps)) R -> sys_ok sh ps R -> sys_ok (with_claims sh c) (unticketed u :: ps) R.
Proof.
  intros Hc [H1 H2 H3 H4 H5]. split; try done.
  - intros d. rewrite lane_tickets_unticketed. specialize (H4 d). by destruct d.
  - intros p [->|Hp]%elem_of_cons; [apply unticketed_ok|].
    eapply proc_ok_lanes, H5; [|done]. by destruct (lane_of (p_task p)).
Qed.

(** [start] gives it its ticket, where it is a create. *)
Lemma sys_ok_start sh u sh' us ps R :
  start sh u = (sh', us) -> sys_ok sh (unticketed u :: ps) R -> sys_ok sh' (us ++ ps) R.
Proof.
  unfold start, unticketed. destruct (is_kind (t_Kind u) TaskCreateRunner) eqn:E; [|by intros [= <- <-]].
  intros Hs Hok. refine (sys_ok_ticket sh (at_pc (spawned u) PJitter) ps R true sh' us _ eq_refl eq_refl Hs Hok).
  cbn. unfold queued_kind. by rewrite E.
Qed.

Lemma sys_ok_hand_over sh c next sh' us ps R :
  hand_over sh c next = (sh', us) -> sys_ok (with_claims sh c) ((unticketed <$> option_list next) ++ ps) R ->
  sys_ok sh' (us ++ ps) R.
Proof. unfold hand_over. destruct next as [u|]; cbn; [by apply sys_ok_start|by intros [= <- <-]]. Qed.

Lemma sys_ok_release sh p rest R sh' ps :
  release_once sh p = (sh', ps) -> p_pc p = PGiveUp \/ p_pc p = PExit ->
  sys_ok sh (p :: rest) R -> sys_ok sh' (ps ++ rest) R.
Proof.
  unfold release_once. intros Hr Hpc Hok. assert (Hp := so_procs _ _ _ Hok p ltac:(by left)).
  destruct Hp as [Hc Hp]. assert (Hpp : p_slot p = true -> has_turn sh p) by by destruct Hpc as [E|E]; rewrite E in Hp.
  destruct (p_claimed p) eqn:Ecl; [|injection Hr as <- <-; apply sys_ok_move with (p := p); try done; split; [cbn; congruence|exact Hpp]].
  destruct (release (sh_claims sh) (t_RunnerID (p_task p))) as [next c] eqn:Er.
  destruct (hand_over sh c next) as [sh1 us] eqn:Eh. injection Hr as <- <-.
  destruct Hok as [H1 H2 H3 H4 H5]. rewrite claimed_tasks_cons, Ecl in H1.
  destruct (claims_ok_release _ _ _ _ _ _ H1 Er) as [Hcl Hne].
  set (p' := {| p_task := p_task p; p_pc := PExit; p_claimed := false; p_slot := p_slot p; p_ticket := p_ticket p |}).
  cbn [app]. rewrite (Permutation_middle us rest p'). eapply sys_ok_hand_over; [exact Eh|]. rewrite <- Permutation_middle. split.
  - cbn [sh_claims with_claims]. rewrite claimed_tasks_cons. cbn [p_claimed p' app].
    unfold claimed_tasks in *. by rewrite omap_app.
  - cbn [with_claims sh_sem]. rewrite H2, !in_slots_cons. destruct next as [u|]; [|done].
    change ((unticketed <$> option_list (Some u)) ++ rest) with (unticketed u :: rest). by rewrite in_slots_cons.
  - done.
  - intros d. specialize (H4 d). rewrite lane_tickets_cons in *. cbn [p_task p_ticket p'].
    destruct next as [u|]; [change ((unticketed <$> option_list (Some u)) ++ rest) with (unticketed u :: rest); rewrite lane_tickets_unticketed|]; by destruct d.
  - assert (Hsame : forall q, proc_ok sh q -> proc_ok (with_claims sh c) q).
    { intros q. apply proc_ok_lanes. by destruct (lane_of (p_task q)). }
    intros x. rewrite elem_of_cons, elem_of_app. intros [->|[Hx|Hx]].
    + apply Hsame. split; [done|]. exact Hpp.
    + apply list_elem_of_fmap in Hx as (u & -> & _). apply unticketed_ok.
    + apply Hsame, H5. by right.
Qed.

Lemma sys_ok_exit sh p rest R sh' ps :
  p_pc p = PExit -> exit_step sh p = (sh', ps) -> sys_ok sh (p :: rest) R -> sys_ok sh' (ps ++ rest) R.
Proof.
  intros Hpc Hex Hok. unfold exit_step in Hex. assert (Hp := so_procs _ _ _ Hok p ltac:(by left)).
  destruct (p_slot p) eqn:Es.
  { injection Hex as <- <-. destruct Hok as [H1 H2 H3 H4 H5]. rewrite in_slots_cons, Es in H2. split.
    - cbn [sh_claims with_sem app]. by rewrite claimed_tasks_cons in *.
    - cbn [app]. rewrite in_slots_cons. cbn. lia.
    - cbn. lia.
    - intros d. specialize (H4 d). cbn [app]. rewrite lane_tickets_cons in *. by destruct d.
    - cbn [app]. intros x [->|Hx]%elem_of_cons; [by split; [apply Hp|]|].
      eapply proc_ok_lanes, H5; [|by right]. by destruct (lane_of (p_task x)). }
  destruct (p_ticket p) as [t|] eqn:Et.
  { injection Hex as <- <-. assert (Hone := fun q t' => ticket_of_one _ _ q _ _ t t' Hok Et).
    destruct Hok as [H1 H2 H3 H4 H5]. rewrite in_slots_cons, Es in H2.
    assert (Hd := H4 (lane_of (p_task p))). rewrite lane_tickets_cons, Bool.eqb_reflx, Et in Hd. cbn in Hd.
    destruct (startup_done_ok _ _ _ _ Hd) as [Hd' Hkeep]. split.
    - cbn [sh_claims with_lane app]. by rewrite claimed_tasks_cons in *.
    - cbn [app]. rewrite in_slots_cons. cbn [with_lane sh_sem p_slot]. lia.
    - done.
    - intros d. cbn [app]. rewrite lane_tickets_cons. cbn [p_task p_ticket].
      assert (En : (if Bool.eqb (lane_of (p_task p)) d then option_list (@None ticket) else []) = []) by by destruct (Bool.eqb _ _).
      rewrite En, lane_with_lane. clear En. cbn [app sh_next with_lane].
      destruct (Bool.eqb_spec (lane_of (p_task p)) d) as [E|Hne]; [by rewrite <- E|].
      specialize (H4 d). rewrite lane_tickets_cons in H4. by destruct (Bool.eqb_spec (lane_of (p_task p)) d).
    - cbn [app]. intros x [->|Hx]%elem_of_cons; [by split; [apply Hp|]|].
      assert (Hx' : proc_ok sh x) by (apply H5; by right). revert Hx'. apply proc_ok_lanes. intros u Eu Hu.
      rewrite lane_with_lane. destruct (Bool.eqb_spec (lane_of (p_task p)) (lane_of (p_task x))) as [E|]; [|done].
      rewrite <- E in Hu. apply Hkeep; [done|]. by apply (Hone x). }
  destruct (p_claimed p) eqn:Ecl; [by eapply sys_ok_release; [|right|]|].
  injection Hex as <- <-. destruct Hok as [H1 H2 H3 H4 H5]. split; cbn [app]; [| |done| |].
  - by rewrite claimed_tasks_cons, Ecl in H1.
  - by rewrite in_slots_cons, Es in H2.
  - intros d. specialize (H4 d). rewrite lane_tickets_cons, Et in H4. by destruct (Bool.eqb _ _).
  - intros x Hx. apply H5. by right.
Qed.

Lemma sys_ok_go cancel sh p rest R sh' ps :
  go_step cancel sh p = Some (sh', ps) -> sys_ok sh (p :: rest) R -> sys_ok sh' (ps ++ rest) R.
Proof.
  intros Hgo Hok. assert (Hp := so_procs _ _ _ Hok p ltac:(by left)). destruct Hp as [Hc Hp].
  unfold go_step in Hgo. destruct (p_pc p) eqn:Hpc.
  - destruct Hp as (Hs & Ht & Hk). injection Hgo as <- <-. cbn [app]. apply sys_ok_move with (p := p); try done.
    destruct (is_kind (t_Kind (p_task p)) TaskPrewarmImage) eqn:Hk'; (split; [done|]); cbn; unfold has_turn, queued_kind; cbn; rewrite Hk, Hk'; done.
  - destruct Hp as (Hs & Ht & Hk). destruct cancel.
    + destruct (sh_cancelled sh); [|done]. injection Hgo as <- <-. apply sys_ok_move with (p := p); try done.
      split; [done|]. cbn. congruence.
    + apply (inj Some) in Hgo as E. exact (sys_ok_ticket _ _ _ _ _ _ _ Hk Ht Hs E Hok).
  - destruct Hp as (Hs & Hk & t & Ht). destruct cancel.
    + destruct (sh_cancelled sh); [|done]. injection Hgo as <- <-. apply sys_ok_move with (p := p); try done.
      split; [done|]. cbn. congruence.
    + rewrite Ht in Hgo. case_decide as Hr; [|done]. injection Hgo as <- <-. apply sys_ok_move with (p := p); try done.
      split; [done|]. split; [done|]. unfold has_turn. cbn. rewrite Hk. exists t. split; [done|].
      assert (Hl := so_lane _ _ _ Hok (lane_of (p_task p))). rewrite lane_tickets_cons, Bool.eqb_reflx, Ht in Hl. cbn in Hl.
      destruct Hl as [Hl _ _ _ _ _ Hw]. assert (Hin : t ∈ queue_tickets (lane sh (lane_of (p_task p)))) by by rewrite <- Hl; left.
      unfold queue_tickets in Hin. destruct (q_active _) as [a|]; cbn in Hin; [|by apply Hw in Hin].
      apply elem_of_cons in Hin as [->|Hin]; [done|]. by apply Hw in Hin.
  - destruct cancel; [destruct (sh_cancelled sh); [|done]|]; injection Hgo as <- <-; apply sys_ok_move with (p := p); try done;
      (split; [done|]); cbn; destruct Hp; first [congruence|done].
  - destruct cancel; [destruct (sh_cancelled sh); [|done]; injection Hgo as <- <-; apply sys_ok_move with (p := p); try done;
      (split; [done|]); cbn; destruct Hp; congruence|].
    destruct (Nat.ltb_spec (sh_sem sh) (sh_capacity sh)); [|done]. injection Hgo as <- <-. destruct Hp. by apply sys_ok_slot.
  - injection Hgo as <- <-. destruct Hp as [Hs Ht]. apply sys_ok_move with (p := p); try done. split; [done|]. cbn.
    destruct (sh_paused sh || sh_cancelled sh); [done|]. by destruct (is_kind _ _).
  - injection Hgo as <- <-. destruct Hp as [Hs Ht]. apply sys_ok_move with (p := p); try done. split; [done|]. cbn.
    by destruct (waiting _ !! _).
  - injection Hgo as <- <-. destruct Hp as [Hs Ht]. apply sys_ok_move with (p := p); try done. split; [done|]. cbn.
    by destruct (sh_refuse sh).
  - injection Hgo as <- <-. apply sys_ok_move with (p := p); try done. split; [done|]. cbn. tauto.
  - apply (inj Some) in Hgo as E. eapply sys_ok_release; [done|by left|done].
  - apply (inj Some) in Hgo as E. by eapply sys_ok_exit.
Qed.
End invariant.

Section runs.
Implicit Types (y : sys).

Definition y_ok (n : nat) y : Prop := sys_ok (y_sh y) (y_procs y) (y_recon y) /\ sh_capacity (y_sh y) = n.

(** What [start] leaves as it was. *)
Lemma start_shares sh u sh' us : start sh u = (sh', us) -> sh_capacity sh' = sh_capacity sh /\ sh_claims sh' = sh_claims sh.
Proof. unfold start, take_ticket. destruct (is_kind _ _); by intros [= <- <-]. Qed.

Lemma hand_over_shares sh c next sh' us : hand_over sh c next = (sh', us) -> sh_capacity sh' = sh_capacity sh /\ sh_claims sh' = c.
Proof. unfold hand_over. destruct next; [apply start_shares|by intros [= <- <-]]. Qed.

Lemma release_once_capacity sh p sh' ps : release_once sh p = (sh', ps) -> sh_capacity sh' = sh_capacity sh.
Proof.
  unfold release_once. destruct (p_claimed p); [|by intros [= <- <-]]. destruct (release _ _) as [next c].
  destruct (hand_over sh c next) as [sh1 us] eqn:E. intros [= <- <-]. by apply hand_over_shares in E as [-> _].
Qed.

Lemma go_step_capacity cancel sh p sh' ps : go_step cancel sh p = Some (sh', ps) -> sh_capacity sh' = sh_capacity sh.
Proof.
  unfold go_step, take_ticket, exit_step. intros H.
  destruct (p_pc p); repeat first [progress simplify_eq/= | case_match]; try done; by eapply release_once_capacity.
Qed.

Lemma sys_ok_claims sh c ps R R' :
  claims_ok c (claimed_tasks ps) R' -> sys_ok sh ps R -> sys_ok (with_claims sh c) ps R'.
Proof.
  intros Hc [H1 H2 H3 H4 H5]. by split.
Qed.

Lemma with_claims_id sh : with_claims sh (sh_claims sh) = sh.
Proof. by destruct sh. Qed.

Lemma dispatch_ok n quote walk y task : y_ok n y -> y_ok n (dispatch quote walk y task).
Proof.
  intros [Hok Hn]. unfold dispatch. destruct (validateTask _ _ _); [done|].
  destruct (is_kind _ _ && _); [done|].
  assert (Hgo : y_ok n
    (if str_eqb (t_RunnerID task) ""
     then let '(sh, ps) := start (y_sh y) task in {| y_sh := sh; y_procs := ps ++ y_procs y; y_recon := y_recon y |}
     else let '(claimed, _, c) := claimOrQueue (sh_claims (y_sh y)) task in
          let '(sh, ps) := hand_over (y_sh y) c (if claimed then Some task else None) in
          {| y_sh := sh; y_procs := ps ++ y_procs y; y_recon := y_recon y |})); [|by destruct (t_Kind task)].
  destruct (str_eqb (t_RunnerID task) "") eqn:E.
  - destruct (start (y_sh y) task) as [sh us] eqn:Es. destruct (start_shares _ _ _ _ Es) as [Hc _].
    split; cbn; [|congruence]. eapply sys_ok_start; [exact Es|]. rewrite <- (with_claims_id (y_sh y)).
    apply sys_ok_spawn; [|done]. rewrite claimed_tasks_cons. cbn. rewrite E. apply Hok.
  - destruct (claimOrQueue (sh_claims (y_sh y)) task) as [[claimed held] c] eqn:Ec.
    destruct (hand_over (y_sh y) c _) as [sh us] eqn:Es. destruct (hand_over_shares _ _ _ _ _ Es) as [Hc _].
    split; cbn; [|congruence]. eapply sys_ok_hand_over; [exact Es|].
    assert (Hne : t_RunnerID task <> "") by (unfold str_eqb in E; by case_bool_decide).
    destruct claimed.
    + apply sys_ok_spawn; [|done]. rewrite claimed_tasks_cons. cbn. rewrite E.
      eapply take_ok, Ec. apply Hok.
    + eapply sys_ok_claims, Hok. eapply queue_ok; [apply Hok|done|done].
Qed.

Lemma host_step_ok n y y' : host_step y y' -> y_ok n y -> y_ok n y'.
Proof.
  intros [Hg|He] [Hok Hn].
  - destruct Hg as [cancel y p rest sh ps Hp Hgo]. rewrite Hp in Hok.
    split; [by eapply sys_ok_go|]. cbn. by rewrite (go_step_capacity _ _ _ _ _ Hgo).
  - destruct He as [quote walk y task|y r c Hc _|y r rest next c sh us Hp Hr Hh|y b1 b2 b3].
    + by apply dispatch_ok.
    + split; [|done]. eapply sys_ok_claims, Hok. by eapply claim_ok, Hc; apply Hok.
    + rewrite Hp in Hok. destruct (reconciler_free_ok _ _ _ _ _ _ (so_claims _ _ _ Hok) Hr) as [-> Hc].
      injection Hh as <- <-. split; [|done]. by eapply sys_ok_claims, Hok.
    + split; [|done]. destruct Hok as [H1 H2 H3 H4 H5]. by split.
Qed.

Lemma reachable_ok n y : reachable n y -> y_ok n y.
Proof.
  unfold reachable. intros H. assert (H0 : y_ok n (booted n)) by (split; [apply sys_ok_booted|done]).
  revert H0. generalize (booted n) H. clear H. intros y0 H.
  induction H as [|y0 y1 y2 H _ IH]; [done|]. intros H0. by apply IH, host_step_ok with (y := y0).
Qed.

Lemma turns_differ sh p q rest R :
  sys_ok sh (p :: q :: rest) R -> queued_kind (p_task p) = true -> queued_kind (p_task q) = true ->
  has_turn sh p -> has_turn sh q -> lane_of (p_task p) <> lane_of (p_task q).
Proof.
  unfold has_turn. intros Hok Hp Hq. rewrite Hp, Hq. intros (t & Et & Ht) (u & Eu & Hu) E.
  eapply (ticket_of_one sh p q); [exact Hok|done|by left|exact Eu|done|]. rewrite E in Ht. congruence.
Qed.

(** C14: Nothing a host is asked runs into anything else: whatever tasks come, in whatever
    order, and however its goroutines and the reconciler interleave, at most one of them
    has the claim of a runner, no more than the host's capacity are at work, and of two
    that make runners at once one is a docker-in-docker runner and the other is not. *)
Theorem one_at_a_time n y :
  reachable n y ->
  NoDup ((t_RunnerID <$> claimed_tasks (y_procs y)) ++ y_recon y) /\
  (length (in_slots (y_procs y)) <= n)%nat /\
  (forall p q rest, y_procs y ≡ₚ p :: q :: rest -> p_pc p = PRun -> p_pc q = PRun ->
     t_Kind (p_task p) = TaskCreateRunner -> t_Kind (p_task q) = TaskCreateRunner ->
     startupLane (p_task p) <> startupLane (p_task q)).
Proof.
  intros [Hok Hn]%reachable_ok. split_and!.
  - apply (so_claims _ _ _ Hok).
  - rewrite <- (so_sem _ _ _ Hok), <- Hn. apply (so_capacity _ _ _ Hok).
  - intros p q rest Hp Epc Eqc Ek Eqk. rewrite Hp in Hok.
    assert (Hpk : queued_kind (p_task p) = true) by (unfold queued_kind; by rewrite Ek).
    assert (Hqk : queued_kind (p_task q) = true) by (unfold queued_kind; by rewrite Eqk).
    destruct (so_procs _ _ _ Hok p ltac:(by left)) as [_ Ht]. rewrite Epc in Ht.
    destruct (so_procs _ _ _ Hok q ltac:(by right; left)) as [_ Hu]. rewrite Eqc in Hu.
    assert (Hd := turns_differ _ _ _ _ _ Hok Hpk Hqk (proj2 Ht) (proj2 Hu)).
    unfold lane_of in Hd. by rewrite Ek, Eqk in Hd.
Qed.
End runs.

(** ** Coming to an end *)
Definition pc_rank (c : pc) : nat :=
  match c with
  | PStart => 12 | PJitter => 11 | PAdmission => 10 | PRuntime => 9 | PSem => 8 | PSlot => 7 | PSuper => 6
  | PRefuse => 5 | PRun => 4 | PGiveUp => 3 | PExit => 1
  end.
Definition proc_left (p : proc) : nat :=
  4 * pc_rank (p_pc p) + (if p_claimed p then 1 else 0) + (if p_slot p then 1 else 0) +
  (match p_ticket p with Some _ => 1 | None => 0 end).
Definition procs_left (ps : list proc) : nat := sum_list_with proc_left ps.
(** A bound on the steps the goroutines have left, those of the tasks that wait included. *)
Definition left (sh : shared) (ps : list proc) : nat := procs_left ps + 60 * size (waiting (sh_claims sh)).

Section ending.
Implicit Types (y : sys) (sh : shared) (p : proc).

Lemma release_waiting c r next c' :
  release c r = (next, c') ->
  size (waiting c) = (size (waiting c') + match next with Some _ => 1 | None => 0 end)%nat.
Proof.
  unfold release. destruct (waiting c !! r) as [t|] eqn:E; intros [= <- <-]; cbn; [|lia].
  rewrite (map_size_delete_Some _ _ (mk_is_Some _ _ E)). assert (size (waiting c) <> 0%nat); [|lia].
  intros Hs%map_size_empty_inv. by rewrite Hs, lookup_empty in E.
Qed.

Lemma hand_over_left sh c next sh' us :
  hand_over sh c next = (sh', us) ->
  sh_claims sh' = c /\ (procs_left us <= 51 * match next with Some _ => 1 | None => 0 end)%nat.
Proof.
  unfold hand_over, start, take_ticket. intros H. destruct next as [u|]; [|by injection H as <- <-].
  destruct (is_kind _ _); injection H as <- <-; unfold procs_left, proc_left; cbn -[Nat.mul]; (split; [done|]); destruct (negb _); lia.
Qed.

Lemma release_once_left sh p sh' ps :
  release_once sh p = (sh', ps) -> p_claimed p = true \/ (4 < 4 * pc_rank (p_pc p))%nat -> (1 <= pc_rank (p_pc p))%nat ->
  (left sh' ps < left sh [p])%nat.
Proof.
  unfold release_once, left. intros H Hp Hr. destruct (p_claimed p) eqn:Hc.
  - destruct (release _ _) as [next c] eqn:E. apply release_waiting in E. destruct (hand_over sh c next) as [sh1 us] eqn:Eh.
    injection H as <- <-. apply hand_over_left in Eh as (-> & Hus). unfold procs_left in *. cbn -[Nat.mul]. rewrite E.
    unfold proc_left at 1 3. cbn -[Nat.mul]. rewrite Hc. lia.
  - injection H as <- <-. destruct Hp as [|Hp]; [done|]. unfold procs_left, proc_left. cbn -[Nat.mul]. lia.
Qed.

Lemma go_step_left cancel sh p sh' ps : go_step cancel sh p = Some (sh', ps) -> (left sh' ps < left sh [p])%nat.
Proof.
  intros H. unfold go_step in H. destruct (p_pc p) eqn:Hpc.
  10:{ apply (inj Some) in H. eapply release_once_left; [done| |]; rewrite Hpc; cbn; lia. }
  10:{ apply (inj Some) in H. unfold exit_step in H. destruct (p_slot p) eqn:Hs.
       { injection H as <- <-. unfold left, procs_left, proc_left. cbn -[Nat.mul]. rewrite Hs, Hpc. cbn -[Nat.mul]. lia. }
       destruct (p_ticket p) as [t|] eqn:Ht.
       { injection H as <- <-. unfold left, procs_left, proc_left. cbn -[Nat.mul]. rewrite Hs, Ht, Hpc. cbn -[Nat.mul]. lia. }
       destruct (p_claimed p) eqn:Hc.
       { eapply release_once_left; [done|by left|]. rewrite Hpc. cbn. lia. }
       injection H as <- <-. unfold left, procs_left, proc_left. cbn -[Nat.mul]. rewrite Hpc. cbn -[Nat.mul]. lia. }
  all: repeat first [progress simplify_eq/= | case_match | progress unfold take_ticket in *]; try done;
    unfold left, procs_left, proc_left; cbn -[Nat.mul]; rewrite ?Hpc; cbn -[Nat.mul]; repeat case_match; lia.
Qed.

Lemma gstep_left y y' : gstep y y' -> (left (y_sh y') (y_procs y') < left (y_sh y) (y_procs y))%nat.
Proof.
  intros [cancel y0 p rest sh ps Hp Hgo]. apply go_step_left in Hgo. unfold left, procs_left in *. cbn -[Nat.mul].
  rewrite Hp, sum_list_with_app. cbn -[Nat.mul]. cbn -[Nat.mul] in Hgo. lia.
Qed.

(** A goroutine can always move when there is one. *)
Lemma gstep_progress n y : y_ok n y -> (0 < n)%nat -> y_procs y <> [] -> exists y', gstep y y'.
Proof.
  intros [Hok Hn] Hpos Hne.
  assert (Hstep : forall p, p ∈ y_procs y -> go_step false (y_sh y) p <> None -> exists y', gstep y y').
  { intros p Hp Hgo. destruct (go_step false (y_sh y) p) as [[sh ps]|] eqn:E; [|done].
    apply elem_of_Permutation in Hp as [rest Hp]. eexists. by econstructor. }
  destruct (decide (Exists (fun p => p_pc p <> PAdmission /\ p_pc p <> PSem) (y_procs y))) as [Hex|Hall].
  { apply Exists_exists in Hex as (p & Hp & H1 & H2). apply (Hstep p Hp). unfold go_step. destruct (p_pc p); try done; by destruct (is_kind _ _). }
  rewrite <- Forall_Exists_neg in Hall. rewrite Forall_forall in Hall.
  assert (Hpc : forall p, p ∈ y_procs y -> p_pc p = PAdmission \/ p_pc p = PSem).
  { intros p Hp. specialize (Hall p Hp). destruct (p_pc p); (tauto || exfalso; apply Hall; split; congruence). }
  assert (Hslot : in_slots (y_procs y) = []).
  { unfold in_slots. apply elem_of_nil_inv. intros p. rewrite list_elem_of_In, filter_In, <- list_elem_of_In. intros [Hp Hs].
    destruct (so_procs _ _ _ Hok p Hp) as [_ H]. destruct (Hpc p Hp) as [E|E]; rewrite E in H; destruct H; congruence. }
  destruct (y_procs y) as [|p0 ps0] eqn:Eps; [done|]. rewrite <- Eps in *.
  assert (Hp0 : p0 ∈ y_procs y) by (rewrite Eps; by left).
  destruct (decide (p_pc p0 = PSem)) as [E|E].
  { apply (Hstep p0 Hp0). unfold go_step. rewrite E, (so_sem _ _ _ Hok), Hslot, Hn. destruct n; [lia|done]. }
  destruct (Hpc p0 Hp0) as [E0|]; [|done].
  destruct (so_procs _ _ _ Hok p0 Hp0) as [_ H0]. rewrite E0 in H0. destruct H0 as (_ & _ & t & Ht).
  set (d := lane_of (p_task p0)). assert (Hl := so_lane _ _ _ Hok d). destruct Hl as [H1 _ _ H4 _ H6 _].
  assert (Hin : t ∈ queue_tickets (lane (y_sh y) d)).
  { rewrite <- H1. unfold lane_tickets. apply list_elem_of_omap. exists p0. split; [done|]. fold d. by rewrite Bool.eqb_reflx. }
  unfold queue_tickets in *. destruct (q_active _) as [a|] eqn:Ea; [|rewrite H4 in Hin by done; by apply elem_of_nil in Hin].
  assert (Ha : a ∈ lane_tickets d (y_procs y)) by (rewrite H1; by left).
  unfold lane_tickets in Ha. apply list_elem_of_omap in Ha as (p & Hp & Ep).
  destruct (Bool.eqb_spec (lane_of (p_task p)) d) as [El|]; [|done].
  destruct (decide (p_pc p = PSem)) as [E'|E'].
  { apply (Hstep p Hp). unfold go_step. rewrite E', (so_sem _ _ _ Hok), Hslot, Hn. destruct n; [lia|done]. }
  apply (Hstep p Hp). destruct (Hpc p Hp) as [E2|]; [|done]. unfold go_step. rewrite E2, Ep, El, decide_True; [done|]. by apply H6.
Qed.

Lemma gstep_recon y y' : rtc gstep y y' -> y_recon y' = y_recon y.
Proof. induction 1 as [|y y1 y2 H _ IH]; [done|]. rewrite IH. by destruct H. Qed.

Lemma gsteps_host y y' : rtc gstep y y' -> rtc host_step y y'.
Proof. intros H. eapply (rtc_congruence id); [|exact H]. intros a b ?. by left. Qed.

(** C16: The goroutines of a host come to an end, whatever was asked of it and wherever it
    is: they cannot go on for ever, and when none of them can move there is none left, no
    task waits, the only claims held are the reconciler's, and every slot and both
    startup queues are free.  Nothing waits for a turn that does not come. *)
Theorem goroutines_come_to_an_end n y :
  reachable n y -> (0 < n)%nat ->
  sn gstep y /\
  (forall y', rtc gstep y y' -> (forall y'', ~ gstep y' y'') ->
     y_procs y' = [] /\ waiting (sh_claims (y_sh y')) = ∅ /\
     (forall r, r ∈ inflight (sh_claims (y_sh y')) <-> r ∈ y_recon y) /\ sh_sem (y_sh y') = 0%nat /\
     (forall d, queue_tickets (lane (y_sh y') d) = [])).
Proof.
  intros Hr Hn. split.
  - remember (left (y_sh y) (y_procs y)) as m eqn:Em. clear Hr. revert y Em. induction (lt_wf m) as [m _ IH].
    intros y ->. constructor. intros y' Hy'. eapply IH; [|done]. by apply gstep_left.
  - intros y' Hs Hstuck. assert (Hok : y_ok n y').
    { apply reachable_ok. unfold reachable in *. etrans; [exact Hr|]. by apply gsteps_host. }
    assert (Hnil : y_procs y' = []).
    { destruct (decide (y_procs y' = [])) as [|Hne]; [done|]. exfalso.
      destruct (gstep_progress n y' Hok Hn Hne) as [y'' Hy'']. by apply (Hstuck y''). }
    destruct Hok as [[[C1 C2 C3 C4] H2 H3 H4 H5] _]. rewrite Hnil in *. cbn in *. split_and!; try done.
    + apply map_empty. intros r. apply eq_None_not_Some. intros [t Ht]. apply C4 in Ht as (_ & _ & k & Hk & _).
      apply C3 in Hk as (u & Hu & _). by apply elem_of_nil in Hu.
    + intros r. rewrite C2. by rewrite (gstep_recon _ _ Hs).
    + intros d. symmetry. apply Permutation_nil_l, (lo_tickets _ _ _ (H4 d)).
Qed.
End ending.

(** ** The startup queue as two plain queues *)
Definition fifos : Type := option nat * list nat * list nat.
Definition fifos_advance (s : fifos) : fifos :=
  match s with
  | (None, i :: fg, bg) => (Some i, fg, bg)
  | (None, [], i :: bg) => (Some i, [], bg)
  | _ => s
  end.
Definition fifos_enqueue (s : fifos) (i : nat) (foreground : bool) : fifos :=
  let '(a, fg, bg) := s in
  fifos_advance (if foreground then (a, fg ++ [i], bg) else (a, fg, bg ++ [i])).
Definition fifos_done (s : fifos) (i : nat) : fifos :=
  let '(a, fg, bg) := s in
  let others := List.filter (fun j => negb (Nat.eqb j i)) in
  fifos_advance (if bool_decide (a = Some i) then (None, fg, bg) else (a, others fg, others bg)).

(** What is done to a queue: the next ticket is taken, or the ticket of a number is done. *)
Inductive qop := QEnqueue (foreground : bool) | QDone (i : nat).

Definition queue_op (s : startupQueue * nat) (op : qop) : startupQueue * nat :=
  match op with
  | QEnqueue fg => (enqueue s.1 {| tk_id := s.2; tk_foreground := fg |}, S s.2)
  | QDone i => (startup_done s.1 {| tk_id := i; tk_foreground := false |}, s.2)
  end.
Definition fifos_op (s : fifos * nat) (op : qop) : fifos * nat :=
  match op with
  | QEnqueue fg => (fifos_enqueue s.1 s.2 fg, S s.2)
  | QDone i => (fifos_done s.1 i, s.2)
  end.

Definition waiting_ids (foreground : bool) (l : list ticket) : list nat :=
  tk_id <$> List.filter (fun t => Bool.eqb (tk_foreground t) foreground) l.
Definition as_fifos (q : startupQueue) : fifos :=
  (tk_id <$> q_active q, waiting_ids true (q_pending q), waiting_ids false (q_pending q)).

Section fifos.
Implicit Types (q : startupQueue) (l : list ticket).

Lemma waiting_ids_cons fg t l :
  waiting_ids fg (t :: l) = (if Bool.eqb (tk_foreground t) fg then [tk_id t] else []) ++ waiting_ids fg l.
Proof. unfold waiting_ids. cbn. by destruct (Bool.eqb _ _). Qed.

Lemma waiting_ids_app fg l l' : waiting_ids fg (l ++ l') = waiting_ids fg l ++ waiting_ids fg l'.
Proof. unfold waiting_ids. by rewrite List.filter_app, fmap_app. Qed.

Lemma waiting_ids_in fg l i : i ∈ waiting_ids fg l -> i ∈ tk_id <$> l.
Proof.
  unfold waiting_ids. rewrite !list_elem_of_fmap. setoid_rewrite list_elem_of_In. setoid_rewrite filter_In. naive_solver.
Qed.

Lemma first_foreground l i t :
  list_find (fun t => tk_foreground t) l = Some (i, t) ->
  l !! i = Some t /\ waiting_ids true l = tk_id t :: waiting_ids true (delete i l) /\
  waiting_ids false l = waiting_ids false (delete i l).
Proof.
  revert i. induction l as [|u l IH]; intros i; [done|]. cbn [list_find]. case_decide as Hu.
  - intros [= <- <-]. apply Is_true_true in Hu. rewrite !waiting_ids_cons, Hu. done.
  - destruct (list_find _ l) as [[j v]|] eqn:E; [|done]. cbn. intros [= <- <-].
    destruct (IH j eq_refl) as (H1 & H2 & H3). apply Is_true_false in Hu.
    cbn [lookup list_lookup delete list_delete]. rewrite !waiting_ids_cons, Hu. cbn. split_and!; [done|done|by f_equal].
Qed.

Lemma no_foreground l :
  list_find (fun t => tk_foreground t) l = None -> waiting_ids true l = [].
Proof.
  intros H. apply list_find_None in H. unfold waiting_ids. induction H as [|t l Ht _ IH]; [done|].
  apply Is_true_false in Ht. cbn. by rewrite Ht.
Qed.

Lemma as_fifos_advance q : as_fifos (advance q) = fifos_advance (as_fifos q).
Proof.
  unfold advance, as_fifos. destruct (q_active q) as [a|] eqn:Ha; [by rewrite Ha|].
  unfold next_index. destruct (list_find _ _) as [[i t]|] eqn:E.
  - destruct (first_foreground _ _ _ E) as (-> & H2 & H3). cbn. by rewrite H2, H3.
  - apply no_foreground in E. destruct (q_pending q) as [|t l] eqn:Ep; [cbn; by rewrite Ha, Ep|].
    rewrite waiting_ids_cons in E. destruct (tk_foreground t) eqn:Ht; [done|]. cbn [Bool.eqb app] in E.
    cbn [lookup list_lookup delete list_delete q_active q_pending]. rewrite !waiting_ids_cons, Ht. cbn [Bool.eqb app]. by rewrite E.
Qed.

Lemma others_id (l : list nat) i : i ∉ l -> List.filter (fun j => negb (Nat.eqb j i)) l = l.
Proof.
  intros Hi. apply List.forallb_filter_id. apply forallb_forall. intros j Hj.
  apply negb_true_iff, Nat.eqb_neq. intros ->. by apply Hi, list_elem_of_In.
Qed.

Lemma remove_ticket fg l t i u :
  NoDup (tk_id <$> l) -> list_find (fun w => same_ticket w t) l = Some (i, u) ->
  waiting_ids fg (delete i l) = List.filter (fun j => negb (Nat.eqb j (tk_id t))) (waiting_ids fg l).
Proof.
  revert i. induction l as [|w l IH]; intros i; [done|]. cbn [fmap list_fmap list_find]. intros [Hw Hn]%NoDup_cons.
  unfold same_ticket at 1. case_decide as E.
  - intros [= <- <-]. apply Is_true_true, Nat.eqb_eq in E. rewrite waiting_ids_cons, List.filter_app.
    cbn [delete list_delete]. rewrite (others_id (waiting_ids fg l)); [|intros Hin%waiting_ids_in; by rewrite <- E in Hin].
    destruct (Bool.eqb _ _); [|done]. cbn. by rewrite E, Nat.eqb_refl.
  - destruct (list_find _ l) as [[j v]|] eqn:Ej; [|done]. intros [= <- <-].
    change (delete (S j) (w :: l)) with (w :: delete j l). rewrite !waiting_ids_cons, List.filter_app, (IH j); [|done|done]. f_equal.
    destruct (Bool.eqb _ _); [|done]. cbn. apply Is_true_false in E. by rewrite E.
Qed.

Lemma as_fifos_enqueue q i fg :
  as_fifos (enqueue q {| tk_id := i; tk_foreground := fg |}) = fifos_enqueue (as_fifos q) i fg.
Proof.
  unfold enqueue. rewrite as_fifos_advance. unfold as_fifos, fifos_enqueue. cbn [q_active q_pending].
  rewrite !waiting_ids_app, !waiting_ids_cons. destruct fg; cbn -[waiting_ids fifos_advance]; by rewrite ?app_nil_r.
Qed.

Lemma as_fifos_done q T n i fg :
  lane_ok q T n -> as_fifos (startup_done q {| tk_id := i; tk_foreground := fg |}) = fifos_done (as_fifos q) i.
Proof.
  intros [H1 H2 _ H4 _ _ _]. unfold startup_done. rewrite as_fifos_advance. unfold fifos_done, as_fifos. f_equal.
  rewrite H1 in H2. unfold queue_tickets in H2. rewrite fmap_app in H2. apply NoDup_app in H2 as (_ & _ & Hn).
  assert (Hsame : match q_active q with Some a => same_ticket a {| tk_id := i; tk_foreground := fg |} | None => false end =
                  bool_decide (tk_id <$> q_active q = Some i)).
  { destruct (q_active q) as [a|]; [|done]. unfold same_ticket. cbn. case_bool_decide as E.
    - injection E as ->. by rewrite Nat.eqb_refl.
    - apply Nat.eqb_neq. congruence. }
  rewrite Hsame. case_bool_decide; [done|].
  destruct (list_find _ _) as [[j u]|] eqn:E; cbn [q_active q_pending].
  - by rewrite !(remove_ticket _ _ _ _ _ Hn E).
  - apply list_find_None in E. assert (Hi : i ∉ tk_id <$> q_pending q).
    { rewrite list_elem_of_fmap. intros (t & -> & Ht). rewrite Forall_forall in E. apply (E t Ht).
      unfold same_ticket. cbn. by rewrite Nat.eqb_refl. }
    rewrite !others_id; [done|..]; by intros ?%waiting_ids_in.
Qed.

(** A ticket the queue does not hold is nothing to it. *)
Lemma startup_done_unknown q T n t : lane_ok q T n -> tk_id t ∉ tk_id <$> T -> startup_done q t = q.
Proof.
  intros [H1 _ _ H4 _ _ _] Hi. rewrite H1 in Hi. unfold queue_tickets in Hi. unfold startup_done.
  assert (E : list_find (fun w => same_ticket w t) (q_pending q) = None).
  { apply list_find_None, Forall_forall. intros w Hw Hs. apply Is_true_true, Nat.eqb_eq in Hs. apply Hi.
    rewrite <- Hs. apply list_elem_of_fmap_2, elem_of_app. by right. }
  destruct (q_active q) as [a|] eqn:Ha.
  - assert (Hs : same_ticket a t = false).
    { apply Nat.eqb_neq. intros Hs. apply Hi. rewrite <- Hs. by left. }
    rewrite Hs, E. unfold advance. by rewrite Ha.
  - rewrite E. unfold advance. by rewrite Ha, H4.
Qed.

Lemma queue_op_ok s op :
  (exists T, lane_ok s.1 T s.2) -> exists T, lane_ok (queue_op s op).1 T (queue_op s op).2.
Proof.
  intros [T HT]. destruct op as [fg|i]; [eexists; by apply enqueue_ok|]. cbn [queue_op fst snd].
  set (t := {| tk_id := i; tk_foreground := false |}).
  destruct (decide (i ∈ tk_id <$> T)) as [Hi|Hi]; [|exists T; by rewrite (startup_done_unknown _ T s.2)].
  apply list_elem_of_fmap in Hi as (u & -> & Hu). apply elem_of_Permutation in Hu as [T' HT'].
  exists T'. rewrite HT' in HT. apply startup_done_ok in HT as [HT _]. exact HT.
Qed.

(** C17: Whatever is taken and done, the startup queue admits as two plain queues would:
    one start at a time, runners before prewarms, and each of the two in the order they
    came; a start that is given up leaves the rest in their order. *)
Theorem startup_queue_is_two_fifos (ops : list qop) :
  as_fifos (foldl queue_op (empty_queue, O) ops).1 = (foldl fifos_op (None, [], [], O) ops).1.
Proof.
  assert (H : forall ops s, (exists T, lane_ok s.1 T s.2) ->
    (as_fifos (foldl queue_op s ops).1, (foldl queue_op s ops).2) = foldl fifos_op (as_fifos s.1, s.2) ops).
  { clear ops. induction ops as [|op ops IH]; intros s Hs; [by destruct s|]. cbn [foldl].
    rewrite IH by by apply queue_op_ok. f_equal. destruct Hs as [T HT], op as [fg|i]; cbn [queue_op fifos_op fst snd].
    - by rewrite as_fifos_enqueue.
    - by rewrite (as_fifos_done _ T s.2). }
  assert (Hs : exists T, lane_ok (empty_queue, O).1 T (empty_queue, O).2) by (exists []; apply lane_ok_empty).
  specialize (H ops (empty_queue, O) Hs). apply (f_equal fst) in H. exact H.
Qed.
End fifos.

(** ** A task that waits *)
Section waiting.
Implicit Types (y : sys) (t : Task).

Lemma go_step_claims cancel sh p sh' ps :
  go_step cancel sh p = Some (sh', ps) ->
  sh_claims sh' = sh_claims sh \/
  exists next, release (sh_claims sh) (t_RunnerID (p_task p)) = (next, sh_claims sh') /\
               (forall u, next = Some u -> t_Kind u = TaskRemoveRunner -> spawned u ∈ ps).
Proof.
  assert (Hrel : release_once sh p = (sh', ps) -> sh_claims sh' = sh_claims sh \/
    exists next, release (sh_claims sh) (t_RunnerID (p_task p)) = (next, sh_claims sh') /\
                 (forall u, next = Some u -> t_Kind u = TaskRemoveRunner -> spawned u ∈ ps)).
  { unfold release_once. destruct (p_claimed p); [|intros [= <- <-]; by left].
    destruct (release _ _) as [next c] eqn:E. destruct (hand_over sh c next) as [sh1 us] eqn:Eh. intros [= <- <-].
    destruct (hand_over_shares _ _ _ _ _ Eh) as [_ ->]. right. exists next. split; [done|].
    intros u -> Hk. right. unfold hand_over, start in Eh. rewrite Hk in Eh. injection Eh as <- <-. by left. }
  unfold go_step, exit_step, take_ticket. intros H.
  destruct (p_pc p); repeat first [progress simplify_eq/= | case_match]; try (by left); by apply Hrel.
Qed.

Lemma release_other c r r' next c' : release c r = (next, c') -> r <> r' -> waiting c' !! r' = waiting c !! r'.
Proof.
  unfold release. destruct (waiting c !! r) eqn:E; intros [= <- <-] Hne; cbn; [|done]. by rewrite lookup_delete_ne.
Qed.

Lemma claimOrQueue_keeps c task t r claimed held c' :
  claimOrQueue c task = (claimed, held, c') -> waiting c !! r = Some t -> t_Kind t = TaskRemoveRunner ->
  waiting c' !! r = Some t.
Proof.
  unfold claimOrQueue. intros H Hw Hk. destruct (negb _); [by injection H as <- <- <-|].
  destruct (running c !! _); [|by injection H as <- <- <-]. destruct (_ <=? _); [by injection H as <- <- <-|].
  destruct (decide (t_RunnerID task = r)) as [E|Hne].
  - rewrite E, Hw, Hk in H. cbn [taskRank] in H. destruct (Z.leb_spec (taskRank (t_Kind task)) 3) as [|Hlt]; [by injection H as <- <- <-|].
    exfalso. destruct (t_Kind task); cbn in Hlt; lia.
  - destruct (waiting c !! t_RunnerID task) as [w|]; [destruct (_ <=? _)|]; injection H as <- <- <-; cbn;
      rewrite ?lookup_insert_ne by done; done.
Qed.

Lemma dispatch_keeps quote walk y task r t :
  waiting (sh_claims (y_sh y)) !! r = Some t -> t_Kind t = TaskRemoveRunner ->
  waiting (sh_claims (y_sh (dispatch quote walk y task))) !! r = Some t.
Proof.
  intros Hw Hk. unfold dispatch. destruct (validateTask _ _ _); [done|]. destruct (is_kind _ _ && _); [done|].
  destruct (str_eqb (t_RunnerID task) ""); [destruct (start (y_sh y) task) as [sh us] eqn:Es; destruct (start_shares _ _ _ _ Es) as [_ Hc]; destruct (t_Kind task); cbn; by rewrite ?Hc|].
  destruct (claimOrQueue _ _) as [[claimed held] c] eqn:E. destruct (hand_over (y_sh y) c _) as [sh us] eqn:Eh.
  destruct (hand_over_shares _ _ _ _ _ Eh) as [_ Hc].
  pose proof (claimOrQueue_keeps _ _ _ _ _ _ _ E Hw Hk). destruct (t_Kind task); cbn; by rewrite ?Hc.
Qed.

(** A remove that waits goes on waiting until it is started. *)
Lemma waits_or_starts n y y' r t :
  y_ok n y -> waiting (sh_claims (y_sh y)) !! r = Some t -> t_Kind t = TaskRemoveRunner -> host_step y y' ->
  waiting (sh_claims (y_sh y')) !! r = Some t \/ spawned t ∈ y_procs y'.
Proof.
  intros [Hok _] Hw Hk [Hg|He].
  - destruct Hg as [cancel y p rest sh ps Hp Hgo]. cbn.
    destruct (go_step_claims _ _ _ _ _ Hgo) as [->|(next & Hr & Hnext)]; [by left|].
    destruct (decide (t_RunnerID (p_task p) = r)) as [E|Hne]; [|left; by rewrite (release_other _ _ _ _ _ Hr Hne)].
    right. apply elem_of_app. left. apply Hnext; [|done]. unfold release in Hr. rewrite E, Hw in Hr. by injection Hr.
  - left. destruct He as [quote walk y task|y r' c Hc _|y r' rest next c sh us Hp Hr Hh|y b1 b2 b3]; cbn; try done.
    + by apply dispatch_keeps.
    + unfold claim in Hc. case_decide; [done|]. by injection Hc as <-.
    + rewrite Hp in Hok. destruct (reconciler_free_ok _ _ _ _ _ _ (so_claims _ _ _ Hok) Hr) as [-> _].
      injection Hh as <- <-. unfold release in Hr. destruct (waiting _ !! r'); [done|]. by injection Hr as <-.
Qed.

(** What becomes of a remove that is sent. *)
Lemma dispatch_remove n quote walk y t :
  y_ok n y -> t_Kind t = TaskRemoveRunner -> validateTask quote walk t = None ->
  let y1 := dispatch quote walk y t in
  spawned t ∈ y_procs y1 \/ waiting (sh_claims (y_sh y1)) !! t_RunnerID t = Some t \/
  (exists u, t_Kind u = TaskRemoveRunner /\ t_RunnerID u = t_RunnerID t /\
     (u ∈ claimed_tasks (y_procs y) \/ waiting (sh_claims (y_sh y)) !! t_RunnerID t = Some u)) \/
  t_RunnerID t ∈ y_recon y.
Proof.
  intros [[[C1 C2 C3 C4] _ _ _ _] _] Hk Hv. cbn zeta. unfold dispatch. rewrite Hv, Hk. cbn.
  assert (Hst : forall sh, start sh t = (sh, [spawned t])) by (intros sh; unfold start; by rewrite Hk).
  destruct (str_eqb (t_RunnerID t) ""); [rewrite Hst; left; by left|]. unfold claimOrQueue.
  case_bool_decide as Hin; cbn; [|rewrite Hst; left; by left].
  destruct (running _ !! _) as [k|] eqn:Hr; cbn.
  2:{ right. right. right. apply C2, elem_of_app in Hin as [Hin|]; [|done]. exfalso.
      apply list_elem_of_fmap in Hin as (u & Hu & Hin).
      assert (running (sh_claims (y_sh y)) !! t_RunnerID t = Some (t_Kind u)) by (apply C3; by exists u). congruence. }
  rewrite Hk. cbn [taskRank]. destruct (Z.leb_spec 3 (taskRank k)) as [H3|H3].
  { right. right. left. apply C3 in Hr as (u & Hu & E & <-). exists u. split_and!; [|done|by left].
    destruct (t_Kind u); cbn in H3; (done || lia). }
  destruct (waiting _ !! _) as [w|] eqn:Hw; cbn; [|right; left; cbn; apply lookup_insert_eq].
  destruct (Z.leb_spec 3 (taskRank (t_Kind w))) as [H4|H4]; [|right; left; cbn; apply lookup_insert_eq].
  right. right. left. exists w. destruct (C4 _ _ Hw) as (E & _). split_and!; [|done|by right].
  destruct (t_Kind w); cbn in H4; (done || lia).
Qed.

(** C15: A remove is never lost.  When one arrives it is started, or waits behind the task
    at work on its runner, or is dropped for another remove of the runner that is at work
    or waits, or because the reconciler is at work on the runner; and one that waits goes
    on waiting, whatever else arrives and however the host is interrupted, until the claim
    is given up, and is then the task it goes to. *)
Theorem a_remove_is_never_lost n y quote walk t :
  reachable n y -> t_Kind t = TaskRemoveRunner -> validateTask quote walk t = None ->
  let y1 := dispatch quote walk y t in
  let waits y := waiting (sh_claims (y_sh y)) !! t_RunnerID t = Some t in
  (spawned t ∈ y_procs y1 \/ waits y1 \/
   (exists u, t_Kind u = TaskRemoveRunner /\ t_RunnerID u = t_RunnerID t /\
      (u ∈ claimed_tasks (y_procs y) \/ waiting (sh_claims (y_sh y)) !! t_RunnerID t = Some u)) \/
   t_RunnerID t ∈ y_recon y) /\
  (waits y1 -> forall y2, rtc host_step y1 y2 -> waits y2 \/
     exists ya yb, rtc host_step y1 ya /\ waits ya /\ host_step ya yb /\ spawned t ∈ y_procs yb /\ rtc host_step yb y2).
Proof.
  intros Hr%reachable_ok Hk Hv y1 waits. split; [by apply (dispatch_remove n)|]. intros Hw y2 Hs.
  assert (Hok : y_ok n y1) by by apply dispatch_ok.
  clearbody y1. induction Hs as [y1|y1 y' y2 Hstep Hs IH]; [by left|].
  destruct (waits_or_starts _ _ _ _ _ Hok Hw Hk Hstep) as [Hw'|Hst].
  - destruct IH as [H|(ya & yb & H1 & H2 & H3 & H4 & H5)]; [done|by apply host_step_ok with (y := y1)|by left|].
    right. exists ya, yb. split_and!; try done. by eapply rtc_l.
  - right. exists y1, y'. by split_and!.
Qed.
End waiting.
