(* ===== verification/Agent.v ===== *)
(** * The host agent: what it believes and what it does about it (agent/daemon.go,
    agent/reconcile.go)

    The agent keeps a record of every runner it started or found ([tracked]) and, every
    half minute, compares it with what its backends list ([ReconcileOnce]): it reports the
    runners that live and the ones that ended, deletes the workload of a runner whose end
    the controller has been told, and deletes the workloads nothing claims.  Its backends,
    its clock and its shutdown are an environment ([Host]) that answers as it likes, so
    the theorems hold for a daemon that fails or lies.

    An operation is a function of the agent, the environment and the calls made so far
    ([M]), where a call is kept with the agent as it was when it made it.  One pass is
    taken alone here; what may run beside it is Claims.v's subject. *)
From Stdlib Require Import ZArith Lia Ascii String.
From stdpp Require Import base strings list gmap sets.
From S2P Require Import Prelude GoString GoText Store Backend Claims.
Local Open Scope string_scope.
Local Open Scope list_scope.
Local Open Scope Z_scope.

(** ** Data *)
Definition orphanGrace : Duration := 2 * Minute.
Definition removalSettle : Duration := 10 * Minute.
Definition removalMemory : Duration := 24 * Hour.
Definition missingGrace : Duration := Minute.
Definition outputTailLines : nat := 40.

(** A state of "" is [None]: the agent claims none.  The CPU and memory limits that are
    moved while a runner lives, and its samples, are not kept here or in a report. *)
Record tracked := {
  tr_runnerID : string;
  tr_name : string;
  tr_kind : BackendKind;
  tr_handle : Handle;
  tr_ephemeral : bool;
  tr_createdAt : Time;
  tr_stopping : bool;
  tr_terminal : bool;
  tr_hostRemoved : bool;
  tr_terminalAt : Time;
  tr_reported : bool;
  tr_outputTail : list string;
  tr_state : option RunnerState;
  tr_phase : Phase;
  tr_exitCode : Z;
  tr_message : string;
  tr_observedAt : Time;
  tr_fault : FaultKind
}.

Record RunnerReport := {
  rp_RunnerID : string;
  rp_HostRemoved : bool;
  rp_CleanupError : string;
  rp_State : option RunnerState;
  rp_Handle : Handle;
  rp_Phase : option Phase;
  rp_ExitCode : Z;
  rp_Message : string;
  rp_Fault : FaultKind;
  rp_OutputTail : list string;
  rp_ObservedAt : Time
}.

Record removal := { rm_since : Time; rm_asked : Time }.

(** The agent: its options, then its state, without what the throttle, the memory valve,
    the updates and the logs keep there. *)
Record Agent := {
  ag_Backends : Registry;
  ag_Name : string;
  ag_DefaultBackend : BackendKind;
  ag_retention : Duration;
  ag_runners : gmap string tracked;
  ag_claims : claims;
  ag_orphans : gmap Handle Time;
  ag_inventoryPending : gset BackendKind;
  ag_removing : gmap string removal;
  ag_polled : bool;
  ag_mutationsPaused : bool
}.

(** ** The environment

    What the backends answer ([None] for no error), the clock, and whether the context is
    done; [host_Logs] is what reading a workload's tail gives, with whether the read
    failed, or nothing where it could not be opened. *)
Class Host (W : Type) := {
  host_List : BackendKind -> W -> (list Workload + error) * W;
  host_Create : BackendKind -> Spec -> W -> (Handle + error) * W;
  host_Stop : BackendKind -> Handle -> Duration -> W -> option error * W;
  host_Remove : BackendKind -> Handle -> W -> option error * W;
  host_Logs : BackendKind -> Handle -> W -> option (string * bool) * W;
  host_now : W -> Time * W;
  host_cancelled : W -> bool * W;
  (** Sleeping; the context may be done first. *)
  host_sleep : Duration -> W -> bool * W
}.

(** What an agent asks of a backend, and what a list was answered with. *)
Inductive call :=
  | CList (kind : BackendKind) (answer : list Workload + error)
  | CCreate (kind : BackendKind) (spec : Spec)
  | CStop (kind : BackendKind) (h : Handle)
  | CRemove (kind : BackendKind) (h : Handle)
  | CStart (task : Task).

Record asked := { as_agent : Agent; as_call : call }.

Section agent.
Context {W : Type} {H : Host W}.

Record st := { st_agent : Agent; st_world : W; st_calls : list asked }.

Definition M (A : Type) : Type := st -> A * st.
#[global] Instance M_ret : MRet M := fun A a s => (a, s).
#[global] Instance M_bind : MBind M := fun A B f m s => let '(a, s') := m s in f a s'.

Definition get_agent : M Agent := fun s => (st_agent s, s).
Definition put_agent (a : Agent) : M unit :=
  fun s => (tt, {| st_agent := a; st_world := st_world s; st_calls := st_calls s |}).
Definition ask {A} (f : W -> A * W) : M A :=
  fun s => let '(a, w) := f (st_world s) in (a, {| st_agent := st_agent s; st_world := w; st_calls := st_calls s |}).
Definition note (c : call) : M unit :=
  fun s => (tt, {| st_agent := st_agent s; st_world := st_world s;
                   st_calls := st_calls s ++ [{| as_agent := st_agent s; as_call := c |}] |}).

Fixpoint foldM {A B} (f : A -> B -> M A) (a : A) (l : list B) : M A :=
  match l with [] => mret a | b :: l' => a' ← f a b; foldM f a' l' end.

(** The calls, each noted as it is made. *)
Definition List_ (kind : BackendKind) : M (list Workload + error) :=
  answer ← ask (host_List kind); _ ← note (CList kind answer); mret answer.
Definition Create (kind : BackendKind) (spec : Spec) : M (Handle + error) :=
  _ ← note (CCreate kind spec); ask (host_Create kind spec).
Definition Stop (kind : BackendKind) (h : Handle) (timeout : Duration) : M (option error) :=
  _ ← note (CStop kind h); ask (host_Stop kind h timeout).
Definition Remove (kind : BackendKind) (h : Handle) : M (option error) :=
  _ ← note (CRemove kind h); ask (host_Remove kind h).

(** ** The agent's fields, written *)
Definition set_runners (a : Agent) (m : gmap string tracked) : Agent :=
  {| ag_Backends := ag_Backends a; ag_Name := ag_Name a; ag_DefaultBackend := ag_DefaultBackend a; ag_retention := ag_retention a;
     ag_runners := m; ag_claims := ag_claims a; ag_orphans := ag_orphans a; ag_inventoryPending := ag_inventoryPending a;
     ag_removing := ag_removing a; ag_polled := ag_polled a; ag_mutationsPaused := ag_mutationsPaused a |}.
Definition set_claims (a : Agent) (c : claims) : Agent :=
  {| ag_Backends := ag_Backends a; ag_Name := ag_Name a; ag_DefaultBackend := ag_DefaultBackend a; ag_retention := ag_retention a;
     ag_runners := ag_runners a; ag_claims := c; ag_orphans := ag_orphans a; ag_inventoryPending := ag_inventoryPending a;
     ag_removing := ag_removing a; ag_polled := ag_polled a; ag_mutationsPaused := ag_mutationsPaused a |}.
Definition set_orphans (a : Agent) (m : gmap Handle Time) : Agent :=
  {| ag_Backends := ag_Backends a; ag_Name := ag_Name a; ag_DefaultBackend := ag_DefaultBackend a; ag_retention := ag_retention a;
     ag_runners := ag_runners a; ag_claims := ag_claims a; ag_orphans := m; ag_inventoryPending := ag_inventoryPending a;
     ag_removing := ag_removing a; ag_polled := ag_polled a; ag_mutationsPaused := ag_mutationsPaused a |}.
Definition set_pending (a : Agent) (ks : gset BackendKind) : Agent :=
  {| ag_Backends := ag_Backends a; ag_Name := ag_Name a; ag_DefaultBackend := ag_DefaultBackend a; ag_retention := ag_retention a;
     ag_runners := ag_runners a; ag_claims := ag_claims a; ag_orphans := ag_orphans a; ag_inventoryPending := ks;
     ag_removing := ag_removing a; ag_polled := ag_polled a; ag_mutationsPaused := ag_mutationsPaused a |}.
Definition set_removing (a : Agent) (m : gmap string removal) : Agent :=
  {| ag_Backends := ag_Backends a; ag_Name := ag_Name a; ag_DefaultBackend := ag_DefaultBackend a; ag_retention := ag_retention a;
     ag_runners := ag_runners a; ag_claims := ag_claims a; ag_orphans := ag_orphans a; ag_inventoryPending := ag_inventoryPending a;
     ag_removing := m; ag_polled := ag_polled a; ag_mutationsPaused := ag_mutationsPaused a |}.
Definition set_flags (a : Agent) (polled paused : bool) : Agent :=
  {| ag_Backends := ag_Backends a; ag_Name := ag_Name a; ag_DefaultBackend := ag_DefaultBackend a; ag_retention := ag_retention a;
     ag_runners := ag_runners a; ag_claims := ag_claims a; ag_orphans := ag_orphans a; ag_inventoryPending := ag_inventoryPending a;
     ag_removing := ag_removing a; ag_polled := polled; ag_mutationsPaused := paused |}.

Definition modify (f : Agent -> Agent) : M unit := a ← get_agent; put_agent (f a).
(** A runner's record is changed where it is tracked. *)
Definition alter_runner (id : string) (f : tracked -> tracked) : M unit :=
  modify (fun a => set_runners a (alter f id (ag_runners a))).

(** ** Records of runners *)
Definition report (t : tracked) : RunnerReport :=
  {| rp_RunnerID := tr_runnerID t; rp_HostRemoved := tr_hostRemoved t; rp_CleanupError := ""; rp_State := tr_state t;
     rp_Handle := tr_handle t; rp_Phase := Some (tr_phase t); rp_ExitCode := tr_exitCode t; rp_Message := tr_message t;
     rp_Fault := tr_fault t; rp_OutputTail := tr_outputTail t; rp_ObservedAt := tr_observedAt t |}.

Definition snapshot (id : string) : M (option tracked) := a ← get_agent; mret (ag_runners a !! id).
(** In the order Go walks the map; each iteration of the loop that uses it is about its
    own runner. *)
Definition trackedRunners : M (list tracked) := a ← get_agent; mret (map_to_list (ag_runners a)).*2.
Definition Agent_Runners : M (list RunnerReport) :=
  a ← get_agent;
  mret (SortStableFunc (fun x y => strings_Compare (rp_RunnerID x) (rp_RunnerID y)) (report <$> (map_to_list (ag_runners a)).*2)).

Definition adopted (runnerID : string) (kind : BackendKind) (w : Workload) (now : Time) : tracked :=
  {| tr_runnerID := runnerID; tr_name := w_Name w; tr_kind := kind; tr_handle := w_Handle w; tr_ephemeral := false;
     tr_createdAt := if Time_IsZero (s_StartedAt (w_Status w)) then now else s_StartedAt (w_Status w);
     tr_stopping := false; tr_terminal := false; tr_hostRemoved := false; tr_terminalAt := 0; tr_reported := false;
     tr_outputTail := []; tr_state := None; tr_phase := s_Phase (w_Status w); tr_exitCode := 0; tr_message := "";
     tr_observedAt := now; tr_fault := "" |}.

Definition adopt (runnerID : string) (kind : BackendKind) (w : Workload) : M unit :=
  now ← ask host_now;
  modify (fun a =>
    match ag_runners a !! runnerID with
    | Some _ => a
    | None => set_orphans (set_runners a (<[runnerID := adopted runnerID kind w now]> (ag_runners a)))
                          (delete (w_Handle w) (ag_orphans a))
    end).

Definition untrack (runnerID : string) : M unit :=
  modify (fun a =>
    let orphans := match ag_runners a !! runnerID with Some r => delete (tr_handle r) (ag_orphans a) | None => ag_orphans a end in
    set_runners (set_orphans a orphans) (delete runnerID (ag_runners a))).

(** [a.claim] and [a.release] on the agent's claims; a task handed the claim is started. *)
Definition agent_claim (runnerID : string) : M bool :=
  a ← get_agent;
  let '(ok, c) := claim (ag_claims a) runnerID in
  _ ← put_agent (set_claims a c); mret ok.
Definition agent_release (runnerID : string) : M unit :=
  a ← get_agent;
  let '(next, c) := release (ag_claims a) runnerID in
  _ ← put_agent (set_claims a c);
  match next with Some t => note (CStart t) | None => mret tt end.

(** [now.Sub(since)] in a report, and its words. *)
Definition stuckRemoval (waited : Duration) (e : error) : error :=
  wrapf ("the daemon on this host has been removing this runner's workload for " +:+ Duration_String (Duration_Round waited Second) +:+
         " and has not finished; a removal stuck this long usually needs the daemon restarted: ") e.

(** Since when a removal has been found under way, 0 for one that is not, and whether it
    should be waited for. *)
Definition removalPending (key : string) (err : option error) (now : Time) : M (Time * bool) :=
  a ← get_agent;
  if negb (match err with Some e => errors_Is e ErrRemovalInProgress | None => false end)
  then _ ← put_agent (set_removing a (delete key (ag_removing a))); mret (0, false)
  else
    let removing := match ag_removing a !! key with
                    | Some _ => ag_removing a
                    | None => filter (fun x => negb (removalMemory <=? Time_Sub now (rm_asked x.2))) (ag_removing a)
                    end in
    let since := match ag_removing a !! key with Some r => rm_since r | None => now end in
    _ ← put_agent (set_removing a (<[key := {| rm_since := since; rm_asked := now |}]> removing));
    mret (since, Time_Sub now since <? removalSettle).

Definition not_gone (err : option error) : option error :=
  match err with Some e => if errors_Is e ErrNotFound then None else Some e | None => None end.

(** The loop over what is still listed: the runner itself must be gone, its companions
    are removed. *)
Fixpoint remove_companions (kind : BackendKind) (runnerID : string) (ws : list Workload) : M (option error) :=
  match ws with
  | [] => mret None
  | w :: ws' =>
      if negb (str_eqb (w_RunnerID w) runnerID) then remove_companions kind runnerID ws'
      else if negb (w_Sidecar w)
      then mret (Some (errors_New ("runner workload " +:+ w_Handle w +:+ " is still present after removal")))
      else err ← Remove kind (w_Handle w);
           match not_gone err with
           | Some e => mret (Some (wrapf ("removing companion " +:+ w_Handle w +:+ ": ") e))
           | None => remove_companions kind runnerID ws'
           end
  end.

Definition removeRunnerWorkload (kind : BackendKind) (runnerID : string) (h : Handle) : M (option error) :=
  err ← (if str_eqb h "" then mret None else Remove kind h);
  match not_gone err with
  | Some e => mret (Some e)
  | None =>
      answer ← List_ kind;
      match answer with
      | inr e => mret (Some (wrapf ("confirming removal of " +:+ runnerID +:+ ": ") e))
      | inl ws => remove_companions kind runnerID ws
      end
  end.

(** ** How a stopped workload is read *)
Definition exitFault (code : Z) : FaultKind :=
  if code =? 137 then FaultOutOfMemory
  else if code =? 7 then FaultConfig
  else if code =? 64 then FaultRegistration
  else if code =? 69 then FaultBackend
  else if code =? 78 then FaultConfig
  else FaultRunnerExited.

Definition entrypointExitHint (code : Z) : string :=
  if code =? 7 then "GitHub rejected the runner version as outdated; update the pool's runner image or process runner version, and check its pull policy before retrying"
  else if code =? 64 then "the image was started with no credentials, so the entrypoint could not register a runner; read the container's log"
  else if code =? 69 then "the pool's Docker daemon never became ready, so the entrypoint refused to take a job it could not run; read the container's log, and on a slow host raise runners.docker_wait on the Settings page to allow the daemon longer"
  else if code =? 78 then "the entrypoint refused its configuration; read the container's log for the setting it named"
  else "".

Definition terminalOutcome (r : tracked) (s : Status) : RunnerState * string * FaultKind :=
  let code := itoa (s_ExitCode s) in
  if bool_decide (s_Phase s = PhaseExitUnknown)
  then (RunnerRemoved, "runner process exited; its exit status is unknown after an agent restart; check the job's GitHub outcome", "")
  else if (s_ExitCode s =? 0) && s_OOMKilled s
  then if s_SidecarOOMKilled s
       then (RunnerRemoved, "runner exited after its job, but " +:+ s_Message s, FaultOutOfMemory)
       else (RunnerRemoved, "runner exited after its job, but the kernel killed a process in it for its memory limit", FaultOutOfMemory)
  else if s_ExitCode s =? 0
  then (RunnerRemoved, if tr_ephemeral r then "ephemeral runner exited cleanly after its job" else "runner exited cleanly", "")
  else if tr_stopping r
  then (RunnerRemoved, "runner was stopped by the controller and exited with code " +:+ code, "")
  else if (s_ExitCode s =? 137) && s_OOMReported s && negb (s_OOMKilled s)
  then (RunnerFailed, "runner was killed (exit 137), but the daemon reports no memory kill: it was stopped from outside, by docker stop, an operator or the host", FaultRunnerExited)
  else
    let msg := "runner exited with code " +:+ code in
    let msg := if negb (str_eqb (s_Message s) "") then msg +:+ ": " +:+ s_Message s
               else let hint := entrypointExitHint (s_ExitCode s) in
                    if negb (str_eqb hint "") then msg +:+ ": " +:+ hint else msg in
    (RunnerFailed, msg, if s_OOMKilled s then FaultOutOfMemory else exitFault (s_ExitCode s)).

Definition cr : ascii := "013"%char.
Definition nl : ascii := "010"%char.

Definition tail_lines (data : string) : list string :=
  let lines := strings_Split (strings_TrimRight data nl) nl in
  if bool_decide (lines = [""]) then []
  else (fun l => strings_TrimRight l cr) <$>
       (if (outputTailLines <? length lines)%nat then drop (length lines - outputTailLines) lines else lines).

Definition tailOf (kind : BackendKind) (h : Handle) : M (list string) :=
  logs ← ask (host_Logs kind h);
  match logs with
  | None => mret []
  | Some (text, failed) =>
      let data := str_take (256 * 1024) text in
      if failed && (strlen data =? 0) then mret [] else mret (tail_lines data)
  end.

(** ** What a pass records *)
Definition with_end (t : tracked) (state : RunnerState) (phase : Phase) (exitCode : Z) (msg : string) (fault : FaultKind) (now : Time) : tracked :=
  {| tr_runnerID := tr_runnerID t; tr_name := tr_name t; tr_kind := tr_kind t; tr_handle := tr_handle t;
     tr_ephemeral := tr_ephemeral t; tr_createdAt := tr_createdAt t; tr_stopping := tr_stopping t; tr_terminal := true;
     tr_hostRemoved := tr_hostRemoved t; tr_terminalAt := if negb (tr_terminal t) then now else tr_terminalAt t;
     tr_reported := tr_reported t; tr_outputTail := tr_outputTail t; tr_state := Some state; tr_phase := phase;
     tr_exitCode := exitCode; tr_message := msg; tr_observedAt := now; tr_fault := fault |}.
Definition with_tail (tail : list string) (t : tracked) : tracked :=
  {| tr_runnerID := tr_runnerID t; tr_name := tr_name t; tr_kind := tr_kind t; tr_handle := tr_handle t;
     tr_ephemeral := tr_ephemeral t; tr_createdAt := tr_createdAt t; tr_stopping := tr_stopping t; tr_terminal := tr_terminal t;
     tr_hostRemoved := tr_hostRemoved t; tr_terminalAt := tr_terminalAt t; tr_reported := tr_reported t; tr_outputTail := tail;
     tr_state := tr_state t; tr_phase := tr_phase t; tr_exitCode := tr_exitCode t; tr_message := tr_message t;
     tr_observedAt := tr_observedAt t; tr_fault := tr_fault t |}.
Definition seen_running (w : Workload) (now : Time) (t : tracked) : tracked :=
  let phase := s_Phase (w_Status w) in
  {| tr_runnerID := tr_runnerID t; tr_name := if str_eqb (tr_name t) "" then w_Name w else tr_name t; tr_kind := tr_kind t;
     tr_handle := w_Handle w; tr_ephemeral := tr_ephemeral t; tr_createdAt := tr_createdAt t; tr_stopping := tr_stopping t;
     tr_terminal := tr_terminal t; tr_hostRemoved := tr_hostRemoved t; tr_terminalAt := tr_terminalAt t;
     tr_reported := tr_reported t; tr_outputTail := tr_outputTail t;
     tr_state := if bool_decide (phase = PhaseRunning) && bool_decide (tr_state t = Some RunnerRegistering) then None else tr_state t;
     tr_phase := phase; tr_exitCode := tr_exitCode t; tr_message := tr_message t; tr_observedAt := now; tr_fault := tr_fault t |}.
Definition with_removed (now : Time) (t : tracked) : tracked :=
  {| tr_runnerID := tr_runnerID t; tr_name := tr_name t; tr_kind := tr_kind t; tr_handle := tr_handle t;
     tr_ephemeral := tr_ephemeral t; tr_createdAt := tr_createdAt t; tr_stopping := tr_stopping t; tr_terminal := tr_terminal t;
     tr_hostRemoved := true; tr_terminalAt := tr_terminalAt t; tr_reported := tr_reported t; tr_outputTail := tr_outputTail t;
     tr_state := tr_state t; tr_phase := PhaseGone; tr_exitCode := tr_exitCode t; tr_message := tr_message t;
     tr_observedAt := now; tr_fault := tr_fault t |}.
Definition with_reported (t : tracked) : tracked :=
  {| tr_runnerID := tr_runnerID t; tr_name := tr_name t; tr_kind := tr_kind t; tr_handle := tr_handle t;
     tr_ephemeral := tr_ephemeral t; tr_createdAt := tr_createdAt t; tr_stopping := tr_stopping t; tr_terminal := tr_terminal t;
     tr_hostRemoved := tr_hostRemoved t; tr_terminalAt := tr_terminalAt t; tr_reported := true; tr_outputTail := tr_outputTail t;
     tr_state := tr_state t; tr_phase := tr_phase t; tr_exitCode := tr_exitCode t; tr_message := tr_message t;
     tr_observedAt := tr_observedAt t; tr_fault := tr_fault t |}.
Definition with_stopping (t : tracked) : tracked :=
  {| tr_runnerID := tr_runnerID t; tr_name := tr_name t; tr_kind := tr_kind t; tr_handle := tr_handle t;
     tr_ephemeral := tr_ephemeral t; tr_createdAt := tr_createdAt t; tr_stopping := true; tr_terminal := tr_terminal t;
     tr_hostRemoved := tr_hostRemoved t; tr_terminalAt := tr_terminalAt t; tr_reported := tr_reported t; tr_outputTail := tr_outputTail t;
     tr_state := tr_state t; tr_phase := tr_phase t; tr_exitCode := tr_exitCode t; tr_message := tr_message t;
     tr_observedAt := tr_observedAt t; tr_fault := tr_fault t |}.

Definition markTerminal (id : string) (state : RunnerState) (phase : Phase) (exitCode : Z) (msg : string) (fault : FaultKind) (now : Time) : M unit :=
  alter_runner id (fun t => with_end t state phase exitCode msg fault now).
Definition keepTail (id : string) (tail : list string) : M unit := alter_runner id (with_tail tail).
Definition markRunning (id : string) (w : Workload) (now : Time) : M unit := alter_runner id (seen_running w now).
Definition markStopping (id : string) : M unit := alter_runner id with_stopping.

Definition markOrphan (h : Handle) (now : Time) : M Time :=
  a ← get_agent;
  match ag_orphans a !! h with
  | Some first => mret first
  | None => _ ← put_agent (set_orphans a (<[h := now]> (ag_orphans a))); mret now
  end.
Definition forgetOrphan (h : Handle) : M unit := modify (fun a => set_orphans a (delete h (ag_orphans a))).

(** The reports a removal makes. *)
Definition cleanup_report (id : string) (state : option RunnerState) (e : error) (now : Time) : RunnerReport :=
  {| rp_RunnerID := id; rp_HostRemoved := false; rp_CleanupError := err_text e; rp_State := state; rp_Handle := ""; rp_Phase := None;
     rp_ExitCode := 0; rp_Message := ""; rp_Fault := ""; rp_OutputTail := []; rp_ObservedAt := now |}.
Definition gone_report (id : string) (state : option RunnerState) (h : Handle) (msg : string) (now : Time) : RunnerReport :=
  {| rp_RunnerID := id; rp_HostRemoved := true; rp_CleanupError := ""; rp_State := state; rp_Handle := h; rp_Phase := Some PhaseGone;
     rp_ExitCode := 0; rp_Message := msg; rp_Fault := ""; rp_OutputTail := []; rp_ObservedAt := now |}.

(** ** A finished runner's workload *)
Definition remove_finished (kind : BackendKind) (r : tracked) (w : Workload) (now : Time) : M (option RunnerReport) :=
  err ← removeRunnerWorkload kind (tr_runnerID r) (w_Handle w);
  match err with
  | Some e =>
      p ← removalPending (tr_runnerID r) (Some e) now;
      if p.2 : bool then mret None
      else mret (Some (cleanup_report (tr_runnerID r) (tr_state r)
                         (if Time_IsZero p.1 then e else stuckRemoval (Time_Sub now p.1) e) now))
  | None =>
      _ ← removalPending (tr_runnerID r) None now;
      _ ← alter_runner (tr_runnerID r) (with_removed now);
      mret (Some (gone_report (tr_runnerID r) (tr_state r) "" "" now))
  end.

Definition cleanUp (kind : BackendKind) (r : tracked) (w : Workload) (now : Time) : M (option RunnerReport) :=
  a ← get_agent;
  if ag_mutationsPaused a then mret None
  else if negb (tr_reported r) || (Time_Sub now (tr_terminalAt r) <? ag_retention a) then mret None
  else cancelled ← ask host_cancelled;
  if cancelled : bool then mret None
  else claimed ← agent_claim (tr_runnerID r);
  if negb claimed then mret None
  else rep ← remove_finished kind r w now; _ ← agent_release (tr_runnerID r); mret rep.

(** ** A workload nothing claims *)
Definition reap_unclaimed (kind : BackendKind) (w : Workload) (now : Time) : M (option RunnerReport) :=
  first ← markOrphan (w_Handle w) now;
  if Time_Sub now first <? orphanGrace then mret None
  else cancelled ← ask host_cancelled;
  if cancelled : bool then mret None
  else
    err ← (if w_Sidecar w || str_eqb (w_RunnerID w) "" then Remove kind (w_Handle w)
           else removeRunnerWorkload kind (w_RunnerID w) (w_Handle w));
    let key := if str_eqb (w_RunnerID w) "" then "handle:" +:+ w_Handle w else w_RunnerID w in
    p ← removalPending key err now;
    if p.2 : bool then mret None
    else match err, Time_IsZero p.1 with
    | Some e, false =>
        if str_eqb (w_RunnerID w) "" then mret None
        else mret (Some (cleanup_report (w_RunnerID w) None (stuckRemoval (Time_Sub now p.1) e) now))
    | _, _ =>
        match not_gone err with
        | Some _ => mret None
        | None =>
            _ ← forgetOrphan (w_Handle w);
            if str_eqb (w_RunnerID w) "" || w_Sidecar w then mret None
            else mret (Some (gone_report (w_RunnerID w) (Some RunnerRemoved) (w_Handle w)
                               ("removed orphaned " +:+ kind +:+ " workload " +:+ w_Name w +:+ " that no task claimed") now))
        end
    end.

Definition reapOrphan (kind : BackendKind) (w : Workload) (now : Time) : M (option RunnerReport) :=
  a ← get_agent;
  if ag_mutationsPaused a then mret None
  else if negb (ag_polled a) then mret None
  else if str_eqb (w_RunnerID w) "" then reap_unclaimed kind w now
  else claimed ← agent_claim (w_RunnerID w);
       if negb claimed then mret None
       else rep ← reap_unclaimed kind w now; _ ← agent_release (w_RunnerID w); mret rep.

(** ** The pass *)
Definition stopped (p : Phase) : bool :=
  match p with PhaseExited | PhaseExitUnknown | PhaseFailed | PhaseGone => true | _ => false end.

Definition observe (kind : BackendKind) (r : tracked) (w : Workload) (now : Time) : M (option RunnerReport) :=
  let s := w_Status w in
  if tr_hostRemoved r then mret (Some (report r))
  else if stopped (s_Phase s)
  then if tr_terminal r then cleanUp kind r w now
       else
         let '(state, msg, fault) := terminalOutcome r s in
         _ ← markTerminal (tr_runnerID r) state (s_Phase s) (s_ExitCode s) msg fault now;
         tail ← (if negb (str_eqb fault "") || negb (s_ExitCode s =? 0)
                 then tail ← tailOf kind (w_Handle w); _ ← keepTail (tr_runnerID r) tail; mret tail
                 else mret []);
         mret (Some {| rp_RunnerID := tr_runnerID r; rp_HostRemoved := false; rp_CleanupError := ""; rp_State := Some state;
                       rp_Handle := w_Handle w; rp_Phase := Some (s_Phase s); rp_ExitCode := s_ExitCode s; rp_Message := msg;
                       rp_Fault := fault; rp_OutputTail := tail; rp_ObservedAt := now |})
  else _ ← markRunning (tr_runnerID r) w now;
       mret (Some {| rp_RunnerID := tr_runnerID r; rp_HostRemoved := false; rp_CleanupError := ""; rp_State := None;
                     rp_Handle := w_Handle w; rp_Phase := Some (s_Phase s); rp_ExitCode := 0; rp_Message := "";
                     rp_Fault := ""; rp_OutputTail := []; rp_ObservedAt := now |}).

(** The local variables of [ReconcileOnce]. *)
Record pass := { ps_reports : list RunnerReport; ps_errs : list error; ps_seen : gset string; ps_unlisted : gset BackendKind }.

Definition add_report (rep : option RunnerReport) (p : pass) : pass :=
  {| ps_reports := ps_reports p ++ option_list rep; ps_errs := ps_errs p; ps_seen := ps_seen p; ps_unlisted := ps_unlisted p |}.
Definition add_seen (id : string) (p : pass) : pass :=
  {| ps_reports := ps_reports p; ps_errs := ps_errs p; ps_seen := {[id]} ∪ ps_seen p; ps_unlisted := ps_unlisted p |}.
Definition add_unlisted (kind : BackendKind) (e : error) (p : pass) : pass :=
  {| ps_reports := ps_reports p; ps_errs := ps_errs p ++ [e]; ps_seen := ps_seen p; ps_unlisted := {[kind]} ∪ ps_unlisted p |}.

Definition one_workload (kind : BackendKind) (now : Time) (p : pass) (w : Workload) : M pass :=
  if w_Sidecar w then rep ← reapOrphan kind w now; mret (add_report rep p)
  else
    r ← snapshot (w_RunnerID w);
    match r with
    | None => rep ← reapOrphan kind w now; mret (add_report rep p)
    | Some r =>
        _ ← forgetOrphan (w_Handle w);
        rep ← observe kind r w now;
        mret (add_report rep (add_seen (w_RunnerID w) p))
    end.

Definition adopt_pending (kind : BackendKind) (ws : list Workload) : M unit :=
  a ← get_agent;
  _ ← put_agent (set_pending a (ag_inventoryPending a ∖ {[kind]}));
  if bool_decide (kind ∈ ag_inventoryPending a)
  then foldM (fun _ w => if negb (str_eqb (w_RunnerID w) "") && negb (w_Sidecar w) then adopt (w_RunnerID w) kind w else mret tt) tt ws
  else mret tt.

Definition one_backend (now : Time) (p : pass) (kind : BackendKind) : M pass :=
  a ← get_agent;
  match Registry_Get (ag_Backends a) kind with
  | inr e => mret (add_unlisted kind e p)
  | inl _ =>
      answer ← List_ kind;
      match answer with
      | inr e => mret (add_unlisted kind (wrapf ("agent: listing " +:+ kind +:+ " workloads on this host: ") e) p)
      | inl ws => _ ← adopt_pending kind ws; foldM (one_workload kind now) p ws
      end
  end.

Definition disappeared (a : Agent) (r : tracked) : string :=
  "workload " +:+ tr_handle r +:+ " is no longer on host " +:+ ag_Name a.

(** One runner the agent tracks, once the backends have been listed. *)
Definition one_tracked (now : Time) (p : pass) (r : tracked) : M pass :=
  if tr_hostRemoved r
  then if bool_decide (tr_runnerID r ∈ ps_seen p) then mret p else mret (add_report (Some (report r)) p)
  else if bool_decide (tr_runnerID r ∈ ps_seen p) || bool_decide (tr_kind r ∈ ps_unlisted p) then mret p
  else if Time_Sub now (tr_createdAt r) <? missingGrace then mret p
  else if tr_terminal r
  then if tr_reported r then _ ← untrack (tr_runnerID r); mret p else mret (add_report (Some (report r)) p)
  else
    a ← get_agent;
    let msg := disappeared a r in
    _ ← markTerminal (tr_runnerID r) RunnerRemoved PhaseGone 0 msg "" now;
    mret (add_report (Some {| rp_RunnerID := tr_runnerID r; rp_HostRemoved := false; rp_CleanupError := ""; rp_State := Some RunnerRemoved;
                              rp_Handle := tr_handle r; rp_Phase := Some PhaseGone; rp_ExitCode := 0; rp_Message := msg;
                              rp_Fault := ""; rp_OutputTail := []; rp_ObservedAt := now |}) p).

Definition ReconcileOnce : M (list RunnerReport * option error) :=
  now ← ask host_now;
  a ← get_agent;
  let kinds := SortStableFunc strings_Compare (Registry_Kinds (ag_Backends a)) in
  p ← foldM (one_backend now) {| ps_reports := []; ps_errs := []; ps_seen := ∅; ps_unlisted := ∅ |} kinds;
  rs ← trackedRunners;
  p ← foldM (one_tracked now) p rs;
  mret (ps_reports p, errors_Join (ps_errs p)).

(** ** What the controller has accepted, and what it disowns *)
Definition rp_terminal (rep : RunnerReport) : bool := match rp_State rep with Some s => Terminal s | None => false end.

Definition mark_one (a : Agent) (rep : RunnerReport) : Agent :=
  if negb (rp_terminal rep) then a
  else match ag_runners a !! rp_RunnerID rep with
       | Some r =>
           if tr_terminal r && bool_decide (tr_state r = rp_State rep)
           then if rp_HostRemoved rep && tr_hostRemoved r
                then set_runners a (delete (rp_RunnerID rep) (ag_runners a))
                else set_runners a (<[rp_RunnerID rep := with_reported r]> (ag_runners a))
           else a
       | None => a
       end.
Definition markReported (reports : list RunnerReport) : M unit := modify (fun a => foldl mark_one a reports).

(** [sendReports] with whether the controller took them. *)
Definition sendReports (accepted : bool) (reports : list RunnerReport) : M unit :=
  if accepted then markReported reports else mret tt.

Definition release_unknown (a : Agent) (id : string) : Agent :=
  match ag_runners a !! id with
  | Some r => if tr_terminal r then a else set_runners a (delete id (ag_runners a))
  | None => a
  end.
Definition releaseUnknown (ids : list string) : M unit := modify (fun a => foldl release_unknown a ids).

(** The part of a heartbeat that is about runners: what the beat carried is taken for
    reported once it is answered. *)
Definition heartbeat (answer : option (bool * list string)) : M unit :=
  runners ← Agent_Runners;
  match answer with
  | None => mret tt
  | Some (paused, unknown) =>
      _ ← modify (fun a => set_flags a (ag_polled a) paused);
      _ ← markReported runners;
      if paused : bool then mret tt else releaseUnknown unknown
  end.

Definition adoptExisting : M unit :=
  a ← get_agent;
  foldM (fun _ kind =>
    _ ← modify (fun a => set_pending a ({[kind]} ∪ ag_inventoryPending a));
    a ← get_agent;
    match Registry_Get (ag_Backends a) kind with
    | inr _ => mret tt
    | inl _ =>
        answer ← List_ kind;
        match answer with
        | inr _ => mret tt
        | inl ws =>
            _ ← foldM (fun _ w => if str_eqb (w_RunnerID w) "" || w_Sidecar w then mret tt else adopt (w_RunnerID w) kind w) tt ws;
            modify (fun a => set_pending a (ag_inventoryPending a ∖ {[kind]}))
        end
    end) tt (SortStableFunc strings_Compare (Registry_Kinds (ag_Backends a))).
End agent.
Arguments st : clear implicits.
Arguments M : clear implicits.

(** ** Triples

    [triple P m Q]: run where [P] holds, [m] gives a value and a state of which [Q] holds. *)
Section triples.
Context {W : Type} {H : Host W}.
Abbreviation M := (M W).
Abbreviation st := (st W).

Definition triple {A} (P : st -> Prop) (m : M A) (Q : A -> st -> Prop) : Prop :=
  forall s, P s -> let '(a, s') := m s in Q a s'.

Lemma t_ret {A} (a : A) (Q : A -> st -> Prop) : triple (Q a) (mret a) Q.
Proof. by intros s Hs. Qed.
Lemma t_bind {A B} P (m : M A) R (f : A -> M B) Q :
  triple P m R -> (forall a, triple (R a) (f a) Q) -> triple P (m ≫= f) Q.
Proof.
  intros Hm Hf s Hs. specialize (Hm s Hs). unfold mbind, M_bind. destruct (m s) as [a s']. by apply Hf.
Qed.
Lemma t_conseq {A} (P P' : st -> Prop) (m : M A) (Q Q' : A -> st -> Prop) :
  triple P' m Q' -> (forall s, P s -> P' s) -> (forall a s, Q' a s -> Q a s) -> triple P m Q.
Proof. intros Hm HP HQ s Hs. specialize (Hm s (HP s Hs)). destruct (m s). by apply HQ. Qed.
Lemma t_pre {A} (P P' : st -> Prop) (m : M A) Q : triple P' m Q -> (forall s, P s -> P' s) -> triple P m Q.
Proof. intros Hm HP. by apply (t_conseq _ _ _ _ _ Hm HP). Qed.
Lemma t_get_agent (P : st -> Prop) : triple P get_agent (fun a s => P s /\ a = st_agent s).
Proof. by intros s Hs. Qed.
Lemma t_put_agent a (Q : unit -> st -> Prop) :
  triple (fun s => Q tt {| st_agent := a; st_world := st_world s; st_calls := st_calls s |}) (put_agent a) Q.
Proof. by intros s Hs. Qed.
Lemma t_modify f (Q : unit -> st -> Prop) :
  triple (fun s => Q tt {| st_agent := f (st_agent s); st_world := st_world s; st_calls := st_calls s |}) (modify f) Q.
Proof. by intros s Hs. Qed.
Lemma t_ask {A} (f : W -> A * W) (Q : A -> st -> Prop) :
  triple (fun s => forall a w, f (st_world s) = (a, w) -> Q a {| st_agent := st_agent s; st_world := w; st_calls := st_calls s |}) (ask f) Q.
Proof. intros s Hs. unfold ask. destruct (f (st_world s)) as [a w] eqn:E. by apply Hs. Qed.
Lemma t_note c (Q : unit -> st -> Prop) :
  triple (fun s => Q tt {| st_agent := st_agent s; st_world := st_world s;
                           st_calls := st_calls s ++ [{| as_agent := st_agent s; as_call := c |}] |}) (note c) Q.
Proof. by intros s Hs. Qed.

(** An invariant of the steps is an invariant of the loop. *)
Lemma t_fold {A B} (I : A -> st -> Prop) (f : A -> B -> M A) (l : list B) :
  (forall b a, b ∈ l -> triple (I a) (f a b) I) -> forall a, triple (I a) (foldM f a l) I.
Proof.
  induction l as [|b l IH]; intros Hf a; [apply t_ret|]. cbn [foldM].
  apply (t_bind _ _ I); [apply Hf; by left|]. intros a'. apply IH. intros b' a'' Hb. apply Hf. by right.
Qed.
End triples.

(** ** What a pass deletes *)
Definition listed (l : list asked) (kind : BackendKind) (w : Workload) : Prop :=
  exists e ws, e ∈ l /\ as_call e = CList kind (inl ws) /\ w ∈ ws.

(** [told id state]: the controller has accepted a report that the runner [id] ended in
    [state].  The runner of [w] has ended, the controller has been told how, and its output
    has been kept for as long as it is kept. *)
Definition finished (told : string -> RunnerState -> Prop) (now : Time) (a : Agent) (w : Workload) : Prop :=
  w_Sidecar w = false /\ stopped (s_Phase (w_Status w)) = true /\
  exists r state, ag_runners a !! w_RunnerID w = Some r /\ tr_terminal r = true /\ tr_reported r = true /\ tr_state r = Some state /\
    Terminal state = true /\ told (w_RunnerID w) state /\ ag_retention a <= Time_Sub now (tr_terminalAt r).
(** Nothing has claimed [w] for the grace given, since the controller was first heard. *)
Definition orphaned (now : Time) (a : Agent) (w : Workload) : Prop :=
  ag_polled a = true /\ (w_Sidecar w = true \/ ag_runners a !! w_RunnerID w = None) /\
  exists first, ag_orphans a !! w_Handle w = Some first /\ orphanGrace <= Time_Sub now first.
Definition may_delete (told : string -> RunnerState -> Prop) (now : Time) (a : Agent) (w : Workload) : Prop :=
  ag_mutationsPaused a = false /\ (w_RunnerID w <> "" -> w_RunnerID w ∈ inflight (ag_claims a)) /\
  (finished told now a w \/ orphaned now a w).

(** What a removal is made for: a workload listed before it, or a companion of one. *)
Definition justified (told : string -> RunnerState -> Prop) (now : Time) (before : list asked) (e : asked) : Prop :=
  match as_call e with
  | CRemove kind h =>
      exists w, listed before kind w /\ may_delete told now (as_agent e) w /\
        (h = w_Handle w \/ exists c, listed before kind c /\ w_Sidecar c = true /\ w_RunnerID c = w_RunnerID w /\ h = w_Handle c)
  | _ => True
  end.
(** Every call is right, given the calls before it. *)
Definition traced (right : list asked -> asked -> Prop) (calls : list asked) : Prop :=
  forall l1 e l2, calls = l1 ++ e :: l2 -> right l1 e.
Definition all_justified (told : string -> RunnerState -> Prop) (now : Time) (calls : list asked) : Prop :=
  traced (justified told now) calls.

Lemma traced_nil right : traced right [].
Proof. by intros [] e l2. Qed.
Lemma traced_snoc (right : list asked -> asked -> Prop) l e : traced right l -> right l e -> traced right (l ++ [e]).
Proof.
  intros Hall He l1 e' l2 Heq. destruct l2 as [|x l2 _] using rev_ind.
  - apply app_inj_tail in Heq as [-> ->]. done.
  - rewrite app_comm_cons, app_assoc in Heq. apply app_inj_tail in Heq as [Heq _]. by apply (Hall _ _ _ Heq).
Qed.

(** What a record says hangs together: it is under its own name, a record of an end names
    a terminal state, one that is marked reported was, and only such a runner's workload is
    recorded as removed. *)
Record tracked_ok (told : string -> RunnerState -> Prop) (id : string) (r : tracked) : Prop := {
  to_key : tr_runnerID r = id;
  to_terminal : tr_terminal r = true -> exists state, tr_state r = Some state /\ Terminal state = true;
  to_reported : tr_reported r = true -> tr_terminal r = true /\ forall state, tr_state r = Some state -> told id state;
  to_removed : tr_hostRemoved r = true -> tr_reported r = true
}.
Definition sound (told : string -> RunnerState -> Prop) (a : Agent) : Prop :=
  forall id r, ag_runners a !! id = Some r -> tracked_ok told id r.

Section deletes.
Context {W : Type} {H : Host W} (told : string -> RunnerState -> Prop).
Implicit Types (s : st W) (l : list asked) (a : Agent).

Definition Inv (now : Time) l s : Prop := all_justified told now (st_calls s) /\ sound told (st_agent s) /\ l `prefix_of` st_calls s.

Lemma listed_mono l l' k w : l `prefix_of` l' -> listed l k w -> listed l' k w.
Proof. intros [t ->] (e & ws & He & Hc & Hw). exists e, ws. split_and!; try done. apply elem_of_app. by left. Qed.

Lemma justified_mono now l l' e : l `prefix_of` l' -> justified told now l e -> justified told now l' e.
Proof.
  intros Hp. unfold justified. destruct (as_call e); try done. intros (w & Hw & Hm & Hh). exists w.
  split_and!; [by eapply listed_mono|done|]. destruct Hh as [->|(c & Hc & Hrest)]; [by left|].
  right. exists c. split; [by eapply listed_mono|done].
Qed.

Lemma Inv_weaken now l l' s : l' `prefix_of` l -> Inv now l s -> Inv now l' s.
Proof. intros Hp (H1 & H2 & H3). split_and!; try done. by etrans. Qed.

(** A call that is no removal, or a removal with a reason, is noted. *)
Lemma t_note_justified now l a c :
  (forall l', l `prefix_of` l' -> justified told now l' {| as_agent := a; as_call := c |}) ->
  triple (fun s => Inv now l s /\ st_agent s = a) (note c) (fun _ s => Inv now l s /\ st_agent s = a).
Proof.
  intros Hj s [(H1 & H2 & H3) <-]. split; [|done]. split_and!; cbn; [|done|by apply prefix_app_r].
  apply traced_snoc; [done|]. by apply Hj.
Qed.

Lemma t_ask_same {A} now l a (f : W -> A * W) :
  triple (fun s => Inv now l s /\ st_agent s = a) (ask f) (fun _ s => Inv now l s /\ st_agent s = a).
Proof. intros s Hs. unfold ask. destruct (f (st_world s)). exact Hs. Qed.

Lemma t_Remove now l a k h :
  (forall l', l `prefix_of` l' -> justified told now l' {| as_agent := a; as_call := CRemove k h |}) ->
  triple (fun s => Inv now l s /\ st_agent s = a) (Remove k h) (fun _ s => Inv now l s /\ st_agent s = a).
Proof. intros Hj. eapply t_bind; [by apply t_note_justified|]. intros []. apply t_ask_same. Qed.

(** After a list, what it gave is listed. *)
Lemma t_List now l a k :
  triple (fun s => Inv now l s /\ st_agent s = a) (List_ k)
    (fun ans s => st_agent s = a /\ exists l', l `prefix_of` l' /\ Inv now l' s /\
                  forall ws, ans = inl ws -> forall w, w ∈ ws -> listed l' k w).
Proof.
  intros s [HI <-]. unfold List_, mbind, M_bind, ask, note, mret, M_ret.
  destruct (host_List k (st_world s)) as [ans w'] eqn:E. cbn. split; [done|].
  exists (st_calls s ++ [{| as_agent := st_agent s; as_call := CList k ans |}]).
  destruct HI as (H1 & H2 & H3). split_and!; [by apply prefix_app_r| |].
  - split_and!; cbn; [|done|done]. by apply traced_snoc.
  - intros ws -> w Hw. exists {| as_agent := st_agent s; as_call := CList k (inl ws) |}, ws.
    split_and!; try done. apply elem_of_app. right. by left.
Qed.

Lemma t_companions now l a k id w ws :
  listed l k w -> may_delete told now a w -> w_RunnerID w = id -> (forall c, c ∈ ws -> listed l k c) ->
  triple (fun s => Inv now l s /\ st_agent s = a) (remove_companions k id ws) (fun _ s => Inv now l s /\ st_agent s = a).
Proof.
  intros Hw Hm Hid. induction ws as [|c ws IH]; intros Hws; cbn [remove_companions]; [by intros s|].
  assert (IH' := IH (fun c' Hc' => Hws c' (list_elem_of_further _ _ _ Hc'))).
  unfold str_eqb. case_bool_decide as Ec; cbn [negb]; [|done].
  destruct (w_Sidecar c) eqn:Es; cbn [negb]; [|by intros s].
  eapply t_bind; [apply t_Remove|].
  - intros l' Hl'. exists w. split_and!; [by eapply listed_mono|done|]. right. exists c.
    split_and!; [eapply listed_mono, Hws; [done|by left]|done|congruence|done].
  - intros err. destruct (not_gone err); [by intros s|done].
Qed.

(** A reason to delete a workload is a reason for all of [removeRunnerWorkload]. *)
Lemma t_removeRunnerWorkload now l a k w :
  listed l k w -> may_delete told now a w ->
  triple (fun s => Inv now l s /\ st_agent s = a) (removeRunnerWorkload k (w_RunnerID w) (w_Handle w))
         (fun _ s => Inv now l s /\ st_agent s = a).
Proof.
  intros Hw Hm. unfold removeRunnerWorkload.
  eapply t_bind with (R := fun _ s => Inv now l s /\ st_agent s = a).
  { destruct (str_eqb _ _); [by intros s|]. apply t_Remove. intros l' Hl'. exists w.
    split_and!; [by eapply listed_mono|done|by left]. }
  intros err. destruct (not_gone err); [by intros s|].
  eapply t_bind; [apply t_List|]. intros [ws|e].
  - intros s (Ha & l' & Hl' & HI & Hws).
    assert (Hc := t_companions now l' a k _ w ws (listed_mono _ _ _ _ Hl' Hw) Hm eq_refl (Hws ws eq_refl) s (conj HI Ha)).
    destruct (remove_companions _ _ _ s). destruct Hc as [HI' ?]. split; [by eapply Inv_weaken|done].
  - intros s (Ha & l' & Hl' & HI & _). split; [by eapply Inv_weaken|done].
Qed.

(** *** What keeps the records sound *)
Lemma sound_alter a id f :
  sound told a -> (forall r, ag_runners a !! id = Some r -> tracked_ok told id r -> tracked_ok told id (f r)) ->
  sound told (set_runners a (alter f id (ag_runners a))).
Proof.
  intros Hs Hf i r. cbn. rewrite lookup_alter_Some. intros [(<- & x & Hx & ->)|[_ Hr]]; [|by apply Hs]. auto.
Qed.
Lemma sound_insert a id r : sound told a -> tracked_ok told id r -> sound told (set_runners a (<[id := r]> (ag_runners a))).
Proof. intros Hs Hr i x. cbn. rewrite lookup_insert_Some. intros [[<- <-]|[_ Hx]]; [done|by apply Hs]. Qed.
Lemma sound_delete a id : sound told a -> sound told (set_runners a (delete id (ag_runners a))).
Proof. intros Hs i x. cbn. rewrite lookup_delete_Some. intros [_ Hx]. by apply Hs. Qed.

(** A change of the agent that leaves its records sound. *)
Lemma t_put now l a (Q : unit -> st W -> Prop) :
  sound told a -> (forall s, Inv now l s -> st_agent s = a -> Q tt s) -> triple (Inv now l) (put_agent a) Q.
Proof. intros Ha HQ s (H1 & _ & H3). apply HQ; [|done]. by split_and!. Qed.

Lemma t_alter now l id f (P : st W -> Prop) :
  (forall s, P s -> Inv now l s) ->
  (forall s r, P s -> ag_runners (st_agent s) !! id = Some r -> tracked_ok told id r -> tracked_ok told id (f r)) ->
  triple P (alter_runner id f) (fun _ => Inv now l).
Proof.
  intros HP Hf s Hs. destruct (HP s Hs) as (H1 & H2 & H3). split_and!; [done| |done]. cbn.
  apply sound_alter; [done|]. intros r. by apply Hf.
Qed.

(** With the records as they are. *)
Definition Keep now l (m : gmap string tracked) s : Prop := Inv now l s /\ ag_runners (st_agent s) = m.

Lemma t_keep {A} now l (c : M W A) Q : (forall m, triple (Keep now l m) c Q) -> triple (Inv now l) c Q.
Proof. intros Hc s HI. by apply (Hc (ag_runners (st_agent s))). Qed.
Lemma t_at {A} now l (c : M W A) Q :
  (forall a, triple (fun s => Inv now l s /\ st_agent s = a) c Q) -> triple (Inv now l) c Q.
Proof. intros Hc s HI. by apply (Hc (st_agent s)). Qed.

Lemma t_claim now l a id :
  triple (fun s => Inv now l s /\ st_agent s = a) (agent_claim id)
    (fun ok s => Inv now l s /\ exists c, st_agent s = set_claims a c /\ (ok = true -> id ∈ inflight c)).
Proof.
  intros s [(H1 & H2 & H3) <-]. unfold agent_claim, mbind, M_bind, get_agent, put_agent, mret, M_ret.
  destruct (claim (ag_claims (st_agent s)) id) as [ok c] eqn:E. cbn. split; [by split_and!|]. exists c.
  split; [done|]. intros ->. unfold claim in E. case_decide; [done|]. injection E as <-. cbn. set_solver.
Qed.

Lemma t_release now l id : triple (Inv now l) (agent_release id) (fun _ => Inv now l).
Proof.
  intros s (H1 & H2 & H3). unfold agent_release, mbind, M_bind, get_agent, put_agent, mret, M_ret.
  destruct (release (ag_claims (st_agent s)) id) as [next c] eqn:E. destruct next as [t|]; cbn; [|by split_and!].
  split_and!; cbn; [by apply traced_snoc|done|by apply prefix_app_r].
Qed.

Lemma t_removalPending now l m key err t :
  triple (Keep now l m) (removalPending key err t) (fun _ => Keep now l m).
Proof.
  intros s [(H1 & H2 & H3) <-]. unfold removalPending, mbind, M_bind, get_agent, put_agent, mret, M_ret.
  destruct (negb _); cbn; by split_and!.
Qed.

Lemma t_asked {A} now l m (f : W -> A * W) : triple (Keep now l m) (ask f) (fun _ => Keep now l m).
Proof. intros s [H1 <-]. unfold ask. destruct (f (st_world s)). by split. Qed.

(** *** The parts of a pass *)
Lemma t_remove_finished now l k r w a :
  listed l k w -> may_delete told now a w -> ag_runners a !! w_RunnerID w = Some r -> tr_runnerID r = w_RunnerID w ->
  tr_reported r = true ->
  triple (fun s => Inv now l s /\ st_agent s = a) (remove_finished k r w now) (fun _ => Inv now l).
Proof.
  intros Hl Hm Hr Hkey Hrep. unfold remove_finished. rewrite Hkey.
  eapply t_bind; [by apply t_removeRunnerWorkload|]. intros err.
  eapply t_pre with (P' := Keep now l (ag_runners a)); [|intros s [? <-]; by split].
  destruct err as [e|].
  - eapply t_bind; [apply t_removalPending|]. intros [since []]; by intros s [? _].
  - eapply t_bind; [apply t_removalPending|]. intros p. eapply t_bind with (R := fun _ => Inv now l); [|intros []; by intros s].
    eapply t_alter; [by intros s [? _]|]. intros s r' [_ Em] Hr'. rewrite Em, Hr in Hr'. injection Hr' as <-.
    intros [? ? ? ?]. by split.
Qed.

Lemma t_cleanUp now l k r w :
  listed l k w -> w_Sidecar w = false -> stopped (s_Phase (w_Status w)) = true -> tr_terminal r = true ->
  triple (fun s => Inv now l s /\ ag_runners (st_agent s) !! w_RunnerID w = Some r) (cleanUp k r w now) (fun _ => Inv now l).
Proof.
  intros Hl Hsc Hst Hterm. unfold cleanUp. eapply t_bind; [apply t_get_agent|]. intros a.
  destruct (ag_mutationsPaused a) eqn:Ep; [by intros s [[? _] _]|].
  destruct (tr_reported r) eqn:Er; cbn [negb orb]; [|by intros s [[? _] _]].
  destruct (Z.ltb_spec (Time_Sub now (tr_terminalAt r)) (ag_retention a)) as [|Hret]; [by intros s [[? _] _]|].
  intros s [[HI Hr] ->]. revert Ep Hret Hr. generalize (eq_refl (st_agent s)). generalize (st_agent s) at 2 3 4 5.
  intros a Ha Ep Hret Hr. assert (Hok : tracked_ok told (w_RunnerID w) r) by (rewrite <- Ha in Hr; by apply HI, Hr).
  destruct Hok as [Hkey Hend Hrep _]. destruct (Hend Hterm) as (state & Hstate & Hts).
  revert s HI Ha. refine (fun s HI Ha => _ s (conj HI Ha)).
  eapply t_bind; [apply t_ask_same|]. intros []; [by intros s' [? _]|].
  eapply t_bind; [apply t_claim|]. intros [|]; cbn [negb]; [|by intros s' [? _]].
  eapply t_bind with (R := fun _ => Inv now l); [|intros rep; eapply t_bind; [apply t_release|]; intros []; by intros s'].
  intros s' (HI' & c & Ha' & Hin). specialize (Hin eq_refl). rewrite Hkey in Hin.
  refine (t_remove_finished now l k r w (set_claims a c) Hl _ Hr Hkey Er s' (conj HI' Ha')).
  split; [done|]. split; [done|]. left. split_and!; [done..|].
  exists r, state. split_and!; try done. by apply (proj2 (Hrep Er)).
Qed.

Lemma t_markOrphan now l h t a :
  triple (fun s => Inv now l s /\ st_agent s = a) (markOrphan h t)
    (fun first s => Inv now l s /\ exists m, st_agent s = set_orphans a m /\ m !! h = Some first).
Proof.
  intros s [(H1 & H2 & H3) <-]. unfold markOrphan, mbind, M_bind, get_agent, put_agent, mret, M_ret.
  destruct (ag_orphans (st_agent s) !! h) as [first|] eqn:E; cbn; (split; [by split_and!|]).
  - exists (ag_orphans (st_agent s)). split; [by destruct (st_agent s)|done].
  - eexists. split; [done|apply lookup_insert_eq].
Qed.

Lemma t_modify_orphans now l f :
  triple (Inv now l) (modify (fun a => set_orphans a (f a))) (fun _ => Inv now l).
Proof. intros s (H1 & H2 & H3). by split_and!. Qed.

Lemma t_reap now l k w a :
  listed l k w -> ag_mutationsPaused a = false -> ag_polled a = true ->
  (w_Sidecar w = true \/ ag_runners a !! w_RunnerID w = None) ->
  (w_RunnerID w <> "" -> w_RunnerID w ∈ inflight (ag_claims a)) ->
  triple (fun s => Inv now l s /\ st_agent s = a) (reap_unclaimed k w now) (fun _ => Inv now l).
Proof.
  intros Hl Hp Hpo Hun Hcl. unfold reap_unclaimed. eapply t_bind; [apply t_markOrphan|]. intros first s (HI & m & Ha & Hm).
  revert s HI Ha. refine (fun s HI Ha => _ s (conj HI Ha)).
  destruct (Z.ltb_spec (Time_Sub now first) orphanGrace) as [|Hg]; [by intros s' [? _]|].
  eapply t_bind; [apply t_ask_same|]. intros []; [by intros s' [? _]|].
  assert (Hmd : may_delete told now (set_orphans a m) w).
  { split; [done|]. split; [done|]. right. split_and!; [done..|]. by exists first. }
  eapply t_bind with (R := fun _ s => Inv now l s /\ st_agent s = set_orphans a m).
  { destruct (_ || _); [|by apply t_removeRunnerWorkload]. apply t_Remove. intros l' Hl'. exists w.
    split_and!; [by eapply listed_mono|done|by left]. }
  intros err. eapply t_pre with (P' := Keep now l (ag_runners a)); [|intros s' [? Ea]; split; [done|by rewrite Ea]].
  eapply t_bind; [apply t_removalPending|]. intros [since []]; cbn [fst snd]; [by intros s' [? _]|].
  apply t_pre with (P' := Inv now l); [|by intros s' [? _]].
  assert (Hend : triple (Inv now l)
    (match not_gone err with
     | Some _ => mret None
     | None => _ ← forgetOrphan (w_Handle w);
         if str_eqb (w_RunnerID w) "" || w_Sidecar w then mret None
         else mret (Some (gone_report (w_RunnerID w) (Some RunnerRemoved) (w_Handle w)
                            ("removed orphaned " +:+ k +:+ " workload " +:+ w_Name w +:+ " that no task claimed") now))
     end) (fun _ => Inv now l)).
  { destruct (not_gone err); [by intros s'|]. eapply t_bind; [apply t_modify_orphans|]. intros []. by destruct (_ || _); intros s'. }
  destruct err as [e|]; [|exact Hend]. destruct (Time_IsZero since); [exact Hend|]. by destruct (str_eqb _ _); intros s'.
Qed.

Lemma t_reapOrphan now l k w :
  listed l k w ->
  triple (fun s => Inv now l s /\ (w_Sidecar w = true \/ ag_runners (st_agent s) !! w_RunnerID w = None))
    (reapOrphan k w now) (fun _ => Inv now l).
Proof.
  intros Hl. unfold reapOrphan. eapply t_bind; [apply t_get_agent|]. intros a.
  destruct (ag_mutationsPaused a) eqn:Ep; [by intros s [[? _] _]|].
  destruct (ag_polled a) eqn:Epo; cbn [negb]; [|by intros s [[? _] _]].
  intros s [[HI Hun] Ea]. rewrite <- Ea in Hun. symmetry in Ea. revert s HI Ea. refine (fun s HI Ha => _ s (conj HI Ha)).
  unfold str_eqb. case_bool_decide as Eid; [by apply t_reap|].
  eapply t_bind; [apply t_claim|]. intros [|]; cbn [negb]; [|by intros s' [? _]].
  eapply t_bind with (R := fun _ => Inv now l); [|intros rep; eapply t_bind; [apply t_release|]; intros []; by intros s'].
  intros s' (HI' & c & Ha' & Hin). exact (t_reap now l k w (set_claims a c) Hl Ep Epo Hun (fun _ => Hin eq_refl) s' (conj HI' Ha')).
Qed.

Lemma terminalOutcome_terminal r x : Terminal (terminalOutcome r x).1.1 = true.
Proof. unfold terminalOutcome. repeat case_match; done. Qed.

Lemma t_tailOf now l m k h : triple (Keep now l m) (tailOf k h) (fun _ => Keep now l m).
Proof.
  unfold tailOf. eapply t_bind; [apply t_asked|]. intros [[text failed]|]; [|by intros s].
  cbv zeta. by destruct (_ && _); intros s.
Qed.

Lemma t_observe now l k r w :
  listed l k w -> w_Sidecar w = false ->
  triple (fun s => Inv now l s /\ ag_runners (st_agent s) !! w_RunnerID w = Some r) (observe k r w now) (fun _ => Inv now l).
Proof.
  intros Hl Hsc. unfold observe. cbv zeta. destruct (tr_hostRemoved r) eqn:Eh; [by intros s [? _]|].
  destruct (stopped (s_Phase (w_Status w))) eqn:Est.
  - destruct (tr_terminal r) eqn:Et; [by apply t_cleanUp|].
    destruct (terminalOutcome r (w_Status w)) as [[state msg] fault] eqn:Eo.
    assert (Hts := terminalOutcome_terminal r (w_Status w)). rewrite Eo in Hts. cbn in Hts.
    eapply t_bind with (R := fun _ => Inv now l).
    { eapply t_alter; [by intros s [? _]|]. intros s r' [HI Hr] Hr' Hok.
      assert (Hkey : tr_runnerID r = w_RunnerID w) by (by eapply to_key, HI, Hr). rewrite Hkey, Hr in Hr'. injection Hr' as <-.
      destruct Hok as [O1 O2 O3 O4]. split; cbn; [done|by exists state| |done].
      intros Hrep. destruct (O3 Hrep) as [? _]. congruence. }
    intros []. eapply t_bind with (R := fun _ => Inv now l); [|intros tail; by intros s].
    destruct (_ || _); [|by intros s].
    apply t_keep. intros m.
    eapply t_bind; [apply t_tailOf|]. intros tail. eapply t_bind with (R := fun _ => Inv now l); [|intros []; by intros s'].
    eapply t_alter; [by intros s' [? _]|]. intros s' r' _ _ [O1 O2 O3 O4]. by split.
  - eapply t_bind with (R := fun _ => Inv now l); [|intros []; by intros s].
    eapply t_alter; [by intros s [? _]|]. intros s r' _ _ [O1 O2 O3 O4].
    assert (Hstate : tr_terminal r' = true -> tr_state (seen_running w now r') = tr_state r').
    { intros Ht. destruct (O2 Ht) as (state & Hs & Hterm). cbn. rewrite Hs.
      destruct (bool_decide (Some state = Some RunnerRegistering)) eqn:E; [|by rewrite andb_false_r].
      apply bool_decide_eq_true_1 in E. injection E as ->. done. }
    split; [done| | |done].
    + intros Ht. rewrite Hstate by done. by apply O2.
    + intros Hr. destruct (O3 Hr) as [Ht Hsay]. split; [done|]. by rewrite Hstate.
Qed.

Lemma t_snapshot now l id :
  triple (Inv now l) (snapshot id) (fun r s => Inv now l s /\ ag_runners (st_agent s) !! id = r).
Proof. by intros s HI. Qed.

Lemma t_one_workload now l k p w :
  listed l k w -> triple (Inv now l) (one_workload k now p w) (fun _ => Inv now l).
Proof.
  intros Hl. unfold one_workload. destruct (w_Sidecar w) eqn:Es.
  - eapply t_bind with (R := fun _ => Inv now l); [|intros rep; by intros s]. eapply t_pre; [by apply t_reapOrphan|]. intros s HI. split; [done|by left].
  - eapply t_bind; [apply t_snapshot|]. intros [r|].
    + eapply t_bind with (R := fun _ s => Inv now l s /\ ag_runners (st_agent s) !! w_RunnerID w = Some r).
      { intros s [(H1 & H2 & H3) Hr]. split; [by split_and!|done]. }
      intros []. eapply t_bind; [by apply t_observe|]. intros rep. by intros s.
    + eapply t_bind with (R := fun _ => Inv now l); [|intros rep; by intros s]. eapply t_pre; [by apply t_reapOrphan|]. intros s [HI Hr]. split; [done|by right].
Qed.

Lemma adopted_ok id k w t : tracked_ok told id (adopted id k w t).
Proof. by split. Qed.

Lemma t_adopt now l id k w : triple (Inv now l) (adopt id k w) (fun _ => Inv now l).
Proof.
  unfold adopt. eapply t_bind with (R := fun _ => Inv now l).
  { intros s HI. unfold ask. by destruct (host_now (st_world s)). }
  intros t. eapply t_pre; [apply t_modify|]. intros s (H1 & H2 & H3). cbn. destruct (ag_runners (st_agent s) !! id); [by split_and!|].
  split_and!; cbn; [done| |done]. intros i x. cbn. rewrite lookup_insert_Some. intros [[<- <-]|[_ Hx]]; [apply adopted_ok|by apply H2].
Qed.

Lemma t_one_backend now l p k : triple (Inv now l) (one_backend now p k) (fun _ => Inv now l).
Proof.
  unfold one_backend. eapply t_bind; [apply t_get_agent|]. intros a.
  destruct (Registry_Get _ _); [|by intros s [? _]].
  apply t_pre with (P' := Inv now l); [|by intros s [? _]]. apply t_at. intros b1.
  eapply t_bind; [apply t_List|]. intros [ws|e]; cbn beta iota.
  - intros s' (_ & l' & Hl' & HI' & Hws). specialize (Hws ws eq_refl). revert s' HI'. refine (fun s' HI' => _ s' HI').
    apply (t_conseq _ (Inv now l') _ _ (fun _ => Inv now l')); [|done|intros ? ? ?; by eapply Inv_weaken].
    eapply t_bind with (R := fun _ => Inv now l').
    + unfold adopt_pending. eapply t_bind; [apply t_get_agent|]. intros b0.
      eapply t_bind with (R := fun _ => Inv now l'); [intros x [(H1 & H2 & H3) ->]; by split_and!|]. intros [].
      destruct (bool_decide _); [|by intros x]. apply (t_fold (fun _ => Inv now l')). intros w [] _.
      destruct (_ && _); [apply t_adopt|by intros x].
    + intros []. apply (t_fold (fun _ => Inv now l')). intros w q Hw. by apply t_one_workload, Hws.
  - intros s' (_ & l' & Hl' & HI' & _). by eapply Inv_weaken.
Qed.

(** The loop over the tracked runners looks at each record as it is: an iteration changes
    its own runner's only. *)
Lemma t_one_tracked now l p r rs :
  tr_runnerID r ∉ tr_runnerID <$> rs ->
  triple (fun s => Inv now l s /\ forall x, x ∈ r :: rs -> ag_runners (st_agent s) !! tr_runnerID x = Some x)
    (one_tracked now p r) (fun _ s => Inv now l s /\ forall x, x ∈ rs -> ag_runners (st_agent s) !! tr_runnerID x = Some x).
Proof.
  intros Hnew. assert (Hne : forall x, x ∈ rs -> tr_runnerID r <> tr_runnerID x).
  { intros x Hx E. apply Hnew. rewrite E. by apply list_elem_of_fmap_2. }
  assert (Hdone : forall q, triple (fun s => Inv now l s /\ forall x, x ∈ r :: rs -> ag_runners (st_agent s) !! tr_runnerID x = Some x)
    (mret q) (fun (_ : pass) s => Inv now l s /\ forall x, x ∈ rs -> ag_runners (st_agent s) !! tr_runnerID x = Some x)).
  { intros q s [HI Hrs]. split; [done|]. intros x Hx. apply Hrs. by right. }
  unfold one_tracked. destruct (tr_hostRemoved r); [destruct (bool_decide _); apply Hdone|].
  destruct (_ || _); [apply Hdone|]. destruct (_ <? _); [apply Hdone|].
  destruct (tr_terminal r) eqn:Et.
  - destruct (tr_reported r); [|apply Hdone]. intros s [(H1 & H2 & H3) Hrs]. split.
    + split_and!; cbn; [done| |done]. by apply (sound_delete (set_orphans _ _)).
    + intros x Hx. cbn. rewrite lookup_delete_ne by by apply Hne. apply Hrs. by right.
  - intros s [(H1 & H2 & H3) Hrs]. assert (Hr := Hrs r ltac:(by left)). split.
    + split_and!; cbn; [done| |done]. apply sound_alter; [done|]. intros r'. rewrite Hr. intros [= <-] [O1 O2 O3 O4].
      split; cbn; [done|by exists RunnerRemoved| |done]. intros Hrep. destruct (O3 Hrep). congruence.
    + intros x Hx. cbn. rewrite lookup_alter_ne by by apply Hne. apply Hrs. by right.
Qed.

Lemma t_tracked_loop now l rs : NoDup (tr_runnerID <$> rs) -> forall p,
  triple (fun s => Inv now l s /\ forall x, x ∈ rs -> ag_runners (st_agent s) !! tr_runnerID x = Some x)
    (foldM (one_tracked now) p rs) (fun _ => Inv now l).
Proof.
  induction rs as [|r rs IH]; intros Hn p; [by intros s [? _]|]. cbn [foldM]. cbn in Hn. apply NoDup_cons in Hn as [Hr Hn].
  eapply t_bind; [by apply t_one_tracked|]. intros q. by apply IH.
Qed.

Lemma tracked_records a :
  sound told a ->
  NoDup (tr_runnerID <$> (map_to_list (ag_runners a)).*2) /\
  (forall x, x ∈ (map_to_list (ag_runners a)).*2 -> ag_runners a !! tr_runnerID x = Some x).
Proof.
  intros Hs. assert (E : tr_runnerID <$> (map_to_list (ag_runners a)).*2 = (map_to_list (ag_runners a)).*1).
  { rewrite <- list_fmap_compose. apply list_fmap_ext. intros i [id r] Hi.
    apply list_elem_of_lookup_2, elem_of_map_to_list in Hi. cbn. by apply (to_key _ _ _ (Hs _ _ Hi)). }
  split; [rewrite E; apply NoDup_fst_map_to_list|]. intros x Hx. apply list_elem_of_fmap in Hx as ([id r] & -> & Hx).
  apply elem_of_map_to_list in Hx. cbn. by rewrite (to_key _ _ _ (Hs _ _ Hx)).
Qed.

(** Every removal of a pass is made for a reason, and the pass leaves the records sound. *)
Lemma t_ReconcileOnce s :
  sound told (st_agent s) -> st_calls s = [] ->
  let '(_, s') := ReconcileOnce s in
  sound told (st_agent s') /\ all_justified told (fst (host_now (st_world s))) (st_calls s').
Proof.
  intros Hs Hc. unfold ReconcileOnce. unfold mbind at 1, M_bind at 1, ask. destruct (host_now (st_world s)) as [now w]. cbn [fst].
  set (s1 := {| st_agent := st_agent s; st_world := w; st_calls := st_calls s |}).
  assert (HI : Inv now [] s1).
  { split_and!; [|done|apply prefix_nil]. cbn. rewrite Hc. apply traced_nil. }
  generalize s1 HI. clear. intros s HI.
  enough (Ht : triple (Inv now []) (a ← get_agent;
      p ← foldM (one_backend now) {| ps_reports := []; ps_errs := []; ps_seen := ∅; ps_unlisted := ∅ |}
            (SortStableFunc strings_Compare (Registry_Kinds (ag_Backends a)));
      rs ← trackedRunners; p ← foldM (one_tracked now) p rs; mret (ps_reports p, errors_Join (ps_errs p))) (fun _ => Inv now [])).
  { specialize (Ht s HI). unfold mbind, M_bind in *. destruct (get_agent s). destruct (foldM (one_backend now) _ _ _) as [p s2].
    destruct (trackedRunners s2) as [rs s3]. destruct (foldM (one_tracked now) p rs s3). by destruct Ht as (? & ? & _). }
  eapply t_bind with (R := fun _ => Inv now []); [by intros x|]. intros a. cbv zeta.
  eapply t_bind with (R := fun _ => Inv now []); [apply (t_fold (fun _ => Inv now [])); intros; apply t_one_backend|]. intros p.
  intros x HI'. destruct (tracked_records (st_agent x) (proj1 (proj2 HI'))) as [Hn Hr].
  unfold trackedRunners. unfold mbind, M_bind, get_agent, mret, M_ret.
  assert (Hl := t_tracked_loop now [] _ Hn p x (conj HI' Hr)).
  destruct (foldM (one_tracked now) p _ x). exact Hl.
Qed.
End deletes.

(** ** How an end is read *)
(** A runner is said to have failed exactly when its process is known to have ended with
    a code other than zero and nobody asked it to stop; every other end, the normal one
    above all, is "removed".  A failure always has a fault, of a kind the store knows, and
    out of memory is blamed exactly when the daemon said so, or for a kill the daemon was
    not asked about. *)
Theorem terminal_outcome_is_fair r s state msg fault :
  terminalOutcome r s = (state, msg, fault) ->
  let known := s_Phase s <> PhaseExitUnknown in
  let failed := known /\ s_ExitCode s <> 0 /\ tr_stopping r = false in
  (state = RunnerFailed <-> failed) /\ (state = RunnerRemoved <-> ~ failed) /\
  (state = RunnerFailed -> FaultKind_Valid fault = true) /\ (fault <> "" -> FaultKind_Valid fault = true) /\
  (fault = FaultOutOfMemory <->
   (known /\ s_ExitCode s = 0 /\ s_OOMKilled s = true) \/
   (failed /\ (s_OOMKilled s = true \/ (s_ExitCode s = 137 /\ s_OOMReported s = false)))).
Proof.
  unfold terminalOutcome, exitFault. cbv zeta. intros Ho.
  destruct (bool_decide (s_Phase s = PhaseExitUnknown)) eqn:Ep; bool_to_prop.
  { simplify_eq. split_and!; try done; naive_solver. }
  destruct (Z.eqb_spec (s_ExitCode s) 0) as [E0|E0]; cbn [andb] in Ho.
  { destruct (s_OOMKilled s); [destruct (s_SidecarOOMKilled s)|]; simplify_eq; split_and!; try done; try tauto; naive_solver. }
  destruct (tr_stopping r) eqn:Es; [simplify_eq; split_and!; try done; naive_solver|].
  destruct (Z.eqb_spec (s_ExitCode s) 137) as [E137|E137]; cbn [andb] in Ho.
  - destruct (s_OOMReported s), (s_OOMKilled s); cbn [andb negb] in Ho; simplify_eq; split_and!; try done; naive_solver.
  - destruct (s_OOMKilled s); simplify_eq; [split_and!; try done; naive_solver|].
    repeat match goal with |- context [if ?b then _ else _] => destruct b end; split_and!; try done; naive_solver.
Qed.

(** ** What a pass leaves alone *)
Create HintDb agent.

Section untouching.
Context {W : Type} {H : Host W}.
Implicit Types (s : st W).

(** An operation that leaves every runner's record and the registry as they are. *)
Definition untouching {A} (m : M W A) : Prop :=
  forall s, ag_runners (st_agent (m s).2) = ag_runners (st_agent s) /\ ag_Backends (st_agent (m s).2) = ag_Backends (st_agent s).

Lemma quiet_ret {A} (a : A) : untouching (mret a).
Proof. by intros s. Qed.
Lemma quiet_bind {A B} (m : M W A) (f : A -> M W B) : untouching m -> (forall a, untouching (f a)) -> untouching (m ≫= f).
Proof.
  intros Hm Hf s. unfold mbind, M_bind. specialize (Hm s). destruct (m s) as [a s']. cbn in Hm. specialize (Hf a s').
  destruct Hm, Hf. split; congruence.
Qed.
Lemma quiet_get : untouching get_agent.
Proof. by intros s. Qed.
Lemma quiet_ask {A} (f : W -> A * W) : untouching (ask f).
Proof. intros s. unfold ask. by destruct (f (st_world s)). Qed.
Lemma quiet_note c : untouching (note c).
Proof. by intros s. Qed.
Lemma quiet_if {A} (b : bool) (m m' : M W A) : untouching m -> untouching m' -> untouching (if b then m else m').
Proof. by destruct b. Qed.
#[local] Hint Resolve quiet_ret quiet_bind quiet_get quiet_ask quiet_note quiet_if : agent.

Lemma quiet_List k : untouching (List_ k).
Proof. unfold List_. auto 6 with agent. Qed.
Lemma quiet_Remove k h : untouching (Remove k h).
Proof. unfold Remove. auto with agent. Qed.
Lemma quiet_claim id : untouching (agent_claim id).
Proof. intros s. unfold agent_claim, mbind, M_bind, get_agent, put_agent, mret, M_ret. by destruct (claim _ _). Qed.
Lemma quiet_release id : untouching (agent_release id).
Proof. intros s. unfold agent_release, mbind, M_bind, get_agent, put_agent, mret, M_ret. by destruct (release _ _) as [[]]. Qed.
Lemma quiet_removalPending key err t : untouching (removalPending key err t).
Proof. intros s. unfold removalPending, mbind, M_bind, get_agent, put_agent, mret, M_ret. by destruct (negb _). Qed.
Lemma quiet_markOrphan h t : untouching (markOrphan h t).
Proof. intros s. unfold markOrphan, mbind, M_bind, get_agent, put_agent, mret, M_ret. by destruct (_ !! _). Qed.
Lemma quiet_forgetOrphan h : untouching (forgetOrphan h).
Proof. by intros s. Qed.
#[local] Hint Resolve quiet_List quiet_Remove quiet_claim quiet_release quiet_removalPending quiet_markOrphan quiet_forgetOrphan : agent.

Lemma quiet_companions k id ws : untouching (remove_companions k id ws).
Proof.
  induction ws as [|w ws IH]; cbn; [auto with agent|]. do 2 (apply quiet_if; auto with agent).
  apply quiet_bind; [auto with agent|]. intros err. destruct (not_gone err); auto with agent.
Qed.
#[local] Hint Resolve quiet_companions : agent.
Lemma quiet_removeRunnerWorkload k id h : untouching (removeRunnerWorkload k id h).
Proof.
  unfold removeRunnerWorkload. apply quiet_bind; [auto with agent|]. intros err. destruct (not_gone err); [auto with agent|].
  apply quiet_bind; [auto with agent|]. intros []; auto with agent.
Qed.
#[local] Hint Resolve quiet_removeRunnerWorkload : agent.
Lemma quiet_reap k w t : untouching (reap_unclaimed k w t).
Proof.
  unfold reap_unclaimed. apply quiet_bind; [auto with agent|]. intros first. apply quiet_if; [auto with agent|].
  apply quiet_bind; [auto with agent|]. intros cancelled. apply quiet_if; [auto with agent|].
  apply quiet_bind; [auto with agent|]. intros err. cbv zeta. apply quiet_bind; [auto with agent|]. intros p.
  apply quiet_if; [auto with agent|].
  assert (Hend : untouching (match not_gone err with
     | Some _ => mret None
     | None => _ ← forgetOrphan (w_Handle w);
         if str_eqb (w_RunnerID w) "" || w_Sidecar w then mret None
         else mret (Some (gone_report (w_RunnerID w) (Some RunnerRemoved) (w_Handle w)
                            ("removed orphaned " +:+ k +:+ " workload " +:+ w_Name w +:+ " that no task claimed") t))
     end)) by (destruct (not_gone err); auto with agent).
  destruct err as [e|]; [destruct (Time_IsZero _)|]; auto with agent.
Qed.
#[local] Hint Resolve quiet_reap : agent.
Lemma quiet_reapOrphan k w t : untouching (reapOrphan k w t).
Proof.
  unfold reapOrphan. apply quiet_bind; [auto with agent|]. intros a. repeat (apply quiet_if; [auto with agent|]).
  apply quiet_bind; [auto with agent|]. intros claimed. apply quiet_if; [auto with agent|]. auto 6 with agent.
Qed.
Lemma quiet_tailOf k h : untouching (tailOf k h).
Proof. unfold tailOf. apply quiet_bind; [auto with agent|]. intros [[text failed]|]; cbv zeta; auto with agent. Qed.
End untouching.
#[export] Hint Resolve quiet_ret quiet_bind quiet_get quiet_ask quiet_note quiet_if quiet_List quiet_Remove quiet_claim
  quiet_release quiet_removalPending quiet_markOrphan quiet_forgetOrphan quiet_removeRunnerWorkload quiet_reapOrphan quiet_tailOf : agent.

Section unlisted.
Context {W : Type} {H : Host W}.
Implicit Types (s : st W).

Definition returns {A} (m : M W A) (Q : A -> Prop) : Prop := forall s, Q (m s).1.
Lemma returns_ret {A} (a : A) (Q : A -> Prop) : Q a -> returns (mret a) Q.
Proof. by intros Ha s. Qed.
Lemma returns_bind {A B} (m : M W A) (f : A -> M W B) Q : (forall a, returns (f a) Q) -> returns (m ≫= f) Q.
Proof. intros Hf s. unfold mbind, M_bind. destruct (m s). apply Hf. Qed.
Lemma returns_if {A} (b : bool) (m m' : M W A) Q : returns m Q -> returns m' Q -> returns (if b then m else m') Q.
Proof. by destruct b. Qed.

(** A report is about the runner it names. *)
Definition about (id : string) (rep : option RunnerReport) : Prop := forall x, rep = Some x -> rp_RunnerID x = id.

Lemma about_none id : about id None.
Proof. done. Qed.
Lemma about_some id x : rp_RunnerID x = id -> about id (Some x).
Proof. by intros Hx y [= <-]. Qed.
#[local] Hint Resolve returns_ret returns_bind returns_if about_none about_some : agent.
#[local] Hint Extern 1 (rp_RunnerID _ = _) => reflexivity : agent.

Lemma reapOrphan_about k w t : returns (reapOrphan k w t) (about (w_RunnerID w)).
Proof.
  assert (Hr : returns (reap_unclaimed k w t) (about (w_RunnerID w))).
  { unfold reap_unclaimed. apply returns_bind. intros first. apply returns_if; [auto with agent|]. apply returns_bind. intros c.
    apply returns_if; [auto with agent|]. apply returns_bind. intros err. cbv zeta. apply returns_bind. intros p.
    apply returns_if; [auto with agent|]. destruct err as [e|]; [destruct (Time_IsZero _)|];
      repeat first [apply returns_if | apply returns_bind; intros ? | apply returns_ret | case_match]; auto with agent. }
  unfold reapOrphan. apply returns_bind. intros a. do 3 (apply returns_if; [auto with agent|]).
  apply returns_bind. intros []; cbn [negb]; [|auto with agent].
  intros s. unfold mbind, M_bind. specialize (Hr s). destruct (reap_unclaimed k w t s) as [rep s']. by destruct (agent_release _ s').
Qed.

Lemma cleanUp_about k r w t : returns (cleanUp k r w t) (about (tr_runnerID r)).
Proof.
  assert (Hr : returns (remove_finished k r w t) (about (tr_runnerID r))).
  { unfold remove_finished. apply returns_bind. intros [e|]; repeat (apply returns_bind; intros ?).
    - apply returns_if; auto with agent.
    - auto with agent. }
  unfold cleanUp. apply returns_bind. intros a. do 2 (apply returns_if; [auto with agent|]). apply returns_bind. intros c.
  apply returns_if; [auto with agent|]. apply returns_bind. intros []; cbn [negb]; [|auto with agent].
  intros s. unfold mbind, M_bind. specialize (Hr s). destruct (remove_finished k r w t s) as [rep s']. by destruct (agent_release _ s').
Qed.

Lemma observe_about k r w t : returns (observe k r w t) (about (tr_runnerID r)).
Proof.
  unfold observe. cbv zeta. apply returns_if; [auto with agent|]. apply returns_if.
  - apply returns_if; [apply cleanUp_about|]. destruct (terminalOutcome _ _) as [[state msg] fault].
    repeat (apply returns_bind; intros ?). auto with agent.
  - apply returns_bind. intros ?. auto with agent.
Qed.

Context (id : string) (r : tracked) (reg : Registry).

(** The record of [id] is [r], and every record is under its own name. *)
Definition stays s : Prop :=
  (forall i x, ag_runners (st_agent s) !! i = Some x -> tr_runnerID x = i) /\
  ag_runners (st_agent s) !! id = Some r /\ ag_Backends (st_agent s) = reg.

Lemma stays_quiet {A} (m : M W A) : untouching m -> triple stays m (fun _ => stays).
Proof. intros Hm s (H1 & H2 & H3). specialize (Hm s). destruct (m s) as [a s']. destruct Hm as [E1 E2]. cbn in *. unfold stays. by rewrite E1, E2. Qed.

Lemma stays_alter i f : i <> id -> (forall x, tr_runnerID (f x) = tr_runnerID x) -> triple stays (alter_runner i f) (fun _ => stays).
Proof.
  intros Hi Hf s (H1 & H2 & H3). split_and!; cbn; [|by rewrite lookup_alter_ne|done].
  intros j x. rewrite lookup_alter_Some. intros [(<- & y & Hy & ->)|[_ Hx]]; [|by apply H1]. rewrite Hf. by apply H1.
Qed.

Lemma stays_cleanUp k x w t : tr_runnerID x <> id -> triple stays (cleanUp k x w t) (fun _ => stays).
Proof.
  intros Hx. unfold cleanUp. eapply t_bind; [apply stays_quiet; auto with agent|]. intros a.
  destruct (ag_mutationsPaused a); [by intros s|]. destruct (_ || _); [by intros s|].
  eapply t_bind; [apply stays_quiet; auto with agent|]. intros []; [by intros s|].
  eapply t_bind; [apply stays_quiet; auto with agent|]. intros []; [cbn|by intros s].
  eapply t_bind with (R := fun _ => stays).
  - unfold remove_finished. eapply t_bind; [apply stays_quiet; auto with agent|]. intros [e|].
    + eapply t_bind; [apply stays_quiet; auto with agent|]. intros [since []]; by intros s.
    + eapply t_bind; [apply stays_quiet; auto with agent|]. intros ?.
      eapply t_bind; [by apply stays_alter|]. intros []. by intros s.
  - intros rep. apply stays_quiet. auto with agent.
Qed.

Lemma stays_observe k x w t : tr_runnerID x <> id -> triple stays (observe k x w t) (fun _ => stays).
Proof.
  intros Hx. unfold observe. cbv zeta. destruct (tr_hostRemoved x); [by intros s|]. destruct (stopped _).
  - destruct (tr_terminal x); [by apply stays_cleanUp|]. destruct (terminalOutcome _ _) as [[state msg] fault].
    eapply t_bind; [by apply stays_alter|]. intros []. eapply t_bind with (R := fun _ => stays); [|intros ?; by intros s].
    destruct (_ || _); [|by intros s]. eapply t_bind; [apply stays_quiet; auto with agent|]. intros tail.
    eapply t_bind; [by apply stays_alter|]. intros []. by intros s.
  - eapply t_bind; [by apply stays_alter|]. intros []. by intros s.
Qed.

Lemma stays_adopt k w : w_RunnerID w <> id -> triple stays (adopt (w_RunnerID w) k w) (fun _ => stays).
Proof.
  intros Hw. unfold adopt. eapply t_bind; [apply stays_quiet; auto with agent|]. intros t.
  eapply t_pre; [apply t_modify|]. intros s (H1 & H2 & H3). cbn. destruct (ag_runners (st_agent s) !! w_RunnerID w); [done|].
  split_and!; cbn; [|by rewrite lookup_insert_ne|done]. intros i x. rewrite lookup_insert_Some. intros [[<- <-]|[_ Hx]]; [done|by apply H1].
Qed.

(** So far the pass has nothing new to say of [id]: no more than that its workload was
    removed, where the record says so already. *)
Definition nothing_new (reports : list RunnerReport) : Prop :=
  forall x, x ∈ reports -> rp_RunnerID x = id -> tr_hostRemoved r = true /\ x = report r.
Definition silent (p : pass) s : Prop := stays s /\ nothing_new (ps_reports p) /\ id ∉ ps_seen p.

Lemma silent_add i rep p s : i <> id -> about i rep -> silent p s -> silent (add_report rep p) s.
Proof.
  intros Hi Hrep (Hs & Hr & Hn). split_and!; [done| |done]. intros x. cbn. rewrite elem_of_app. intros [Hx|Hx]; [by apply Hr|].
  destruct rep as [y|]; cbn in Hx; [|by apply elem_of_nil in Hx]. apply list_elem_of_singleton in Hx as ->.
  intros Hy. rewrite (Hrep y) in Hy by done. congruence.
Qed.

(** A step whose report is about another runner. *)
Lemma silent_report (m : M W (option RunnerReport)) (f : pass -> pass) i p :
  i <> id -> triple stays m (fun _ => stays) -> returns m (about i) ->
  (forall s, silent p s -> silent (f p) s) ->
  triple (silent p) (rep ← m; mret (add_report rep (f p))) (fun p' => silent p').
Proof.
  intros Hi Hm Hret Hf s Hsil. specialize (Hm s (proj1 Hsil)). specialize (Hret s). unfold mbind, M_bind.
  destruct (m s) as [rep s'] eqn:E. cbn in Hret. apply (silent_add i); [done|done|]. apply Hf. by destruct Hsil as (_ & ? & ?).
Qed.

Lemma silent_workload k t p w : w_RunnerID w <> id -> triple (silent p) (one_workload k t p w) silent.
Proof.
  intros Hw. unfold one_workload. destruct (w_Sidecar w).
  { apply (silent_report _ (fun p => p) (w_RunnerID w)); [done|apply stays_quiet; auto with agent|apply reapOrphan_about|done]. }
  intros s Hs. unfold mbind at 1, M_bind at 1, snapshot. unfold mbind at 1, M_bind at 1, get_agent, mret at 1, M_ret at 1.
  destruct (ag_runners (st_agent s) !! w_RunnerID w) as [x|] eqn:Ex.
  - assert (Hx : tr_runnerID x = w_RunnerID w) by by apply Hs.
    revert s Hs Ex. enough (Ht : triple (silent p) (_ ← forgetOrphan (w_Handle w); rep ← observe k x w t;
       mret (add_report rep (add_seen (w_RunnerID w) p))) silent) by (intros s Hs _; exact (Ht s Hs)).
    eapply t_bind with (R := fun _ => silent p).
    { intros s (Hs & ? & ?). by split_and!. }
    intros []. apply (silent_report _ (add_seen (w_RunnerID w)) (w_RunnerID w)); [done| | |].
    + apply stays_observe. congruence.
    + rewrite <- Hx. apply observe_about.
    + intros s (? & ? & ?). split_and!; [done..|]. cbn. set_solver.
  - exact (silent_report _ (fun p => p) _ p Hw (stays_quiet _ (quiet_reapOrphan k w t)) (reapOrphan_about k w t) (fun _ Hs => Hs) s Hs).
Qed.

Context (Hdown : forall w, exists e, (host_List (tr_kind r) w).1 = inr e).
Context (Hother : forall k w ws x, (host_List k w).1 = inl ws -> x ∈ ws -> w_RunnerID x <> id).

Lemma silent_List k p :
  triple (silent p) (List_ k) (fun ans s => silent p s /\ (k = tr_kind r -> exists e, ans = inr e) /\
                                            forall ws x, ans = inl ws -> x ∈ ws -> w_RunnerID x <> id).
Proof.
  intros s Hs. unfold List_, mbind, M_bind, ask, note, mret, M_ret.
  assert (Hd := Hdown (st_world s)). assert (Ho := Hother k (st_world s)).
  destruct (host_List k (st_world s)) as [ans w] eqn:E. cbn in *. split_and!; [done| |intros ws x ->; by apply Ho].
  intros ->. rewrite E in Hd. exact Hd.
Qed.

Lemma workload_unlisted k t p w : returns (one_workload k t p w) (fun p' => ps_unlisted p' = ps_unlisted p).
Proof.
  unfold one_workload. destruct (w_Sidecar w); [apply returns_bind; intros rep; by apply returns_ret|].
  apply returns_bind. intros [x|]; repeat (apply returns_bind; intros ?); by apply returns_ret.
Qed.

Lemma silent_workloads k t ws p U :
  (forall w, w ∈ ws -> w_RunnerID w <> id) ->
  triple (fun s => silent p s /\ ps_unlisted p = U) (foldM (one_workload k t) p ws) (fun p' s => silent p' s /\ ps_unlisted p' = U).
Proof.
  intros Hws. apply (t_fold (fun p s => silent p s /\ ps_unlisted p = U)). intros w q Hw s [Hs HU].
  assert (H1 := silent_workload k t q w (Hws w Hw) s Hs). assert (H2 := workload_unlisted k t q w s).
  destruct (one_workload k t q w s) as [q' s']. cbn in H2. split; congruence || done.
Qed.

Lemma silent_adopt_pending k ws p :
  (forall w, w ∈ ws -> w_RunnerID w <> id) -> triple (silent p) (adopt_pending k ws) (fun _ => silent p).
Proof.
  intros Hws. assert (Ht : triple stays (adopt_pending k ws) (fun _ => stays)).
  { intros s Hs. unfold adopt_pending. unfold mbind, M_bind, get_agent, put_agent.
    set (s1 := {| st_agent := _; st_world := _; st_calls := _ |}). assert (H1 : stays s1) by exact Hs.
    destruct (bool_decide _); [|exact H1]. revert s1 H1. generalize tt. intros u s1 H1.
    refine (t_fold (fun _ => stays) _ ws _ u s1 H1). intros w [] Hw.
    destruct (_ && _); [by apply stays_adopt, Hws|by intros x]. }
  intros s (Hs & Hr). specialize (Ht s Hs). destruct (adopt_pending k ws s) as [u s']. by split.
Qed.

Lemma silent_backend t p k :
  triple (silent p) (one_backend t p k)
    (fun p' s => silent p' s /\ ps_unlisted p ⊆ ps_unlisted p' /\
                 (k = tr_kind r -> tr_kind r ∈ ps_unlisted p')).
Proof.
  intros s Hs. unfold one_backend. unfold mbind at 1, M_bind at 1, get_agent.
  destruct (Registry_Get (ag_Backends (st_agent s)) k) as [k'|e] eqn:Er.
  2:{ cbn. split_and!; [by destruct Hs as (? & ? & ?); split_and!|set_solver|intros ->; set_solver]. }
  revert s Hs Er. intros s Hs _. revert s Hs.
  enough (Ht : triple (silent p) (answer ← List_ k; match answer with
      | inr e => mret (add_unlisted k (wrapf ("agent: listing " +:+ k +:+ " workloads on this host: ") e) p)
      | inl ws => _ ← adopt_pending k ws; foldM (one_workload k t) p ws end)
    (fun p' s => silent p' s /\ ps_unlisted p ⊆ ps_unlisted p' /\
                 (k = tr_kind r -> tr_kind r ∈ ps_unlisted p'))) by exact Ht.
  eapply t_bind; [apply silent_List|]. intros [ws|e].
  - intros s (Hs & Hdown' & Hws). assert (Hid : forall w, w ∈ ws -> w_RunnerID w <> id) by (intros w; by apply Hws).
    clear Hws. revert s Hs Hdown'.
    enough (Ht : triple (silent p) (_ ← adopt_pending k ws; foldM (one_workload k t) p ws)
              (fun p' s => silent p' s /\ ps_unlisted p' = ps_unlisted p)).
    { intros s Hs Hdown'. specialize (Ht s Hs). destruct ((_ ← adopt_pending k ws; foldM (one_workload k t) p ws) s) as [p' s'].
      destruct Ht as [Ht ->]. split_and!; [done|done|]. intros Hk. by destruct (Hdown' Hk). }
    eapply t_bind; [by apply silent_adopt_pending|]. intros []. eapply t_pre; [by apply silent_workloads|]. done.
  - intros s (Hs & _ & _). cbn. split_and!; [by destruct Hs as (? & ? & ?); split_and!|set_solver|intros ->; set_solver].
Qed.

Lemma silent_backends t kinds : forall p,
  triple (silent p) (foldM (one_backend t) p kinds)
    (fun p' s => silent p' s /\ ps_unlisted p ⊆ ps_unlisted p' /\ (tr_kind r ∈ kinds -> tr_kind r ∈ ps_unlisted p')).
Proof.
  induction kinds as [|k kinds IH]; intros p; cbn [foldM].
  { intros s Hs. split_and!; [done|done|]. by intros ?%elem_of_nil. }
  eapply t_bind; [apply silent_backend|]. intros q s (Hs & Hsub & Hk). specialize (IH q s Hs).
  destruct (foldM (one_backend t) q kinds s) as [p' s']. destruct IH as (Hs' & Hsub' & Hin). split_and!; [done|set_solver|].
  intros [E|Hin']%elem_of_cons; [|by apply Hin]. apply Hsub', Hk. by rewrite E.
Qed.

(** The loop over the tracked runners passes [r] by. *)
Lemma silent_tracked t p x :
  (tr_runnerID x = id -> x = r) ->
  triple (fun s => silent p s /\ tr_kind r ∈ ps_unlisted p) (one_tracked t p x)
    (fun p' s => silent p' s /\ tr_kind r ∈ ps_unlisted p').
Proof.
  intros Hx. destruct (decide (tr_runnerID x = id)) as [E|Hne].
  { rewrite (Hx E) in *. unfold one_tracked. intros s [Hs Hu]. destruct (tr_hostRemoved r) eqn:Erem.
    - destruct (bool_decide _); [by split|]. split; [|done]. destruct Hs as (Hs & Hr & Hn). split_and!; [done| |done].
      intros y. cbn. rewrite elem_of_app. intros [Hy| ->%list_elem_of_singleton]; [by apply Hr|done].
    - rewrite (bool_decide_eq_true_2 (tr_kind r ∈ ps_unlisted p)) by done. by rewrite orb_true_r. }
  assert (Habout : forall rep, rp_RunnerID rep = tr_runnerID x -> triple (fun s => silent p s /\ tr_kind r ∈ ps_unlisted p)
      (mret (add_report (Some rep) p)) (fun p' s => silent p' s /\ tr_kind r ∈ ps_unlisted p')).
  { intros rep Hrep s [Hs Hu]. split; [|done]. apply (silent_add (tr_runnerID x)); [done| |done]. by intros y [= <-]. }
  unfold one_tracked. destruct (tr_hostRemoved x); [destruct (bool_decide _); [by intros s|by apply Habout]|].
  destruct (_ || _); [by intros s|]. destruct (_ <? _); [by intros s|]. destruct (tr_terminal x).
  - destruct (tr_reported x); [|by apply Habout]. eapply t_bind with (R := fun _ s => silent p s /\ tr_kind r ∈ ps_unlisted p); [|intros []; by intros s].
    intros s [((H1 & H2 & H3) & Hr) Hu]. split; [|done]. split; [|done]. split_and!; cbn; [|by rewrite lookup_delete_ne|done].
    intros i y. rewrite lookup_delete_Some. intros [_ Hy]. by apply H1.
  - eapply t_bind with (R := fun _ s => silent p s /\ tr_kind r ∈ ps_unlisted p); [by intros s|]. intros a. cbv zeta.
    eapply t_bind with (R := fun _ s => silent p s /\ tr_kind r ∈ ps_unlisted p); [|intros []; by apply Habout].
    intros s [[Hs Hr] Hu]. split; [|done]. split; [|done]. by apply (stays_alter (tr_runnerID x)).
Qed.

Lemma silent_pass s :
  stays s -> is_Some (reg_backends reg !! tr_kind r) ->
  let '((reports, err), s') := ReconcileOnce s in
  ag_runners (st_agent s') !! id = Some r /\ nothing_new reports.
Proof.
  intros Hs [[] Hreg]. unfold ReconcileOnce. unfold mbind at 1, M_bind at 1, ask. destruct (host_now (st_world s)) as [now w].
  unfold mbind at 1, M_bind at 1, get_agent. cbn [st_agent].
  set (s1 := {| st_agent := st_agent s; st_world := w; st_calls := st_calls s |}). set (p0 := {| ps_reports := []; ps_errs := []; ps_seen := ∅; ps_unlisted := ∅ |}).
  assert (Hs1 : silent p0 s1) by (split_and!; [apply Hs..|intros x; cbn; by intros ?%elem_of_nil|done]).
  assert (Hin : tr_kind r ∈ SortStableFunc strings_Compare (Registry_Kinds (ag_Backends (st_agent s)))).
  { rewrite (proj2 (proj2 Hs)). rewrite sort_elem_of. unfold Registry_Kinds. apply list_elem_of_fmap. exists (tr_kind r, tt).
    split; [done|]. by apply elem_of_map_to_list. }
  unfold mbind at 1, M_bind at 1.
  assert (Hb := silent_backends now (SortStableFunc strings_Compare (Registry_Kinds (ag_Backends (st_agent s)))) p0 s1 Hs1).
  destruct (foldM (one_backend now) p0 _ s1) as [p s2]. destruct Hb as (Hs2 & _ & Hu). specialize (Hu Hin).
  unfold trackedRunners. unfold mbind, M_bind, get_agent, mret, M_ret.
  assert (Hl := t_fold (fun p s => silent p s /\ tr_kind r ∈ ps_unlisted p) (one_tracked now) (map_to_list (ag_runners (st_agent s2))).*2).
  specialize (Hl ltac:(intros x q Hx; apply silent_tracked; intros E; apply list_elem_of_fmap in Hx as ([i y] & -> & Hx);
    apply elem_of_map_to_list in Hx; cbn in *; destruct Hs2 as ((H1 & H2 & _) & _); rewrite (H1 _ _ Hx) in E; congruence) p s2 (conj Hs2 Hu)).
  destruct (foldM (one_tracked now) p _ s2) as [q s3]. cbn. destruct Hl as [((H1 & H2 & _) & Hr & _) _]. by split.
Qed.
End unlisted.

(** C13: A backend that does not answer says nothing about the runners on it.  For a runner
    of a registered backend that cannot be listed, and which no other backend lists a
    workload of, a pass leaves the record as it was -- however old the runner is, and
    whatever else the pass finds -- and reports nothing of the runner, unless the record
    says already that its workload was removed from the host: then the only report of it
    is that record again.  So a daemon that is restarting never fails a job. *)
Theorem unlisted_backend_says_nothing {W} `{Host W} (s : st W) id r :
  (forall i x, ag_runners (st_agent s) !! i = Some x -> tr_runnerID x = i) ->
  ag_runners (st_agent s) !! id = Some r ->
  is_Some (reg_backends (ag_Backends (st_agent s)) !! tr_kind r) ->
  (forall w, exists e, (host_List (tr_kind r) w).1 = inr e) ->
  (forall k w ws x, (host_List k w).1 = inl ws -> x ∈ ws -> w_RunnerID x <> id) ->
  let '((reports, _), s') := ReconcileOnce s in
  ag_runners (st_agent s') !! id = Some r /\
  (forall x, x ∈ reports -> rp_RunnerID x = id -> tr_hostRemoved r = true /\ x = report r).
Proof.
  intros Hkey Hr Hreg Hdown Hother. assert (Hs : stays id r (ag_Backends (st_agent s)) s) by by split_and!.
  exact (silent_pass id r _ Hdown Hother s Hs Hreg).
Qed.
