(* ===== verification/AgentTasks.v ===== *)
(** * What the agent does with a task (agent/daemon.go)

    The handlers of the three tasks that name a runner, with the claim they are run under
    already held: [handleCreate], [handleStop] and [handleRemove].  Delivery is at least
    once, so each is written to be sent again.  A handler gives what it reports, or nothing
    where it leaves the task to be redelivered; every one of them gives its claim up before
    it reports.  The cooldown of a failing runtime and the throttle are not part of it. *)
From Stdlib Require Import ZArith Lia Ascii String.
From stdpp Require Import base strings list gmap sets.
From S2P Require Import Prelude GoString GoText Store Backend Claims Agent.
Local Open Scope string_scope.
Local Open Scope list_scope.
Local Open Scope Z_scope.

Record TaskResult := {
  rs_TaskID : string;
  rs_Kind : TaskKind;
  rs_RunnerID : string;
  rs_OK : bool;
  rs_NotStarted : bool;
  rs_CleanupPending : bool;
  rs_Handle : Handle;
  rs_Error : string;
  rs_State : option RunnerState;
  rs_Fault : FaultKind;
  rs_CompletedAt : Time
}.

Definition createBusyRetries : nat := 3.
Definition createBusyBackoff : Duration := 10 * Second.
Definition DefaultStopTimeout : Duration := 5 * Minute.
Definition resolveRetryDelays : list Duration := [2 * Second; 5 * Second; 10 * Second].

Section tasks.
Context {W : Type} {H : Host W}.
Abbreviation M := (M W).

Definition task_answer (task : Task) (ok : bool) (h : Handle) (text : string) (state : option RunnerState) (fault : FaultKind) (now : Time) : TaskResult :=
  {| rs_TaskID := t_ID task; rs_Kind := t_Kind task; rs_RunnerID := t_RunnerID task; rs_OK := ok; rs_NotStarted := false;
     rs_CleanupPending := false; rs_Handle := h; rs_Error := text; rs_State := state; rs_Fault := fault; rs_CompletedAt := now |}.

Definition reportFailure (task : Task) (msg : string) (fault : FaultKind) : M (option TaskResult) :=
  now ← ask host_now; mret (Some (task_answer task false "" msg (Some RunnerFailed) fault now)).

Definition reportNotStarted (task : Task) : M (option TaskResult) :=
  now ← ask host_now;
  mret (Some {| rs_TaskID := t_ID task; rs_Kind := t_Kind task; rs_RunnerID := t_RunnerID task; rs_OK := false; rs_NotStarted := true;
                rs_CleanupPending := false; rs_Handle := "";
                rs_Error := "agent shut down before this task started; it is safe to redeliver"; rs_State := None; rs_Fault := "";
                rs_CompletedAt := now |}).

Definition reportUnsearchable (task : Task) (e : error) : M (option TaskResult) :=
  now ← ask host_now;
  mret (Some (task_answer task false ""
    ("could not tell whether runner " +:+ t_RunnerID task +:+ " is still on this host because its backend would not answer, so nothing was changed: " +:+ err_text e)
    None FaultBackend now)).

(** ** Finding a runner

    The backends in order, with the errors of those that would not answer. *)
Fixpoint search (runnerID : string) (kinds : list BackendKind) (errs : list error) : M (option (BackendKind * Handle) * option error) :=
  match kinds with
  | [] => mret (None, errors_Join errs)
  | k :: kinds' =>
      a ← get_agent;
      match Registry_Get (ag_Backends a) k with
      | inr e => search runnerID kinds' (errs ++ [e])
      | inl _ =>
          listed ← List_ k;
          match listed with
          | inr e => search runnerID kinds' (errs ++ [wrapf ("listing " +:+ k +:+ " workloads: ") e])
          | inl ws =>
              match List.find (fun w => str_eqb (w_RunnerID w) runnerID && negb (w_Sidecar w)) ws with
              | Some w => _ ← adopt runnerID k w; mret (Some (k, w_Handle w), None)
              | None => search runnerID kinds' errs
              end
          end
      end
  end.

Definition resolve (runnerID : string) : M (option (BackendKind * Handle) * option error) :=
  a ← get_agent;
  let kinds := SortStableFunc strings_Compare (Registry_Kinds (ag_Backends a)) in
  match ag_runners a !! runnerID with
  | Some r => match Registry_Get (ag_Backends a) (tr_kind r) with
              | inl k => mret (Some (k, tr_handle r), None)
              | inr _ => search runnerID kinds []
              end
  | None => search runnerID kinds []
  end.

(** The delays left to wait between attempts. *)
Fixpoint resolve_retry (runnerID : string) (delays : list Duration) : M (option (BackendKind * Handle) * option error) :=
  res ← resolve runnerID;
  match res.2, delays with
  | Some _, d :: delays' =>
      slept ← ask (host_sleep d);
      if negb slept then mret res else resolve_retry runnerID delays'
  | _, _ => mret res
  end.
Definition resolveForCreate (runnerID : string) : M (option (BackendKind * Handle) * option error) := resolve_retry runnerID resolveRetryDelays.

(** ** Creating a runner *)
(** A limit that is set has been reached. *)
Definition passed (limit : Time) : M bool :=
  if Time_IsZero limit then mret false else now ← ask host_now; mret (negb (Time_Before now limit)).

(** What the loop of attempts ends with: the deadline passed, or the backend's answer. *)
Fixpoint create_attempts (kind : BackendKind) (spec : Spec) (retry left : nat) : M (option (Handle + error)) :=
  late ← passed (sp_StartBefore spec);
  if late : bool then mret None
  else stale ← passed (cr_ExpiresAt (sp_Credentials spec));
  if stale : bool then mret None
  else
    created ← Create kind spec;
    match created, left with
    | inr e, S left' =>
        if negb (str_eqb (Fault (Some e)) FaultBackendBusy) then mret (Some created)
        else slept ← ask (host_sleep (createBusyBackoff * 2 ^ Z.of_nat retry));
             if negb slept then mret (Some created) else create_attempts kind spec (S retry) left'
    | _, _ => mret (Some created)
    end.

Definition created_runner (task : Task) (spec : Spec) (kind : BackendKind) (h : Handle) (now : Time) : tracked :=
  {| tr_runnerID := t_RunnerID task; tr_name := sp_Name spec; tr_kind := kind; tr_handle := h; tr_ephemeral := sp_Ephemeral spec;
     tr_createdAt := now; tr_stopping := false; tr_terminal := false; tr_hostRemoved := false; tr_terminalAt := 0; tr_reported := false;
     tr_outputTail := []; tr_state := Some RunnerRegistering; tr_phase := PhaseStarting; tr_exitCode := 0; tr_message := "";
     tr_observedAt := now; tr_fault := "" |}.

Definition kindList (kinds : list BackendKind) : string := strings_Join kinds ", ".

Definition with_runner_id (spec : Spec) (id : string) : Spec :=
  {| sp_StartBefore := sp_StartBefore spec; sp_Name := sp_Name spec;
     sp_RunnerID := if str_eqb (sp_RunnerID spec) "" then id else sp_RunnerID spec; sp_PoolID := sp_PoolID spec;
     sp_Image := sp_Image spec; sp_PullPolicy := sp_PullPolicy spec; sp_Credentials := sp_Credentials spec;
     sp_Ephemeral := sp_Ephemeral spec; sp_DockerMode := sp_DockerMode spec |}.

(** The task's spec, which [validateTask] has seen to be there. *)
Definition handleCreate (task : Task) (spec : Spec) : M (option TaskResult) :=
  let release := agent_release (t_RunnerID task) in
  a ← get_agent;
  let kind := if str_eqb (t_Backend task) "" then ag_DefaultBackend a else t_Backend task in
  match Registry_Get (ag_Backends a) kind with
  | inr e =>
      _ ← release;
      reportFailure task ("this host has no " +:+ kind +:+ " backend (registered: " +:+ kindList (Registry_Kinds (ag_Backends a)) +:+
        "); point the pool at a backend this host runs, or set agent.backend: " +:+ err_text e) FaultConfig
  | inl _ =>
      let spec := with_runner_id spec (t_RunnerID task) in
      res ← resolveForCreate (t_RunnerID task);
      match res with
      | (_, Some e) =>
          _ ← release;
          if t_Attempt task =? 1
          then reportFailure task ("this host could not ask its " +:+ kind +:+ " backend whether runner " +:+ sp_Name spec +:+
                 " already exists, so nothing was created; check that the daemon is running and answering: " +:+ err_text e) FaultBackend
          else mret None
      | (Some (_, h), None) =>
          a ← get_agent;
          let state := match ag_runners a !! t_RunnerID task with
                       | Some r => match tr_state r with Some s => s | None => RunnerRegistering end
                       | None => RunnerRegistering
                       end in
          _ ← release;
          now ← ask host_now;
          mret (Some (task_answer task true h "" (Some state) "" now))
      | (None, None) =>
          created ← create_attempts kind spec 0 createBusyRetries;
          match created with
          | None =>
              _ ← release;
              reportFailure task "the runner's provisioning deadline or registration credential expired while waiting to start; nothing was created and queued demand will be retried with fresh credentials" FaultRegistration
          | Some (inr e) =>
              _ ← release;
              reportFailure task ("the " +:+ kind +:+ " backend could not create runner " +:+ sp_Name spec +:+ ": " +:+ err_text e) (Fault (Some e))
          | Some (inl h) =>
              now ← ask host_now;
              _ ← modify (fun a => set_orphans (set_runners a (<[t_RunnerID task := created_runner task spec kind h now]> (ag_runners a)))
                                               (delete h (ag_orphans a)));
              _ ← release;
              mret (Some (task_answer task true h "" (Some RunnerRegistering) "" now))
          end
      end
  end.

(** ** Stopping one *)
Definition handleStop (task : Task) : M (option TaskResult) :=
  let release := agent_release (t_RunnerID task) in
  res ← resolve (t_RunnerID task);
  match res with
  | (None, Some e) => _ ← release; reportUnsearchable task e
  | (None, None) =>
      _ ← release;
      now ← ask host_now;
      mret (Some (task_answer task true "" "" (Some RunnerRemoved) "" now))
  | (Some (k, h), _) =>
      let timeout := if t_StopTimeout task <=? 0 then DefaultStopTimeout else t_StopTimeout task in
      _ ← markStopping (t_RunnerID task);
      err ← Stop k h timeout;
      match not_gone err with
      | Some e =>
          _ ← release;
          now ← ask host_now;
          mret (Some (task_answer task false h ("the " +:+ k +:+ " backend could not stop runner " +:+ t_RunnerID task +:+ " within " +:+
                        Duration_String timeout +:+ ": " +:+ err_text e) None "" now))
      | None => _ ← release; now ← ask host_now; mret (Some (task_answer task true h "" None "" now))
      end
  end.

(** ** Removing one *)
Definition reportRemoveFailure (task : Task) (kind : BackendKind) (h : Handle) (e : error) : M (option TaskResult) :=
  now ← ask host_now;
  p ← removalPending (t_RunnerID task) (Some e) now;
  let '(since, pending) := p in
  if pending : bool
  then mret (Some {| rs_TaskID := t_ID task; rs_Kind := t_Kind task; rs_RunnerID := t_RunnerID task; rs_OK := false; rs_NotStarted := false;
                     rs_CleanupPending := true; rs_Handle := h;
                     rs_Error := "the " +:+ kind +:+ " backend is still removing runner " +:+ t_RunnerID task +:+ ": " +:+ err_text e;
                     rs_State := None; rs_Fault := ""; rs_CompletedAt := now |})
  else
    let e := if Time_IsZero since then e else stuckRemoval (Time_Sub now since) e in
    let which := if str_eqb h "" then t_RunnerID task else t_RunnerID task +:+ " (" +:+ h +:+ ")" in
    mret (Some (task_answer task false h ("the " +:+ kind +:+ " backend could not remove runner " +:+ which +:+ ": " +:+ err_text e) None "" now)).

(** The loop over every backend for a runner nothing lists: what stopped it, if anything did. *)
Fixpoint remove_everywhere (runnerID : string) (kinds : list BackendKind) : M (option (BackendKind * error)) :=
  match kinds with
  | [] => mret None
  | k :: kinds' =>
      a ← get_agent;
      err ← (match Registry_Get (ag_Backends a) k with inr e => mret (Some e) | inl _ => removeRunnerWorkload k runnerID "" end);
      match err with Some e => mret (Some (k, e)) | None => remove_everywhere runnerID kinds' end
  end.

Definition removed (task : Task) (h : Handle) : M (option TaskResult) :=
  now ← ask host_now;
  _ ← removalPending (t_RunnerID task) None now;
  _ ← untrack (t_RunnerID task);
  _ ← agent_release (t_RunnerID task);
  now ← ask host_now;
  mret (Some (task_answer task true h "" (Some RunnerRemoved) "" now)).

Definition handleRemove (task : Task) : M (option TaskResult) :=
  let release := agent_release (t_RunnerID task) in
  res ← resolve (t_RunnerID task);
  match res with
  | (None, Some e) => _ ← release; reportUnsearchable task e
  | (None, None) =>
      a ← get_agent;
      stuck ← remove_everywhere (t_RunnerID task) (Registry_Kinds (ag_Backends a));
      match stuck with
      | Some (k, e) =>
          _ ← release;
          if errors_Is e ErrRemovalInProgress then reportRemoveFailure task k "" e else reportUnsearchable task e
      | None => removed task ""
      end
  | (Some (k, h), _) =>
      err ← removeRunnerWorkload k (t_RunnerID task) h;
      match err with
      | Some e => _ ← release; reportRemoveFailure task k h e
      | None => removed task h
      end
  end.

(** [runTask], for the tasks that name a runner. *)
Definition runTask (task : Task) : M (option TaskResult) :=
  match t_Kind task with
  | TaskCreateRunner => match t_Spec task with Some spec => handleCreate task spec | None => mret None end
  | TaskStopRunner => handleStop task
  | TaskRemoveRunner => handleRemove task
  | _ => _ ← agent_release (t_RunnerID task); mret None
  end.
End tasks.

(** ** A create sent again *)
(** [kind] has been listed, and had no workload of [id]. *)
Definition seen_absent (id : string) (l : list asked) (kind : BackendKind) : Prop :=
  exists e ws, e ∈ l /\ as_call e = CList kind (inl ws) /\ forall w, w ∈ ws -> w_RunnerID w = id -> w_Sidecar w = true.

(** A create is asked for only once every backend has been listed. *)
Definition create_ok (id : string) (reg : Registry) (before : list asked) (e : asked) : Prop :=
  match as_call e with
  | CCreate _ _ => forall k, is_Some (reg_backends reg !! k) -> seen_absent id before k
  | _ => True
  end.

Section creating.
Context {W : Type} {H : Host W} (id : string) (reg : Registry).
Implicit Types (s : st W) (l : list asked).

Definition T l s : Prop := traced (create_ok id reg) (st_calls s) /\ ag_Backends (st_agent s) = reg /\ l `prefix_of` st_calls s.

Lemma seen_absent_mono l l' k : l `prefix_of` l' -> seen_absent id l k -> seen_absent id l' k.
Proof. intros [t ->] (e & ws & He & Hrest). exists e, ws. split; [|done]. apply elem_of_app. by left. Qed.

Lemma T_weaken l l' s : l' `prefix_of` l -> T l s -> T l' s.
Proof. intros Hp (H1 & H2 & H3). split_and!; try done. by etrans. Qed.

(** An operation that makes no create. *)
Definition no_create {A} (m : M W A) : Prop := forall l, triple (T l) m (fun _ => T l).

Lemma nc_ret {A} (a : A) : no_create (mret a).
Proof. by intros l s. Qed.
Lemma nc_bind {A B} (m : M W A) (f : A -> M W B) : no_create m -> (forall a, no_create (f a)) -> no_create (m ≫= f).
Proof. intros Hm Hf l. eapply t_bind; [apply Hm|]. intros a. apply Hf. Qed.
Lemma nc_ask {A} (f : W -> A * W) : no_create (ask f).
Proof. intros l s Hs. unfold ask. by destruct (f (st_world s)). Qed.
Lemma nc_note c : (forall k sp, c <> CCreate k sp) -> no_create (note c).
Proof.
  intros Hc l s (H1 & H2 & H3). split_and!; cbn; [|done|by apply prefix_app_r]. apply traced_snoc; [done|].
  unfold create_ok. cbn. destruct c; try done. by destruct (Hc kind spec).
Qed.
Lemma nc_modify f : (forall a, ag_Backends (f a) = ag_Backends a) -> no_create (modify f).
Proof. intros Hf l s (H1 & H2 & H3). split_and!; cbn; [done|by rewrite Hf|done]. Qed.
Lemma nc_get_then {A} (f : Agent -> M W A) : (forall a, no_create (f a)) -> no_create (a ← get_agent; f a).
Proof. intros Hf l. eapply t_bind; [apply (t_get_agent (T l))|]. intros a. eapply t_pre; [apply Hf|]. by intros s [? _]. Qed.
Lemma nc_adopt k w : no_create (adopt id k w).
Proof. apply nc_bind; [apply nc_ask|]. intros t. apply nc_modify. intros a. by destruct (_ !! _). Qed.
Lemma nc_release : no_create (agent_release id).
Proof.
  intros l s (H1 & H2 & H3). unfold agent_release, mbind, M_bind, get_agent, put_agent, mret, M_ret.
  destruct (release _ _) as [[t|] c]; cbn; [|by split_and!]. split_and!; cbn; [by apply traced_snoc|done|by apply prefix_app_r].
Qed.
Lemma nc_failure task msg fault : no_create (reportFailure task msg fault).
Proof. apply nc_bind; [apply nc_ask|]. intros t. apply nc_ret. Qed.

Lemma t_search_List l k :
  triple (T l) (List_ k) (fun ans s => exists l', l `prefix_of` l' /\ T l' s /\
    forall ws, ans = inl ws -> List.find (fun w => str_eqb (w_RunnerID w) id && negb (w_Sidecar w)) ws = None -> seen_absent id l' k).
Proof.
  intros s (H1 & H2 & H3). unfold List_, mbind, M_bind, ask, note, mret, M_ret.
  destruct (host_List k (st_world s)) as [ans w]. cbn.
  exists (st_calls s ++ [{| as_agent := st_agent s; as_call := CList k ans |}]). split_and!; [by apply prefix_app_r| |].
  - split_and!; cbn; [by apply traced_snoc|done|done].
  - intros ws -> Hf. eexists _, ws. split; [apply elem_of_app; right; by left|]. split; [done|]. intros x Hx Hid.
    assert (Hn := List.find_none _ _ Hf x (proj1 (list_elem_of_In _ _) Hx)). cbn in Hn. unfold str_eqb in Hn.
    rewrite bool_decide_eq_true_2 in Hn by done. cbn in Hn. by destruct (w_Sidecar x).
Qed.

(** A search that finds nothing and has no complaint has listed every backend. *)
Lemma t_search kinds : forall errs l,
  triple (T l) (search id kinds errs) (fun res s => T l s /\
    (res = (None, None) -> errs = [] /\ forall k, k ∈ kinds -> seen_absent id (st_calls s) k)).
Proof.
  induction kinds as [|k kinds IH]; intros errs l; cbn [search].
  { intros s Hs. split; [done|]. cbn. intros [= E]. destruct errs; [|done]. split; [done|]. intros k Hk. by apply elem_of_nil in Hk. }
  eapply t_bind; [apply (t_get_agent (T l))|]. intros a. eapply t_pre with (P' := T l); [|by intros s [? _]].
  assert (Hbad : forall e, triple (T l) (search id kinds (errs ++ [e])) (fun res s => T l s /\
    (res = (None, None) -> errs = [] /\ forall k', k' ∈ k :: kinds -> seen_absent id (st_calls s) k'))).
  { intros e. eapply t_conseq; [apply IH|done|]. intros res s [Hs Hres]. split; [done|]. intros Hr. destruct (Hres Hr) as [Hnil _].
    by destruct errs. }
  destruct (Registry_Get _ _); [|apply Hbad].
  eapply t_bind; [apply t_search_List|]. intros [ws|e].
  - intros s (l' & Hl' & Hs & Hf). destruct (List.find _ ws) as [w|] eqn:Ef.
    + assert (Ha := nc_adopt k w l' s Hs). unfold mbind, M_bind. destruct (adopt id k w s) as [u s'].
      split; [by eapply T_weaken|done].
    + specialize (Hf ws eq_refl Ef). assert (Hrec := IH errs l' s Hs). destruct (search id kinds errs s) as [res s'].
      destruct Hrec as [Hs' Hres]. split; [by eapply T_weaken|]. intros Hr. destruct (Hres Hr) as [Hnil Hks].
      split; [done|]. intros k' [->|Hk']%elem_of_cons; [|by apply Hks]. eapply seen_absent_mono; [apply Hs'|done].
  - intros s (l' & Hl' & Hs & _). specialize (Hbad (wrapf ("listing " +:+ k +:+ " workloads: ") e) s (T_weaken _ _ _ Hl' Hs)). exact Hbad.
Qed.

Definition all_absent s : Prop := forall k, is_Some (reg_backends reg !! k) -> seen_absent id (st_calls s) k.

Lemma t_resolve l :
  triple (T l) (resolve id) (fun res s => T l s /\ (res = (None, None) -> all_absent s)).
Proof.
  unfold resolve. eapply t_bind; [apply (t_get_agent (T l))|]. intros a. cbv zeta.
  assert (Hs : triple (fun s => T l s /\ a = st_agent s)
    (search id (SortStableFunc strings_Compare (Registry_Kinds (ag_Backends a))) []) (fun res s => T l s /\ (res = (None, None) -> all_absent s))).
  { intros s [Hs Ea]. assert (Hr := t_search (SortStableFunc strings_Compare (Registry_Kinds (ag_Backends a))) [] l s Hs).
    destruct (search _ _ _ s) as [res s']. destruct Hr as [Hs' Hres]. split; [done|]. intros E k [[] Hk]. apply (proj2 (Hres E)).
    rewrite sort_elem_of. unfold Registry_Kinds. apply list_elem_of_fmap. exists (k, tt). split; [done|].
    apply elem_of_map_to_list. rewrite Ea. by rewrite (proj1 (proj2 Hs)). }
  destruct (ag_runners a !! id) as [r|]; [|done]. destruct (Registry_Get _ _); [|done]. by intros s [? _].
Qed.

Lemma t_resolve_retry ds : forall l,
  triple (T l) (resolve_retry id ds) (fun res s => T l s /\ (res = (None, None) -> all_absent s)).
Proof.
  induction ds as [|d ds IH]; intros l; cbn [resolve_retry]; (eapply t_bind; [apply t_resolve|]); intros [x [e|]]; cbn; try by intros s.
  eapply t_bind with (R := fun _ => T l).
  { intros s [Hs _]. by apply nc_ask. }
  intros []; cbn; [apply IH|]. intros s Hs. by split.
Qed.

(** Once the host has been searched, a create may be asked for. *)
Lemma t_attempts k sp n : forall i l,
  triple (fun s => T l s /\ all_absent s) (create_attempts k sp i n) (fun _ => T l).
Proof.
  assert (Hkeep : forall A (m : M W A) l, (forall l, triple (T l) m (fun _ => T l)) ->
     triple (fun s => T l s /\ all_absent s) m (fun _ s => T l s /\ all_absent s)).
  { intros A m l Hm s [Hs Hab]. assert (H1 := Hm l s Hs). assert (H2 := Hm (st_calls s) s ltac:(split_and!; [apply Hs..|done])).
    destruct (m s) as [x s']. split; [done|]. intros k' Hk'. eapply seen_absent_mono; [apply H2|by apply Hab]. }
  assert (Hp : forall t l, triple (T l) (passed t) (fun _ => T l)).
  { intros t l. unfold passed. destruct (Time_IsZero t); [by intros s|]. apply (nc_bind (ask host_now)); [apply nc_ask|]. intros x. apply nc_ret. }
  induction n as [|n IH]; intros i l; cbn [create_attempts];
    (eapply t_bind; [apply Hkeep; intros; apply Hp|]; intros [|]; [by intros s [? _]|];
     eapply t_bind; [apply Hkeep; intros; apply Hp|]; intros [|]; [by intros s [? _]|];
     eapply t_bind with (R := fun _ s => T l s /\ all_absent s);
     [intros s [(H1 & H2 & H3) Hab]; unfold Create, mbind, M_bind, note, ask;
      set (s1 := {| st_agent := _; st_world := _; st_calls := _ |});
      assert (Hc : traced (create_ok id reg) (st_calls s1)) by (apply traced_snoc; [done|exact Hab]);
      destruct (host_Create k sp (st_world s1)); split;
      [split_and!; [exact Hc|done|cbn; by apply prefix_app_r]
      |intros k' Hk'; eapply seen_absent_mono; [|by apply Hab]; cbn; by apply prefix_app_r]|]);
    intros [h|e]; try by intros s [? _].
  destruct (negb _); [by intros s [? _]|]. eapply t_bind; [apply Hkeep; intros; apply nc_ask|]. intros []; [apply IH|by intros s [? _]].
Qed.

Lemma t_handleCreate task spec l : t_RunnerID task = id -> triple (T l) (handleCreate task spec) (fun _ => T l).
Proof.
  intros Hid. unfold handleCreate. rewrite Hid. eapply t_bind; [apply (t_get_agent (T l))|]. intros a. cbv zeta.
  eapply t_pre with (P' := T l); [|by intros s [? _]].
  destruct (Registry_Get _ _); [|apply (nc_bind (agent_release id)); [apply nc_release|]; intros ?; apply nc_failure].
  eapply t_bind; [apply t_resolve_retry|]. intros [found [e|]].
  - eapply t_pre with (P' := T l); [|by intros s [? _]]. destruct found as [[? ?]|];
      (eapply t_bind; [apply nc_release|]; intros ?; destruct (_ =? 1); [apply nc_failure|by intros s]).
  - destruct found as [[k h]|].
    + eapply t_pre with (P' := T l); [|by intros s [? _]]. apply nc_get_then. intros ag. apply nc_bind; [apply nc_release|].
      intros ?. apply nc_bind; [apply nc_ask|]. intros t. apply nc_ret.
    + eapply t_bind; [eapply t_pre; [apply t_attempts|]; intros s [Hs Hab]; split; [done|by apply Hab]|]. intros [[h|e]|].
      * apply (nc_bind (ask host_now)); [apply nc_ask|]. intros t. apply nc_bind; [by apply nc_modify|].
        intros ?. apply nc_bind; [apply nc_release|]. intros ?. apply nc_ret.
      * apply (nc_bind (agent_release id)); [apply nc_release|]. intros ?. apply nc_failure.
      * apply (nc_bind (agent_release id)); [apply nc_release|]. intros ?. apply nc_failure.
Qed.
End creating.

(** C12: A create that is sent again never costs a running job.  A backend is asked to create
    a runner -- which begins by removing what has its name -- only after every backend of
    the host has been listed and none had a workload of that runner; a host that cannot say
    whether the runner is there creates nothing, whatever its backends answer. *)
Theorem create_is_not_repeated {W} `{Host W} (s : st W) task spec :
  st_calls s = [] ->
  let '(_, s') := handleCreate task spec s in
  forall before e after k sp, st_calls s' = before ++ e :: after -> as_call e = CCreate k sp ->
  forall kind, is_Some (reg_backends (ag_Backends (st_agent s)) !! kind) ->
  exists e' ws, e' ∈ before /\ as_call e' = CList kind (inl ws) /\
    forall w, w ∈ ws -> w_RunnerID w = t_RunnerID task -> w_Sidecar w = true.
Proof.
  intros Hc. assert (Ht := t_handleCreate (t_RunnerID task) (ag_Backends (st_agent s)) task spec [] eq_refl s).
  destruct (handleCreate task spec s) as [res s']. destruct Ht as (Ht & _ & _).
  { split_and!; [rewrite Hc; apply traced_nil|done|apply prefix_nil]. }
  intros before e after k sp E He. specialize (Ht _ _ _ E). unfold create_ok in Ht. rewrite He in Ht. exact Ht.
Qed.
