(* ===== verification/AgentLooks.v ===== *)
(** * What the agent dates (agent/reconcile.go, agent/daemon.go)

    Two clocks decide when the agent deletes: the time a workload was first found with
    nobody claiming it ([ag_orphans]) and the time a runner was found to have ended
    ([tr_terminalAt]).  Both are written by a pass alone, and both are the time of the pass
    that wrote them: a pass is kept as a [look], and every time in the agent's records is
    that of a look which found the workload unclaimed, or which reported the end. *)
From Stdlib Require Import ZArith Lia Ascii String.
From stdpp Require Import base strings list gmap relations sets.
From S2P Require Import Prelude GoString GoText Store Backend Claims Agent AgentTasks.
Local Open Scope string_scope.
Local Open Scope list_scope.
Local Open Scope Z_scope.

(** A pass over the host: when it began, the calls it made and the reports it gave. *)
Record look := { lk_at : Time; lk_calls : list asked; lk_reports : list RunnerReport }.

(** A list showed the workload, as a companion or under a runner the agent did not know. *)
Definition found_unclaimed (calls : list asked) (h : Handle) : Prop :=
  exists e k ws w, e ∈ calls /\ as_call e = CList k (inl ws) /\ w ∈ ws /\ w_Handle w = h /\
    (w_Sidecar w = true \/ ag_runners (as_agent e) !! w_RunnerID w = None).
(** A report says that the runner has ended. *)
Definition found_ended (reports : list RunnerReport) (id : string) : Prop :=
  exists rep, rep ∈ reports /\ rp_RunnerID rep = id /\ rp_terminal rep = true.

(** Every time of the agent's records is that of a look. *)
Definition unclaimed_at (looks : list look) (h : Handle) (t : Time) : Prop :=
  exists lk, lk ∈ looks /\ lk_at lk = t /\ found_unclaimed (lk_calls lk) h.
Definition ended_at (looks : list look) (id : string) (t : Time) : Prop :=
  exists lk, lk ∈ looks /\ lk_at lk = t /\ found_ended (lk_reports lk) id.
Definition settled (looks : list look) (a : Agent) : Prop :=
  (forall h t, ag_orphans a !! h = Some t -> unclaimed_at looks h t) /\
  (forall id r, ag_runners a !! id = Some r ->
     if tr_terminal r then ended_at looks id (tr_terminalAt r) else tr_reported r = false).

(** In the middle of a look at [now], which has made [calls] and reported the ends of
    [said]: as above, or of this look. *)
Definition dated (looks : list look) (now : Time) (calls : list asked) (said : string -> Prop) (a : Agent) : Prop :=
  (forall h t, ag_orphans a !! h = Some t -> unclaimed_at looks h t \/ (t = now /\ found_unclaimed calls h)) /\
  (forall id r, ag_runners a !! id = Some r ->
     if tr_terminal r
     then ended_at looks id (tr_terminalAt r) \/ (tr_terminalAt r = now /\ tr_reported r = false /\ said id)
     else tr_reported r = false).

(** The records of [a'] are those of [a] as far as times go, or begin anew. *)
Definition same_end (r r' : tracked) : Prop :=
  tr_terminal r' = tr_terminal r /\ tr_terminalAt r' = tr_terminalAt r /\ tr_reported r' = tr_reported r.
Definition older (a a' : Agent) : Prop :=
  (forall h t, ag_orphans a' !! h = Some t -> ag_orphans a !! h = Some t) /\
  (forall id r', ag_runners a' !! id = Some r' ->
     (tr_terminal r' = false /\ tr_reported r' = false) \/ exists r, ag_runners a !! id = Some r /\ same_end r r').

Lemma older_refl a : older a a.
Proof. split; [done|]. intros id r Hr. right. by exists r. Qed.
Lemma older_trans a b c : older a b -> older b c -> older a c.
Proof.
  intros [H1 H2] [H3 H4]. split; [auto|]. intros id r'' Hr. destruct (H4 _ _ Hr) as [?|(r' & Hr' & E1 & E2 & E3)]; [by left|].
  destruct (H2 _ _ Hr') as [[? ?]|(r & ? & F1 & F2 & F3)]; [left; split; congruence|].
  right. exists r. split; [done|]. repeat split; congruence.
Qed.
(** The fields the times are not in. *)
Lemma older_same a a' : ag_orphans a' = ag_orphans a -> ag_runners a' = ag_runners a -> older a a'.
Proof. intros E1 E2. split; [by rewrite E1|]. rewrite E2. intros id r Hr. right. by exists r. Qed.
Lemma older_orphans a m : (forall h t, m !! h = Some t -> ag_orphans a !! h = Some t) -> older a (set_orphans a m).
Proof. intros Hm. split; [done|]. intros id r Hr. right. by exists r. Qed.
Lemma older_alter a id f : (forall r, same_end r (f r)) -> older a (set_runners a (alter f id (ag_runners a))).
Proof.
  intros Hf. split; [done|]. intros i r'. cbn. rewrite lookup_alter_Some. intros [(<- & r & Hr & ->)|[_ Hr]]; right; eauto.
  by exists r'.
Qed.
Lemma older_delete a id : older a (set_runners a (delete id (ag_runners a))).
Proof. split; [done|]. intros i r'. cbn. rewrite lookup_delete_Some. intros [_ Hr]. right. by exists r'. Qed.
Lemma older_insert a id r : tr_terminal r = false -> tr_reported r = false -> older a (set_runners a (<[id := r]> (ag_runners a))).
Proof.
  intros Ht Hr. split; [done|]. intros i r'. cbn. rewrite lookup_insert_Some. intros [[_ <-]|[_ Hx]]; [by left|].
  right. by exists r'.
Qed.
Lemma older_settled looks a a' : older a a' -> settled looks a -> settled looks a'.
Proof.
  intros [H1 H2] [H3 H4]. split; [auto|]. intros id r' Hr'. destruct (H2 _ _ Hr') as [[-> ->]|(r & Hr & -> & -> & ->)]; [done|].
  by apply H4.
Qed.
Lemma older_dated looks now calls said a a' : older a a' -> dated looks now calls said a -> dated looks now calls said a'.
Proof.
  intros [H1 H2] [H3 H4]. split; [auto|]. intros id r' Hr'. destruct (H2 _ _ Hr') as [[-> ->]|(r & Hr & -> & -> & ->)]; [done|].
  by apply H4.
Qed.

Lemma found_unclaimed_mono l l' h : (forall e, e ∈ l -> e ∈ l') -> found_unclaimed l h -> found_unclaimed l' h.
Proof. intros Hl (e & k & ws & w & He & Hrest). exists e, k, ws, w. auto. Qed.
Lemma dated_mono looks now calls calls' (said said' : string -> Prop) a :
  (forall e, e ∈ calls -> e ∈ calls') -> (forall id, said id -> said' id) ->
  dated looks now calls said a -> dated looks now calls' said' a.
Proof.
  intros Hc Hs [H1 H2]. split.
  - intros h t Ht. destruct (H1 h t Ht) as [?|[-> Hf]]; [by left|right]. split; [done|]. by eapply found_unclaimed_mono.
  - intros id r Hr. specialize (H2 id r Hr). destruct (tr_terminal r); [|done].
    destruct H2 as [?|(? & ? & ?)]; [by left|right]. auto.
Qed.
Lemma settled_dated looks now calls said a : settled looks a -> dated looks now calls said a.
Proof.
  intros [H1 H2]. split; [auto|]. intros id r Hr. specialize (H2 id r Hr). destruct (tr_terminal r); [by left|done].
Qed.
(** When the look is over it is one of the looks. *)
Lemma dated_settled looks lk a :
  dated looks (lk_at lk) (lk_calls lk) (found_ended (lk_reports lk)) a -> settled (looks ++ [lk]) a.
Proof.
  intros [H1 H2].
  assert (Hin : forall x, x ∈ looks -> x ∈ looks ++ [lk]) by (intros; apply elem_of_app; by left).
  assert (Hlk : lk ∈ looks ++ [lk]) by (apply elem_of_app; right; by left).
  split.
  - intros h t Ht. destruct (H1 h t Ht) as [(x & Hx & Hrest)|[-> Hf]]; [exists x; split; [by apply Hin|done]|by exists lk].
  - intros id r Hr. specialize (H2 id r Hr). destruct (tr_terminal r); [|done].
    destruct H2 as [(x & Hx & Hrest)|(Et & _ & Hf)]; [exists x; split; [by apply Hin|done]|by exists lk].
Qed.
Lemma settled_more looks lk a : settled looks a -> settled (looks ++ [lk]) a.
Proof. intros Hs. by apply dated_settled, settled_dated. Qed.

(** ** Operations that date nothing *)
Create HintDb ages.

Section ages.
Context {W : Type} {H : Host W}.
Implicit Types (s : st W).

Definition ages {A} (m : M W A) : Prop :=
  forall s, older (st_agent s) (st_agent (m s).2) /\
    exists new, st_calls (m s).2 = st_calls s ++ new /\ forall e, e ∈ new -> older (st_agent s) (as_agent e).

Lemma ages_silent {A} (m : M W A) :
  (forall s, st_calls (m s).2 = st_calls s /\ older (st_agent s) (st_agent (m s).2)) -> ages m.
Proof. intros Hm s. destruct (Hm s) as [Hc Ho]. split; [done|]. exists []. rewrite app_nil_r. split; [done|]. by intros e ?%elem_of_nil. Qed.
Lemma ages_ret {A} (x : A) : ages (mret x).
Proof. apply ages_silent. intros s. split; [done|apply older_refl]. Qed.
Lemma ages_bind {A B} (m : M W A) (f : A -> M W B) : ages m -> (forall x, ages (f x)) -> ages (m ≫= f).
Proof.
  intros Hm Hf s. unfold mbind, M_bind. destruct (Hm s) as (Ho & new & Hc & Hn). destruct (m s) as [x s1]. cbn in *.
  destruct (Hf x s1) as (Ho' & new' & Hc' & Hn'). split; [by eapply older_trans|].
  exists (new ++ new'). rewrite Hc', Hc, app_assoc. split; [done|]. intros e [He|He]%elem_of_app; [by apply Hn|].
  eapply older_trans; [exact Ho|by apply Hn'].
Qed.
Lemma ages_get : ages get_agent.
Proof. apply ages_silent. intros s. split; [done|apply older_refl]. Qed.
Lemma ages_ask {A} (f : W -> A * W) : ages (ask f).
Proof. apply ages_silent. intros s. unfold ask. destruct (f (st_world s)). split; [done|apply older_refl]. Qed.
Lemma ages_note c : ages (note c).
Proof.
  intros s. split; [apply older_refl|]. eexists. split; [reflexivity|]. intros e ->%list_elem_of_singleton. apply older_refl.
Qed.
Lemma ages_if {A} (b : bool) (m m' : M W A) : ages m -> ages m' -> ages (if b then m else m').
Proof. by destruct b. Qed.
Lemma ages_modify f : (forall a, older a (f a)) -> ages (modify f).
Proof. intros Hf. apply ages_silent. intros s. split; [done|apply Hf]. Qed.
Lemma ages_fold {A B} (f : A -> B -> M W A) l : (forall x b, ages (f x b)) -> forall x, ages (foldM f x l).
Proof. intros Hf. induction l as [|b l IH]; intros x; cbn [foldM]; [apply ages_ret|]. apply ages_bind; auto. Qed.
#[local] Hint Resolve ages_ret ages_bind ages_get ages_ask ages_note ages_if ages_modify ages_fold older_same older_orphans : ages.

Lemma ages_List k : ages (List_ k).
Proof. unfold List_. auto 6 with ages. Qed.
Lemma ages_Remove k h : ages (Remove k h).
Proof. unfold Remove. auto with ages. Qed.
Lemma ages_Create k sp : ages (Create k sp).
Proof. unfold Create. auto with ages. Qed.
Lemma ages_Stop k h t : ages (Stop k h t).
Proof. unfold Stop. auto with ages. Qed.
Lemma ages_claim id : ages (agent_claim id).
Proof.
  apply ages_silent. intros s. unfold agent_claim, mbind, M_bind, get_agent, put_agent, mret, M_ret.
  destruct (claim _ _). split; [done|by apply older_same].
Qed.
Lemma ages_release id : ages (agent_release id).
Proof.
  intros s. unfold agent_release, mbind, M_bind, get_agent, put_agent, mret, M_ret.
  destruct (release _ _) as [[t|] c]; cbn; (split; [by apply older_same|]).
  - eexists. split; [reflexivity|]. intros e ->%list_elem_of_singleton. by apply older_same.
  - exists []. rewrite app_nil_r. split; [done|]. by intros e ?%elem_of_nil.
Qed.
Lemma ages_removalPending key err t : ages (removalPending key err t).
Proof.
  apply ages_silent. intros s. unfold removalPending, mbind, M_bind, get_agent, put_agent, mret, M_ret.
  destruct (negb _); (split; [done|by apply older_same]).
Qed.
Lemma ages_forgetOrphan h : ages (forgetOrphan h).
Proof. apply ages_modify. intros a. apply older_orphans. intros h' t. rewrite lookup_delete_Some. by intros [_ ?]. Qed.
Lemma ages_alter id f : (forall r, same_end r (f r)) -> ages (alter_runner id f).
Proof. intros Hf. apply ages_modify. intros a. by apply older_alter. Qed.
Lemma ages_adopt id k w : ages (adopt id k w).
Proof.
  unfold adopt. apply ages_bind; [auto with ages|]. intros t. apply ages_modify. intros a.
  destruct (ag_runners a !! id); [apply older_refl|].
  eapply older_trans; [apply (older_insert a id (adopted id k w t)); done|]. apply older_orphans.
  intros h t'. rewrite lookup_delete_Some. by intros [_ ?].
Qed.
Lemma ages_untrack id : ages (untrack id).
Proof.
  apply ages_modify. intros a. cbv zeta. refine (older_trans _ (set_orphans a _) _ (older_orphans _ _ _) (older_delete (set_orphans a _) id)).
  intros h t. destruct (ag_runners a !! id); [|done]. rewrite lookup_delete_Some. by intros [_ ?].
Qed.
#[local] Hint Resolve ages_List ages_Remove ages_Create ages_Stop ages_claim ages_release ages_removalPending
  ages_forgetOrphan ages_alter ages_adopt ages_untrack : ages.

Lemma ages_companions k id ws : ages (remove_companions k id ws).
Proof.
  induction ws as [|w ws IH]; cbn; [auto with ages|]. do 2 (apply ages_if; auto with ages).
  apply ages_bind; [auto with ages|]. intros err. destruct (not_gone err); auto with ages.
Qed.
#[local] Hint Resolve ages_companions : ages.
Lemma ages_removeRunnerWorkload k id h : ages (removeRunnerWorkload k id h).
Proof.
  unfold removeRunnerWorkload. apply ages_bind; [auto with ages|]. intros err. destruct (not_gone err); [auto with ages|].
  apply ages_bind; [auto with ages|]. intros []; auto with ages.
Qed.
#[local] Hint Resolve ages_removeRunnerWorkload : ages.
Lemma ages_cleanUp k r w t : ages (cleanUp k r w t).
Proof.
  unfold cleanUp. apply ages_bind; [auto with ages|]. intros a. do 2 (apply ages_if; [auto with ages|]).
  apply ages_bind; [auto with ages|]. intros c. apply ages_if; [auto with ages|].
  apply ages_bind; [auto with ages|]. intros cl. apply ages_if; [auto with ages|].
  apply ages_bind; [|auto with ages]. unfold remove_finished. apply ages_bind; [auto with ages|].
  intros [e|]; (apply ages_bind; [auto with ages|]; intros ?); [apply ages_if; auto with ages|].
  apply ages_bind; [|auto with ages]. apply ages_alter. by intros y.
Qed.
Lemma ages_tailOf k h : ages (tailOf k h).
Proof. unfold tailOf. apply ages_bind; [auto with ages|]. intros [[text failed]|]; cbv zeta; auto with ages. Qed.
End ages.
#[export] Hint Resolve ages_ret ages_bind ages_get ages_ask ages_note ages_if ages_modify ages_fold ages_List ages_Remove
  ages_Create ages_Stop ages_claim ages_release ages_removalPending ages_forgetOrphan ages_alter ages_adopt ages_untrack
  ages_removeRunnerWorkload ages_cleanUp ages_tailOf : ages.

(** ** A look dates what it finds *)
Section dating.
Context {W : Type} {H : Host W} (looks : list look) (now : Time).
Implicit Types (s : st W) (said : string -> Prop).

(** The agent, as it is and as it was at every call. *)
Definition Dated said s : Prop :=
  dated looks now (st_calls s) said (st_agent s) /\
  forall e, e ∈ st_calls s -> dated looks now (st_calls s) said (as_agent e).

Lemma Dated_mono said said' s : (forall id, said id -> said' id) -> Dated said s -> Dated said' s.
Proof. intros Hs [H1 H2]. split; [by eapply dated_mono|]. intros e He. eapply dated_mono; eauto. Qed.

Lemma Dated_ages {A} said (m : M W A) : ages m -> triple (Dated said) m (fun _ => Dated said).
Proof.
  intros Hm s [H1 H2]. destruct (Hm s) as (Ho & new & Hc & Hn). destruct (m s) as [x s']. cbn in *. unfold Dated. rewrite Hc.
  assert (Hmono : forall a, dated looks now (st_calls s) said a -> dated looks now (st_calls s ++ new) said a)
    by (intros a; apply dated_mono; [intros; apply elem_of_app; by left|done]).
  split; [apply Hmono; by eapply older_dated|].
  intros e [He|He]%elem_of_app; apply Hmono; [by apply H2|]. eapply older_dated; [by apply Hn|done].
Qed.

(** With something found unclaimed in the calls. *)
Lemma Dated_found {A} said h (m : M W A) :
  ages m -> triple (fun s => Dated said s /\ found_unclaimed (st_calls s) h) m (fun _ s => Dated said s /\ found_unclaimed (st_calls s) h).
Proof.
  intros Hm s [HD Hf]. assert (HD' := Dated_ages said m Hm s HD). destruct (Hm s) as (_ & new & Hc & _).
  destruct (m s) as [x s']. cbn in *. split; [done|]. rewrite Hc. eapply found_unclaimed_mono; [|done].
  intros e He. apply elem_of_app. by left.
Qed.

Lemma Dated_markOrphan said h :
  triple (fun s => Dated said s /\ found_unclaimed (st_calls s) h) (markOrphan h now) (fun _ => Dated said).
Proof.
  intros s [[[H1 H2] H3] Hf]. unfold markOrphan, mbind, M_bind, get_agent, put_agent, mret, M_ret.
  destruct (ag_orphans (st_agent s) !! h) as [first|]; [by split_and!|]. split; [|done]. split; [|done].
  intros h' t. cbn. rewrite lookup_insert_Some. intros [[<- <-]|[_ Ht]]; [by right|by apply H1].
Qed.

Lemma Dated_reap said k w :
  triple (fun s => Dated said s /\ found_unclaimed (st_calls s) (w_Handle w)) (reap_unclaimed k w now) (fun _ => Dated said).
Proof.
  unfold reap_unclaimed. eapply t_bind; [apply Dated_markOrphan|]. intros first. apply Dated_ages.
  apply ages_if; [auto with ages|]. apply ages_bind; [auto with ages|]. intros c. apply ages_if; [auto with ages|].
  apply ages_bind; [auto with ages|]. intros err. cbv zeta. apply ages_bind; [auto with ages|]. intros p.
  apply ages_if; [auto with ages|].
  destruct err as [e|]; [destruct (Time_IsZero _)|];
    repeat first [apply ages_if | apply ages_ret | apply ages_bind; [auto with ages|intros ?] | case_match]; auto with ages.
Qed.

Lemma Dated_reapOrphan said k w :
  triple (fun s => Dated said s /\ found_unclaimed (st_calls s) (w_Handle w)) (reapOrphan k w now) (fun _ => Dated said).
Proof.
  unfold reapOrphan. eapply t_bind; [apply Dated_found; auto with ages|]. intros a.
  destruct (ag_mutationsPaused a); [by intros s [? _]|]. destruct (negb (ag_polled a)); [by intros s [? _]|].
  destruct (str_eqb _ _); [apply Dated_reap|]. eapply t_bind; [apply Dated_found; auto with ages|].
  intros []; cbn [negb]; [|by intros s [? _]].
  eapply t_bind; [apply Dated_reap|]. intros rep. apply Dated_ages. auto with ages.
Qed.

(** A runner is found to have ended. *)
Lemma Dated_markTerminal said id state phase code msg fault :
  triple (Dated said) (markTerminal id state phase code msg fault now) (fun _ => Dated (fun i => said i \/ i = id)).
Proof.
  intros s Hs. apply (Dated_mono _ (fun i => said i \/ i = id)) in Hs; [|by left]. destruct Hs as [[H1 H2] H3].
  split; [|done]. split; [done|]. intros i r. cbn. rewrite lookup_alter_Some. intros [(<- & x & Hx & ->)|[_ Hr]]; [|by apply H2].
  specialize (H2 _ _ Hx). cbn. destruct (tr_terminal x); cbn; [done|]. right. auto.
Qed.

Definition ends (rep : option RunnerReport) (id : string) : Prop := found_ended (option_list rep) id.

Lemma Dated_observe said k r w :
  triple (Dated said) (observe k r w now) (fun rep => Dated (fun id => said id \/ ends rep id)).
Proof.
  assert (Hmore : forall rep s, Dated said s -> Dated (fun id => said id \/ ends rep id) s)
    by (intros rep s; apply Dated_mono; by left).
  unfold observe. cbv zeta. destruct (tr_hostRemoved r); [intros s; apply Hmore|]. destruct (stopped _).
  - destruct (tr_terminal r).
    { eapply t_conseq; [apply Dated_ages, ages_cleanUp|done|]. intros rep s. apply Hmore. }
    destruct (terminalOutcome r (w_Status w)) as [[state msg] fault] eqn:Eo.
    assert (Ht := terminalOutcome_terminal r (w_Status w)). rewrite Eo in Ht. cbn in Ht.
    eapply t_bind; [apply Dated_markTerminal|]. intros [].
    eapply t_bind with (R := fun _ => Dated (fun i => said i \/ i = tr_runnerID r)).
    { apply Dated_ages. apply ages_if; [|auto with ages]. apply ages_bind; [auto with ages|]. intros tail.
      apply ages_bind; [|auto with ages]. apply ages_alter. by intros x. }
    intros tail s. apply Dated_mono. intros id [?| ->]; [by left|right]. eexists. split; [by left|]. split; [done|exact Ht].
  - eapply t_bind with (R := fun _ => Dated said); [|intros []; intros s; apply Hmore].
    apply Dated_ages, ages_alter. by intros x.
Qed.

(** The pass so far: what it has reported, and the list it is going through. *)
Definition Dpass (p : pass) : st W -> Prop := Dated (found_ended (ps_reports p)).
Definition Dlist (e : asked) s : Prop :=
  e ∈ st_calls s /\ forall id, ag_runners (st_agent s) !! id = None -> ag_runners (as_agent e) !! id = None.

Lemma Dpass_report p rep s :
  Dated (fun id => found_ended (ps_reports p) id \/ ends rep id) s -> Dpass (add_report rep p) s.
Proof.
  apply Dated_mono. intros id. cbn. intros [(x & Hx & ?)|(x & Hx & ?)]; exists x; (split; [apply elem_of_app; auto|done]).
Qed.
Lemma Dpass_more p rep s : Dpass p s -> Dpass (add_report rep p) s.
Proof. intros Hs. apply Dpass_report. revert Hs. apply Dated_mono. by left. Qed.

(** *** No runner is forgotten while the lists are gone through *)
Definition grows {A} (m : M W A) : Prop :=
  forall s, (forall id, ag_runners (st_agent (m s).2) !! id = None -> ag_runners (st_agent s) !! id = None) /\
            forall e, e ∈ st_calls s -> e ∈ st_calls (m s).2.

Lemma grows_ret {A} (x : A) : grows (mret x).
Proof. by intros s. Qed.
Lemma grows_bind {A B} (m : M W A) (f : A -> M W B) : grows m -> (forall x, grows (f x)) -> grows (m ≫= f).
Proof.
  intros Hm Hf s. unfold mbind, M_bind. destruct (Hm s) as [H1 H2]. destruct (m s) as [x s1]. cbn in *.
  destruct (Hf x s1) as [H3 H4]. split; auto.
Qed.
Lemma grows_if {A} (b : bool) (m m' : M W A) : grows m -> grows m' -> grows (if b then m else m').
Proof. by destruct b. Qed.
Lemma grows_fold {A B} (f : A -> B -> M W A) l : (forall x b, grows (f x b)) -> forall x, grows (foldM f x l).
Proof. intros Hf. induction l as [|b l IH]; intros x; cbn [foldM]; [apply grows_ret|]. apply grows_bind; auto. Qed.
Lemma grows_quiet {A} (m : M W A) : ages m -> untouching m -> grows m.
Proof.
  intros Ha Hq s. destruct (Ha s) as (_ & new & -> & _). destruct (Hq s) as [-> _]. split; [done|].
  intros e He. apply elem_of_app. by left.
Qed.
Lemma grows_alter id f : grows (alter_runner id f).
Proof. intros s. split; [|done]. intros i Hi. apply (lookup_alter_None f (ag_runners (st_agent s)) id i). exact Hi. Qed.
Lemma grows_adopt id k w : grows (adopt id k w).
Proof.
  unfold adopt. apply grows_bind; [apply grows_quiet; auto with ages agent|]. intros t s. split; [|done]. intros i.
  unfold modify, mbind, M_bind, get_agent, put_agent. cbn. destruct (ag_runners (st_agent s) !! id); cbn; [done|].
  rewrite lookup_insert_None. by intros [? _].
Qed.
Lemma grows_markOrphan h t : grows (markOrphan h t).
Proof.
  intros s. destruct (quiet_markOrphan h t s) as [-> _]. split; [done|].
  unfold markOrphan, mbind, M_bind, get_agent, put_agent, mret, M_ret. by destruct (_ !! _).
Qed.
#[local] Hint Resolve grows_ret grows_bind grows_if grows_alter grows_adopt grows_markOrphan : grows.
#[local] Hint Extern 4 (grows _) => apply grows_quiet; solve [auto with ages agent] : grows.

Lemma grows_reapOrphan k w t : grows (reapOrphan k w t).
Proof.
  assert (Hr : grows (reap_unclaimed k w t)).
  { unfold reap_unclaimed. apply grows_bind; [auto with grows|]. intros first. apply grows_if; [auto with grows|].
    apply grows_bind; [auto with grows|]. intros c. apply grows_if; [auto with grows|].
    apply grows_bind; [auto with grows|]. intros err. cbv zeta. apply grows_bind; [auto with grows|]. intros p.
    apply grows_if; [auto with grows|]. destruct err as [e|]; [destruct (Time_IsZero _)|];
      repeat first [apply grows_if | apply grows_ret | apply grows_bind; [auto with grows|intros ?] | case_match]; auto with grows. }
  unfold reapOrphan. apply grows_bind; [auto with grows|]. intros a. do 2 (apply grows_if; [auto with grows|]).
  apply grows_if; [done|]. apply grows_bind; [auto with grows|]. intros cl. apply grows_if; [auto with grows|].
  apply grows_bind; [done|]. intros rep. apply grows_bind; auto with grows.
Qed.
Lemma grows_observe k r w t : grows (observe k r w t).
Proof.
  unfold observe. cbv zeta. apply grows_if; [auto with grows|]. apply grows_if.
  - apply grows_if.
    + unfold cleanUp. apply grows_bind; [auto with grows|]. intros a. do 2 (apply grows_if; [auto with grows|]).
      apply grows_bind; [auto with grows|]. intros c. apply grows_if; [auto with grows|].
      apply grows_bind; [auto with grows|]. intros cl. apply grows_if; [auto with grows|].
      apply grows_bind; [|intros rep; apply grows_bind; auto with grows]. unfold remove_finished.
      apply grows_bind; [auto with grows|]. intros [e|]; (apply grows_bind; [auto with grows|]; intros ?); auto with grows.
    + destruct (terminalOutcome _ _) as [[state msg] fault]. apply grows_bind; [apply grows_alter|]. intros ?.
      apply grows_bind; [|auto with grows]. apply grows_if; [|auto with grows].
      apply grows_bind; [auto with grows|]. intros tail. apply grows_bind; [apply grows_alter|auto with grows].
  - apply grows_bind; [apply grows_alter|auto with grows].
Qed.

Lemma adopts_pending k ws : ages (adopt_pending k ws) /\ grows (adopt_pending k ws).
Proof.
  set (each := foldM (fun (_ : unit) w => if negb (str_eqb (w_RunnerID w) "") && negb (w_Sidecar w)
                                          then adopt (w_RunnerID w) k w else mret tt) tt ws : M W unit).
  assert (Hb : forall b : bool, ages (if b then each else mret tt) /\ grows (if b then each else mret tt)).
  { intros b. split; [apply ages_if|apply grows_if]; try solve [auto with ages grows].
    - apply ages_fold. intros x w. auto with ages.
    - apply grows_fold. intros x w. auto with grows. }
  split; intros s; unfold adopt_pending, mbind, M_bind, get_agent, put_agent; fold each;
    match goal with |- context [(if ?b then _ else _) ?x] => specialize (Hb b) as [Hb1 Hb2];
      specialize (Hb1 x); specialize (Hb2 x); destruct ((if b then each else mret tt) x) as [u s'] end;
    [|exact Hb2].
  destruct Hb1 as (Ho & new & Hc & Hn).
  assert (H0 : older (st_agent s) (set_pending (st_agent s) (ag_inventoryPending (st_agent s) ∖ {[k]}))) by by apply older_same.
  split; [exact (older_trans _ _ _ H0 Ho)|]. exists new. split; [exact Hc|]. intros e He.
  exact (older_trans _ _ _ H0 (Hn e He)).
Qed.

Lemma Dlist_grows {A} e (m : M W A) : grows m -> triple (Dlist e) m (fun _ => Dlist e).
Proof. intros Hm s [H1 H2]. destruct (Hm s) as [H3 H4]. destruct (m s) as [x s']. split; auto. Qed.

(** Both at once. *)
Lemma Dboth {A} e (P : st W -> Prop) (m : M W A) Q :
  grows m -> triple P m Q -> triple (fun s => P s /\ Dlist e s) m (fun x s => Q x s /\ Dlist e s).
Proof.
  intros Hg Hm s [HP HD]. specialize (Hm s HP). assert (HD' := Dlist_grows e m Hg s HD). destruct (m s). by split.
Qed.

Lemma D_workload e k ws p w :
  as_call e = CList k (inl ws) -> w ∈ ws ->
  triple (fun s => Dpass p s /\ Dlist e s) (one_workload k now p w) (fun p' s => Dpass p' s /\ Dlist e s).
Proof.
  intros He Hw.
  assert (Hreap : triple (fun s => (Dpass p s /\ found_unclaimed (st_calls s) (w_Handle w)) /\ Dlist e s)
    (rep ← reapOrphan k w now; mret (add_report rep p)) (fun p' s => Dpass p' s /\ Dlist e s)).
  { eapply t_bind; [apply Dboth; [apply grows_reapOrphan|apply Dated_reapOrphan]|].
    intros rep s [Hs ?]. split; [by apply Dpass_more|done]. }
  unfold one_workload. destruct (w_Sidecar w) eqn:Es.
  { eapply t_pre; [exact Hreap|]. intros s [HD HL]. split_and!; [done| |apply HL..]. exists e, k, ws, w.
    split_and!; [apply HL|done..|by left]. }
  intros s [HD HL]. unfold mbind at 1, M_bind at 1, snapshot. unfold mbind at 1, M_bind at 1, get_agent, mret at 1, M_ret at 1.
  destruct (ag_runners (st_agent s) !! w_RunnerID w) as [r|] eqn:Er.
  - clear Er. revert s HD HL. enough (Ht : triple (fun s => Dpass p s /\ Dlist e s) (_ ← forgetOrphan (w_Handle w);
       rep ← observe k r w now; mret (add_report rep (add_seen (w_RunnerID w) p))) (fun p' s => Dpass p' s /\ Dlist e s))
      by (intros s HD HL; exact (Ht s (conj HD HL))).
    eapply t_bind; [apply Dboth; [auto with grows|apply Dated_ages; auto with ages]|]. intros [].
    eapply t_bind; [apply Dboth; [apply grows_observe|apply Dated_observe]|]. intros rep s [Hs ?].
    split; [exact (Dpass_report (add_seen _ p) rep s Hs)|done].
  - apply (Hreap s). split_and!; [done| |apply HL..]. exists e, k, ws, w. split_and!; [apply HL|done..|right; by apply HL].
Qed.

Lemma D_backend p k : triple (Dpass p) (one_backend now p k) Dpass.
Proof.
  unfold one_backend. eapply t_bind; [apply Dated_ages; auto with ages|]. intros a.
  destruct (Registry_Get _ _); [|by intros s]. unfold List_. intros s Hs.
  unfold mbind at 1, M_bind at 1. unfold mbind at 1, M_bind at 1, ask. destruct (host_List k (st_world s)) as [ans w'].
  unfold mbind at 1, M_bind at 1, note, mret at 1, M_ret at 1. cbn [st_agent st_world st_calls].
  assert (Hs1 := Dated_ages (found_ended (ps_reports p)) (note (CList k ans)) (ages_note _)
    {| st_agent := st_agent s; st_world := w'; st_calls := st_calls s |} Hs).
  cbn in Hs1. destruct ans as [ws|err]; [|exact Hs1].
  set (e := {| as_agent := st_agent s; as_call := CList k (inl ws) |}) in *.
  match goal with |- let '(_, _) := _ ?x in _ => set (s1 := x) in * end.
  assert (Hl1 : Dlist e s1) by (split; [apply elem_of_app; right; by left|done]).
  enough (Ht : triple (fun s => Dpass p s /\ Dlist e s) (_ ← adopt_pending k ws; foldM (one_workload k now) p ws)
                      (fun p' s => Dpass p' s /\ Dlist e s)).
  { specialize (Ht s1 (conj Hs1 Hl1)).
    match type of Ht with let '(_, _) := ?m in _ => change (let '(p', s') := m in Dpass p' s'); revert Ht; destruct m as [p' s']; by intros [? _] end. }
  eapply t_bind with (R := fun _ s => Dpass p s /\ Dlist e s).
  - apply Dboth; [apply adopts_pending|apply Dated_ages, adopts_pending].
  - intros []. apply (t_fold (fun p' s => Dpass p' s /\ Dlist e s)). intros w q Hw. by apply (D_workload e k ws).
Qed.

Lemma D_tracked p r : triple (Dpass p) (one_tracked now p r) Dpass.
Proof.
  assert (Hadd : forall rep, triple (Dpass p) (mret (add_report rep p)) Dpass) by (intros rep s; apply Dpass_more).
  unfold one_tracked. destruct (tr_hostRemoved r); [destruct (bool_decide _); [by intros s|apply Hadd]|].
  destruct (_ || _); [by intros s|]. destruct (_ <? _); [by intros s|]. destruct (tr_terminal r).
  - destruct (tr_reported r); [|apply Hadd]. apply (t_bind _ _ (fun _ => Dpass p)); [apply Dated_ages; auto with ages|].
    intros []. by intros s.
  - eapply t_bind; [apply Dated_ages; auto with ages|]. intros a. cbv zeta. eapply t_bind; [apply Dated_markTerminal|].
    intros [] s Hs. apply Dpass_report. revert Hs. apply Dated_mono. intros id [?| ->]; [by left|right].
    eexists. split; [by left|]. by split.
Qed.

(** What a look leaves in the records, and what stood there at each of its calls. *)
Lemma D_ReconcileOnce s :
  now = (host_now (st_world s)).1 -> settled looks (st_agent s) -> st_calls s = [] ->
  let '((reports, _), s') := ReconcileOnce s in Dated (found_ended reports) s'.
Proof.
  intros Hnow Hs Hc. unfold ReconcileOnce. unfold mbind at 1, M_bind at 1, ask. destruct (host_now (st_world s)) as [t w].
  cbn in Hnow. subst t. set (s1 := {| st_agent := st_agent s; st_world := w; st_calls := st_calls s |}).
  assert (H1 : Dpass {| ps_reports := []; ps_errs := []; ps_seen := ∅; ps_unlisted := ∅ |} s1).
  { split; [by apply settled_dated|]. unfold s1. cbn. rewrite Hc. by intros e ?%elem_of_nil. }
  revert H1. generalize s1. clear. intros s Hs.
  enough (Ht : triple (Dpass {| ps_reports := []; ps_errs := []; ps_seen := ∅; ps_unlisted := ∅ |}) (a ← get_agent;
      p ← foldM (one_backend now) {| ps_reports := []; ps_errs := []; ps_seen := ∅; ps_unlisted := ∅ |}
            (SortStableFunc strings_Compare (Registry_Kinds (ag_Backends a)));
      rs ← trackedRunners; p ← foldM (one_tracked now) p rs; mret (ps_reports p, errors_Join (ps_errs p)))
      (fun res s => Dated (found_ended res.1) s)).
  { specialize (Ht s Hs). match type of Ht with let '(_, _) := ?m in _ =>
      change (let '((reports, _), s') := m in Dated (found_ended reports) s'); revert Ht; by destruct m as [[reports err] s'] end. }
  eapply t_bind; [apply Dated_ages; auto with ages|]. intros a.
  eapply t_bind; [apply (t_fold Dpass); intros; apply D_backend|]. intros p.
  eapply t_bind; [apply Dated_ages; unfold trackedRunners; auto with ages|]. intros rs.
  eapply t_bind; [apply (t_fold Dpass); intros; apply D_tracked|]. intros q. by intros x.
Qed.
End dating.

(** ** Tasks date nothing *)
Section tasks.
Context {W : Type} {H : Host W}.
Implicit Types (s : st W).

Lemma ages_search id kinds : forall errs, ages (search (W := W) id kinds errs).
Proof.
  induction kinds as [|k kinds IH]; intros errs; cbn [search]; [auto with ages|].
  apply ages_bind; [auto with ages|]. intros a. destruct (Registry_Get _ _); [|apply IH].
  apply ages_bind; [auto with ages|]. intros [ws|e]; [|apply IH]. destruct (List.find _ ws); [|apply IH]. auto with ages.
Qed.
Lemma ages_resolve id : ages (W := W) (resolve id).
Proof.
  unfold resolve. apply ages_bind; [auto with ages|]. intros a. cbv zeta.
  destruct (ag_runners a !! id); [|apply ages_search]. destruct (Registry_Get _ _); [auto with ages|apply ages_search].
Qed.
#[local] Hint Resolve ages_search ages_resolve : ages.
Lemma ages_resolve_retry id ds : ages (W := W) (resolve_retry id ds).
Proof.
  induction ds as [|d ds IH]; cbn [resolve_retry]; (apply ages_bind; [auto with ages|]); intros [x [e|]]; cbn; auto with ages.
Qed.
Lemma ages_passed t : ages (W := W) (passed t).
Proof. unfold passed. destruct (Time_IsZero t); auto with ages. Qed.
#[local] Hint Resolve ages_resolve_retry ages_passed : ages.
Lemma ages_attempts k sp n : forall i, ages (W := W) (create_attempts k sp i n).
Proof.
  induction n as [|n IH]; intros i; cbn [create_attempts]; (apply ages_bind; [auto with ages|]; intros []; [auto with ages|];
    apply ages_bind; [auto with ages|]; intros []; [auto with ages|]; apply ages_bind; [auto with ages|]; intros [h|e]; auto with ages).
Qed.
Lemma ages_failure task msg fault : ages (W := W) (reportFailure task msg fault).
Proof. unfold reportFailure. auto with ages. Qed.
Lemma ages_unsearchable task e : ages (W := W) (reportUnsearchable task e).
Proof. unfold reportUnsearchable. auto with ages. Qed.
Lemma ages_everywhere id kinds : ages (W := W) (remove_everywhere id kinds).
Proof.
  induction kinds as [|k kinds IH]; cbn [remove_everywhere]; [auto with ages|]. apply ages_bind; [auto with ages|].
  intros a. apply ages_bind; [destruct (Registry_Get _ _); auto with ages|]. intros []; auto with ages.
Qed.
Lemma ages_removeFailure task k h e : ages (W := W) (reportRemoveFailure task k h e).
Proof.
  unfold reportRemoveFailure. apply ages_bind; [auto with ages|]. intros t. apply ages_bind; [auto with ages|].
  intros [since []]; cbv zeta; auto with ages.
Qed.
Lemma ages_removed task h : ages (W := W) (removed task h).
Proof. unfold removed. auto 12 with ages. Qed.
#[local] Hint Resolve ages_attempts ages_failure ages_unsearchable ages_everywhere ages_removeFailure ages_removed : ages.

Lemma ages_handleCreate task spec : ages (W := W) (handleCreate task spec).
Proof.
  unfold handleCreate. cbv zeta. apply ages_bind; [auto with ages|]. intros a. destruct (Registry_Get _ _); [|auto with ages].
  apply ages_bind; [unfold resolveForCreate; auto with ages|]. intros [found [e|]].
  - destruct found as [[? ?]|]; (apply ages_bind; [auto with ages|]; intros ?; destruct (_ =? 1); auto with ages).
  - destruct found as [[k' h]|]; [auto 8 with ages|]. apply ages_bind; [auto with ages|].
    intros [[h|e]|]; [|auto with ages..]. apply ages_bind; [auto with ages|]. intros t.
    apply ages_bind; [|auto 8 with ages]. apply ages_modify. intros a'.
    eapply older_trans; [apply (older_insert a' (t_RunnerID task)
      (created_runner task (with_runner_id spec (t_RunnerID task)) (if str_eqb (t_Backend task) "" then ag_DefaultBackend a else t_Backend task) h t)); done|].
    apply older_orphans. intros h' t'. rewrite lookup_delete_Some. by intros [_ ?].
Qed.
Lemma ages_handleStop task : ages (W := W) (handleStop task).
Proof.
  unfold handleStop. cbv zeta. apply ages_bind; [auto with ages|]. intros [[[k h]|] [e|]]; [| |auto 8 with ages..].
  all: apply ages_bind; [apply ages_alter; by intros r|]; intros ?; apply ages_bind; [auto with ages|]; intros err;
    destruct (not_gone err); auto 8 with ages.
Qed.
Lemma ages_handleRemove task : ages (W := W) (handleRemove task).
Proof.
  unfold handleRemove. cbv zeta. apply ages_bind; [auto with ages|]. intros [[[k h]|] [e|]]; [| |auto 8 with ages|].
  1,2: apply ages_bind; [auto with ages|]; intros []; auto 8 with ages.
  apply ages_bind; [auto with ages|]. intros a. apply ages_bind; [auto with ages|].
  intros [[k e]|]; [|auto with ages]. apply ages_bind; [auto with ages|]. intros ?. destruct (errors_Is _ _); auto with ages.
Qed.
Lemma ages_runTask task : ages (W := W) (runTask task).
Proof.
  unfold runTask. destruct (t_Kind task); try solve [auto 8 with ages].
  - destruct (t_Spec task); [apply ages_handleCreate|auto with ages].
  - apply ages_handleStop.
  - apply ages_handleRemove.
Qed.

Lemma ages_adoptExisting : ages (W := W) adoptExisting.
Proof.
  unfold adoptExisting. apply ages_bind; [auto with ages|]. intros a. apply ages_fold. intros u k.
  apply ages_bind; [apply ages_modify; intros a'; by apply older_same|]. intros ?. apply ages_bind; [auto with ages|]. intros b.
  destruct (Registry_Get _ _); [|auto with ages]. apply ages_bind; [auto with ages|]. intros [ws|e]; [|auto with ages].
  apply ages_bind; [apply ages_fold; intros v w; destruct (_ || _); auto with ages|].
  intros ?. apply ages_modify. intros a'. by apply older_same.
Qed.

(** ** So do the controller's answers *)
Lemma settled_mark looks a rep : settled looks a -> settled looks (mark_one a rep).
Proof.
  intros Hs. unfold mark_one. destruct (negb _); [done|]. destruct (ag_runners a !! rp_RunnerID rep) as [r|] eqn:Er; [|done].
  destruct (tr_terminal r && _) eqn:Et; [|done]. apply andb_true_iff in Et as [Et _].
  destruct (_ && _); [eapply older_settled; [apply older_delete|done]|]. destruct Hs as [H1 H2]. split; [done|].
  intros id x. cbn. rewrite lookup_insert_Some. intros [[<- <-]|[_ Hx]]; [|by apply H2].
  specialize (H2 _ _ Er). cbn. rewrite Et in *. exact H2.
Qed.
Lemma settled_marks looks reports : forall a, settled looks a -> settled looks (foldl mark_one a reports).
Proof. induction reports as [|rep reports IH]; intros a Ha; [done|]. apply IH. by apply settled_mark. Qed.
Lemma settled_release looks ids : forall a, settled looks a -> settled looks (foldl release_unknown a ids).
Proof.
  induction ids as [|id ids IH]; intros a Ha; [done|]. apply IH. unfold release_unknown.
  destruct (ag_runners a !! id) as [r|]; [|done]. destruct (tr_terminal r); [done|]. eapply older_settled; [apply older_delete|done].
Qed.
Lemma settled_heartbeat looks answer s : settled looks (st_agent s) -> settled looks (st_agent (heartbeat answer s).2).
Proof.
  intros Hs. unfold heartbeat, Agent_Runners, mbind, M_bind, get_agent, mret, M_ret. destruct answer as [[paused unknown]|]; [|done].
  unfold markReported, releaseUnknown, modify, mbind, M_bind, get_agent, put_agent, mret, M_ret.
  destruct paused; cbn; [by apply settled_marks|by apply settled_release, settled_marks].
Qed.
End tasks.
