(* ===== verification/AgentRuns.v ===== *)
(** * The runs of a host agent, and what becomes of a finished runner

    A run is the agent's operations one after the other: it adopts what it finds, handles
    tasks, looks at the host, beats, and takes its reports for accepted once the controller
    has answered -- later than they were made, in any order, or never.  Beside the agent a
    run keeps the reports the controller has accepted and the looks that were made.  The
    theorem is the agent's promise to whoever reads the history of a job: no workload of a
    runner is deleted until the controller has been told how that runner ended and the
    output has been kept, and nothing else is deleted at first sight. *)
From Stdlib Require Import ZArith Lia Ascii String.
From stdpp Require Import base strings list gmap relations sets.
From S2P Require Import Prelude GoString GoText Store Backend Claims Agent AgentTasks AgentLooks.
Local Open Scope string_scope.
Local Open Scope list_scope.
Local Open Scope Z_scope.

Section runs.
Context {W : Type} {H : Host W}.
Implicit Types (s : st W) (a : Agent) (l : list asked).

(** [run_sent]: batches of reports on their way; [run_accepted]: what the controller has
    accepted; [run_looks]: the passes made so far. *)
Record agent_run := {
  run_st : st W;
  run_sent : list (list RunnerReport);
  run_accepted : list RunnerReport;
  run_looks : list look
}.

Definition fresh s : st W := {| st_agent := st_agent s; st_world := st_world s; st_calls := [] |}.

Inductive run_step : agent_run -> agent_run -> Prop :=
  (** The controller accepts a batch, and the answer reaches the agent -- or not. *)
  | run_accept s sent acc lks reports s' :
      reports ∈ sent -> sendReports true reports s = (tt, s') ->
      run_step {| run_st := s; run_sent := sent; run_accepted := acc; run_looks := lks |}
               {| run_st := s'; run_sent := sent; run_accepted := acc ++ reports; run_looks := lks |}
  | run_accept_unheard s sent acc lks reports :
      reports ∈ sent ->
      run_step {| run_st := s; run_sent := sent; run_accepted := acc; run_looks := lks |}
               {| run_st := s; run_sent := sent; run_accepted := acc ++ reports; run_looks := lks |}
  | run_reconcile s sent acc lks reports err s' :
      ReconcileOnce (fresh s) = ((reports, err), s') ->
      run_step {| run_st := s; run_sent := sent; run_accepted := acc; run_looks := lks |}
               {| run_st := s'; run_sent := sent ++ [reports]; run_accepted := acc;
                  run_looks := lks ++ [{| lk_at := (host_now (st_world s)).1; lk_calls := st_calls s'; lk_reports := reports |}] |}
  (** A beat carries every runner; one that is answered is accepted. *)
  | run_beat s sent acc lks answer reports s0 s' :
      Agent_Runners s = (reports, s0) -> heartbeat answer s = (tt, s') ->
      run_step {| run_st := s; run_sent := sent; run_accepted := acc; run_looks := lks |}
               {| run_st := s'; run_sent := sent; run_accepted := acc ++ match answer with Some _ => reports | None => [] end;
                  run_looks := lks |}
  | run_task s sent acc lks task res s' :
      runTask task (fresh s) = (res, s') ->
      run_step {| run_st := s; run_sent := sent; run_accepted := acc; run_looks := lks |} {| run_st := s'; run_sent := sent; run_accepted := acc; run_looks := lks |}
  | run_adopt s sent acc lks s' :
      adoptExisting (fresh s) = (tt, s') ->
      run_step {| run_st := s; run_sent := sent; run_accepted := acc; run_looks := lks |} {| run_st := s'; run_sent := sent; run_accepted := acc; run_looks := lks |}
  (** The poll, the claims other tasks hold, and the host itself go their own way. *)
  | run_others s sent acc lks polled c w :
      run_step {| run_st := s; run_sent := sent; run_accepted := acc; run_looks := lks |}
               {| run_st := {| st_agent := set_claims (set_flags (st_agent s) polled (ag_mutationsPaused (st_agent s))) c;
                               st_world := w; st_calls := st_calls s |}; run_sent := sent; run_accepted := acc; run_looks := lks |}.

(** An agent that has just started knows of no runners and no orphans; its host may have any. *)
Definition run_started (r : agent_run) : Prop :=
  ag_runners (st_agent (run_st r)) = ∅ /\ ag_orphans (st_agent (run_st r)) = ∅ /\ run_accepted r = [] /\ run_looks r = [].
Definition run_reached (r : agent_run) : Prop := exists r0, run_started r0 /\ rtc run_step r0 r.

Definition told_by (accepted : list RunnerReport) (id : string) (state : RunnerState) : Prop :=
  exists rep, rep ∈ accepted /\ rp_RunnerID rep = id /\ rp_State rep = Some state.

(** ** The records stay sound *)
Section sound.
Context (told : string -> RunnerState -> Prop).
Definition Sst s : Prop := sound told (st_agent s).

Lemma S_quiet {A} (m : M W A) : untouching m -> triple Sst m (fun _ => Sst).
Proof. intros Hm s Hs. specialize (Hm s). destruct (m s) as [x s']. destruct Hm as [E _]. cbn in E. unfold Sst, sound. by rewrite E. Qed.
Lemma S_adopt id k w : triple Sst (adopt id k w) (fun _ => Sst).
Proof.
  unfold adopt. eapply t_bind; [apply S_quiet; auto with agent|]. intros t. eapply t_pre; [apply t_modify|].
  intros s Hs. cbn. destruct (ag_runners (st_agent s) !! id); [done|]. intros i x. cbn.
  rewrite lookup_insert_Some. intros [[<- <-]|[_ Hx]]; [apply adopted_ok|by apply Hs].
Qed.
Lemma S_untrack id : triple Sst (untrack id) (fun _ => Sst).
Proof. intros s Hs. cbn. by apply (sound_delete told (set_orphans _ _)). Qed.
Lemma S_search id kinds : forall errs, triple Sst (search id kinds errs) (fun _ => Sst).
Proof.
  induction kinds as [|k kinds IH]; intros errs; cbn [search]; [by intros s|].
  eapply t_bind; [apply S_quiet; auto with agent|]. intros a. destruct (Registry_Get _ _); [|apply IH].
  eapply t_bind; [apply S_quiet; auto with agent|]. intros [ws|e]; [|apply IH].
  destruct (List.find _ ws); [|apply IH]. eapply t_bind; [apply S_adopt|]. intros []. by intros s.
Qed.
Lemma S_resolve id : triple Sst (resolve id) (fun _ => Sst).
Proof.
  unfold resolve. eapply t_bind; [apply S_quiet; auto with agent|]. intros a. cbv zeta.
  destruct (ag_runners a !! id); [|apply S_search]. destruct (Registry_Get _ _); [by intros s|apply S_search].
Qed.
Lemma S_resolve_retry id ds : triple Sst (resolve_retry id ds) (fun _ => Sst).
Proof.
  induction ds as [|d ds IH]; cbn [resolve_retry]; (eapply t_bind; [apply S_resolve|]); intros [x [e|]]; cbn; try by intros s.
  eapply t_bind; [apply S_quiet; auto with agent|]. intros []; cbn; [apply IH|by intros s].
Qed.
Lemma quiet_passed t : untouching (passed t).
Proof. unfold passed. destruct (Time_IsZero t); auto with agent. Qed.
Lemma quiet_Create k sp : untouching (Create k sp).
Proof. unfold Create. auto with agent. Qed.
Lemma quiet_Stop k h t : untouching (Stop k h t).
Proof. unfold Stop. auto with agent. Qed.
#[local] Hint Resolve quiet_passed quiet_Create quiet_Stop : agent.
Lemma quiet_attempts k sp n : forall i, untouching (create_attempts k sp i n).
Proof.
  induction n as [|n IH]; intros i; cbn [create_attempts]; (apply quiet_bind; [auto with agent|]; intros []; [auto with agent|];
    apply quiet_bind; [auto with agent|]; intros []; [auto with agent|]; apply quiet_bind; [auto with agent|]; intros [h|e]; auto with agent).
Qed.
Lemma quiet_failure task msg fault : untouching (W := W) (reportFailure task msg fault).
Proof. unfold reportFailure. auto with agent. Qed.
Lemma quiet_unsearchable task e : untouching (W := W) (reportUnsearchable task e).
Proof. unfold reportUnsearchable. auto with agent. Qed.
#[local] Hint Resolve quiet_attempts quiet_failure quiet_unsearchable : agent.

Lemma S_handleCreate task spec : triple Sst (handleCreate task spec) (fun _ => Sst).
Proof.
  unfold handleCreate. cbv zeta. eapply t_bind; [apply S_quiet; auto with agent|]. intros a.
  destruct (Registry_Get _ _); [|apply S_quiet; auto with agent].
  eapply t_bind; [apply S_resolve_retry|]. intros [found [e|]].
  - apply S_quiet. destruct found as [[? ?]|]; (apply quiet_bind; [auto with agent|]; intros ?; destruct (_ =? 1); auto with agent).
  - destruct found as [[k' h]|]; [apply S_quiet; auto 8 with agent|].
    eapply t_bind; [apply S_quiet; auto with agent|]. intros [[h|e]|]; [|apply S_quiet; auto with agent..].
    eapply t_bind; [apply S_quiet; auto with agent|]. intros t. eapply t_bind with (R := fun _ => Sst).
    + intros s Hs. cbn. intros i x. cbn. rewrite lookup_insert_Some. intros [[<- <-]|[_ Hx]]; [|by apply Hs]. by split.
    + intros []. apply S_quiet. auto with agent.
Qed.

Lemma S_handleStop task : triple Sst (handleStop task) (fun _ => Sst).
Proof.
  unfold handleStop. cbv zeta. eapply t_bind; [apply S_resolve|]. intros [[[k h]|] [e|]]; [| |apply S_quiet; auto 8 with agent..].
  all: eapply t_bind with (R := fun _ => Sst);
    [intros s Hs; cbn; apply sound_alter; [done|]; intros r _ [O1 O2 O3 O4]; by split|].
  all: intros []; apply S_quiet; apply quiet_bind; [auto with agent|]; intros err; destruct (not_gone err); auto 8 with agent.
Qed.

Lemma S_removed task h : triple Sst (removed task h) (fun _ => Sst).
Proof.
  unfold removed. eapply t_bind; [apply S_quiet; auto with agent|]. intros t.
  eapply t_bind; [apply S_quiet; auto with agent|]. intros ?. eapply t_bind; [apply S_untrack|]. intros [].
  apply S_quiet. auto 8 with agent.
Qed.
Lemma quiet_removeFailure task k h e : untouching (W := W) (reportRemoveFailure task k h e).
Proof.
  unfold reportRemoveFailure. apply quiet_bind; [auto with agent|]. intros t. apply quiet_bind; [auto with agent|].
  intros [since []]; cbv zeta; auto with agent.
Qed.
Lemma quiet_everywhere id kinds : untouching (W := W) (remove_everywhere id kinds).
Proof.
  induction kinds as [|k kinds IH]; cbn [remove_everywhere]; [auto with agent|]. apply quiet_bind; [auto with agent|].
  intros a. apply quiet_bind; [destruct (Registry_Get _ _); auto with agent|]. intros []; auto with agent.
Qed.
#[local] Hint Resolve quiet_removeFailure quiet_everywhere : agent.

Lemma S_handleRemove task : triple Sst (handleRemove task) (fun _ => Sst).
Proof.
  unfold handleRemove. cbv zeta. eapply t_bind; [apply S_resolve|]. intros [[[k h]|] [e|]]; [| |apply S_quiet; auto 8 with agent|].
  1,2: eapply t_bind; [apply S_quiet; auto with agent|]; intros [e'|]; [apply S_quiet; auto 8 with agent|apply S_removed].
  eapply t_bind; [apply S_quiet; auto with agent|]. intros a. eapply t_bind; [apply S_quiet; auto with agent|].
  intros [[k e]|]; [|apply S_removed]. apply S_quiet. apply quiet_bind; [auto with agent|]. intros ?. destruct (errors_Is _ _); auto with agent.
Qed.

Lemma S_runTask task : triple Sst (runTask task) (fun _ => Sst).
Proof.
  unfold runTask. destruct (t_Kind task); try (apply S_quiet; solve [auto 8 with agent]).
  - destruct (t_Spec task); [apply S_handleCreate|by intros s].
  - apply S_handleStop.
  - apply S_handleRemove.
Qed.

Lemma S_adoptExisting : triple Sst adoptExisting (fun _ => Sst).
Proof.
  unfold adoptExisting. eapply t_bind; [apply S_quiet; auto with agent|]. intros a. apply (t_fold (fun _ => Sst)). intros k u _.
  eapply t_bind with (R := fun _ => Sst); [by intros s|]. intros []. eapply t_bind; [apply S_quiet; auto with agent|]. intros b'.
  destruct (Registry_Get _ _); [|by intros s]. eapply t_bind; [apply S_quiet; auto with agent|]. intros [ws|e]; [|by intros s].
  eapply t_bind with (R := fun _ => Sst); [|intros []; by intros s]. apply (t_fold (fun _ => Sst)). intros w v _.
  destruct (_ || _); [by intros s|apply S_adopt].
Qed.

Lemma sound_mark a rep :
  sound told a -> (forall state, rp_State rep = Some state -> told (rp_RunnerID rep) state) -> sound told (mark_one a rep).
Proof.
  intros Hs Ht. unfold mark_one. destruct (negb _); [done|]. destruct (ag_runners a !! rp_RunnerID rep) as [r|] eqn:Er; [|done].
  destruct (tr_terminal r && _) eqn:Et; [|done]. bool_to_prop. destruct (_ && _); [by apply sound_delete|].
  apply sound_insert; [done|]. destruct (Hs _ _ Er) as [O1 O2 O3 O4]. split; cbn; [done|done| |done].
  intros _. split; [done|]. intros state Hstate. apply Ht. congruence.
Qed.
Lemma sound_marks reports : forall a,
  sound told a -> (forall rep state, rep ∈ reports -> rp_State rep = Some state -> told (rp_RunnerID rep) state) ->
  sound told (foldl mark_one a reports).
Proof.
  induction reports as [|rep reports IH]; intros a Ha Ht; [done|]. cbn. apply IH.
  - apply sound_mark; [done|]. intros state. apply Ht. by left.
  - intros x state Hx. apply Ht. by right.
Qed.
Lemma sound_release ids : forall a, sound told a -> sound told (foldl release_unknown a ids).
Proof.
  induction ids as [|id ids IH]; intros a Ha; [done|]. cbn. apply IH. unfold release_unknown.
  destruct (ag_runners a !! id) as [r|]; [|done]. destruct (tr_terminal r); [done|]. by apply sound_delete.
Qed.
End sound.
End runs.

Section reached.
Context {W : Type} {H : Host W}.

Lemma sound_mono (told told' : string -> RunnerState -> Prop) a :
  (forall id state, told id state -> told' id state) -> sound told a -> sound told' a.
Proof. intros Hm Hs id r Hr. destruct (Hs id r Hr) as [O1 O2 O3 O4]. split; [done|done| |done]. intros Hrep. destruct (O3 Hrep). eauto. Qed.

Lemma told_by_app acc acc' id state : told_by acc id state -> told_by (acc ++ acc') id state.
Proof. intros (rep & Hrep & ?). exists rep. split; [apply elem_of_app; by left|done]. Qed.

Lemma told_by_in acc reports rep state :
  rep ∈ reports -> rp_State rep = Some state -> told_by (acc ++ reports) (rp_RunnerID rep) state.
Proof. intros Hrep Hs. exists rep. split_and!; [apply elem_of_app; by right|done..]. Qed.

(** A beat that is answered marks what it carried. *)
Lemma heartbeat_sound told (s s' : st W) answer reports s0 :
  Agent_Runners s = (reports, s0) -> heartbeat answer s = (tt, s') ->
  (answer <> None -> forall rep state, rep ∈ reports -> rp_State rep = Some state -> told (rp_RunnerID rep) state) ->
  sound told (st_agent s) -> sound told (st_agent s').
Proof.
  intros Hr Hb Ht Hs. unfold heartbeat in Hb. unfold mbind at 1, M_bind at 1 in Hb. rewrite Hr in Hb.
  assert (s0 = s) as -> by (unfold Agent_Runners in Hr; by injection Hr).
  destruct answer as [[paused unknown]|]; [|by injection Hb as <-].
  assert (Hm : sound told (foldl mark_one (set_flags (st_agent s) (ag_polled (st_agent s)) paused) reports)).
  { apply sound_marks; [exact Hs|]. by apply Ht. }
  destruct paused; injection Hb as <-; [exact Hm|]. cbn. by apply sound_release.
Qed.

Lemma run_step_sound (r r' : agent_run (W := W)) :
  run_step r r' -> sound (told_by (run_accepted r)) (st_agent (run_st r)) -> sound (told_by (run_accepted r')) (st_agent (run_st r')).
Proof.
  intros Hstep Hs. destruct Hstep as [s sent acc lks reports s' Hin E|s sent acc lks reports Hin|s sent acc lks reports err s' E|
    s sent acc lks answer reports s0 s' Er E|s sent acc lks task res s' E|s sent acc lks s' E|s sent acc lks polled c w]; cbn in *.
  - injection E as <-. apply sound_marks.
    + by apply (sound_mono (told_by acc)); [intros; apply told_by_app|].
    + intros rep state. apply told_by_in.
  - by apply (sound_mono (told_by acc)); [intros; apply told_by_app|].
  - assert (Ht := t_ReconcileOnce (told_by acc) (fresh s) Hs eq_refl). rewrite E in Ht. apply Ht.
  - eapply heartbeat_sound; [exact Er|exact E| |].
    + intros Ha rep state Hin. destruct answer; [|done]. by apply told_by_in.
    + by apply (sound_mono (told_by acc)); [intros; apply told_by_app|].
  - assert (Ht := S_runTask (told_by acc) task (fresh s) Hs). rewrite E in Ht. exact Ht.
  - assert (Ht := S_adoptExisting (told_by acc) (fresh s) Hs). rewrite E in Ht. exact Ht.
  - exact Hs.
Qed.

Lemma reached_sound (r : agent_run (W := W)) : run_reached r -> sound (told_by (run_accepted r)) (st_agent (run_st r)).
Proof.
  intros (r0 & (He & _ & Ha & _) & Hs). assert (H0 : sound (told_by (run_accepted r0)) (st_agent (run_st r0))).
  { intros id t Ht. by rewrite He, lookup_empty in Ht. }
  clear He Ha. induction Hs as [|r0 r1 r2 Hstep _ IH]; [done|]. by apply IH, run_step_sound with (r := r0).
Qed.

(** The times in the agent's records are those of the looks of the run. *)
Lemma run_step_settled (r r' : agent_run (W := W)) :
  run_step r r' -> settled (run_looks r) (st_agent (run_st r)) -> settled (run_looks r') (st_agent (run_st r')).
Proof.
  assert (Hages : forall A (m : M W A) lks s x s', ages m -> m (fresh s) = (x, s') -> settled lks (st_agent s) -> settled lks (st_agent s')).
  { intros A m lks s x s' Hm E Hs. destruct (Hm (fresh s)) as [Ho _]. rewrite E in Ho. by eapply older_settled. }
  intros Hstep Hs. destruct Hstep as [s sent acc lks reports s' Hin E|s sent acc lks reports Hin|s sent acc lks reports err s' E|
    s sent acc lks answer reports s0 s' Er E|s sent acc lks task res s' E|s sent acc lks s' E|s sent acc lks polled c w]; cbn in *.
  - injection E as <-. by apply settled_marks.
  - done.
  - assert (Hd := D_ReconcileOnce lks _ (fresh s) eq_refl Hs eq_refl). rewrite E in Hd. apply dated_settled, Hd.
  - assert (Hb := settled_heartbeat lks answer s Hs). by rewrite E in Hb.
  - by eapply Hages; [apply ages_runTask|exact E|].
  - by eapply Hages; [apply ages_adoptExisting|exact E|].
  - done.
Qed.

Lemma reached_settled (r : agent_run (W := W)) : run_reached r -> settled (run_looks r) (st_agent (run_st r)).
Proof.
  intros (r0 & (He & Ho & _) & Hs). assert (H0 : settled (run_looks r0) (st_agent (run_st r0))).
  { split; [intros h t|intros id t]; by rewrite ?Ho, ?He, lookup_empty. }
  clear He Ho. induction Hs as [|r0 r1 r2 Hstep _ IH]; [done|]. by apply IH, run_step_settled with (r := r0).
Qed.

(** What the looks of a run say of a workload: one of them reported the end of its runner,
    as long ago as output is kept; one of them found it with nobody claiming it, two minutes
    ago. *)
Definition ended_since (looks : list look) (now : Time) (a : Agent) (w : Workload) : Prop :=
  exists lk, lk ∈ looks /\ found_ended (lk_reports lk) (w_RunnerID w) /\ ag_retention a <= Time_Sub now (lk_at lk).
Definition unclaimed_since (looks : list look) (now : Time) (w : Workload) : Prop :=
  exists lk, lk ∈ looks /\ found_unclaimed (lk_calls lk) (w_Handle w) /\ orphanGrace <= Time_Sub now (lk_at lk).

Lemma finished_since looks told now calls said a w :
  dated looks now calls said a -> finished told now a w -> ended_since looks now a w.
Proof.
  intros [_ Hd] (_ & _ & r & state & Hr & Ht & Hrep & _ & _ & _ & Hret). specialize (Hd _ _ Hr). rewrite Ht in Hd.
  destruct Hd as [(lk & Hlk & E & Hf)|(_ & Hn & _)]; [|congruence]. exists lk. by rewrite E.
Qed.
Lemma orphaned_since looks now calls said a w :
  dated looks now calls said a -> orphaned now a w -> unclaimed_since looks now w.
Proof.
  intros [Hd _] (_ & _ & first & Hf & Hg). destruct (Hd _ _ Hf) as [(lk & Hlk & E & Hl)|[-> _]].
  - exists lk. by rewrite E.
  - unfold Time_Sub in Hg. rewrite Z.sub_diag in Hg. by vm_compute in Hg.
Qed.

(** C11: Nothing is deleted too soon.  In every run, when the agent looks at its host, a
    removal it asks for is of a workload it has just been shown, or of a companion of one,
    with the runner's claim held and the controller not having paused it.  That workload is
    either the stopped workload of a runner whose end the controller has accepted a report
    of, and an earlier look had reported that end as long ago as output is kept; or one that
    no runner the agent knows owns, since the controller was first heard, and a look two
    minutes earlier had found it with nobody claiming it. *)
Theorem nothing_deleted_too_soon (r : agent_run (W := W)) :
  run_reached r ->
  let now := fst (host_now (st_world (run_st r))) in
  let '(_, s') := ReconcileOnce (fresh (run_st r)) in
  forall before e after k h, st_calls s' = before ++ e :: after -> as_call e = CRemove k h ->
  exists w, listed before k w /\
    (h = w_Handle w \/ exists c, listed before k c /\ w_Sidecar c = true /\ w_RunnerID c = w_RunnerID w /\ h = w_Handle c) /\
    may_delete (told_by (run_accepted r)) now (as_agent e) w /\
    ((finished (told_by (run_accepted r)) now (as_agent e) w /\ ended_since (run_looks r) now (as_agent e) w) \/
     (orphaned now (as_agent e) w /\ unclaimed_since (run_looks r) now w)).
Proof.
  intros Hr now. assert (Ht := t_ReconcileOnce _ (fresh (run_st r)) (reached_sound r Hr) eq_refl).
  assert (Hd := D_ReconcileOnce (run_looks r) now (fresh (run_st r)) eq_refl (reached_settled r Hr) eq_refl).
  destruct (ReconcileOnce (fresh (run_st r))) as [[reports err] s']. destruct Ht as [_ Hj], Hd as [_ Hd].
  intros before e after k h E Hc. specialize (Hj _ _ _ E). unfold justified in Hj. rewrite Hc in Hj.
  destruct Hj as (w & Hw & Hm & Hh). exists w. do 3 (split; [done|]).
  assert (He : e ∈ st_calls s') by (rewrite E; apply elem_of_app; right; by left).
  destruct (proj2 (proj2 Hm)) as [Hf|Ho]; [left|right]; (split; [done|]).
  - by eapply finished_since; [apply Hd|].
  - by eapply orphaned_since; [apply Hd|].
Qed.
End reached.
