(* ===== verification/TaskQueue.v ===== *)
(** * A host's queue of tasks (controller/agents.go)

    The controller keeps a queue of tasks for every host, in memory.  A task is pending
    until a poll takes it, then in flight under a lease until the agent answers; one whose
    lease runs out is offered again, up to [maxAttempts] times.  Delivery is therefore at
    least once, and the agent's handlers (AgentTasks.v) are written for it.

    A poll waits on a channel that holds one token ([tq_wake]).  What is put in the queue
    is put there under the queue's lock and announced after the lock is let go, so the two
    are steps of their own here ([q_step]); between them anything may happen. *)
From Stdlib Require Import ZArith Lia Ascii String.
From stdpp Require Import base strings list gmap relations sets.
From S2P Require Import Prelude GoString Store Backend Claims.
Local Open Scope string_scope.
Local Open Scope list_scope.
Local Open Scope Z_scope.

(** ** Data *)
Definition createLease : Duration := 20 * Minute.
Definition mergeLease : Duration := 10 * Minute.
Definition stopLease : Duration := 10 * Minute.
Definition removeLease : Duration := 5 * Minute.
Definition prewarmLease : Duration := 20 * Minute.
Definition toolFillLease : Duration := 50 * Minute.
Definition maxTaskAttempts : Z := 3.
Definition hostCheckLease : Duration := 90 * Second.
Definition hostCheckPendingTTL : Duration := 20 * Second.
Definition updateLease : Duration := 5 * Minute.
Definition maxTasksPerPoll : nat := 20.
Definition pollShedThreshold : Z := 256.
Definition maxPollShed : Duration := 15 * Second.
Definition DefaultPollWait : Duration := 25 * Second.

(** An int64 division by a positive constant. *)
Definition shedFor (inFlight : Z) : Duration :=
  let over := inFlight -% pollShedThreshold in
  if over <=? 0 then 0 else Z.min (Z.quot (over *% maxPollShed) pollShedThreshold) maxPollShed.

(** The copy kept of a create for the record of experiments is left out. *)
Record leasedTask := { lt_task : Task; lt_key : string; lt_attempts : Z; lt_expires : Time }.

Record taskQueue := {
  tq_retired : bool;
  tq_pending : list leasedTask;
  tq_inflight : gmap string leasedTask;
  tq_wake : bool;
  tq_polling : bool
}.

Definition new_queue : taskQueue :=
  {| tq_retired := false; tq_pending := []; tq_inflight := ∅; tq_wake := false; tq_polling := false |}.

Definition with_tasks (q : taskQueue) (pending : list leasedTask) (inflight : gmap string leasedTask) : taskQueue :=
  {| tq_retired := tq_retired q; tq_pending := pending; tq_inflight := inflight; tq_wake := tq_wake q; tq_polling := tq_polling q |}.
Definition with_wake (q : taskQueue) (wake : bool) : taskQueue :=
  {| tq_retired := tq_retired q; tq_pending := tq_pending q; tq_inflight := tq_inflight q; tq_wake := wake; tq_polling := tq_polling q |}.
Definition with_polling (q : taskQueue) (polling : bool) : taskQueue :=
  {| tq_retired := tq_retired q; tq_pending := tq_pending q; tq_inflight := tq_inflight q; tq_wake := tq_wake q; tq_polling := polling |}.

(** ** One task *)
Definition taskKey (t : Task) : string :=
  let kind := TaskKind_string (t_Kind t) in
  match t_Kind t with
  | TaskPrewarmImage => kind +:+ ":" +:+ t_PoolID t +:+ ":" +:+ t_Image t
  | TaskFillToolCache => kind +:+ ":" +:+ t_PoolID t
  | TaskUpdateAgent => kind +:+ ":" +:+ t_UpdateID t
  | TaskMergeConflict => kind +:+ ":" +:+ t_MergeID t
  | _ => if negb (str_eqb (t_StreamID t) "") then kind +:+ "|stream:" +:+ t_StreamID t else kind +:+ "|" +:+ t_RunnerID t
  end.

Definition requeueAfter (kind : TaskKind) : Duration :=
  match kind with
  | TaskCreateRunner => createLease
  | TaskStopRunner => stopLease
  | TaskRemoveRunner => removeLease
  | TaskPrewarmImage => prewarmLease
  | TaskFillToolCache => toolFillLease
  | TaskCheckHost => hostCheckLease
  | TaskUpdateAgent => updateLease
  | TaskMergeConflict => mergeLease
  | _ => 0
  end.

Definition maxAttempts (kind : TaskKind) : Z := if is_kind kind TaskCheckHost then 1 else maxTaskAttempts.

Definition lifecycleTask (kind : TaskKind) : bool :=
  match kind with TaskCreateRunner | TaskStopRunner | TaskRemoveRunner => true | _ => false end.

(** A task with the fields a delivery stamps. *)
Definition delivery (t : Task) (issued : Time) (attempt : Z) : Task :=
  {| t_ID := t_ID t; t_Kind := t_Kind t; t_RunnerID := t_RunnerID t; t_Spec := t_Spec t; t_Backend := t_Backend t;
     t_PoolID := t_PoolID t; t_Image := t_Image t; t_PullPolicy := t_PullPolicy t; t_StopTimeout := t_StopTimeout t;
     t_IssuedAt := issued; t_StreamID := t_StreamID t; t_Tools := t_Tools t; t_Attempt := attempt; t_UpdateID := t_UpdateID t;
     t_UpdateTag := t_UpdateTag t; t_MergeID := t_MergeID t; t_MergeImage := t_MergeImage t; t_MergeAncestor := t_MergeAncestor t;
     t_MergeBase := t_MergeBase t; t_MergeHead := t_MergeHead t |}.

(** ** The queue's operations

    [signal]: the send on [wake], which finds room or not. *)
Definition signal (q : taskQueue) : taskQueue := with_wake q true.

Definition outstanding_key (q : taskQueue) (key : string) : bool :=
  existsb (fun lt => str_eqb (lt_key lt) key) (tq_pending q) ||
  existsb (fun x => str_eqb (lt_key x.2) key) (map_to_list (tq_inflight q)).

(** What [enqueue] does with the lock held. *)
Definition enqueue_locked (q : taskQueue) (t : Task) : option taskQueue :=
  if tq_retired q then None
  else if outstanding_key q (taskKey t) then None
  else Some (with_tasks q (tq_pending q ++ [{| lt_task := t; lt_key := taskKey t; lt_attempts := 0; lt_expires := 0 |}]) (tq_inflight q)).

Definition enqueueTask (q : taskQueue) (t : Task) : bool * taskQueue :=
  match enqueue_locked q t with Some q' => (true, signal q') | None => (false, q) end.

Definition leased (lt : leasedTask) (now : Time) : leasedTask :=
  let attempts := lt_attempts lt + 1 in
  let lease := requeueAfter (t_Kind (lt_task lt)) in
  {| lt_task := delivery (lt_task lt) now attempts; lt_key := lt_key lt; lt_attempts := attempts;
     lt_expires := if 0 <? lease then now + lease else 0 |}.

Definition fly (m : gmap string leasedTask) (lt : leasedTask) : gmap string leasedTask := <[t_ID (lt_task lt) := lt]> m.

Definition take_tasks (q : taskQueue) (n : nat) (now : Time) : list Task * taskQueue :=
  if tq_retired q then ([], q)
  else
    let out := (fun lt => leased lt now) <$> firstn n (tq_pending q) in
    (lt_task <$> out, with_tasks q (skipn n (tq_pending q)) (foldl fly (tq_inflight q) out)).

Definition peek (q : taskQueue) (taskID : string) : option Task := lt_task <$> tq_inflight q !! taskID.

Definition complete (q : taskQueue) (taskID : string) : option Task * taskQueue :=
  match tq_inflight q !! taskID with
  | Some lt => (Some (lt_task lt), with_tasks q (tq_pending q) (delete taskID (tq_inflight q)))
  | None => (None, q)
  end.

Inductive redelivery := redelivered | notInFlight | outOfAttempts.

Definition redeliver_locked (q : taskQueue) (taskID : string) : redelivery * taskQueue :=
  match tq_inflight q !! taskID with
  | None => (notInFlight, q)
  | Some lt =>
      if maxAttempts (t_Kind (lt_task lt)) <=? lt_attempts lt then (outOfAttempts, q)
      else (redelivered,
            with_tasks q ({| lt_task := lt_task lt; lt_key := lt_key lt; lt_attempts := lt_attempts lt; lt_expires := 0 |} :: tq_pending q)
                       (delete taskID (tq_inflight q)))
  end.

Definition redeliver (q : taskQueue) (taskID : string) : redelivery * taskQueue :=
  match redeliver_locked q taskID with
  | (redelivered, q') => (redelivered, signal q')
  | r => r
  end.

Definition withdraw (q : taskQueue) (match_ : Task -> bool) (inFlight : bool) : Z * taskQueue :=
  let kept := List.filter (fun lt => negb (match_ (lt_task lt))) (tq_pending q) in
  let flying := if inFlight then filter (fun x => match_ (lt_task x.2) = false) (tq_inflight q) else tq_inflight q in
  (Z.of_nat (length (tq_pending q)) - Z.of_nat (length kept) + (Z.of_nat (size (tq_inflight q)) - Z.of_nat (size flying)),
   with_tasks q kept flying).

(** A lease that has run out. *)
Definition lease_out (now : Time) (lt : leasedTask) : bool := negb (Time_IsZero (lt_expires lt) || Time_Before now (lt_expires lt)).
Definition exhausted (lt : leasedTask) : bool := maxAttempts (t_Kind (lt_task lt)) <=? lt_attempts lt.
(** A check that nobody has come for. *)
Definition stale_check (now : Time) (lt : leasedTask) : bool :=
  is_kind (t_Kind (lt_task lt)) TaskCheckHost && (hostCheckPendingTTL <? Time_Sub now (t_IssuedAt (lt_task lt))).

(** [walk] is the order Go walks the map in. *)
Definition sweep_locked (walk : list leasedTask -> list leasedTask) (q : taskQueue) (now : Time) : Z * list Task * taskQueue :=
  let gone := List.filter (lease_out now) (walk (map_to_list (tq_inflight q)).*2) in
  let again := List.filter (fun lt => negb (exhausted lt)) gone in
  let pending := tq_pending q ++ again in
  (Z.of_nat (length again),
   (lt_task <$> List.filter exhausted gone) ++ (lt_task <$> List.filter (stale_check now) pending),
   with_tasks q (List.filter (fun lt => negb (stale_check now lt)) pending)
              (filter (fun x => lease_out now x.2 = false) (tq_inflight q))).

Definition sweep_queue (walk : list leasedTask -> list leasedTask) (q : taskQueue) (now : Time) : Z * list Task * taskQueue :=
  let '(requeued, dropped, q') := sweep_locked walk q now in
  (requeued, dropped, if 0 <? requeued then signal q' else q').

Definition depth (q : taskQueue) : Z * Z := (Z.of_nat (length (tq_pending q)), Z.of_nat (size (tq_inflight q))).

(** [RetireRecoveryHost], once the store has retired the host. *)
Definition retire (q : taskQueue) : taskQueue :=
  {| tq_retired := true; tq_pending := []; tq_inflight := ∅; tq_wake := tq_wake q; tq_polling := tq_polling q |}.

(** ** A poll

    [PollTasks] is two steps, up to the wait and after it. *)
Record TaskBatch := { tb_Tasks : list Task; tb_Backoff : Duration }.
Definition no_tasks (backoff : Duration) : TaskBatch := {| tb_Tasks := []; tb_Backoff := backoff |}.

(** [ErrHostGone], and the poll that names no host, are errors; [mayAct] is the fence of a
    controller that recovers. *)
Inductive polled := Gone | NoHost | Answered (batch : TaskBatch) | Waits.

Definition poll_begin (hostRetired mayAct : bool) (hostID : string) (now : Time) (q : taskQueue) : polled * taskQueue :=
  if hostRetired then (Gone, q)
  else if str_eqb hostID "" then (NoHost, q)
  else if tq_polling q then (Answered (no_tasks 0), q)
  else if negb mayAct then (Answered (no_tasks Second), q)
  else let '(tasks, q') := take_tasks q maxTasksPerPoll now in
       match tasks with
       | [] => (Waits, with_polling q' true)
       | _ => (Answered {| tb_Tasks := tasks; tb_Backoff := 0 |}, q')
       end.

Definition poll_wait (wait : Duration) : Duration :=
  if (wait <=? 0) || (DefaultPollWait <? wait) then DefaultPollWait else wait.

(** What ends the wait. *)
Inductive wakes := Cancelled | TimedOut (shed : Duration) | Woken (mayAct : bool).

Definition poll_end (how : wakes) (now : Time) (q : taskQueue) : TaskBatch * taskQueue :=
  let q := with_polling q false in
  match how with
  | Cancelled => (no_tasks 0, q)
  | TimedOut shed => (no_tasks shed, q)
  | Woken mayAct =>
      let q := with_wake q false in
      if negb mayAct then (no_tasks Second, q)
      else let '(tasks, q') := take_tasks q maxTasksPerPoll now in ({| tb_Tasks := tasks; tb_Backoff := 0 |}, q')
  end.

(** ** The queues of all hosts *)
Definition taskQueues : Type := gmap string taskQueue.
Definition get_queue (t : taskQueues) (hostID : string) : taskQueue := default new_queue (t !! hostID).
Definition forget_queue (t : taskQueues) (hostID : string) : taskQueues := delete hostID t.

(** [Controller.enqueue]; [random] are the bytes of an ID. *)
Definition stamped (t : Task) (random : string) (now : Time) : Task :=
  {| t_ID := if str_eqb (t_ID t) "" then "task_" +:+ random else t_ID t; t_Kind := t_Kind t; t_RunnerID := t_RunnerID t;
     t_Spec := t_Spec t; t_Backend := t_Backend t; t_PoolID := t_PoolID t; t_Image := t_Image t; t_PullPolicy := t_PullPolicy t;
     t_StopTimeout := t_StopTimeout t; t_IssuedAt := if Time_IsZero (t_IssuedAt t) then now else t_IssuedAt t;
     t_StreamID := t_StreamID t; t_Tools := t_Tools t; t_Attempt := t_Attempt t; t_UpdateID := t_UpdateID t;
     t_UpdateTag := t_UpdateTag t; t_MergeID := t_MergeID t; t_MergeImage := t_MergeImage t; t_MergeAncestor := t_MergeAncestor t;
     t_MergeBase := t_MergeBase t; t_MergeHead := t_MergeHead t |}.

Definition controller_enqueue (queues : taskQueues) (hostID : string) (t : Task) (random : string) (now : Time) : bool * taskQueues :=
  if str_eqb hostID "" then (false, queues)
  else let '(ok, q) := enqueueTask (get_queue queues hostID) (stamped t random now) in (ok, <[hostID := q]> queues).

(** ** The runs of a queue

    [qs_owed]: tasks put in the queue that are yet to be announced.  [qs_sent]: every task
    delivered, the first first.  [qs_ids]: the IDs tasks were given, each once. *)
Record qsys := { qs_q : taskQueue; qs_owed : nat; qs_sent : list Task; qs_ids : gset string }.

Inductive qevent :=
  | EPut (t : Task)
  | ESignal
  | EPoll (mayAct : bool) (now : Time)
  | EWake (how : wakes) (now : Time)
  | EComplete (taskID : string)
  | ERedeliver (taskID : string)
  | EWithdraw (match_ : Task -> bool) (inFlight : bool)
  | ESweep (walk : list leasedTask -> list leasedTask) (now : Time)
  | ERetire.

Definition batch_of (p : polled) : list Task := match p with Answered b => tb_Tasks b | _ => [] end.

Inductive q_step : qsys -> qevent -> qsys -> Prop :=
  | q_put q n sent ids t q' :
      t_ID t ∉ ids -> enqueue_locked q t = Some q' ->
      q_step {| qs_q := q; qs_owed := n; qs_sent := sent; qs_ids := ids |} (EPut t)
             {| qs_q := q'; qs_owed := S n; qs_sent := sent; qs_ids := {[t_ID t]} ∪ ids |}
  | q_signal q n sent ids :
      q_step {| qs_q := q; qs_owed := S n; qs_sent := sent; qs_ids := ids |} ESignal
             {| qs_q := signal q; qs_owed := n; qs_sent := sent; qs_ids := ids |}
  | q_poll q n sent ids mayAct now p q' :
      poll_begin false mayAct "host" now q = (p, q') ->
      q_step {| qs_q := q; qs_owed := n; qs_sent := sent; qs_ids := ids |} (EPoll mayAct now)
             {| qs_q := q'; qs_owed := n; qs_sent := sent ++ batch_of p; qs_ids := ids |}
  (** The poll that waits comes back; it is woken by the token only. *)
  | q_wakes q n sent ids how now b q' :
      tq_polling q = true -> (forall mayAct, how = Woken mayAct -> tq_wake q = true) -> poll_end how now q = (b, q') ->
      q_step {| qs_q := q; qs_owed := n; qs_sent := sent; qs_ids := ids |} (EWake how now)
             {| qs_q := q'; qs_owed := n; qs_sent := sent ++ tb_Tasks b; qs_ids := ids |}
  | q_complete q n sent ids id :
      q_step {| qs_q := q; qs_owed := n; qs_sent := sent; qs_ids := ids |} (EComplete id)
             {| qs_q := (complete q id).2; qs_owed := n; qs_sent := sent; qs_ids := ids |}
  | q_redeliver q n sent ids id r q' :
      redeliver_locked q id = (r, q') ->
      q_step {| qs_q := q; qs_owed := n; qs_sent := sent; qs_ids := ids |} (ERedeliver id)
             {| qs_q := q'; qs_owed := match r with redelivered => S n | _ => n end; qs_sent := sent; qs_ids := ids |}
  | q_withdraw q n sent ids m inFlight :
      q_step {| qs_q := q; qs_owed := n; qs_sent := sent; qs_ids := ids |} (EWithdraw m inFlight)
             {| qs_q := (withdraw q m inFlight).2; qs_owed := n; qs_sent := sent; qs_ids := ids |}
  | q_sweep q n sent ids walk now again dropped q' :
      (forall l, walk l ≡ₚ l) -> sweep_locked walk q now = (again, dropped, q') ->
      q_step {| qs_q := q; qs_owed := n; qs_sent := sent; qs_ids := ids |} (ESweep walk now)
             {| qs_q := q'; qs_owed := if 0 <? again then S n else n; qs_sent := sent; qs_ids := ids |}
  | q_retire q n sent ids :
      q_step {| qs_q := q; qs_owed := n; qs_sent := sent; qs_ids := ids |} ERetire
             {| qs_q := retire q; qs_owed := n; qs_sent := sent; qs_ids := ids |}.

Definition q_steps (y y' : qsys) : Prop := exists e, q_step y e y'.
Definition q_new : qsys := {| qs_q := new_queue; qs_owed := 0; qs_sent := []; qs_ids := ∅ |}.
Definition q_reached (y : qsys) : Prop := rtc q_steps q_new y.
(** ** What is outstanding, and what was delivered *)
Definition lt_id (lt : leasedTask) : string := t_ID (lt_task lt).
(** The task without what a delivery stamps. *)
Definition bare (t : Task) : Task := delivery t 0 0.
Definition outstanding (q : taskQueue) : list leasedTask := tq_pending q ++ (map_to_list (tq_inflight q)).*2.
(** The attempts the deliveries of a task said they were, the first first. *)
Definition attempts_of (id : string) (sent : list Task) : list Z := t_Attempt <$> filter (fun t => t_ID t = id) sent.

Section deliveries.
Implicit Types (L : list leasedTask) (sent : list Task) (ids : gset string) (lt : leasedTask).

Record outs_ok L sent ids : Prop := {
  oo_ids : NoDup (lt_id <$> L);
  oo_keys : NoDup (lt_key <$> L);
  oo_key lt : lt ∈ L -> lt_key lt = taskKey (lt_task lt);
  oo_known lt : lt ∈ L -> lt_id lt ∈ ids;
  oo_sent t : t ∈ sent -> t_ID t ∈ ids;
  oo_numbers id : attempts_of id sent = Z.of_nat <$> seq 1 (length (attempts_of id sent));
  oo_count lt : lt ∈ L -> lt_attempts lt = Z.of_nat (length (attempts_of (lt_id lt) sent));
  oo_bound t : t ∈ sent -> Z.of_nat (length (attempts_of (t_ID t) sent)) <= maxAttempts (t_Kind t);
  oo_same lt t : lt ∈ L -> t ∈ sent -> t_ID t = lt_id lt -> bare t = bare (lt_task lt);
  oo_one t u : t ∈ sent -> u ∈ sent -> t_ID t = t_ID u -> bare t = bare u
}.

#[global] Instance outs_ok_proper : Proper ((≡ₚ) ==> (=) ==> (=) ==> iff) outs_ok.
Proof.
  assert (H : forall L L' sent ids, L ≡ₚ L' -> outs_ok L sent ids -> outs_ok L' sent ids).
  { intros L L' sent ids HL [H1 H2 H3 H4 H5 H6 H7 H8 H9 H10].
    split; try done; [by rewrite <- HL|by rewrite <- HL|intros lt; rewrite <- HL; auto..|intros lt t; rewrite <- HL; auto]. }
  intros L L' HL sent ? <- ids ? <-. split; by apply H.
Qed.

(** What is taken out of the queue leaves the rest as it is. *)
Lemma outs_ok_drop L r sent ids : outs_ok (L ++ r) sent ids -> outs_ok L sent ids.
Proof.
  intros [H1 H2 H3 H4 H5 H6 H7 H8 H9 H10]. rewrite fmap_app in H1, H2.
  split; try done; [by apply NoDup_app in H1 as (? & _)|by apply NoDup_app in H2 as (? & _)|..].
  - intros lt Hl. apply H3, elem_of_app. by left.
  - intros lt Hl. apply H4, elem_of_app. by left.
  - intros lt Hl. apply H7, elem_of_app. by left.
  - intros lt t Hl. apply H9, elem_of_app. by left.
Qed.

Lemma outs_ok_sub L L' sent ids : L' ⊆+ L -> outs_ok L sent ids -> outs_ok L' sent ids.
Proof. intros (r & ->)%submseteq_Permutation. apply outs_ok_drop. Qed.

(** A change of the lease alone. *)
Lemma outs_ok_lease lt e L sent ids :
  outs_ok (lt :: L) sent ids ->
  outs_ok ({| lt_task := lt_task lt; lt_key := lt_key lt; lt_attempts := lt_attempts lt; lt_expires := e |} :: L) sent ids.
Proof.
  intros [H1 H2 H3 H4 H5 H6 H7 H8 H9 H10]. split; try done.
  - intros x [->|Hx]%elem_of_cons; [apply (H3 lt); by left|apply H3; by right].
  - intros x [->|Hx]%elem_of_cons; [apply (H4 lt); by left|apply H4; by right].
  - intros x [->|Hx]%elem_of_cons; [apply (H7 lt); by left|apply H7; by right].
  - intros x t [->|Hx]%elem_of_cons; [apply (H9 lt); by left|apply H9; by right].
Qed.

Lemma outs_ok_new t L sent ids :
  t_ID t ∉ ids -> taskKey t ∉ lt_key <$> L -> outs_ok L sent ids ->
  outs_ok ({| lt_task := t; lt_key := taskKey t; lt_attempts := 0; lt_expires := 0 |} :: L) sent ({[t_ID t]} ∪ ids).
Proof.
  intros Hid Hkey [H1 H2 H3 H4 H5 H6 H7 H8 H9 H10].
  assert (Hsent : forall u, u ∈ sent -> t_ID u <> t_ID t) by (intros u Hu E; apply Hid; rewrite <- E; by apply H5).
  split; try done.
  - cbn. constructor; [|done]. rewrite list_elem_of_fmap. intros (x & Ex & Hx). apply Hid. unfold lt_id in Ex at 1. cbn in Ex.
    rewrite Ex. by apply H4.
  - cbn. by constructor.
  - intros x [->|Hx]%elem_of_cons; [done|by apply H3].
  - intros x [->|Hx]%elem_of_cons; [set_solver|]. apply H4 in Hx. set_solver.
  - intros u Hu. apply H5 in Hu. set_solver.
  - intros x [->|Hx]%elem_of_cons; [|by apply H7]. cbn. unfold lt_id, attempts_of. cbn.
    destruct (filter _ sent) as [|u l] eqn:E; [done|]. exfalso.
    assert (Hu : u ∈ filter (fun u => t_ID u = t_ID t) sent) by (rewrite E; by left).
    apply list_elem_of_filter in Hu as [Eu Hu]. by apply (Hsent u).
  - intros x u [->|Hx]%elem_of_cons Hu; [|by apply H9]. unfold lt_id. cbn. intros E. by destruct (Hsent u Hu).
Qed.

Lemma attempts_of_snoc id sent t :
  attempts_of id (sent ++ [t]) = attempts_of id sent ++ (if decide (t_ID t = id) then [t_Attempt t] else []).
Proof. unfold attempts_of. rewrite filter_app, fmap_app. f_equal. rewrite filter_cons, filter_nil. by case_decide. Qed.

Lemma bare_leased lt now : bare (lt_task (leased lt now)) = bare (lt_task lt).
Proof. done. Qed.

(** A task is delivered once more. *)
Lemma outs_ok_deliver lt now L sent ids :
  outs_ok (lt :: L) sent ids -> lt_attempts lt < maxAttempts (t_Kind (lt_task lt)) ->
  outs_ok (leased lt now :: L) (sent ++ [lt_task (leased lt now)]) ids.
Proof.
  intros [H1 H2 H3 H4 H5 H6 H7 H8 H9 H10] Hlt. set (t := lt_task (leased lt now)).
  assert (Ht : t_ID t = lt_id lt) by done.
  assert (Hc : t_Attempt t = Z.of_nat (S (length (attempts_of (lt_id lt) sent)))).
  { cbn. rewrite (H7 lt) by by left. lia. }
  assert (Hne : forall x, x ∈ L -> lt_id x <> lt_id lt).
  { intros x Hx E. cbn in H1. apply NoDup_cons in H1 as [H1 _]. apply H1. rewrite <- E. by apply list_elem_of_fmap_2. }
  split.
  - exact H1.
  - exact H2.
  - intros x [->|Hx]%elem_of_cons; [|apply H3; by right]. cbn. apply (H3 lt). by left.
  - intros x [->|Hx]%elem_of_cons; [|apply H4; by right]. apply (H4 lt). by left.
  - intros u. rewrite elem_of_app, list_elem_of_singleton. intros [Hu| ->]; [by apply H5|]. rewrite Ht. apply H4. by left.
  - intros id. rewrite attempts_of_snoc. case_decide as E; [|by rewrite app_nil_r]. rewrite length_app. cbn [length].
    rewrite Nat.add_1_r, seq_S, fmap_app, <- H6. f_equal. rewrite Hc, <- Ht, E. done.
  - intros x [->|Hx]%elem_of_cons.
    + rewrite attempts_of_snoc, decide_True by done. rewrite length_app. cbn [length lt_attempts leased]. rewrite (H7 lt) by by left.
      change (lt_id (leased lt now)) with (lt_id lt). lia.
    + rewrite attempts_of_snoc, decide_False; [|rewrite Ht; by apply not_eq_sym, Hne]. rewrite app_nil_r. apply H7. by right.
  - assert (Hnew : Z.of_nat (length (attempts_of (lt_id lt) (sent ++ [t]))) <= maxAttempts (t_Kind (lt_task lt))).
    { rewrite attempts_of_snoc, decide_True by done. rewrite length_app. cbn [length]. rewrite (H7 lt) in Hlt by by left. lia. }
    intros u. rewrite elem_of_app, list_elem_of_singleton. intros [Hu| ->]; [|by rewrite Ht].
    destruct (decide (t_ID u = lt_id lt)) as [E|E].
    + rewrite E. assert (Hb : bare u = bare (lt_task lt)) by (apply H9; [by left|done|done]).
      assert (Hk : t_Kind u = t_Kind (lt_task lt)) by exact (f_equal t_Kind Hb). by rewrite Hk.
    + rewrite attempts_of_snoc, decide_False by congruence. rewrite app_nil_r. by apply H8.
  - intros x u Hx. rewrite elem_of_app, list_elem_of_singleton. apply elem_of_cons in Hx as [->|Hx].
    + intros [Hu| ->] E; [|done]. rewrite bare_leased. apply H9; [by left|done|done].
    + intros [Hu| ->] E; [apply H9; [by right|done|done]|]. exfalso. apply (Hne x Hx). by rewrite <- E.
  - assert (Hb : forall u, u ∈ sent -> t_ID u = t_ID t -> bare u = bare t).
    { intros u Hu E. unfold t. rewrite bare_leased. apply H9; [by left|done|by rewrite E]. }
    intros u v. rewrite !elem_of_app, !list_elem_of_singleton.
    intros [Hu| ->] [Hv| ->] E; [by apply H10|by apply Hb| |done]. symmetry. by apply Hb.
Qed.

Lemma outs_ok_deliver_all now A : forall L sent ids,
  outs_ok (A ++ L) sent ids -> (forall lt, lt ∈ A -> lt_attempts lt < maxAttempts (t_Kind (lt_task lt))) ->
  outs_ok (((fun lt => leased lt now) <$> A) ++ L) (sent ++ (lt_task <$> ((fun lt => leased lt now) <$> A))) ids.
Proof.
  induction A as [|lt A IH]; intros L sent ids Hok Ha; [by rewrite app_nil_r|].
  cbn [app fmap list_fmap]. rewrite (Permutation_middle _ L (leased lt now)).
  change (sent ++ lt_task (leased lt now) :: ?l) with (sent ++ [lt_task (leased lt now)] ++ l). rewrite app_assoc.
  apply IH; [|intros x Hx; apply Ha; by right]. rewrite <- Permutation_middle. apply outs_ok_deliver; [done|]. apply Ha. by left.
Qed.
End deliveries.

(** ** The invariant of a queue *)
Section queue.
Implicit Types (q : taskQueue) (y : qsys) (lt : leasedTask).

Record q_ok y : Prop := {
  qo_outs : outs_ok (outstanding (qs_q y)) (qs_sent y) (qs_ids y);
  qo_fly id lt : tq_inflight (qs_q y) !! id = Some lt -> lt_id lt = id /\ lt_attempts lt <= maxAttempts (t_Kind (lt_task lt));
  qo_pending lt : lt ∈ tq_pending (qs_q y) -> lt_attempts lt < maxAttempts (t_Kind (lt_task lt));
  qo_retired : tq_retired (qs_q y) = true -> outstanding (qs_q y) = [];
  qo_wake : tq_polling (qs_q y) = true -> tq_pending (qs_q y) = [] \/ tq_wake (qs_q y) = true \/ (0 < qs_owed y)%nat
}.

Lemma fly_all out : forall (m : gmap string leasedTask),
  (forall id lt, m !! id = Some lt -> lt_id lt = id) -> NoDup (lt_id <$> (out ++ (map_to_list m).*2)) ->
  (map_to_list (foldl fly m out)).*2 ≡ₚ out ++ (map_to_list m).*2.
Proof.
  induction out as [|lt out IH]; intros m Hm Hn; [done|]. cbn [foldl app fmap list_fmap] in *.
  apply NoDup_cons in Hn as [Hlt Hn].
  assert (Hfresh : m !! lt_id lt = None).
  { apply eq_None_not_Some. intros [x Hx]. apply Hlt. rewrite fmap_app, elem_of_app. right.
    rewrite <- (Hm _ _ Hx). apply list_elem_of_fmap_2, list_elem_of_fmap. exists (lt_id lt, x).
    split; [done|]. by apply elem_of_map_to_list. }
  assert (Hins : (map_to_list (fly m lt)).*2 ≡ₚ lt :: (map_to_list m).*2).
  { unfold fly. change (t_ID (lt_task lt)) with (lt_id lt). by rewrite map_to_list_insert. }
  rewrite IH.
  - by rewrite Hins, Permutation_middle.
  - intros id x. unfold fly. rewrite lookup_insert_Some. intros [[<- <-]|[_ Hx]]; [done|by apply Hm].
  - rewrite Hins, <- Permutation_middle. cbn. by constructor.
Qed.

Lemma fly_lookup out : forall (m : gmap string leasedTask) id lt,
  foldl fly m out !! id = Some lt -> (lt ∈ out /\ lt_id lt = id) \/ m !! id = Some lt.
Proof.
  induction out as [|x out IH]; intros m id lt H; [by right|]. cbn in H.
  destruct (IH _ _ _ H) as [[Hin E]|Hm]; [left; split; [by right|done]|].
  unfold fly in Hm. apply lookup_insert_Some in Hm as [[<- <-]|[_ Hm]]; [left; split; [by left|done]|by right].
Qed.

Lemma outstanding_in q id lt : tq_inflight q !! id = Some lt -> lt ∈ outstanding q.
Proof.
  intros H. apply elem_of_app. right. apply list_elem_of_fmap. exists (id, lt). split; [done|]. by apply elem_of_map_to_list.
Qed.

(** What is delivered is in flight. *)
Lemma take_outstanding q sent ids n now :
  outs_ok (outstanding q) sent ids -> (forall id lt, tq_inflight q !! id = Some lt -> lt_id lt = id) ->
  outstanding (with_tasks q (skipn n (tq_pending q)) (foldl fly (tq_inflight q) ((fun lt => leased lt now) <$> firstn n (tq_pending q))))
  ≡ₚ ((fun lt => leased lt now) <$> firstn n (tq_pending q)) ++ skipn n (tq_pending q) ++ (map_to_list (tq_inflight q)).*2.
Proof.
  intros Hok Hm. unfold outstanding at 1. cbn [tq_pending tq_inflight with_tasks]. rewrite fly_all; [|done|].
  - apply Permutation_app_swap_app.
  - assert (Hn := oo_ids _ _ _ Hok). unfold outstanding in Hn. rewrite <- (firstn_skipn n (tq_pending q)), !fmap_app in Hn.
    rewrite !fmap_app, <- list_fmap_compose. change (lt_id ∘ (fun lt => leased lt now)) with lt_id.
    rewrite (Permutation_app_comm (lt_id <$> firstn n _)), <- app_assoc in Hn. apply NoDup_app in Hn as (_ & _ & Hn).
    exact Hn.
Qed.

(** What [take_tasks] delivers and leaves. *)
Lemma take_tasks_ok y n now tasks q' :
  take_tasks (qs_q y) n now = (tasks, q') -> q_ok y ->
  let y' := {| qs_q := q'; qs_owed := qs_owed y; qs_sent := qs_sent y ++ tasks; qs_ids := qs_ids y |} in
  outs_ok (outstanding q') (qs_sent y') (qs_ids y') /\
  (forall id lt, tq_inflight q' !! id = Some lt -> lt_id lt = id /\ lt_attempts lt <= maxAttempts (t_Kind (lt_task lt))) /\
  (forall lt, lt ∈ tq_pending q' -> lt_attempts lt < maxAttempts (t_Kind (lt_task lt))) /\
  (tq_retired q' = true -> outstanding q' = []) /\
  tq_wake q' = tq_wake (qs_q y) /\ tq_polling q' = tq_polling (qs_q y) /\ tq_retired q' = tq_retired (qs_q y) /\
  (tq_retired q' = false -> tq_pending q' = skipn n (tq_pending (qs_q y)) /\ length tasks = length (firstn n (tq_pending (qs_q y)))).
Proof.
  destruct y as [q owed sent ids]. unfold take_tasks. intros Ht [H1 H2 H3 H4 H5]. cbn in *.
  destruct (tq_retired q) eqn:Er; injection Ht as <- <-.
  { rewrite app_nil_r, Er. split_and!; done. }
  set (A := firstn n (tq_pending q)). set (B := skipn n (tq_pending q)).
  assert (HAB : tq_pending q = A ++ B) by by unfold A, B; rewrite firstn_skipn.
  unfold outstanding in H1. rewrite HAB, <- app_assoc in H1.
  assert (HA : forall lt, lt ∈ A -> lt_attempts lt < maxAttempts (t_Kind (lt_task lt))).
  { intros lt Hl. apply H3. rewrite HAB. apply elem_of_app. by left. }
  assert (Hd := outs_ok_deliver_all now A _ _ _ H1 HA).
  assert (Hp := take_outstanding q sent ids n now ltac:(unfold outstanding; rewrite HAB, <- app_assoc; done) (fun id lt Hl => proj1 (H2 id lt Hl))).
  fold A B in Hp. split_and!; try done.
  - by rewrite Hp.
  - intros id lt Hl. apply fly_lookup in Hl as [[Hl E]|Hl]; [|by apply H2].
    split; [done|]. apply list_elem_of_fmap in Hl as (x & -> & Hx). cbn. specialize (HA x Hx). lia.
  - intros lt Hl. apply H3. rewrite HAB. apply elem_of_app. by right.
  - cbn. congruence.
  - intros _. split; [done|]. by rewrite !length_fmap.
Qed.

Lemma q_ok_sub y q' owed :
  outstanding q' ⊆+ outstanding (qs_q y) -> tq_inflight q' ⊆ tq_inflight (qs_q y) ->
  (forall lt, lt ∈ tq_pending q' -> lt_attempts lt < maxAttempts (t_Kind (lt_task lt))) ->
  (tq_retired q' = true -> outstanding q' = []) ->
  (tq_polling q' = true -> tq_pending q' = [] \/ tq_wake q' = true \/ (0 < owed)%nat) ->
  q_ok y -> q_ok {| qs_q := q'; qs_owed := owed; qs_sent := qs_sent y; qs_ids := qs_ids y |}.
Proof.
  intros Hs Hf Hp Hr Hw [H1 H2 H3 H4 H5]. split; cbn; try done.
  - by eapply outs_ok_sub.
  - intros id lt Hl. apply H2. by eapply lookup_weaken.
Qed.

Lemma outstanding_delete q id lt :
  tq_inflight q !! id = Some lt ->
  outstanding q ≡ₚ lt :: tq_pending q ++ (map_to_list (delete id (tq_inflight q))).*2.
Proof.
  intros Hl. unfold outstanding. assert (Hm := map_to_list_delete _ _ _ Hl).
  rewrite <- Hm. cbn. by rewrite <- Permutation_middle.
Qed.
End queue.

(** ** Every step keeps it *)
Lemma filter_values (b : leasedTask -> bool) (m : gmap string leasedTask) :
  (map_to_list (filter (fun x => b x.2 = false) m)).*2 ≡ₚ List.filter (fun lt => negb (b lt)) (map_to_list m).*2.
Proof.
  induction m as [|i x m Hi IH] using map_ind.
  { by rewrite map_filter_empty, map_to_list_empty. }
  rewrite (map_to_list_insert m i x Hi). cbn [fmap list_fmap snd List.filter]. destruct (b x) eqn:E; cbn [negb].
  - rewrite map_filter_insert_False by (cbn; congruence). by rewrite delete_id.
  - rewrite map_filter_insert_True by done. rewrite map_to_list_insert; [by cbn; rewrite IH|].
    apply map_lookup_filter_None. by left.
Qed.

Lemma bfilter_split {A} (f : A -> bool) (l : list A) : l ≡ₚ List.filter f l ++ List.filter (fun x => negb (f x)) l.
Proof.
  induction l as [|x l IH]; [done|]. cbn. destruct (f x); cbn; [by constructor|]. rewrite <- Permutation_middle. by constructor.
Qed.

Lemma bfilter_sub {A} (f : A -> bool) (l : list A) : List.filter f l ⊆+ l.
Proof. rewrite (bfilter_split f l) at 2. by apply submseteq_inserts_r. Qed.

Section steps.
Implicit Types (q : taskQueue) (y : qsys) (lt : leasedTask).

Lemma outstanding_key_false q key : outstanding_key q key = false -> key ∉ lt_key <$> outstanding q.
Proof.
  unfold outstanding_key, outstanding. intros [H1 H2]%orb_false_elim. rewrite fmap_app, elem_of_app, !list_elem_of_fmap.
  assert (Hex : forall {A} (f : A -> string) (l : list A), existsb (fun x => str_eqb (f x) key) l = false -> forall x, x ∈ l -> f x <> key).
  { intros A f l H x Hx E. assert (existsb (fun x => str_eqb (f x) key) l = true); [|congruence].
    apply existsb_exists. exists x. split; [by apply list_elem_of_In|]. rewrite E. unfold str_eqb. by apply bool_decide_eq_true_2. }
  intros [(lt & E & Hl)|(lt & E & Hl)]; [by eapply (Hex _ lt_key _ H1)|].
  apply list_elem_of_fmap in Hl as (x & -> & Hx). by eapply (Hex _ (fun x => lt_key x.2) _ H2).
Qed.

Lemma put_ok y t q' :
  t_ID t ∉ qs_ids y -> enqueue_locked (qs_q y) t = Some q' -> q_ok y ->
  q_ok {| qs_q := q'; qs_owed := S (qs_owed y); qs_sent := qs_sent y; qs_ids := {[t_ID t]} ∪ qs_ids y |}.
Proof.
  destruct y as [q owed sent ids]. unfold enqueue_locked. cbn. intros Hid He [H1 H2 H3 H4 H5]. cbn in *.
  destruct (tq_retired q) eqn:Er; [done|]. destruct (outstanding_key q (taskKey t)) eqn:Ek; [done|]. injection He as <-.
  apply outstanding_key_false in Ek. split; cbn.
  - unfold outstanding. cbn [tq_pending tq_inflight with_tasks]. rewrite <- app_assoc. cbn [app]. rewrite <- Permutation_middle.
    by apply outs_ok_new.
  - done.
  - intros lt. rewrite elem_of_app, list_elem_of_singleton. intros [Hl| ->]; [by apply H3|]. cbn.
    unfold maxAttempts, maxTaskAttempts. destruct (is_kind _ _); lia.
  - congruence.
  - intros _. right. right. lia.
Qed.

Lemma complete_ok y id :
  q_ok y -> q_ok {| qs_q := (complete (qs_q y) id).2; qs_owed := qs_owed y; qs_sent := qs_sent y; qs_ids := qs_ids y |}.
Proof.
  intros Hok. destruct (complete (qs_q y) id) as [o q'] eqn:E. unfold complete in E. cbn [snd].
  destruct (tq_inflight (qs_q y) !! id) as [lt|] eqn:El; injection E as <- <-; [|by destruct y].
  assert (Hd := outstanding_delete _ _ _ El). apply q_ok_sub; cbn; try apply Hok; try done.
  - rewrite Hd. by apply submseteq_cons.
  - apply delete_subseteq.
  - intros Hr. apply (qo_retired _ Hok) in Hr. rewrite Hr in Hd. by apply Permutation_nil_cons in Hd.
Qed.

Lemma redeliver_ok y id r q' :
  redeliver_locked (qs_q y) id = (r, q') -> q_ok y ->
  q_ok {| qs_q := q'; qs_owed := match r with redelivered => S (qs_owed y) | _ => qs_owed y end; qs_sent := qs_sent y; qs_ids := qs_ids y |}.
Proof.
  unfold redeliver_locked. intros E Hok. destruct (tq_inflight (qs_q y) !! id) as [lt|] eqn:El; [|injection E as <- <-; by destruct y].
  destruct (Z.leb_spec (maxAttempts (t_Kind (lt_task lt))) (lt_attempts lt)) as [|Hlt]; injection E as <- <-; [by destruct y|].
  assert (Hd := outstanding_delete _ _ _ El). destruct Hok as [H1 H2 H3 H4 H5]. split; cbn.
  - unfold outstanding. cbn [tq_pending tq_inflight with_tasks app]. apply outs_ok_lease. by rewrite <- Hd.
  - intros i x. rewrite lookup_delete_Some. intros [_ Hx]. by apply H2.
  - intros x [->|Hx]%elem_of_cons; [done|by apply H3].
  - intros Hr. apply H4 in Hr. rewrite Hr in Hd. by apply Permutation_nil_cons in Hd.
  - intros _. right. right. lia.
Qed.

Lemma withdraw_ok y m inFlight :
  q_ok y -> q_ok {| qs_q := (withdraw (qs_q y) m inFlight).2; qs_owed := qs_owed y; qs_sent := qs_sent y; qs_ids := qs_ids y |}.
Proof.
  intros Hok. unfold withdraw. cbn [snd].
  assert (Hf : (if inFlight then filter (fun x => m (lt_task x.2) = false) (tq_inflight (qs_q y)) else tq_inflight (qs_q y)) ⊆ tq_inflight (qs_q y)).
  { destruct inFlight; [apply map_filter_subseteq|done]. }
  assert (Hs : outstanding (with_tasks (qs_q y) (List.filter (fun lt => negb (m (lt_task lt))) (tq_pending (qs_q y)))
                  (if inFlight then filter (fun x => m (lt_task x.2) = false) (tq_inflight (qs_q y)) else tq_inflight (qs_q y)))
               ⊆+ outstanding (qs_q y)).
  { unfold outstanding. cbn [tq_pending tq_inflight with_tasks]. apply submseteq_app; [apply bfilter_sub|].
    apply fmap_submseteq. by apply map_to_list_submseteq. }
  apply q_ok_sub; try done; cbn.
  - intros lt [Hl _]%elem_of_bfilter. by apply Hok.
  - intros Hr. apply (qo_retired _ Hok) in Hr. rewrite Hr in Hs. by apply submseteq_nil_r in Hs.
  - intros Hp. destruct (qo_wake _ Hok Hp) as [E|[|]]; [left; by rewrite E|by right; left|by right; right].
Qed.

(** What a sweep leaves, and what it drops. *)
Lemma sweep_parts walk q now again dropped q' :
  (forall l, walk l ≡ₚ l) -> sweep_locked walk q now = (again, dropped, q') ->
  exists L, outstanding q ≡ₚ outstanding q' ++ L /\ dropped ≡ₚ (lt_task <$> L) /\
    forall lt, lt ∈ L -> (lease_out now lt = true /\ exhausted lt = true) \/ stale_check now lt = true.
Proof.
  intros Hw. unfold sweep_locked. intros E. injection E as <- <- <-. cbn zeta.
  set (vals := (map_to_list (tq_inflight q)).*2). set (gone := List.filter (lease_out now) (walk vals)).
  set (P := tq_pending q ++ List.filter (fun lt => negb (exhausted lt)) gone).
  exists (List.filter exhausted gone ++ List.filter (stale_check now) P). split_and!.
  - unfold outstanding. cbn [tq_pending tq_inflight with_tasks]. rewrite filter_values. fold vals.
    assert (Hv : vals ≡ₚ gone ++ List.filter (fun lt => negb (lease_out now lt)) vals).
    { unfold gone. rewrite (bfilter_perm (lease_out now) _ _ (Hw vals)). apply bfilter_split. }
    rewrite Hv at 1. rewrite (bfilter_split exhausted gone) at 1. fold P.
    assert (HP := bfilter_split (stale_check now) P).
    transitivity (P ++ List.filter exhausted gone ++ List.filter (fun lt => negb (lease_out now lt)) vals); [unfold P; solve_Permutation|].
    rewrite HP at 1. solve_Permutation.
  - by rewrite fmap_app.
  - intros lt. rewrite elem_of_app, !elem_of_bfilter. unfold gone. rewrite elem_of_bfilter. tauto.
Qed.

Lemma sweep_ok y walk now again dropped q' :
  (forall l, walk l ≡ₚ l) -> sweep_locked walk (qs_q y) now = (again, dropped, q') -> q_ok y ->
  q_ok {| qs_q := q'; qs_owed := if 0 <? again then S (qs_owed y) else qs_owed y; qs_sent := qs_sent y; qs_ids := qs_ids y |}.
Proof.
  intros Hw E Hok. assert (Hs : outstanding q' ⊆+ outstanding (qs_q y)).
  { destruct (sweep_parts _ _ _ _ _ _ Hw E) as (L & HL & _). rewrite HL. by apply submseteq_inserts_r. }
  unfold sweep_locked in E. injection E as <- <- <-.
  apply q_ok_sub; try done; cbn.
  - apply map_filter_subseteq.
  - intros lt. rewrite elem_of_bfilter, elem_of_app, !elem_of_bfilter. intros [[Hl|[[Hl _] He]] _]; [by apply Hok|].
    unfold exhausted in He. apply negb_true_iff, Z.leb_gt in He. done.
  - intros Hr. apply (qo_retired _ Hok) in Hr. rewrite Hr in Hs. by apply submseteq_nil_r in Hs.
  - intros Hp. destruct (List.filter (fun lt => negb (exhausted lt)) _) as [|x l] eqn:Ea; cbn [length]; [|right; right; destruct (Z.ltb_spec 0 (Z.of_nat (S (length l)))); lia].
    rewrite app_nil_r. destruct (qo_wake _ Hok Hp) as [E|[|]]; [left; by rewrite E|by right; left|by right; right].
Qed.

Lemma poll_begin_ok y mayAct now p q' :
  poll_begin false mayAct "host" now (qs_q y) = (p, q') -> q_ok y ->
  q_ok {| qs_q := q'; qs_owed := qs_owed y; qs_sent := qs_sent y ++ batch_of p; qs_ids := qs_ids y |}.
Proof.
  unfold poll_begin. cbn [str_eqb]. destruct (str_eqb "host" "") eqn:Eh; [done|]. intros E Hok.
  destruct (tq_polling (qs_q y)) eqn:Ep; [injection E as <- <-; cbn; rewrite app_nil_r; by destruct y|].
  destruct (negb mayAct); [injection E as <- <-; cbn; rewrite app_nil_r; by destruct y|].
  destruct (take_tasks (qs_q y) maxTasksPerPoll now) as [tasks q1] eqn:Et.
  destruct (take_tasks_ok _ _ _ _ _ Et Hok) as (T1 & T2 & T3 & T4 & T5 & T6 & T7 & T8). cbn in T1.
  destruct tasks as [|t tasks]; injection E as <- <-; cbn in *.
  - split; cbn; try done. intros _. destruct (tq_retired q1) eqn:Er.
    + left. assert (Ho := T4 eq_refl). unfold outstanding in Ho. by apply app_eq_nil in Ho as [Ho _].
    + destruct (T8 eq_refl) as [-> Hlen]. left. destruct (tq_pending (qs_q y)); [done|]. by unfold maxTasksPerPoll in Hlen.
  - split; cbn; try done. congruence.
Qed.

Lemma poll_end_ok y how now b q' :
  poll_end how now (qs_q y) = (b, q') -> q_ok y ->
  q_ok {| qs_q := q'; qs_owed := qs_owed y; qs_sent := qs_sent y ++ tb_Tasks b; qs_ids := qs_ids y |}.
Proof.
  intros E Hok. unfold poll_end in E.
  assert (H0 : forall q0, tq_polling q0 = false -> outstanding q0 = outstanding (qs_q y) -> tq_inflight q0 = tq_inflight (qs_q y) ->
    tq_pending q0 = tq_pending (qs_q y) -> tq_retired q0 = tq_retired (qs_q y) ->
    q_ok {| qs_q := q0; qs_owed := qs_owed y; qs_sent := qs_sent y; qs_ids := qs_ids y |}).
  { intros q0 E1 E2 E3 E4 E5. destruct Hok as [H1 H2 H3 H4 H5]. split; cbn; rewrite ?E2, ?E3, ?E4, ?E5; try done. congruence. }
  destruct how as [|shed|[]]; cbn [negb] in E; [| | |injection E as <- <-; cbn; rewrite app_nil_r; by apply H0];
    [injection E as <- <-; cbn; rewrite app_nil_r; by apply H0..|].
  destruct (take_tasks _ _ _) as [tasks q1] eqn:Et in E. injection E as <- <-. cbn [tb_Tasks].
  pose proof (take_tasks_ok {| qs_q := with_wake (with_polling (qs_q y) false) false; qs_owed := qs_owed y; qs_sent := qs_sent y; qs_ids := qs_ids y |}
    _ _ _ _ Et) as Hk. destruct Hk as (T1 & T2 & T3 & T4 & T5 & T6 & T7 & T8); [by apply H0|].
  split; cbn; try done. cbn in T6. rewrite T6. done.
Qed.

Lemma q_step_ok y e y' : q_step y e y' -> q_ok y -> q_ok y'.
Proof.
  intros Hs Hok.
  destruct Hs as [q n sent ids t q' Hid He|q n sent ids|q n sent ids mayAct now p q' He|q n sent ids how now b q' _ _ He|q n sent ids id
    |q n sent ids id r q' He|q n sent ids m inFlight|q n sent ids walk now again dropped q' Hw He|q n sent ids];
    try set (y := {| qs_q := q; qs_owed := n; qs_sent := sent; qs_ids := ids |}) in *.
  - exact (put_ok y t q' Hid He Hok).
  - destruct Hok as [H1 H2 H3 H4 H5]. split; cbn; try done. intros _. right. by left.
  - exact (poll_begin_ok y _ _ _ _ He Hok).
  - exact (poll_end_ok y _ _ _ _ He Hok).
  - exact (complete_ok y id Hok).
  - exact (redeliver_ok y _ _ _ He Hok).
  - exact (withdraw_ok y m inFlight Hok).
  - exact (sweep_ok y _ _ _ _ _ Hw He Hok).
  - destruct Hok as [H1 H2 H3 H4 H5]. split; cbn; [|done|intros lt Hl; by apply elem_of_nil in Hl|done|by left].
    eapply outs_ok_sub; [|exact H1]. apply submseteq_nil_l.
Qed.

Lemma q_reached_ok y : q_reached y -> q_ok y.
Proof.
  intros H. assert (H0 : q_ok q_new).
  { assert (Hn : forall {A} (x : A), x ∉ []) by (intros A x Hx; by apply elem_of_nil in Hx).
    assert (Ho : outstanding new_queue = []) by (unfold outstanding; cbn; by rewrite map_to_list_empty).
    split; [change (outs_ok (outstanding new_queue) [] ∅); rewrite Ho|intros id lt H0; cbn in H0; by rewrite lookup_empty in H0|intros lt Hl; by destruct (Hn _ lt)|done|done].
    split; [apply NoDup_nil_2|apply NoDup_nil_2| | | |done| | | |]; cbn; first [intros x Hx; by destruct (Hn _ x)|intros x u Hx; by destruct (Hn _ x)]. }
  unfold q_reached in H. revert H0. generalize q_new H. clear H. intros y0 H.
  induction H as [|y0 y1 y2 [e He] _ IH]; [done|]. intros H0. by eapply IH, q_step_ok.
Qed.
End steps.

(** ** What a queue promises *)
(** The event is one that takes [lt] out of the queue. *)
Definition lets_go (q : taskQueue) (e : qevent) (lt : leasedTask) : Prop :=
  match e with
  | EComplete id => id = lt_id lt /\ tq_inflight q !! id = Some lt
  | EWithdraw m inFlight => m (lt_task lt) = true /\ (lt ∈ tq_pending q \/ inFlight = true)
  | ESweep walk now =>
      lt_task lt ∈ (sweep_locked walk q now).1.2 /\
      ((lease_out now lt = true /\ exhausted lt = true) \/ stale_check now lt = true)
  | ERetire => True
  | _ => False
  end.

Section promises.
Implicit Types (q : taskQueue) (y : qsys) (lt : leasedTask).

Lemma take_keeps y n now tasks q' lt :
  q_ok y -> take_tasks (qs_q y) n now = (tasks, q') -> lt ∈ outstanding (qs_q y) ->
  exists lt', lt' ∈ outstanding q' /\ bare (lt_task lt') = bare (lt_task lt).
Proof.
  intros [H1 H2 _ _ _]. unfold take_tasks. destruct (tq_retired (qs_q y)); intros [= <- <-] Hl; [by exists lt|].
  setoid_rewrite (take_outstanding _ _ _ n now H1 (fun id x Hx => proj1 (H2 id x Hx))).
  unfold outstanding in Hl. rewrite <- (firstn_skipn n (tq_pending (qs_q y))), <- app_assoc in Hl.
  apply elem_of_app in Hl as [Hl|Hl].
  - exists (leased lt now). split; [|done]. apply elem_of_app. left. by apply (list_elem_of_fmap_2 (fun lt => leased lt now)).
  - exists lt. split; [|done]. apply elem_of_app. by right.
Qed.

(** C22: What a host is sent says truly which delivery it is.  Of a task, and whatever
    becomes of the answers, the deliveries are numbered one, two, three with none left out;
    there are at most as many as its kind allows, of a task that decides a runner's fate
    three; and they are all the same task.  Two tasks of one key are never outstanding
    together, so that there is one create, one stop and one remove of a runner at a time. *)
Theorem deliveries_are_numbered y :
  q_reached y ->
  (forall id, attempts_of id (qs_sent y) = Z.of_nat <$> seq 1 (length (attempts_of id (qs_sent y)))) /\
  (forall t, t ∈ qs_sent y ->
     Z.of_nat (length (attempts_of (t_ID t) (qs_sent y))) <= maxAttempts (t_Kind t) <= 3) /\
  (forall t u, t ∈ qs_sent y -> u ∈ qs_sent y -> t_ID t = t_ID u -> bare t = bare u) /\
  NoDup ((fun lt => taskKey (lt_task lt)) <$> outstanding (qs_q y)).
Proof.
  intros [[H1 H2 H3 H4 H5 H6 H7 H8 H9 H10] _ _ _ _]%q_reached_ok. split_and!; [done| |done|].
  - intros t Ht. split; [by apply H8|]. unfold maxAttempts, maxTaskAttempts. destruct (is_kind _ _); lia.
  - replace ((fun lt => taskKey (lt_task lt)) <$> outstanding (qs_q y)) with (lt_key <$> outstanding (qs_q y)); [done|].
    apply list_fmap_ext. intros i lt Hi. apply H3. by apply list_elem_of_lookup_2 in Hi.
Qed.

(** C23: A task is kept until somebody is told.  One that is outstanding is outstanding
    after any step, unless the step is its answer, its withdrawal, the end of its host, or
    a sweep that found its lease run out after its last delivery -- or, of a check, that
    nobody came for it -- and then the sweep names it to its caller. *)
Theorem outstanding_until_told y e y' lt :
  q_reached y -> q_step y e y' -> lt ∈ outstanding (qs_q y) ->
  (exists lt', lt' ∈ outstanding (qs_q y') /\ bare (lt_task lt') = bare (lt_task lt)) \/ lets_go (qs_q y) e lt.
Proof.
  intros Hok%q_reached_ok Hs Hl.
  destruct Hs as [q n sent ids t q' Hid He|q n sent ids|q n sent ids mayAct now p q' He|q n sent ids how now b q' _ _ He|q n sent ids id
    |q n sent ids id r q' He|q n sent ids m inFlight|q n sent ids walk now again dropped q' Hw He|q n sent ids];
    try set (y := {| qs_q := q; qs_owed := n; qs_sent := sent; qs_ids := ids |}) in *; cbn [qs_q lets_go] in *.
  - left. exists lt. split; [|done]. unfold enqueue_locked in He. destruct (tq_retired q); [done|]. destruct (outstanding_key _ _); [done|].
    injection He as <-. unfold outstanding in *. cbn. rewrite !elem_of_app in *. tauto.
  - left. by exists lt.
  - left. unfold poll_begin in He. destruct (str_eqb _ _); [injection He as <- <-; by exists lt|].
    destruct (tq_polling q); [injection He as <- <-; by exists lt|]. destruct (negb mayAct); [injection He as <- <-; by exists lt|].
    destruct (take_tasks q maxTasksPerPoll now) as [ts q1] eqn:Et. destruct (take_keeps y _ _ _ _ _ Hok Et Hl) as (lt' & Hl' & E).
    exists lt'. split; [|done]. destruct ts; by injection He as <- <-.
  - left. unfold poll_end in He. destruct how as [|shed|[]]; cbn [negb] in He; try (injection He as <- <-; by exists lt).
    destruct (take_tasks _ _ _) as [ts q1] eqn:Et in He. injection He as <- <-. unfold take_tasks in Et.
    apply (take_keeps y maxTasksPerPoll now ts (with_wake (with_polling q1 (tq_polling q)) (tq_wake q)) lt Hok); [|done].
    unfold take_tasks. cbn in *. destruct (tq_retired q); injection Et as <- <-; [by destruct q|done].
  - unfold complete. destruct (tq_inflight q !! id) as [x|] eqn:Ex; [|left; by exists lt].
    assert (Hd := outstanding_delete _ _ _ Ex). change (lt ∈ outstanding q) in Hl. rewrite Hd in Hl. apply elem_of_cons in Hl as [->|Hl].
    + right. split; [|done]. symmetry. by apply (qo_fly _ Hok id x).
    + left. exists lt. split; [exact Hl|done].
  - left. unfold redeliver_locked in He. destruct (tq_inflight q !! id) as [x|] eqn:Ex; [|injection He as <- <-; by exists lt].
    destruct (_ <=? _); injection He as <- <-; [by exists lt|].
    assert (Hd := outstanding_delete _ _ _ Ex). change (lt ∈ outstanding q) in Hl. rewrite Hd in Hl. apply elem_of_cons in Hl as [->|Hl].
    + eexists. split; [by left|done].
    + exists lt. split; [by right|done].
  - destruct (m (lt_task lt)) eqn:Em.
    + unfold outstanding in Hl. apply elem_of_app in Hl as [Hl|Hl]; [right; by split; [|left]|].
      destruct inFlight; [right; by split; [|right]|]. left. exists lt. split; [|done]. apply elem_of_app. by right.
    + left. exists lt. split; [|done]. unfold outstanding in *. cbn. rewrite !elem_of_app, elem_of_bfilter, Em in *.
      destruct Hl as [Hl|Hl]; [by left|right]. destruct inFlight; [|done].
      rewrite (filter_values (fun x => m (lt_task x))), elem_of_bfilter. by rewrite Em.
  - change (qs_q y) with q. rewrite He. cbn [fst snd]. destruct (sweep_parts _ _ _ _ _ _ Hw He) as (L & HL & Hdrop & HLp).
    change (lt ∈ outstanding q) in Hl. rewrite HL in Hl.
    apply elem_of_app in Hl as [Hl|Hl]; [left; by exists lt|]. right. split; [|by apply HLp].
    rewrite Hdrop. by apply list_elem_of_fmap_2.
  - by right.
Qed.

(** The poll that a queue serves next: the one that waits, or one that comes. *)
Definition next_poll (q : taskQueue) (now : Time) : qevent :=
  if tq_polling q then EWake (Woken true) now else EPoll true now.

Lemma fly_other out : forall (m : gmap string leasedTask) id,
  (forall lt, lt ∈ out -> lt_id lt <> id) -> foldl fly m out !! id = m !! id.
Proof.
  induction out as [|x out IH]; intros m id Hne; [done|]. cbn. rewrite IH by (intros; apply Hne; by right).
  unfold fly. apply lookup_insert_ne. apply (Hne x). by left.
Qed.

(** It is sent the first task that is pending, which then is in flight. *)
Lemma next_poll_sends y now lt rest :
  q_ok y -> tq_retired (qs_q y) = false -> (tq_polling (qs_q y) = true -> tq_wake (qs_q y) = true) ->
  tq_pending (qs_q y) = lt :: rest ->
  exists y' more, q_step y (next_poll (qs_q y) now) y' /\
    qs_sent y' = qs_sent y ++ lt_task (leased lt now) :: more /\
    tq_inflight (qs_q y') !! lt_id lt = Some (leased lt now).
Proof.
  destruct y as [q n sent ids]. cbn [qs_q qs_sent]. intros [Hok _ _ _ _] Hr Hw Hp. cbn [qs_q qs_sent qs_ids] in Hok.
  assert (Hfly : foldl fly (tq_inflight q) ((fun lt => leased lt now) <$> firstn maxTasksPerPoll (lt :: rest)) !! lt_id lt =
                 Some (leased lt now)).
  { cbn [maxTasksPerPoll firstn fmap list_fmap foldl]. rewrite fly_other; [unfold fly; apply lookup_insert_eq|].
    intros x Hx E. apply list_elem_of_fmap in Hx as (x0 & -> & Hx). assert (Hn := oo_ids _ _ _ Hok).
    unfold outstanding in Hn. rewrite Hp in Hn. cbn in Hn. apply NoDup_cons in Hn as [Hn _]. apply Hn. rewrite <- E.
    change (lt_id (leased x0 now)) with (lt_id x0). apply list_elem_of_fmap_2, elem_of_app. left.
    rewrite <- (firstn_skipn 19 rest). apply elem_of_app. by left. }
  unfold next_poll. destruct (tq_polling q) eqn:Epoll.
  - eexists _, _. split; [apply q_wakes; [exact Epoll|intros; by apply Hw|]|].
    + unfold poll_end, take_tasks. cbn [negb with_wake with_polling tq_retired tq_pending tq_inflight]. rewrite Hr, Hp. reflexivity.
    + cbn [qs_sent qs_q tb_Tasks tq_inflight with_tasks]. split; [reflexivity|exact Hfly].
  - eexists _, _. split; [apply q_poll|].
    + unfold poll_begin, take_tasks. rewrite Epoll, Hr, Hp. reflexivity.
    + cbn [qs_sent qs_q batch_of tb_Tasks tq_inflight with_tasks]. split; [reflexivity|exact Hfly].
Qed.

(** C24: No wake-up is lost.  While a poll waits and something is pending that may be
    delivered, the token is there or is about to be, so the poll comes back with the next
    twenty tasks in their order after at most two steps and with nobody else's help. *)
Theorem no_wakeup_is_lost y now :
  q_reached y -> tq_polling (qs_q y) = true -> tq_retired (qs_q y) = false -> tq_pending (qs_q y) <> [] ->
  exists y1 y2,
    (y1 = y \/ q_step y ESignal y1) /\ q_step y1 (EWake (Woken true) now) y2 /\ tq_polling (qs_q y2) = false /\
    qs_sent y2 = qs_sent y ++ ((fun lt => lt_task (leased lt now)) <$> firstn maxTasksPerPoll (tq_pending (qs_q y))) /\
    tq_pending (qs_q y2) = skipn maxTasksPerPoll (tq_pending (qs_q y)).
Proof.
  intros Hok%q_reached_ok Hp Hr Hne.
  assert (Hgo : forall y1, tq_polling (qs_q y1) = true -> tq_wake (qs_q y1) = true -> tq_retired (qs_q y1) = false ->
    tq_pending (qs_q y1) = tq_pending (qs_q y) -> qs_sent y1 = qs_sent y ->
    exists y2, q_step y1 (EWake (Woken true) now) y2 /\ tq_polling (qs_q y2) = false /\
      qs_sent y2 = qs_sent y ++ ((fun lt => lt_task (leased lt now)) <$> firstn maxTasksPerPoll (tq_pending (qs_q y))) /\
      tq_pending (qs_q y2) = skipn maxTasksPerPoll (tq_pending (qs_q y))).
  { intros [q1 n1 s1 i1] Ep Ew Er Epend Es. cbn in *. destruct (poll_end (Woken true) now q1) as [b q2] eqn:Eb.
    eexists. split; [apply (q_wakes _ _ _ _ (Woken true) now b q2); [done|by intros|done]|].
    unfold poll_end, take_tasks in Eb. cbn [negb with_wake with_polling tq_retired tq_pending] in Eb. rewrite Er in Eb.
    injection Eb as <- <-. cbn [qs_q qs_sent tb_Tasks with_tasks tq_polling tq_pending]. rewrite Es, Epend. split_and!; [done| |done].
    f_equal. symmetry. apply (list_fmap_compose (fun lt => leased lt now) lt_task). }
  destruct (qo_wake _ Hok Hp) as [|[Hw|Hw]]; [done| |].
  - destruct (Hgo y) as (y2 & H1 & H2 & H3 & H4); try done. exists y, y2. split_and!; try done. by left.
  - destruct y as [q owed sent ids]. cbn in *. destruct owed as [|owed]; [lia|].
    destruct (Hgo {| qs_q := signal q; qs_owed := owed; qs_sent := sent; qs_ids := ids |}) as (y2 & H1 & H2 & H3 & H4); try done.
    eexists _, y2. split_and!; [right; apply q_signal|done..].
Qed.
End promises.
