(* ===== verification/Cleanup.v ===== *)
(** * What is left of a runner that has ended (store/queries_fleet.go)

    A runner that has ended is cleaned up on two sides that do not wait for each other: its
    host removes the workload, and GitHub the registration.  Each side confirms, or
    complains; the columns of the row keep both, and the moment the last of the two
    confirmed.  An UPDATE with its condition is one transaction, here a function of the
    table's rows; what is said of the columns holds however the writes of the two sides,
    of reports and of results cross.  Rows are also deleted with their pool or their host, or
    when they are old; an id is not used again, so nothing is said of a row after that. *)
From Stdlib Require Import ZArith Lia Ascii String.
From stdpp Require Import base strings list gmap relations.
From S2P Require Import Prelude GoString.
Local Open Scope string_scope.
Local Open Scope list_scope.
Local Open Scope Z_scope.

(** The columns, with NULL as [None]. *)
Record cleanup := {
  host_cleanup_error : string;
  registration_cleanup_error : string;
  cleanup_error : string;
  cleanup_failed_at : option Time;
  cleanup_attempts : Z;
  cleaned_up_at : option Time;
  host_removed_at : option Time;
  registration_deleted_at : option Time
}.

(** A row as a runner is created with. *)
Definition not_cleaned : cleanup :=
  {| host_cleanup_error := ""; registration_cleanup_error := ""; cleanup_error := ""; cleanup_failed_at := None;
     cleanup_attempts := 0; cleaned_up_at := None; host_removed_at := None; registration_deleted_at := None |}.

Definition is_empty (s : string) : bool := str_eqb s "".
Definition is_null {A} (o : option A) : bool := match o with None => true | Some _ => false end.

(** [nil], or ErrConflict. *)
Inductive cleanup_result := CleanupDone | CleanupConflict.

Definition with_host_failure (c : cleanup) (reason : string) (now : Time) : cleanup :=
  {| host_cleanup_error := reason; registration_cleanup_error := registration_cleanup_error c;
     cleanup_error := reason +:+ (if is_empty (registration_cleanup_error c) then "" else "; " +:+ registration_cleanup_error c);
     cleanup_failed_at := Some now; cleanup_attempts := cleanup_attempts c + 1; cleaned_up_at := None;
     host_removed_at := host_removed_at c; registration_deleted_at := registration_deleted_at c |}.

Definition RecordCleanupFailure (t : gmap string cleanup) (id reason : string) (now : Time) : cleanup_result * gmap string cleanup :=
  let reason := if is_empty reason then "cleanup failed without saying why" else reason in
  match t !! id with
  | None => (CleanupDone, t)
  | Some c => if is_null (host_removed_at c) then (CleanupDone, <[id := with_host_failure c reason now]> t) else (CleanupConflict, t)
  end.

Definition with_registration_failure (c : cleanup) (reason : string) (now : Time) : cleanup :=
  {| host_cleanup_error := host_cleanup_error c; registration_cleanup_error := reason;
     cleanup_error := (if is_empty (host_cleanup_error c) then "" else host_cleanup_error c +:+ "; ") +:+ reason;
     cleanup_failed_at := Some now; cleanup_attempts := cleanup_attempts c + 1; cleaned_up_at := None;
     host_removed_at := host_removed_at c; registration_deleted_at := None |}.

Definition RecordRegistrationCleanupFailure (t : gmap string cleanup) (id reason : string) (now : Time) : gmap string cleanup :=
  let reason := if is_empty reason then "the GitHub runner registration could not be deleted" else reason in
  alter (fun c => with_registration_failure c reason now) id t.

Definition deferred (c : cleanup) (reason : string) (now : Time) : cleanup :=
  {| host_cleanup_error := host_cleanup_error c; registration_cleanup_error := reason;
     cleanup_error := (if is_empty (host_cleanup_error c) then "" else host_cleanup_error c +:+ "; ") +:+ reason;
     cleanup_failed_at := match cleanup_failed_at c with Some t => Some t | None => Some now end;
     cleanup_attempts := cleanup_attempts c; cleaned_up_at := None;
     host_removed_at := host_removed_at c; registration_deleted_at := None |}.

Definition DeferRegistrationCleanup (t : gmap string cleanup) (id reason : string) (now : Time) : gmap string cleanup :=
  alter (fun c => deferred c reason now) id t.

Definition host_settled (c : cleanup) : cleanup :=
  let clear := is_empty (registration_cleanup_error c) in
  {| host_cleanup_error := ""; registration_cleanup_error := registration_cleanup_error c;
     cleanup_error := registration_cleanup_error c;
     cleanup_failed_at := if clear then None else cleanup_failed_at c; cleanup_attempts := cleanup_attempts c;
     cleaned_up_at := if clear then cleaned_up_at c else None;
     host_removed_at := host_removed_at c; registration_deleted_at := registration_deleted_at c |}.

Definition ClearCleanupFailure (t : gmap string cleanup) (id : string) : gmap string cleanup := alter host_settled id t.

(** The row with one side's stamp set, which was not. *)
Definition confirmed (c : cleanup) (host : bool) (now : Time) : cleanup :=
  let otherStamp := if host then registration_deleted_at c else host_removed_at c in
  let otherError := if host then registration_cleanup_error c else host_cleanup_error c in
  {| host_cleanup_error := if host then "" else host_cleanup_error c;
     registration_cleanup_error := if host then registration_cleanup_error c else "";
     cleanup_error := otherError;
     cleanup_failed_at := if is_empty otherError then None else cleanup_failed_at c;
     cleanup_attempts := cleanup_attempts c;
     cleaned_up_at := if negb (is_null otherStamp) && is_empty otherError then Some now else None;
     host_removed_at := if host then Some now else host_removed_at c;
     registration_deleted_at := if host then registration_deleted_at c else Some now |}.

(** Whether this write completed both sides, and the rows. *)
Definition ConfirmRunnerCleanup (t : gmap string cleanup) (id : string) (host : bool) (now : Time) : bool * gmap string cleanup :=
  match t !! id with
  | None => (false, t)
  | Some c =>
      if negb (is_null (if host then host_removed_at c else registration_deleted_at c)) then (false, t)
      else let c' := confirmed c host now in (negb (is_null (cleaned_up_at c')), <[id := c']> t)
  end.

Definition RecordRegistrationDeleted (t : gmap string cleanup) (id : string) (now : Time) : bool * gmap string cleanup :=
  ConfirmRunnerCleanup t id false now.

(** ** Every row reachable *)
(** One write; the boolean is whether it closes the cleanup, which is when
    recording the runner's session is asked for. *)
Inductive cleanup_write : gmap string cleanup -> string -> bool -> gmap string cleanup -> Prop :=
  | cw_insert t id : t !! id = None -> cleanup_write t id false (<[id := not_cleaned]> t)
  | cw_failure t id reason now : cleanup_write t id false (RecordCleanupFailure t id reason now).2
  | cw_registration t id reason now : cleanup_write t id false (RecordRegistrationCleanupFailure t id reason now)
  | cw_defer t id reason now : reason <> "" -> cleanup_write t id false (DeferRegistrationCleanup t id reason now)
  | cw_clear t id : cleanup_write t id false (ClearCleanupFailure t id)
  | cw_confirm t id host now :
      cleanup_write t id (ConfirmRunnerCleanup t id host now).1 (ConfirmRunnerCleanup t id host now).2.

(** A run: how often each row's cleanup was closed, and how often it was opened again. *)
Record cleanups := { cs_rows : gmap string cleanup; cs_closed : string -> nat; cs_reopened : string -> nat }.
Definition add_at (f : string -> nat) (id : string) (b : bool) : string -> nat :=
  fun i => (f i + if b && str_eqb i id then 1 else 0)%nat.
Definition is_closed (t : gmap string cleanup) (id : string) : bool :=
  match t !! id with Some c => negb (is_null (cleaned_up_at c)) | None => false end.

Inductive cleanups_step : cleanups -> cleanups -> Prop :=
  | cs_write t closed reopened id b t' :
      cleanup_write t id b t' ->
      cleanups_step {| cs_rows := t; cs_closed := closed; cs_reopened := reopened |}
        {| cs_rows := t'; cs_closed := add_at closed id b;
           cs_reopened := add_at reopened id (is_closed t id && negb (is_closed t' id)) |}.
Definition no_rows : cleanups := {| cs_rows := ∅; cs_closed := fun _ => 0%nat; cs_reopened := fun _ => 0%nat |}.
Definition cleanups_reached (c : cleanups) : Prop := rtc cleanups_step no_rows c.

(** What both complaints come to. *)
Definition complaint (host registration : string) : string :=
  if is_empty host then registration else if is_empty registration then host else host +:+ "; " +:+ registration.

Record cleanup_ok (c : cleanup) : Prop := {
  ck_complaint : cleanup_error c = complaint (host_cleanup_error c) (registration_cleanup_error c);
  ck_failed : cleanup_failed_at c = None <-> cleanup_error c = "";
  ck_host : host_removed_at c <> None -> host_cleanup_error c = "";
  ck_registration : registration_deleted_at c <> None -> registration_cleanup_error c = "";
  ck_closed : cleaned_up_at c <> None <-> host_removed_at c <> None /\ registration_deleted_at c <> None
}.

Section rows.
Implicit Types (t : gmap string cleanup) (c : cleanup).

Lemma is_empty_spec s : reflect (s = "") (is_empty s).
Proof. unfold is_empty, str_eqb. case_bool_decide; by constructor. Qed.
Lemma app_not_empty a b : a <> "" -> a +:+ b <> "".
Proof. by destruct a. Qed.
Lemma app_empty_r (a : string) : a +:+ "" = a.
Proof. induction a as [|x a IH]; [done|]. change (String x (a +:+ "") = String x a). by rewrite IH. Qed.

Lemma app_assoc_str (a b c : string) : (a +:+ b) +:+ c = a +:+ (b +:+ c).
Proof.
  induction a as [|x a IH]; [done|]. change (String x ((a +:+ b) +:+ c) = String x (a +:+ (b +:+ c))). by rewrite IH.
Qed.
Lemma complaint_empty a b : complaint a b = "" <-> a = "" /\ b = "".
Proof.
  unfold complaint. destruct (is_empty_spec a) as [->|]; [naive_solver|]. destruct (is_empty_spec b) as [->|]; [naive_solver|].
  split; [|naive_solver]. intros E. by apply app_not_empty in E.
Qed.

Lemma failed_iff (e : string) (o : option Time) : e <> "" -> o <> None -> o = None <-> e = "".
Proof. naive_solver. Qed.

Lemma not_cleaned_ok : cleanup_ok not_cleaned.
Proof. split; cbn; naive_solver. Qed.

Lemma host_failure_ok c reason now :
  reason <> "" -> host_removed_at c = None -> cleanup_ok c -> cleanup_ok (with_host_failure c reason now).
Proof.
  intros Hr Hn [H1 H2 H3 H4 H5]. split; cbn; rewrite ?Hn; [| |done|done|naive_solver].
  - unfold complaint. destruct (is_empty_spec reason); [done|].
    by destruct (is_empty_spec (registration_cleanup_error c)); rewrite ?app_empty_r.
  - apply failed_iff; [by apply app_not_empty|done].
Qed.

Lemma with_host_error c reason :
  reason <> "" ->
  (if is_empty (host_cleanup_error c) then "" else host_cleanup_error c +:+ "; ") +:+ reason =
  complaint (host_cleanup_error c) reason.
Proof.
  intros Hr. unfold complaint. destruct (is_empty_spec (host_cleanup_error c)); [done|].
  destruct (is_empty_spec reason); [done|]. apply app_assoc_str.
Qed.

Lemma registration_failure_ok c reason now : reason <> "" -> cleanup_ok c -> cleanup_ok (with_registration_failure c reason now).
Proof.
  intros Hr [H1 H2 H3 H4 H5]. split; cbn; [by apply with_host_error| |done|done|naive_solver].
  rewrite with_host_error, complaint_empty; naive_solver.
Qed.

Lemma deferred_ok c reason now : reason <> "" -> cleanup_ok c -> cleanup_ok (deferred c reason now).
Proof.
  intros Hr [H1 H2 H3 H4 H5]. split; cbn; [by apply with_host_error| |done|done|naive_solver].
  rewrite with_host_error, complaint_empty by done. destruct (cleanup_failed_at c); naive_solver.
Qed.

(** What is still said of a side, once the other has nothing to say. *)
Lemma settled_failed c e :
  cleanup_ok c -> e = host_cleanup_error c \/ e = registration_cleanup_error c ->
  (if is_empty e then None else cleanup_failed_at c) = None <-> e = "".
Proof.
  intros [H1 H2 _ _ _] He. destruct (is_empty_spec e); [done|]. rewrite H2, H1, complaint_empty. naive_solver.
Qed.

Lemma complaint_right e : e = complaint "" e.
Proof. done. Qed.
Lemma complaint_left e : e = complaint e "".
Proof. unfold complaint. by destruct (is_empty_spec e). Qed.

Lemma host_settled_ok c : cleanup_ok c -> cleanup_ok (host_settled c).
Proof.
  intros Hok. split; cbn; [done|apply settled_failed; auto|done|apply Hok|].
  destruct Hok as [H1 H2 H3 H4 H5]. destruct (is_empty_spec (registration_cleanup_error c)); [done|naive_solver].
Qed.

Lemma confirmed_ok c (host : bool) now :
  (if host then host_removed_at c else registration_deleted_at c) = None -> cleanup_ok c -> cleanup_ok (confirmed c host now).
Proof.
  intros Hn Hok. pose proof Hok as [H1 H2 H3 H4 H5]. destruct host; split; cbn; try done.
  - apply settled_failed; auto.
  - destruct (registration_deleted_at c), (is_empty_spec (registration_cleanup_error c)); cbn; naive_solver.
  - apply complaint_left.
  - apply settled_failed; auto.
  - destruct (host_removed_at c), (is_empty_spec (host_cleanup_error c)); cbn; naive_solver.
Qed.

(** ** Runs *)
Definition rows_ok (t : gmap string cleanup) : Prop := forall id c, t !! id = Some c -> cleanup_ok c.

Lemma rows_ok_insert t id c : rows_ok t -> cleanup_ok c -> rows_ok (<[id := c]> t).
Proof. intros Ht Hc i x. rewrite lookup_insert_Some. naive_solver. Qed.
Lemma rows_ok_alter (f : cleanup -> cleanup) t id :
  (forall c, cleanup_ok c -> cleanup_ok (f c)) -> rows_ok t -> rows_ok (alter f id t).
Proof. intros Hf Ht i x. rewrite lookup_alter_Some. naive_solver. Qed.

Lemma reason_given reason (d : string) : d <> "" -> (if is_empty reason then d else reason) <> "".
Proof. by destruct (is_empty_spec reason). Qed.

Lemma write_ok t id b t' : cleanup_write t id b t' -> rows_ok t -> rows_ok t'.
Proof.
  intros Hw Ht. destruct Hw.
  - apply rows_ok_insert; [done|apply not_cleaned_ok].
  - unfold RecordCleanupFailure. destruct (t !! id) as [c|] eqn:E; [|done]. destruct (host_removed_at c) eqn:Eh; [done|].
    apply rows_ok_insert; [done|]. apply host_failure_ok; [by apply reason_given|done|by eapply Ht].
  - apply rows_ok_alter; [|done]. intros c. apply registration_failure_ok. by apply reason_given.
  - apply rows_ok_alter; [|done]. intros c. by apply deferred_ok.
  - apply rows_ok_alter; [|done]. apply host_settled_ok.
  - unfold ConfirmRunnerCleanup. destruct (t !! id) as [c|] eqn:E; [|done].
    destruct (if host then host_removed_at c else registration_deleted_at c) eqn:En; [done|].
    apply rows_ok_insert; [done|]. apply confirmed_ok; [done|by eapply Ht].
Qed.

(** A write leaves the other rows alone, and is a closing exactly when it closes the row. *)
Lemma write_elsewhere t id b t' i : cleanup_write t id b t' -> i <> id -> t' !! i = t !! i.
Proof.
  intros Hw Hi. destruct Hw; unfold RecordCleanupFailure, ConfirmRunnerCleanup; repeat case_match; cbn;
    unfold RecordRegistrationCleanupFailure, DeferRegistrationCleanup, ClearCleanupFailure;
    by rewrite ?lookup_insert_ne, ?lookup_alter_ne by done.
Qed.

Lemma closed_alter (f : cleanup -> cleanup) t id :
  (forall c, cleaned_up_at (f c) = None \/ cleaned_up_at (f c) = cleaned_up_at c) ->
  is_closed (alter f id t) id = true -> is_closed t id = true.
Proof.
  intros Hf. unfold is_closed. rewrite lookup_alter_eq. destruct (t !! id) as [c|]; cbn; [|done].
  by destruct (Hf c) as [->| ->].
Qed.

Lemma not_closed_by (x y : bool) : (y = true -> x = true) -> false = negb x && y.
Proof. destruct x, y; naive_solver. Qed.

Lemma write_closes t id b t' :
  rows_ok t -> cleanup_write t id b t' -> b = negb (is_closed t id) && is_closed t' id.
Proof.
  intros Ht Hw. destruct Hw.
  - unfold is_closed. by rewrite H, lookup_insert_eq.
  - unfold RecordCleanupFailure. destruct (t !! id) as [c|] eqn:E; cbn; [|by destruct (is_closed t id)].
    destruct (host_removed_at c); cbn; [by destruct (is_closed t id)|].
    unfold is_closed. rewrite lookup_insert_eq. by rewrite andb_false_r.
  - apply not_closed_by, closed_alter. auto.
  - apply not_closed_by, closed_alter. auto.
  - apply not_closed_by, closed_alter. intros c. cbn. destruct (is_empty _); auto.
  - unfold ConfirmRunnerCleanup. destruct (t !! id) as [c|] eqn:E; cbn; [|by destruct (is_closed t id)].
    destruct (if host then host_removed_at c else registration_deleted_at c) eqn:En; cbn; [by destruct (is_closed t id)|].
    unfold is_closed. rewrite E, lookup_insert_eq. destruct (Ht _ _ E) as [_ _ _ _ [H5 _]].
    destruct (cleaned_up_at c); [|done]. destruct H5 as [Ha Hb]; [done|]. destruct host; congruence.
Qed.

(** What holds of a run: its rows are in order, and what was closed was reopened, or is closed still. *)
Definition run_ok (s : cleanups) : Prop :=
  rows_ok (cs_rows s) /\
  forall id, cs_closed s id = (cs_reopened s id + if is_closed (cs_rows s) id then 1 else 0)%nat.

Lemma step_ok s s' : cleanups_step s s' -> run_ok s -> run_ok s'.
Proof.
  intros Hs [Ht Hc]. destruct Hs as [t closed reopened id b t' Hw]. cbn in *. split; [by eapply write_ok|].
  intros i. cbn. unfold add_at, str_eqb. specialize (Hc i). case_bool_decide as Ei.
  - subst i. rewrite (write_closes _ _ _ _ Ht Hw), Hc. destruct (is_closed t id), (is_closed t' id); cbn; lia.
  - rewrite !andb_false_r, Hc. unfold is_closed. rewrite (write_elsewhere _ _ _ _ _ Hw Ei). lia.
Qed.

Lemma reached_ok s : cleanups_reached s -> run_ok s.
Proof.
  intros Hr. unfold cleanups_reached in Hr.
  assert (H0 : run_ok no_rows) by (split; [intros id c; cbn; by rewrite lookup_empty|done]).
  revert H0. generalize dependent no_rows. induction 1; eauto using step_ok.
Qed.
End rows.

(** C26: A runner's cleanup row is closed exactly while both its sides have confirmed,
    however their writes cross: in every run of the writes, by a host's reports, by GitHub's
    answers and by retries in any order, each row's complaint is its two sides' complaints
    together, its failure's date stands exactly while there is one, a side that confirmed has
    none, and [cleaned_up_at] is set exactly when both stamps are.  And each closing is counted
    once: the closings are as many as the times the row was opened again, and one more while it
    is closed.  (A closing asks for the runner's session to be recorded, which the table of
    sessions does at most once for a runner.) *)
Theorem cleanup_closes_once (s : cleanups) (id : string) (c : cleanup) :
  cleanups_reached s -> cs_rows s !! id = Some c ->
  cleanup_ok c /\
  cs_closed s id = (cs_reopened s id + if is_null (host_removed_at c) || is_null (registration_deleted_at c) then 0 else 1)%nat.
Proof.
  intros Hr Hc. destruct (reached_ok s Hr) as [Ht Hn]. pose proof (Ht _ _ Hc) as Hok. split; [done|].
  rewrite Hn. f_equal. unfold is_closed. rewrite Hc. destruct Hok as [_ _ _ _ H5].
  destruct (cleaned_up_at c), (host_removed_at c), (registration_deleted_at c); cbn; naive_solver.
Qed.
