(* ===== verification/Results.v ===== *)
(** * What the controller does with what hosts say (controller/agents.go, background.go)

    A host answers its tasks ([ReportResult]) and reports its runners ([applyReports]); the
    controller moves the rows of its tables by the store's transactions (Lifecycle.v,
    Cleanup.v) and settles the task's lease (TaskQueue.v), and gives up on tasks that were
    tried too often ([sweepTasks]).  An operation is a function of the tables that may end
    in an error ([R]); any call of the store may fail, and one that fails writes nothing.
    A handler is run alone here. *)
From Stdlib Require Import ZArith Lia Ascii String.
From stdpp Require Import base strings list gmap relations.
From S2P Require Import Prelude GoString GoText Store Lifecycle Backend Claims Agent AgentTasks TaskQueue Cleanup.
Local Open Scope string_scope.
Local Open Scope list_scope.
Local Open Scope Z_scope.

(** ** Data *)
(** What came of asking GitHub to delete a registration, the way to GitHub included. *)
Inductive registration := NotAsked | RegistrationGone | RegistrationBusy | NotDeleted (reason : string).

(** What the handlers read that is not theirs: whether the [n]th call of the store fails, the
    clock, whether a job is in progress on a runner, GitHub, random bytes, the runner's
    backend, and whether the controller may act. *)
Class Outside := {
  ow_down : nat -> bool;
  ow_clock : nat -> Time;
  ow_running : nat -> string -> bool;
  ow_github : nat -> string -> registration;
  ow_random : nat -> string;
  ow_backend : string -> BackendKind;
  ow_hostName : string -> string;
  ow_mayAct : bool
}.

(** What other parts of the controller are told. *)
Inductive told :=
  | ToldToolFill (host : string) (task : Task) (ok : bool)
  | ToldImagePull (host pool image source : string) (ok : bool) (fault : FaultKind) (text : string)
  | ToldLogsFailed (stream text : string)
  | ToldHostCheck (host : string) (issued : Time)
  | ToldCheckExpired (host task : string)
  | ToldUpdate (host : string) (task : option Task) (ok : bool)
  | ToldCreation (host : string) (runner : Runner)
  | ToldLost (before : Runner) (message : string) (fault : FaultKind)
  | ToldStartFailure (before failed : Runner)
  | ToldReady (runner : Runner)
  | ToldReturned (runner : Runner)
  | ToldTail (runner : string) (lines : list string)
  | ToldOutOfMemory (runner : Runner) (message : string)
  | ToldLookup (kind target : string)
  | ToldNudge.

Record ctl := {
  ct_runners : gmap string Runner;
  ct_cleanups : gmap string cleanup;
  ct_containers : gmap string Handle;
  ct_queues : taskQueues;
  ct_told : list told;
  ct_asked : nat
}.

Definition with_runners (s : ctl) (m : gmap string Runner) : ctl :=
  {| ct_runners := m; ct_cleanups := ct_cleanups s; ct_containers := ct_containers s; ct_queues := ct_queues s; ct_told := ct_told s; ct_asked := ct_asked s |}.
Definition with_cleanups (s : ctl) (m : gmap string cleanup) : ctl :=
  {| ct_runners := ct_runners s; ct_cleanups := m; ct_containers := ct_containers s; ct_queues := ct_queues s; ct_told := ct_told s; ct_asked := ct_asked s |}.
Definition with_containers (s : ctl) (m : gmap string Handle) : ctl :=
  {| ct_runners := ct_runners s; ct_cleanups := ct_cleanups s; ct_containers := m; ct_queues := ct_queues s; ct_told := ct_told s; ct_asked := ct_asked s |}.
Definition with_queues (s : ctl) (m : taskQueues) : ctl :=
  {| ct_runners := ct_runners s; ct_cleanups := ct_cleanups s; ct_containers := ct_containers s; ct_queues := m; ct_told := ct_told s; ct_asked := ct_asked s |}.
Definition with_told (s : ctl) (t : list told) : ctl :=
  {| ct_runners := ct_runners s; ct_cleanups := ct_cleanups s; ct_containers := ct_containers s; ct_queues := ct_queues s; ct_told := t; ct_asked := ct_asked s |}.
Definition next_call (s : ctl) : ctl :=
  {| ct_runners := ct_runners s; ct_cleanups := ct_cleanups s; ct_containers := ct_containers s; ct_queues := ct_queues s; ct_told := ct_told s; ct_asked := S (ct_asked s) |}.

Inductive ctl_error := StoreFailed | Refused (e : TransitionError) | WrongHost (host runner owner : string) | Paused | NoHostID | ReportTooLarge (n : nat).

(** A runner as [GetRunner] reads it. *)
Record runner_row := { rw_runner : Runner; rw_cleanup : cleanup; rw_container : Handle }.

(** A result, with what [TaskResult] leaves out: how long the runtime took, when the
    container started, the image's digest. *)
Record posted_result := { po_result : TaskResult; po_service : Duration; po_started : option Time; po_digest : string }.

Definition R (A : Type) : Type := ctl -> (ctl_error + A) * ctl.
#[global] Instance R_ret : MRet R := fun A a s => (inr a, s).
#[global] Instance R_bind : MBind R := fun A B f m s =>
  match m s with (inr a, s') => f a s' | (inl e, s') => (inl e, s') end.
Definition throw {A} (e : ctl_error) : R A := fun s => (inl e, s).
(** An error that is logged, or kept for later. *)
Definition attempted {A} (m : R A) : R (ctl_error + A) := fun s => let '(r, s') := m s in (inr r, s').
Definition tell (t : told) : R unit := fun s => (inr tt, with_told s (ct_told s ++ [t])).

Section handlers.
Context `{Outside}.

(** One call of the store. *)
Definition db {A} (f : ctl -> Time -> (ctl_error + A) * ctl) : R A := fun s =>
  if ow_down (ct_asked s) then (inl StoreFailed, next_call s) else f (next_call s) (ow_clock (ct_asked s)).

(** A write of columns and tables that are not kept here. *)
Definition elsewhere : R unit := db (fun s _ => (inr tt, s)).

Definition ReadRunner (id : string) : R runner_row := db (fun s _ =>
  match ct_runners s !! id with
  | None => (inl (Refused Lifecycle.ErrNotFound), s)
  | Some r => (inr {| rw_runner := r; rw_cleanup := default not_cleaned (ct_cleanups s !! id);
                      rw_container := default "" (ct_containers s !! id) |}, s)
  end).

Definition moving (f : gmap string Runner -> Time -> TransitionError + (Runner * gmap string Runner)) : R Runner := db (fun s now =>
  match f (ct_runners s) now with
  | inl e => (inl (Refused e), s)
  | inr (r, t) => (inr r, with_runners s t)
  end).

(** An UPDATE of a row that is not there changes nothing and is no error. *)
Definition SetRunnerContainer (id : string) (h : Handle) : R unit := db (fun s _ =>
  (inr tt, match ct_runners s !! id with Some _ => with_containers s (<[id := h]> (ct_containers s)) | None => s end)).

Definition r_with_started (r : Runner) (started : Time) : Runner :=
  {| r_ID := r_ID r; r_PoolID := r_PoolID r; r_HostID := r_HostID r; r_Name := r_Name r; r_Ephemeral := r_Ephemeral r; r_State := r_State r; r_Image := r_Image r;
     r_CurrentJobID := r_CurrentJobID r; r_CreatedAt := r_CreatedAt r; r_ContainerStartedAt := Some started;
     r_RegisteredAt := r_RegisteredAt r; r_DrainingSince := r_DrainingSince r; r_StartedAt := r_StartedAt r;
     r_LastIdleAt := r_LastIdleAt r; r_FinishedAt := r_FinishedAt r; r_Message := r_Message r; r_JobsHandled := r_JobsHandled r;
     r_AllocatedCPUs := r_AllocatedCPUs r; r_AllocatedMemoryMB := r_AllocatedMemoryMB r;
     r_AllocationSource := r_AllocationSource r; r_LentMemoryMB := r_LentMemoryMB r; r_FaultKind := r_FaultKind r |}.

Definition SetRunnerStartup (id : string) (started : Time) : R unit := db (fun s _ =>
  (inr tt, with_runners s (alter (fun r => r_with_started r started) id (ct_runners s)))).

Definition SetRunnerServiceTime (d : Duration) : R unit :=
  if (d <=? 0) || (30 * Minute <? d) then mret tt else elsewhere.

Definition cleaning {A} (f : gmap string cleanup -> Time -> A * gmap string cleanup) : R A := db (fun s now =>
  let '(a, t) := f (ct_cleanups s) now in (inr a, with_cleanups s t)).

(** ** Cleaning up *)
Definition confirmCleanup (id : string) (host : bool) : R unit :=
  _ ← cleaning (fun t now => ConfirmRunnerCleanup t id host now);
  _ ← ReadRunner id; mret tt.

Definition noteCleanupFailure (r : runner_row) (kind : TaskKind) (reason : string) : R unit :=
  if negb (is_null (host_removed_at (rw_cleanup r))) then mret tt
  else
    _ ← cleaning (fun t now => RecordCleanupFailure t (r_ID (rw_runner r)) (TaskKind_string kind +:+ " failed: " +:+ reason) now);
    mret tt.

Definition QueueEnrichment (kind target : string) : R unit := _ ← elsewhere; tell (ToldLookup kind target).

Definition noteCleanupSucceeded (r : runner_row) (removed : bool) : R unit :=
  let id := r_ID (rw_runner r) in
  if removed then
    _ ← confirmCleanup id true;
    if is_null (registration_deleted_at (rw_cleanup r)) then QueueEnrichment "registration" id else mret tt
  else if is_empty (cleanup_error (rw_cleanup r)) && negb (is_null (cleaned_up_at (rw_cleanup r))) then mret tt
  else cleaning (fun t _ => (tt, ClearCleanupFailure t id)).

Definition cleansUp (kind : TaskKind) : bool := is_kind kind TaskStopRunner || is_kind kind TaskRemoveRunner.

(** ** Moving a runner *)
Definition observeRunnerReady (r : Runner) : R unit :=
  if is_null (r_RegisteredAt r) then mret tt
  else if negb (is_state (r_State r) RunnerIdle) && negb (is_state (r_State r) RunnerBusy) then mret tt
  else tell (ToldReady r).

Definition applyRunnerState (r : Runner) (state : option RunnerState) (message : string) (fault : FaultKind) : R unit :=
  match state with
  | None => mret tt
  | Some to =>
      if is_state to (r_State r) then mret tt
      else if negb (CanTransition (r_State r) to) then mret tt
      else
        updated ← moving (fun t now => if is_state to RunnerFailed then FailRunner t (r_ID r) message fault now
                                       else TransitionRunner t (r_ID r) to message now);
        _ ← observeRunnerReady updated;
        _ ← (if is_state to RunnerFailed then _ ← tell (ToldLost r message (r_FaultKind updated)); tell (ToldStartFailure r updated)
             else mret tt);
        if Terminal to then tell ToldNudge else mret tt
  end.

Definition failRunnerID (id reason : string) (fault : FaultKind) : R unit :=
  before ← ReadRunner id;
  updated ← moving (fun t now => FailRunner t id reason fault now);
  _ ← tell (ToldLost (rw_runner before) reason (r_FaultKind updated));
  tell (ToldStartFailure (rw_runner before) updated).

(** ** Removing a runner *)
Definition with_one_queue (s : ctl) (host : string) (q : taskQueue) : ctl := with_queues s (<[host := q]> (ct_queues s)).

Definition deferBusyRegistration (r : Runner) : R unit :=
  cleaning (fun t now => (tt, DeferRegistrationCleanup t (r_ID r)
    ("GitHub still reports " +:+ r_Name r +:+ " as running a job; cleanup is deferred until GitHub reports it idle or absent") now)).

Definition deleteRegistration (r : Runner) : R unit :=
  if negb ow_mayAct then mret tt
  else fun s => match ow_github (ct_asked s) (r_ID r) with
  | NotAsked => (inr tt, s)
  | RegistrationGone => (_ ← attempted (confirmCleanup (r_ID r) false); mret tt) s
  | RegistrationBusy => (_ ← attempted (deferBusyRegistration r); mret tt) s
  | NotDeleted e =>
      (_ ← attempted (cleaning (fun t now => (tt, RecordRegistrationCleanupFailure t (r_ID r) ("the GitHub runner registration could not be deleted: " +:+ e) now)));
       mret tt) s
  end.

Definition finishRemoveRunner (r : Runner) (reason : string) : R Runner :=
  _ ← deleteRegistration r;
  updated ← moving (fun t now => TransitionRunner t (r_ID r) RunnerRemoved reason now);
  _ ← (if is_state (r_State r) RunnerBusy then tell (ToldLost r reason "removed") else mret tt);
  mret updated.

(** A task about a runner with nothing but its kind and its runner. *)
Definition runner_task (kind : TaskKind) (runnerID : string) (backend : BackendKind) : Task :=
  {| t_ID := ""; t_Kind := kind; t_RunnerID := runnerID; t_Spec := None; t_Backend := backend; t_PoolID := ""; t_Image := "";
     t_PullPolicy := ""; t_StopTimeout := 0; t_IssuedAt := 0; t_StreamID := ""; t_Tools := 0; t_Attempt := 0; t_UpdateID := ""; t_UpdateTag := "";
     t_MergeID := ""; t_MergeImage := ""; t_MergeAncestor := ""; t_MergeBase := ""; t_MergeHead := "" |}.

(** Its stamp on the row is diagnostic, and its failure logged. *)
Definition enqueueLifecycle (host : string) (t : Task) : R bool :=
  if negb ow_mayAct then mret false
  else
    queued ← (fun s => let '(ok, qs) := controller_enqueue (ct_queues s) host t (ow_random (ct_asked s)) (ow_clock (ct_asked s)) in
                       (inr ok, with_queues s qs));
    _ ← (if (queued : bool) && nonempty (t_RunnerID t) && lifecycleTask (t_Kind t) then _ ← attempted elsewhere; mret tt else mret tt);
    mret queued.

Definition removeRunner (r : Runner) (reason : string) : R Runner :=
  if negb ow_mayAct then throw Paused
  else
    _ ← enqueueLifecycle (r_HostID r) (runner_task TaskRemoveRunner (r_ID r) (ow_backend (r_ID r)));
    finishRemoveRunner r reason.

(** ** Answers to tasks *)
Definition prewarm_outcome (host : string) (task : Task) (res : TaskResult) : R unit :=
  _ ← tell (ToldImagePull host (t_PoolID task) (t_Image task) "prewarm" (rs_OK res) (rs_Fault res) (rs_Error res));
  elsewhere.

(** What the result says of its runner; the runner is this host's. *)
Definition apply_to_runner (host : string) (r : runner_row) (kind : TaskKind) (task : option Task) (p : posted_result) : R unit :=
  let res := po_result p in
  let id := r_ID (rw_runner r) in
  _ ← (if rs_OK res && negb (rs_NotStarted res) then tell (ToldCreation host (rw_runner r)) else mret tt);
  _ ← (if nonempty (rs_Handle res) && negb (str_eqb (rs_Handle res) (rw_container r)) then SetRunnerContainer id (rs_Handle res) else mret tt);
  _ ← match po_started p with
      | Some started =>
          if is_kind kind TaskCreateRunner && rs_OK res then _ ← SetRunnerServiceTime (po_service p); SetRunnerStartup id started
          else mret tt
      | None => mret tt
      end;
  _ ← (if nonempty (po_digest p) then elsewhere else mret tt);
  _ ← (if is_kind kind TaskCreateRunner then
         tell (ToldImagePull host (r_PoolID (rw_runner r))
                 match task with Some t => match t_Spec t with Some sp => sp_Image sp | None => "" end | None => "" end
                 "start" (rs_OK res) (rs_Fault res) (rs_Error res))
       else mret tt);
  if negb (rs_OK res) && rs_CleanupPending res && is_kind kind TaskRemoveRunner then mret tt
  else if rs_OK res then
    _ ← applyRunnerState (rw_runner r) (rs_State res) (rs_Error res) (rs_Fault res);
    if cleansUp kind then noteCleanupSucceeded r (is_kind kind TaskRemoveRunner) else mret tt
  else if negb (lifecycleTask kind) then mret tt
  else
    let message := if is_empty (rs_Error res) then "the agent could not complete task " +:+ rs_TaskID res else rs_Error res in
    if Terminal (r_State (rw_runner r)) then noteCleanupFailure r kind message
    else applyRunnerState (rw_runner r) (Some RunnerFailed) message (rs_Fault res).

(** The runner a result names, where there is one and it is the host's. *)
Definition for_runner (host : string) (kind : TaskKind) (task : option Task) (p : posted_result) : R unit :=
  found ← attempted (ReadRunner (rs_RunnerID (po_result p)));
  match found with
  | inl (Refused Lifecycle.ErrNotFound) => mret tt
  | inl e => throw e
  | inr r =>
      if negb (str_eqb (r_HostID (rw_runner r)) host) then throw (WrongHost host (r_ID (rw_runner r)) (r_HostID (rw_runner r)))
      else apply_to_runner host r kind task p
  end.

(** A result of no pool's and no tool's: what it says, by its kind. *)
Definition settle_result (host : string) (kind : TaskKind) (task : option Task) (p : posted_result) : R unit :=
  let res := po_result p in
  match kind with
  | TaskMergeConflict => mret tt
  | TaskCheckHost => tell (ToldHostCheck host match task with Some t => t_IssuedAt t | None => 0 end)
  | TaskUpdateAgent => tell (ToldUpdate host task (rs_OK res))
  | _ => if is_empty (rs_RunnerID res) then mret tt else for_runner host kind task p
  end.

Definition apply_result (host : string) (p : posted_result) : R unit := fun s =>
  let res := po_result p in
  let task := peek (get_queue (ct_queues s) host) (rs_TaskID res) in
  let kind := if is_kind (rs_Kind res) (TaskOther "") then match task with Some t => t_Kind t | None => TaskOther "" end else rs_Kind res in
  match task with
  | None => settle_result host kind task p s
  | Some t =>
      if is_kind (t_Kind t) TaskFillToolCache then tell (ToldToolFill host t (rs_OK res)) s
      else if is_kind (t_Kind t) TaskPrewarmImage then prewarm_outcome host t res s
      else (_ ← (if is_kind (t_Kind t) TaskStreamLogs && negb (rs_OK res) then tell (ToldLogsFailed (t_StreamID t) (rs_Error res)) else mret tt);
            settle_result host kind task p) s
  end.

(** A task given back is offered again, where its attempts allow. *)
Definition report_result (host : string) (p : posted_result) : R unit := fun s =>
  let res := po_result p in
  if rs_NotStarted res && negb (rs_OK res) then
    match redeliver (get_queue (ct_queues s) host) (rs_TaskID res) with
    | (redelivered, q) => (inr tt, with_one_queue s host q)
    | (notInFlight, _) => (inr tt, s)
    | (outOfAttempts, _) => apply_result host p s
    end
  else apply_result host p s.

Definition ReportResult (host : string) (p : posted_result) : R unit := fun s =>
  match report_result host p s with
  | (inr _, s') => (inr tt, with_one_queue s' host (complete (get_queue (ct_queues s') host) (rs_TaskID (po_result p))).2)
  | failed => failed
  end.

(** ** Reports *)
Definition noteRunnerReturned (r : Runner) : R unit :=
  let message := "host " +:+ ow_hostName (r_HostID r) +:+
    " returned with this runner still running; it was given up as lost, and its job is being left to finish" in
  _ ← (if negb (str_eqb (r_Message r) message)
       then _ ← attempted (moving (fun t now => TransitionRunner t (r_ID r) (r_State r) message now)); mret tt
       else mret tt);
  tell (ToldReturned r).

Definition ListRunningJobs (id : string) : R bool := db (fun s _ => (inr (ow_running (pred (ct_asked s)) id), s)).

Definition reconcileLateReport (r : Runner) : R unit :=
  if is_state (r_State r) RunnerRemoved then mret tt
  else
    running ← attempted (ListRunningJobs (r_ID r));
    match running with
    | inl _ => mret tt
    | inr true => noteRunnerReturned r
    | inr false =>
        _ ← attempted (removeRunner r "the host returned with this runner still on it after it was given up as lost, and it has no job left to finish");
        mret tt
    end.

Definition phase_live (p : option Phase) : bool := match p with Some p => Phase_Live p | None => false end.
Definition state_terminal (s : option RunnerState) : bool := match s with Some s => Terminal s | None => false end.

(** A report of a runner of the host's.  Two things of it are left out: the sample of the
    runner's resources, and the GitHub ID of a runner that has none, with the report being
    cut short where that ID could not be written. *)
Definition report_on_row (row : runner_row) (rep : RunnerReport) : R unit :=
  let r := rw_runner row in
  _ ← (if negb (is_empty (rp_CleanupError rep)) && Terminal (r_State r) then noteCleanupFailure row TaskRemoveRunner (rp_CleanupError rep) else mret tt);
  if Terminal (r_State r) && phase_live (rp_Phase rep) then reconcileLateReport r
  else
    _ ← (if nonempty (rp_Handle rep) && negb (str_eqb (rp_Handle rep) (rw_container row)) then SetRunnerContainer (r_ID r) (rp_Handle rep) else mret tt);
    _ ← (if is_null (rp_State rep) && bool_decide (rp_Phase rep = Some PhaseRunning) && is_state (r_State r) RunnerRegistering
         then QueueEnrichment "ready" (r_ID r) else mret tt);
    _ ← applyRunnerState r (rp_State rep) (rp_Message rep) (rp_Fault rep);
    _ ← (match rp_OutputTail rep with [] => mret tt | lines => tell (ToldTail (r_ID r) lines) end);
    _ ← (if str_eqb (rp_Fault rep) FaultOutOfMemory then tell (ToldOutOfMemory r (rp_Message rep)) else mret tt);
    if rp_HostRemoved rep && negb (phase_live (rp_Phase rep)) && (Terminal (r_State r) || state_terminal (rp_State rep))
    then noteCleanupSucceeded row true else mret tt.

Definition apply_report (host : string) (rep : RunnerReport) : R unit :=
  if is_empty (rp_RunnerID rep) then mret tt
  else
    found ← attempted (ReadRunner (rp_RunnerID rep));
    match found with
    | inl (Refused Lifecycle.ErrNotFound) => mret tt
    | inl e => throw e
    | inr row => if negb (str_eqb (r_HostID (rw_runner row)) host) then mret tt else report_on_row row rep
    end.

(** Every report is taken, and the errors are kept. *)
Fixpoint applyReports (host : string) (reports : list RunnerReport) : R (list ctl_error) :=
  match reports with
  | [] => mret []
  | rep :: reports' =>
      one ← attempted (apply_report host rep);
      errs ← applyReports host reports';
      mret (match one with inl e => e :: errs | inr _ => errs end)
  end.

Definition MaxRunnersPerReport : nat := 1000.
Definition ReportRunners (host : string) (reports : list RunnerReport) : R (list ctl_error) :=
  if is_empty host then throw NoHostID
  else if (MaxRunnersPerReport <? length reports)%nat then throw (ReportTooLarge (length reports))
  else applyReports host reports.

(** The runners of a report whose workloads the host may remove. *)
Fixpoint unknown_of (host : string) (reports : list RunnerReport) : R (list string) :=
  match reports with
  | [] => mret []
  | rep :: reports' =>
      if is_empty (rp_RunnerID rep) then unknown_of host reports'
      else
        found ← attempted (ReadRunner (rp_RunnerID rep));
        rest ← unknown_of host reports';
        mret (match found with
              | inl (Refused Lifecycle.ErrNotFound) => rp_RunnerID rep :: rest
              | inl _ => rest
              | inr row =>
                  if negb (str_eqb (r_HostID (rw_runner row)) host) then rest
                  else if is_state (r_State (rw_runner row)) RunnerRemoved then rp_RunnerID rep :: rest else rest
              end)
  end.
Definition unknownRunners (host : string) (reports : list RunnerReport) : R (list string) :=
  if negb ow_mayAct then mret [] else unknown ← unknown_of host reports; mret (SortStableFunc strings_Compare unknown).

(** ** Tasks nobody answered *)
Definition drop_task (host : string) (task : Task) : R unit :=
  match t_Kind task with
  | TaskCheckHost => tell (ToldCheckExpired host (t_ID task))
  | TaskRemoveRunner =>
      found ← attempted (ReadRunner (t_RunnerID task));
      match found with
      | inr r => _ ← attempted (noteCleanupFailure r TaskRemoveRunner "host did not confirm removal; cleanup will be retried"); mret tt
      | inl _ => mret tt
      end
  | TaskStopRunner =>
      _ ← attempted (failRunnerID (t_RunnerID task)
             ("the host never confirmed stopping this runner after " +:+ itoa maxTaskAttempts +:+ " deliveries; it is presumed gone") FaultRunnerExited);
      mret tt
  | _ => mret tt
  end.

Fixpoint for_each {A} (f : A -> R unit) (l : list A) : R unit :=
  match l with [] => mret tt | a :: l' => _ ← f a; for_each f l' end.

(** One host's queue; [walk] is the order Go walks a map in. *)
Definition sweep_host (walk : list leasedTask -> list leasedTask) (now : Time) (host : string) : R unit := fun s =>
  let '(_, dropped, q) := sweep_queue walk (get_queue (ct_queues s) host) now in
  for_each (drop_task host) dropped (with_one_queue s host q).

Definition sweepTasks (walk : list leasedTask -> list leasedTask) (hosts : list string) (now : Time) : R unit :=
  for_each (sweep_host walk now) hosts.
End handlers.

(** ** What an operation keeps

    [keeps P m]: however [m] ends, the tables it leaves are related by [P] to those it
    found.  [P] is a preorder, and every handler keeps what its calls keep. *)
Definition keeps {A} (P : ctl -> ctl -> Prop) (m : R A) : Prop := forall s, P s (m s).2.

Section keeps.
Context (P : ctl -> ctl -> Prop) `{!PreOrder P}.

Lemma keeps_ret {A} (a : A) : keeps P (mret a : R A).
Proof. intros s. reflexivity. Qed.
Lemma keeps_throw {A} (e : ctl_error) : keeps P (throw e : R A).
Proof. intros s. reflexivity. Qed.
Lemma keeps_bind {A B} (m : R A) (f : A -> R B) : keeps P m -> (forall a, keeps P (f a)) -> keeps P (m ≫= f).
Proof.
  intros Hm Hf s. unfold mbind, R_bind. specialize (Hm s). destruct (m s) as [[e|a] s']; [done|]. cbn in Hm. etrans; [exact Hm|apply Hf].
Qed.
Lemma keeps_attempted {A} (m : R A) : keeps P m -> keeps P (attempted m).
Proof. intros Hm s. unfold attempted. specialize (Hm s). by destruct (m s). Qed.
Lemma keeps_if {A} (b : bool) (m m' : R A) : keeps P m -> keeps P m' -> keeps P (if b then m else m').
Proof. by destruct b. Qed.
Lemma keeps_for_each {A} (f : A -> R unit) l : (forall a, keeps P (f a)) -> keeps P (for_each f l).
Proof. intros Hf. induction l as [|a l IH]; [apply keeps_ret|]. apply keeps_bind; [apply Hf|done]. Qed.

Context `{Outside}.
Lemma keeps_db {A} (f : ctl -> Time -> (ctl_error + A) * ctl) :
  (forall s, P s (next_call s)) -> (forall s now, P s (f s now).2) -> keeps P (db f).
Proof. intros Hn Hf s. unfold db. destruct (ow_down _); [apply Hn|]. etrans; [apply Hn|apply Hf]. Qed.
End keeps.

(** What [P] must allow for the handlers of one runner to keep it. *)
Record silent (P : ctl -> ctl -> Prop) : Prop := {
  al_next s : P s (next_call s);
  al_told s t : P s (with_told s t)
}.
Record allows (P : ctl -> ctl -> Prop) (id : string) : Prop := {
  al_silent : silent P;
  al_move s to message kind ub now r t : transitionRunner (ct_runners s) id to message kind ub now = inr (r, t) -> P s (with_runners s t);
  al_started s started : P s (with_runners s (alter (fun r => r_with_started r started) id (ct_runners s)));
  al_container s h : P s (with_containers s (<[id := h]> (ct_containers s)));
  al_cleanup s b t : cleanup_write (ct_cleanups s) id b t -> P s (with_cleanups s t)
}.

Ltac keep :=
  repeat first
    [ solve [auto with keeps] | apply keeps_ret; assumption | apply keeps_throw; assumption | apply keeps_attempted | apply keeps_if
    | apply keeps_bind; [assumption| |intros ?]
    | match goal with |- keeps _ (match ?x with _ => _ end) => destruct x end ].

Section handlers_keep.
Context `{O : Outside} (P : ctl -> ctl -> Prop) `{HP : !PreOrder P}.

Section reading.
Context (Hs : silent P).

Lemma tell_keeps t : keeps P (tell t).
Proof. intros s. apply (al_told _ Hs). Qed.
Lemma elsewhere_keeps : keeps P elsewhere.
Proof. apply keeps_db; [done|apply (al_next _ Hs)|done]. Qed.
Lemma ReadRunner_keeps i : keeps P (ReadRunner i).
Proof. apply keeps_db; [done|apply (al_next _ Hs)|]. intros s now. by destruct (ct_runners s !! i). Qed.
End reading.

Section one.
Context (id : string) (Hal : allows P id).
Let Hs : silent P := al_silent _ _ Hal.
#[local] Hint Resolve tell_keeps elsewhere_keeps ReadRunner_keeps : keeps.

Lemma cleaning_keeps {A} (f : gmap string cleanup -> Time -> A * gmap string cleanup) :
  (forall t now, exists b, cleanup_write t id b (f t now).2) -> keeps P (cleaning f).
Proof.
  intros Hf. apply keeps_db; [done|apply (al_next _ Hs)|]. intros s now.
  destruct (Hf (ct_cleanups s) now) as [b Hw]. destruct (f (ct_cleanups s) now) as [a t]. by apply (al_cleanup _ _ Hal _ b).
Qed.
Lemma moving_keeps f :
  (forall t now, exists to message kind, f t now = transitionRunner t id to message kind false now) -> keeps P (moving f).
Proof.
  intros Hf. apply keeps_db; [done|apply (al_next _ Hs)|]. intros s now.
  destruct (Hf (ct_runners s) now) as (to & message & kind & E). destruct (f (ct_runners s) now) as [e|[r t]]; [done|].
  by eapply (al_move _ _ Hal).
Qed.
Lemma SetRunnerContainer_keeps h : keeps P (SetRunnerContainer id h).
Proof.
  apply keeps_db; [done|apply (al_next _ Hs)|]. intros s now. cbn. destruct (_ !! _); [apply (al_container _ _ Hal)|done].
Qed.
Lemma SetRunnerStartup_keeps started : keeps P (SetRunnerStartup id started).
Proof. apply keeps_db; [done|apply (al_next _ Hs)|]. intros s now. apply (al_started _ _ Hal). Qed.
#[local] Hint Resolve SetRunnerContainer_keeps SetRunnerStartup_keeps : keeps.

Lemma QueueEnrichment_keeps kind : keeps P (QueueEnrichment kind id).
Proof. unfold QueueEnrichment. keep. Qed.
Lemma SetRunnerServiceTime_keeps d : keeps P (SetRunnerServiceTime d).
Proof. unfold SetRunnerServiceTime. keep. Qed.
Lemma confirmCleanup_keeps host : keeps P (confirmCleanup id host).
Proof. unfold confirmCleanup. keep. apply cleaning_keeps. intros t now. eexists. apply cw_confirm. Qed.
Lemma observeRunnerReady_keeps r : keeps P (observeRunnerReady r).
Proof. unfold observeRunnerReady. keep. Qed.
#[local] Hint Resolve QueueEnrichment_keeps SetRunnerServiceTime_keeps confirmCleanup_keeps observeRunnerReady_keeps : keeps.

Lemma noteCleanupFailure_keeps r kind reason : r_ID (rw_runner r) = id -> keeps P (noteCleanupFailure r kind reason).
Proof. intros E. unfold noteCleanupFailure. rewrite E. keep. apply cleaning_keeps. intros t now. eexists. apply cw_failure. Qed.
Lemma noteCleanupSucceeded_keeps r removed : r_ID (rw_runner r) = id -> keeps P (noteCleanupSucceeded r removed).
Proof. intros E. unfold noteCleanupSucceeded. rewrite E. keep. apply cleaning_keeps. intros t now. eexists. apply cw_clear. Qed.
Lemma applyRunnerState_keeps r state message fault : r_ID r = id -> keeps P (applyRunnerState r state message fault).
Proof.
  intros E. unfold applyRunnerState. keep. apply moving_keeps. intros t now. rewrite E. destruct (is_state _ RunnerFailed); by eexists _, _, _.
Qed.
Lemma failRunnerID_keeps reason fault : keeps P (failRunnerID id reason fault).
Proof. unfold failRunnerID. keep. apply moving_keeps. intros t now. by eexists _, _, _. Qed.
#[local] Hint Resolve noteCleanupFailure_keeps noteCleanupSucceeded_keeps applyRunnerState_keeps failRunnerID_keeps : keeps.

Lemma apply_to_runner_keeps host r kind task p : r_ID (rw_runner r) = id -> keeps P (apply_to_runner host r kind task p).
Proof. intros E. unfold apply_to_runner. rewrite E. keep. Qed.

Lemma noteRunnerReturned_keeps r : r_ID r = id -> keeps P (noteRunnerReturned r).
Proof. intros E. unfold noteRunnerReturned. rewrite E. keep. apply moving_keeps. intros t now. by eexists _, _, _. Qed.
#[local] Hint Resolve noteRunnerReturned_keeps : keeps.

(** The handlers that queue a task for the runner's host. *)
Context (on : string) (Hq : forall s q, P s (with_one_queue s on q)).

Lemma deferBusyRegistration_keeps r : r_ID r = id -> keeps P (deferBusyRegistration r).
Proof. intros E. unfold deferBusyRegistration. rewrite E. apply cleaning_keeps. intros t now. eexists. by apply cw_defer. Qed.
#[local] Hint Resolve deferBusyRegistration_keeps : keeps.
Lemma deleteRegistration_keeps r : r_ID r = id -> keeps P (deleteRegistration r).
Proof.
  intros E. unfold deleteRegistration. rewrite E. destruct (negb ow_mayAct); [keep|]. intros s.
  destruct (ow_github (ct_asked s) id) as [| | |e]; [done| | |];
    match goal with |- P s (?m s).2 => enough (keeps P m) by done end; keep.
  apply cleaning_keeps. intros t now. eexists. apply cw_registration.
Qed.
#[local] Hint Resolve deleteRegistration_keeps : keeps.
Lemma enqueueLifecycle_keeps t : keeps P (enqueueLifecycle on t).
Proof.
  unfold enqueueLifecycle. keep. intros s. unfold controller_enqueue. destruct (str_eqb on ""); [by destruct s|].
  destruct (enqueueTask _ _) as [ok q]. apply Hq.
Qed.
#[local] Hint Resolve enqueueLifecycle_keeps : keeps.
Lemma removeRunner_keeps r reason : r_ID r = id -> r_HostID r = on -> keeps P (removeRunner r reason).
Proof.
  intros E Eh. unfold removeRunner, finishRemoveRunner. rewrite E, Eh. keep. apply moving_keeps. intros t now. by eexists _, _, _.
Qed.
#[local] Hint Resolve removeRunner_keeps : keeps.
Lemma reconcileLateReport_keeps r : r_ID r = id -> r_HostID r = on -> keeps P (reconcileLateReport r).
Proof.
  intros E Eh. unfold reconcileLateReport. rewrite E. keep. unfold ListRunningJobs. apply keeps_db; [done|apply (al_next _ Hs)|done].
Qed.
#[local] Hint Resolve reconcileLateReport_keeps : keeps.

Lemma report_on_row_keeps row rep : r_ID (rw_runner row) = id -> r_HostID (rw_runner row) = on -> keeps P (report_on_row row rep).
Proof. intros E Eh. unfold report_on_row. rewrite E. keep. Qed.
End one.

(** ** A message *)
(** The rows [host] may speak of. *)
Definition of_host (s : ctl) (host id : string) : Prop := exists r, ct_runners s !! id = Some r /\ r_HostID r = host.
(** A row's key is its ID. *)
Definition keyed (s : ctl) : Prop := forall id r, ct_runners s !! id = Some r -> r_ID r = id.

Lemma ReadRunner_inv id s :
  (ReadRunner id s).1 = inl StoreFailed /\ (ReadRunner id s).2 = next_call s \/
  (ReadRunner id s).1 = inl (Refused Lifecycle.ErrNotFound) /\ ct_runners s !! id = None /\ (ReadRunner id s).2 = next_call s \/
  exists r, ct_runners s !! id = Some r /\ (ReadRunner id s).2 = next_call s /\
    (ReadRunner id s).1 = inr {| rw_runner := r; rw_cleanup := default not_cleaned (ct_cleanups s !! id); rw_container := default "" (ct_containers s !! id) |}.
Proof.
  unfold ReadRunner, db. destruct (ow_down _); [by left|right]. cbn. destruct (ct_runners s !! id) as [r|] eqn:E; cbn; [right; by exists r|by left].
Qed.

Lemma found_keeps {A} id s (f : ctl_error + runner_row -> R A) :
  silent P -> keyed s -> (forall e, keeps P (f (inl e))) ->
  (forall row, ct_runners s !! id = Some (rw_runner row) -> r_ID (rw_runner row) = id -> keeps P (f (inr row))) ->
  P s ((found ← attempted (ReadRunner id); f found) s).2.
Proof.
  intros Hs Hk He Hr. unfold mbind, R_bind, attempted. destruct (ReadRunner id s) as [a s'] eqn:Eg.
  destruct (ReadRunner_inv id s) as [[E1 E2]|[(E1 & _ & E2)|(r & Er & E2 & E1)]]; rewrite Eg in E1, E2; cbn in E1, E2; subst a s'; cbn [fst snd];
    (etrans; [apply (al_next _ Hs)|]); [apply He|apply He|apply Hr; [done|by apply Hk]].
Qed.

Lemma settle_result_keeps host kind task p s :
  silent P -> keyed s -> (forall i, of_host s host i -> allows P i) -> P s (settle_result host kind task p s).2.
Proof.
  intros Hs Hk Hal.
  assert (Ht : forall t, keeps P (tell t)) by (by apply tell_keeps). assert (Hr : forall A (a : A), keeps P (mret a : R A)) by (intros; by apply keeps_ret).
  assert (Hrun : P s (for_runner host kind task p s).2).
  { unfold for_runner. apply found_keeps; try done; [by intros e; destruct e as [|[]| | | |]; first [apply keeps_ret|apply keeps_throw]|].
    intros row Hl Hi. unfold str_eqb. case_bool_decide as Hh; cbn; [|by apply keeps_throw].
    apply (apply_to_runner_keeps (rs_RunnerID (po_result p))); [|done]. apply Hal. by exists (rw_runner row). }
  unfold settle_result. destruct kind; try (destruct (is_empty _); [apply Hr|exact Hrun]); [apply Ht|apply Ht|apply Hr].
Qed.

Lemma apply_result_keeps host p s :
  silent P -> keyed s -> (forall i, of_host s host i -> allows P i) -> P s (apply_result host p s).2.
Proof.
  intros Hs Hk Hal.
  assert (Ht : forall t, keeps P (tell t)) by (by apply tell_keeps). assert (He : keeps P elsewhere) by (by apply elsewhere_keeps).
  unfold apply_result. destruct (peek _ _) as [t|] eqn:Et; [|by apply settle_result_keeps].
  destruct (is_kind _ TaskFillToolCache); [apply Ht|].
  destruct (is_kind _ TaskPrewarmImage); [unfold prewarm_outcome; apply keeps_bind; auto|].
  destruct (_ && _); [|by apply settle_result_keeps].
  etrans; [apply (al_told _ Hs)|]. by apply settle_result_keeps.
Qed.

Context (host : string) (Hq : forall s q, P s (with_one_queue s host q)).

Lemma report_result_keeps p s :
  silent P -> keyed s -> (forall i, of_host s host i -> allows P i) -> P s (report_result host p s).2.
Proof.
  intros Hs Hk Hal. unfold report_result. destruct (_ && _); [|by apply apply_result_keeps].
  destruct (redeliver _ _) as [[] q]; [apply Hq|done|by apply apply_result_keeps].
Qed.

Lemma ReportResult_keeps p s :
  silent P -> keyed s -> (forall i, of_host s host i -> allows P i) -> P s (ReportResult host p s).2.
Proof.
  intros Hs Hk Hal. unfold ReportResult. pose proof (report_result_keeps p s Hs Hk Hal) as Hr.
  destruct (report_result host p s) as [[e|a] s']; [done|]. etrans; [exact Hr|apply Hq].
Qed.

Lemma apply_report_keeps rep s :
  silent P -> keyed s -> (forall i, of_host s host i -> allows P i) -> P s (apply_report host rep s).2.
Proof.
  intros Hs Hk Hal. unfold apply_report. destruct (is_empty _); [done|].
  apply found_keeps; try done; [by intros e; destruct e as [|[]| | | |]; first [apply keeps_ret|apply keeps_throw]|].
  intros row Hl Hi. unfold str_eqb. case_bool_decide as Hh; cbn; [|by apply keeps_ret].
  apply (report_on_row_keeps (rp_RunnerID rep) (Hal _ (ex_intro _ _ (conj Hl Hh))) host); done.
Qed.

Lemma drop_task_keeps task s : silent P -> keyed s -> allows P (t_RunnerID task) -> P s (drop_task host task s).2.
Proof.
  intros Hs Hk Ha. assert (Hr : forall A (a : A), keeps P (mret a : R A)) by (intros; by apply keeps_ret).
  unfold drop_task. destruct (t_Kind task); try apply Hr; [| |by apply (tell_keeps Hs)].
  - apply keeps_bind; [assumption| |intros; apply Hr]. apply keeps_attempted. by apply failRunnerID_keeps.
  - apply found_keeps; [done|done|intros; apply Hr|]. intros row Hl Hi. apply keeps_bind; [assumption| |intros; apply Hr].
    apply keeps_attempted. by apply (noteCleanupFailure_keeps _ Ha).
Qed.
End handlers_keep.

(** ** The store's transactions *)
Definition tables (s : ctl) : gmap string Runner * gmap string cleanup := (ct_runners s, ct_cleanups s).
Inductive tx : gmap string Runner * gmap string cleanup -> gmap string Runner * gmap string cleanup -> Prop :=
  | tx_move t c id to message kind ub now r t' : transitionRunner t id to message kind ub now = inr (r, t') -> tx (t, c) (t', c)
  | tx_started t c id started : tx (t, c) (alter (fun r => r_with_started r started) id t, c)
  | tx_cleanup t c id b c' : cleanup_write c id b c' -> tx (t, c) (t, c').
Definition by_store (s s' : ctl) : Prop := rtc tx (tables s) (tables s').

Definition row_ids (s : ctl) (id : string) : option (string * string) := (fun r => (r_ID r, r_HostID r)) <$> ct_runners s !! id.
Definition steady (s s' : ctl) : Prop := forall id, row_ids s' id = row_ids s id.
(** Only the rows in [X] and the queue of [host] are changed. *)
Definition elsewhere_same (X : string -> Prop) (host : string) (s s' : ctl) : Prop :=
  (forall id, ~ X id ->
    ct_runners s' !! id = ct_runners s !! id /\ ct_cleanups s' !! id = ct_cleanups s !! id /\ ct_containers s' !! id = ct_containers s !! id) /\
  forall h, h <> host -> ct_queues s' !! h = ct_queues s !! h.

#[global] Instance by_store_preorder : PreOrder by_store.
Proof. split; [intros s; unfold by_store; reflexivity|intros s t u H1 H2; unfold by_store in *; by etrans]. Qed.
#[global] Instance steady_preorder : PreOrder steady.
Proof. split; [by intros s id|]. intros s t u H1 H2 id. by rewrite H2, H1. Qed.
#[global] Instance elsewhere_same_preorder X host : PreOrder (elsewhere_same X host).
Proof.
  split; [by intros s|]. intros s t u [H1 G1] [H2 G2]. split; [|intros h Hh; by rewrite G2, G1].
  intros id Hx. destruct (H1 id Hx) as (<- & <- & <-). by apply H2.
Qed.

Lemma by_store_allows id : allows by_store id.
Proof.
  split; [split; unfold by_store; reflexivity|..]; unfold by_store.
  - intros s to message kind ub now r t Ht. apply rtc_once. by eapply tx_move.
  - intros s started. apply rtc_once, tx_started.
  - intros. reflexivity.
  - intros s b t Hw. apply rtc_once. by eapply tx_cleanup.
Qed.
Lemma steady_allows id : allows steady id.
Proof.
  split; [by split|..].
  - intros s to message kind ub now r t Ht i. apply transition_inv in Ht as (r0 & Hl & _ & _ & -> & ->). unfold row_ids. cbn.
    destruct (decide (i = id)) as [->|Hne]; [|by rewrite lookup_insert_ne]. rewrite lookup_insert_eq, Hl. by destruct to.
  - intros s started i. unfold row_ids. cbn. destruct (decide (i = id)) as [->|Hne]; [|by rewrite lookup_alter_ne].
    rewrite lookup_alter_eq. by destruct (ct_runners s !! id).
  - done.
  - done.
Qed.
Lemma elsewhere_allows (X : string -> Prop) host id : X id -> allows (elsewhere_same X host) id.
Proof.
  intros Hx. assert (Hne : forall i, ~ X i -> id <> i) by naive_solver. split; [by split|..].
  - intros s to message kind ub now r t Ht. apply transition_inv in Ht as (r0 & Hl & _ & _ & -> & ->). split; [|done]. intros i Hi. cbn. by rewrite lookup_insert_ne by auto.
  - intros s started. split; [|done]. intros i Hi. cbn. by rewrite lookup_alter_ne by auto.
  - intros s h. split; [|done]. intros i Hi. cbn. by rewrite lookup_insert_ne by auto.
  - intros s b t Hw. split; [|done]. intros i Hi. cbn. by rewrite (write_elsewhere _ _ _ _ _ Hw) by (symmetry; auto).
Qed.

(** ** Messages *)
Inductive message :=
  | Answer (host : string) (p : posted_result)
  | Reports (host : string) (reports : list RunnerReport)
  | Sweep (walk : list leasedTask -> list leasedTask) (hosts : list string) (now : Time).

Section messages.
Context `{O : Outside}.

Definition handle (m : message) (s : ctl) : ctl :=
  match m with
  | Answer host p => (ReportResult host p s).2
  | Reports host reports => (ReportRunners host reports s).2
  | Sweep walk hosts now => (sweepTasks walk hosts now s).2
  end.

Lemma steady_keyed s s' : steady s s' -> keyed s -> keyed s'.
Proof.
  intros Hs Hk id r Hl. specialize (Hs id). unfold row_ids in Hs. rewrite Hl in Hs. destruct (ct_runners s !! id) as [r0|] eqn:E; [|done].
  cbn in Hs. injection Hs as E1 E2. rewrite E1. by apply Hk.
Qed.
Lemma steady_of_host s s' host id : steady s s' -> of_host s' host id -> of_host s host id.
Proof.
  intros Hs (r & Hl & Hh). specialize (Hs id). unfold row_ids in Hs. rewrite Hl in Hs. unfold of_host.
  destruct (ct_runners s !! id) as [r0|]; [|done]. cbn in Hs. injection Hs as E1 E2. exists r0. split; [done|congruence].
Qed.
Lemma steady_queue s host q : steady s (with_one_queue s host q).
Proof. done. Qed.

Section lists.
Context (P : ctl -> ctl -> Prop) `{HP : !PreOrder P} (Hs : silent P).

Lemma applyReports_keeps host reports s :
  (forall s q, P s (with_one_queue s host q)) ->
  keyed s -> (forall i, of_host s host i -> allows P i) -> P s (applyReports host reports s).2.
Proof.
  intros Hq. revert s. induction reports as [|rep reports IH]; intros s Hk Hal; [done|]. cbn [applyReports]. unfold mbind, R_bind, attempted.
  pose proof (apply_report_keeps P host Hq rep s Hs Hk Hal) as H1.
  pose proof (apply_report_keeps steady host (fun s q => steady_queue s host q) rep s (al_silent _ _ (steady_allows "")) Hk (fun i _ => steady_allows i)) as H2.
  destruct (apply_report host rep s) as [a s1]. cbn in H1, H2. etrans; [exact H1|].
  specialize (IH s1 (steady_keyed _ _ H2 Hk) (fun i Hi => Hal i (steady_of_host _ _ _ _ H2 Hi))).
  by destruct (applyReports host reports s1) as [[e|errs] s2].
Qed.

Lemma ReportRunners_keeps host reports s :
  (forall s q, P s (with_one_queue s host q)) ->
  keyed s -> (forall i, of_host s host i -> allows P i) -> P s (ReportRunners host reports s).2.
Proof.
  intros Hq Hk Hal. unfold ReportRunners. destruct (is_empty host); [done|]. destruct (_ <? _)%nat; [done|]. by apply applyReports_keeps.
Qed.

Context (Hal : forall i, allows P i) (Hq : forall s host q, P s (with_one_queue s host q)).
Lemma drop_tasks_keeps host tasks s : keyed s -> P s (for_each (drop_task host) tasks s).2.
Proof.
  revert s. induction tasks as [|task tasks IH]; intros s Hk; [done|]. cbn [for_each]. unfold mbind, R_bind.
  pose proof (drop_task_keeps P host task s Hs Hk (Hal _)) as H1.
  pose proof (drop_task_keeps steady host task s (al_silent _ _ (steady_allows "")) Hk (steady_allows _)) as H2.
  destruct (drop_task host task s) as [[e|[]] s1]; [done|]. etrans; [exact H1|]. by eapply IH, steady_keyed.
Qed.
Lemma sweep_host_keeps walk now host s : keyed s -> P s (sweep_host walk now host s).2.
Proof.
  intros Hk. unfold sweep_host. destruct (sweep_queue _ _ _) as [[n dropped] q]. etrans; [apply Hq|]. by apply drop_tasks_keeps.
Qed.
End lists.

Lemma sweepTasks_keeps (P : ctl -> ctl -> Prop) `{HP : !PreOrder P} walk hosts now s :
  (forall i, allows P i) -> (forall s host q, P s (with_one_queue s host q)) -> keyed s -> P s (sweepTasks walk hosts now s).2.
Proof.
  intros Hal Hq. unfold sweepTasks. revert s. induction hosts as [|host hosts IH]; intros s Hk; [done|]. cbn [for_each]. unfold mbind, R_bind.
  pose proof (sweep_host_keeps P (al_silent _ _ (Hal "")) Hal Hq walk now host s Hk) as H1.
  pose proof (sweep_host_keeps steady (al_silent _ _ (steady_allows "")) steady_allows steady_queue walk now host s Hk) as H2.
  destruct (sweep_host walk now host s) as [[e|[]] s1]; [done|]. etrans; [exact H1|]. by eapply IH, steady_keyed.
Qed.

Lemma handle_keeps (P : ctl -> ctl -> Prop) `{HP : !PreOrder P} m s :
  (forall i, allows P i) -> (forall s host q, P s (with_one_queue s host q)) -> keyed s -> P s (handle m s).
Proof.
  intros Hal Hq Hk. pose proof (al_silent _ _ (Hal "")) as Hs. destruct m; cbn.
  - by apply ReportResult_keeps.
  - by apply ReportRunners_keeps.
  - by apply sweepTasks_keeps.
Qed.

(** A transaction keeps the tables well formed, and a row that ended ended. *)
Lemma started_row_wf r started : runner_wf r -> runner_wf (r_with_started r started).
Proof. done. Qed.
Lemma tx_wf t c t' c' : tx (t, c) (t', c') -> table_wf t -> table_wf t'.
Proof.
  intros Hx Hw. inversion Hx as [? ? id to m k ub now r ? Ht|? ? id started|]; subst; [by eapply tstep_wf; [eapply tstep_transition|]| |done].
  intros i r Hl. apply lookup_alter_Some in Hl as [(-> & r0 & Hl & ->)|[_ Hl]]; [by apply started_row_wf, (Hw i)|by apply (Hw i)].
Qed.
Lemma tx_cleanups t c t' c' : tx (t, c) (t', c') -> rows_ok c -> rows_ok c'.
Proof. intros Hx. inversion Hx; subst; [done|done|by eapply write_ok]. Qed.

Definition ended_stays (t t' : gmap string Runner) : Prop :=
  forall id r, t !! id = Some r -> exists r' : Runner, t' !! id = Some r' /\ r_HostID r' = r_HostID r /\
    (Terminal (r_State r) = true -> Terminal (r_State r') = true) /\ (r_State r = RunnerRemoved -> r_State r' = RunnerRemoved).
Lemma tx_ended t c t' c' : tx (t, c) (t', c') -> ended_stays t t'.
Proof.
  intros Hx id r Hl. inversion Hx as [? ? i to m k ub now r0 ? Ht|? ? i started|]; subst.
  - apply transition_inv in Ht as (r1 & Hl1 & Hc & _ & -> & ->). destruct (decide (i = id)) as [->|Hne]; [|exists r; by rewrite lookup_insert_ne].
    rewrite lookup_insert_eq. eexists. split; [done|]. assert (r1 = r) as -> by congruence. rewrite stamp_state. split; [by destruct to|].
    destruct (r_State r) eqn:E, to; try (by vm_compute in Hc); done.
  - destruct (decide (i = id)) as [->|Hne]; [|exists r; by rewrite lookup_alter_ne]. rewrite lookup_alter_eq, Hl. eexists. by split.
  - by exists r.
Qed.
Lemma txs_ended x y : rtc tx x y -> ended_stays x.1 y.1.
Proof.
  induction 1 as [x|[t c] [t1 c1] y Hx _ IH]; [intros id r Hl; by exists r|]. intros id r Hl.
  destruct (tx_ended _ _ _ _ Hx id r Hl) as (r1 & Hl1 & Hh1 & Ht1 & Hr1). destruct (IH id r1 Hl1) as (r2 & Hl2 & Hh2 & Ht2 & Hr2).
  exists r2. split_and!; [done|congruence|auto|auto].
Qed.
Lemma txs_wf x y : rtc tx x y -> (table_wf x.1 -> table_wf y.1) /\ (rows_ok x.2 -> rows_ok y.2).
Proof.
  induction 1 as [x|[t c] [t1 c1] y Hx _ [IH1 IH2]]; [done|]. split; intros Hw; [apply IH1; by eapply tx_wf|apply IH2; by eapply tx_cleanups].
Qed.
End messages.

(** C18: What hosts say, and the sweep of the tasks they did not answer, moves the
    controller's tables by the store's own transactions and by nothing else: a runner's row by
    moves its state machine allows, its cleanup by the writes of Cleanup.v.  So whatever a host
    says, and whichever calls of the store fail, the invariants of both tables stand, no row
    comes or goes or changes host, and a runner that has ended stays so. *)
Theorem messages_are_transactions `{Outside} (m : message) (s : ctl) :
  keyed s ->
  rtc tx (tables s) (tables (handle m s)) /\
  (table_wf (ct_runners s) -> table_wf (ct_runners (handle m s))) /\
  (rows_ok (ct_cleanups s) -> rows_ok (ct_cleanups (handle m s))) /\
  ended_stays (ct_runners s) (ct_runners (handle m s)) /\
  forall id, row_ids (handle m s) id = row_ids s id.
Proof.
  intros Hk. assert (Hb : by_store s (handle m s)) by (apply (handle_keeps by_store); [apply by_store_allows|intros; unfold by_store; reflexivity|done]).
  unfold by_store in Hb. destruct (txs_wf _ _ Hb) as [H1 H2]. split_and!; [done|done|done|exact (txs_ended _ _ Hb)|].
  apply (handle_keeps steady); [apply steady_allows|apply steady_queue|done].
Qed.

(** ** What a host may speak of *)
Section own.
Context `{O : Outside}.

Lemma elsewhere_queue X s host q : elsewhere_same X host s (with_one_queue s host q).
Proof. split; [done|]. intros h Hh. exact (lookup_insert_ne (ct_queues s) host h q (not_eq_sym Hh)). Qed.

Lemma unknown_of_sound host reports s ids :
  (unknown_of host reports s).1 = inr ids -> forall id, id ∈ ids ->
  ct_runners s !! id = None \/ exists r, ct_runners s !! id = Some r /\ r_HostID r = host /\ r_State r = RunnerRemoved.
Proof.
  revert s ids. induction reports as [|rep reports IH]; intros s ids Hu id Hin; [injection Hu as <-; by apply elem_of_nil in Hin|].
  cbn [unknown_of] in Hu. destruct (is_empty _); [by eapply IH|]. unfold mbind, R_bind, attempted in Hu.
  destruct (ReadRunner (rp_RunnerID rep) s) as [a s1] eqn:Eg. destruct (unknown_of host reports s1) as [[e|rest] s2] eqn:Eu; [done|].
  assert (Hs1 : ct_runners s1 = ct_runners s) by (destruct (ReadRunner_inv (rp_RunnerID rep) s) as [[_ E2]|[(_ & _ & E2)|(r & _ & E2 & _)]]; rewrite Eg in E2; cbn in E2; by rewrite E2).
  assert (Hrest : id ∈ rest -> ct_runners s !! id = None \/ exists r, ct_runners s !! id = Some r /\ r_HostID r = host /\ r_State r = RunnerRemoved).
  { intros Hi. rewrite <- Hs1. apply (IH s1 rest); [by rewrite Eu|done]. }
  injection Hu as <-.
  destruct (ReadRunner_inv (rp_RunnerID rep) s) as [[E1 _]|[(E1 & En & _)|(r & Er & _ & E1)]]; rewrite Eg in E1; cbn in E1; subst a; cbn in Hin.
  - by apply Hrest.
  - apply elem_of_cons in Hin as [->|Hin]; [by left|by apply Hrest].
  - unfold str_eqb, is_state in Hin. case_bool_decide; cbn in Hin; [|by apply Hrest]. case_bool_decide; [|by apply Hrest].
    apply elem_of_cons in Hin as [->|Hin]; [right; by exists r|by apply Hrest].
Qed.
End own.

(** C19: A host speaks of its own runners only.  Nothing it answers or reports, whatever
    runner it names and whatever fails, changes a row of a runner on another host, the record
    of its cleanup or of its container, or the queue of another host; and the runners it is
    told it may remove the workloads of are of no row, or are removed and its own. *)
Theorem hosts_speak_of_their_own `{Outside} (host : string) (p : posted_result) (reports : list RunnerReport) (s : ctl) :
  keyed s ->
  elsewhere_same (of_host s host) host s (ReportResult host p s).2 /\
  elsewhere_same (of_host s host) host s (ReportRunners host reports s).2 /\
  forall ids id, (unknownRunners host reports s).1 = inr ids -> id ∈ ids ->
    ct_runners s !! id = None \/ exists r, ct_runners s !! id = Some r /\ r_HostID r = host /\ r_State r = RunnerRemoved.
Proof.
  intros Hk. assert (Hs : silent (elsewhere_same (of_host s host) host)) by done. split_and!.
  - apply (ReportResult_keeps (elsewhere_same (of_host s host) host)); [intros; apply elsewhere_queue|done|done|]. intros i Hi. by apply elsewhere_allows.
  - apply (ReportRunners_keeps (elsewhere_same (of_host s host) host)); [done|intros; apply elsewhere_queue|done|]. intros i Hi. by apply elsewhere_allows.
  - intros ids id. unfold unknownRunners. destruct (negb ow_mayAct); [intros [= <-] Hi; by apply elem_of_nil in Hi|]. unfold mbind, R_bind.
    destruct (unknown_of host reports s) as [[e|us] s1] eqn:Eu; [done|]. intros [= <-] Hi. apply sort_elem_of in Hi.
    apply (unknown_of_sound host reports s us); [by rewrite Eu|done].
Qed.

(** ** The lease *)
Definition queues_same (s s' : ctl) : Prop := ct_queues s' = ct_queues s.
#[global] Instance queues_same_preorder : PreOrder queues_same.
Proof. split; [done|]. unfold queues_same. congruence. Qed.
Lemma queues_same_allows id : allows queues_same id.
Proof. by split. Qed.

Lemma get_queue_insert (m : taskQueues) host q : get_queue (<[host := q]> m) host = q.
Proof. exact (f_equal (default new_queue) (lookup_insert_eq m host q)). Qed.

(** C20: A task's lease is given up when what its host said of it is in the store, and
    not before.  Where the controller answers with an error, every queue is as it was, so the
    task is offered again when its lease runs out; where it answers without one, the task is in
    flight no more, and one given back unstarted with deliveries left is the first that waits. *)
Theorem lease_until_applied `{Outside} (host : string) (p : posted_result) (s s' : ctl) (a : ctl_error + unit) :
  keyed s -> ReportResult host p s = (a, s') ->
  let id := rs_TaskID (po_result p) in
  match a with
  | inl _ => ct_queues s' = ct_queues s
  | inr _ =>
      peek (get_queue (ct_queues s') host) id = None /\
      match tq_inflight (get_queue (ct_queues s) host) !! id with
      | Some lt =>
          if rs_NotStarted (po_result p) && negb (rs_OK (po_result p)) && negb (exhausted lt)
          then exists lt', tq_pending (get_queue (ct_queues s') host) = lt' :: tq_pending (get_queue (ct_queues s) host) /\ lt_task lt' = lt_task lt
          else tq_pending (get_queue (ct_queues s') host) = tq_pending (get_queue (ct_queues s) host)
      | None => True
      end
  end.
Proof.
  intros Hk. pose proof (apply_result_keeps queues_same host p s (al_silent _ _ (queues_same_allows "")) Hk (fun i _ => queues_same_allows i)) as Hq.
  unfold queues_same in Hq. unfold ReportResult, report_result.
  set (id := rs_TaskID (po_result p)). set (q := get_queue (ct_queues s) host) in *.
  assert (Hp : forall q0, peek (complete q0 id).2 id = None /\ tq_pending (complete q0 id).2 = tq_pending q0).
  { intros q0. unfold complete, peek. destruct (tq_inflight q0 !! id) as [lt|] eqn:E; cbn; [by rewrite lookup_delete_eq|by rewrite E]. }
  assert (Happ : (let '(x, s1) := apply_result host p s in match x with inr _ => (inr tt : ctl_error + unit, with_one_queue s1 host (complete (get_queue (ct_queues s1) host) id).2) | inl e => (inl e, s1) end) = (a, s') ->
    match a with inl _ => ct_queues s' = ct_queues s | inr _ => peek (get_queue (ct_queues s') host) id = None /\ tq_pending (get_queue (ct_queues s') host) = tq_pending q end).
  { destruct (apply_result host p s) as [[e|[]] s1]; intros [= <- <-]; cbn in *; [done|]. rewrite get_queue_insert, Hq. apply Hp. }
  destruct (rs_NotStarted _ && negb (rs_OK _)); cbn [andb].
  - unfold redeliver, redeliver_locked. fold q id. destruct (tq_inflight q !! id) as [lt|] eqn:El.
    + destruct (_ <=? _) eqn:Ex; unfold exhausted; rewrite Ex; cbn [negb].
      * intros E. apply Happ. rewrite <- E. by destruct (apply_result host p s) as [[]].
      * intros [= <- <-]. cbn [ct_queues with_one_queue with_queues]. rewrite get_queue_insert. split; [apply Hp|].
        rewrite (proj2 (Hp _)), get_queue_insert. by eexists.
    + intros [= <- <-]. cbn [ct_queues with_one_queue with_queues]. rewrite get_queue_insert. split; [apply Hp|done].
  - intros E. destruct a; [apply Happ; rewrite <- E; by destruct (apply_result host p s) as [[]]|].
    destruct Happ as [H1 H2]; [rewrite <- E; by destruct (apply_result host p s) as [[]]|]. split; [done|]. by destruct (tq_inflight q !! id).
Qed.

(** ** A stop nobody confirmed *)
Section dropped.
Context `{O : Outside}.

(** A call of the store made between the two failed. *)
Definition store_failed (s s' : ctl) : Prop := exists n, (ct_asked s <= n < ct_asked s')%nat /\ ow_down n = true.

Lemma drop_task_total host task s : (drop_task host task s).1 = inr tt.
Proof.
  unfold drop_task, mbind, R_bind, attempted, mret, R_ret. destruct (t_Kind task); try done.
  - by destruct (failRunnerID _ _ _ s).
  - destruct (ReadRunner _ s) as [[e|r] s1]; [done|]. by destruct (noteCleanupFailure _ _ _ s1).
Qed.

Lemma drops_app host l l' s :
  (for_each (drop_task host) (l ++ l') s).2 = (for_each (drop_task host) l' (for_each (drop_task host) l s).2).2.
Proof.
  revert s. induction l as [|t l IH]; intros s; [done|]. cbn [app for_each]. unfold mbind, R_bind.
  pose proof (drop_task_total host t s) as Ht. destruct (drop_task host t s) as [a s1]. cbn in Ht. subst a. apply IH.
Qed.

Lemma drops_keyed host l s : keyed s -> keyed (for_each (drop_task host) l s).2.
Proof.
  revert s. induction l as [|t l IH]; intros s Hk; [done|]. cbn [for_each]. unfold mbind, R_bind.
  pose proof (drop_task_keeps steady host t s (al_silent _ _ (steady_allows "")) Hk (steady_allows _)) as Hst.
  destruct (drop_task host t s) as [[e|[]] s1]; cbn in Hst; [by eapply steady_keyed|]. by eapply IH, steady_keyed.
Qed.

Definition ended_or_gone (t : gmap string Runner) (id : string) : Prop :=
  match t !! id with Some r => Terminal (r_State r) = true | None => True end.

Lemma failRunnerID_ends id reason fault s :
  ended_or_gone (ct_runners (failRunnerID id reason fault s).2) id \/ store_failed s (failRunnerID id reason fault s).2.
Proof.
  unfold failRunnerID, mbind, R_bind, ReadRunner, moving, db.
  destruct (ow_down (ct_asked s)) eqn:E1; [right; exists (ct_asked s); cbn; split; [lia|done]|]. cbn [next_call ct_runners ct_asked].
  destruct (ct_runners s !! id) as [r|] eqn:E; [|left; unfold ended_or_gone; cbn; by rewrite E]. cbn [ct_asked].
  destruct (ow_down (S (ct_asked s))) eqn:E2; [right; exists (S (ct_asked s)); cbn; rewrite E2; cbn; split; [lia|done]|]. left.
  cbn. rewrite E2. unfold FailRunner, transitionRunner. rewrite E.
  destruct (CanTransition (r_State r) RunnerFailed) eqn:Ec; cbn; unfold ended_or_gone; cbn.
  - by rewrite lookup_insert_eq.
  - rewrite E. by destruct (r_State r).
Qed.

Lemma ended_or_gone_stays host task s id : keyed s ->
  ended_or_gone (ct_runners s) id -> ended_or_gone (ct_runners (drop_task host task s).2) id.
Proof.
  intros Hk He.
  pose proof (drop_task_keeps by_store host task s (al_silent _ _ (by_store_allows "")) Hk (by_store_allows _)) as Hb.
  pose proof (drop_task_keeps steady host task s (al_silent _ _ (steady_allows "")) Hk (steady_allows _) id) as Hst.
  unfold ended_or_gone, row_ids in *. destruct (ct_runners s !! id) as [r|] eqn:E.
  - destruct (txs_ended _ _ Hb id r E) as (r' & Hl & _ & Ht & _). cbn in Hl. rewrite Hl. auto.
  - by destruct (ct_runners (drop_task host task s).2 !! id).
Qed.
Lemma ended_or_gone_drops host l id : forall s, keyed s ->
  ended_or_gone (ct_runners s) id -> ended_or_gone (ct_runners (for_each (drop_task host) l s).2) id.
Proof.
  induction l as [|t l IH]; intros s Hk He; [done|]. change (t :: l) with ([t] ++ l). rewrite drops_app.
  apply IH; [by apply drops_keyed|]. cbn [for_each]. unfold mbind, R_bind.
  pose proof (ended_or_gone_stays host t s _ Hk He) as H1. by destruct (drop_task host t s) as [[e|[]] s1].
Qed.

Lemma drop_stop_ends host task s : t_Kind task = TaskStopRunner ->
  ended_or_gone (ct_runners (drop_task host task s).2) (t_RunnerID task) \/ store_failed s (drop_task host task s).2.
Proof.
  intros Hkind. unfold drop_task. rewrite Hkind. unfold mbind, R_bind, attempted.
  match goal with |- context [failRunnerID ?i ?reason ?k s] => pose proof (failRunnerID_ends i reason k s) as Hf; by destruct (failRunnerID i reason k s) end.
Qed.

(** The sweep comes to a task it drops: [s1] is what it has then. *)
Definition comes_to (walk : list leasedTask -> list leasedTask) (now : Time) (host : string) (s : ctl) (task : Task) (s1 : ctl) : Prop :=
  exists before after,
    (sweep_queue walk (get_queue (ct_queues s) host) now).1.2 = before ++ task :: after /\
    s1 = (for_each (drop_task host) before (with_one_queue s host (sweep_queue walk (get_queue (ct_queues s) host) now).2)).2.
End dropped.

(** C25: A stop that a host never confirmed does not leave its runner draining for ever, as
    long as the store answers.  When a sweep finds a stop out of deliveries, whatever else it
    drops and whichever other calls of the store fail, the sweep comes to that stop, and
    either a call made for it failed -- which is logged, and the task is gone all the same --
    or its runner has ended when the sweep is done, failed by it or ended before, or has no
    row; so its slot is free. *)
Theorem unconfirmed_stop_frees_its_runner `{Outside} (walk : list leasedTask -> list leasedTask) (now : Time) (host : string) (s : ctl) (lt : leasedTask) :
  (forall l, walk l ≡ₚ l) -> keyed s ->
  lt ∈ (map_to_list (tq_inflight (get_queue (ct_queues s) host))).*2 ->
  t_Kind (lt_task lt) = TaskStopRunner -> lease_out now lt = true -> exhausted lt = true ->
  exists s1, comes_to walk now host s (lt_task lt) s1 /\
    (store_failed s1 (drop_task host (lt_task lt) s1).2 \/
     match ct_runners (sweep_host walk now host s).2 !! t_RunnerID (lt_task lt) with
     | Some r => Terminal (r_State r) = true
     | None => True
     end).
Proof.
  intros Hw Hk Hin Hkind Ho Hx. set (q := get_queue (ct_queues s) host) in *.
  assert (Hd : lt_task lt ∈ (sweep_queue walk q now).1.2).
  { unfold sweep_queue, sweep_locked. cbn [fst snd]. apply elem_of_app. left. apply list_elem_of_fmap_2.
    rewrite elem_of_bfilter, elem_of_bfilter. by rewrite Hw. }
  apply list_elem_of_split in Hd as (before & after & Hd). eexists. split; [by exists before, after|]. fold q.
  set (s1 := (for_each (drop_task host) before _).2).
  destruct (drop_stop_ends host (lt_task lt) s1 Hkind) as [He|Hf]; [right|by left].
  assert (Hk1 : keyed s1) by (apply drops_keyed; exact Hk).
  assert (E : (sweep_host walk now host s).2 = (for_each (drop_task host) after (drop_task host (lt_task lt) s1).2).2).
  { assert (Esweep : sweep_host walk now host s =
      for_each (drop_task host) (sweep_queue walk q now).1.2 (with_one_queue s host (sweep_queue walk q now).2)).
    { unfold sweep_host. fold q. by destruct (sweep_queue walk q now) as [[n dropped] q']. }
    rewrite Esweep, Hd, drops_app. fold s1. cbn [for_each]. unfold mbind, R_bind. pose proof (drop_task_total host (lt_task lt) s1) as Ht.
    destruct (drop_task host (lt_task lt) s1) as [a s2]. cbn in Ht. by subst a. }
  rewrite E. apply ended_or_gone_drops; [|exact He].
  pose proof (drop_task_keeps steady host (lt_task lt) s1 (al_silent _ _ (steady_allows "")) Hk1 (steady_allows _)) as Hst.
  by eapply steady_keyed.
Qed.

(** ** An answer sent again *)
Section again.
Context `{O : Outside}.
Implicit Types (s : ctl) (p : posted_result) (r : runner_row).

(** The runners and their containers stay what they are. *)
Definition frozen (t : gmap string Runner) (m : gmap string Handle) (s s' : ctl) : Prop :=
  ct_runners s = t /\ ct_containers s = m -> ct_runners s' = t /\ ct_containers s' = m.
#[local] Instance frozen_preorder t m : PreOrder (frozen t m).
Proof. split; unfold frozen; [by intros s|intros s s1 s2; tauto]. Qed.
Lemma frozen_silent t m : silent (frozen t m).
Proof. split; by unfold frozen. Qed.
Lemma cleaning_frozen t m {A} (f : gmap string cleanup -> Time -> A * gmap string cleanup) : keeps (frozen t m) (cleaning f).
Proof. apply keeps_db; [apply _|apply (al_next _ (frozen_silent t m))|]. intros s now. unfold frozen. by destruct (f _ now). Qed.
#[local] Hint Resolve frozen_silent cleaning_frozen tell_keeps elsewhere_keeps ReadRunner_keeps : keeps.
#[local] Hint Extern 1 (keeps _ (tell _)) => apply tell_keeps; apply frozen_silent : keeps.
#[local] Hint Extern 1 (keeps _ elsewhere) => apply elsewhere_keeps; [apply _|apply frozen_silent] : keeps.
#[local] Hint Extern 1 (keeps _ (ReadRunner _)) => apply ReadRunner_keeps; [apply _|apply frozen_silent] : keeps.

Lemma noteCleanupFailure_frozen t m r kind reason : keeps (frozen t m) (noteCleanupFailure r kind reason).
Proof. unfold noteCleanupFailure. assert (HP : PreOrder (frozen t m)) by apply _. keep. Qed.
Lemma noteCleanupSucceeded_frozen t m r removed : keeps (frozen t m) (noteCleanupSucceeded r removed).
Proof. unfold noteCleanupSucceeded, confirmCleanup, QueueEnrichment. assert (HP : PreOrder (frozen t m)) by apply _. keep. Qed.

(** The row says what the answer says already. *)
Definition in_step (r : runner_row) (kind : TaskKind) (p : posted_result) : Prop :=
  let res := po_result p in
  (nonempty (rs_Handle res) = true -> rw_container r = rs_Handle res) /\
  (is_kind kind TaskCreateRunner && rs_OK res = true -> forall started, po_started p = Some started -> r_ContainerStartedAt (rw_runner r) = Some started) /\
  (rs_OK res = true -> forall to, rs_State res = Some to -> to = r_State (rw_runner r) \/ CanTransition (r_State (rw_runner r)) to = false) /\
  (rs_OK res = false -> lifecycleTask kind = true -> rs_CleanupPending res && is_kind kind TaskRemoveRunner = false -> Terminal (r_State (rw_runner r)) = true).

Lemma r_with_started_same (x : Runner) started : r_ContainerStartedAt x = Some started -> r_with_started x started = x.
Proof. destruct x. cbn. by intros ->. Qed.

Lemma apply_to_runner_frozen host r kind task p s :
  in_step r kind p -> ct_runners s !! r_ID (rw_runner r) = Some (rw_runner r) ->
  frozen (ct_runners s) (ct_containers s) s (apply_to_runner host r kind task p s).2.
Proof.
  intros (H1 & H2 & H3 & H4) Hl. set (t := ct_runners s) in *. set (m := ct_containers s). assert (HP : PreOrder (frozen t m)) by apply _.
  enough (keeps (frozen t m) (apply_to_runner host r kind task p)) by done. unfold apply_to_runner.
  assert (Hst : forall started, po_started p = Some started -> is_kind kind TaskCreateRunner && rs_OK (po_result p) = true ->
    keeps (frozen t m) (SetRunnerStartup (r_ID (rw_runner r)) started)).
  { intros started Hp Hk. apply keeps_db; [done|apply (al_next _ (frozen_silent t m))|]. intros x now [Ex Em]. cbn. split; [|done]. rewrite Ex. apply map_eq. intros i.
    destruct (decide (i = r_ID (rw_runner r))) as [->|Hne]; [|by rewrite lookup_alter_ne]. rewrite lookup_alter_eq, Hl. cbn. by rewrite r_with_started_same by auto. }
  apply keeps_bind; [done|keep|intros _]. apply keeps_bind; [done| |intros _].
  { destruct (nonempty _) eqn:En; cbn; [|keep]. rewrite (H1 eq_refl). unfold str_eqb. rewrite bool_decide_eq_true_2 by done. keep. }
  apply keeps_bind; [done| |intros _].
  { destruct (po_started p) as [started|] eqn:Ep; [|keep]. destruct (is_kind kind TaskCreateRunner && rs_OK (po_result p)) eqn:Ek; [|keep].
    apply keeps_bind; [done|unfold SetRunnerServiceTime; keep|intros _]. by apply Hst. }
  apply keeps_bind; [done|keep|intros _]. apply keeps_bind; [done|keep|intros _].
  destruct (negb (rs_OK (po_result p)) && _ && _) eqn:Ec; [keep|]. destruct (rs_OK (po_result p)) eqn:Eok.
  - apply keeps_bind; [done| |intros _; destruct (cleansUp kind); [apply noteCleanupSucceeded_frozen|keep]].
    unfold applyRunnerState. destruct (rs_State (po_result p)) as [to|] eqn:Es; [|keep].
    unfold is_state. case_bool_decide as Eto; [keep|]. destruct (H3 eq_refl to eq_refl) as [?|Hc]; [done|]. rewrite Hc. keep.
  - destruct (lifecycleTask kind) eqn:El; [|keep]. cbn in Ec |- *. rewrite H4 by done. apply noteCleanupFailure_frozen.
Qed.

Lemma bind_done {A B} (m : R A) (f : A -> R B) s b s' :
  (m ≫= f) s = (inr b, s') -> exists a s0, m s = (inr a, s0) /\ f a s0 = (inr b, s').
Proof. unfold mbind, R_bind. destruct (m s) as [[e|a] s0]; [done|]. intros E. by exists a, s0. Qed.
Lemma db_done {A} (f : ctl -> Time -> (ctl_error + A) * ctl) s a s' :
  db f s = (inr a, s') -> f (next_call s) (ow_clock (ct_asked s)) = (inr a, s').
Proof. unfold db. by destruct (ow_down _). Qed.
Lemma frozen_done {A} (m : R A) s a s' :
  keeps (frozen (ct_runners s) (ct_containers s)) m -> m s = (inr a, s') -> ct_runners s' = ct_runners s /\ ct_containers s' = ct_containers s.
Proof. intros Hm E. specialize (Hm s). rewrite E in Hm. by apply Hm. Qed.

(** The runner's container, as the answer names it. *)
Lemma container_done h c id s s' (x0 : Runner) :
  ct_runners s !! id = Some x0 -> c = default "" (ct_containers s !! id) ->
  (if nonempty h && negb (str_eqb h c) then SetRunnerContainer id h else mret tt) s = (inr tt, s') ->
  ct_runners s' = ct_runners s /\ (nonempty h = true -> default "" (ct_containers s' !! id) = h).
Proof.
  intros Hl -> E. destruct (nonempty h); cbn in E; [|by injection E as <-]. unfold str_eqb in E. case_bool_decide as Eh; cbn in E.
  - injection E as <-. by split.
  - apply db_done in E. cbn in E. rewrite Hl in E. injection E as <-. cbn. split; [done|]. by rewrite lookup_insert_eq.
Qed.

(** The runner's start: its row says it, and is otherwise what it was. *)
Lemma startup_answered (b : bool) started d id s s' x :
  ct_runners s !! id = Some x ->
  match started with Some t => if b then _ ← SetRunnerServiceTime d; SetRunnerStartup id t else mret tt | None => mret tt end s = (inr tt, s') ->
  ct_containers s' = ct_containers s /\
  exists x', ct_runners s' !! id = Some x' /\ r_State x' = r_State x /\ (b = true -> forall t, started = Some t -> r_ContainerStartedAt x' = Some t).
Proof.
  intros Hl E. destruct started as [t|]; [|injection E as <-; split; [done|]; by exists x].
  destruct b; [|injection E as <-; split; [done|]; by exists x].
  apply bind_done in E as ([] & s0 & E0 & E). apply db_done in E. injection E as <-.
  assert (Hs0 : ct_runners s0 = ct_runners s /\ ct_containers s0 = ct_containers s).
  { unfold SetRunnerServiceTime in E0. destruct (_ || _); [by injection E0 as <-|]. apply db_done in E0. by injection E0 as <-. }
  destruct Hs0 as [E1 E2]. cbn. split; [done|]. rewrite lookup_alter_eq, E1, Hl. eexists. split; [done|]. split; [done|]. by intros _ ? [= ->].
Qed.

Lemma stamp_started (x : Runner) to message kind now : r_ContainerStartedAt (stamp x to message kind now) = r_ContainerStartedAt x.
Proof. by destruct to. Qed.

(** The runner's state: the one claimed, or one it cannot be reached from. *)
Lemma state_done x0 x state message fault s s' :
  ct_runners s !! r_ID x0 = Some x -> r_State x = r_State x0 -> applyRunnerState x0 state message fault s = (inr tt, s') ->
  ct_containers s' = ct_containers s /\
  exists x', ct_runners s' !! r_ID x0 = Some x' /\ r_ContainerStartedAt x' = r_ContainerStartedAt x /\
    forall to, state = Some to -> r_State x' = to \/ CanTransition (r_State x') to = false.
Proof.
  intros Hl Hs E. destruct state as [to|]; [|injection E as <-; split; [done|]; by exists x]. unfold applyRunnerState, is_state in E.
  case_bool_decide as Eto; [injection E as <-; split; [done|]; exists x; split_and!; [done|done|]; intros ? [= ->]; left; congruence|].
  destruct (CanTransition (r_State x0) to) eqn:Ec; cbn [negb] in E;
    [|injection E as <-; split; [done|]; exists x; split_and!; [done|done|]; intros ? [= ->]; right; congruence].
  apply bind_done in E as (u & s0 & E0 & E).
  assert (Hm : exists k, ct_runners s0 = <[r_ID x0 := stamp x to message k (ow_clock (ct_asked s))]> (ct_runners s) /\ ct_containers s0 = ct_containers s).
  { apply db_done in E0. cbn [next_call ct_runners] in E0.
    case_bool_decide as Ef; [subst to|]; unfold FailRunner, TransitionRunner, transitionRunner in E0; rewrite Hl, Hs, Ec in E0; cbn in E0;
      injection E0 as <- <-; by eexists. }
  destruct Hm as (k & E1 & E2).
  assert (Hf : keeps (frozen (ct_runners s0) (ct_containers s0)) (_ ← observeRunnerReady u;
      _ ← (if bool_decide (to = RunnerFailed) then _ ← tell (ToldLost x0 message (r_FaultKind u)); tell (ToldStartFailure x0 u) else mret tt);
      if Terminal to then tell ToldNudge else mret tt)).
  { set (t := ct_runners s0). set (m := ct_containers s0). assert (HP : PreOrder (frozen t m)) by apply _. unfold observeRunnerReady. keep. }
  destruct (frozen_done _ _ _ _ Hf E) as [E3 E4]. split; [congruence|]. rewrite E3, E1, lookup_insert_eq. eexists. split; [done|].
  rewrite stamp_started, stamp_state. split; [done|]. intros ? [= ->]. by left.
Qed.

Lemma apply_to_runner_in_step host r kind task p s s' :
  ct_runners s !! r_ID (rw_runner r) = Some (rw_runner r) -> rw_container r = default "" (ct_containers s !! r_ID (rw_runner r)) ->
  apply_to_runner host r kind task p s = (inr tt, s') ->
  exists x, ct_runners s' !! r_ID (rw_runner r) = Some x /\
    forall c, in_step {| rw_runner := x; rw_cleanup := c; rw_container := default "" (ct_containers s' !! r_ID (rw_runner r)) |} kind p.
Proof.
  set (id := r_ID (rw_runner r)). intros Hl Hc E. unfold apply_to_runner in E. fold id in E.
  apply bind_done in E as ([] & s1 & E1 & E). assert (E1' : ct_runners s1 = ct_runners s /\ ct_containers s1 = ct_containers s) by (destruct (_ && _) in E1; by injection E1 as <-).
  destruct E1' as [R1 C1]. clear E1.
  apply bind_done in E as ([] & s2 & E2 & E). destruct (container_done _ _ _ _ _ (rw_runner r) ltac:(by rewrite R1) ltac:(by rewrite C1) E2) as [R2 C2]. clear E2.
  apply bind_done in E as ([] & s3 & E3 & E).
  destruct (startup_answered _ _ _ id s2 s3 (rw_runner r) ltac:(by rewrite R2, R1) E3) as (C3 & x & R3 & S3 & T3). clear E3.
  apply bind_done in E as ([] & s4 & E4 & E).
  assert (E4' : ct_runners s4 = ct_runners s3 /\ ct_containers s4 = ct_containers s3) by (destruct (nonempty _) in E4; [apply db_done in E4|]; by injection E4 as <-).
  destruct E4' as [R4 C4]. clear E4.
  apply bind_done in E as ([] & s5 & E5 & E).
  assert (E5' : ct_runners s5 = ct_runners s4 /\ ct_containers s5 = ct_containers s4) by (destruct (is_kind _ _) in E5; by injection E5 as <-).
  destruct E5' as [R5 C5]. clear E5.
  assert (Hx : ct_runners s5 !! id = Some x) by (by rewrite R5, R4).
  assert (Hh : nonempty (rs_Handle (po_result p)) = true -> default "" (ct_containers s5 !! id) = rs_Handle (po_result p)) by (rewrite C5, C4, C3; exact C2).
  (** What is left to say of the row: its start is kept, and its state answers. *)
  assert (Hfin : forall x', ct_runners s' !! id = Some x' -> ct_containers s' = ct_containers s5 -> r_ContainerStartedAt x' = r_ContainerStartedAt x ->
    (rs_OK (po_result p) = true -> forall to, rs_State (po_result p) = Some to -> to = r_State x' \/ CanTransition (r_State x') to = false) ->
    (rs_OK (po_result p) = false -> lifecycleTask kind = true -> rs_CleanupPending (po_result p) && is_kind kind TaskRemoveRunner = false -> Terminal (r_State x') = true) ->
    exists x0, ct_runners s' !! id = Some x0 /\ forall c, in_step {| rw_runner := x0; rw_cleanup := c; rw_container := default "" (ct_containers s' !! id) |} kind p).
  { intros x' Hx' Hc' Ht' Hok Hno. exists x'. split; [done|]. intros c. unfold in_step. cbn. rewrite Hc', Ht'. split_and!; auto. }
  destruct (negb (rs_OK (po_result p)) && rs_CleanupPending (po_result p) && is_kind kind TaskRemoveRunner) eqn:Ep.
  { injection E as <-. apply (Hfin x); try done; intros Hk; rewrite Hk in Ep; cbn in Ep; congruence. }
  destruct (rs_OK (po_result p)) eqn:Eok.
  - apply bind_done in E as ([] & s6 & E6 & E). destruct (state_done _ x _ _ _ _ _ Hx S3 E6) as (C6 & x' & R6 & T6 & S6).
    assert (E7 : ct_runners s' = ct_runners s6 /\ ct_containers s' = ct_containers s6).
    { destruct (cleansUp kind); [|by injection E as <-]. exact (frozen_done _ _ _ _ (noteCleanupSucceeded_frozen _ _ _ _) E). }
    destruct E7 as [R7 C7]. apply (Hfin x'); [by rewrite R7|by rewrite C7, C6|done| |done].
    intros _ to Hto. destruct (S6 to Hto); [left; congruence|by right].
  - destruct (lifecycleTask kind) eqn:El; cbn [negb] in E; [|by injection E as <-; apply (Hfin x)].
    destruct (Terminal (r_State (rw_runner r))) eqn:Et.
    + destruct (frozen_done _ _ _ _ (noteCleanupFailure_frozen _ _ _ _ _) E) as [R7 C7].
      apply (Hfin x); [by rewrite R7|done|done|done|intros; congruence].
    + destruct (state_done _ x _ _ _ _ _ Hx S3 E) as (C6 & x' & R6 & T6 & S6). apply (Hfin x'); try done.
      intros _ _ _. destruct (S6 RunnerFailed eq_refl) as [->|Hno]; [done|]. by destruct (r_State x').
Qed.

Lemma ReadRunner_frozen t m id s : frozen t m s (ReadRunner id s).2.
Proof. unfold frozen, ReadRunner, db. destruct (ow_down _); [done|]. cbn. by destruct (ct_runners s !! id). Qed.

Lemma for_runner_again host kind task task' p s s1 s2 :
  keyed s -> for_runner host kind task p s = (inr tt, s1) ->
  ct_runners s2 = ct_runners s1 -> ct_containers s2 = ct_containers s1 ->
  frozen (ct_runners s2) (ct_containers s2) s2 (for_runner host kind task' p s2).2.
Proof.
  intros Hk E Er Ec. set (id := rs_RunnerID (po_result p)) in *.
  assert (Hin : (exists x, ct_runners s2 !! id = Some x /\ r_ID x = id /\
      forall c, in_step {| rw_runner := x; rw_cleanup := c; rw_container := default "" (ct_containers s2 !! id) |} kind p) \/ ct_runners s2 !! id = None).
  { unfold for_runner, mbind, R_bind, attempted in E. destruct (ReadRunner id s) as [a s0] eqn:Eg. fold id in E. rewrite Eg in E.
    destruct (ReadRunner_inv id s) as [[E1 E2]|[(E1 & En & E2)|(r & El & E2 & E1)]]; rewrite Eg in E1, E2; cbn in E1, E2; subst a s0; cbn in E.
    - done.
    - injection E as <-. right. by rewrite Er.
    - left. unfold str_eqb in E. case_bool_decide as Eh; cbn in E; [|done]. pose proof (Hk _ _ El) as Hid. rewrite <- Hid in El.
      match type of E with apply_to_runner _ ?row _ _ _ ?s0 = _ =>
        pose proof (apply_to_runner_keeps steady r.(r_ID) (steady_allows _) host row kind task p eq_refl s0) as Hst;
        destruct (apply_to_runner_in_step host row kind task p s0 s1 El ltac:(cbn; by rewrite Hid) E) as (x & Hx & Hi) end.
      rewrite E in Hst. cbn [rw_runner snd] in *. rewrite Er, Ec, <- Hid. exists x. split_and!; [done| |done].
      specialize (Hst (r_ID r)). unfold row_ids in Hst. cbn [next_call ct_runners] in Hst. rewrite Hx, El in Hst. by injection Hst. }
  unfold for_runner, mbind, R_bind, attempted. fold id. pose proof (ReadRunner_frozen (ct_runners s2) (ct_containers s2) id s2) as Hg.
  destruct (ReadRunner id s2) as [a s3] eqn:Eg. cbn in Hg. cbn [fst snd].
  destruct (ReadRunner_inv id s2) as [[E1 E2]|[(E1 & _ & E2)|(r & El & E2 & E1)]]; rewrite Eg in E1, E2; cbn in E1, E2; subst a s3; cbn; [done|done|].
  destruct (negb _); [done|]. destruct Hin as [(x & Hx & Hid & Hi)|Hn]; [|congruence]. assert (r = x) as -> by congruence.
  etrans; [exact Hg|]. match goal with |- frozen _ _ ?s3 (apply_to_runner _ ?row _ _ _ _).2 => apply (apply_to_runner_frozen host row kind task' p s3 (Hi _)) end.
  cbn. by rewrite Hid.
Qed.

Lemma settle_again host kind task task' p s s1 s2 :
  keyed s -> settle_result host kind task p s = (inr tt, s1) ->
  ct_runners s2 = ct_runners s1 -> ct_containers s2 = ct_containers s1 ->
  frozen (ct_runners s2) (ct_containers s2) s2 (settle_result host kind task' p s2).2.
Proof.
  intros Hk E Er Ec. unfold settle_result in *.
  destruct kind; try (destruct (is_empty _); [done|by eapply for_runner_again]); done.
Qed.
End again.

(** C21: An answer may be sent twice.  An answer that was applied and is sent again, its
    acknowledgement having been lost, leaves every runner's row and container as the first
    time did, whatever fails: a host that retries cannot move a runner twice, nor fail one that
    has gone on.  (It says what kind of task it answers, as agents do, and one that answers a
    pool's task names no runner.) *)
Theorem answered_twice_as_once `{Outside} (host : string) (p : posted_result) (s s1 : ctl) :
  keyed s -> rs_Kind (po_result p) <> TaskOther "" ->
  (forall t, peek (get_queue (ct_queues s) host) (rs_TaskID (po_result p)) = Some t ->
     t_Kind t ∈ [TaskFillToolCache; TaskPrewarmImage] -> rs_RunnerID (po_result p) = "") ->
  ReportResult host p s = (inr tt, s1) ->
  ct_runners (ReportResult host p s1).2 = ct_runners s1 /\ ct_containers (ReportResult host p s1).2 = ct_containers s1.
Proof.
  intros Hk Hkind Hpool E. destruct (lease_until_applied host p s s1 _ Hk E) as [Hgone _].
  assert (Hend : forall a s2, ct_runners s2 = ct_runners s1 /\ ct_containers s2 = ct_containers s1 -> report_result host p s1 = (a, s2) ->
    ct_runners (ReportResult host p s1).2 = ct_runners s1 /\ ct_containers (ReportResult host p s1).2 = ct_containers s1).
  { intros a s2 Hs2 Er. unfold ReportResult. rewrite Er. by destruct a. }
  unfold ReportResult in E. destruct (report_result host p s) as [[e|[]] s'] eqn:Er; [done|]. injection E as E.
  assert (E1 : ct_runners s1 = ct_runners s' /\ ct_containers s1 = ct_containers s') by (by subst s1). destruct E1 as [E1 E2]. clear E.
  unfold report_result in Er. destruct (rs_NotStarted _ && negb (rs_OK _)) eqn:En.
  - apply (Hend (inr tt) s1); [done|]. unfold report_result. rewrite En. unfold redeliver, redeliver_locked.
    unfold peek in Hgone. by destruct (tq_inflight _ !! _).
  - destruct (apply_result host p s1) as [a s2] eqn:Ea. apply (Hend a s2); [|unfold report_result; by rewrite En].
    enough (Hf : frozen (ct_runners s1) (ct_containers s1) s1 (apply_result host p s1).2) by (rewrite Ea in Hf; by apply Hf).
    assert (Hkd : is_kind (rs_Kind (po_result p)) (TaskOther "") = false) by (unfold is_kind; by rewrite bool_decide_eq_false_2).
    unfold apply_result in *. rewrite Hgone, Hkd. rewrite Hkd in Er.
    destruct (peek _ _) as [t|] eqn:Et in Er; [|by apply (settle_again host _ None None p s s' s1)].
    assert (Hnone : rs_RunnerID (po_result p) = "" -> frozen (ct_runners s1) (ct_containers s1) s1 (settle_result host (rs_Kind (po_result p)) None p s1).2).
    { intros Hn. unfold settle_result. rewrite Hn. by destruct (rs_Kind _). }
    unfold is_kind in Er. case_bool_decide as E3; [apply Hnone, (Hpool t Et); set_solver|].
    case_bool_decide as E4; [apply Hnone, (Hpool t Et); set_solver|].
    assert (Hset : exists s0, ct_runners s0 = ct_runners s /\ settle_result host (rs_Kind (po_result p)) (Some t) p s0 = (inr tt, s')).
    { destruct (_ && _) in Er; [exists (with_told s (ct_told s ++ [ToldLogsFailed (t_StreamID t) (rs_Error (po_result p))]))|exists s]; by split. }
    destruct Hset as (s0 & Er0 & Hset). apply (settle_again host _ (Some t) None p s0 s' s1); try done. intros i x Hx. rewrite Er0 in Hx. by apply Hk.
Qed.

(** ** A task given back while its host polls *)
(** What is done to the queue when a task is given back: three steps, of which the last is for
    every answer that was applied. *)
Lemma given_back_steps `{Outside} host p s lt :
  rs_NotStarted (po_result p) = true -> rs_OK (po_result p) = false ->
  tq_inflight (get_queue (ct_queues s) host) !! rs_TaskID (po_result p) = Some lt -> exhausted lt = false ->
  get_queue (ct_queues (ReportResult host p s).2) host =
  (complete (signal (redeliver_locked (get_queue (ct_queues s) host) (rs_TaskID (po_result p))).2) (rs_TaskID (po_result p))).2.
Proof.
  intros Hn Ho Hl Hx. unfold ReportResult, report_result. rewrite Hn, Ho. cbn [negb andb]. unfold redeliver, redeliver_locked.
  rewrite Hl. unfold exhausted in Hx. rewrite Hx. cbn [snd with_one_queue with_queues ct_queues]. by rewrite !get_queue_insert.
Qed.

(** The lease of a task in flight is cleared: the task is outstanding no more. *)
Lemma completed_is_gone y id lt x :
  q_ok y -> tq_inflight (qs_q y) !! id = Some lt -> x ∈ outstanding (complete (qs_q y) id).2 -> lt_id x <> id.
Proof.
  intros Hok Hl Hx E. unfold complete in Hx. rewrite Hl in Hx. assert (Hn := oo_ids _ _ _ (qo_outs _ Hok)).
  rewrite (outstanding_delete _ _ _ Hl) in Hn. cbn in Hn. apply NoDup_cons in Hn as [Hn _]. apply Hn.
  rewrite (proj1 (qo_fly _ Hok _ _ Hl)). apply list_elem_of_fmap. exists x. split; [done|exact Hx].
Qed.

(** C27: A task that was given back can lose its lease.  Take any queue a host's can come to
    and any task in flight there that has deliveries left, and let the host give it back
    unstarted.  [ReportResult] does three things to the queue: it offers the task again,
    announces it, and, as it returns, clears the task's lease.  A poll that is served between
    the second and the third is sent the task once more, and it is that delivery's lease that
    is cleared: the host holds a task that is then in no queue, and if the host goes away
    with it nothing offers it again.  With the poll served after the third, the second
    delivery is leased as any other. *)
Theorem given_back_task_loses_its_lease `{Outside} (host : string) (p : posted_result) (s : ctl) (y : qsys) (lt : leasedTask) (now : Time) :
  q_reached y -> get_queue (ct_queues s) host = qs_q y ->
  rs_NotStarted (po_result p) = true -> rs_OK (po_result p) = false ->
  tq_inflight (qs_q y) !! rs_TaskID (po_result p) = Some lt -> exhausted lt = false -> tq_retired (qs_q y) = false ->
  exists y1 y2,
    q_step y (ERedeliver (rs_TaskID (po_result p))) y1 /\ q_step y1 ESignal y2 /\
    (exists y3 y4 more, q_step y2 (next_poll (qs_q y2) now) y3 /\ q_step y3 (EComplete (rs_TaskID (po_result p))) y4 /\
       qs_sent y4 = qs_sent y ++ delivery (lt_task lt) now (lt_attempts lt + 1) :: more /\
       forall x, x ∈ outstanding (qs_q y4) -> lt_id x <> rs_TaskID (po_result p)) /\
    (exists y3 y4 more, q_step y2 (EComplete (rs_TaskID (po_result p))) y3 /\ q_step y3 (next_poll (qs_q y3) now) y4 /\
       qs_q y3 = get_queue (ct_queues (ReportResult host p s).2) host /\
       qs_sent y4 = qs_sent y ++ delivery (lt_task lt) now (lt_attempts lt + 1) :: more /\
       tq_inflight (qs_q y4) !! rs_TaskID (po_result p) = Some (leased lt now)).
Proof.
  set (id := rs_TaskID (po_result p)). intros Hr Hq Hn Ho Hl Hx Hret.
  assert (Hlq : tq_inflight (get_queue (ct_queues s) host) !! id = Some lt) by (by rewrite Hq).
  assert (Hend := given_back_steps host p s lt Hn Ho Hlq Hx). fold id in Hend. rewrite Hq in Hend.
  set (lt0 := {| lt_task := lt_task lt; lt_key := lt_key lt; lt_attempts := lt_attempts lt; lt_expires := 0 |}).
  destruct y as [q owed sent ids]. cbn [qs_q qs_sent] in *.
  set (q1 := with_tasks q (lt0 :: tq_pending q) (delete id (tq_inflight q))).
  assert (E1 : redeliver_locked q id = (redelivered, q1)) by (unfold redeliver_locked; rewrite Hl; unfold exhausted in Hx; by rewrite Hx).
  rewrite E1 in Hend. cbn [snd] in Hend.
  set (y1 := {| qs_q := q1; qs_owed := S owed; qs_sent := sent; qs_ids := ids |}).
  set (y2 := {| qs_q := signal q1; qs_owed := owed; qs_sent := sent; qs_ids := ids |}).
  assert (S1 : q_step {| qs_q := q; qs_owed := owed; qs_sent := sent; qs_ids := ids |} (ERedeliver id) y1) by exact (q_redeliver q owed sent ids id redelivered q1 E1).
  assert (S2 : q_step y1 ESignal y2) by apply q_signal.
  assert (Hok2 : q_ok y2) by (apply (q_step_ok _ _ _ S2), (q_step_ok _ _ _ S1); by apply q_reached_ok).
  assert (Hid : lt_id lt0 = id).
  { apply q_reached_ok in Hr. exact (proj1 (qo_fly _ Hr _ _ Hl)). }
  assert (Hnone : complete (signal q1) id = (None, signal q1)) by (unfold complete; cbn; by rewrite lookup_delete_eq).
  exists y1, y2. split; [exact S1|]. split; [exact S2|].
  destruct (next_poll_sends y2 now lt0 (tq_pending q) Hok2 Hret (fun _ => eq_refl) eq_refl) as (y3 & more & S3 & Hs3 & Hf3).
  rewrite Hid in Hf3. split.
  - assert (Hok3 : q_ok y3) by by apply (q_step_ok _ _ _ S3). destruct y3 as [q3 owed3 sent3 ids3].
    eexists _, _, more. split; [exact S3|]. split; [apply q_complete|]. split; [exact Hs3|].
    intros x. cbn [qs_q]. exact (completed_is_gone _ id _ x Hok3 Hf3).
  - eexists y2, y3, more. split_and!; [|exact S3| |exact Hs3|exact Hf3].
    + pose proof (q_complete (signal q1) owed sent ids id) as S4. by rewrite Hnone in S4.
    + by rewrite Hend, Hnone.
Qed.
