(* ===== verification/FleetPools.v ===== *)
(** * Names and kept pools

    Concrete inputs for the theorems on names and on the pools the controller keeps that
    have hypotheses: a described machine, two words of the kennel, and a table of pools
    with stale limits, a pool of another installation and a class without a pool. *)
From Stdlib Require Import ZArith Lia Ascii String.
From stdpp Require Import base strings list gmap.
From S2P Require Import Prelude GoFloat GoString GoText Naming Names Store StoreNames Resources AutoPools Reconcile Settle Fleet.
Local Open Scope string_scope.
Local Open Scope list_scope.
Local Open Scope Z_scope.

(** ** Names *)
Lemma Parse_String_witness :
  Parse "zoomies-4vcpu-16gb-ubuntu-2404-arm64-tuck" = Some (spec_of 4 16 "ubuntu" "24.04" ArchARM64 "tuck").
Proof.
  assert (E : Spec_String (spec_of 4 16 "ubuntu" "24.04" ArchARM64 "tuck") = "zoomies-4vcpu-16gb-ubuntu-2404-arm64-tuck")
    by (vm_compute; reflexivity).
  rewrite <- E. apply (Parse_String (spec_of 4 16 "ubuntu" "24.04" ArchARM64 "tuck")). split.
  - exists 4. split; [reflexivity|lia].
  - cbn [sp_MemoryGB spec_of]. unfold int_max. lia.
  - vm_compute. reflexivity.
  - discriminate.
  - vm_compute. reflexivity.
  - right. reflexivity.
  - vm_compute. reflexivity.
  - intros _ w Hw. vm_compute in Hw. injection Hw as <-. vm_compute. reflexivity.
  - vm_compute. discriminate.
Defined.

Lemma runner_names_distinct_witness :
  let name := NewRunnerNameOn 3 [1; 2; 3; 4; 255] (Some pool0) (Some host0) in
  strlen name <= 64 /\ name <> NewRunnerNameOn 3 [1; 2; 3; 4; 254] (Some pool0) (Some host0).
Proof.
  assert (Hk : (3 < length Kennel)%nat) by (apply Nat.ltb_lt; vm_compute; reflexivity).
  assert (He : forall b, 0 <= b < 256 -> entropy [1; 2; 3; 4; b]) by (intros; split; [reflexivity|repeat constructor; lia]).
  destruct (runner_names_distinct 3 [1; 2; 3; 4; 255] (Some pool0) (Some host0) Hk (He 255 ltac:(lia))) as (Hl & _ & Hd).
  split; [exact Hl|]. intros E. discriminate (Hd 3%nat [1; 2; 3; 4; 254] (Some pool0) (Some host0) Hk (He 254 ltac:(lia)) (eq_sym E)).
Defined.

(** ** Pools *)
Definition sized_host (id name arch class : string) : Host :=
  let h := host0 in
  {| h_Retired := false; h_ID := id; h_Name := name; h_Embedded := false; h_Capacity := 4; h_Backends := ["docker"];
     h_BackendInfo := []; h_Labels := ∅; h_OS := h_OS h; h_Distro := h_Distro h; h_OSVersion := h_OSVersion h;
     h_Arch := arch; h_CPUs := 8; h_MemoryMB := 16384; h_CPUMHz := 3000; h_MemoryMTs := 3200; h_DiskKind := "nvme";
     h_Usage := h_Usage h; h_Throttle := h_Throttle h; h_DiskTotalMB := 500000; h_DiskFreeMB := 400000; h_ReserveCPUs := 0;
     h_ReserveMemoryMB := 0; h_ReserveDiskMB := 0; h_RunnerProfile := zero_RunnerProfile; h_PriorityOverride := None;
     h_SizeClass := {| hsc_Class := class; hsc_Pending := ""; hsc_PendingSince := None; hsc_ChangedAt := None |};
     h_Cordoned := false; h_Incompatible := false; h_LastHeartbeat := now0; h_ActiveRunners := 0; h_UnlimitedRunners := 0 |}.

(** Two small x64 hosts and a large ARM one. *)
Definition kept0 : AutoPoolInput :=
  {| ai_Now := now0; ai_Hosts := [Some (sized_host "h1" "ant" "amd64" "small"); Some (sized_host "h2" "bee" "x86_64" "small");
                                  Some (sized_host "h3" "cat" "arm64" "large")];
     ai_Pools := []; ai_InstallationID := "i1"; ai_RunnerGroup := ""; ai_Since := now0; ai_Grace := Hour;
     ai_DockerMode := None; ai_Size := None; ai_Previous := ∅ |}.
Definition runners0 : Runners :=
  {| cr_DefaultCPUs := f64_of_Z 2; cr_DefaultMemoryMB := 4096; cr_MinimumCPUs := f64_zero; cr_MinimumMemoryMB := 0;
     cr_SmallCPUs := f64_zero; cr_SmallMemoryMB := 0; cr_MediumCPUs := f64_zero; cr_MediumMemoryMB := 0;
     cr_LargeCPUs := f64_of_Z 4; cr_LargeMemoryMB := 8192 |}.

(** The pool for small x64 hosts under another switch and other labels, and the pool of
    an installation the controller has left. *)
Definition stale (id name installation : string) (arch class : string) : Pool :=
  let p := poolRow id (NewAutoPool kept0 arch class "docker") in
  {| p_ID := id; p_Name := name; p_InstallationID := installation; p_Labels := ["linux"]; p_NoDefaultLabels := false;
     p_RunnerGroup := ""; p_Backend := "docker"; p_Platform := p_Platform p; p_Image := ""; p_PullPolicy := p_PullPolicy p;
     p_MinRunners := 0; p_MaxRunners := 3; p_RepositoryScaleUpLimit := 0; p_Priority := 0; p_IdleTimeout := p_IdleTimeout p;
     p_Ephemeral := false; p_DockerMode := DockerNone; p_Resources := zero_Resources; p_CPUBurstMode := p_CPUBurstMode p;
     p_MemoryBurstMode := p_MemoryBurstMode p; p_CacheScope := "pool"; p_CPUBurstMaxCPUs := f64_zero;
     p_MemoryBurstMaxMemoryMB := 0; p_SizeFromProfile := true; p_AutoKey := p_AutoKey p; p_AutoMin := 1; p_AutoCap := 5;
     p_AutoPaused := false; p_FleetStandard := zero_RunnerSize; p_FleetMinimum := zero_RunnerSize;
     p_RunnerSettings := p_RunnerSettings p; p_HostSelector := p_HostSelector p; p_Enabled := true |}.
Definition table0 : list Pool := [pool0; stale "p5" "zoomies-small" "i1" "amd64" "small"; stale "p6" "left" "i2" "amd64" "large"].

Definition no_plan : AutoPoolPlan := {| ap_Changes := []; ap_Findings := []; ap_Skipped := []; ap_Members := ∅; ap_Slots := ∅ |}.
Definition kept_plan0 : AutoPoolPlan := Eval vm_compute in default no_plan (PlanAutoPools id (passInput kept0 runners0 table0 ∅)).
Definition changes0 : list (string * AutoPoolChange) := zip ["p7"; "p8"; "p9"] (ap_Changes kept_plan0).

Lemma reconcile_settles_witness :
  length changes0 = 3%nat /\
  exists plan', PlanAutoPools id (passInput kept0 runners0 (fst (applyChanges table0 changes0)) (ap_Members kept_plan0)) = Some plan' /\
    ap_Changes plan' = [].
Proof.
  split; [reflexivity|].
  apply (reconcile_settles id kept0 runners0 table0 (fst (applyChanges table0 changes0)) ∅ (ap_Members kept_plan0) kept_plan0 changes0).
  - apply (bool_decide_unpack (NoDup (p_ID <$> table0))). vm_compute. exact I.
  - intros p q Hp Hq Hf Hk _. unfold table0 in Hp, Hq.
    repeat (apply elem_of_cons in Hp as [->|Hp]; [repeat (apply elem_of_cons in Hq as [->|Hq]; [done|]); by apply elem_of_nil in Hq|]).
    by apply elem_of_nil in Hp.
  - vm_compute. reflexivity.
  - reflexivity.
  - assert (E : snd (applyChanges table0 changes0) = true) by (vm_compute; reflexivity). rewrite <- E. apply surjective_pairing.
Defined.

(** A machine called arm loses its name the second time it is derived. *)
Example machine_named_arm :
  let once := Host_CanonicalName (sized_host "h1" "arm" "amd64" "") in
  once = "zoomies-8vcpu-16gb-ubuntu-2404-arm" /\
  Host_CanonicalName (sized_host "h1" once "amd64" "") = "zoomies-8vcpu-16gb-ubuntu-2404".
Proof. vm_compute. split; reflexivity. Qed.
