(* ===== verification/FleetRuns.v ===== *)
(** * Feeds, limits and deliveries

    Concrete inputs for the theorems on the event bus, the sliding-window limiter, the jobs
    table, webhook deliveries and the fleet they move, and two runs that show what the
    handlers do not rule out: a delivery whose envelope cannot be read, signed by another
    installation, and a start that lands after its job completed. *)
From Stdlib Require Import ZArith Lia Ascii String Sorted.
From stdpp Require Import base strings list gmap relations.
From S2P Require Import Prelude GoFloat GoString GoText Store Lifecycle Fleet Jobs RateLimit Json Webhook Deliveries Bus Rbac.
Local Open Scope string_scope.
Local Open Scope list_scope.
Local Open Scope Z_scope.

(** ** A feed that comes back *)
Definition host_event (topic : string) : Event := {| ev_ID := 0; ev_Kind := "host.updated"; ev_Topic := topic; ev_Data := ""; ev_At := now0 |}.
Definition from_number (n : Z) : SubscribeOptions :=
  {| so_Kinds := ["host.updated"]; so_TopicPrefix := ""; so_Replay := n; so_Incomplete := false; so_Class := "tab"; so_ClassLimit := 8 |}.

Definition publishes (topic : string) (w : world) : world :=
  match publish (w_st w) (host_event topic) true with
  | Some st => {| w_st := st; w_log := w_log w ++ [(number (host_event topic) (bus_seq (st_bus st)), true)]; w_feeds := w_feeds w |}
  | None => w
  end.
Definition subscribes (n : Z) (w : world) : world :=
  match SubscribeWithin (w_st w) (from_number n) 8 with
  | Some (st, Some sn) =>
      {| w_st := st; w_log := w_log w;
         w_feeds := <[sn_id sn := {| fd_opts := from_number n; fd_sn := sn; fd_from := length (w_log w); fd_got := [] |}]> (w_feeds w) |}
  | _ => w
  end.
Definition takes_next (id : Z) (w : world) : world :=
  match w_feeds w !! id, receive (w_st w) id with
  | Some fd, Some (e, st) =>
      {| w_st := st; w_log := w_log w;
         w_feeds := <[id := {| fd_opts := fd_opts fd; fd_sn := fd_sn fd; fd_from := fd_from fd; fd_got := fd_got fd ++ [e] |}]> (w_feeds w) |}
  | _, _ => w
  end.
Definition leaves (id : Z) (w : world) : world :=
  match w_feeds w !! id with
  | Some fd => match Close (w_st w) (fd_sn fd) with
               | Some (st, sn) =>
                   {| w_st := st; w_log := w_log w;
                      w_feeds := <[id := {| fd_opts := fd_opts fd; fd_sn := sn; fd_from := fd_from fd; fd_got := fd_got fd |}]> (w_feeds w) |}
               | None => w
               end
  | None => w
  end.

Lemma publishes_run topic w : Bus.reachable w -> Bus.reachable (publishes topic w).
Proof.
  intros H. unfold publishes. destruct (publish _ _ _) as [st|] eqn:E; [|done].
  eapply rtc_r; [exact H|]. by apply step_publish with (keep := true).
Qed.
Lemma subscribes_run n w : Bus.reachable w -> Bus.reachable (subscribes n w).
Proof.
  intros H. unfold subscribes. destruct (SubscribeWithin _ _ _) as [[st [sn|]]|] eqn:E; [|done|done].
  eapply rtc_r; [exact H|]. by apply step_subscribe with (limit := 8).
Qed.
Lemma takes_next_run id w : Bus.reachable w -> Bus.reachable (takes_next id w).
Proof.
  intros H. unfold takes_next. destruct (w_feeds w !! id) as [fd|] eqn:Ef; [|done]. destruct (receive _ _) as [[e st]|] eqn:E; [|done].
  eapply rtc_r; [exact H|]. by apply step_receive.
Qed.
Lemma leaves_run id w : Bus.reachable w -> Bus.reachable (leaves id w).
Proof.
  intros H. unfold leaves. destruct (w_feeds w !! id) as [fd|] eqn:Ef; [|done]. destruct (Close _ _) as [[st sn]|] eqn:E; [|done].
  eapply rtc_r; [exact H|]. by apply step_close.
Qed.

(** A tab that watches from the start takes one event of two and leaves; another event is
    published; it comes back from the number it saw. *)
Definition watched : world := takes_next 2 (subscribes 1 (publishes "host:c" (leaves 1 (takes_next 1 (publishes "host:b" (publishes "host:a" (subscribes 0 start))))))).
Lemma watched_reachable : Bus.reachable watched.
Proof. apply takes_next_run, subscribes_run, publishes_run, leaves_run, takes_next_run, publishes_run, publishes_run, subscribes_run, rtc_refl. Qed.
Lemma watched_short : short watched.
Proof. vm_compute. reflexivity. Qed.

Lemma bus_never_panics_witness : is_Some (publish (w_st watched) (host_event "host:d") true).
Proof. apply (bus_never_panics watched watched_reachable watched_short). Defined.

Definition feed_of (id : Z) : feed := default {| fd_opts := from_number 0; fd_sn := {| sn_id := 0; sn_Complete := false; sn_Closed := false |}; fd_from := 0; fd_got := [] |} (w_feeds watched !! id).

Lemma feed_not_thinned_witness : ev_ID <$> sent watched 2 (feed_of 2) = [2; 3] /\ sent watched 2 (feed_of 2) = owed (w_log watched) (feed_of 2).
Proof.
  split; [vm_compute; reflexivity|]. apply (feed_not_thinned watched 2 (feed_of 2) watched_reachable watched_short); [vm_compute; reflexivity|].
  vm_compute. eexists. reflexivity.
Defined.

Lemma reconnect_misses_nothing_witness : StronglySorted before (fd_got (feed_of 1) ++ sent watched 2 (feed_of 2)).
Proof.
  apply (reconnect_misses_nothing watched 1 2 (feed_of 1) (feed_of 2) watched_reachable watched_short); try (vm_compute; reflexivity).
  split; [intros e; reflexivity|]. split; vm_compute; reflexivity.
Defined.

Lemma ParseWireID_WireID_witness : ParseWireID (Epoch now0) (WireID (Epoch now0) 41) = (41, true).
Proof. apply (ParseWireID_WireID now0 41). lia. Defined.

(** ** Sign-in attempts *)
Definition tries : list (string * Time) := [("10.0.0.1", now0); ("10.0.0.1", now0 + Second); ("10.0.0.2", now0 + Second); ("10.0.0.1", now0 + 2 * Second)].
Lemma tries_in_order n : now0 + 2 * Second <= n -> in_order now0 (tries ++ [("10.0.0.1", n)]).
Proof. intros H. unfold in_order. cbn [map app snd tries]. unfold Second, Millisecond, Microsecond in *. repeat constructor; lia. Qed.

Lemma limiter_forgets_nothing_witness :
  fst (attempts (NewRateLimiter 2 Minute) tries) = [true; true; true; false] /\
  Z.of_nat (length (in_stretch Minute (now0 + 2 * Second) (accepted "10.0.0.1" tries (fst (attempts (NewRateLimiter 2 Minute) tries))))) <= 2.
Proof.
  split; [vm_compute; reflexivity|]. apply (limiter_forgets_nothing 2 Minute now0 tries); [lia|reflexivity|].
  unfold in_order. cbn [map snd tries]. unfold Second, Millisecond, Microsecond in *. repeat constructor; lia.
Defined.

Lemma RetryAfter_exact_witness :
  fst (RetryAfter (snd (attempts (NewRateLimiter 2 Minute) tries)) "10.0.0.1" (now0 + 3 * Second)) = 57 * Second /\
  let '(d, l) := RetryAfter (snd (attempts (NewRateLimiter 2 Minute) tries)) "10.0.0.1" (now0 + 3 * Second) in
  0 <= d /\ fst (AllowAt l "10.0.0.1" (now0 + 3 * Second + d)) = true /\
  forall e, 0 <= e < d -> fst (AllowAt l "10.0.0.1" (now0 + 3 * Second + e)) = false.
Proof.
  split; [vm_compute; reflexivity|]. apply (RetryAfter_exact 2 Minute now0 tries "10.0.0.1" (now0 + 3 * Second)); [lia|reflexivity| |].
  - vm_compute. split; discriminate.
  - apply tries_in_order. unfold Second, Millisecond, Microsecond. lia.
Defined.

(** ** Deliveries *)
Definition event_of (action runner : string) : WorkflowJobEvent :=
  {| ev_Action := action; ev_InstallationID := 9; ev_JobID := 7; ev_RunID := 70; ev_Repo := "acme/widgets"; ev_WorkflowName := "ci"; ev_JobName := "build";
     ev_Labels := ["self-hosted"; "zoomies"]; ev_RunnerID := 5; ev_RunnerName := runner; ev_Status := action; ev_Conclusion := "success";
     ev_QueuedAt := now0; ev_StartedAt := now0 + Second; ev_CompletedAt := now0 + Minute; ev_HTMLURL := ""; ev_HeadBranch := "main"; ev_HeadSHA := "";
     ev_RunAttempt := 1; ev_Steps := [] |}.
Definition arrival (id action runner : string) : Arrival :=
  {| ar_event := event_of action runner; ar_installation := "inst_acme"; ar_pool := Some "p1"; ar_id := id; ar_classed := false; ar_now := now0 + Hour |}.
Definition started_job : JobRow := claimed (ToJob (event_of "in_progress" "zoomies-ant") now0) "inst_acme" (Some "p1") (Some "run_1").

Lemma ApplyJob_twice_witness :
  exists a, ApplyJob ∅ started_job [] "job_1" now0 = Some a /\ aj_wrote a = true /\
    exists a', ApplyJob (aj_table a) started_job [] "job_2" (now0 + Second) = Some a' /\ aj_wrote a' = false /\
      aj_table a' = aj_table a /\ aj_change a' = no_change (jr_State (aj_out a)).
Proof.
  eexists. split; [reflexivity|]. split; [reflexivity|]. apply (ApplyJob_twice ∅ started_job "job_1" now0).
  - apply map_Forall_empty.
  - split; [reflexivity| | |]; intros t [= <-]; vm_compute; discriminate.
  - vm_compute. discriminate.
  - reflexivity.
Defined.

(** ** Signed deliveries *)

(** A check that takes the secret itself for the signature, and a box that is open. *)
#[local] Instance open_secrets : Secrets := {| gh_ValidateSignature := fun header _ secret => str_eqb header secret; OpenString := Some |}.
#[local] Instance quiet_handlers : Handlers :=
  {| Webhook.applyWorkflowJob := fun _ _ => None; enqueueRepairWebhook := fun _ _ _ => None; admitWatchFromPullRequestWebhook := fun _ _ => None |}.

(** JSON written with single quotes. *)
Definition json_text (s : string) : string := of_bytes (map (fun b => if b =? 39 then 34 else b) (bytes s)).
Definition job_body (organization : string) : string :=
  json_text ("{'action': 'queued', 'workflow_job': {'id': 7, 'labels': ['zoomies'], 'status': 'queued'}, " +:+
             "'repository': {'full_name': 'acme/widgets'}, 'organization': " +:+ organization +:+ ", 'installation': {'id': 9}}").
Definition request (body signature : string) : Request :=
  {| rq_Method := "POST"; rq_Event := "workflow_job"; rq_DeliveryID := "d-1"; rq_Signature := signature; rq_Body := Some body; rq_From := "10.0.0.1" |}.
Definition acme : Installation := {| in_ID := "inst_acme"; in_Target := "acme"; in_TargetType := TargetOrg; in_WebhookSecretEnc := "acme's secret"; in_CreatedAt := 1 |}.
Definition other_org : Installation := {| in_ID := "inst_other"; in_Target := "other"; in_TargetType := TargetOrg; in_WebhookSecretEnc := "other's secret"; in_CreatedAt := 2 |}.
Definition found_in (table : list Installation) (repo : string) : Lookup := match FindInstallationByTarget table repo with Some i => Covers i | None => NotCovered end.
Definition probes0 : RateLimiter := NewRateLimiter 60 Minute.
Definition posted (ask : string -> Lookup) (body signature : string) : Outcome :=
  HandleWebhook ask (Some (ListInstallations [acme; other_org])) (request body signature) probes0 now0.
Definition job_of (out : Outcome) : option (WorkflowJobEvent * deliveryOwner) :=
  match oc_acts out with ActJob e o :: _ => Some (e, o) | _ => None end.

Lemma job_belongs_to_its_signer_witness :
  match job_of (posted (found_in [acme; other_org]) (job_body "{'login': 'acme'}") "acme's secret") with
  | Some (e, o) => ev_Repo e = "acme/widgets" /\ match fst (owner_of (found_in []) o (ev_Repo e)) with
                   | Covers i => found_in [acme; other_org] (ev_Repo e) = Covers i /\ signed_by i (job_body "{'login': 'acme'}") "acme's secret"
                   | NotCovered => found_in [acme; other_org] (ev_Repo e) = NotCovered
                   | LookupFailed => False
                   end
  | None => False
  end.
Proof.
  destruct (job_of _) as [[e o]|] eqn:E; [|vm_compute in E; discriminate].
  pose proof (job_belongs_to_its_signer (found_in [acme; other_org]) (found_in []) (Some (ListInstallations [acme; other_org]))
    (request (job_body "{'login': 'acme'}") "acme's secret") probes0 now0 (job_body "{'login': 'acme'}") e o) as H.
  vm_compute in E. injection E as <- <-. split; [reflexivity|]. eapply H; try (vm_compute; reflexivity); try (vm_compute; discriminate).
  vm_compute. left.
Defined.

(** The envelope that chooses a delivery's secret and the reader its job is
    made from are not the same reader.  A body whose organisation's login is not a string
    has an envelope that cannot be read, so it names no repository and any installation's
    secret verifies it; the job is read from it all the same, and belongs to the installation
    of the repository it names, which the signer has nothing to do with.  With a login that
    is a string the same body and signature are refused. *)
Theorem unread_envelope_escapes_its_owner :
  let ask := found_in [acme; other_org] in
  (forall i, signed_by i (job_body "{'login': 7}") "other's secret" -> i ∈ [acme; other_org] -> i = other_org) /\
  oc_status (posted ask (job_body "{'login': 7}") "other's secret") = 202 /\
  (fun eo => fst (owner_of ask (snd eo) (ev_Repo (fst eo)))) <$> job_of (posted ask (job_body "{'login': 7}") "other's secret") = Some (Covers acme) /\
  oc_status (posted ask (job_body "{'login': 'acme'}") "other's secret") = 401.
Proof.
  cbn zeta. split_and!; try (vm_compute; reflexivity).
  intros i (secret & Hs & _ & _ & Hv). rewrite !elem_of_cons, elem_of_nil. intros [->|[->|[]]]; [|done].
  vm_compute in Hs. injection Hs as <-. vm_compute in Hv. discriminate.
Qed.

(** The same happens to any delivery that arrives while the store cannot be
    asked which installation covers its repository: it is checked against every secret, and
    applied for whichever installation covers the repository when it is asked again. *)
Theorem failed_lookup_escapes_its_owner :
  let body := job_body "{'login': 'acme'}" in
  let out := posted (fun _ => LookupFailed) body "other's secret" in
  oc_status out = 202 /\
  (fun eo => fst (owner_of (found_in [acme; other_org]) (snd eo) (ev_Repo (fst eo)))) <$> job_of out = Some (Covers acme).
Proof. split; vm_compute; reflexivity. Qed.

(** ** A fleet and its deliveries *)
Definition home0 : Z -> string := fun _ => "zoomies-ant".
Definition new_runner : Runner :=
  r_with_lifecycle {| r_ID := "run_1"; r_PoolID := "p1"; r_HostID := "h1"; r_Name := "zoomies-ant"; r_Ephemeral := false; r_State := RunnerProvisioning;
     r_Image := ""; r_CurrentJobID := ""; r_CreatedAt := now0; r_ContainerStartedAt := None; r_RegisteredAt := None; r_DrainingSince := None;
     r_StartedAt := None; r_LastIdleAt := None; r_FinishedAt := None; r_Message := ""; r_JobsHandled := 0; r_AllocatedCPUs := f64_of_Z 2;
     r_AllocatedMemoryMB := 4096; r_AllocationSource := ""; r_LentMemoryMB := 0; r_FaultKind := "" |}
    RunnerProvisioning "" "" None None None None None 0 "".
Definition fleet1 : Fleet := {| fl_jobs := ∅; fl_runners := {[ "run_1" := new_runner ]} |}.

Lemma fresh_check fl a : negb (str_eqb (ar_id a) "") && forallb (fun p => negb (str_eqb (jr_ID (snd p)) (ar_id a))) (map_to_list (fl_jobs fl)) = true ->
  fresh_id fl a.
Proof.
  intros [Hn Hall]%andb_true_iff. split.
  - unfold str_eqb in Hn. by apply negb_true_iff, bool_decide_eq_false in Hn.
  - intros k row Hk E. rewrite forallb_forall in Hall. specialize (Hall (k, row) (proj1 (list_elem_of_In _ _) (proj2 (elem_of_map_to_list _ _ _) Hk))).
    cbn in Hall. rewrite E in Hall. unfold str_eqb in Hall. by rewrite bool_decide_eq_true_2 in Hall.
Qed.

Lemma fleet1_made : other ∅ (fl_runners fleet1).
Proof. apply (other_create ∅ "run_1" new_runner); [done|apply lookup_empty|by repeat split|]. intros j r'. by rewrite lookup_empty. Qed.

(** A job is queued, and starts on the runner. *)
Definition queued_fleet : Fleet := Deliveries.applyWorkflowJob fleet1 (arrival "job_1" "queued" "").
Definition working_fleet : Fleet := Deliveries.applyWorkflowJob queued_fleet (arrival "job_2" "in_progress" "zoomies-ant").

Lemma runners_have_jobs_in_progress_witness : exists k row,
  fl_jobs working_fleet !! k = Some row /\ jr_ID row = "job_1" /\ jr_RunnerID row = "run_1" /\ jr_State row = JobInProgress.
Proof.
  assert (Hrun : rtc (alone home0) empty_fleet working_fleet).
  { eapply rtc_l; [apply (alone_other home0 empty_fleet _ fleet1_made)|].
    eapply rtc_l; [apply (alone_delivery home0 fleet1 (arrival "job_1" "queued" "")); [by left|apply fresh_check; vm_compute; reflexivity]|].
    eapply rtc_l; [apply (alone_delivery home0 queued_fleet (arrival "job_2" "in_progress" "zoomies-ant")); [by right|apply fresh_check; vm_compute; reflexivity]|].
    apply rtc_refl. }
  assert (Hr : r_CurrentJobID <$> fl_runners working_fleet !! "run_1" = Some "job_1") by (vm_compute; reflexivity).
  destruct (fl_runners working_fleet !! "run_1") as [r|] eqn:E; [|discriminate]. injection Hr as Hr.
  destruct (runners_have_jobs_in_progress home0 working_fleet Hrun "run_1" r E) as (k & row & ? & Hid & ? & ?); [rewrite Hr; discriminate|].
  exists k, row. rewrite Hr in Hid. auto.
Defined.

(** ** Handlers at once *)

(** The next step of the handler at a place in the list. *)
Definition next_step (n : nat) (w : World) : World :=
  match w_handlers w !! n with
  | Some h => let '(fl, h') := run (w_fleet w) h in
              {| w_fleet := fl; w_handlers := take n (w_handlers w) ++ match h' with Some h' => h' :: drop (S n) (w_handlers w) | None => drop (S n) (w_handlers w) end |}
  | None => w
  end.
Definition arrives (a : Arrival) (w : World) : World := {| w_fleet := w_fleet w; w_handlers := w_handlers w ++ [Asked a] |}.
Definition fresh_for (w : World) (n : nat) : bool :=
  match w_handlers w !! n with
  | Some (Found a _) => negb (str_eqb (ar_id a) "") && forallb (fun p => negb (str_eqb (jr_ID (snd p)) (ar_id a))) (map_to_list (fl_jobs (w_fleet w)))
  | _ => true
  end.

Lemma next_step_run home w0 n w : fresh_for w n = true -> rtc (together home) w0 w -> rtc (together home) w0 (next_step n w).
Proof.
  intros Hf H. unfold next_step, fresh_for in *. destruct (w_handlers w !! n) as [h|] eqn:E; [|done]. destruct (run (w_fleet w) h) as [fl h'] eqn:Er.
  eapply rtc_r; [exact H|]. apply (together_runs home w (take n (w_handlers w)) h (drop (S n) (w_handlers w)) fl h'); [by rewrite take_drop_middle| |done].
  intros a runner ->. by apply fresh_check.
Qed.
Lemma arrives_run home w0 a w : well_named home a -> rtc (together home) w0 w -> rtc (together home) w0 (arrives a w).
Proof. intros Ha H. eapply rtc_r; [exact H|]. by apply together_arrives. Qed.

Definition idle_world : World := {| w_fleet := empty_fleet; w_handlers := [] |}.
Definition staffed : World := {| w_fleet := fleet1; w_handlers := [] |}.
Lemma staffed_run : rtc (together home0) idle_world staffed.
Proof. apply rtc_once. apply (together_other home0 idle_world (fl_runners fleet1) fleet1_made). Qed.

(** The start and the completion of a job are handled at once: the completion finishes
    before the start moves its runner. *)
Definition crossed : World :=
  next_step 0 (next_step 1 (next_step 1 (next_step 0 (next_step 1 (next_step 1 (next_step 0 (next_step 0
    (arrives (arrival "job_2" "completed" "zoomies-ant") (arrives (arrival "job_1" "in_progress" "zoomies-ant") staffed))))))))).
Lemma crossed_run : rtc (together home0) idle_world crossed.
Proof.
  do 8 (apply next_step_run; [vm_compute; reflexivity|]). apply arrives_run; [by right|]. apply arrives_run; [by right|]. exact staffed_run.
Qed.


(** Handled at once, they are not enough: the start of a job read before its
    completion was recorded, and written after, leaves the runner busy on a completed job
    with no handler left to release it. *)
Theorem start_lands_after_completion :
  rtc (together home0) idle_world crossed /\ w_handlers crossed = [] /\
  jr_State <$> fl_jobs (w_fleet crossed) !! 7 = Some JobCompleted /\ jr_ID <$> fl_jobs (w_fleet crossed) !! 7 = Some "job_1" /\
  r_CurrentJobID <$> fl_runners (w_fleet crossed) !! "run_1" = Some "job_1" /\ r_State <$> fl_runners (w_fleet crossed) !! "run_1" = Some RunnerBusy.
Proof. split; [exact crossed_run|]. split_and!; vm_compute; reflexivity. Qed.

(** ** Tokens minted from tokens *)
Definition ants : User := {| us_ID := "usr_1"; us_Username := "ant"; us_Role := RoleAdmin; us_Disabled := false |}.
Definition accounts (id : string) : Fetched User := if str_eqb id "usr_1" then found ants else notFound.
Definition as_is (s : string) : string := s.
Definition minted1 : Minted := {| mi_ID := "tok_1"; mi_TokenHash := "h1"; mi_Prefix := "zoom_1" |}.

(** A token that may only manage its owner's tokens and read pools. *)
Definition narrow : Identity :=
  {| id_Kind := KindToken; id_ID := "tok_0"; id_Name := "ci"; id_Role := RoleAdmin; id_Scopes := ["tokens:own"; "pools:*"];
     id_TokenID := "tok_0"; id_UserID := "usr_1"; id_IP := "10.0.0.1" |}.
Definition asks (scopes : list string) : createTokenRequest :=
  {| ct_Name := "pools"; ct_Role := "Operator "; ct_Scopes := scopes; ct_ExpiresAt := None |}.
Definition answer_of (a : Answer) : APIToken :=
  match a with
  | inr t => t
  | inl _ => {| at_ID := ""; at_Name := ""; at_Role := ""; at_OwnerRole := ""; at_UserID := ""; at_Scopes := []; at_TokenHash := "";
                at_Prefix := ""; at_ExpiresAt := None; at_Revoked := true |}
  end.
Definition presented (t : APIToken) : Identity :=
  match authenticateToken (found t) accounts 5 "10.0.0.2" with inr i => i | inl _ => narrow end.
Definition child : APIToken := answer_of (handleCreateToken as_is (Some narrow) (asks [" Pools:Write "]) minted1 4).

Lemma authority_is_handed_on_witness :
  handed_on as_is narrow (presented child) /\ Allowed (Some (presented child)) "pools.write" = true /\
  Allowed (Some narrow) "pools.write" = true.
Proof.
  assert (handed_on as_is narrow (presented child)) as H.
  { apply (held_minted as_is narrow narrow (asks [" Pools:Write "]) minted1 4 child accounts 5 "10.0.0.2"); [constructor| | |];
      vm_compute; [reflexivity|discriminate|reflexivity]. }
  split_and!; [exact H|vm_compute; reflexivity|]. apply (authority_is_handed_on as_is narrow (presented child) "pools.write" H). vm_compute. reflexivity.
Defined.

(** The same token, given the scopes [""], becomes one that may write users. *)
Lemma blank_scope_sheds_the_limit_witness :
  Allowed (Some narrow) "users.write" = false /\
  exists t i, handleCreateToken as_is (Some narrow) (blank_request RoleAdmin) minted1 4 = inr t /\
    at_Scopes t = [] /\ authenticateToken (found t) accounts 4 "10.0.0.1" = inr i /\
    forall a want, actionRoles !! a = Some want -> AtLeast RoleAdmin want = true -> Allowed (Some i) a = true.
Proof.
  split; [vm_compute; reflexivity|].
  apply (blank_scope_sheds_the_limit as_is narrow minted1 4 accounts ants "10.0.0.1"); try reflexivity. discriminate.
Defined.

(** Its owner made an operator, the admin's token is an operator's. *)
Definition demoted (id : string) : Fetched User :=
  found {| us_ID := "usr_1"; us_Username := "ant"; us_Role := RoleOperator; us_Disabled := false |}.
Definition admins : APIToken :=
  {| at_ID := "tok_2"; at_Name := "ops"; at_Role := RoleAdmin; at_OwnerRole := RoleAdmin; at_UserID := "usr_1"; at_Scopes := [];
     at_TokenHash := "h2"; at_Prefix := "zoom_2"; at_ExpiresAt := None; at_Revoked := false |}.
Definition acts : Identity := match authenticateToken (found admins) demoted 9 "10.0.0.3" with inr i => i | inl _ => narrow end.

Lemma token_within_its_owner_witness :
  id_Role acts = RoleOperator /\ Allowed (Some acts) "users.write" = false /\
  Allowed (Some (sessionIdentity {| us_ID := "usr_1"; us_Username := "ant"; us_Role := RoleOperator; us_Disabled := false |} "10.0.0.3")) "pools.write" = true.
Proof.
  split_and!; [vm_compute; reflexivity..|].
  eapply (token_within_its_owner admins demoted _ 9 "10.0.0.3" acts "pools.write"); [discriminate|reflexivity..|vm_compute; reflexivity].
Defined.

Lemma visitor_only_reads_witness : Verb "pools.read" = "read".
Proof. apply (visitor_only_reads "198.51.100.7" "pools.read"). reflexivity. Defined.
