(* ===== verification/FleetUpdates.v ===== *)
(** * A fleet that is brought up to date

    Concrete inputs for the theorems on automatic updating: a controller on 1.4.0 that takes
    its hosts along, and one on 1.3.5 whose next release has been public for a day. *)
From Stdlib Require Import ZArith Lia Ascii String.
From stdpp Require Import base strings list gmap relations.
From S2P Require Import Prelude GoFloat GoString GoText Versions Releases Updates.
Local Open Scope string_scope.
Local Open Scope list_scope.
Local Open Scope Z_scope.

Definition day : Duration := 24 * Hour.
Definition release_of (tag : string) (at_ : Time) : Release :=
  {| re_Tag := tag; re_URL := ""; re_PublishedAt := at_; re_Prerelease := false; re_Draft := false;
     re_Assets := ["checksums.txt"; "zoomies_linux_amd64"; "zoomies_linux_arm64"] |}.
Definition v140 : Release := release_of "v1.4.0" (10 * day).
Definition v135 : Release := release_of "v1.3.5" (2 * day).

Definition machine (id version : string) (runners : Z) (ended : list Attempt) : HostFacts :=
  {| hf_ID := id; hf_Name := id; hf_Version := version; hf_GOOS := "linux"; hf_GOARCH := "amd64"; hf_Embedded := false; hf_Healthy := true;
     hf_CanSelfUpdate := true; hf_WhyNot := ""; hf_ActiveRunners := runners; hf_Open := None; hf_Ended := ended |}.
Definition attempt (host to_ state : string) (ended : Time) : Attempt :=
  {| an_ID := "upd_" +:+ host; an_Scope := scopeHost; an_HostID := host; an_To := to_; an_State := state;
     an_RequestedAt := ended - Minute; an_FinishedAt := ended |}.
Definition walk : Rollout :=
  {| ro_ID := "rol_1"; ro_Target := "v1.4.0"; ro_Trigger := "manual"; ro_State := rolloutRunning; ro_HostIDs := []; ro_Since := 11 * day; ro_CancelledBy := "" |}.

Definition snapshot (mode : Mode) (running : string) (rollout : option Rollout) (hosts : list HostFacts) : updates_Snapshot :=
  {| us_Now := 12 * day; us_Mode := mode; us_Soak := day; us_Running := running; us_GOOS := "linux"; us_GOARCH := "amd64";
     us_Releases := [v135; v140]; us_Helper := HelperStateReady; us_HelperWhyNot := ""; us_Fenced := false; us_HostGraceUntil := 0;
     us_Controller := None; us_ControllerEnded := []; us_Rollout := rollout; us_LastRollout := None; us_Hosts := hosts |}.

(** Two hosts behind, one of them after a failure before the rollout was resumed, and one up to date. *)
Definition hosts0 : list HostFacts :=
  [machine "hst_a" "1.3.5" 3 []; machine "hst_b" "1.3.5" 1 [attempt "hst_b" "v1.4.0" "failed" (10 * day)]; machine "hst_c" "1.4.0" 0 []].
Definition walking : updates_Snapshot := snapshot ModeManual "1.4.0" (Some walk) hosts0.
Definition due : updates_Snapshot := snapshot ModeAuto "1.3.5" None hosts0.
Definition the_step (s : updates_Snapshot) : updates_Action :=
  match up_Actions (updates_Decide s) with [a] => a | _ => plain_action ActionTimeOut "" end.

Lemma walking_step : up_Actions (updates_Decide walking) = [the_step walking] /\ ua_Kind (the_step walking) = ActionUpdateHost /\ ua_HostID (the_step walking) = "hst_b".
Proof. split_and!; vm_compute; reflexivity. Qed.
Lemma due_step : up_Actions (updates_Decide due) = [the_step due] /\ ua_Kind (the_step due) = ActionRequestController.
Proof. split; vm_compute; reflexivity. Qed.

Lemma one_update_at_a_time_witness :
  the_step walking ∈ up_Actions (updates_Decide walking) /\ forall h, h ∈ us_Hosts walking -> hostAttempt h = None.
Proof.
  destruct walking_step as (E & Hk & _). assert (the_step walking ∈ up_Actions (updates_Decide walking)) as Hin by (rewrite E; left).
  split; [exact Hin|]. apply (one_update_at_a_time walking (the_step walking) Hin). unfold moves. rewrite Hk. right. right. left.
Defined.

Lemma updates_follow_the_mode_witness : us_Mode walking = ModeManual /\ (forall r, us_Rollout walking = Some r -> ro_State r <> rolloutHalted).
Proof.
  destruct walking_step as (E & Hk & _). assert (the_step walking ∈ up_Actions (updates_Decide walking)) as Hin by (rewrite E; left).
  split; [reflexivity|]. apply (updates_follow_the_mode walking (the_step walking) Hin). unfold moves. rewrite Hk. right. right. left.
Defined.

Lemma host_update_is_due_witness : exists h, h ∈ us_Hosts walking /\ hf_ID h = "hst_b" /\ CompareBuilds (hf_Version h) "1.4.0" = SkewBehind.
Proof.
  destruct walking_step as (E & Hk & Hid). assert (the_step walking ∈ up_Actions (updates_Decide walking)) as Hin by (rewrite E; left).
  destruct (host_update_is_due walking (the_step walking) Hin Hk) as (r & h & _ & _ & Hh & Hhid & _ & _ & _ & _ & Hb & _).
  exists h. split; [exact Hh|]. split; [by rewrite Hhid|]. apply Hb. vm_compute. reflexivity.
Defined.

Lemma controller_update_is_due_witness : exists r, r ∈ us_Releases due /\ re_Tag r = "v1.4.0" /\ re_PublishedAt r + us_Soak due <= us_Now due.
Proof.
  destruct due_step as (E & Hk). assert (the_step due ∈ up_Actions (updates_Decide due)) as Hin by (rewrite E; left).
  destruct (controller_update_is_due due (the_step due) Hin Hk) as (_ & _ & _ & r & Hr & Htag & _ & _ & _ & Hs & _).
  exists r. split; [exact Hr|]. split; [rewrite Htag; vm_compute; reflexivity|exact Hs].
Defined.

Lemma updates_any_order_witness : updates_Decide (with_lists walking (rev hosts0) [v140; v135]) = updates_Decide walking.
Proof.
  apply updates_any_order; [apply (bool_decide_unpack _); vm_compute; exact I..|apply Permutation_rev|apply perm_swap].
Defined.

Lemma walking_rolls : rolling walking walk.
Proof.
  split; [reflexivity|reflexivity|reflexivity|vm_compute; reflexivity|vm_compute; discriminate|vm_compute; reflexivity|..].
  - left. split; reflexivity.
  - apply (bool_decide_unpack _). vm_compute. exact I.
  - split; [reflexivity|]. intros h Hh%newPlanner_hosts. cbn in Hh. set_unfold in Hh. by destruct Hh as [->|[->|[->|[]]]].
  - intros h Hh _. cbn in Hh. set_unfold in Hh. destruct Hh as [->|[->|[->|[]]]]; vm_compute; reflexivity.
  - intros h Hh. cbn in Hh. set_unfold in Hh. destruct Hh as [->|[->|[->|[]]]]; vm_compute; reflexivity.
Qed.

(** The first pass updates the host with fewer jobs; the second, an hour later, the other; the third ends the rollout. *)
Definition walked : updates_Snapshot := after_update walking "hst_b" "1.4.0" (attempt "hst_b" "v1.4.0" "succeeded" (12 * day)) (12 * day + Hour).
Lemma rollout_reaches_every_host_witness : nsteps host_succeeds 1 walking walked /\ to_go walking = 2%nat /\
  exists a, up_Actions (updates_Decide walked) = [a] /\ ua_Kind a = ActionUpdateHost.
Proof.
  assert (nsteps host_succeeds 1 walking walked) as Hn.
  { apply nsteps_once. destruct walking_step as (E & Hk & Hid). unfold walked. rewrite <- Hid.
    apply (succeeds walking (the_step walking)); [rewrite E; left|exact Hk|vm_compute; reflexivity|vm_compute; discriminate|vm_compute; reflexivity|vm_compute; discriminate]. }
  split; [exact Hn|]. split; [vm_compute; reflexivity|].
  destruct (rollout_reaches_every_host walking walk 1 walked walking_rolls Hn) as [_ (a & E & Hk)]. exists a. split; [exact E|].
  rewrite Hk. vm_compute. reflexivity.
Defined.
