(* ===== verification/FleetAgent.v ===== *)
(** * A host, and what its agent does

    A host with one Docker daemon ([box]) that can be down, an agent on it, and tasks: the
    theorems of Claims.v, Agent.v, AgentTasks.v and AgentRuns.v that have hypotheses are
    applied to them.  So are those of TaskQueue.v, to the controller's queue for the host, and
    of Cleanup.v, to the row of a runner it removed. *)
From Stdlib Require Import ZArith Lia Ascii String.
From stdpp Require Import base strings list gmap relations sets.
From S2P Require Import Prelude GoString GoText Store Backend Claims Agent AgentTasks AgentLooks AgentRuns TaskQueue Cleanup.
Local Open Scope string_scope.
Local Open Scope list_scope.
Local Open Scope Z_scope.

(** ** Tasks and their goroutines *)
Definition jit : Credentials := {| cr_ExpiresAt := 0; cr_JITConfig := "jit"; cr_RegistrationToken := ""; cr_URL := "" |}.
Definition spec (id docker : string) : Spec :=
  {| sp_StartBefore := 0; sp_Name := "ci-" +:+ id; sp_RunnerID := id; sp_PoolID := "pool_1"; sp_Image := "runner:1"; sp_PullPolicy := "";
     sp_Credentials := jit; sp_Ephemeral := true; sp_DockerMode := docker |}.
Definition task (name : string) (kind : TaskKind) (runner : string) (sp : option Spec) : Task :=
  {| t_ID := name; t_Kind := kind; t_RunnerID := runner; t_Spec := sp; t_Backend := "docker"; t_PoolID := ""; t_Image := "";
     t_PullPolicy := ""; t_StopTimeout := 0; t_IssuedAt := 0; t_StreamID := ""; t_Tools := 0; t_Attempt := 1; t_UpdateID := ""; t_UpdateTag := "";
     t_MergeID := ""; t_MergeImage := ""; t_MergeAncestor := ""; t_MergeBase := ""; t_MergeHead := "" |}.
Definition create (id docker : string) : Task := task ("t-" +:+ id) TaskCreateRunner id (Some (spec id docker)).
Definition remove (id : string) : Task := task ("r-" +:+ id) TaskRemoveRunner id None.

Definition send (y : sys) (t : Task) : sys := dispatch (fun s => s) (fun l => l) y t.

(** The goroutine at the head moves. *)
Definition move (y : sys) : sys :=
  match y_procs y with
  | p :: rest => match go_step false (y_sh y) p with
                 | Some (sh, ps) => {| y_sh := sh; y_procs := ps ++ rest; y_recon := y_recon y |}
                 | None => y
                 end
  | [] => y
  end.

Lemma move_steps y : rtc host_step y (move y).
Proof.
  unfold move. destruct (y_procs y) as [|p rest] eqn:E; [done|]. destruct (go_step false (y_sh y) p) as [[sh ps]|] eqn:Eg; [|done].
  apply rtc_once. left. by apply (gstep_intro false y p rest); [rewrite E|].
Qed.
Lemma send_steps y t : rtc host_step y (send y t).
Proof. apply rtc_once. right. apply estep_dispatch. Qed.

Lemma moves_steps n y : rtc host_step y (Nat.iter n move y).
Proof. induction n as [|n IH]; [done|]. cbn. etrans; [exact IH|apply move_steps]. Qed.

(** Two creates are sent, and the second one's goroutine goes as far as its handler: the
    first, of the other lane, is not in its way. *)
Definition creating : sys := Nat.iter 6 move (send (send (booted 2) (create "run_1" "none")) (create "run_2" "dind")).
Lemma creating_reached : reachable 2 creating.
Proof. unfold reachable, creating. etrans; [apply send_steps|]. etrans; [apply send_steps|]. apply moves_steps. Qed.

Lemma one_at_a_time_witness :
  (p_pc <$> y_procs creating) = [PRun; PAdmission] /\ (t_RunnerID <$> claimed_tasks (y_procs creating)) = ["run_2"; "run_1"] /\
  NoDup ((t_RunnerID <$> claimed_tasks (y_procs creating)) ++ y_recon creating) /\ (length (in_slots (y_procs creating)) <= 2)%nat.
Proof.
  destruct (one_at_a_time 2 creating creating_reached) as (H1 & H2 & _). split; [vm_compute; reflexivity|].
  split; [vm_compute; reflexivity|]. split; [exact H1|exact H2].
Defined.

(** A remove arrives meanwhile, and waits. *)
Definition overtaken : sys := dispatch (fun s => s) (fun l => l) creating (remove "run_2").
Lemma overtaken_reached : reachable 2 overtaken.
Proof. unfold reachable. eapply rtc_r; [apply creating_reached|]. right. exact (estep_dispatch _ _ creating (remove "run_2")). Qed.

Lemma goroutines_come_to_an_end_witness :
  waiting (sh_claims (y_sh overtaken)) !! "run_2" = Some (remove "run_2") /\ sn gstep overtaken /\
  forall y', rtc gstep overtaken y' -> (forall y'', ~ gstep y' y'') -> y_procs y' = [] /\ waiting (sh_claims (y_sh y')) = ∅.
Proof.
  destruct (goroutines_come_to_an_end 2 overtaken overtaken_reached ltac:(lia)) as [Hsn Hend].
  split; [vm_compute; reflexivity|]. split; [exact Hsn|]. intros y' Hs Hstuck. destruct (Hend y' Hs Hstuck) as (H1 & H2 & _).
  split; [exact H1|exact H2].
Defined.

Lemma a_remove_is_never_lost_witness :
  waiting (sh_claims (y_sh overtaken)) !! "run_2" = Some (remove "run_2") /\
  forall y2, rtc host_step overtaken y2 -> waiting (sh_claims (y_sh y2)) !! "run_2" = Some (remove "run_2") \/
    exists ya yb, rtc host_step overtaken ya /\ host_step ya yb /\ spawned (remove "run_2") ∈ y_procs yb /\ rtc host_step yb y2.
Proof.
  assert (Hw : waiting (sh_claims (y_sh overtaken)) !! "run_2" = Some (remove "run_2")) by (vm_compute; reflexivity).
  split; [exact Hw|]. revert Hw. unfold overtaken. generalize creating_reached. generalize creating. intros y Hy Hw y2 Hs.
  destruct (a_remove_is_never_lost 2 y (fun s => s) (fun l => l) (remove "run_2") Hy eq_refl eq_refl) as [_ H].
  destruct (H Hw y2 Hs) as [H'|(ya & yb & H1 & _ & H2 & H3 & H4)]; [left; exact H'|].
  right. exists ya, yb. split; [exact H1|]. split; [exact H2|]. split; [exact H3|exact H4].
Defined.

(** ** A host with a Docker daemon *)
Record box := { bx_now : Time; bx_docker : option (list Workload) }.

Definition running_box (h name id : string) (started : Time) : Workload :=
  {| w_Handle := h; w_Name := name; w_RunnerID := id; w_Sidecar := false;
     w_Status := {| s_Phase := PhaseRunning; s_ExitCode := 0; s_Message := ""; s_StartedAt := started; s_OOMKilled := false;
                    s_OOMReported := true; s_SidecarOOMKilled := false |} |}.
Definition exited_box (h name id : string) (started : Time) (code : Z) : Workload :=
  {| w_Handle := h; w_Name := name; w_RunnerID := id; w_Sidecar := false;
     w_Status := {| s_Phase := PhaseExited; s_ExitCode := code; s_Message := ""; s_StartedAt := started; s_OOMKilled := false;
                    s_OOMReported := true; s_SidecarOOMKilled := false |} |}.

Definition no_daemon : error := {| err_text := "cannot connect to the Docker daemon"; err_kinds := [ErrUnavailable] |}.

#[global] Instance box_host : Host box := {
  host_List kind w :=
    if str_eqb kind "docker" then (match bx_docker w with Some l => inl l | None => inr no_daemon end, w) else (inl [], w);
  host_Create _ sp w :=
    match bx_docker w with
    | Some l => (inl ("c-" +:+ sp_RunnerID sp),
                 {| bx_now := bx_now w; bx_docker := Some (l ++ [running_box ("c-" +:+ sp_RunnerID sp) (sp_Name sp) (sp_RunnerID sp) (bx_now w)]) |})
    | None => (inr no_daemon, w)
    end;
  host_Stop _ _ _ w := (None, w);
  host_Remove _ h w :=
    match bx_docker w with
    | Some l => (None, {| bx_now := bx_now w; bx_docker := Some (List.filter (fun x => negb (str_eqb (w_Handle x) h)) l) |})
    | None => (Some no_daemon, w)
    end;
  host_Logs _ _ w := (Some ("", false), w);
  host_now w := (bx_now w, w);
  host_cancelled w := (false, w);
  host_sleep _ w := (true, w)
}.

Definition t0 : Time := 1000 * Hour.
Definition agent0 : Agent :=
  {| ag_Backends := NewRegistry ["docker"]; ag_Name := "host-1"; ag_DefaultBackend := "docker"; ag_retention := 10 * Minute;
     ag_runners := ∅; ag_claims := {| inflight := ∅; running := ∅; waiting := ∅ |}; ag_orphans := ∅; ag_inventoryPending := ∅;
     ag_removing := ∅; ag_polled := true; ag_mutationsPaused := false |}.
Definition at_start : st box := {| st_agent := agent0; st_world := {| bx_now := t0; bx_docker := Some [] |}; st_calls := [] |}.

(** A create is carried out, and is sent again an hour later: nothing is created twice. *)
Definition created : st box := (runTask (create "run_1" "none") (fresh at_start)).2.
Lemma created_is : created = (handleCreate (create "run_1" "none") (spec "run_1" "none") at_start).2.
Proof. vm_compute. reflexivity. Qed.
Lemma create_is_not_repeated_witness :
  (as_call <$> st_calls created) = [CList "docker" (inl []); CCreate "docker" (spec "run_1" "none")] /\
  exists e' ws, e' ∈ st_calls created /\ as_call e' = CList "docker" (inl ws) /\ forall w, w ∈ ws -> w_RunnerID w = "run_1" -> w_Sidecar w = true.
Proof.
  split; [vm_compute; reflexivity|].
  assert (H := create_is_not_repeated at_start (create "run_1" "none") (spec "run_1" "none") eq_refl).
  destruct (handleCreate (create "run_1" "none") (spec "run_1" "none") at_start) as [res s'] eqn:E.
  assert (Es : st_calls s' = st_calls created) by (rewrite created_is, E; reflexivity).
  destruct (st_calls created) as [|e1 [|e2 [|? ?]]] eqn:Ec; [vm_compute in Ec; discriminate..| |vm_compute in Ec; discriminate].
  destruct (H [e1] e2 [] "docker" (spec "run_1" "none") Es) with (kind := "docker") as (e' & ws & He & Hc & Hw).
  - vm_compute in Ec. injection Ec as _ <-. reflexivity.
  - vm_compute. eexists. reflexivity.
  - exists e', ws. apply list_elem_of_singleton in He. split; [rewrite He; left|]. split; [exact Hc|exact Hw].
Defined.

(** ** A daemon that is down

    An hour later the daemon does not answer, and the runner is still in its registry of
    records as it was. *)
Definition at_noon : st box :=
  {| st_agent := st_agent created; st_world := {| bx_now := t0 + Hour; bx_docker := None |}; st_calls := [] |}.
Definition run_1 : tracked := created_runner (create "run_1" "none") (spec "run_1" "none") "docker" "c-run_1" t0.

(** The same host, on which no daemon ever answers. *)
Definition dead_host : Host box := {|
  host_List kind w := if str_eqb kind "docker" then (inr no_daemon, w) else (inl [], w);
  host_Create _ _ w := (inr no_daemon, w);
  host_Stop _ _ _ w := (Some no_daemon, w);
  host_Remove _ _ w := (Some no_daemon, w);
  host_Logs _ _ w := (None, w);
  host_now w := (bx_now w, w);
  host_cancelled w := (false, w);
  host_sleep _ w := (true, w)
|}.

Lemma created_records : ag_runners (st_agent at_noon) = {["run_1" := run_1]}.
Proof. vm_compute. reflexivity. Qed.

Lemma unlisted_backend_says_nothing_witness :
  ag_runners (st_agent at_noon) !! "run_1" = Some run_1 /\
  let '((reports, _), s') := ReconcileOnce (H := dead_host) at_noon in
  ag_runners (st_agent s') !! "run_1" = Some run_1 /\ (forall x, x ∈ reports -> rp_RunnerID x <> "run_1").
Proof.
  assert (E : ag_runners (st_agent at_noon) !! "run_1" = Some run_1) by (rewrite created_records; apply lookup_singleton_eq).
  split; [exact E|].
  assert (Hpass : let '((reports, _), s') := ReconcileOnce (H := dead_host) at_noon in
    ag_runners (st_agent s') !! "run_1" = Some run_1 /\
    (forall x, x ∈ reports -> rp_RunnerID x = "run_1" -> tr_hostRemoved run_1 = true /\ x = report run_1)).
  { apply (@unlisted_backend_says_nothing box dead_host at_noon "run_1" run_1).
    - intros i x. rewrite created_records. rewrite lookup_singleton_Some. intros [<- <-]. reflexivity.
    - exact E.
    - vm_compute. eexists. reflexivity.
    - intros w. exists no_daemon. reflexivity.
    - intros k w ws x. cbn. destruct (str_eqb k "docker"); [discriminate|]. cbn. intros [= <-] Hx. destruct (not_elem_of_nil x Hx). }
  destruct (ReconcileOnce (H := dead_host) at_noon) as [[reports err] s']. destruct Hpass as [H1 H2]. split; [exact H1|].
  intros x Hx Hid. destruct (H2 x Hx Hid) as [Hrem _]. vm_compute in Hrem. discriminate Hrem.
Defined.

(** ** The end of a runner

    The runner is created, its job ends, the controller accepts the report, and ten
    minutes later its container goes; so does a container nobody claims, which the first
    look has seen and left. *)
Definition step_st (s : st box) (now : Time) (docker : list Workload) : st box :=
  {| st_agent := set_claims (set_flags (st_agent s) true (ag_mutationsPaused (st_agent s))) (ag_claims (st_agent s));
     st_world := {| bx_now := now; bx_docker := Some docker |}; st_calls := st_calls s |}.
Definition done_box : Workload := exited_box "c-run_1" "ci-run_1" "run_1" t0 0.
Definition stray_box : Workload := running_box "c-stray" "stray" "" t0.
Definition boxes : list Workload := [done_box; stray_box].

Definition first_look : (list RunnerReport * option error) * st box := ReconcileOnce (fresh (step_st created (t0 + 30 * Minute) boxes)).
Definition the_look : look := {| lk_at := t0 + 30 * Minute; lk_calls := st_calls first_look.2; lk_reports := first_look.1.1 |}.
Definition reported : st box := (sendReports true first_look.1.1 first_look.2).2.
Definition last_look : st box := step_st reported (t0 + 41 * Minute) boxes.
Definition the_run : agent_run (W := box) :=
  {| run_st := last_look; run_sent := [first_look.1.1]; run_accepted := first_look.1.1; run_looks := [the_look] |}.

(** The steps of the run, each from whatever the one before it came to. *)
Lemma by_task (s : st box) sent acc lks t :
  run_step {| run_st := s; run_sent := sent; run_accepted := acc; run_looks := lks |}
           {| run_st := (runTask t (fresh s)).2; run_sent := sent; run_accepted := acc; run_looks := lks |}.
Proof. eapply run_task, surjective_pairing. Qed.
Lemma by_time (s : st box) sent acc lks now docker :
  run_step {| run_st := s; run_sent := sent; run_accepted := acc; run_looks := lks |}
           {| run_st := step_st s now docker; run_sent := sent; run_accepted := acc; run_looks := lks |}.
Proof. apply (run_others s sent acc lks true). Qed.
Lemma by_look (s : st box) sent acc lks :
  run_step {| run_st := s; run_sent := sent; run_accepted := acc; run_looks := lks |}
           {| run_st := (ReconcileOnce (fresh s)).2; run_sent := sent ++ [(ReconcileOnce (fresh s)).1.1]; run_accepted := acc;
              run_looks := lks ++ [{| lk_at := (host_now (st_world s)).1; lk_calls := st_calls (ReconcileOnce (fresh s)).2;
                                      lk_reports := (ReconcileOnce (fresh s)).1.1 |}] |}.
Proof. apply run_reconcile with (err := (ReconcileOnce (fresh s)).1.2). by destruct (ReconcileOnce (fresh s)) as [[? ?] ?]. Qed.
Lemma by_answer (s : st box) sent acc lks reports :
  reports ∈ sent ->
  run_step {| run_st := s; run_sent := sent; run_accepted := acc; run_looks := lks |}
           {| run_st := (sendReports true reports s).2; run_sent := sent; run_accepted := acc ++ reports; run_looks := lks |}.
Proof. intros Hin. apply run_accept; [done|]. by destruct (sendReports true reports s) as [[] ?]. Qed.

Lemma the_run_reached : run_reached the_run.
Proof.
  exists {| run_st := at_start; run_sent := []; run_accepted := []; run_looks := [] |}. split; [by split_and!|].
  eapply rtc_l; [exact (by_task at_start [] [] [] (create "run_1" "none"))|]. fold created.
  eapply rtc_l; [exact (by_time created [] [] [] (t0 + 30 * Minute) boxes)|].
  eapply rtc_l; [exact (by_look (step_st created (t0 + 30 * Minute) boxes) [] [] [])|]. fold first_look.
  eapply rtc_l; [exact (by_answer first_look.2 [first_look.1.1] [] [the_look] first_look.1.1 ltac:(left))|]. fold reported.
  apply rtc_once. exact (by_time reported [first_look.1.1] first_look.1.1 [the_look] (t0 + 41 * Minute) boxes).
Qed.

Lemma nothing_deleted_too_soon_witness :
  exists s', (ReconcileOnce (fresh last_look)).2 = s' /\
  (as_call <$> st_calls s') = [CList "docker" (inl boxes); CRemove "docker" "c-run_1"; CList "docker" (inl [stray_box]);
                               CRemove "docker" "c-stray"] /\
  forall before e after k h, st_calls s' = before ++ e :: after -> as_call e = CRemove k h ->
    exists w, listed before k w /\ may_delete (told_by (run_accepted the_run)) (t0 + 41 * Minute) (as_agent e) w /\
      (ended_since [the_look] (t0 + 41 * Minute) (as_agent e) w \/ unclaimed_since [the_look] (t0 + 41 * Minute) w).
Proof.
  assert (H := nothing_deleted_too_soon the_run the_run_reached). cbv zeta in H.
  assert (Hc : (as_call <$> st_calls (ReconcileOnce (fresh last_look)).2) =
    [CList "docker" (inl boxes); CRemove "docker" "c-run_1"; CList "docker" (inl [stray_box]); CRemove "docker" "c-stray"])
    by (vm_compute; reflexivity).
  change (run_st the_run) with last_look in H. destruct (ReconcileOnce (fresh last_look)) as [res s'] eqn:E. exists s'.
  split; [reflexivity|]. split; [exact Hc|]. intros before e after k h Hs He.
  destruct (H before e after k h Hs He) as (w & Hw & _ & Hm & Hd). exists w. split; [exact Hw|]. split; [exact Hm|].
  destruct Hd as [[_ Hd]|[_ Hd]]; [left|right]; exact Hd.
Defined.

(** A job that fails for want of memory. *)
Lemma terminal_outcome_is_fair_witness :
  terminalOutcome run_1 (w_Status (exited_box "c-run_1" "ci-run_1" "run_1" t0 137)) =
    (RunnerFailed, "runner was killed (exit 137), but the daemon reports no memory kill: it was stopped from outside, by docker stop, an operator or the host", FaultRunnerExited) /\
  FaultKind_Valid FaultRunnerExited = true.
Proof.
  assert (E : terminalOutcome run_1 (w_Status (exited_box "c-run_1" "ci-run_1" "run_1" t0 137)) =
    (RunnerFailed, "runner was killed (exit 137), but the daemon reports no memory kill: it was stopped from outside, by docker stop, an operator or the host", FaultRunnerExited)) by reflexivity.
  split; [exact E|]. destruct (terminal_outcome_is_fair _ _ _ _ _ E) as (_ & _ & H & _). by apply H.
Defined.

(** ** The queue the host is sent its tasks from *)
Definition q_do (y : qsys) (e : qevent) : qsys :=
  let at_ q n sent ids := {| qs_q := q; qs_owed := n; qs_sent := sent; qs_ids := ids |} in
  let 'Build_qsys q n sent ids := y in
  match e with
  | EPut t => if decide (t_ID t ∈ ids) then y
              else match enqueue_locked q t with Some q' => at_ q' (S n) sent ({[t_ID t]} ∪ ids) | None => y end
  | ESignal => match n with S n' => at_ (signal q) n' sent ids | O => y end
  | EPoll mayAct now => let '(p, q') := poll_begin false mayAct "host" now q in at_ q' n (sent ++ batch_of p) ids
  | EComplete id => at_ (complete q id).2 n sent ids
  | ERedeliver id => let '(r, q') := redeliver_locked q id in at_ q' (match r with redelivered => S n | _ => n end) sent ids
  | _ => y
  end.

Lemma q_do_steps y e : rtc q_steps y (q_do y e).
Proof.
  destruct y as [q n sent ids], e; cbn -[poll_begin enqueue_locked redeliver_locked complete]; try done.
  - case_decide; [done|]. destruct (enqueue_locked q t) eqn:E; [|done]. apply rtc_once. eexists. by apply q_put.
  - destruct n; [done|]. apply rtc_once. eexists. apply q_signal.
  - destruct (poll_begin false mayAct "host" now q) as [p q'] eqn:E. apply rtc_once. eexists. by apply q_poll.
  - apply rtc_once. eexists. apply q_complete.
  - destruct (redeliver_locked q taskID) as [r q'] eqn:E. apply rtc_once. eexists. by apply q_redeliver.
Qed.

Lemma q_run_reached es : q_reached (foldl q_do q_new es).
Proof.
  unfold q_reached. generalize q_new. induction es as [|e es IH]; intros y; [done|]. cbn. etrans; [apply q_do_steps|apply IH].
Qed.

(** A create is sent, given back unstarted, and sent again. *)
Definition sent_twice : qsys :=
  foldl q_do q_new [EPut (create "run_1" "none"); ESignal; EPoll true 1000; ERedeliver "t-run_1"; ESignal; EPoll true 2000].

Lemma deliveries_are_numbered_witness :
  attempts_of "t-run_1" (qs_sent sent_twice) = [1; 2] /\
  NoDup ((fun lt => taskKey (lt_task lt)) <$> outstanding (qs_q sent_twice)).
Proof.
  destruct (deliveries_are_numbered sent_twice (q_run_reached _)) as (_ & _ & _ & H). split; [vm_compute; reflexivity|exact H].
Defined.

(** The task in flight is kept while another comes. *)
Definition queued_remove : qsys := q_do sent_twice (EPut (remove "run_1")).

Lemma outstanding_until_told_witness :
  exists lt, lt ∈ outstanding (qs_q sent_twice) /\ lt_attempts lt = 2 /\
  ((exists lt', lt' ∈ outstanding (qs_q queued_remove) /\ bare (lt_task lt') = bare (lt_task lt)) \/
   lets_go (qs_q sent_twice) (EPut (remove "run_1")) lt).
Proof.
  set (lt := {| lt_task := delivery (create "run_1" "none") 2000 2; lt_key := "create_runner|run_1"; lt_attempts := 2;
                lt_expires := 2000 + createLease |}).
  assert (Hl : lt ∈ outstanding (qs_q sent_twice)) by (apply (outstanding_in _ "t-run_1"); vm_compute; reflexivity).
  exists lt. split; [exact Hl|]. split; [reflexivity|].
  apply (outstanding_until_told sent_twice (EPut (remove "run_1")) queued_remove lt); [apply q_run_reached| |exact Hl].
  assert (He : exists q', enqueue_locked (qs_q sent_twice) (remove "run_1") = Some q' /\
    queued_remove = {| qs_q := q'; qs_owed := 1; qs_sent := qs_sent sent_twice; qs_ids := {["r-run_1"]} ∪ qs_ids sent_twice |}).
  { eexists. split; vm_compute; reflexivity. }
  destruct He as (q' & He & ->). apply (q_put (qs_q sent_twice) 0 (qs_sent sent_twice) (qs_ids sent_twice)); [|exact He].
  apply (bool_decide_eq_false_1 _). vm_compute. reflexivity.
Defined.

(** A poll waits, and a task is put in the queue but not yet announced. *)
Definition unannounced : qsys := foldl q_do q_new [EPoll true 1000; EPut (create "run_1" "none")].

Lemma no_wakeup_is_lost_witness :
  tq_wake (qs_q unannounced) = false /\
  exists y1 y2, (y1 = unannounced \/ q_step unannounced ESignal y1) /\ q_step y1 (EWake (Woken true) 3000) y2 /\
    t_ID <$> qs_sent y2 = ["t-run_1"].
Proof.
  split; [vm_compute; reflexivity|].
  destruct (no_wakeup_is_lost unannounced 3000) as (y1 & y2 & H1 & H2 & _ & H3 & _);
    [apply q_run_reached|vm_compute; reflexivity|vm_compute; reflexivity|vm_compute; discriminate|].
  exists y1, y2. split; [exact H1|]. split; [exact H2|]. rewrite H3. vm_compute. reflexivity.
Defined.

(** ** Cleaning up *)
(** A host complains and GitHub confirms; the host's workload is gone later, and its late
    complaint is refused. *)
Definition inserted_row : gmap string cleanup := <["r1" := not_cleaned]> ∅.
Definition complained : gmap string cleanup := (RecordCleanupFailure inserted_row "r1" "the container would not stop" 1000).2.
Definition unregistered_row : gmap string cleanup := (RecordRegistrationDeleted complained "r1" 2000).2.
Definition cleaned_rows : gmap string cleanup := (ConfirmRunnerCleanup unregistered_row "r1" true 3000).2.
Definition cleaned_state : cleanups :=
  {| cs_rows := (RecordCleanupFailure cleaned_rows "r1" "too late" 4000).2;
     cs_closed := add_at (add_at (add_at (add_at (add_at (fun _ => 0%nat) "r1" false) "r1" false) "r1" false) "r1" true) "r1" false;
     cs_reopened := add_at (add_at (add_at (add_at (add_at (fun _ => 0%nat) "r1" false) "r1" false) "r1" false) "r1" false) "r1" false |}.

Lemma cleaned_reached : cleanups_reached cleaned_state.
Proof.
  unfold cleanups_reached, cleaned_state.
  eapply rtc_l; [exact (cs_write ∅ _ _ _ _ _ (cw_insert ∅ "r1" eq_refl))|].
  eapply rtc_l; [exact (cs_write _ _ _ _ _ _ (cw_failure inserted_row "r1" "the container would not stop" 1000))|].
  eapply rtc_l; [exact (cs_write _ _ _ _ _ _ (cw_confirm complained "r1" false 2000))|].
  eapply rtc_l; [exact (cs_write _ _ _ _ _ _ (cw_confirm unregistered_row "r1" true 3000))|].
  apply rtc_once. exact (cs_write _ _ _ _ _ _ (cw_failure cleaned_rows "r1" "too late" 4000)).
Qed.

Lemma cleanup_closes_once_witness :
  exists c, cs_rows cleaned_state !! "r1" = Some c /\ cleaned_up_at c = Some 3000 /\ cleanup_error c = "" /\
    cleanup_ok c /\ cs_closed cleaned_state "r1" = 1%nat.
Proof.
  eexists. split; [vm_compute; reflexivity|]. split; [reflexivity|]. split; [reflexivity|].
  apply (cleanup_closes_once cleaned_state "r1"); [apply cleaned_reached|vm_compute; reflexivity].
Defined.
