(* ===== verification/FleetResults.v ===== *)
(** * A controller hearing from a host

    One host, its queue and its runners' rows: the theorems of Results.v that have hypotheses
    are applied to them, the loss of a lease to a poll in the middle of a result among them. *)
From Stdlib Require Import ZArith Lia Ascii String.
From stdpp Require Import base strings list gmap relations sets.
From S2P Require Import Prelude GoFloat GoString GoText Store Lifecycle Backend Claims Agent AgentTasks TaskQueue Cleanup Results FleetAgent.
Local Open Scope string_scope.
Local Open Scope list_scope.
Local Open Scope Z_scope.

(** A store that answers, no job in progress, GitHub that deletes what it is asked to. *)
#[local] Instance quiet : Outside :=
  {| ow_down := fun _ => false; ow_clock := fun n => 1000 + Z.of_nat n; ow_running := fun _ _ => false;
     ow_github := fun _ _ => RegistrationGone; ow_random := fun _ => "0badc0de"; ow_backend := fun _ => "docker";
     ow_hostName := fun id => id; ow_mayAct := true |}.

Definition row_on (host id : string) (state : RunnerState) : Runner :=
  {| r_ID := id; r_PoolID := "pool_1"; r_HostID := host; r_Name := "ci-" +:+ id; r_Ephemeral := true; r_State := state; r_Image := "runner:1";
     r_CurrentJobID := ""; r_CreatedAt := 500; r_ContainerStartedAt := None; r_RegisteredAt := None;
     r_DrainingSince := if is_state state RunnerDraining then Some 600 else None; r_StartedAt := None; r_LastIdleAt := None; r_FinishedAt := None;
     r_Message := ""; r_JobsHandled := 0; r_AllocatedCPUs := f64_of_Z 1; r_AllocatedMemoryMB := 512; r_AllocationSource := "";
     r_LentMemoryMB := 0; r_FaultKind := "" |}.

(** A create is with the host, and a runner of another host drains. *)
Definition told_so_far : ctl :=
  {| ct_runners := {[ "run_1" := row_on "host" "run_1" RunnerProvisioning; "run_9" := row_on "other" "run_9" RunnerDraining ]};
     ct_cleanups := {[ "run_1" := not_cleaned; "run_9" := not_cleaned ]}; ct_containers := ∅;
     ct_queues := {[ "host" := qs_q (foldl q_do q_new [EPut (create "run_1" "none"); ESignal; EPoll true 1000]) ]}; ct_told := []; ct_asked := 0 |}.

Lemma told_keyed : keyed told_so_far.
Proof.
  intros id r. cbn [told_so_far ct_runners]. rewrite lookup_insert_Some, lookup_singleton_Some. intros [[<- <-]|[_ [<- <-]]]; done.
Qed.

(** The container runs. *)
Definition created_ok : posted_result :=
  {| po_result := {| rs_TaskID := "t-run_1"; rs_Kind := TaskCreateRunner; rs_RunnerID := "run_1"; rs_OK := true; rs_NotStarted := false;
                     rs_CleanupPending := false; rs_Handle := "c0ffee"; rs_Error := ""; rs_State := Some RunnerRegistering; rs_Fault := "";
                     rs_CompletedAt := 900 |};
     po_service := 3 * Second; po_started := Some 900; po_digest := "sha256:1" |}.
Definition after_create : ctl := (ReportResult "host" created_ok told_so_far).2.

Lemma messages_are_transactions_witness :
  r_State <$> ct_runners (handle (Answer "host" created_ok) told_so_far) !! "run_1" = Some RunnerRegistering /\
  rtc tx (tables told_so_far) (tables (handle (Answer "host" created_ok) told_so_far)).
Proof. split; [vm_compute; reflexivity|]. apply (messages_are_transactions (Answer "host" created_ok) told_so_far told_keyed). Defined.

(** The host answers for the other's runner. *)
Definition impostor : posted_result :=
  {| po_result := {| rs_TaskID := "t-run_1"; rs_Kind := TaskStopRunner; rs_RunnerID := "run_9"; rs_OK := false; rs_NotStarted := false;
                     rs_CleanupPending := false; rs_Handle := ""; rs_Error := "gone"; rs_State := None; rs_Fault := ""; rs_CompletedAt := 900 |};
     po_service := 0; po_started := None; po_digest := "" |}.

Lemma hosts_speak_of_their_own_witness :
  (ReportResult "host" impostor told_so_far).1 = inl (WrongHost "host" "run_9" "other") /\
  elsewhere_same (of_host told_so_far "host") "host" told_so_far (ReportResult "host" impostor told_so_far).2.
Proof.
  split; [vm_compute; reflexivity|].
  exact (proj1 (hosts_speak_of_their_own "host" impostor [] told_so_far told_keyed)).
Defined.

Lemma lease_until_applied_witness :
  peek (get_queue (ct_queues told_so_far) "host") "t-run_1" <> None /\ peek (get_queue (ct_queues after_create) "host") "t-run_1" = None.
Proof.
  split; [vm_compute; discriminate|].
  assert (E : ReportResult "host" created_ok told_so_far = (inr tt, after_create)) by (vm_compute; reflexivity).
  exact (proj1 (lease_until_applied "host" created_ok told_so_far after_create (inr tt) told_keyed E)).
Defined.

Lemma answered_twice_as_once_witness :
  r_State <$> ct_runners after_create !! "run_1" = Some RunnerRegistering /\
  ct_runners (ReportResult "host" created_ok after_create).2 = ct_runners after_create.
Proof.
  split; [vm_compute; reflexivity|].
  apply (answered_twice_as_once "host" created_ok told_so_far after_create told_keyed); [discriminate| |vm_compute; reflexivity].
  intros t. vm_compute. intros [= <-] H. set_solver.
Defined.

(** A stop sent three times and never answered. *)
Definition stop_task : Task := task "s-run_9" TaskStopRunner "run_9" None.
Definition stop_in_flight : leasedTask := {| lt_task := delivery stop_task 1000 3; lt_key := "stop_runner|run_9"; lt_attempts := 3; lt_expires := 1000 + stopLease |}.
Definition draining_still : ctl :=
  with_queues told_so_far {[ "other" := with_tasks new_queue [] {[ "s-run_9" := stop_in_flight ]} ]}.

Lemma unconfirmed_stop_frees_its_runner_witness :
  (r_State <$> ct_runners draining_still !! "run_9") = Some RunnerDraining /\
  match ct_runners (sweep_host (fun l => l) (1000 + Hour) "other" draining_still).2 !! "run_9" with
  | Some r => Terminal (r_State r) = true
  | None => True
  end.
Proof.
  split; [vm_compute; reflexivity|].
  assert (Hin : stop_in_flight ∈ (map_to_list (tq_inflight (get_queue (ct_queues draining_still) "other"))).*2).
  { apply list_elem_of_fmap_2 with (f := snd) (x := ("s-run_9", stop_in_flight)). apply elem_of_map_to_list. vm_compute. reflexivity. }
  destruct (unconfirmed_stop_frees_its_runner (fun l => l) (1000 + Hour) "other" draining_still stop_in_flight
    (fun l => reflexivity l) told_keyed Hin eq_refl eq_refl eq_refl) as (s1 & _ & [(n & _ & Hn)|Hs]); [discriminate Hn|exact Hs].
Defined.

(** ** A task given back while its host polls *)
(** A create is sent and given back unstarted. *)
Definition create_sent : qsys := foldl q_do q_new [EPut (create "run_1" "none"); ESignal; EPoll true 1000].
Definition given_back : posted_result :=
  {| po_result := {| rs_TaskID := "t-run_1"; rs_Kind := TaskCreateRunner; rs_RunnerID := "run_1"; rs_OK := false; rs_NotStarted := true;
                     rs_CleanupPending := false; rs_Handle := ""; rs_Error := "agent shut down"; rs_State := None; rs_Fault := "";
                     rs_CompletedAt := 900 |};
     po_service := 0; po_started := None; po_digest := "" |}.
Definition create_in_flight : leasedTask :=
  {| lt_task := delivery (create "run_1" "none") 1000 1; lt_key := "create_runner|run_1"; lt_attempts := 1; lt_expires := 1000 + createLease |}.

Lemma given_back_task_loses_its_lease_witness :
  exists y4 more, q_reached y4 /\ qs_sent y4 = qs_sent create_sent ++ delivery (create "run_1" "none") 2000 2 :: more /\
    forall x, x ∈ outstanding (qs_q y4) -> lt_id x <> "t-run_1".
Proof.
  assert (Hin : tq_inflight (qs_q create_sent) !! "t-run_1" = Some create_in_flight) by (vm_compute; reflexivity).
  assert (Hr : q_reached create_sent) by apply q_run_reached.
  destruct (given_back_task_loses_its_lease "host" given_back told_so_far create_sent create_in_flight 2000 Hr eq_refl eq_refl eq_refl Hin
    eq_refl eq_refl) as (y1 & y2 & S1 & S2 & (y3 & y4 & more & S3 & S4 & Hs & Hgone) & _).
  exists y4, more. split; [|split; [exact Hs|exact Hgone]].
  unfold q_reached in *. eapply rtc_r; [eapply rtc_r; [eapply rtc_r; [eapply rtc_r; [exact Hr|]|]|]|]; eexists; eassumption.
Defined.
